(* ===== verification/_CoqProject ===== *)
-Q . S2P
Prelude.v
Cstring.v
Proctab.v
Sched.v
Proc.v
ProcInv.v
ProcOps.v
Sem.v
System.v
SystemInv.v
ProcClaims.v
Frame.v
SemClaims.v
Pipe.v
Kalloc.v
Bytes.v
Bio.v
BioSpec.v
Log.v
LogCopy.v
LogCrash.v
LogClaims.v
Blocks.v
Fs.v
FsAlloc.v
FsInode.v
FsFile.v
FsRw.v
FsWrite.v
FsView.v
FsCall.v
FsClaims.v
Shell.v
ShellParse.v
ShellPrint.v
ShellRun.v
Grep.v
Args.v
File.v
FileInv.v
FileCalls.v
FileFs.v
Vm.v
VmSpace.v
VmUser.v
VmOps.v
VmCopy.v
VmAccess.v
VmClaims.v
Exec.v
ExecInv.v
ExecClaims.v
Printf.v
Console.v
Umalloc.v
UmallocInv.v
UmallocClaims.v
Mkfs.v
MkfsInv.v
MkfsImage.v
MkfsClaims.v
Spinlock.v
SpinlockClaims.v
Sleeplock.v
Lsh.v
LshClaims.v
Ide.v
IdeClaims.v
Mp.v
Boot.v
BootClaims.v
Kbd.v
Utils.v
