(* ===== verification/Prelude.v ===== *)
(** * Verification of the teaching kernel under [src/Lab/code] (an xv6 variant)

    The program is a small Unix for the i386, with its user programs and the
    tool that makes its disk image.  It is translated into Rocq functions, file
    by file; a C function keeps its name.  The theorems whose comment starts
    with C and a number are the properties of the development; the other
    lemmas carry them, or state smaller facts.

    ** How the code is modelled

    An integer is a [Z] in the range of its C type, with the conversions [u8],
    [u16], [u32], [s16] and [s32] written where C converts.  A byte is a [Z]
    from 0 to 255, a string a list of bytes; a pointer into a table is an index,
    a null pointer [None]; memory that is addressed (pages, page tables, the
    free list of [kalloc.c]) is a function from addresses to bytes.  A kernel
    routine is a function of the monad [M] below: it returns, it panics, or it
    goes to sleep in a state from which the loop that called [sleep] is entered
    again.  [wp] and [total] are its program logic.  Concurrent parts are
    transition systems whose steps are the pieces between two points where a
    process can be interrupted or gives up a lock; their theorems are about
    every interleaving.  A component that others use has an interface, a class
    of operations with a class of laws; clients are verified against it and
    implementations are instances: [VmOps]/[FileOps] (below [Proc]),
    [BlockOps]/[BlockLaws] (below [Fs]), [FsOps]/[FsLaws] (below [File] and
    [Exec]), [Ports]/[IdeDevice] (below [Ide] and [Boot]).

    ** The parts, from the bottom

    - [Prelude] (this file): integers, the monad, table scans.  [Bytes]:
      little-endian fields in byte arrays.  [Cstring]: [string.c] and the string
      routines of [ulib.c].
    - [Boot], [BootClaims]: [bootmain.c], the boot loader.  [Mp]: [mp.c], the
      tables of the BIOS.
    - [Spinlock], [SpinlockClaims]: [spinlock.c] at the granularity of memory
      accesses, with interrupts.  [Sleeplock]: [sleeplock.c] with [sleep] and
      [wakeup].  The parts above take a spin lock as held or not, and a sleep
      lock as a flag, which these theorems allow.
    - [Kalloc]: [kalloc.c].  [Vm], [VmSpace], [VmUser], [VmOps], [VmCopy],
      [VmAccess], [VmClaims]: [vm.c], page tables in physical pages.
    - [Proctab], [Sched]: [struct proc] and the scheduling policies of [proc.c]
      and [sdh.h].  [Proc], [ProcInv], [ProcOps]: processes and threads.  [Sem]:
      the semaphores of [proc.c].  [System], [SystemInv], [Frame], [ProcClaims],
      [SemClaims]: [trap.c], [sysproc.c] and the dispatch of [syscall.c], as one
      transition system of all CPUs.
    - [Bio], [BioSpec]: [memide.c] and [bio.c].  [Ide], [IdeClaims]: [ide.c],
      the driver of a real disk, against [memide.c].  [Log], [LogCopy],
      [LogCrash], [LogClaims]: [log.c].  [Blocks]: the interface of the log to
      the file system.  [Fs], [FsAlloc], [FsInode], [FsFile], [FsRw], [FsWrite],
      [FsView], [FsCall], [FsClaims]: [fs.c].  [Mkfs], [MkfsInv], [MkfsImage],
      [MkfsClaims]: [mkfs.c].
    - [Args]: argument fetching of [syscall.c].  [Pipe]: [pipe.c].  [File],
      [FileInv], [FileCalls], [FileFs]: [file.c], [sysfile.c], [pipealloc].
      [Exec], [ExecInv], [ExecClaims]: [exec.c].
    - [Printf]: [printf.c] and [cprintf].  [Console]: [console.c].  [Kbd]:
      [kbd.c] and [kbd.h].
    - User programs.  [Shell], [ShellParse], [ShellPrint], [ShellRun]: [sh.c].
      [Lsh], [LshClaims]: [lsh.c].  [Grep]: [grep.c].  [Umalloc], [UmallocInv],
      [UmallocClaims]: [umalloc.c].  [Utils]: [cat.c], [cp.c], [wc.c], [head.c],
      [ls.c].

    ** What the theorems show

    - Processes: the invariant of the process table holds in every reachable
      state and no panic of the process layer is raised ([system_safe]); what
      [fork], [clone], [exit] and [wait] do ([fork_creates], [clone_creates],
      [exit_hands_on], [wait_reaps]); the time accounting
      ([reachable_accounting]); the policies ([rr_fair],
      [policies_work_conserving]); no wakeup of a semaphore is lost
      ([sem_no_lost_wakeup]).
    - Locks: mutual exclusion, the interrupt flag and progress of spin locks
      ([spin_mutex], [spin_progress]); sleep locks ([sleeplock_correct]).
    - Memory: pages are free or allocated, never both ([kalloc_exclusive]);
      growing, copying and freeing address spaces ([allocuvm_grows],
      [copyuvm_copies], [freevm_returns_all]); [exec] replaces the image or
      leaves it ([exec_all_or_nothing]); the user allocator
      ([malloc_free_correct]).
    - Disk and files: the cache implements an abstract disk ([cache_refines]);
      the driver is linearizable to the disk in memory ([ide_linearizable]);
      transactions are atomic across crashes ([crash_atomicity]); files are
      read and written ([readi_reads], [writei_refines]); a whole call is atomic
      ([write_call_atomic]); the calls on files keep the file table in order
      ([file_calls_safe]) and read their arguments in the memory of the process
      ([args_in_memory]); the image of [mkfs] satisfies the invariant of the
      kernel ([mkfs_bootable]); pipes are queues without lost wakeups
      ([pipe_fifo], [pipe_no_lost_wakeup]).
    - Start: the boot loader ([bootmain_loads]) and the tables of the BIOS
      ([mpinit_reads]).
    - Input, output and users: the console ([console_refines],
      [consolewrite_in_bounds]), printed numbers ([printint_roundtrip]), the two
      shells ([shell_parse_total], [shell_print_parse], [shell_plumbing],
      [lsh_runs]), grep ([match_regular], [grep_prints_matching]).

    ** Bounds and fuel

    A loop without a structural measure gets a fuel, and running out of it is
    a result that the theorems exclude.  The parser of [sh.c] has five units per
    character of the line and six more; the loops of [fs.c] over bytes have the
    number of bytes, those over blocks and inodes the size of the disk; grep
    has more units than the file has bytes; [strtok] ends within the 1024 bytes
    of the buffer; [readseg] takes a round per sector and two more; polling a
    device ends by the law [lag] of [IdeDevice]; [mpinit] takes a round per entry
    or never ends, which is a theorem.  Tables have the sizes of [param.h].

    ** Not modelled, and why

    - [bootasm.S], [entry.S], [entryother.S], [initcode.S], [swtch.S],
      [trapasm.S], [usys.S] and [vectors.pl] are assembly, whose effect is on
      registers; a context switch is the saving and restoring of a value.
    - [lapic.c], [ioapic.c], [picirq.c], [uart.c] and the part of [vm.c] and
      [trap.c] that loads segment, interrupt and control registers only write
      to hardware, whose behaviour is not in the sources; [main.c] is the order
      in which the parts are initialised.
    - [procdump] and the messages of panics and errors are output without an
      effect on the state.
    - [echo.c], [init.c], [kill.c], [ln.c], [mkdir.c], [nice.c], [ps.c], [rm.c] and
      [zombie.c] call the kernel once or in a loop over their arguments; the
      [main] functions of [cat.c], [wc.c], [grep.c], [ls.c] and [cp.c] open the files
      for the loops that are modelled.
    - [usertests.c], [stressfs.c], [forktest.c], [sem_test.c] and
      [test_scheduler.c] test the kernel.
    - In the concurrent models memory is sequentially consistent, and a device
      is only what the class of its laws says. *)
From stdpp Require Export base list gmap strings option relations.
From Stdlib Require Export ZArith ZifyNat Lia.

(** ** Machine integers

    A C integer is a [Z] kept in the range of its type; the functions below
    are the conversions to the unsigned and signed types of width 8, 16 and
    32 of the i386 ABI (two's complement, as gcc converts). *)

Definition u8 (z : Z) : Z := (z mod 2 ^ 8)%Z.
Definition u16 (z : Z) : Z := (z mod 2 ^ 16)%Z.
Definition u32 (z : Z) : Z := (z mod 2 ^ 32)%Z.
Definition s16 (z : Z) : Z := ((z + 2 ^ 15) mod 2 ^ 16 - 2 ^ 15)%Z.
Definition s32 (z : Z) : Z := ((z + 2 ^ 31) mod 2 ^ 32 - 2 ^ 31)%Z.

Definition INT_MAX : Z := (2 ^ 31 - 1)%Z.
Definition INT_MIN : Z := (- 2 ^ 31)%Z.

Definition is_u32 (z : Z) : Prop := (0 <= z < 2 ^ 32)%Z.
Definition is_s32 (z : Z) : Prop := (- 2 ^ 31 <= z < 2 ^ 31)%Z.
Definition is_u8 (z : Z) : Prop := (0 <= z < 2 ^ 8)%Z.

(** Division and remainder are unfolded into their defining equations before
    [lia] runs. *)
Ltac Zify.zify_post_hook ::= Z.div_mod_to_equations.

#[global] Arguments Nat.div : simpl never.
#[global] Arguments Nat.modulo : simpl never.

Section MachineInts.
Local Open Scope Z_scope.

Lemma u32_range z : 0 <= u32 z < 2 ^ 32.
Proof. unfold u32. lia. Qed.

Lemma u8_range z : 0 <= u8 z < 2 ^ 8.
Proof. unfold u8. lia. Qed.

Lemma s32_range z : - 2 ^ 31 <= s32 z < 2 ^ 31.
Proof. unfold s32. lia. Qed.

Lemma u32_id z : 0 <= z < 2 ^ 32 -> u32 z = z.
Proof. unfold u32. intros; apply Z.mod_small; lia. Qed.

Lemma s32_id z : - 2 ^ 31 <= z < 2 ^ 31 -> s32 z = z.
Proof. unfold s32. intros; rewrite Z.mod_small; lia. Qed.

Lemma u8_id z : 0 <= z < 2 ^ 8 -> u8 z = z.
Proof. unfold u8. intros; apply Z.mod_small; lia. Qed.

Lemma u32_s32 z : u32 (s32 z) = u32 z.
Proof. unfold u32, s32. lia. Qed.

Lemma s32_u32 z : s32 (u32 z) = s32 z.
Proof. unfold u32, s32. lia. Qed.

Lemma u32_u32 z : u32 (u32 z) = u32 z.
Proof. apply u32_id, u32_range. Qed.
End MachineInts.

Create HintDb machine.
Create Rewrite HintDb machine.
#[export] Hint Resolve u32_range u8_range s32_range : machine.
#[export] Hint Rewrite u32_u32 u32_s32 s32_u32 : machine.

Lemma default_Some {A} (x y : A) : default x (Some y) = y.
Proof. done. Qed.

(** ** The kernel monad

    A kernel routine runs on a component state [S].  It returns a value, or
    it panics (control never returns to the caller), or it goes to sleep in
    state [s]: the loop that called [sleep()] is entered again when the
    process is scheduled next. *)

Inductive res (S A : Type) : Type :=
| Ret (a : A) (s : S)
| Panic (msg : string)
| Asleep (s : S).
Arguments Ret {S A} a s.
Arguments Panic {S A} msg.
Arguments Asleep {S A} s.

Definition M (S A : Type) : Type := S -> res S A.

#[export] Instance M_ret (S : Type) : MRet (M S) := fun A a s => Ret a s.
#[export] Instance M_bind (S : Type) : MBind (M S) := fun A B k m s =>
  match m s with
  | Ret a s' => k a s'
  | Panic msg => Panic msg
  | Asleep s' => Asleep s'
  end.

Section Monad.
Context {S : Type}.

Definition get : M S S := fun s => Ret s s.
Definition put (s' : S) : M S unit := fun _ => Ret tt s'.
Definition gets {A} (f : S -> A) : M S A := fun s => Ret (f s) s.
Definition modify (f : S -> S) : M S unit := fun s => Ret tt (f s).
Definition panic {A} (msg : string) : M S A := fun _ => Panic msg.
Definition suspend {A} : M S A := fun s => Asleep s.
Definition when (b : bool) (m : M S unit) : M S unit :=
  if b then m else mret tt.

(** [for x in l: body x], stopping at the first panic or sleep. *)
Fixpoint for_each {X} (l : list X) (body : X -> M S unit) : M S unit :=
  match l with
  | [] => mret tt
  | x :: l' => body x ;; for_each l' body
  end.

Definition returns {A} (r : res S A) : bool :=
  match r with Ret _ _ => true | _ => false end.

Lemma bind_Ret_inv {A B} (m : M S A) (k : A -> M S B) s b s' :
  (m ≫= k) s = Ret b s' <-> exists a s1, m s = Ret a s1 /\ k a s1 = Ret b s'.
Proof.
  unfold mbind, M_bind. destruct (m s) as [a s1| |] eqn:E; split.
  - eauto.
  - intros (a' & s1' & H & ?); by simplify_eq.
  - done.
  - intros (? & ? & ? & ?); done.
  - done.
  - intros (? & ? & ? & ?); done.
Qed.

Lemma bind_Ret {A B} (m : M S A) (k : A -> M S B) s a s1 :
  m s = Ret a s1 -> (m ≫= k) s = k a s1.
Proof. unfold mbind, M_bind. by intros ->. Qed.

Lemma bind_eq {A B} (m : M S A) (k : A -> M S B) s a s1 r :
  m s = Ret a s1 -> k a s1 = r -> (m ≫= k) s = r.
Proof. intros H <-. by apply bind_Ret. Qed.

Lemma bind_Panic {A B} (m : M S A) (k : A -> M S B) s msg :
  m s = Panic msg -> (m ≫= k) s = Panic msg.
Proof. unfold mbind, M_bind. by intros ->. Qed.

(** A relation between entry and exit states that is reflexive and
    transitive is carried through a loop by its body. *)
Lemma for_each_preserves {X} (R : S -> S -> Prop) (l : list X) body :
  (forall s, R s s) -> (forall s1 s2 s3, R s1 s2 -> R s2 s3 -> R s1 s3) ->
  (forall x s s', x ∈ l -> body x s = Ret tt s' -> R s s') ->
  forall s s', for_each l body s = Ret tt s' -> R s s'.
Proof.
  intros Hrefl Htrans Hbody. induction l as [|x l IH]; simpl; intros s s' H.
  - unfold mret, M_ret in H. by simplify_eq.
  - apply bind_Ret_inv in H as ([] & s1 & H1 & H2).
    eapply Htrans; [eapply Hbody; [left|done] |].
    eapply IH; [|done]. intros; eapply Hbody; [by right|done].
Qed.
End Monad.

(** *** Weakest preconditions

    [wp m Q QA QP s]: started in [s], [m] returns in a state that satisfies
    [Q], or goes to sleep in one that satisfies [QA], or panics with a message
    that satisfies [QP]. *)
Section WP.
Context {S : Type}.

Definition wp {A} (m : M S A) (Q : A -> S -> Prop) (QA : S -> Prop) (QP : string -> Prop)
    (s : S) : Prop :=
  match m s with
  | Ret a s' => Q a s'
  | Asleep s' => QA s'
  | Panic msg => QP msg
  end.

Lemma wp_bind {A B} (m : M S A) (k : A -> M S B) Q QA QP s :
  wp m (fun a => wp (k a) Q QA QP) QA QP s -> wp (m ≫= k) Q QA QP s.
Proof. unfold wp, mbind, M_bind. by destruct (m s). Qed.

Lemma wp_ret {A} (a : A) (Q : A -> S -> Prop) QA QP s : Q a s -> wp (mret a) Q QA QP s.
Proof. done. Qed.

Lemma wp_mono {A} (m : M S A) (Q Q' : A -> S -> Prop) QA QP s :
  wp m Q QA QP s -> (forall a s', Q a s' -> Q' a s') -> wp m Q' QA QP s.
Proof. unfold wp. destruct (m s); eauto. Qed.

Lemma wp_conseq {A} (m : M S A) (Q Q' : A -> S -> Prop) (QA QA' : S -> Prop) (QP QP' : string -> Prop) s :
  wp m Q QA QP s -> (forall a s', Q a s' -> Q' a s') -> (forall s', QA s' -> QA' s') ->
  (forall msg, QP msg -> QP' msg) -> wp m Q' QA' QP' s.
Proof. unfold wp. destruct (m s); eauto. Qed.

(** Total correctness: [m] returns, in a state that satisfies [Q]. *)
Definition total {A} (m : M S A) (Q : A -> S -> Prop) (s : S) : Prop :=
  wp m Q (fun _ => False) (fun _ => False) s.

Lemma total_iff {A} (m : M S A) Q s : total m Q s <-> exists a s', m s = Ret a s' /\ Q a s'.
Proof. unfold total, wp. destruct (m s); naive_solver. Qed.

Lemma total_det {A} (m : M S A) (Q : A -> S -> Prop) s a s' : total m Q s -> m s = Ret a s' -> Q a s'.
Proof. unfold total, wp. intros H E. by rewrite E in H. Qed.

Lemma total_bind {A B} (m : M S A) (k : A -> M S B) Q R s :
  total m R s -> (forall a s', R a s' -> total (k a) Q s') -> total (m ≫= k) Q s.
Proof. intros Hm Hk. apply wp_bind. by eapply wp_mono. Qed.

Lemma total_mono {A} (m : M S A) (Q Q' : A -> S -> Prop) s :
  total m Q s -> (forall a s', Q a s' -> Q' a s') -> total m Q' s.
Proof. apply wp_mono. Qed.

Lemma total_assoc {A B C} (m : M S A) (k : A -> M S B) (k' : B -> M S C) Q s :
  total ((m ≫= k) ≫= k') Q s -> total (m ≫= fun a => k a ≫= k') Q s.
Proof. unfold total, wp, mbind, M_bind. by destruct (m s). Qed.

Lemma total_assoc_rev {A B C} (m : M S A) (k : A -> M S B) (k' : B -> M S C) Q s :
  total (m ≫= fun a => k a ≫= k') Q s -> total ((m ≫= k) ≫= k') Q s.
Proof. unfold total, wp, mbind, M_bind. by destruct (m s). Qed.

Lemma total_ret {A} (a : A) (Q : A -> S -> Prop) s : Q a s -> total (mret a) Q s.
Proof. done. Qed.

Lemma wp_and {A} (m : M S A) (Q1 Q2 : A -> S -> Prop) (QA1 QA2 : S -> Prop) (QP1 QP2 : string -> Prop) s :
  wp m Q1 QA1 QP1 s -> wp m Q2 QA2 QP2 s ->
  wp m (fun a s' => Q1 a s' /\ Q2 a s') (fun s' => QA1 s' /\ QA2 s') (fun msg => QP1 msg /\ QP2 msg) s.
Proof. unfold wp. destruct (m s); eauto. Qed.

Lemma wp_for_each {X} (l : list X) (body : X -> M S unit) (I : S -> Prop) QA QP s :
  I s -> (forall x s, x ∈ l -> I s -> wp (body x) (fun _ => I) QA QP s) ->
  wp (for_each l body) (fun _ => I) QA QP s.
Proof.
  revert s. induction l as [|x l IH]; simpl; intros s HI Hbody; [done|].
  apply wp_bind. eapply wp_mono; [apply Hbody; [left|done]|].
  intros [] s' HI'. apply IH; [done|]. intros; apply Hbody; [by right|done].
Qed.

(** A loop over [seq a n] that carries an index-dependent invariant. *)
Lemma wp_for_seq (body : nat -> M S unit) (I : nat -> S -> Prop) QA QP a n s :
  I a s ->
  (forall i s, (a <= i < a + n)%nat -> I i s -> wp (body i) (fun _ => I (1 + i)%nat) QA QP s) ->
  wp (for_each (seq a n) body) (fun _ => I (a + n)%nat) QA QP s.
Proof.
  revert a s. induction n as [|n IH]; simpl; intros a s HI Hbody.
  - by rewrite Nat.add_0_r.
  - apply wp_bind. eapply wp_mono; [apply Hbody; [lia|done]|].
    intros [] s' HI'. replace (a + Datatypes.S n)%nat with (1 + a + n)%nat by lia.
    apply IH; [done|]. intros; apply Hbody; [lia|done].
Qed.
End WP.

Arguments get {S} _ /.
Arguments put {S} _ _ /.
Arguments gets {S A} _ _ /.
Arguments modify {S} _ _ /.
Arguments panic {S A} _ _ /.
Arguments suspend {S A} _ /.

(** Unfold one monadic routine that is known to return. *)
Ltac minv :=
  repeat match goal with
  | H : (_ ≫= _) _ = Ret _ _ |- _ =>
      let a := fresh "a" in let s1 := fresh "s" in let H1 := fresh "H" in
      apply bind_Ret_inv in H as (a & s1 & H1 & H)
  | H : mret _ _ = Ret _ _ |- _ => unfold mret, M_ret in H
  | H : Ret _ _ = Ret _ _ |- _ => injection H as ??; subst
  | H : Panic _ = Ret _ _ |- _ => discriminate H
  | H : Asleep _ = Ret _ _ |- _ => discriminate H
  | u : unit |- _ => destruct u
  end.

(** ** Scans over fixed tables

    [for(p = table; p < &table[N]; p++) if(P p) goto found;] *)

Fixpoint find_index {A} (P : A -> bool) (l : list A) : option nat :=
  match l with
  | [] => None
  | x :: l' => if P x then Some 0 else S <$> find_index P l'
  end.

Section Scans.
Context {A : Type}.
Implicit Types (P : A -> bool) (l : list A).

Lemma find_index_Some P l i :
  find_index P l = Some i <->
  (exists x, l !! i = Some x /\ P x = true) /\
  (forall j x, (j < i)%nat -> l !! j = Some x -> P x = false).
Proof.
  revert i; induction l as [|y l IH]; intros i; simpl.
  { split; [done|]. intros [(x & H & _) _]. by rewrite lookup_nil in H. }
  destruct (P y) eqn:Ey.
  - split.
    + intros [= <-]. split; [by exists y|]. intros; lia.
    + intros [(x & Hx & HP) Hfst]. destruct i as [|i]; [done|].
      specialize (Hfst 0 y ltac:(lia) eq_refl). congruence.
  - rewrite fmap_Some. split.
    + intros (i' & Hi & ->). apply IH in Hi as [(x & ? & ?) Hlt].
      split; [by exists x|]. intros [|j] z Hj Hz; simplify_eq/=; [done|].
      eapply Hlt; [|done]; lia.
    + intros [(x & Hx & HP) Hfst]. destruct i as [|i]; simplify_eq/=; [congruence|].
      exists i; split; [|done]. apply IH; split; [by exists x|].
      intros j z Hj Hz. by apply (Hfst (S j) z); [lia|].
Qed.

Lemma find_index_None P l :
  find_index P l = None <-> (forall i x, l !! i = Some x -> P x = false).
Proof.
  induction l as [|y l IH]; simpl.
  { split; [|done]. intros _ i x Hx. by rewrite lookup_nil in Hx. }
  destruct (P y) eqn:Ey.
  - split; [done|]. intros H. specialize (H 0 y eq_refl). congruence.
  - rewrite fmap_None, IH. split.
    + intros H [|i] x Hx; simplify_eq/=; eauto.
    + intros H i x Hx. by apply (H (S i)).
Qed.

Lemma find_index_lt P l i : find_index P l = Some i -> (i < length l)%nat.
Proof. intros [(x & Hx & _) _]%find_index_Some. by eapply lookup_lt_Some. Qed.

(** A scan that succeeds stays successful when every entry that passed the
    test still does. *)
Lemma find_index_is_Some P l i x :
  l !! i = Some x -> P x = true -> is_Some (find_index P l).
Proof.
  intros Hx HP. destruct (find_index P l) eqn:E; [done|].
  rewrite find_index_None in E. specialize (E i x Hx). congruence.
Qed.
End Scans.

(** ** Reading an update of a table at one index *)

Lemma lookup_alter_cases {A} (f : A -> A) (l : list A) i j :
  alter f i l !! j = if decide (i = j) then f <$> l !! j else l !! j.
Proof.
  case_decide; subst; [apply list_lookup_alter_eq|by apply list_lookup_alter_ne].
Qed.

Lemma alter_Some {A} (f : A -> A) (l : list A) i x : l !! i = Some x -> alter f i l = <[i := f x]> l.
Proof.
  intros Hx. apply list_eq. intros j. rewrite lookup_alter_cases. case_decide; subst.
  - rewrite list_lookup_insert_eq by (by eapply lookup_lt_Some). by rewrite Hx.
  - by rewrite list_lookup_insert_ne.
Qed.

Lemma filter_all {A} (P : A -> Prop) `{forall x, Decision (P x)} (l : list A) :
  (forall x, x ∈ l -> P x) -> filter P l = l.
Proof.
  induction l as [|x l IH]; intros Hl; [done|].
  rewrite filter_cons_True by (apply Hl; left). rewrite IH; [done|].
  intros y Hy. apply Hl. by right.
Qed.
