(* ===== verification/Cstring.v ===== *)
(** * Byte strings and memory blocks

    [string.c] (kernel) and the string routines of [ulib.c] (user library).
    Routines whose result depends on addresses ([memset], [memmove]) run on a
    byte memory indexed by 32-bit addresses; the others take buffers as lists
    of bytes, a byte read past the end of a list being the terminating NUL of
    a C string.  A byte is a [Z] from 0 to 255. *)
From S2P Require Import Prelude.
Local Open Scope Z_scope.

(** ** Memory *)

Definition mem : Type := Z -> Z.

Definition mset (a v : Z) (m : mem) : mem := fun x => if x =? a then v else m x.

(** A 32-bit little-endian store. *)
Definition mset32 (a v : Z) (m : mem) : mem :=
  mset (u32 (a + 3)) (u8 (Z.shiftr v 24))
    (mset (u32 (a + 2)) (u8 (Z.shiftr v 16))
      (mset (u32 (a + 1)) (u8 (Z.shiftr v 8)) (mset (u32 a) (u8 v) m))).

(** x86.h: [rep stosb], [rep stosl], [cnt] stores upwards from [addr]. *)
Fixpoint stosb (addr data : Z) (cnt : nat) (m : mem) : mem :=
  match cnt with
  | O => m
  | S cnt' => stosb (u32 (addr + 1)) data cnt' (mset (u32 addr) (u8 data) m)
  end.

Fixpoint stosl (addr data : Z) (cnt : nat) (m : mem) : mem :=
  match cnt with
  | O => m
  | S cnt' => stosl (u32 (addr + 4)) data cnt' (mset32 addr data m)
  end.

(** [void *memset(void *dst, int c, uint n)]: [dst] is tested as an [int]. *)
Definition memset (dst c n : Z) (m : mem) : mem :=
  if (Z.rem (s32 dst) 4 =? 0) && (n mod 4 =? 0) then
    let c := Z.land c 255 in
    stosl dst
      (Z.lor (Z.lor (Z.lor (s32 (Z.shiftl c 24)) (Z.shiftl c 16)) (Z.shiftl c 8)) c)
      (Z.to_nat (n / 4)) m
  else stosb dst c (Z.to_nat n) m.

(** The two copy loops of [memmove]: [*--d = *--s] and [*d++ = *s++]. *)
Fixpoint copy_down (d s : Z) (n : nat) (m : mem) : mem :=
  match n with
  | O => m
  | S n' =>
      let s' := u32 (s - 1) in let d' := u32 (d - 1) in
      copy_down d' s' n' (mset d' (m s') m)
  end.

Fixpoint copy_up (d s : Z) (n : nat) (m : mem) : mem :=
  match n with
  | O => m
  | S n' => copy_up (u32 (d + 1)) (u32 (s + 1)) n' (mset d (m s) m)
  end.

Definition memmove (dst src n : Z) (m : mem) : mem :=
  if (src <? dst) && (dst <? u32 (src + n))
  then copy_down (u32 (dst + n)) (u32 (src + n)) (Z.to_nat n) m
  else copy_up dst src (Z.to_nat n) m.

(** ulib.c's [memmove] always copies upwards; [n] is an [int]. *)
Definition ulib_memmove (dst src n : Z) (m : mem) : mem := copy_up dst src (Z.to_nat n) m.

(** ** Byte lists *)

(** [s[i]] *)
Definition byte_at (s : list Z) (i : nat) : Z := default 0 (s !! i).

(** [memcmp(v1, v2, n)] *)
Fixpoint memcmp (v1 v2 : list Z) (n : nat) : Z :=
  match n with
  | O => 0
  | S n' =>
      let c1 := byte_at v1 0 in let c2 := byte_at v2 0 in
      if c1 =? c2 then memcmp (drop 1 v1) (drop 1 v2) n' else c1 - c2
  end.

(** [strncmp(p, q, n)] *)
Fixpoint strncmp (p q : list Z) (n : nat) : Z :=
  match n with
  | O => 0
  | S n' =>
      let c := byte_at p 0 in let d := byte_at q 0 in
      if negb (c =? 0) && (c =? d) then strncmp (drop 1 p) (drop 1 q) n'
      else c - d
  end.

(** [strncpy(s, t, n)]: the [n] bytes stored at [s]. *)
Fixpoint strncpy_pad (n : nat) : list Z :=
  match n with O => [] | S n' => 0 :: strncpy_pad n' end.

Fixpoint strncpy_bytes (t : list Z) (n : nat) : list Z :=
  match n with
  | O => []
  | S n' =>
      let c := byte_at t 0 in
      if c =? 0 then 0 :: strncpy_pad n' else c :: strncpy_bytes (drop 1 t) n'
  end.

Definition strncpy (s t : list Z) (n : Z) : list Z :=
  strncpy_bytes t (Z.to_nat n) ++ drop (Z.to_nat n) s.

(** [safestrcpy(s, t, n)]: [k] bytes may still be copied before the NUL. *)
Fixpoint safestrcpy_bytes (t : list Z) (k : nat) : list Z :=
  match k with
  | O => [0]
  | S k' =>
      let c := byte_at t 0 in
      if c =? 0 then [0; 0] else c :: safestrcpy_bytes (drop 1 t) k'
  end.

Definition safestrcpy (s t : list Z) (n : Z) : list Z :=
  if n <=? 0 then s
  else
    let b := safestrcpy_bytes t (Z.to_nat (n - 1)) in
    b ++ drop (length b) s.

(** [strlen(s)]: the list ends in the NUL at the latest. *)
Fixpoint strlen (s : list Z) : Z :=
  match s with
  | [] => 0
  | c :: s' => if c =? 0 then 0 else 1 + strlen s'
  end.

(** ulib.c: [strcmp], [strchr] (index of the match), [atoi]. *)
Fixpoint strcmp (p q : list Z) : Z :=
  match p with
  | [] => 0 - byte_at q 0
  | c :: p' =>
      if negb (c =? 0) && (c =? byte_at q 0) then strcmp p' (drop 1 q)
      else c - byte_at q 0
  end.

Fixpoint strchr (s : list Z) (c : Z) : option nat :=
  match s with
  | [] => None
  | x :: s' => if x =? 0 then None else if x =? c then Some 0%nat else S <$> strchr s' c
  end.

Fixpoint atoi_loop (n : Z) (s : list Z) : Z :=
  match s with
  | [] => n
  | c :: s' => if (48 <=? c) && (c <=? 57) then atoi_loop (s32 (n * 10 + c - 48)) s' else n
  end.
Definition atoi (s : list Z) : Z := atoi_loop 0 s.

(** ** Specifications *)

(** The C string at [s], cut after [n] bytes. *)
Fixpoint cstr (n : nat) (s : list Z) : list Z :=
  match n with
  | O => []
  | S n' => let c := byte_at s 0 in if c =? 0 then [] else c :: cstr n' (drop 1 s)
  end.

(** ** Lemmas *)

Lemma mset_eq a v m : mset a v m a = v.
Proof. unfold mset. by rewrite Z.eqb_refl. Qed.

Lemma mset_ne a b v m : b <> a -> mset a v m b = m b.
Proof. unfold mset. intros. by destruct (Z.eqb_spec b a). Qed.

Lemma mset_cases a b v m : mset a v m b = if decide (b = a) then v else m b.
Proof. unfold mset. case_decide; destruct (Z.eqb_spec b a); congruence. Qed.

Lemma stosb_spec cnt addr data m a :
  0 <= addr -> addr + Z.of_nat cnt <= 2 ^ 32 ->
  stosb addr data cnt m a =
  if decide (addr <= a < addr + Z.of_nat cnt) then u8 data else m a.
Proof.
  revert addr m. induction cnt as [|cnt IH]; intros addr m H0 H1; cbn [stosb].
  { case_decide; [lia|done]. }
  destruct (decide (addr + 1 = 2 ^ 32)) as [He|Hne].
  - assert (cnt = 0%nat) as -> by lia. simpl. rewrite mset_cases, u32_id by lia.
    repeat case_decide; (lia || done).
  - rewrite (u32_id (addr + 1)) by lia. rewrite IH by lia.
    rewrite mset_cases, u32_id by lia. repeat case_decide; (lia || done).
Qed.

(** The word whose four bytes are all [c]. *)
Definition splat (c : Z) : Z :=
  Z.lor (Z.lor (Z.lor (s32 (Z.shiftl c 24)) (Z.shiftl c 16)) (Z.shiftl c 8)) c.

Lemma splat_bytes c k :
  0 <= c < 256 -> 0 <= k < 4 -> u8 (Z.shiftr (splat c) (8 * k)) = c.
Proof.
  intros Hc Hk. unfold u8. rewrite <- Z.land_ones by lia.
  apply Z.bits_inj'. intros i Hi. rewrite Z.land_spec, Z.shiftr_spec by lia.
  rewrite Z.testbit_ones_nonneg by lia.
  assert (forall j, 8 <= j -> Z.testbit c j = false) as Hhigh.
  { intros j Hj. rewrite <- (Z.mod_small c (2 ^ 8)) by lia. apply Z.mod_pow2_bits_high. lia. }
  destruct (Z.ltb_spec i 8) as [Hi8|]; [|rewrite andb_false_r; symmetry; apply Hhigh; lia].
  rewrite andb_true_r. unfold splat. rewrite !Z.lor_spec, !Z.shiftl_spec by lia.
  assert (Z.testbit (s32 (Z.shiftl c 24)) (i + 8 * k) = Z.testbit c (i + 8 * k - 24)) as ->.
  { rewrite <- (Z.shiftl_spec c 24) by lia.
    rewrite <- (Z.mod_pow2_bits_low (s32 _) 32) by lia.
    rewrite <- (Z.mod_pow2_bits_low (Z.shiftl c 24) 32) by lia.
    f_equal. apply u32_s32. }
  assert (k = 0 \/ k = 1 \/ k = 2 \/ k = 3) as [->|[->|[->| ->]]] by lia;
    rewrite ?(Z.testbit_neg_r c) by lia; rewrite ?orb_false_l, ?orb_false_r.
  - by rewrite Z.add_0_r.
  - rewrite (Hhigh (i + 8 * 1)) by lia. rewrite orb_false_r. f_equal. lia.
  - rewrite (Hhigh (i + 8 * 2)) by lia. rewrite (Hhigh (i + 8 * 2 - 8)) by lia.
    rewrite !orb_false_r. f_equal. lia.
  - rewrite (Hhigh (i + 8 * 3)) by lia. rewrite (Hhigh (i + 8 * 3 - 8)) by lia.
    rewrite (Hhigh (i + 8 * 3 - 16)) by lia. rewrite !orb_false_r. f_equal. lia.
Qed.

Lemma mset32_splat addr c m a :
  0 <= c < 256 -> 0 <= addr -> addr + 4 <= 2 ^ 32 ->
  mset32 addr (splat c) m a = if decide (addr <= a < addr + 4) then c else m a.
Proof.
  intros Hc H0 H1. unfold mset32. rewrite !mset_cases, !u32_id by lia.
  pose proof (splat_bytes c 0 Hc ltac:(lia)) as B0. rewrite Z.mul_0_r, Z.shiftr_0_r in B0.
  pose proof (splat_bytes c 1 Hc ltac:(lia)) as B1. rewrite Z.mul_1_r in B1.
  pose proof (splat_bytes c 2 Hc ltac:(lia)) as B2. change (8 * 2) with 16 in B2.
  pose proof (splat_bytes c 3 Hc ltac:(lia)) as B3. change (8 * 3) with 24 in B3.
  rewrite B0, B1, B2, B3. repeat case_decide; (lia || done).
Qed.

Lemma stosl_spec cnt addr c m a :
  0 <= c < 256 -> 0 <= addr -> addr + 4 * Z.of_nat cnt <= 2 ^ 32 ->
  stosl addr (splat c) cnt m a =
  if decide (addr <= a < addr + 4 * Z.of_nat cnt) then c else m a.
Proof.
  intros Hc. revert addr m. induction cnt as [|cnt IH]; intros addr m H0 H1; cbn [stosl].
  { case_decide; [lia|done]. }
  destruct (decide (cnt = 0%nat)) as [->|Hne].
  - simpl. rewrite mset32_splat by lia. repeat case_decide; (lia || done).
  - rewrite (u32_id (addr + 4)) by lia. rewrite IH by lia.
    rewrite mset32_splat by lia. repeat case_decide; (lia || done).
Qed.

Lemma copy_up_spec n d s m a :
  0 <= s -> 0 <= d -> s + Z.of_nat n < 2 ^ 32 -> d + Z.of_nat n <= 2 ^ 32 ->
  (d <= s \/ s + Z.of_nat n <= d) ->
  copy_up d s n m a = if decide (d <= a < d + Z.of_nat n) then m (s + (a - d)) else m a.
Proof.
  revert d s m. induction n as [|n IH]; intros d s m Hs Hd Hs' Hd' Hdir; cbn [copy_up].
  { case_decide; [lia|done]. }
  destruct (decide (n = 0%nat)) as [->|Hn].
  - simpl. rewrite mset_cases. repeat case_decide; (lia || f_equal; lia || done).
  - rewrite (u32_id (d + 1)), (u32_id (s + 1)) by lia. rewrite IH by lia.
    rewrite !mset_cases. repeat case_decide; (lia || f_equal; lia || done).
Qed.

Lemma copy_down_spec n d s m a :
  0 <= s -> s < d -> d + Z.of_nat n < 2 ^ 32 ->
  copy_down (u32 (d + Z.of_nat n)) (u32 (s + Z.of_nat n)) n m a =
  if decide (d <= a < d + Z.of_nat n) then m (s + (a - d)) else m a.
Proof.
  intros Hs Hd. revert m. induction n as [|n IH]; intros m Hn; cbn [copy_down].
  { case_decide; [lia|done]. }
  replace (u32 (u32 (s + Z.of_nat (S n)) - 1)) with (u32 (s + Z.of_nat n)) by (unfold u32; lia).
  replace (u32 (u32 (d + Z.of_nat (S n)) - 1)) with (u32 (d + Z.of_nat n)) by (unfold u32; lia).
  rewrite IH by lia. rewrite !(u32_id (d + _)), (u32_id (s + _)) by lia. rewrite !mset_cases.
  repeat case_decide; (lia || f_equal; lia || done).
Qed.

Lemma byte_at_cons c s : byte_at (c :: s) 0 = c.
Proof. done. Qed.

Lemma byte_at_drop s i : byte_at (drop 1 s) i = byte_at s (S i).
Proof. unfold byte_at. by rewrite lookup_drop. Qed.

Lemma strncmp_zero n p q : strncmp p q n = 0 <-> cstr n p = cstr n q.
Proof.
  revert p q; induction n as [|n IH]; intros p q; simpl; [done|].
  destruct (Z.eqb_spec (byte_at p 0) 0) as [Hp|Hp]; simpl.
  - rewrite Hp. destruct (Z.eqb_spec (byte_at q 0) 0); [split; [done|lia]|].
    split; [lia|done].
  - destruct (Z.eqb_spec (byte_at p 0) (byte_at q 0)) as [Heq|Hne].
    + rewrite <- Heq. destruct (Z.eqb_spec (byte_at p 0) 0); [done|].
      rewrite IH. split; [by intros ->|by intros [= ?]].
    + split; [lia|]. intros H.
      destruct (Z.eqb_spec (byte_at q 0) 0); simplify_eq.
Qed.

Lemma strncpy_pad_length n : length (strncpy_pad n) = n.
Proof. induction n; simpl; congruence. Qed.

Lemma strncpy_bytes_length t n : length (strncpy_bytes t n) = n.
Proof.
  revert t; induction n as [|n IH]; intros t; simpl; [done|].
  case_match; simpl; [by rewrite strncpy_pad_length|by rewrite IH].
Qed.

Lemma strncpy_length s t n : (Z.to_nat n <= length s)%nat -> length (strncpy s t n) = length s.
Proof. intros H. unfold strncpy. rewrite length_app, strncpy_bytes_length, length_drop. lia. Qed.

Lemma cstr_strncpy_bytes n t rest : cstr n (strncpy_bytes t n ++ rest) = cstr n t.
Proof.
  revert t; induction n as [|n IH]; intros t; cbn [strncpy_bytes cstr]; [done|].
  destruct (Z.eqb_spec (byte_at t 0) 0) as [E|E]; cbn [app]; rewrite byte_at_cons; [done|].
  destruct (Z.eqb_spec (byte_at t 0) 0); [done|]. f_equal. apply IH.
Qed.

Lemma cstr_length n s : (length (cstr n s) <= n)%nat.
Proof.
  revert s; induction n as [|n IH]; intros s; simpl; [lia|].
  case_match; simpl; [lia|]. specialize (IH (drop 1 s)). lia.
Qed.

Lemma cstr_nonzero n s : Forall (fun c => c <> 0) (cstr n s).
Proof.
  revert s; induction n as [|n IH]; intros s; simpl; [done|].
  destruct (Z.eqb_spec (byte_at s 0) 0); [done|]. by constructor.
Qed.

Lemma cstr_app_nul k l rest :
  Forall (fun c => c <> 0) l -> (length l < k)%nat -> cstr k (l ++ 0 :: rest) = l.
Proof.
  intros Hnz. revert k. induction Hnz as [|c l Hc Hnz IH]; intros k Hk;
    (destruct k as [|k]; [simpl in Hk; lia|]); cbn [cstr app]; rewrite byte_at_cons; [done|].
  destruct (Z.eqb_spec c 0); [done|]. f_equal. apply IH. simpl in Hk. lia.
Qed.

Lemma safestrcpy_bytes_spec t k :
  exists pad, safestrcpy_bytes t k = cstr k t ++ 0 :: pad /\
    (length (safestrcpy_bytes t k) <= S k)%nat.
Proof.
  revert t; induction k as [|k IH]; intros t; simpl; [by exists []|].
  case_match.
  - exists [0]. split; [done|]. simpl. lia.
  - destruct (IH (drop 1 t)) as (pad & -> & Hl). exists pad. split; [done|]. simpl in *. lia.
Qed.

(** ** Properties *)

Lemma memset_spec (dst c n : Z) (m : mem) (a : Z)
    (Hdst : 0 <= dst) (Hn : 0 <= n) (Hend : dst + n <= 2 ^ 32) :
  memset dst c n m a = if decide (dst <= a < dst + n) then u8 c else m a.
Proof.
  unfold memset. destruct (_ && _) eqn:E.
  - apply andb_true_iff in E as [_ E%Z.eqb_eq].
    change (Z.land c 255) with (Z.land c (Z.ones 8)). rewrite Z.land_ones by lia.
    fold (u8 c). fold (splat (u8 c)). rewrite stosl_spec; [|apply u8_range|lia|lia].
    rewrite Z2Nat.id by lia. repeat case_decide; (lia || done).
  - rewrite stosb_spec by lia. rewrite Z2Nat.id by lia. done.
Qed.

(** [memset] stores the low byte of [c] in exactly the [n] bytes from
    [dst] on, whichever of its two loops (32-bit words when [dst] and [n] are
    multiples of four, bytes otherwise) it takes. *)
Lemma memset_fills (dst c n : Z) (m : mem) (a : Z)
    (Hdst : 0 <= dst) (Hn : 0 <= n) (Hend : dst + n <= 2 ^ 32) :
  memset dst c n m a = if decide (dst <= a < dst + n) then u8 c else m a.
Proof.
  by apply memset_spec.
Qed.

Lemma memmove_spec (dst src n : Z) (m : mem) (a : Z)
    (Hsrc : 0 <= src) (Hdst : 0 <= dst) (Hn : 0 <= n)
    (Hsend : src + n < 2 ^ 32) (Hdend : dst + n < 2 ^ 32) :
  memmove dst src n m a = if decide (dst <= a < dst + n) then m (src + (a - dst)) else m a.
Proof.
  unfold memmove.
  destruct (Z.ltb_spec src dst), (Z.ltb_spec dst (u32 (src + n))) as [Hlt|Hge]; simpl;
    rewrite ?u32_id in * by lia;
    try (rewrite copy_up_spec by lia; rewrite Z2Nat.id by lia; done).
  pose proof (copy_down_spec (Z.to_nat n) dst src m a) as H'.
  rewrite Z2Nat.id, !u32_id in H' by lia. apply H'; lia.
Qed.

(** A name stored by [strncpy] in a field of [n] bytes is found again by
    [strncmp] over [n] bytes, and by no string that differs in its first [n]
    bytes; the field keeps its size. *)
Lemma strncpy_strncmp (s t x : list Z) (n : nat) (Hs : (n <= length s)%nat) :
  (strncmp x (strncpy s t (Z.of_nat n)) n = 0 <-> cstr n x = cstr n t) /\
  length (strncpy s t (Z.of_nat n)) = length s.
Proof.
  unfold strncpy. rewrite Nat2Z.id. split.
  - by rewrite strncmp_zero, cstr_strncpy_bytes.
  - rewrite length_app, strncpy_bytes_length, length_drop. lia.
Qed.

(** [safestrcpy] into a buffer of [n > 0] bytes leaves a NUL-terminated
    string inside the buffer, the longest prefix of the source that fits, and
    never writes past the buffer. *)
Lemma safestrcpy_terminates (s t : list Z) (n : Z)
    (Hn : 0 < n) (Hs : n <= Z.of_nat (length s)) :
  length (safestrcpy s t n) = length s /\
  cstr (Z.to_nat n) (safestrcpy s t n) = cstr (Z.to_nat (n - 1)) t /\
  drop (Z.to_nat n) (safestrcpy s t n) = drop (Z.to_nat n) s.
Proof.
  unfold safestrcpy. destruct (Z.leb_spec n 0) as [|_]; [lia|].
  destruct (safestrcpy_bytes_spec t (Z.to_nat (n - 1))) as (pad & Hb & Hlen).
  set (b := safestrcpy_bytes t (Z.to_nat (n - 1))) in *.
  split; [rewrite length_app, length_drop; lia|]. split.
  - rewrite Hb, <- app_assoc. simpl. pose proof (cstr_length (Z.to_nat (n - 1)) t) as Hl.
    pose proof (cstr_nonzero (Z.to_nat (n - 1)) t) as Hnz.
    assert (length (cstr (Z.to_nat (n - 1)) t) < Z.to_nat n)%nat as Hlt by lia.
    by apply cstr_app_nul.
  - rewrite drop_app_ge by lia. rewrite drop_drop. f_equal. lia.
Qed.

Lemma strlen_bounds s : 0 <= strlen s <= Z.of_nat (length s).
Proof. induction s as [|c s IH]; cbn [strlen length]; [lia|]. destruct (c =? 0); lia. Qed.
