(* ===== verification/Proctab.v ===== *)
(** * The process table's data: [struct proc] and the types it refers to

    [proc.h], [x86.h] (trap frame), [param.h].  A pointer into a kernel table
    is the index of the slot it points to, a null pointer is [None]; a wait
    channel, which the code compares only for equality, is the object whose
    address it is. *)
From S2P Require Import Prelude.
Local Open Scope Z_scope.

(** ** param.h *)

Definition NPROC : nat := 64.
Definition KSTACKSIZE : Z := 4096.
Definition NCPU : nat := 8.
Definition NOFILE : nat := 16.
Definition PGSIZE : Z := 4096.

(** ** proc.h *)

Inductive procstate := UNUSED | EMBRYO | SLEEPING | RUNNABLE | RUNNING | ZOMBIE.

#[export] Instance procstate_eq_dec : EqDecision procstate.
Proof. solve_decision. Defined.

(** The value the enumeration gives each state. *)
Definition procstate_Z (s : procstate) : Z :=
  match s with
  | UNUSED => 0 | EMBRYO => 1 | SLEEPING => 2
  | RUNNABLE => 3 | RUNNING => 4 | ZOMBIE => 5
  end.

(** The objects whose addresses serve as wait channels. *)
Inductive channel :=
| chan_ticks                    (* &ticks, sys_sleep() *)
| chan_proc (p : nat)           (* a process waiting for its children *)
| chan_sem (sem : nat)          (* sema+sem *)
| chan_nread (pipe : nat)       (* &p->nread *)
| chan_nwrite (pipe : nat)      (* &p->nwrite *)
| chan_log                      (* &log *)
| chan_buf (b : nat)            (* a buffer waiting for the disk *)
| chan_sleeplock (l : nat)      (* a sleep lock *)
| chan_input.                   (* &input.r, the console *)

#[export] Instance channel_eq_dec : EqDecision channel.
Proof. solve_decision. Defined.

(** The registers of the trap frame that the kernel's C code touches, and
    the ones it copies blindly with [*np->tf = *curproc->tf]. *)
Record trapframe := mkTrapframe {
  tf_edi : Z; tf_esi : Z; tf_ebp : Z; tf_oesp : Z;
  tf_ebx : Z; tf_edx : Z; tf_ecx : Z; tf_eax : Z;
  tf_gs : Z; tf_fs : Z; tf_es : Z; tf_ds : Z;
  tf_trapno : Z; tf_err : Z; tf_eip : Z; tf_cs : Z;
  tf_eflags : Z; tf_esp : Z; tf_ss : Z
}.

Record context := mkContext {
  edi : Z; esi : Z; ebx : Z; ebp : Z; eip : Z
}.

Record proc := mkProc {
  p_sz : Z;
  p_pgdir : Z;
  p_kstack : Z;
  p_state : procstate;
  p_pid : Z;
  p_priority : Z;
  p_parent : option nat;
  p_tf : trapframe;
  p_context : context;
  p_chan : option channel;
  p_killed : Z;
  p_ofile : list (option nat);
  p_cwd : option nat;
  p_name : list Z;
  p_isthread : Z;
  p_stack : Z;
  p_ctime : Z;
  p_stime : Z;
  p_retime : Z;
  p_rutime : Z
}.

(** Assignment to one field of a process. *)
Definition set_sz (v : Z) (p : proc) : proc :=
  mkProc v (p_pgdir p) (p_kstack p) (p_state p) (p_pid p) (p_priority p) (p_parent p) (p_tf p)
    (p_context p) (p_chan p) (p_killed p) (p_ofile p) (p_cwd p) (p_name p) (p_isthread p) (p_stack p) (p_ctime p) (p_stime p) (p_retime p) (p_rutime p).
Definition set_pgdir (v : Z) (p : proc) : proc :=
  mkProc (p_sz p) v (p_kstack p) (p_state p) (p_pid p) (p_priority p) (p_parent p) (p_tf p)
    (p_context p) (p_chan p) (p_killed p) (p_ofile p) (p_cwd p) (p_name p) (p_isthread p) (p_stack p) (p_ctime p) (p_stime p) (p_retime p) (p_rutime p).
Definition set_kstack (v : Z) (p : proc) : proc :=
  mkProc (p_sz p) (p_pgdir p) v (p_state p) (p_pid p) (p_priority p) (p_parent p) (p_tf p)
    (p_context p) (p_chan p) (p_killed p) (p_ofile p) (p_cwd p) (p_name p) (p_isthread p) (p_stack p) (p_ctime p) (p_stime p) (p_retime p) (p_rutime p).
Definition set_state (v : procstate) (p : proc) : proc :=
  mkProc (p_sz p) (p_pgdir p) (p_kstack p) v (p_pid p) (p_priority p) (p_parent p) (p_tf p)
    (p_context p) (p_chan p) (p_killed p) (p_ofile p) (p_cwd p) (p_name p) (p_isthread p) (p_stack p) (p_ctime p) (p_stime p) (p_retime p) (p_rutime p).
Definition set_pid (v : Z) (p : proc) : proc :=
  mkProc (p_sz p) (p_pgdir p) (p_kstack p) (p_state p) v (p_priority p) (p_parent p) (p_tf p)
    (p_context p) (p_chan p) (p_killed p) (p_ofile p) (p_cwd p) (p_name p) (p_isthread p) (p_stack p) (p_ctime p) (p_stime p) (p_retime p) (p_rutime p).
Definition set_priority (v : Z) (p : proc) : proc :=
  mkProc (p_sz p) (p_pgdir p) (p_kstack p) (p_state p) (p_pid p) v (p_parent p) (p_tf p)
    (p_context p) (p_chan p) (p_killed p) (p_ofile p) (p_cwd p) (p_name p) (p_isthread p) (p_stack p) (p_ctime p) (p_stime p) (p_retime p) (p_rutime p).
Definition set_parent (v : option nat) (p : proc) : proc :=
  mkProc (p_sz p) (p_pgdir p) (p_kstack p) (p_state p) (p_pid p) (p_priority p) v (p_tf p)
    (p_context p) (p_chan p) (p_killed p) (p_ofile p) (p_cwd p) (p_name p) (p_isthread p) (p_stack p) (p_ctime p) (p_stime p) (p_retime p) (p_rutime p).
Definition set_tf (v : trapframe) (p : proc) : proc :=
  mkProc (p_sz p) (p_pgdir p) (p_kstack p) (p_state p) (p_pid p) (p_priority p) (p_parent p) v
    (p_context p) (p_chan p) (p_killed p) (p_ofile p) (p_cwd p) (p_name p) (p_isthread p) (p_stack p) (p_ctime p) (p_stime p) (p_retime p) (p_rutime p).
Definition set_context (v : context) (p : proc) : proc :=
  mkProc (p_sz p) (p_pgdir p) (p_kstack p) (p_state p) (p_pid p) (p_priority p) (p_parent p) (p_tf p) v (p_chan p) (p_killed p) (p_ofile p) (p_cwd p) (p_name p) (p_isthread p) (p_stack p) (p_ctime p) (p_stime p) (p_retime p) (p_rutime p).
Definition set_chan (v : option channel) (p : proc) : proc :=
  mkProc (p_sz p) (p_pgdir p) (p_kstack p) (p_state p) (p_pid p) (p_priority p) (p_parent p) (p_tf p)
    (p_context p) v (p_killed p) (p_ofile p) (p_cwd p) (p_name p) (p_isthread p) (p_stack p) (p_ctime p) (p_stime p) (p_retime p) (p_rutime p).
Definition set_killed (v : Z) (p : proc) : proc :=
  mkProc (p_sz p) (p_pgdir p) (p_kstack p) (p_state p) (p_pid p) (p_priority p) (p_parent p) (p_tf p)
    (p_context p) (p_chan p) v (p_ofile p) (p_cwd p) (p_name p) (p_isthread p) (p_stack p) (p_ctime p) (p_stime p) (p_retime p) (p_rutime p).
Definition set_ofile (v : list (option nat)) (p : proc) : proc :=
  mkProc (p_sz p) (p_pgdir p) (p_kstack p) (p_state p) (p_pid p) (p_priority p) (p_parent p) (p_tf p)
    (p_context p) (p_chan p) (p_killed p) v (p_cwd p) (p_name p) (p_isthread p) (p_stack p) (p_ctime p) (p_stime p) (p_retime p) (p_rutime p).
Definition set_cwd (v : option nat) (p : proc) : proc :=
  mkProc (p_sz p) (p_pgdir p) (p_kstack p) (p_state p) (p_pid p) (p_priority p) (p_parent p) (p_tf p)
    (p_context p) (p_chan p) (p_killed p) (p_ofile p) v (p_name p) (p_isthread p) (p_stack p) (p_ctime p) (p_stime p) (p_retime p) (p_rutime p).
Definition set_name (v : list Z) (p : proc) : proc :=
  mkProc (p_sz p) (p_pgdir p) (p_kstack p) (p_state p) (p_pid p) (p_priority p) (p_parent p) (p_tf p)
    (p_context p) (p_chan p) (p_killed p) (p_ofile p) (p_cwd p) v (p_isthread p) (p_stack p) (p_ctime p) (p_stime p) (p_retime p) (p_rutime p).
Definition set_isthread (v : Z) (p : proc) : proc :=
  mkProc (p_sz p) (p_pgdir p) (p_kstack p) (p_state p) (p_pid p) (p_priority p) (p_parent p) (p_tf p)
    (p_context p) (p_chan p) (p_killed p) (p_ofile p) (p_cwd p) (p_name p) v (p_stack p) (p_ctime p) (p_stime p) (p_retime p) (p_rutime p).
Definition set_stack (v : Z) (p : proc) : proc :=
  mkProc (p_sz p) (p_pgdir p) (p_kstack p) (p_state p) (p_pid p) (p_priority p) (p_parent p) (p_tf p)
    (p_context p) (p_chan p) (p_killed p) (p_ofile p) (p_cwd p) (p_name p) (p_isthread p) v (p_ctime p) (p_stime p) (p_retime p) (p_rutime p).
Definition set_ctime (v : Z) (p : proc) : proc :=
  mkProc (p_sz p) (p_pgdir p) (p_kstack p) (p_state p) (p_pid p) (p_priority p) (p_parent p) (p_tf p)
    (p_context p) (p_chan p) (p_killed p) (p_ofile p) (p_cwd p) (p_name p) (p_isthread p) (p_stack p) v (p_stime p) (p_retime p) (p_rutime p).
Definition set_stime (v : Z) (p : proc) : proc :=
  mkProc (p_sz p) (p_pgdir p) (p_kstack p) (p_state p) (p_pid p) (p_priority p) (p_parent p) (p_tf p)
    (p_context p) (p_chan p) (p_killed p) (p_ofile p) (p_cwd p) (p_name p) (p_isthread p) (p_stack p) (p_ctime p) v (p_retime p) (p_rutime p).
Definition set_retime (v : Z) (p : proc) : proc :=
  mkProc (p_sz p) (p_pgdir p) (p_kstack p) (p_state p) (p_pid p) (p_priority p) (p_parent p) (p_tf p)
    (p_context p) (p_chan p) (p_killed p) (p_ofile p) (p_cwd p) (p_name p) (p_isthread p) (p_stack p) (p_ctime p) (p_stime p) v (p_rutime p).
Definition set_rutime (v : Z) (p : proc) : proc :=
  mkProc (p_sz p) (p_pgdir p) (p_kstack p) (p_state p) (p_pid p) (p_priority p) (p_parent p) (p_tf p)
    (p_context p) (p_chan p) (p_killed p) (p_ofile p) (p_cwd p) (p_name p) (p_isthread p) (p_stack p) (p_ctime p) (p_stime p) (p_retime p) v.

(** Assignment to one register of a trap frame. *)
Definition set_tf_eax (v : Z) (f : trapframe) : trapframe :=
  mkTrapframe (tf_edi f) (tf_esi f) (tf_ebp f) (tf_oesp f) (tf_ebx f) (tf_edx f) (tf_ecx f) v (tf_gs f) (tf_fs f) (tf_es f) (tf_ds f) (tf_trapno f) (tf_err f) (tf_eip f) (tf_cs f) (tf_eflags f) (tf_esp f) (tf_ss f).
Definition set_tf_eip (v : Z) (f : trapframe) : trapframe :=
  mkTrapframe (tf_edi f) (tf_esi f) (tf_ebp f) (tf_oesp f) (tf_ebx f) (tf_edx f) (tf_ecx f) (tf_eax f) (tf_gs f) (tf_fs f) (tf_es f) (tf_ds f) (tf_trapno f) (tf_err f) v (tf_cs f) (tf_eflags f) (tf_esp f) (tf_ss f).
Definition set_tf_esp (v : Z) (f : trapframe) : trapframe :=
  mkTrapframe (tf_edi f) (tf_esi f) (tf_ebp f) (tf_oesp f) (tf_ebx f) (tf_edx f) (tf_ecx f) (tf_eax f) (tf_gs f) (tf_fs f) (tf_es f) (tf_ds f) (tf_trapno f) (tf_err f) (tf_eip f) (tf_cs f) (tf_eflags f) v (tf_ss f).
Definition set_tf_ebp (v : Z) (f : trapframe) : trapframe :=
  mkTrapframe (tf_edi f) (tf_esi f) v (tf_oesp f) (tf_ebx f) (tf_edx f) (tf_ecx f) (tf_eax f) (tf_gs f) (tf_fs f) (tf_es f) (tf_ds f) (tf_trapno f) (tf_err f) (tf_eip f) (tf_cs f) (tf_eflags f) (tf_esp f) (tf_ss f).

Definition zero_trapframe : trapframe :=
  mkTrapframe 0 0 0 0 0 0 0 0 0 0 0 0 0 0 0 0 0 0 0.
Definition zero_context : context := mkContext 0 0 0 0 0.

(** A slot of the statically allocated table before first use. *)
Definition zero_proc : proc :=
  mkProc 0 0 0 UNUSED 0 0 None zero_trapframe zero_context None 0
    (replicate NOFILE None) None (replicate 16 0) 0 0 0 0 0 0.

(** [p->state == s] *)
Definition in_state (s : procstate) (p : proc) : bool := bool_decide (p_state p = s).

Lemma in_state_true s p : in_state s p = true <-> p_state p = s.
Proof. unfold in_state. by rewrite bool_decide_eq_true. Qed.

Lemma in_state_false s p : in_state s p = false <-> p_state p <> s.
Proof. unfold in_state. by rewrite bool_decide_eq_false. Qed.

(** [struct proc_us], the copy of a process handed to user space. *)
Record proc_us := mkProcUs {
  us_sz : Z; us_state : procstate; us_pid : Z; us_ppid : Z; us_priority : Z;
  us_name : list Z; us_ctime : Z; us_stime : Z; us_retime : Z; us_rutime : Z
}.

(** [sizeof(struct proc_us)] on i386: five words, 16 bytes, four words. *)
Definition sizeof_proc_us : Z := 52.

(** Read a field through the updates of a slot. *)
Ltac psimp :=
  cbn [p_sz p_pgdir p_kstack p_state p_pid p_priority p_parent p_tf p_context p_chan p_killed
       p_ofile p_cwd p_name p_isthread p_stack p_ctime p_stime p_retime p_rutime
       set_sz set_pgdir set_kstack set_state set_pid set_priority set_parent set_tf set_context
       set_chan set_killed set_ofile set_cwd set_name set_isthread set_stack set_ctime set_stime
       set_retime set_rutime] in *.
