(* ===== verification/Sched.v ===== *)
(** * Scheduling policies

    The policy functions of [proc.c] ([random], [defaultScheduler],
    [priorityScheduler], [fcfsScheduler], [rrScheduler], [smlScheduler]), the
    policy tables of [sdh.h], and the system calls that read and switch the
    policy.  Every policy reads the process table and returns the slot of the
    process to run; [random] and [rrScheduler] also keep static state. *)
From S2P Require Import Prelude Proctab.
Local Open Scope Z_scope.

(** ** Static state *)

(** The four LFSR registers of [random]. *)
Record lfsr := mkLfsr { z1 : Z; z2 : Z; z3 : Z; z4 : Z }.

(** The policies named by [schedulerFunction[]]. *)
Inductive policy := defaultP | priorityP | fcfsP | rrP | smlP.

#[export] Instance policy_eq_dec : EqDecision policy.
Proof. solve_decision. Defined.

(** [ready_process] is [None] when the pointer was loaded from outside
    [schedulerFunction[]]. *)
Record sched_state := mkSched {
  ready_process : option policy;
  schedSelected : Z;
  rng : lfsr;
  rr_idx : nat
}.

Definition schedulerName : list string :=
  ["DEFAULT"; "PRIORITY"; "FCFS"; "CFS"; "SML"]%string.
Definition schedulerFunction : list policy := [defaultP; priorityP; fcfsP; rrP; smlP].

(** The state the compiler flag DEFAULT selects (the Makefile's default). *)
Definition sched_init : sched_state :=
  mkSched (Some defaultP) 0 (mkLfsr 12345 12345 12345 12345) (NPROC - 1).

Definition set_rng (g : lfsr) (st : sched_state) : sched_state :=
  mkSched (ready_process st) (schedSelected st) g (rr_idx st).
Definition set_rr_idx (i : nat) (st : sched_state) : sched_state :=
  mkSched (ready_process st) (schedSelected st) (rng st) i.

(** ** random

    The registers are [int]; the masks 4294967294, 4294967288, 4294967280 and
    4294967168 do not fit in [int] or [long], so the masked value, its left
    shift and the xor are computed in [long long] and truncated when they are
    stored. *)
Definition random (max : Z) (g : lfsr) : Z * lfsr :=
  if max <=? 0 then (1, g)
  else
    let b := Z.shiftr (Z.lxor (s32 (Z.shiftl (z1 g) 6)) (z1 g)) 13 in
    let z1' := s32 (Z.lxor (Z.shiftl (Z.land (z1 g) 4294967294) 18) b) in
    let b := Z.shiftr (Z.lxor (s32 (Z.shiftl (z2 g) 2)) (z2 g)) 27 in
    let z2' := s32 (Z.lxor (Z.shiftl (Z.land (z2 g) 4294967288) 2) b) in
    let b := Z.shiftr (Z.lxor (s32 (Z.shiftl (z3 g) 13)) (z3 g)) 21 in
    let z3' := s32 (Z.lxor (Z.shiftl (Z.land (z3 g) 4294967280) 7) b) in
    let b := Z.shiftr (Z.lxor (s32 (Z.shiftl (z4 g) 3)) (z4 g)) 12 in
    let z4' := s32 (Z.lxor (Z.shiftl (Z.land (z4 g) 4294967168) 13) b) in
    let rand := Z.rem (Z.lxor (Z.lxor (Z.lxor z1' z2') z3') z4') max in
    let rand := if rand <? 0 then s32 (rand * -1) else rand in
    (rand, mkLfsr z1' z2' z3' z4').

(** ** Policies *)

Section Policies.
Implicit Types (ps : list proc).

(** [ptable.proc[i].state == RUNNABLE] *)
Definition runnable_at ps (i : nat) : bool :=
  match ps !! i with Some p => in_state RUNNABLE p | None => false end.

(** The loop of [defaultScheduler] from iteration [i] on, [k] left. *)
Fixpoint default_loop ps (rnd : Z) (i k : nat) : option nat :=
  match k with
  | O => None
  | S k' =>
      let p := Z.to_nat (Z.rem (rnd + Z.of_nat i) (Z.of_nat NPROC)) in
      if runnable_at ps p then Some p else default_loop ps rnd (S i) k'
  end.

Definition defaultScheduler ps (st : sched_state) : option nat * sched_state :=
  let '(rnd, g) := random (Z.of_nat NPROC) (rng st) in
  (default_loop ps rnd 0 NPROC, set_rng g st).

(** The scan shared by the priority and FCFS policies: [key] is the field
    they compare.  [i] is the slot of the head of [l]; [best] is [res] with
    the key of the process it points to. *)
Fixpoint min_scan (key : proc -> Z) (l : list proc) (i : nat)
    (best : option (nat * Z)) : option (nat * Z) :=
  match l with
  | [] => best
  | p :: l' =>
      let best' :=
        if in_state RUNNABLE p then
          match best with
          | Some (_, kb) => if key p <? kb then Some (i, key p) else best
          | None => Some (i, key p)
          end
        else best in
      min_scan key l' (S i) best'
  end.

Definition priorityScheduler ps : option nat := fst <$> min_scan p_priority ps 0 None.
Definition fcfsScheduler ps : option nat := fst <$> min_scan p_ctime ps 0 None.

(** [do if(ptable.proc[(idx=((idx+1)%NPROC))].state==RUNNABLE) return ...;
     while(i!=idx);]  The result is the returned slot and the final [idx];
    [None] when [fuel] iterations did not end the loop. *)
Fixpoint rr_loop ps (i idx fuel : nat) : option (option nat * nat) :=
  match fuel with
  | O => None
  | S fuel' =>
      let idx' := ((idx + 1) mod NPROC)%nat in
      if runnable_at ps idx' then Some (Some idx', idx')
      else if Nat.eqb i idx' then Some (None, idx')
      else rr_loop ps i idx' fuel'
  end.

Definition rrScheduler ps (st : sched_state) : option (option nat * sched_state) :=
  '(r, idx) ← rr_loop ps (rr_idx st) (rr_idx st) NPROC;
  Some (r, set_rr_idx idx st).

Definition MLQ_LEVELS : nat := 3.
Definition MLQ_TIME_SLICES : list Z := [7; 14; 0].

(** The level the inner loop of [smlScheduler] appends a process to. *)
Fixpoint mlq_level (prio : Z) (i k : nat) : nat :=
  match k with
  | O => i
  | S k' =>
      if (i <? MLQ_LEVELS - 1)%nat then
        if prio <=? default 0 (MLQ_TIME_SLICES !! i) then i
        else mlq_level prio (S i) k'
      else i
  end.

(** [MQ[l][0 .. Idxs[l])]: the runnable processes of level [l] in table order. *)
Fixpoint mlq_fill (l : list proc) (i : nat) (MQ : list (list nat)) : list (list nat) :=
  match l with
  | [] => MQ
  | p :: l' =>
      let MQ' :=
        if in_state RUNNABLE p
        then alter (fun q => q ++ [i]) (mlq_level (p_priority p) 0 MLQ_LEVELS) MQ
        else MQ in
      mlq_fill l' (S i) MQ'
  end.

(** [for(i...) if(Idxs[i]>0) return MQ[i][random(Idxs[i])];] *)
Fixpoint mlq_pick (MQ : list (list nat)) (g : lfsr) : option nat * lfsr :=
  match MQ with
  | [] => (None, g)
  | q :: MQ' =>
      if (0 <? length q)%nat then
        let '(r, g') := random (Z.of_nat (length q)) g in
        (q !! Z.to_nat r, g')
      else mlq_pick MQ' g
  end.

Definition smlScheduler ps (st : sched_state) : option nat * sched_state :=
  let '(r, g) := mlq_pick (mlq_fill ps 0 (replicate MLQ_LEVELS [])) (rng st) in
  (r, set_rng g st).
End Policies.

(** The indirect call of [ready_process] in [scheduler()]: [None] stands for a call through a pointer that is
    not one of the policies. *)
Definition call_ready_process (ps : list proc) (st : sched_state)
    : option (option nat * sched_state) :=
  match ready_process st with
  | Some defaultP => Some (defaultScheduler ps st)
  | Some priorityP => Some (priorityScheduler ps, st)
  | Some fcfsP => Some (fcfsScheduler ps, st)
  | Some rrP => rrScheduler ps st
  | Some smlP => Some (smlScheduler ps st)
  | None => None
  end.

(** ** System calls on the policy *)

Definition getscheduler (st : sched_state) : Z := schedSelected st.

Definition setscheduler (sid : Z) (st : sched_state) : Z * sched_state :=
  let max := Z.of_nat (length schedulerName) in
  if (sid <? 0) || (max <? sid) then (-1, st)
  else
    (sid, mkSched (schedulerFunction !! Z.to_nat sid) sid (rng st) (rr_idx st)).

(** ** The clock tick's use of the policy, [trap.c] *)

Definition NON_PREEMPTIVE_SCHED : list Z := [2].

(** The loop over NON_PREEMPTIVE_SCHED that decides whether a tick yields. *)
Definition tick_yields (st : sched_state) : bool :=
  forallb (fun np => negb (getscheduler st =? np)) NON_PREEMPTIVE_SCHED.

(** [update_statistics]: one clock tick charged to every process. *)
Definition update_stat (p : proc) : proc :=
  match p_state p with
  | SLEEPING => set_stime (s32 (p_stime p + 1)) p
  | RUNNABLE => set_retime (s32 (p_retime p + 1)) p
  | RUNNING => set_rutime (s32 (p_rutime p + 1)) p
  | _ => p
  end.

Definition update_statistics (ps : list proc) : list proc := update_stat <$> ps.

(** ** Specifications *)

(** [r] is the first process with the least [key] among the runnable ones. *)
Definition first_min (key : proc -> Z) (ps : list proc) (r : option nat) : Prop :=
  match r with
  | None => forall j, runnable_at ps j = false
  | Some i =>
      runnable_at ps i = true /\
      forall j p q, ps !! i = Some p -> ps !! j = Some q -> p_state q = RUNNABLE ->
        key p <= key q /\ ((j < i)%nat -> key p < key q)
  end.

(** [d] slots after [idx] in cyclic table order. *)
Definition rr_slot (idx d : nat) : nat := ((idx + d) mod NPROC)%nat.

(** [r] is the first runnable slot strictly after [idx], the whole circle
    included; the scan ends on the slot it returns, or where it began. *)
Definition rr_next (ps : list proc) (idx : nat) (r : option nat) (idx' : nat) : Prop :=
  match r with
  | Some j =>
      idx' = j /\ runnable_at ps j = true /\
      exists d, (1 <= d <= NPROC)%nat /\ j = rr_slot idx d /\
        forall d', (1 <= d' < d)%nat -> runnable_at ps (rr_slot idx d') = false
  | None => idx' = idx /\ forall j, runnable_at ps j = false
  end.

(** The queue a priority belongs to: [.. 7], [8 .. 14], [15 ..]. *)
Definition sml_level (prio : Z) : nat :=
  if prio <=? 7 then 0 else if prio <=? 14 then 1 else 2.

(** The policy pointer agrees with the selected policy number, and the static
    indices are in range. *)
Definition sched_wf (st : sched_state) : Prop :=
  (0 <= schedSelected st < Z.of_nat (length schedulerFunction)) /\
  ready_process st = schedulerFunction !! Z.to_nat (schedSelected st) /\
  (rr_idx st < NPROC)%nat.

#[export] Instance sched_wf_dec st : Decision (sched_wf st).
Proof. unfold sched_wf. apply _. Defined.

(** ** Lemmas *)

Lemma runnable_at_lookup ps i :
  runnable_at ps i = true <-> exists p, ps !! i = Some p /\ p_state p = RUNNABLE.
Proof.
  unfold runnable_at. destruct (ps !! i) as [p|]; [rewrite in_state_true|]; naive_solver.
Qed.

Lemma runnable_at_lt ps i : runnable_at ps i = true -> (i < length ps)%nat.
Proof. intros (p & Hp & _)%runnable_at_lookup. by eapply lookup_lt_Some. Qed.

Lemma random_range max g :
  0 < max < 2 ^ 31 -> 0 <= fst (random max g) < max.
Proof.
  intros H. unfold random. destruct (Z.leb_spec max 0) as [|_]; [lia|]. simpl fst.
  match goal with |- context [Z.rem ?x max] => generalize x end. intros x.
  pose proof (Z.rem_bound_abs x max ltac:(lia)) as Hb.
  destruct (Z.ltb_spec (Z.rem x max) 0); [rewrite s32_id|]; lia.
Qed.

Lemma random_next_int max g g' r :
  0 < max -> random max g = (r, g') ->
  is_s32 (z1 g') /\ is_s32 (z2 g') /\ is_s32 (z3 g') /\ is_s32 (z4 g').
Proof.
  unfold random. destruct (Z.leb_spec max 0); [lia|]. intros _ [= _ <-].
  cbn [z1 z2 z3 z4]. repeat split; apply s32_range.
Qed.

(** *** The minimum scan *)

(** What [min_scan] has found after the first [i] slots of [ps]. *)
Definition scan_inv (key : proc -> Z) (ps : list proc) (i : nat) (best : option (nat * Z)) : Prop :=
  match best with
  | None => forall j, (j < i)%nat -> runnable_at ps j = false
  | Some (b, kb) =>
      (b < i)%nat /\ (exists p, ps !! b = Some p /\ p_state p = RUNNABLE /\ key p = kb) /\
      forall j q, (j < i)%nat -> ps !! j = Some q -> p_state q = RUNNABLE ->
        kb <= key q /\ ((j < b)%nat -> kb < key q)
  end.

Lemma scan_inv_step key ps i p best :
  ps !! i = Some p -> scan_inv key ps i best ->
  scan_inv key ps (S i)
    (if in_state RUNNABLE p then
       match best with
       | Some (_, kb) => if key p <? kb then Some (i, key p) else best
       | None => Some (i, key p)
       end
     else best).
Proof.
  intros Hp Hinv. destruct (in_state RUNNABLE p) eqn:Er.
  - apply in_state_true in Er. destruct best as [[b kb]|]; simpl in Hinv.
    + destruct Hinv as (Hb & (pb & Hpb & Hrb & Hkb) & Hmin).
      destruct (Z.ltb_spec (key p) kb); simpl.
      * split; [lia|]. split; [by exists p|]. intros j q Hj Hq Hr.
        destruct (decide (j = i)) as [->|]; [simplify_eq; lia|].
        destruct (Hmin j q ltac:(lia) Hq Hr). lia.
      * split; [lia|]. split; [by exists pb|]. intros j q Hj Hq Hr.
        destruct (decide (j = i)) as [->|]; [simplify_eq; lia|].
        destruct (Hmin j q ltac:(lia) Hq Hr). auto.
    + simpl. split; [lia|]. split; [by exists p|]. intros j q Hj Hq Hr.
      destruct (decide (j = i)) as [->|]; [simplify_eq; lia|].
      assert (runnable_at ps j = true) by (apply runnable_at_lookup; eauto).
      rewrite Hinv in *; [done|lia].
  - apply in_state_false in Er. destruct best as [[b kb]|]; simpl in *.
    + destruct Hinv as (Hb & Hex & Hmin). split; [lia|]. split; [done|].
      intros j q Hj Hq Hr. destruct (decide (j = i)) as [->|]; [by simplify_eq|].
      apply Hmin; [lia|done|done].
    + intros j Hj. destruct (decide (j = i)) as [->|]; [|apply Hinv; lia].
      unfold runnable_at. rewrite Hp. by apply in_state_false.
Qed.

Lemma min_scan_inv key ps l i best :
  l = drop i ps -> (i <= length ps)%nat -> scan_inv key ps i best ->
  scan_inv key ps (length ps) (min_scan key l i best).
Proof.
  revert i best. induction l as [|p l IH]; intros i best Hl Hi Hinv; simpl.
  - assert (length ps <= i)%nat as Hle.
    { apply (f_equal length) in Hl. rewrite length_drop in Hl. simpl in Hl. lia. }
    replace (length ps) with i by lia. done.
  - assert (ps !! i = Some p) as Hp.
    { replace i with (i + 0)%nat by lia. by rewrite <- lookup_drop, <- Hl. }
    apply IH.
    + replace (S i) with (i + 1)%nat by lia. by rewrite <- drop_drop, <- Hl.
    + apply lookup_lt_Some in Hp. lia.
    + by apply scan_inv_step.
Qed.

Lemma min_scan_first_min key ps :
  first_min key ps (fst <$> min_scan key ps 0 None).
Proof.
  pose proof (min_scan_inv key ps ps 0 None eq_refl ltac:(lia)) as H.
  destruct (min_scan key ps 0 None) as [[b kb]|]; simpl in *.
  - destruct H as (Hb & (p & Hp & Hr & Hk) & Hmin); [intros; lia|].
    split; [apply runnable_at_lookup; eauto|]. intros j p' q Hp' Hq Hrq.
    simplify_eq. apply (Hmin j); [by eapply lookup_lt_Some|done..].
  - intros j. destruct (runnable_at ps j) eqn:E; [|done].
    rewrite <- E. apply H; [intros; lia|]. by apply runnable_at_lt.
Qed.

Lemma first_min_unique key ps r1 r2 :
  first_min key ps r1 -> first_min key ps r2 -> r1 = r2.
Proof.
  destruct r1 as [i|], r2 as [j|]; simpl; [|intros [H _] H'|intros H' [H _]|done].
  - intros [Hi Hmi] [Hj Hmj]. f_equal.
    apply runnable_at_lookup in Hi as (p & Hp & Hrp).
    apply runnable_at_lookup in Hj as (q & Hq & Hrq).
    destruct (Hmi j p q Hp Hq Hrq), (Hmj i q p Hq Hp Hrp).
    destruct (lt_eq_lt_dec i j) as [[|]|]; [|done|]; lia.
  - by rewrite H' in H.
  - by rewrite H' in H.
Qed.

(** *** The cyclic scans *)

Lemma default_loop_Some ps rnd i k p :
  default_loop ps rnd i k = Some p -> runnable_at ps p = true.
Proof.
  revert i; induction k as [|k IH]; simpl; intros i; [done|].
  case_match eqn:E; [by intros [= <-]|apply IH].
Qed.

Lemma default_loop_None ps rnd i k :
  default_loop ps rnd i k = None -> forall i', (i <= i' < i + k)%nat ->
  runnable_at ps (Z.to_nat (Z.rem (rnd + Z.of_nat i') (Z.of_nat NPROC))) = false.
Proof.
  revert i; induction k as [|k IH]; simpl; intros i H i' Hi'; [lia|].
  case_match eqn:E; [done|]. destruct (decide (i' = i)) as [->|]; [done|].
  eapply IH; [done|lia].
Qed.

(** Starting anywhere in the table, NPROC steps visit every slot. *)
Lemma cyclic_cover rnd j :
  0 <= rnd < Z.of_nat NPROC -> (j < NPROC)%nat ->
  exists i, (i < NPROC)%nat /\ Z.to_nat (Z.rem (rnd + Z.of_nat i) (Z.of_nat NPROC)) = j.
Proof.
  unfold NPROC. intros Hr Hj. destruct (Z_le_gt_dec rnd (Z.of_nat j)).
  - exists (Z.to_nat (Z.of_nat j - rnd)). split; [lia|].
    rewrite Z.rem_mod_nonneg by lia. lia.
  - exists (Z.to_nat (Z.of_nat j - rnd + 64)). split; [lia|].
    rewrite Z.rem_mod_nonneg by lia. lia.
Qed.

Lemma rr_slot_S idx d : rr_slot idx (S d) = ((rr_slot idx d + 1) mod NPROC)%nat.
Proof. unfold rr_slot, NPROC. lia. Qed.

Lemma rr_slot_0 idx : (idx < NPROC)%nat -> rr_slot idx 0 = idx.
Proof. unfold rr_slot, NPROC. lia. Qed.

Lemma rr_slot_NPROC idx : (idx < NPROC)%nat -> rr_slot idx NPROC = idx.
Proof. unfold rr_slot, NPROC. lia. Qed.

Lemma rr_slot_cover idx j :
  (idx < NPROC)%nat -> (j < NPROC)%nat ->
  exists d, (1 <= d <= NPROC)%nat /\ j = rr_slot idx d.
Proof.
  unfold rr_slot, NPROC. intros. destruct (decide (idx < j)%nat).
  - exists (j - idx)%nat. lia.
  - exists (j + 64 - idx)%nat. lia.
Qed.

Lemma rr_slot_inj idx d d' :
  (1 <= d <= NPROC)%nat -> (1 <= d' <= NPROC)%nat -> rr_slot idx d = rr_slot idx d' -> d = d'.
Proof. unfold rr_slot, NPROC. lia. Qed.

(** The loop from distance [d] of its start. *)
Lemma rr_loop_spec ps i d fuel :
  (i < NPROC)%nat -> length ps = NPROC -> (d + fuel = NPROC)%nat -> (1 <= fuel)%nat ->
  (forall d', (1 <= d' <= d)%nat -> runnable_at ps (rr_slot i d') = false) ->
  exists r idx', rr_loop ps i (rr_slot i d) fuel = Some (r, idx') /\ rr_next ps i r idx'.
Proof.
  intros Hi Hlen. revert d. induction fuel as [|fuel IH]; intros d Hd Hf Hprev; [lia|].
  cbn [rr_loop]. rewrite <- rr_slot_S.
  destruct (runnable_at ps (rr_slot i (S d))) eqn:Er.
  { eexists _, _; split; [done|]. simpl. split; [done|]. split; [done|].
    exists (S d). split; [lia|]. split; [done|]. intros. apply Hprev. lia. }
  assert (forall d', (1 <= d' <= S d)%nat -> runnable_at ps (rr_slot i d') = false) as Hprev'.
  { intros d' Hd'. destruct (decide (d' = S d)) as [->|]; [done|]. apply Hprev. lia. }
  destruct (Nat.eqb_spec i (rr_slot i (S d))) as [Heq|Hne].
  - assert (S d = NPROC) as HS.
    { apply (rr_slot_inj i); [lia|unfold NPROC; lia|]. by rewrite <- Heq, rr_slot_NPROC. }
    eexists _, _; split; [done|]. simpl. split; [done|]. intros j.
    destruct (decide (j < NPROC)%nat) as [Hj|Hj].
    + destruct (rr_slot_cover i j Hi Hj) as (d' & Hd' & ->). apply Hprev'. lia.
    + unfold runnable_at. rewrite lookup_ge_None_2; [done|lia].
  - apply IH; [lia| |done]. destruct fuel; [|lia].
    exfalso. apply Hne. replace (S d) with NPROC by lia. by rewrite rr_slot_NPROC.
Qed.

Lemma rrScheduler_next ps st :
  (rr_idx st < NPROC)%nat -> length ps = NPROC ->
  exists r idx', rrScheduler ps st = Some (r, set_rr_idx idx' st) /\ rr_next ps (rr_idx st) r idx'.
Proof.
  intros Hi Hlen. unfold rrScheduler.
  destruct (rr_loop_spec ps (rr_idx st) 0 NPROC) as (r & idx' & Hl & Hn); try done.
  { unfold NPROC; lia. } { intros; lia. }
  rewrite rr_slot_0 in Hl by done. rewrite Hl. eauto.
Qed.

Lemma rr_next_lt ps idx r idx' :
  (idx < NPROC)%nat -> rr_next ps idx r idx' -> (idx' < NPROC)%nat.
Proof.
  destruct r; simpl; [|by intros ? [-> _]]. intros _ (-> & _ & d & _ & -> & _).
  unfold rr_slot, NPROC. lia.
Qed.

(** *** The multilevel queues *)

Lemma mlq_level_spec prio : mlq_level prio 0 MLQ_LEVELS = sml_level prio.
Proof. reflexivity. Qed.

Lemma sml_level_lt prio : (sml_level prio < MLQ_LEVELS)%nat.
Proof. unfold sml_level, MLQ_LEVELS. repeat case_match; lia. Qed.

(** The queues hold exactly the runnable slots seen so far, by level. *)
Lemma mlq_fill_elem l i MQ lv q :
  length MQ = MLQ_LEVELS -> mlq_fill l i MQ !! lv = Some q ->
  forall x, x ∈ q <->
    (exists q0, MQ !! lv = Some q0 /\ x ∈ q0) \/
    (exists p, (i <= x)%nat /\ l !! (x - i)%nat = Some p /\ p_state p = RUNNABLE /\
       sml_level (p_priority p) = lv).
Proof.
  revert i MQ. induction l as [|p l IH]; intros i MQ Hlen Hq x; cbn [mlq_fill] in Hq.
  { split; [eauto|]. intros [(q0 & H & ?)|(p & _ & H & _)]; [by simplify_eq|].
    by rewrite lookup_nil in H. }
  eapply IH in Hq as ->; [|by case_match; rewrite ?length_alter].
  assert (forall P : proc -> Prop, (exists p', (i <= x)%nat /\ (p :: l) !! (x - i)%nat = Some p' /\ P p') <->
    (x = i /\ P p) \/ (exists p', (S i <= x)%nat /\ l !! (x - S i)%nat = Some p' /\ P p')) as Hsplit.
  { intros P. split.
    - intros (p' & Hx & Hp' & HP). destruct (decide (x = i)) as [->|].
      + rewrite Nat.sub_diag in Hp'. simplify_eq/=. auto.
      + right. exists p'. split; [lia|]. replace (x - i)%nat with (S (x - S i)) in Hp' by lia. done.
    - intros [[-> HP]|(p' & Hx & Hp' & HP)].
      + exists p. by rewrite Nat.sub_diag.
      + exists p'. split; [lia|]. by replace (x - i)%nat with (S (x - S i)) by lia. }
  rewrite Hsplit. rewrite mlq_level_spec.
  destruct (in_state RUNNABLE p) eqn:Er; [apply in_state_true in Er|apply in_state_false in Er; naive_solver].
  rewrite lookup_alter_cases. case_decide as Hlv; [|naive_solver].
  destruct (MQ !! lv) as [q0|] eqn:E0; simpl.
  - split.
    + intros [(q1 & [= <-] & Hx)|?]; [|by auto].
      apply elem_of_app in Hx as [?|Hx%list_elem_of_singleton]; [left; eauto|auto].
    + intros [(q1 & [= <-] & Hx)|[[-> _]|?]]; [left|left|by auto];
        eexists; (split; [done|]); apply elem_of_app; [by left|right].
      by apply list_elem_of_singleton.
  - exfalso. apply lookup_ge_None in E0. pose proof (sml_level_lt (p_priority p)). lia.
Qed.

Lemma mlq_fill_length l i MQ : length (mlq_fill l i MQ) = length MQ.
Proof.
  revert i MQ; induction l as [|p l IH]; intros i MQ; cbn [mlq_fill]; [done|].
  rewrite IH. case_match; [apply length_alter|done].
Qed.

(** The queues [smlScheduler] picks from. *)
Lemma mlq_queues ps lv q x :
  mlq_fill ps 0 (replicate MLQ_LEVELS []) !! lv = Some q ->
  x ∈ q <-> exists p, ps !! x = Some p /\ p_state p = RUNNABLE /\ sml_level (p_priority p) = lv.
Proof.
  intros Hq. rewrite (mlq_fill_elem _ _ _ _ _ (length_replicate _ _) Hq).
  setoid_rewrite lookup_replicate. split.
  - intros [(q0 & (-> & _) & Hx)|(p & _ & Hp & ?)]; [by apply not_elem_of_nil in Hx|].
    rewrite Nat.sub_0_r in Hp. eauto.
  - intros (p & Hp & ?). right. exists p. rewrite Nat.sub_0_r. split; [lia|done].
Qed.

Lemma mlq_pick_spec MQ g :
  (forall q, q ∈ MQ -> Z.of_nat (length q) < 2 ^ 31) ->
  match fst (mlq_pick MQ g) with
  | None => forall q, q ∈ MQ -> q = []
  | Some x => exists lv q, MQ !! lv = Some q /\ x ∈ q /\
                forall lv' q', (lv' < lv)%nat -> MQ !! lv' = Some q' -> q' = []
  end.
Proof.
  induction MQ as [|q MQ IH]; intros Hlen; cbn [mlq_pick].
  { intros q Hq. by apply not_elem_of_nil in Hq. }
  destruct (Nat.ltb_spec 0 (length q)) as [Hpos|Hzero].
  - pose proof (random_range (Z.of_nat (length q)) g) as Hr.
    specialize (Hlen q ltac:(left)). specialize (Hr ltac:(lia)).
    destruct (random _ g) as [r g']. simpl in *.
    destruct (lookup_lt_is_Some_2 q (Z.to_nat r)) as [x Hx]; [lia|]. rewrite Hx.
    exists 0%nat, q. split; [done|]. split; [|intros; lia].
    by eapply list_elem_of_lookup_2.
  - destruct q; simpl in Hzero; [|lia].
    specialize (IH ltac:(intros; apply Hlen; by right)).
    destruct (fst (mlq_pick MQ g)) as [x|].
    + destruct IH as (lv & q & Hq & Hx & Hlow). exists (S lv), q. split; [done|]. split; [done|].
      intros [|lv'] q' ? Hq'; simplify_eq/=; [done|]. eapply Hlow; [|done]; lia.
    + intros q [->|Hq]%elem_of_cons; auto.
Qed.

(** Appending slots in table order never repeats one. *)
Lemma mlq_fill_NoDup l i MQ :
  (forall q, q ∈ MQ -> NoDup q /\ forall x, x ∈ q -> (x < i)%nat) ->
  forall q, q ∈ mlq_fill l i MQ -> NoDup q.
Proof.
  revert i MQ. induction l as [|p l IH]; intros i MQ Hq; cbn [mlq_fill]; [naive_solver|].
  apply IH. intros q Hin. case_match; [|split; [by apply Hq|]; intros; apply Nat.lt_lt_succ_r; by eapply Hq].
  apply list_elem_of_lookup in Hin as (lv & Hlv). rewrite lookup_alter_cases in Hlv.
  case_decide.
  - apply fmap_Some in Hlv as (q0 & Hq0 & ->).
    destruct (Hq q0) as [Hnd Hlt]; [by eapply list_elem_of_lookup_2|].
    split.
    + apply NoDup_app. split; [done|]. split; [|apply NoDup_singleton].
      intros x Hx ->%list_elem_of_singleton. specialize (Hlt _ Hx). lia.
    + intros x [Hx| ->%list_elem_of_singleton]%elem_of_app; [|lia]. specialize (Hlt _ Hx). lia.
  - destruct (Hq q) as [Hnd Hlt]; [by eapply list_elem_of_lookup_2|].
    split; [done|]. intros x Hx. specialize (Hlt _ Hx). lia.
Qed.

Lemma mlq_queue_short ps q :
  length ps = NPROC -> q ∈ mlq_fill ps 0 (replicate MLQ_LEVELS []) ->
  Z.of_nat (length q) < 2 ^ 31.
Proof.
  intros Hlen Hin. assert (NoDup q) as Hnd.
  { eapply (mlq_fill_NoDup ps 0); [|done].
    intros q0 [-> _]%elem_of_replicate. split; [apply NoDup_nil_2|].
    intros x Hx. by apply not_elem_of_nil in Hx. }
  apply list_elem_of_lookup_1 in Hin as (lv & Hq).
  assert (length q <= NPROC)%nat; [|unfold NPROC in *; lia].
  rewrite <- (length_seq NPROC 0). apply submseteq_length, NoDup_submseteq; [done|].
  intros x (p & Hp & _)%(mlq_queues ps lv q x Hq). apply lookup_lt_Some in Hp.
  apply elem_of_seq. lia.
Qed.

Lemma smlScheduler_spec ps st :
  length ps = NPROC ->
  match fst (smlScheduler ps st) with
  | None => forall j, runnable_at ps j = false
  | Some i =>
      exists p, ps !! i = Some p /\ p_state p = RUNNABLE /\
        forall j q, ps !! j = Some q -> p_state q = RUNNABLE ->
          (sml_level (p_priority p) <= sml_level (p_priority q))%nat
  end.
Proof.
  intros Hlen. unfold smlScheduler.
  pose proof (mlq_pick_spec (mlq_fill ps 0 (replicate MLQ_LEVELS [])) (rng st)) as H.
  destruct (mlq_pick _ _) as [r g]. simpl fst in *.
  assert (forall lv, (lv < MLQ_LEVELS)%nat -> exists q,
    mlq_fill ps 0 (replicate MLQ_LEVELS []) !! lv = Some q) as Hall.
  { intros lv Hlv. apply lookup_lt_is_Some. by rewrite mlq_fill_length, length_replicate. }
  destruct r as [i|].
  - destruct H as (lv & q & Hq & Hi & Hlow); [by intros; eapply mlq_queue_short|].
    apply (mlq_queues ps lv q i Hq) in Hi as (p & Hp & Hr & Hl). exists p. split; [done|]. split; [done|].
    intros j q' Hj Hrj. destruct (decide (sml_level (p_priority q') < lv)%nat) as [Hlt|]; [|lia].
    destruct (Hall (sml_level (p_priority q'))) as (q1 & Hq1); [apply sml_level_lt|].
    assert (j ∈ q1) as Hin by (apply (mlq_queues ps _ q1 j Hq1); eauto).
    rewrite (Hlow _ _ Hlt Hq1) in Hin. by apply not_elem_of_nil in Hin.
  - intros j. destruct (runnable_at ps j) eqn:E; [|done].
    apply runnable_at_lookup in E as (p & Hp & Hr).
    destruct (Hall (sml_level (p_priority p))) as (q1 & Hq1); [apply sml_level_lt|].
    assert (j ∈ q1) as Hin by (apply (mlq_queues ps _ q1 j Hq1); eauto).
    rewrite H in Hin.
    + by apply not_elem_of_nil in Hin.
    + by intros; eapply mlq_queue_short.
    + by eapply list_elem_of_lookup_2.
Qed.

(** *** Round robin over time *)

(** Successive calls of [rrScheduler], the table changing in between. *)
Fixpoint rr_run (tabs : list (list proc)) (st : sched_state)
    : option (list (option nat) * sched_state) :=
  match tabs with
  | [] => Some ([], st)
  | ps :: tabs' =>
      '(r, st1) ← rrScheduler ps st;
      '(rs, st2) ← rr_run tabs' st1;
      Some (r :: rs, st2)
  end.

Lemma rr_next_closer ps idx r idx' d :
  rr_next ps idx r idx' -> (1 <= d <= NPROC)%nat ->
  runnable_at ps (rr_slot idx d) = true ->
  r = Some (rr_slot idx d) \/
  exists d', (1 <= d' < d)%nat /\ rr_slot idx' d' = rr_slot idx d.
Proof.
  destruct r as [j|]; simpl; [|intros [_ H] ? H'; by rewrite H in H'].
  intros (-> & _ & d0 & Hd0 & -> & Hfst) Hd Hr.
  destruct (decide (d < d0)%nat); [by rewrite Hfst in Hr by lia|].
  destruct (decide (d = d0)) as [->|]; [by left|].
  right. exists (d - d0)%nat. split; [lia|]. unfold rr_slot, NPROC in *. lia.
Qed.

Lemma rr_run_reaches tabs st d :
  (rr_idx st < NPROC)%nat -> (1 <= d <= NPROC)%nat -> (d <= length tabs)%nat ->
  (forall ps, ps ∈ tabs -> length ps = NPROC /\ runnable_at ps (rr_slot (rr_idx st) d) = true) ->
  exists rs st', rr_run tabs st = Some (rs, st') /\ Some (rr_slot (rr_idx st) d) ∈ rs.
Proof.
  revert st d. induction tabs as [|ps tabs IH]; intros st d Hidx Hd Hlen Htabs; simpl in *; [lia|].
  destruct (Htabs ps ltac:(left)) as [Hps Hrun].
  destruct (rrScheduler_next ps st Hidx Hps) as (r & idx' & -> & Hn).
  pose proof (rr_next_lt _ _ _ _ Hidx Hn) as Hidx'. simpl.
  assert (forall st', (rr_idx st' < NPROC)%nat -> exists rs st'', rr_run tabs st' = Some (rs, st'')) as Htot.
  { clear -Htabs. assert (forall ps, ps ∈ tabs -> length ps = NPROC) as Hl.
    { intros ps0 Hin. by destruct (Htabs ps0 ltac:(by right)). }
    clear Htabs. induction tabs as [|ps0 tabs IH]; intros st' Hst'; simpl; [eauto|].
    destruct (rrScheduler_next ps0 st' Hst') as (r0 & idx0 & -> & Hn0); [apply Hl; left|].
    destruct (IH ltac:(intros; apply Hl; by right) (set_rr_idx idx0 st')) as (rs & st'' & E).
    { by eapply rr_next_lt. }
    simpl. rewrite E. simpl. eauto. }
  destruct (rr_next_closer _ _ _ _ _ Hn Hd Hrun) as [->|(d' & Hd' & Heq)].
  - destruct (Htot (set_rr_idx idx' st)) as (rs & st' & ->); [done|]. simpl.
    eexists _, _; split; [done|]. left.
  - destruct (IH (set_rr_idx idx' st) d') as (rs & st' & -> & Hin); simpl; [done|lia|lia| |].
    + intros ps0 Hin. rewrite Heq. apply Htabs. by right.
    + eexists _, _; split; [done|]. right. simpl in Hin. by rewrite Heq in Hin.
Qed.

(** ** Properties *)

(** A call through a valid policy pointer returns, and keeps it valid. *)
Lemma ready_process_runs ps st :
  sched_wf st -> length ps = NPROC ->
  exists r st', call_ready_process ps st = Some (r, st') /\ sched_wf st' /\
    match r with
    | Some i => runnable_at ps i = true
    | None => forall j, runnable_at ps j = false
    end.
Proof.
  intros Hwf Hlen. pose proof Hwf as (Hsel & Hrp & Hidx). unfold call_ready_process. rewrite Hrp.
  destruct (lookup_lt_is_Some_2 schedulerFunction (Z.to_nat (schedSelected st))) as [p Hp]; [lia|].
  rewrite Hp. destruct p.
  - unfold defaultScheduler. pose proof (random_range (Z.of_nat NPROC) (rng st)) as Hr.
    destruct (random _ _) as [rnd g]. simpl in Hr. eexists _, _; split; [done|]. split; [done|].
    destruct (default_loop ps rnd 0 NPROC) as [i|] eqn:E; [by eapply default_loop_Some|].
    intros j. destruct (runnable_at ps j) eqn:Ej; [|done].
    destruct (cyclic_cover rnd j) as (i & Hi & Heq); [apply Hr; unfold NPROC; lia| |].
    { rewrite <- Hlen. by apply runnable_at_lt. }
    rewrite <- Ej, <- Heq. eapply default_loop_None; [done|lia].
  - eexists _, _; split; [done|]. split; [done|]. pose proof (min_scan_first_min p_priority ps) as H.
    unfold priorityScheduler. destruct (fst <$> _); [by destruct H|done].
  - eexists _, _; split; [done|]. split; [done|]. pose proof (min_scan_first_min p_ctime ps) as H.
    unfold fcfsScheduler. destruct (fst <$> _); [by destruct H|done].
  - destruct (rrScheduler_next ps st Hidx Hlen) as (r & idx' & -> & Hn).
    eexists _, _; split; [done|]. split.
    + split; [done|]. split; [done|]. by eapply rr_next_lt.
    + destruct r; [by destruct Hn as (_ & ? & _)|by destruct Hn].
  - eexists _, _; split; [apply f_equal, surjective_pairing|]. split.
    + unfold smlScheduler. by destruct (mlq_pick _ _).
    + pose proof (smlScheduler_spec ps st Hlen) as H. destruct (fst _); [|done].
      destruct H as (p & Hp' & Hr & _). apply runnable_at_lookup. eauto.
Qed.

(** For every positive [int] bound, [random] returns a value from 0 up to
    but not including the bound, and leaves its four registers in the range of
    [int], whatever the registers held. *)
Lemma random_in_range (max : Z) (g : lfsr) (Hmax : 0 < max <= INT_MAX) :
  let '(r, g') := random max g in
  0 <= r < max /\ is_s32 (z1 g') /\ is_s32 (z2 g') /\ is_s32 (z3 g') /\ is_s32 (z4 g').
Proof.
  pose proof (random_range max g) as Hr. destruct (random max g) as [r g'] eqn:E.
  split; [apply Hr; unfold INT_MAX in Hmax; lia|].
  eapply random_next_int; [|exact E]; lia.
Qed.

(** The priority policy returns the first runnable process of least
    [priority] and the FCFS policy the first runnable process of least
    [ctime]; both return null exactly when no process is runnable. *)
Lemma min_policies_correct (ps : list proc) (r : option nat) :
  (priorityScheduler ps = r <-> first_min p_priority ps r) /\
  (fcfsScheduler ps = r <-> first_min p_ctime ps r).
Proof.
  split; (split; [intros <-; apply min_scan_first_min|]);
    intros H; eapply first_min_unique; eauto using min_scan_first_min.
Qed.

(** C35: round robin starves nobody.  Over any NPROC successive calls of
    [rrScheduler], the process table changing arbitrarily in between, a
    process that is runnable at every call is selected at least once (and
    every call returns: the scan's loop terminates). *)
Theorem rr_fair (tabs : list (list proc)) (st : sched_state) (j : nat)
    (Hidx : (rr_idx st < NPROC)%nat) (Hj : (j < NPROC)%nat) (Hn : length tabs = NPROC)
    (Htabs : forall ps, ps ∈ tabs -> length ps = NPROC /\ runnable_at ps j = true) :
  exists rs st', rr_run tabs st = Some (rs, st') /\ Some j ∈ rs.
Proof.
  destruct (rr_slot_cover (rr_idx st) j Hidx Hj) as (d & Hd & ->).
  apply rr_run_reaches; [done|done|lia|done].
Qed.

Lemma rr_fair_witness :
  let ps := <[5%nat := set_state RUNNABLE zero_proc]> (replicate NPROC (set_state RUNNABLE zero_proc)) in
  exists rs st', rr_run (replicate NPROC ps) sched_init = Some (rs, st') /\ Some 5%nat ∈ rs.
Proof.
  apply rr_fair; [vm_compute; lia|unfold NPROC; lia|apply length_replicate|].
  intros ps [-> _]%elem_of_replicate. split; reflexivity.
Defined.

(** The multilevel policy only ever runs a process of the lowest
    (most urgent) non-empty queue, and returns null exactly when no process
    is runnable: a runnable process of a later queue waits while an earlier
    queue has a runnable process. *)
Lemma sml_correct (ps : list proc) (st : sched_state) (Hlen : length ps = NPROC) :
  match fst (smlScheduler ps st) with
  | None => forall j, runnable_at ps j = false
  | Some i =>
      exists p, ps !! i = Some p /\ p_state p = RUNNABLE /\
        forall j q, ps !! j = Some q -> p_state q = RUNNABLE ->
          (sml_level (p_priority p) <= sml_level (p_priority q))%nat
  end.
Proof. by apply smlScheduler_spec. Qed.

(** C36: every installed policy is work conserving.  With a valid policy
    pointer, the call made by [scheduler()] returns; the process it returns
    is runnable, and it returns null only when no process of the table is. *)
Theorem policies_work_conserving (ps : list proc) (st : sched_state)
    (Hwf : sched_wf st) (Hlen : length ps = NPROC) :
  exists r st', call_ready_process ps st = Some (r, st') /\
    match r with
    | Some i => runnable_at ps i = true
    | None => forall j, runnable_at ps j = false
    end.
Proof.
  destruct (ready_process_runs ps st Hwf Hlen) as (r & st' & ? & _ & ?). eauto.
Qed.

Lemma policies_work_conserving_witness :
  exists r st', call_ready_process (replicate NPROC zero_proc) sched_init = Some (r, st') /\
    match r with
    | Some i => runnable_at (replicate NPROC zero_proc) i = true
    | None => forall j, runnable_at (replicate NPROC zero_proc) j = false
    end.
Proof.
  apply policies_work_conserving; [|reflexivity].
  apply (bool_decide_unpack (sched_wf sched_init)). vm_compute. exact I.
Defined.

(** [setscheduler] rejects a negative number and every number above 5
    without changing the policy, and keeps the policy pointer valid for 0 to
    4; but it accepts 5, one past the last policy, and then installs a
    pointer read from beyond [schedulerFunction[]]. *)
Lemma setscheduler_wf_iff (sid : Z) (st : sched_state) (Hwf : sched_wf st) :
  (sched_wf (snd (setscheduler sid st)) <-> sid <> 5) /\
  (fst (setscheduler sid st) = if decide (0 <= sid <= 5) then sid else -1) /\
  (fst (setscheduler sid st) = -1 -> snd (setscheduler sid st) = st).
Proof.
  destruct Hwf as (Hsel & Hrp & Hidx). unfold setscheduler.
  change (Z.of_nat (length schedulerName)) with 5.
  destruct (Z.ltb_spec sid 0), (Z.ltb_spec 5 sid); simpl;
    try (split; [split; [lia|by intros _]|]; case_decide; (split; [lia|done])).
  split; [|case_decide; split; lia]. unfold sched_wf; simpl. split; [intros (?&?&?); lia|].
  intros. split; [lia|done].
Qed.

