(* ===== verification/Proc.v ===== *)
(** * Processes

    The process table and its operations: [proc.c] ([allocproc], [userinit],
    [growproc], [fork], [clone], [exit], [wait], [wait2], [join], [scheduler],
    [sched], [yield], [sleep], [wakeup], [kill], [getptable], [setpriority])
    and the clock tick of [trap.c].

    The operations run on one state record, [kstate], as steps of the CPU [c]
    they execute on.  Virtual memory and the file layer are reached through
    two interfaces, [VmOps] and [FileOps]: the theorems hold for every
    implementation of them.  [held] is the list of spin locks the executing
    CPU holds; its length is the [ncli] that [sched()] tests.  A routine that
    sleeps ends in [Asleep], the state in which the scheduler has taken the
    CPU back; [sleep_return] is the rest of [sleep()] when the process runs
    again. *)
From S2P Require Import Prelude Cstring Proctab Sched.
Local Open Scope Z_scope.

(** ** Interfaces *)

(** What process management uses of [kalloc.c] and [vm.c].  Addresses are
    [Z], null is 0; a page directory is named by its kernel address. *)
Class VmOps (V : Type) := {
  vm_kalloc : M V Z;
  vm_kfree : Z -> M V unit;
  vm_setupkvm : M V Z;
  vm_inituvm : Z -> M V unit;
  vm_copyuvm : Z -> Z -> M V Z;
  vm_freevm : Z -> M V unit;
  vm_allocuvm : Z -> Z -> Z -> M V Z;
  vm_deallocuvm : Z -> Z -> Z -> M V Z;
  vm_store : Z -> Z -> Z -> M V unit       (* *(int * )va = v through a page directory *)
}.

(** What process management uses of [file.c], [fs.c] and [log.c]. *)
Class FileOps (F : Type) := {
  f_filedup : nat -> M F unit;
  f_fileclose : nat -> M F unit;
  f_idup : nat -> M F unit;
  f_iput : nat -> M F unit;
  f_begin_op : M F unit;
  f_end_op : M F unit;
  f_namei_root : M F (option nat)
}.

(** ** State *)

Inductive lock := lk_ptable | lk_sched | lk_ticks | lk_sem (i : nat).

#[export] Instance lock_eq_dec : EqDecision lock.
Proof. solve_decision. Defined.

Record semaphore := mkSem { sem_value : Z; sem_active : Z }.

Definition MAX_SEMA_NUM : nat := 32.

Record kstate (V F : Type) := mkK {
  procs : list proc;            (* ptable.proc *)
  nextpid : Z;
  initproc : option nat;
  ticks : Z;
  sched_st : sched_state;
  sema : list semaphore;
  cpus : list (option nat);     (* cpus[c].proc *)
  held : list lock;
  vm : V;
  fs : F
}.
Arguments mkK {V F}.
Arguments procs {V F}.
Arguments nextpid {V F}.
Arguments initproc {V F}.
Arguments ticks {V F}.
Arguments sched_st {V F}.
Arguments sema {V F}.
Arguments cpus {V F}.
Arguments held {V F}.
Arguments vm {V F}.
Arguments fs {V F}.

Section Setters.
Context {V F : Type}.
Implicit Types k : kstate V F.
Definition set_procs x k := mkK x (nextpid k) (initproc k) (ticks k) (sched_st k) (sema k) (cpus k) (held k) (vm k) (fs k).
Definition set_nextpid x k := mkK (procs k) x (initproc k) (ticks k) (sched_st k) (sema k) (cpus k) (held k) (vm k) (fs k).
Definition set_initproc x k := mkK (procs k) (nextpid k) x (ticks k) (sched_st k) (sema k) (cpus k) (held k) (vm k) (fs k).
Definition set_ticks x k := mkK (procs k) (nextpid k) (initproc k) x (sched_st k) (sema k) (cpus k) (held k) (vm k) (fs k).
Definition set_sched_st x k := mkK (procs k) (nextpid k) (initproc k) (ticks k) x (sema k) (cpus k) (held k) (vm k) (fs k).
Definition set_sema x k := mkK (procs k) (nextpid k) (initproc k) (ticks k) (sched_st k) x (cpus k) (held k) (vm k) (fs k).
Definition set_cpus x k := mkK (procs k) (nextpid k) (initproc k) (ticks k) (sched_st k) (sema k) x (held k) (vm k) (fs k).
Definition set_held x k := mkK (procs k) (nextpid k) (initproc k) (ticks k) (sched_st k) (sema k) (cpus k) x (vm k) (fs k).
Definition set_vm (x : V) k := mkK (procs k) (nextpid k) (initproc k) (ticks k) (sched_st k) (sema k) (cpus k) (held k) x (fs k).
Definition set_fs (x : F) k := mkK (procs k) (nextpid k) (initproc k) (ticks k) (sched_st k) (sema k) (cpus k) (held k) (vm k) x.
End Setters.

(** ** Operations *)

Section Ops.
Context {V F : Type} `{!VmOps V} `{!FileOps F}.
(** The addresses of the assembly routines [forkret] and [trapret]. *)
Context (forkret_addr : Z).
Notation K := (M (kstate V F)).

Definition lift_vm {A} (m : M V A) : K A := fun k =>
  match m (vm k) with
  | Ret a v => Ret a (set_vm v k)
  | Panic msg => Panic msg
  | Asleep v => Asleep (set_vm v k)
  end.

Definition lift_fs {A} (m : M F A) : K A := fun k =>
  match m (fs k) with
  | Ret a f => Ret a (set_fs f k)
  | Panic msg => Panic msg
  | Asleep f => Asleep (set_fs f k)
  end.

(** *** Locks and the current process *)

(** [acquire]: a CPU that already holds the lock panics. *)
Definition acquire (l : lock) : K unit := fun k =>
  if bool_decide (l ∈ held k) then Panic "acquire" else Ret tt (set_held (l :: held k) k).

Definition release (l : lock) : K unit := fun k =>
  if bool_decide (l ∈ held k) then Ret tt (set_held (filter (fun l' => l' <> l) (held k)) k)
  else Panic "release".

(** [myproc()] on CPU [c] *)
Definition myproc (c : nat) : K (option nat) := gets (fun k => mjoin (cpus k !! c)).

(** [struct proc *curproc = myproc();] in code that dereferences it. *)
Definition curproc (c : nat) : K nat :=
  r ← myproc c;
  match r with Some p => mret p | None => panic "null myproc()" end.

Definition slot (i : nat) : K proc := fun k =>
  match procs k !! i with Some p => Ret p k | None => Panic "slot outside ptable" end.

Definition upd (i : nat) (f : proc -> proc) : K unit := modify (fun k => set_procs (alter f i (procs k)) k).

Definition set_cpu (c : nat) (p : option nat) : K unit := modify (fun k => set_cpus (<[c := p]> (cpus k)) k).

(** *** sched, sleep, wakeup, yield *)

(** [sched()]: the checks, then the switch to [scheduler()], which clears
    [c->proc] and releases [ptable.lock]. *)
Definition sched (c : nat) : K unit :=
  me ← curproc c;
  h ← gets held;
  if negb (bool_decide (lk_ptable ∈ h)) then panic "sched ptable.lock"
  else if negb (length h =? 1)%nat then panic "sched locks"
  else
    p ← slot me;
    if in_state RUNNING p then panic "sched running"
    else set_cpu c None;; release lk_ptable;; suspend.

Definition sleep (c : nat) (ch : channel) (lk : lock) : K unit :=
  r ← myproc c;
  match r with
  | None => panic "sleep"
  | Some me =>
      when (negb (bool_decide (lk = lk_ptable))) (acquire lk_ptable;; release lk);;
      upd me (fun p => set_state SLEEPING (set_chan (Some ch) p));;
      sched c
  end.

(** The end of [sleep()], after [sched()] has returned: [ptable.lock] is held. *)
Definition sleep_return (c : nat) (lk : lock) : K unit :=
  me ← curproc c;
  upd me (set_chan None);;
  when (negb (bool_decide (lk = lk_ptable))) (release lk_ptable;; acquire lk).

Definition wake_one (ch : channel) (p : proc) : proc :=
  if in_state SLEEPING p && bool_decide (p_chan p = Some ch) then set_state RUNNABLE p else p.

Definition wakeup1 (ch : channel) : K unit :=
  modify (fun k => set_procs (wake_one ch <$> procs k) k).

Definition wakeup (ch : channel) : K unit :=
  acquire lk_ptable;; wakeup1 ch;; release lk_ptable.

Definition yield (c : nat) : K unit :=
  acquire lk_ptable;;
  me ← curproc c;
  upd me (set_state RUNNABLE);;
  sched c.

Definition yield_return : K unit := release lk_ptable.

(** *** Creating processes *)

Definition allocproc : K (option nat) :=
  acquire lk_ptable;;
  ps ← gets procs;
  match find_index (in_state UNUSED) ps with
  | None => release lk_ptable;; mret None
  | Some i =>
      n ← gets nextpid;
      t ← gets ticks;
      upd i (fun p => set_stime 0 (set_rutime 0 (set_retime 0 (set_ctime t
               (set_pid n (set_priority 10 (set_state EMBRYO p)))))));;
      modify (set_nextpid (s32 (n + 1)));;
      release lk_ptable;;
      ks ← lift_vm vm_kalloc;
      upd i (set_kstack ks);;
      if ks =? 0 then upd i (set_state UNUSED);; mret None
      else
        (* the trap frame and context live in the new kernel stack *)
        upd i (set_context (mkContext 0 0 0 0 forkret_addr));;
        mret (Some i)
  end.

(** [for(i = 0; i < NOFILE; i++) if(curproc->ofile[i]) np->ofile[i] = filedup(curproc->ofile[i]);] *)
Definition dup_files (me np : nat) : K unit :=
  for_each (seq 0 NOFILE) (fun i =>
    p ← slot me;
    match mjoin (p_ofile p !! i) with
    | Some f => lift_fs (f_filedup f);; upd np (fun q => set_ofile (<[i := Some f]> (p_ofile q)) q)
    | None => mret tt
    end).

(** [np->cwd = idup(curproc->cwd);] *)
Definition dup_cwd (me np : nat) : K unit :=
  p ← slot me;
  match p_cwd p with
  | Some ip => lift_fs (f_idup ip);; upd np (set_cwd (Some ip))
  | None => panic "null cwd"
  end.

Definition fork (c : nat) : K Z :=
  me ← curproc c;
  r ← allocproc;
  match r with
  | None => mret (-1)
  | Some np =>
      cur ← slot me;
      pg ← lift_vm (vm_copyuvm (p_pgdir cur) (p_sz cur));
      upd np (set_pgdir pg);;
      if pg =? 0 then
        child ← slot np;
        lift_vm (vm_kfree (p_kstack child));;
        upd np (fun p => set_state UNUSED (set_kstack 0 p));;
        mret (-1)
      else
        upd np (fun p => set_tf (set_tf_eax 0 (p_tf cur)) (set_parent (Some me) (set_sz (p_sz cur) p)));;
        dup_files me np;;
        dup_cwd me np;;
        upd np (fun p => set_name (safestrcpy (p_name p) (p_name cur) 16) p);;
        child ← slot np;
        acquire lk_ptable;;
        upd np (set_state RUNNABLE);;
        release lk_ptable;;
        mret (p_pid child)
  end.

(** [int] pointers are four bytes. *)
Definition clone (c : nat) (func arg stack : Z) : K Z :=
  me ← curproc c;
  r ← allocproc;
  match r with
  | None => mret (-1)
  | Some np =>
      cur ← slot me;
      upd np (fun p => set_stack stack (set_tf (set_tf_eip func (set_tf_eax 0 (p_tf cur)))
               (set_parent (Some me) (set_sz (p_sz cur) (set_pgdir (p_pgdir cur) p)))));;
      lift_vm (vm_store (p_pgdir cur) (u32 (stack + 4096 - 2 * 4)) 0xFFFFFFFF);;
      lift_vm (vm_store (p_pgdir cur) (u32 (stack + 4096 - 4)) arg);;
      let esp := u32 (stack + PGSIZE - 2 * 4) in
      upd np (fun p => set_isthread 1 (set_tf (set_tf_ebp esp (set_tf_esp esp (p_tf p))) p));;
      dup_files me np;;
      dup_cwd me np;;
      upd np (fun p => set_name (safestrcpy (p_name p) (p_name cur) 16) p);;
      child ← slot np;
      acquire lk_ptable;;
      upd np (set_state RUNNABLE);;
      release lk_ptable;;
      mret (p_pid child)
  end.

(** The bytes of "initcode". *)
Definition initcode_name : list Z := [105; 110; 105; 116; 99; 111; 100; 101].

Definition user_trapframe : trapframe :=
  mkTrapframe 0 0 0 0 0 0 0 0 0 0 (Z.lor (Z.shiftl 4 3) 3) (Z.lor (Z.shiftl 4 3) 3) 0 0 0
    (Z.lor (Z.shiftl 3 3) 3) 0x200 PGSIZE (Z.lor (Z.shiftl 4 3) 3).

Definition userinit : K unit :=
  r ← allocproc;
  modify (set_initproc r);;
  match r with
  | None => panic "null initproc"
  | Some p =>
      pg ← lift_vm vm_setupkvm;
      upd p (set_pgdir pg);;
      if pg =? 0 then panic "userinit: out of memory?"
      else
        lift_vm (vm_inituvm pg);;
        upd p (fun q => set_name (safestrcpy (p_name q) initcode_name 16)
                 (set_tf user_trapframe (set_sz PGSIZE q)));;
        ip ← lift_fs f_namei_root;
        upd p (set_cwd ip);;
        acquire lk_ptable;;
        upd p (set_state RUNNABLE);;
        release lk_ptable
  end.

(** [growproc]: [switchuvm] checks the process it is given. *)
Definition switchuvm (i : nat) : K unit :=
  p ← slot i;
  if p_kstack p =? 0 then panic "switchuvm: no kstack"
  else if p_pgdir p =? 0 then panic "switchuvm: no pgdir"
  else mret tt.

Definition growproc (c : nat) (n : Z) : K Z :=
  me ← curproc c;
  p ← slot me;
  let sz := p_sz p in
  r ← (if 0 <? n then
         sz' ← lift_vm (vm_allocuvm (p_pgdir p) sz (u32 (sz + n)));
         mret (if sz' =? 0 then None else Some sz')
       else if n <? 0 then
         sz' ← lift_vm (vm_deallocuvm (p_pgdir p) sz (u32 (sz + n)));
         mret (if sz' =? 0 then None else Some sz')
       else mret (Some sz));
  match r with
  | None => mret (-1)
  | Some sz' => upd me (set_sz sz');; switchuvm me;; mret 0
  end.

(** *** Ending processes *)

(** The loop that passes the children of [me] to init. *)
Definition reparent_child (me : nat) (init : option nat) (i : nat) : K unit :=
  p ← slot i;
  if bool_decide (p_parent p = Some me) then
    upd i (set_parent init);;
    match init with
    | Some ini => when (in_state ZOMBIE p) (wakeup1 (chan_proc ini))
    | None => mret tt
    end
  else mret tt.

Definition exit_ (c : nat) : K unit :=
  me ← curproc c;
  init ← gets initproc;
  if bool_decide (init = Some me) then panic "init exiting"
  else
    for_each (seq 0 NOFILE) (fun fd =>
      p ← slot me;
      match mjoin (p_ofile p !! fd) with
      | Some f => lift_fs (f_fileclose f);; upd me (fun q => set_ofile (<[fd := None]> (p_ofile q)) q)
      | None => mret tt
      end);;
    lift_fs f_begin_op;;
    p ← slot me;
    match p_cwd p with
    | Some ip => lift_fs (f_iput ip)
    | None => panic "null cwd"
    end;;
    lift_fs f_end_op;;
    upd me (set_cwd None);;
    acquire lk_ptable;;
    cur ← slot me;
    match p_parent cur with
    | Some par => wakeup1 (chan_proc par)
    | None => mret tt
    end;;
    for_each (seq 0 NPROC) (reparent_child me init);;
    upd me (set_state ZOMBIE);;
    sched c.

(** The scan of [wait], [wait2] and [join]: the slot of the first zombie child
    accepted by [sel], or whether there is any such child. *)
Fixpoint scan_kids (sel : proc -> bool) (l : list proc) (i : nat) (havekids : bool)
    : nat + bool :=
  match l with
  | [] => inr havekids
  | p :: l' =>
      if negb (sel p) then scan_kids sel l' (S i) havekids
      else if in_state ZOMBIE p then inl i
      else scan_kids sel l' (S i) true
  end.

Definition child_of (me : nat) (p : proc) : bool := bool_decide (p_parent p = Some me).
Definition thread_of (me : nat) (p : proc) : bool :=
  negb (negb (bool_decide (p_parent p = Some me)) || negb (p_isthread p =? 1)).

(** One round of the loop of [wait], with [ptable.lock] held: reap, give up,
    or sleep until the next round. *)
Definition wait_loop (c : nat) : K Z :=
  me ← curproc c;
  ps ← gets procs;
  match scan_kids (child_of me) ps 0 false with
  | inl i =>
      p ← slot i;
      lift_vm (vm_kfree (p_kstack p));;
      upd i (set_kstack 0);;
      lift_vm (vm_freevm (p_pgdir p));;
      upd i (fun q => set_state UNUSED (set_killed 0 (set_name (<[0%nat := 0]> (p_name q))
               (set_parent None (set_pid 0 q)))));;
      release lk_ptable;;
      mret (p_pid p)
  | inr havekids =>
      cur ← slot me;
      if negb havekids || negb (p_killed cur =? 0) then release lk_ptable;; mret (-1)
      else sleep c (chan_proc me) lk_ptable;; mret (-1)
  end.

Definition wait (c : nat) : K Z := acquire lk_ptable;; wait_loop c.

(** [wait2(&retime, &rutime, &stime)] *)
Definition wait2_loop (c : nat) (retime rutime stime : Z) : K Z :=
  me ← curproc c;
  ps ← gets procs;
  match scan_kids (child_of me) ps 0 false with
  | inl i =>
      p ← slot i;
      cur ← slot me;
      lift_vm (vm_store (p_pgdir cur) retime (p_retime p));;
      lift_vm (vm_store (p_pgdir cur) rutime (p_rutime p));;
      lift_vm (vm_store (p_pgdir cur) stime (p_stime p));;
      lift_vm (vm_kfree (p_kstack p));;
      upd i (set_kstack 0);;
      lift_vm (vm_freevm (p_pgdir p));;
      upd i (fun q => set_priority 0 (set_stime 0 (set_rutime 0 (set_retime 0 (set_ctime 0
               (set_killed 0 (set_name (<[0%nat := 0]> (p_name q))
               (set_parent None (set_pid 0 (set_state UNUSED q))))))))));;
      release lk_ptable;;
      mret (p_pid p)
  | inr havekids =>
      cur ← slot me;
      if negb havekids || negb (p_killed cur =? 0) then release lk_ptable;; mret (-1)
      else sleep c (chan_proc me) lk_ptable;; mret (-1)
  end.

Definition wait2 (c : nat) (retime rutime stime : Z) : K Z :=
  acquire lk_ptable;; wait2_loop c retime rutime stime.

(** [join(&stack)]: only threads, and the page table is left alone. *)
Definition join_loop (c : nat) (stack : Z) : K Z :=
  me ← curproc c;
  ps ← gets procs;
  match scan_kids (thread_of me) ps 0 false with
  | inl i =>
      p ← slot i;
      cur ← slot me;
      lift_vm (vm_kfree (p_kstack p));;
      upd i (fun q => set_killed 0 (set_name (<[0%nat := 0]> (p_name q))
               (set_parent None (set_pid 0 (set_state UNUSED (set_kstack 0 q))))));;
      lift_vm (vm_store (p_pgdir cur) stack (p_stack p));;
      release lk_ptable;;
      mret (p_pid p)
  | inr havekids =>
      cur ← slot me;
      if negb havekids || negb (p_killed cur =? 0) then release lk_ptable;; mret (-1)
      else sleep c (chan_proc me) lk_ptable;; mret (-1)
  end.

Definition join (c : nat) (stack : Z) : K Z := acquire lk_ptable;; join_loop c stack.

Definition kill (pid : Z) : K Z :=
  acquire lk_ptable;;
  ps ← gets procs;
  match find_index (fun p => p_pid p =? pid) ps with
  | Some i =>
      upd i (fun p => let p := set_killed 1 p in
                      if in_state SLEEPING p then set_state RUNNABLE p else p);;
      release lk_ptable;;
      mret 0
  | None => release lk_ptable;; mret (-1)
  end.

(** *** Scheduling *)

(** One round of [scheduler()] on CPU [c]: the process switched to (which then
    runs holding [ptable.lock]), or nothing to run. *)
Definition scheduler (c : nat) : K (option nat) :=
  acquire lk_ptable;;
  acquire lk_sched;;
  k ← get;
  match call_ready_process (procs k) (sched_st k) with
  | None => panic "call through an invalid ready_process"
  | Some (r, st) =>
      modify (set_sched_st st);;
      release lk_sched;;
      match r with
      | Some p =>
          set_cpu c (Some p);;
          switchuvm p;;
          upd p (set_state RUNNING);;
          mret (Some p)
      | None => release lk_ptable;; mret None
      end
  end.

(** [trap.c], IRQ_TIMER: CPU 0 counts the tick; then every CPU decides whether
    the running process yields.  (The forced exits of a killed process are
    calls of [exit_].) *)
Definition timer_interrupt (c : nat) : K unit :=
  when (c =? 0)%nat
    (acquire lk_ticks;;
     modify (fun k => set_ticks (u32 (ticks k + 1)) k);;
     acquire lk_ptable;;
     modify (fun k => set_procs (update_statistics (procs k)) k);;
     release lk_ptable;;
     wakeup chan_ticks;;
     release lk_ticks).

Definition timer_yield (c : nat) : K unit :=
  r ← myproc c;
  match r with
  | None => mret tt
  | Some me =>
      p ← slot me;
      if in_state RUNNING p then
        st ← gets sched_st;
        when (tick_yields st) (yield c)
      else mret tt
  end.

(** *** Inspection and control *)

Definition setpriority (pid prio : Z) : K Z :=
  if (0 <=? pid) && (0 <=? prio) then
    acquire lk_ptable;;
    ps ← gets procs;
    match find_index (fun p => (p_pid p =? pid) && negb (in_state UNUSED p)) ps with
    | Some i => upd i (set_priority prio);; release lk_ptable;; mret pid
    | None => release lk_ptable;; mret (-1)
    end
  else mret (-1).

Definition to_us (ps : list proc) (p : proc) : proc_us :=
  mkProcUs (p_sz p) (p_state p) (p_pid p)
    (match p_parent p with
     | Some par => match ps !! par with Some q => p_pid q | None => -1 end
     | None => -1
     end)
    (p_priority p) (p_name p) (p_ctime p) (p_stime p) (p_retime p) (p_rutime p).

(** The loop of [getptable]: the rows written, [i] so far, [l] the slots left. *)
Fixpoint getptable_rows (ps l : list proc) (i nproc size : Z) : list proc_us :=
  match l with
  | [] => []
  | p :: l' =>
      if (i <? nproc) && (sizeof_proc_us * (i + 1) <? size) then
        if in_state UNUSED p then getptable_rows ps l' i nproc size
        else to_us ps p :: getptable_rows ps l' (i + 1) nproc size
      else []
  end.

(** [None] is a null buffer. *)
Definition getptable (nproc size : Z) (buffer : option unit) : K (Z * list proc_us) :=
  match buffer with
  | Some _ =>
      acquire lk_ptable;;
      ps ← gets procs;
      release lk_ptable;;
      mret (0, getptable_rows ps ps 0 nproc size)
  | None => mret (-1, [])
  end.

(** [sys_sleep(n)], the loop from [ticks0] on, with [tickslock] held: [n] is
    compared as an unsigned number. *)
Definition sys_sleep_loop (c : nat) (n ticks0 : Z) : K Z :=
  t ← gets ticks;
  if u32 (t - ticks0) <? u32 n then
    me ← curproc c;
    p ← slot me;
    if negb (p_killed p =? 0) then release lk_ticks;; mret (-1)
    else sleep c chan_ticks lk_ticks;; mret (-1)
  else release lk_ticks;; mret 0.

Definition sys_sleep (c : nat) (n : Z) : K Z :=
  acquire lk_ticks;; t ← gets ticks; sys_sleep_loop c n t.
End Ops.

(** ** What the scan for children finds *)

Lemma scan_kids_inl sel l i hk j :
  scan_kids sel l i hk = inl j ->
  exists d p, j = (i + d)%nat /\ l !! d = Some p /\ sel p = true /\ p_state p = ZOMBIE.
Proof.
  revert i hk. induction l as [|p l IH]; simpl; intros i hk H; [done|].
  assert (Hr : forall hk', scan_kids sel l (S i) hk' = inl j ->
    exists d q, j = (i + d)%nat /\ (p :: l) !! d = Some q /\ sel q = true /\ p_state q = ZOMBIE).
  { intros hk' (d & q & -> & Hq)%IH. exists (S d), q. split; [lia|done]. }
  destruct (sel p) eqn:Es; simpl in H; [|by eapply Hr].
  destruct (in_state ZOMBIE p) eqn:Ez; [|by eapply Hr].
  apply in_state_true in Ez. injection H as <-. exists 0%nat, p. split; [lia|done].
Qed.

Lemma scan_kids_inr sel l i hk b :
  scan_kids sel l i hk = inr b <->
  (forall p, p ∈ l -> sel p = true -> p_state p <> ZOMBIE) /\ b = hk || existsb sel l.
Proof.
  revert i hk. induction l as [|p l IH]; simpl; intros i hk.
  { rewrite orb_false_r. split; [intros [= ->]|intros [_ ->]]; [|done].
    split; [|done]. intros p Hp. by apply not_elem_of_nil in Hp. }
  destruct (sel p) eqn:Es; simpl.
  - destruct (in_state ZOMBIE p) eqn:Ez.
    + apply in_state_true in Ez. split; [done|]. intros [H _]. by destruct (H p); [left|..].
    + apply in_state_false in Ez. rewrite IH, !orb_true_r. setoid_rewrite elem_of_cons.
      split; (intros [H ->]; split; [|done]); intros q; [intros [->|?]|]; eauto.
  - rewrite IH. setoid_rewrite elem_of_cons. split; (intros [H ->]; split; [|done]); intros q.
    + intros [->|?]; [congruence|eauto].
    + eauto.
Qed.
