(* ===== verification/ProcInv.v ===== *)
(** * The process table invariant

    Every operation of [Proc] preserves [kinv]: process identifiers are unique,
    parent links point to live processes, a process runs on at most one CPU, a
    free slot holds no resource, and the three time counters of a live process
    add up to the clock ticks since its creation.  The same proofs show that
    the process layer's own panics (lock discipline, the checks of [sched()]
    and [switchuvm()], a null [myproc()]) are unreachable. *)
From S2P Require Import Prelude Cstring Proctab Sched Proc.
Local Open Scope Z_scope.

(** ** What the process layer relies on *)

(** The panics and null dereferences of process management itself. *)
Definition proc_panics : list string :=
  ["acquire"; "release"; "sched ptable.lock"; "sched locks"; "sched running"; "sleep";
   "null myproc()"; "slot outside ptable"; "switchuvm: no kstack"; "switchuvm: no pgdir";
   "null cwd"; "null parent"; "semaphore outside sema[]"; "call through an invalid ready_process"]%string.

Definition foreign_panic (msg : string) : Prop := msg ∉ proc_panics.

(** [m] completes without sleeping; its result satisfies [Q]; if it panics it
    is not with a message of the process layer. *)
Definition completes {S A} (m : M S A) (Q : A -> Prop) : Prop :=
  forall s, wp m (fun a _ => Q a) (fun _ => False) foreign_panic s.

Class VmLaws (V : Type) `{!VmOps V} : Prop := {
  law_kalloc : completes vm_kalloc (fun _ => True);
  law_kfree a : completes (vm_kfree a) (fun _ => True);
  law_setupkvm : completes vm_setupkvm (fun _ => True);
  law_inituvm a : completes (vm_inituvm a) (fun _ => True);
  law_copyuvm a sz : completes (vm_copyuvm a sz) (fun _ => True);
  law_freevm a : completes (vm_freevm a) (fun _ => True);
  law_allocuvm a x y : completes (vm_allocuvm a x y) (fun _ => True);
  law_deallocuvm a x y : completes (vm_deallocuvm a x y) (fun _ => True);
  law_store a x y : completes (vm_store a x y) (fun _ => True)
}.

Class FileLaws (F : Type) `{!FileOps F} : Prop := {
  law_filedup i : completes (f_filedup i) (fun _ => True);
  law_fileclose i : completes (f_fileclose i) (fun _ => True);
  law_idup i : completes (f_idup i) (fun _ => True);
  law_iput i : completes (f_iput i) (fun _ => True);
  law_begin_op : completes f_begin_op (fun _ => True);
  law_end_op : completes f_end_op (fun _ => True);
  law_namei_root : completes f_namei_root (fun ip => ip <> None)
}.

Create HintDb laws.
#[export] Hint Resolve law_kalloc law_kfree law_setupkvm law_inituvm law_copyuvm law_freevm
  law_allocuvm law_deallocuvm law_store law_filedup law_fileclose law_idup law_iput
  law_begin_op law_end_op law_namei_root : laws.

(** ** The invariant *)

Definition alive (p : proc) : Prop :=
  p_state p = SLEEPING \/ p_state p = RUNNABLE \/ p_state p = RUNNING.

#[export] Instance alive_dec p : Decision (alive p).
Proof. unfold alive. apply _. Defined.

Definition used (p : proc) : Prop := p_state p <> UNUSED.

(** [stime + retime + rutime] is the age of the process, modulo 2^32. *)
Definition accounted (now : Z) (p : proc) : Prop :=
  u32 (p_stime p + p_retime p + p_rutime p) = u32 (now - p_ctime p).

Definition no_files (p : proc) : Prop :=
  p_ofile p = replicate NOFILE None /\ p_cwd p = None.

(** What holds of the slot [i] holding [p]. *)
Definition slot_ok (now next : Z) (init : option nat) (i : nat) (p : proc) : Prop :=
  length (p_ofile p) = NOFILE /\ 0 <= p_pid p < next /\
  match p_state p with
  | UNUSED => p_parent p = None /\ p_kstack p = 0 /\ no_files p
  | EMBRYO => False
  | ZOMBIE => 1 <= p_pid p /\ p_kstack p <> 0 /\ p_parent p <> None /\ no_files p
  | _ => 1 <= p_pid p /\ p_kstack p <> 0 /\ p_pgdir p <> 0 /\ p_cwd p <> None /\
         (p_parent p <> None \/ init = Some i) /\ accounted now p /\
         (p_state p = SLEEPING -> p_chan p <> None)
  end.

(** The CPUs and the table agree on who runs where. *)
Definition cpus_ok (ps : list proc) (cs : list (option nat)) : Prop :=
  (forall c i, cs !! c = Some (Some i) -> exists p, ps !! i = Some p /\ p_state p = RUNNING) /\
  (forall i p, ps !! i = Some p -> p_state p = RUNNING -> exists c, cs !! c = Some (Some i)) /\
  (forall c c' i, cs !! c = Some (Some i) -> cs !! c' = Some (Some i) -> c = c').

Record tinv (ps : list proc) (now next : Z) (init : option nat) (cs : list (option nat)) : Prop := {
  inv_len : length ps = NPROC;
  inv_next : 1 <= next;
  inv_slots i p : ps !! i = Some p -> slot_ok now next init i p;
  inv_pids i j p q : ps !! i = Some p -> ps !! j = Some q -> used p -> used q ->
    p_pid p = p_pid q -> i = j;
  inv_parent i p q : ps !! i = Some p -> p_parent p = Some q ->
    q <> i /\ exists pq, ps !! q = Some pq /\ alive pq;
  inv_init i : init = Some i -> exists p, ps !! i = Some p /\ alive p /\ p_parent p = None;
  inv_cpus : cpus_ok ps cs
}.

(** The invariant of a kernel whose executing CPU holds the locks [h]. *)
Record kinv_at {V F} (h : list lock) (k : kstate V F) : Prop := {
  kinv_tinv : tinv (procs k) (ticks k) (nextpid k) (initproc k) (cpus k);
  kinv_sched : sched_wf (sched_st k);
  kinv_init : initproc k <> None;
  kinv_sema : length (sema k) = MAX_SEMA_NUM;
  kinv_held : held k = h
}.

Definition kinv {V F} : kstate V F -> Prop := kinv_at [].

(** ** Table updates *)

Lemma alive_used p : alive p -> used p.
Proof. unfold alive, used. intros [->|[->| ->]]; done. Qed.

Lemma slot_ok_parent now next init i p q :
  slot_ok now next init i p -> p_parent p = Some q -> used p.
Proof. unfold slot_ok, used. intros (_ & _ & H) Hq Hs. rewrite Hs in H. destruct H. congruence. Qed.

Lemma alive_resources now next init i p :
  slot_ok now next init i p -> alive p -> p_kstack p <> 0 /\ p_pgdir p <> 0 /\ p_cwd p <> None.
Proof.
  intros (_ & _ & Hok) [E|[E|E]]; rewrite E in Hok; destruct Hok as (_ & ? & ? & ? & _); done.
Qed.

(** Replacing the process in one slot. *)
Lemma tinv_set ps now next init cs i p p' cs' next' :
  tinv ps now next init cs -> ps !! i = Some p ->
  slot_ok now next' init i p' -> next <= next' ->
  (used p' -> (used p /\ p_pid p' = p_pid p) \/
     (forall j q, j <> i -> ps !! j = Some q -> used q -> p_pid q <> p_pid p')) ->
  (alive p' \/ (init <> Some i /\ forall j q, ps !! j = Some q -> p_parent q <> Some i)) ->
  (init = Some i -> p_parent p' = p_parent p) ->
  (forall q, p_parent p' = Some q -> p_parent p = Some q \/
     (q <> i /\ exists pq, ps !! q = Some pq /\ alive pq)) ->
  cpus_ok (<[i := p']> ps) cs' ->
  tinv (<[i := p']> ps) now next' init cs'.
Proof.
  intros [Hlen Hnext Hslots Hpids Hpar Hinit Hcpus] Hp Hok Hle Hpid Halive Hinitp Hparent Hcs.
  assert (Hi : (i < length ps)%nat) by (by eapply lookup_lt_Some).
  assert (Hlk : forall j q, <[i := p']> ps !! j = Some q ->
            (j = i /\ q = p') \/ (j <> i /\ ps !! j = Some q)).
  { intros j q H. destruct (decide (j = i)) as [->|].
    - rewrite list_lookup_insert_eq in H by done. left. split; congruence.
    - rewrite list_lookup_insert_ne in H by done. auto. }
  assert (Hal : forall q, (exists pq, ps !! q = Some pq /\ alive pq) ->
            q <> i \/ alive p' -> exists pq, <[i := p']> ps !! q = Some pq /\ alive pq).
  { intros q (pq & Hq & Ha) Hor. destruct (decide (q = i)) as [->|].
    - destruct Hor as [|Ha']; [done|]. exists p'. by rewrite list_lookup_insert_eq.
    - exists pq. by rewrite list_lookup_insert_ne. }
  split; [by rewrite length_insert|lia| | | | |done].
  - intros j q [[-> ->]|[Hne Hq]]%Hlk; [done|].
    destruct (Hslots _ _ Hq) as (? & ? & ?). split; [done|]. split; [lia|done].
  - intros j1 j2 q1 q2 [[-> ->]|[Hne1 Hq1]]%Hlk [[-> ->]|[Hne2 Hq2]]%Hlk Hu1 Hu2 He; [done| | |by eauto].
    + destruct (Hpid Hu1) as [[Hu Hpe]|Hf]; [|by destruct (Hf j2 q2 Hne2 Hq2)].
      eapply Hpids; eauto. congruence.
    + destruct (Hpid Hu2) as [[Hu Hpe]|Hf]; [|by destruct (Hf j1 q1 Hne1 Hq1)].
      symmetry. eapply (Hpids i j1); eauto. congruence.
  - intros j q r [[-> ->]|[Hne Hq]]%Hlk Hr.
    + assert (r <> i /\ exists pq, ps !! r = Some pq /\ alive pq) as [Hri Hex].
      { destruct (Hparent r Hr) as [H|H]; [by eapply Hpar|done]. }
      split; [done|]. apply Hal; auto.
    + destruct (Hpar _ _ _ Hq Hr) as [Hrj Hex]. split; [done|]. apply Hal; [done|].
      destruct (decide (r = i)) as [->|]; [|auto]. right.
      destruct Halive as [|[_ Hno]]; [done|]. by destruct (Hno _ _ Hq).
  - intros j Hj. destruct (decide (j = i)) as [->|].
    + exists p'. rewrite list_lookup_insert_eq by done. split; [done|].
      destruct (Hinit i Hj) as (p0 & ? & ? & ?). simplify_eq. rewrite Hinitp by done.
      destruct Halive as [|[? _]]; [done|congruence].
    + destruct (Hinit j Hj) as (q & Hq & Ha). exists q. by rewrite list_lookup_insert_ne.
Qed.

(** Rewriting every slot in a way that keeps identity, links and life. *)
Lemma tinv_map ps now now' next init cs (f : proc -> proc) :
  tinv ps now next init cs ->
  (forall p, p_pid (f p) = p_pid p /\ p_parent (f p) = p_parent p /\
     (p_state (f p) = p_state p \/ (p_state p = SLEEPING /\ p_state (f p) = RUNNABLE))) ->
  (forall i p, ps !! i = Some p -> slot_ok now next init i p -> slot_ok now' next init i (f p)) ->
  tinv (f <$> ps) now' next init cs.
Proof.
  intros [Hlen Hnext Hslots Hpids Hpar Hinit (Hc1 & Hc2 & Hc3)] Hf Hok.
  assert (Hused : forall p, used (f p) <-> used p).
  { intros p. unfold used. destruct (Hf p) as (_ & _ & [->|[-> ->]]); done. }
  assert (Hal : forall p, alive p -> alive (f p)).
  { intros p. unfold alive. destruct (Hf p) as (_ & _ & [->|[-> ->]]); auto. }
  assert (Hlk : forall j q, (f <$> ps) !! j = Some q -> exists p, ps !! j = Some p /\ q = f p).
  { intros j q. rewrite list_lookup_fmap, fmap_Some. done. }
  split; [by rewrite length_fmap|done| | | | |split; [|split]].
  - intros i q (p & Hp & ->)%Hlk. eauto.
  - intros i j q1 q2 (p1 & Hp1 & ->)%Hlk (p2 & Hp2 & ->)%Hlk Hu1 Hu2.
    rewrite Hused in Hu1, Hu2.
    destruct (Hf p1) as (-> & _), (Hf p2) as (-> & _). intros He. by apply (Hpids i j p1 p2).
  - intros i q r (p & Hp & ->)%Hlk. destruct (Hf p) as (_ & -> & _). intros Hr.
    destruct (Hpar _ _ _ Hp Hr) as (? & pq & Hq & Ha). split; [done|].
    exists (f pq). rewrite list_lookup_fmap, Hq. auto.
  - intros i (p & Hp & Ha & Hn)%Hinit. exists (f p). rewrite list_lookup_fmap, Hp.
    split; [done|]. split; [by apply Hal|]. destruct (Hf p) as (_ & -> & _). done.
  - intros c i (p & Hp & Hr)%Hc1. exists (f p). rewrite list_lookup_fmap, Hp. split; [done|].
    destruct (Hf p) as (_ & _ & [->|[? _]]); congruence.
  - intros i q (p & Hp & ->)%Hlk Hr. apply (Hc2 _ _ Hp).
    destruct (Hf p) as (_ & _ & [H|[? H]]); congruence.
  - done.
Qed.

(** *** The CPU assignment *)

Lemma cpus_ok_same ps cs i p p' :
  cpus_ok ps cs -> ps !! i = Some p -> (p_state p' = RUNNING <-> p_state p = RUNNING) ->
  cpus_ok (<[i := p']> ps) cs.
Proof.
  intros (Hc1 & Hc2 & Hc3) Hp Hst. assert (Hi : (i < length ps)%nat) by (by eapply lookup_lt_Some).
  split; [|split; [|done]].
  - intros c j Hj. destruct (Hc1 _ _ Hj) as (q & Hq & Hr). destruct (decide (j = i)) as [->|].
    + exists p'. rewrite list_lookup_insert_eq by done. simplify_eq. tauto.
    + exists q. by rewrite list_lookup_insert_ne.
  - intros j q Hq Hr. destruct (decide (j = i)) as [->|].
    + rewrite list_lookup_insert_eq in Hq by done. simplify_eq. by apply (Hc2 i p); [|apply Hst].
    + rewrite list_lookup_insert_ne in Hq by done. eauto.
Qed.

(** The process running on CPU [c] gives it up. *)
Lemma cpus_ok_leave ps cs c i p' :
  cpus_ok ps cs -> cs !! c = Some (Some i) -> p_state p' <> RUNNING ->
  cpus_ok (<[i := p']> ps) (<[c := None]> cs).
Proof.
  intros (Hc1 & Hc2 & Hc3) Hc Hst.
  destruct (Hc1 _ _ Hc) as (p & Hp & _). assert (Hi : (i < length ps)%nat) by (by eapply lookup_lt_Some).
  assert (Hcl : (c < length cs)%nat) by (by eapply lookup_lt_Some).
  assert (Hcs : forall c' j, <[c := None]> cs !! c' = Some (Some j) -> c' <> c /\ cs !! c' = Some (Some j)).
  { intros c' j H. destruct (decide (c' = c)) as [->|].
    - by rewrite list_lookup_insert_eq in H.
    - by rewrite list_lookup_insert_ne in H. }
  split; [|split].
  - intros c' j [Hne Hj]%Hcs. destruct (Hc1 _ _ Hj) as (q & Hq & Hr). exists q.
    rewrite list_lookup_insert_ne; [done|]. intros <-. by apply Hne, (Hc3 c' c i).
  - intros j q Hq Hr. destruct (decide (j = i)) as [->|].
    + rewrite list_lookup_insert_eq in Hq by done. congruence.
    + rewrite list_lookup_insert_ne in Hq by done. destruct (Hc2 _ _ Hq Hr) as (c' & Hc').
      exists c'. rewrite list_lookup_insert_ne; [done|]. intros <-. congruence.
  - intros c1 c2 j [_ H1]%Hcs [_ H2]%Hcs. by eapply Hc3.
Qed.

(** An idle CPU takes a process that no CPU runs. *)
Lemma cpus_ok_enter ps cs c i p p' :
  cpus_ok ps cs -> cs !! c = Some None -> ps !! i = Some p -> p_state p <> RUNNING ->
  p_state p' = RUNNING -> cpus_ok (<[i := p']> ps) (<[c := Some i]> cs).
Proof.
  intros (Hc1 & Hc2 & Hc3) Hc Hp Hst Hst'.
  assert (Hi : (i < length ps)%nat) by (by eapply lookup_lt_Some).
  assert (Hcl : (c < length cs)%nat) by (by eapply lookup_lt_Some).
  assert (Hno : forall c', cs !! c' <> Some (Some i)).
  { intros c' H. destruct (Hc1 _ _ H) as (q & Hq & ?). congruence. }
  assert (Hcs : forall c' j, <[c := Some i]> cs !! c' = Some (Some j) ->
            (c' = c /\ j = i) \/ (c' <> c /\ j <> i /\ cs !! c' = Some (Some j))).
  { intros c' j H. destruct (decide (c' = c)) as [->|].
    - rewrite list_lookup_insert_eq in H by done. left. split; congruence.
    - rewrite list_lookup_insert_ne in H by done. right. split; [done|]. split; [|done].
      intros ->. by apply (Hno c'). }
  split; [|split].
  - intros c' j [[-> ->]|(Hne & Hji & Hj)]%Hcs.
    + exists p'. by rewrite list_lookup_insert_eq.
    + destruct (Hc1 _ _ Hj) as (q & Hq & Hr). exists q. by rewrite list_lookup_insert_ne.
  - intros j q Hq Hr. destruct (decide (j = i)) as [->|].
    + exists c. by rewrite list_lookup_insert_eq.
    + rewrite list_lookup_insert_ne in Hq by done. destruct (Hc2 _ _ Hq Hr) as (c' & Hc').
      exists c'. rewrite list_lookup_insert_ne; [done|]. intros <-. congruence.
  - intros c1 c2 j [[-> ->]|(? & ? & H1)]%Hcs [[-> Hji]|(? & ? & H2)]%Hcs; try done. by eapply Hc3.
Qed.

(** ** Rules for the primitives *)

Lemma alter_as_insert {A} (f : A -> A) (l : list A) i x :
  l !! i = Some x -> alter f i l = <[i := f x]> l.
Proof.
  intros Hx. apply list_eq. intros j. rewrite lookup_alter_cases.
  case_decide as E; subst.
  - rewrite list_lookup_insert_eq by (by eapply lookup_lt_Some). by rewrite Hx.
  - by rewrite list_lookup_insert_ne.
Qed.

(** Two tables that agree on what the invariant reads. *)
Definition same_core (p p' : proc) : Prop :=
  p_state p' = p_state p /\ p_pid p' = p_pid p /\ p_parent p' = p_parent p /\
  p_kstack p' = p_kstack p /\ (p_pgdir p <> 0 -> p_pgdir p' <> 0) /\
  p_ofile p' = p_ofile p /\ p_cwd p' = p_cwd p /\
  p_ctime p' = p_ctime p /\ p_stime p' = p_stime p /\ p_retime p' = p_retime p /\
  p_rutime p' = p_rutime p /\
  (p_state p = SLEEPING -> p_chan p <> None -> p_chan p' <> None).

Lemma slot_ok_core now next init i p p' :
  same_core p p' -> slot_ok now next init i p -> slot_ok now next init i p'.
Proof.
  intros (Hs & Hpid & Hpar & Hks & Hpg & Hof & Hcwd & Hct & Hst & Hre & Hru & Hch).
  unfold slot_ok, no_files, accounted. rewrite Hpid, Hpar, Hks, Hof, Hcwd, Hct, Hst, Hre, Hru, Hs.
  destruct (p_state p); naive_solver.
Qed.

Lemma tinv_core ps now next init cs i p p' :
  tinv ps now next init cs -> ps !! i = Some p -> same_core p p' ->
  tinv (<[i := p']> ps) now next init cs.
Proof.
  intros Ht Hp Hc. pose proof (inv_slots _ _ _ _ _ Ht i p Hp) as Hok.
  pose proof Hc as (Hs & Hpid & Hpar & _).
  destruct (decide (alive p)) as [Ha|Ha].
  - eapply tinv_set; eauto using slot_ok_core; [lia| | | |].
    + intros _. left. split; [by apply alive_used|done].
    + left. unfold alive in *. by rewrite Hs.
    + intros q. rewrite Hpar. auto.
    + eapply cpus_ok_same; [by apply Ht|done|by rewrite Hs].
  - eapply tinv_set; eauto using slot_ok_core; [lia| | | |].
    + unfold used. rewrite Hs. auto.
    + right. split.
      * intros Hi. by destruct (inv_init _ _ _ _ _ Ht i Hi) as (p0 & ? & ? & ?); simplify_eq.
      * intros j q Hq Hj. destruct (inv_parent _ _ _ _ _ Ht _ _ _ Hq Hj) as (_ & p0 & ? & ?). by simplify_eq.
    + intros q. rewrite Hpar. auto.
    + eapply cpus_ok_same; [by apply Ht|done|by rewrite Hs].
Qed.

(** The running process of CPU [c] stops running but stays alive. *)
Lemma tinv_leave ps now next init cs c i p p' :
  tinv ps now next init cs -> cs !! c = Some (Some i) -> ps !! i = Some p ->
  same_core p (set_state (p_state p) p') ->
  (p_state p' = RUNNABLE \/ (p_state p' = SLEEPING /\ p_chan p' <> None)) ->
  tinv (<[i := p']> ps) now next init (<[c := None]> cs).
Proof.
  intros Ht Hc Hp Hcore Hst. pose proof (inv_slots _ _ _ _ _ Ht i p Hp) as Hok.
  pose proof (inv_cpus _ _ _ _ _ Ht) as Hcpus.
  destruct (proj1 Hcpus _ _ Hc) as (p0 & Hp0 & Hrun). simplify_eq.
  destruct Hcore as (_ & Hpid & Hpar & Hks & Hpg & Hof & Hcwd & Hct & Hst' & Hre & Hru & _).
  simpl in *. eapply tinv_set; eauto; [|lia| | | |].
  - revert Hok. unfold slot_ok, no_files, accounted.
    rewrite Hpid, Hpar, Hks, Hof, Hcwd, Hct, Hst', Hre, Hru, Hrun.
    destruct Hst as [Hst|[Hst ?]]; rewrite Hst; naive_solver.
  - intros _. left. split; [unfold used; congruence|done].
  - left. unfold alive. destruct Hst as [->|[-> _]]; auto.
  - rewrite Hpar. auto.
  - apply cpus_ok_leave; [done|done|]. destruct Hst as [->|[-> _]]; done.
Qed.

(** A process that is dispatched keeps everything but its state. *)
Lemma tinv_dispatch ps now next init cs c i p :
  tinv ps now next init cs -> cs !! c = Some None -> ps !! i = Some p -> p_state p = RUNNABLE ->
  tinv (<[i := set_state RUNNING p]> ps) now next init (<[c := Some i]> cs).
Proof.
  intros Ht Hc Hp Hst. pose proof (inv_slots _ _ _ _ _ Ht i p Hp) as Hok.
  eapply tinv_set; eauto; [|lia| | |].
  - revert Hok. unfold slot_ok, no_files, accounted. rewrite Hst. simpl. naive_solver.
  - intros _. left. split; [unfold used; congruence|done].
  - left. unfold alive. auto.
  - eapply cpus_ok_enter; [apply Ht|done|done|congruence|done].
Qed.

Lemma wake_one_core ch p :
  p_pid (wake_one ch p) = p_pid p /\ p_parent (wake_one ch p) = p_parent p /\
  (p_state (wake_one ch p) = p_state p \/ (p_state p = SLEEPING /\ p_state (wake_one ch p) = RUNNABLE)).
Proof.
  unfold wake_one. destruct (in_state SLEEPING p && _) eqn:E; [|auto].
  apply andb_true_iff in E as [E%in_state_true _]. simpl. auto.
Qed.

Lemma slot_ok_wake now next init i p ch :
  slot_ok now next init i p -> slot_ok now next init i (wake_one ch p).
Proof.
  unfold wake_one. destruct (in_state SLEEPING p && _) eqn:E; [|done].
  apply andb_true_iff in E as [E%in_state_true _].
  unfold slot_ok, no_files, accounted. rewrite E. simpl. naive_solver.
Qed.

Lemma tinv_wakeup ps now next init cs ch :
  tinv ps now next init cs -> tinv (wake_one ch <$> ps) now next init cs.
Proof. intros Ht. eapply tinv_map; eauto using wake_one_core, slot_ok_wake. Qed.

(** One clock tick. *)
Lemma update_stat_core p :
  p_pid (update_stat p) = p_pid p /\ p_parent (update_stat p) = p_parent p /\
  p_state (update_stat p) = p_state p.
Proof. unfold update_stat. destruct (p_state p) eqn:E; rewrite <- ?E; done. Qed.

Lemma slot_ok_tick now next init i p :
  slot_ok now next init i p -> slot_ok (u32 (now + 1)) next init i (update_stat p).
Proof.
  assert (forall a b c, u32 (a + b + c) = u32 (now - p_ctime p) ->
    u32 (s32 (a + 1) + b + c) = u32 (u32 (now + 1) - p_ctime p) /\
    u32 (a + s32 (b + 1) + c) = u32 (u32 (now + 1) - p_ctime p) /\
    u32 (a + b + s32 (c + 1)) = u32 (u32 (now + 1) - p_ctime p)) as Hm.
  { intros a b c. unfold u32, s32. repeat split; lia. }
  unfold slot_ok, update_stat, no_files, accounted.
  destruct (p_state p) eqn:E; simpl; rewrite ?E; simpl; naive_solver.
Qed.

Lemma tinv_tick ps now next init cs :
  tinv ps now next init cs -> tinv (update_statistics ps) (u32 (now + 1)) next init cs.
Proof.
  intros Ht. eapply tinv_map; eauto using slot_ok_tick.
  intros p. destruct (update_stat_core p) as (-> & -> & ->). auto.
Qed.

(** A free slot becomes a new runnable child of the live process [me]. *)
Lemma tinv_create ps now next init cs i p q me pm :
  tinv ps now next init cs -> ps !! i = Some p -> p_state p = UNUSED ->
  ps !! me = Some pm -> alive pm ->
  p_state q = RUNNABLE -> p_pid q = next -> p_parent q = Some me ->
  p_kstack q <> 0 -> p_pgdir q <> 0 -> p_cwd q <> None -> length (p_ofile q) = NOFILE ->
  p_ctime q = now -> p_stime q = 0 -> p_retime q = 0 -> p_rutime q = 0 ->
  tinv (<[i := q]> ps) now (next + 1) init cs.
Proof.
  intros Ht Hp Hst Hme Ha Hs Hpid Hpar Hks Hpg Hcwd Hlen Hct Hs0 Hr0 Hu0.
  pose proof (inv_next _ _ _ _ _ Ht) as Hn.
  assert (me <> i) by (intros ->; simplify_eq; unfold alive in Ha; rewrite Hst in Ha; naive_solver).
  assert (init <> Some i).
  { intros Hi. destruct (inv_init _ _ _ _ _ Ht i Hi) as (p0 & ? & Ha0 & _).
    simplify_eq. unfold alive in Ha0. rewrite Hst in Ha0. naive_solver. }
  eapply tinv_set; [done|done| |lia| | | | |].
  - unfold slot_ok, accounted. rewrite Hs, Hpid, Hpar, Hct, Hs0, Hr0, Hu0.
    rewrite Z.sub_diag. split; [done|]. split; [lia|]. naive_solver.
  - intros _. right. intros j q' Hj Hq' _. rewrite Hpid.
    destruct (inv_slots _ _ _ _ _ Ht _ _ Hq') as (_ & ? & _). lia.
  - left. unfold alive. auto.
  - done.
  - intros r Hr. right. rewrite Hpar in Hr. simplify_eq. eauto.
  - eapply cpus_ok_same; [apply Ht|done|]. rewrite Hs, Hst. done.
Qed.

(** A slot that was taken and given back only used up a process identifier. *)
Lemma tinv_abandon ps now next init cs i p q :
  tinv ps now next init cs -> ps !! i = Some p -> p_state p = UNUSED ->
  p_state q = UNUSED -> p_pid q = next -> p_parent q = p_parent p ->
  p_kstack q = 0 -> p_ofile q = p_ofile p -> p_cwd q = p_cwd p ->
  tinv (<[i := q]> ps) now (next + 1) init cs.
Proof.
  intros Ht Hp Hst Hs Hpid Hpar Hks Hof Hcwd.
  pose proof (inv_slots _ _ _ _ _ Ht i p Hp) as Hok. pose proof (inv_next _ _ _ _ _ Ht) as Hn.
  eapply tinv_set; [done|done| |lia| | | | |].
  - revert Hok. unfold slot_ok, no_files. rewrite Hs, Hst, Hpid, Hpar, Hof, Hcwd. naive_solver lia.
  - intros Hu. unfold used in Hu; by rewrite Hs in Hu.
  - right. split.
    + intros Hi. destruct (inv_init _ _ _ _ _ Ht i Hi) as (p0 & ? & Ha0 & _).
      simplify_eq. unfold alive in Ha0. rewrite Hst in Ha0. naive_solver.
    + intros j r Hr Hj. destruct (inv_parent _ _ _ _ _ Ht _ _ _ Hr Hj) as (_ & p0 & ? & Ha0).
      simplify_eq. unfold alive in Ha0. rewrite Hst in Ha0. naive_solver.
  - done.
  - rewrite Hpar. auto.
  - eapply cpus_ok_same; [apply Ht|done|]. rewrite Hs, Hst. done.
Qed.

(** A zombie is reaped. *)
Lemma tinv_reap ps now next init cs i p q :
  tinv ps now next init cs -> ps !! i = Some p -> p_state p = ZOMBIE ->
  p_state q = UNUSED -> p_pid q = 0 -> p_parent q = None ->
  p_kstack q = 0 -> p_ofile q = p_ofile p -> p_cwd q = p_cwd p ->
  tinv (<[i := q]> ps) now next init cs.
Proof.
  intros Ht Hp Hst Hs Hpid Hpar Hks Hof Hcwd.
  pose proof (inv_slots _ _ _ _ _ Ht i p Hp) as Hok. pose proof (inv_next _ _ _ _ _ Ht) as Hn.
  assert (~ alive p) as Hna by (unfold alive; rewrite Hst; naive_solver).
  assert (init <> Some i).
  { intros Hi. destruct (inv_init _ _ _ _ _ Ht i Hi) as (p0 & ? & Ha0 & _). by simplify_eq. }
  eapply tinv_set; [done|done| |lia| | | | |].
  - revert Hok. unfold slot_ok, no_files. rewrite Hs, Hst, Hpid, Hpar, Hof, Hcwd. naive_solver lia.
  - intros Hu. unfold used in Hu. by rewrite Hs in Hu.
  - right. split; [done|]. intros j r Hr Hj.
    destruct (inv_parent _ _ _ _ _ Ht _ _ _ Hr Hj) as (_ & p0 & ? & Ha0). by simplify_eq.
  - done.
  - rewrite Hpar. done.
  - eapply cpus_ok_same; [apply Ht|done|]. rewrite Hs, Hst. done.
Qed.

(** A child of the exiting process is passed to init. *)
Lemma tinv_reparent ps now next init cs i p ini :
  tinv ps now next init cs -> ps !! i = Some p -> init = Some ini -> p_parent p <> None ->
  tinv (<[i := set_parent init p]> ps) now next init cs.
Proof.
  intros Ht Hp -> Hpar. pose proof (inv_slots _ _ _ _ _ Ht i p Hp) as Hok.
  destruct (inv_init _ _ _ _ _ Ht ini eq_refl) as (pi & Hpi & Hai & Hni).
  assert (ini <> i) by (intros ->; by simplify_eq).
  eapply tinv_set; [done|done| |lia| | | | |].
  - revert Hok. unfold slot_ok, no_files, accounted; simpl. destruct (p_state p); naive_solver.
  - unfold used; simpl. auto.
  - destruct (decide (alive p)) as [Ha|Ha]; [by left|]. right. split; [congruence|].
    intros j q Hq Hj. destruct (inv_parent _ _ _ _ _ Ht _ _ _ Hq Hj) as (_ & p0 & ? & ?). by simplify_eq.
  - congruence.
  - simpl. intros q [= <-]. right. eauto.
  - eapply cpus_ok_same; [apply Ht|done|done].
Qed.

(** The running process, by now without files and children, becomes a zombie. *)
Lemma tinv_zombie ps now next init cs c i p q :
  tinv ps now next init cs -> cs !! c = Some (Some i) -> ps !! i = Some p -> init <> Some i ->
  (forall j r, ps !! j = Some r -> p_parent r <> Some i) ->
  p_state q = ZOMBIE -> p_pid q = p_pid p -> p_parent q = p_parent p -> p_kstack q = p_kstack p ->
  no_files q ->
  tinv (<[i := q]> ps) now next init (<[c := None]> cs).
Proof.
  intros Ht Hc Hp Hi Hno Hs Hpid Hpar Hks Hnf. pose proof (inv_slots _ _ _ _ _ Ht i p Hp) as Hok.
  destruct (proj1 (inv_cpus _ _ _ _ _ Ht) _ _ Hc) as (p0 & Hp0 & Hrun). simplify_eq.
  eapply tinv_set; [done|done| |lia| | | | |].
  - revert Hok. unfold slot_ok. rewrite Hs, Hpid, Hpar, Hks, Hrun. destruct Hnf as [Hof Hcwd].
    unfold no_files. rewrite Hof, length_replicate. naive_solver.
  - intros _. left. split; [unfold used; congruence|done].
  - auto.
  - done.
  - rewrite Hpar. auto.
  - apply cpus_ok_leave; [apply Ht|done|congruence].
Qed.

(** ** Proof rules for the primitives *)

Section Rules.
Context {V F : Type} `{!VmOps V} `{!FileOps F}.
Implicit Types k : kstate V F.
Notation K := (M (kstate V F)).

Lemma wp_gets {A} (g : kstate V F -> A) Q QA QP k : Q (g k) k -> wp (gets g) Q QA QP k.
Proof. done. Qed.

Lemma wp_get (Q : kstate V F -> kstate V F -> Prop) QA QP k : Q k k -> wp get Q QA QP k.
Proof. done. Qed.

Lemma wp_modify g (Q : unit -> kstate V F -> Prop) QA QP k : Q tt (g k) -> wp (modify g) Q QA QP k.
Proof. done. Qed.

Lemma wp_panic {A} (Q : A -> kstate V F -> Prop) QA (QP : string -> Prop) msg k :
  QP msg -> wp (panic msg) Q QA QP k.
Proof. done. Qed.

Lemma wp_when b (m : K unit) Q QA QP k :
  (b = true -> wp m Q QA QP k) -> (b = false -> Q tt k) -> wp (when b m) Q QA QP k.
Proof. unfold when. destruct b; intros H1 H2; [by apply H1|by apply H2]. Qed.

Lemma wp_acquire l h Q QA QP k :
  held k = h -> l ∉ h -> Q tt (set_held (l :: h) k) -> wp (acquire l) Q QA QP k.
Proof. intros <- Hl HQ. unfold wp, acquire. by rewrite bool_decide_eq_false_2. Qed.

Lemma wp_release l h Q QA QP k :
  held k = l :: h -> l ∉ h -> Q tt (set_held h k) -> wp (release l) Q QA QP k.
Proof.
  intros Hh Hl HQ. unfold wp, release. rewrite Hh, bool_decide_eq_true_2 by left.
  rewrite filter_cons_False by auto. rewrite filter_all; [done|].
  intros l' Hl' ->. done.
Qed.

Lemma wp_curproc c me Q QA QP k :
  cpus k !! c = Some (Some me) -> Q me k -> wp (curproc c) Q QA QP k.
Proof. intros Hc HQ. unfold wp, curproc, myproc, mbind, M_bind. simpl. by rewrite Hc. Qed.

Lemma wp_slot i p Q QA QP k : procs k !! i = Some p -> Q p k -> wp (slot i) Q QA QP k.
Proof. intros Hp HQ. unfold wp, slot. by rewrite Hp. Qed.

Lemma wp_upd i f p Q QA QP k :
  procs k !! i = Some p -> Q tt (set_procs (<[i := f p]> (procs k)) k) -> wp (upd i f) Q QA QP k.
Proof. intros Hp HQ. unfold wp, upd. simpl. by rewrite (alter_as_insert _ _ _ _ Hp). Qed.

Lemma wp_lift_vm {A} (m : M V A) P Q QA k :
  completes m P -> (forall a v, P a -> Q a (set_vm v k)) -> wp (lift_vm m) Q QA foreign_panic k.
Proof.
  intros Hm HQ. specialize (Hm (vm k)). unfold wp, lift_vm in *.
  destruct (m (vm k)); [by apply HQ|done|done].
Qed.

Lemma wp_lift_fs {A} (m : M F A) P Q QA k :
  completes m P -> (forall a f, P a -> Q a (set_fs f k)) -> wp (lift_fs m) Q QA foreign_panic k.
Proof.
  intros Hm HQ. specialize (Hm (fs k)). unfold wp, lift_fs in *.
  destruct (m (fs k)); [by apply HQ|done|done].
Qed.

(** [sched()] gives the CPU back when its checks pass. *)
Lemma wp_sched c me p (Q : unit -> kstate V F -> Prop) (QA : kstate V F -> Prop) QP k :
  cpus k !! c = Some (Some me) -> held k = [lk_ptable] -> procs k !! me = Some p ->
  p_state p <> RUNNING -> QA (set_held [] (set_cpus (<[c := None]> (cpus k)) k)) ->
  wp (sched c) Q QA QP k.
Proof.
  intros Hc Hh Hp Hst HQ. unfold sched.
  apply wp_bind, (wp_curproc _ me); [done|]. apply wp_bind, wp_gets.
  rewrite Hh. simpl. apply wp_bind, (wp_slot _ p); [done|].
  destruct (in_state RUNNING p) eqn:E; [by apply in_state_true in E|].
  apply wp_bind, wp_modify, wp_bind, (wp_release _ []); [done|apply not_elem_of_nil|]. done.
Qed.
End Rules.

(** Step through a routine with the rules above. *)
Ltac ksimp :=
  cbn [procs nextpid initproc ticks sched_st sema cpus held vm fs set_procs set_nextpid set_initproc
       set_ticks set_sched_st set_sema set_cpus set_held set_vm set_fs] in *.

(** States are compared field by field. *)
Lemma kstate_ext {V F} (k k' : kstate V F) :
  procs k = procs k' -> nextpid k = nextpid k' -> initproc k = initproc k' -> ticks k = ticks k' ->
  sched_st k = sched_st k' -> sema k = sema k' -> cpus k = cpus k' -> held k = held k' ->
  vm k = vm k' -> fs k = fs k' -> k = k'.
Proof. destruct k, k'; simpl. congruence. Qed.

Ltac kext := apply kstate_ext; ksimp; try reflexivity.

(** The slot an update or a read of the table is about. *)
Ltac in_table := rewrite ?length_insert; first [by eauto using lookup_lt_Some | lia].
Ltac tlookup :=
  ksimp;
  first [ by eauto
        | rewrite list_lookup_insert_eq by in_table; reflexivity
        | rewrite list_lookup_insert_ne by done; tlookup ].

Ltac lk_notin :=
  first [assumption | apply not_elem_of_nil | apply not_elem_of_cons; split; [congruence|lk_notin]].

Ltac wstep :=
  lazymatch goal with
  | |- wp (_ ≫= _) _ _ _ _ => apply wp_bind
  | |- wp (mret _) _ _ _ _ => apply wp_ret
  | |- wp (gets _) _ _ _ _ => apply wp_gets
  | |- wp get _ _ _ _ => apply wp_get
  | |- wp (modify _) _ _ _ _ => apply wp_modify
  | |- wp (curproc _) _ _ _ _ => eapply wp_curproc; [by eauto|]
  | |- wp (acquire _) _ _ _ _ => eapply wp_acquire; [by eauto|lk_notin|]
  | |- wp (release _) _ _ _ _ => eapply wp_release; [by eauto|lk_notin|]
  | |- wp (slot _) _ _ _ _ => eapply wp_slot; [tlookup|]
  | |- wp (upd _ _) _ _ _ _ => eapply wp_upd; [tlookup|ksimp; rewrite ?list_insert_insert_eq]
  | |- wp (lift_vm _) _ _ _ _ => eapply wp_lift_vm; [by eauto with laws|intros ???]
  | |- wp (lift_fs _) _ _ _ _ => eapply wp_lift_fs; [by eauto with laws|intros ???]
  end; ksimp.
Ltac wsteps := repeat wstep.
