(* ===== verification/ProcOps.v ===== *)
(** * The process operations preserve the invariant

    One lemma per operation of [Proc]: started by the process that runs on
    CPU [c] in a state that satisfies [kinv], it returns to or goes to sleep
    in such a state, and raises none of the process layer's own panics. *)
From S2P Require Import Prelude Cstring Proctab Sched Proc ProcInv.
Local Open Scope Z_scope.

(** The slot that [allocproc] returns: [t] the clock, [n] the new pid, [ks] the
    new kernel stack. *)
Definition embryo (fa t n ks : Z) (p : proc) : proc :=
  set_context (mkContext 0 0 0 0 fa) (set_kstack ks
    (set_stime 0 (set_rutime 0 (set_retime 0 (set_ctime t
      (set_pid n (set_priority 10 (set_state EMBRYO p)))))))).

(** What [fork] makes of an [embryo]: a copy of [cur], the process in slot
    [me], in the new address space [pg]. *)
Definition forked (me : nat) (cur : proc) (pg : Z) (q : proc) : proc :=
  set_state RUNNABLE (set_name (safestrcpy (p_name q) (p_name cur) 16)
    (set_cwd (p_cwd cur) (set_ofile (p_ofile cur)
      (set_tf (set_tf_eax 0 (p_tf cur)) (set_parent (Some me) (set_sz (p_sz cur) (set_pgdir pg q))))))).

(** What [clone] makes of it: a thread in the address space of [cur]. *)
Definition cloned (me : nat) (cur : proc) (func stack : Z) (q : proc) : proc :=
  let esp := u32 (stack + PGSIZE - 2 * 4) in
  let tf := set_tf_eip func (set_tf_eax 0 (p_tf cur)) in
  set_state RUNNABLE (set_name (safestrcpy (p_name q) (p_name cur) 16)
    (set_cwd (p_cwd cur) (set_ofile (p_ofile cur) (set_isthread 1
      (set_tf (set_tf_ebp esp (set_tf_esp esp tf)) (set_stack stack
        (set_tf tf (set_parent (Some me) (set_sz (p_sz cur) (set_pgdir (p_pgdir cur) q)))))))))).

Section Ops.
Context {V F : Type} `{!VmOps V, !FileOps F, !VmLaws V, !FileLaws F}.
Implicit Types k : kstate V F.

(** [me] runs on CPU [c], which holds [h]. *)
Definition running (h : list lock) (c me : nat) (k : kstate V F) : Prop :=
  kinv_at h k /\ cpus k !! c = Some (Some me).

(** The process that calls is a running one. *)
Lemma running_slot h c me k :
  running h c me k -> exists p, procs k !! me = Some p /\ p_state p = RUNNING.
Proof using Type. intros [[Ht _ _ _ _] Hc]. by apply (inv_cpus _ _ _ _ _ Ht) in Hc. Qed.

(** Taking and dropping locks does not touch what the invariant reads. *)
Lemma kinv_at_held h h' k : kinv_at h k -> kinv_at h' (set_held h' k).
Proof. by intros []. Qed.

(** *** Sleeping and waking *)

Lemma wakeup1_ok h ch QA QP k :
  kinv_at h k -> wp (wakeup1 ch)
    (fun _ k' => kinv_at h k' /\ k' = set_procs (wake_one ch <$> procs k) k) QA QP k.
Proof using Type. intros []. unfold wakeup1. wstep. split; [|done]. split; simpl; auto using tinv_wakeup. Qed.

Lemma wakeup_ok h ch QA QP k :
  kinv_at h k -> lk_ptable ∉ h ->
  wp (wakeup ch) (fun _ k' => k' = set_procs (wake_one ch <$> procs k) k /\ kinv_at h k') QA QP k.
Proof using Type.
  intros [Ht Hs Hi Hm Hh] Hl. unfold wakeup, wakeup1. wsteps. subst h. split.
  - by destruct k.
  - split; simpl; auto using tinv_wakeup.
Qed.

(** The state in which [me] sleeps on [ch] and its CPU is idle. *)
Definition asleep_on (c me : nat) (ch : channel) (p : proc) (k : kstate V F) : kstate V F :=
  set_held [] (set_cpus (<[c := None]> (cpus k))
    (set_procs (<[me := set_state SLEEPING (set_chan (Some ch) p)]> (procs k)) k)).

Lemma asleep_on_kinv h c me ch p k :
  running h c me k -> procs k !! me = Some p -> kinv (asleep_on c me ch p k).
Proof using Type.
  intros Hr Hp. destruct (running_slot _ _ _ _ Hr) as (p' & Hp' & Hst). simplify_eq.
  destruct Hr as [[Ht Hs Hi Hm Hh] Hc]. split; ksimp; try done.
  eapply tinv_leave; [done|done|done| |by right]. repeat split; simpl; congruence.
Qed.

Lemma wp_sleep c me ch lk p QP k (Q : unit -> kstate V F -> Prop) (QA : kstate V F -> Prop) :
  running [lk] c me k -> procs k !! me = Some p -> QA (asleep_on c me ch p k) ->
  wp (sleep c ch lk) Q QA QP k.
Proof using Type.
  intros Hr Hp HQ. destruct Hr as [[Ht Hs Hi Hm Hh] Hc]. unfold sleep, myproc.
  wsteps. rewrite Hc. simpl.
  assert (Hrest : forall k', set_held [] k' = set_held [] k -> held k' = [lk_ptable] ->
    wp (upd me (fun p => set_state SLEEPING (set_chan (Some ch) p));; sched c) Q QA QP k').
  { intros k' E E8.
    assert (Hf : forall A (g : kstate V F -> A), (forall x, g (set_held [] x) = g x) -> g k' = g k).
    { intros A g Hg. by rewrite <- (Hg k'), E, Hg. }
    assert (E1 : procs k' = procs k) by (by apply Hf). assert (E2 : cpus k' = cpus k) by (by apply Hf).
    apply wp_bind, (wp_upd _ _ p); [congruence|].
    eapply (wp_sched c me (set_state SLEEPING (set_chan (Some ch) p))); ksimp; [congruence|done| |done|].
    - rewrite list_lookup_insert_eq; [done|]. rewrite E1. by eapply lookup_lt_Some.
    - eapply eq_ind; [exact HQ|]. unfold asleep_on. kext; rewrite ?E1, ?E2; try done; symmetry; by apply Hf. }
  apply wp_bind, wp_when; intros E.
  - apply negb_true_iff, bool_decide_eq_false in E. wsteps.
    unfold wp, release. simpl. rewrite bool_decide_eq_true_2 by (right; left).
    rewrite filter_cons_True, filter_cons_False by auto. apply Hrest; done.
  - apply negb_false_iff, bool_decide_eq_true in E as ->. apply Hrest; done.
Qed.

Lemma sleep_ok c me ch lk QP k (Q : unit -> kstate V F -> Prop) :
  running [lk] c me k -> wp (sleep c ch lk) Q kinv QP k.
Proof.
  intros Hr. destruct (running_slot _ _ _ _ Hr) as (p & Hp & Hst).
  by eapply wp_sleep; [..|eapply asleep_on_kinv].
Qed.

Lemma sleep_return_ok c me lk QA QP k :
  running [lk_ptable] c me k -> wp (sleep_return c lk) (fun _ => running [lk] c me) QA QP k.
Proof using Type.
  intros Hr. destruct (running_slot _ _ _ _ Hr) as (p & Hp & Hst).
  destruct Hr as [[Ht Hs Hi Hm Hh] Hc]. unfold sleep_return. wsteps.
  assert (tinv (<[me := set_chan None p]> (procs k)) (ticks k) (nextpid k) (initproc k) (cpus k)).
  { eapply tinv_core; try done. repeat split; simpl; try done. congruence. }
  apply wp_when; intros E.
  - wsteps. done.
  - apply negb_false_iff, bool_decide_eq_true in E as ->. done.
Qed.

Lemma yield_ok c me (Q : unit -> kstate V F -> Prop) QP k :
  running [] c me k -> wp (yield c) Q kinv QP k.
Proof.
  intros Hr. destruct (running_slot _ _ _ _ Hr) as (p & Hp & Hst).
  destruct Hr as [[Ht Hs Hi Hm Hh] Hc]. unfold yield. wsteps.
  eapply (wp_sched c me); simpl; [done|done| |..].
  - rewrite list_lookup_insert_eq; [done|]. by eapply lookup_lt_Some.
  - done.
  - split; simpl; try done. eapply tinv_leave; [done|done|done| |by left].
    repeat split; simpl; congruence.
Qed.

Lemma yield_return_ok c me QA QP k :
  running [lk_ptable] c me k -> wp yield_return (fun _ => running [] c me) QA QP k.
Proof. intros [[Ht Hs Hi Hm Hh] Hc]. unfold yield_return. wstep. done. Qed.

(** *** Control *)

Lemma kill_ok pid QA QP k : kinv k -> wp (kill pid) (fun _ k' => kinv k' /\ cpus k' = cpus k) QA QP k.
Proof.
  intros [Ht Hs Hi Hm Hh]. unfold kill. wsteps.
  destruct (find_index _ _) as [i|] eqn:E; wsteps; [|done].
  apply find_index_Some in E as [(p & Hp & _) _]. wsteps. split; [|done]. split; simpl; try done.
  destruct (in_state SLEEPING (set_killed 1 p)) eqn:Ep.
  - apply in_state_true in Ep. simpl in Ep.
    pose proof (inv_slots _ _ _ _ _ Ht _ _ Hp) as Hok.
    eapply tinv_set; [done|done| |lia| |by left; right; left|done|auto|].
    + revert Hok. unfold slot_ok, no_files, accounted; simpl. rewrite Ep. naive_solver.
    + intros _. left. split; [unfold used; congruence|done].
    + eapply cpus_ok_same; [apply Ht|done|]. simpl. rewrite Ep. done.
  - eapply tinv_core; [done|done|]. repeat split; simpl; auto.
Qed.

Lemma setpriority_ok pid prio QA QP k : kinv k -> 
  wp (setpriority pid prio) (fun _ k' => kinv k' /\ cpus k' = cpus k) QA QP k.
Proof.
  intros [Ht Hs Hi Hm Hh]. unfold setpriority. destruct (_ && _); [|by wstep]. wsteps.
  destruct (find_index _ _) as [i|] eqn:E; wsteps; [|done].
  apply find_index_Some in E as [(p & Hp & _) _]. wsteps. split; [|done]. split; simpl; try done.
  eapply tinv_core; [done|done|]. repeat split; simpl; auto.
Qed.

(** *** Scheduling *)

Lemma switchuvm_ok h i p (Q : unit -> kstate V F -> Prop) QA QP k :
  kinv_at h k -> procs k !! i = Some p -> alive p -> Q tt k -> wp (switchuvm i) Q QA QP k.
Proof.
  intros [Ht _ _ _ _] Hp Ha HQ.
  destruct (alive_resources _ _ _ _ _ (inv_slots _ _ _ _ _ Ht _ _ Hp)) as (Hks & Hpg & _); [done|].
  unfold switchuvm. wsteps. apply Z.eqb_neq in Hks, Hpg. by rewrite Hks, Hpg.
Qed.

Lemma scheduler_ok c QA QP k :
  kinv k -> cpus k !! c = Some None ->
  wp (scheduler c) (fun r k' =>
    match r with
    | Some me => running [lk_ptable] c me k' /\ runnable_at (procs k) me = true /\ sema k' = sema k /\
        exists p, procs k !! me = Some p /\ procs k' = <[me := set_state RUNNING p]> (procs k)
    | None => kinv k' /\ procs k' = procs k /\ sema k' = sema k /\ forall i, runnable_at (procs k) i = false
    end) QA QP k.
Proof.
  intros [Ht Hs Hi Hm Hh] Hc. unfold scheduler. wsteps.
  destruct (ready_process_runs (procs k) (sched_st k) Hs (inv_len _ _ _ _ _ Ht))
    as (r & st & -> & Hwf & Hr). wsteps.
  destruct r as [me|]; wsteps; [|done].
  pose proof Hr as (p & Hp & Hst)%runnable_at_lookup. unfold set_cpu. wsteps.
  destruct (alive_resources _ _ _ _ _ (inv_slots _ _ _ _ _ Ht _ _ Hp)) as (Hks & Hpg & _); [by right; left|].
  unfold switchuvm. wsteps. apply Z.eqb_neq in Hks, Hpg. rewrite Hks, Hpg. wsteps. split; [|by eauto]. split; simpl.
  - split; simpl; try done. by apply tinv_dispatch.
  - apply list_lookup_insert_eq. by eapply lookup_lt_Some.
Qed.

Lemma timer_interrupt_ok c QA QP k :
  kinv k -> wp (timer_interrupt c) (fun _ k' => kinv k' /\ cpus k' = cpus k) QA QP k.
Proof.
  intros [Ht Hs Hi Hm Hh]. unfold timer_interrupt. apply wp_when; intros _; [|done]. wsteps.
  eapply wp_mono; [apply (wakeup_ok [lk_ticks]); [|set_solver]|].
  - split; simpl; try done. by apply tinv_tick.
  - intros [] k' [-> []]. simpl in *. wsteps. done.
Qed.

Lemma timer_yield_ok c me QP k :
  running [] c me k -> wp (timer_yield c) (fun _ => running [] c me) kinv QP k.
Proof.
  intros Hr. destruct (running_slot _ _ _ _ Hr) as (p & Hp & Hst).
  unfold timer_yield, myproc. wsteps. destruct Hr as [Hk Hc]. rewrite Hc. simpl. wsteps.
  destruct (in_state RUNNING p); wsteps; [|done]. apply wp_when; [|done].
  intros _. by apply (yield_ok _ me).
Qed.

(** *** Waiting for children *)

Lemma wait_loop_ok c me k :
  running [lk_ptable] c me k -> wp (wait_loop c) (fun _ => running [] c me) kinv foreign_panic k.
Proof.
  intros Hr. destruct (running_slot _ _ _ _ Hr) as (pm & Hpm & Hst).
  pose proof Hr as [[Ht Hs Hi Hm Hh] Hc]. unfold wait_loop. wsteps.
  destruct (scan_kids _ _ _ _) as [i|b] eqn:E.
  - apply scan_kids_inl in E as (d & p & -> & Hp & _ & Hz). simpl. wsteps.
    split; [|done]. split; simpl; try done. by eapply tinv_reap.
  - wsteps. destruct (_ || _); wsteps; [done|]. eapply sleep_ok, Hr.
Qed.

Lemma wait2_loop_ok c me a1 a2 a3 k :
  running [lk_ptable] c me k ->
  wp (wait2_loop c a1 a2 a3) (fun _ => running [] c me) kinv foreign_panic k.
Proof.
  intros Hr. destruct (running_slot _ _ _ _ Hr) as (pm & Hpm & Hst).
  pose proof Hr as [[Ht Hs Hi Hm Hh] Hc]. unfold wait2_loop. wsteps.
  destruct (scan_kids _ _ _ _) as [i|b] eqn:E.
  - apply scan_kids_inl in E as (d & p & -> & Hp & _ & Hz). simpl. wsteps.
    split; [|done]. split; simpl; try done. by eapply tinv_reap.
  - wsteps. destruct (_ || _); wsteps; [done|]. eapply sleep_ok, Hr.
Qed.

Lemma join_loop_ok c me a k :
  running [lk_ptable] c me k ->
  wp (join_loop c a) (fun _ => running [] c me) kinv foreign_panic k.
Proof.
  intros Hr. destruct (running_slot _ _ _ _ Hr) as (pm & Hpm & Hst).
  pose proof Hr as [[Ht Hs Hi Hm Hh] Hc]. unfold join_loop. wsteps.
  destruct (scan_kids _ _ _ _) as [i|b] eqn:E.
  - apply scan_kids_inl in E as (d & p & -> & Hp & _ & Hz). simpl. wsteps.
    split; [|done]. split; simpl; try done. by eapply tinv_reap.
  - wsteps. destruct (_ || _); wsteps; [done|]. eapply sleep_ok, Hr.
Qed.

Lemma sys_sleep_loop_ok c me n t0 k :
  running [lk_ticks] c me k ->
  wp (sys_sleep_loop c n t0) (fun _ => running [] c me) kinv foreign_panic k.
Proof.
  intros Hr. destruct (running_slot _ _ _ _ Hr) as (pm & Hpm & Hst).
  pose proof Hr as [[Ht Hs Hi Hm Hh] Hc]. unfold sys_sleep_loop. wsteps.
  destruct (_ <? _); wsteps; [|done]. destruct (negb _); wsteps; [done|]. eapply sleep_ok, Hr.
Qed.

(** *** Creating processes *)

Lemma allocproc_ok fa QA k :
  kinv k -> nextpid k < INT_MAX ->
  wp (allocproc fa) (fun r k' =>
    match r with
    | None => kinv k' /\ cpus k' = cpus k
    | Some np => exists p ks v, procs k !! np = Some p /\ p_state p = UNUSED /\
        find_index (in_state UNUSED) (procs k) = Some np /\ ks <> 0 /\
        k' = set_vm v (set_nextpid (nextpid k + 1)
               (set_procs (<[np := embryo fa (ticks k) (nextpid k) ks p]> (procs k)) k))
    end) QA foreign_panic k.
Proof.
  intros [Ht Hs Hi Hm Hh] Hn. pose proof (inv_next _ _ _ _ _ Ht) as Hn1.
  assert (Hs32 : s32 (nextpid k + 1) = nextpid k + 1) by (apply s32_id; unfold INT_MAX in Hn; lia).
  unfold allocproc. wsteps. destruct (find_index _ _) as [i|] eqn:E; wsteps; [|done].
  pose proof E as [(p & Hp & Hst%in_state_true) _]%find_index_Some. wsteps.
  destruct (Z.eqb_spec a 0) as [->|Ha]; wsteps; rewrite Hs32.
  - split; [|done]. split; simpl; try done. by eapply tinv_abandon.
  - exists p, a, v. do 4 (split; [done|]). by kext.
Qed.

(** Copying the descriptors into a slot that has none. *)
Lemma dup_files_ok me np cur q QA k :
  procs k !! me = Some cur -> procs k !! np = Some q -> me <> np ->
  length (p_ofile cur) = NOFILE -> p_ofile q = replicate NOFILE None ->
  wp (dup_files me np) (fun _ k' => exists f,
    k' = set_fs f (set_procs (<[np := set_ofile (p_ofile cur) q]> (procs k)) k)) QA foreign_panic k.
Proof.
  intros Hme Hnp Hne Hlen Hof. unfold dup_files.
  eapply wp_mono; [apply (wp_for_seq _ (fun i k' => exists f fds,
    k' = set_fs f (set_procs (<[np := set_ofile fds q]> (procs k)) k) /\ length fds = NOFILE /\
    forall j, fds !! j = if (j <? i)%nat then p_ofile cur !! j else replicate NOFILE None !! j))|].
  - exists (fs k), (p_ofile q). split; [|rewrite Hof; done]. kext.
    rewrite list_insert_id; [done|]. by rewrite Hnp; destruct q.
  - intros i k' Hi (f & fds & -> & Hl & Hj). wsteps.
    assert (Hnext : forall x, p_ofile cur !! i = Some x -> forall j,
      <[i := x]> fds !! j =
      if (j <? S i)%nat then p_ofile cur !! j else replicate NOFILE None !! j).
    { intros x Hx j. destruct (decide (j = i)) as [->|].
      - rewrite list_lookup_insert_eq by lia. by rewrite (proj2 (Nat.ltb_lt _ _)) by lia.
      - rewrite list_lookup_insert_ne, Hj by done.
        destruct (Nat.ltb_spec j i), (Nat.ltb_spec j (S i)); try done; lia. }
    destruct (lookup_lt_is_Some_2 (p_ofile cur) i) as [[x|] Hx]; [lia| |]; rewrite Hx; simpl; wsteps.
    + eexists _, (<[i := Some x]> fds). split; [done|]. split; [by rewrite length_insert|]. by apply Hnext.
    + exists f, fds. split; [done|]. split; [done|]. intros j. etrans; [|apply (Hnext None Hx j)].
      destruct (decide (j = i)) as [->|]; [|by rewrite list_lookup_insert_ne].
      rewrite list_lookup_insert_eq by lia. rewrite Hj, (proj2 (Nat.ltb_ge _ _)) by lia.
      apply lookup_replicate. split; [done|lia].
  - intros [] k' (f & fds & -> & Hl & Hj). exists f. kext. do 2 f_equal. apply list_eq. intros j. rewrite Hj.
    destruct (Nat.ltb_spec j (0 + NOFILE)) as [|Hge]; [done|].
    rewrite (lookup_ge_None_2 (p_ofile cur)) by lia. apply lookup_ge_None_2. rewrite length_replicate. lia.
Qed.

Lemma dup_cwd_ok me np cur q ip QA k :
  procs k !! me = Some cur -> procs k !! np = Some q -> p_cwd cur = Some ip ->
  wp (dup_cwd me np) (fun _ k' => exists f,
    k' = set_fs f (set_procs (<[np := set_cwd (p_cwd cur) q]> (procs k)) k)) QA foreign_panic k.
Proof.
  intros Hme Hnp Hc. unfold dup_cwd. wsteps. rewrite Hc. wsteps. eexists. kext.
Qed.

(** The outcome of [fork] and [clone]: [-1] and nothing but a used-up pid, or
    the pid of a new process [q] in a slot that was free. *)
Definition spawned (k : kstate V F) (child : nat -> proc -> proc -> Prop) (r : Z) (k' : kstate V F)
    : Prop :=
  kinv k' /\ cpus k' = cpus k /\
  (r = -1 \/ r = nextpid k /\ nextpid k' = nextpid k + 1 /\
     exists np p q, procs k !! np = Some p /\ p_state p = UNUSED /\
       find_index (in_state UNUSED) (procs k) = Some np /\ procs k' = <[np := q]> (procs k) /\ child np p q).

(** The part [fork] and [clone] share, from the descriptors on: [q] is the
    child in slot [np] by then, [p] the free slot it was made from. *)
Lemma spawn_rest me np cur p q c v k k0 QA :
  k = set_vm v (set_nextpid (nextpid k0 + 1) (set_procs (<[np := q]> (procs k0)) k0)) ->
  running [] c me k0 -> procs k0 !! me = Some cur -> procs k0 !! np = Some p -> p_state p = UNUSED ->
  p_pid q = nextpid k0 -> p_parent q = Some me -> p_kstack q <> 0 -> p_pgdir q <> 0 ->
  p_ofile q = p_ofile p -> p_name q = p_name p ->
  p_ctime q = ticks k0 -> p_stime q = 0 -> p_retime q = 0 -> p_rutime q = 0 ->
  let q' := set_state RUNNABLE (set_name (safestrcpy (p_name p) (p_name cur) 16)
              (set_cwd (p_cwd cur) (set_ofile (p_ofile cur) q))) in
  wp (dup_files me np;; dup_cwd me np;;
      upd np (fun p => set_name (safestrcpy (p_name p) (p_name cur) 16) p);;
      child ← slot np;
      acquire lk_ptable;;
      upd np (set_state RUNNABLE);;
      release lk_ptable;;
      mret (p_pid child))
    (fun r k' => r = nextpid k0 /\ kinv k' /\ cpus k' = cpus k0 /\ nextpid k' = nextpid k0 + 1 /\
       procs k' = <[np := q']> (procs k0)) QA foreign_panic k.
Proof.
  intros -> Hr Hme Hnp Hst Hpid Hpar Hks Hpg Hof Hnm Hct H0 H1 H2 q'.
  destruct (running_slot _ _ _ _ Hr) as (cur' & Hcur' & Hrun). simplify_eq.
  destruct Hr as [[Ht Hs Hi Hm Hh] Hc].
  assert (me <> np) by congruence.
  pose proof (inv_slots _ _ _ _ _ Ht _ _ Hnp) as (_ & _ & Hfree). rewrite Hst in Hfree.
  destruct Hfree as (_ & _ & [Hnf _]).
  pose proof (inv_slots _ _ _ _ _ Ht _ _ Hme) as Hmok. pose proof (proj1 Hmok) as Hlen.
  destruct (alive_resources _ _ _ _ _ Hmok) as (_ & _ & Hcwd); [by right; right|].
  apply not_eq_None_Some in Hcwd as [ip Eip].
  wstep. eapply wp_mono.
  { eapply (dup_files_ok me np cur q); ksimp; [tlookup|tlookup|done|done|congruence]. }
  intros [] k1 (f & ->). wstep. eapply wp_mono.
  { eapply (dup_cwd_ok me np cur _ ip); ksimp; [rewrite list_insert_insert_eq; tlookup|tlookup|done]. }
  intros [] k2 (f' & ->). ksimp. rewrite !list_insert_insert_eq. wsteps. psimp. rewrite Hnm.
  split; [done|]. split; [|split; [done|]; split; [done|]; by rewrite ?list_insert_insert_eq].
  split; ksimp; rewrite ?list_insert_insert_eq; try done.
  eapply (tinv_create _ _ _ _ _ np p _ me cur); simpl; try done; [by right; right|congruence].
Qed.

Lemma fork_ok fa c me cur QA k :
  running [] c me k -> procs k !! me = Some cur -> nextpid k < INT_MAX ->
  wp (fork fa c) (spawned k (fun np p q => exists ks pg, ks <> 0 /\ pg <> 0 /\
      q = forked me cur pg (embryo fa (ticks k) (nextpid k) ks p))) QA foreign_panic k.
Proof.
  intros Hr Hcur Hn. pose proof Hr as [[Ht Hs Hi Hm Hh] Hc].
  destruct (running_slot _ _ _ _ Hr) as (cur' & Hcur' & Hrun). simplify_eq.
  unfold fork. do 3 wstep. eapply wp_mono; [by apply allocproc_ok|].
  intros [np|] k'; [|intros [Hk' Hc']; wsteps; split; [done|]; split; [done|by left]].
  intros (p & ks & v & Hp & Hst & Hfst & Hks & ->). assert (me <> np) by congruence. wsteps.
  destruct (Z.eqb_spec a 0) as [->|Ha].
  - wsteps. split; [|split; [done|by left]]. split; ksimp; try done. by eapply tinv_abandon.
  - wstep. eapply wp_upd; [tlookup|]. ksimp. rewrite !list_insert_insert_eq.
    eapply wp_mono; [eapply (spawn_rest me np cur p _ c v0 _ k QA); [kext|try done..]|].
    intros r k' (-> & ? & ? & ? & Hps). split; [done|]. split; [done|]. right.
    split; [done|]. split; [done|]. exists np, p. eexists. do 4 (split; [done|]).
    exists ks, a. split; [done|]. split; [done|]. unfold forked, embryo. by psimp.
Qed.

Lemma clone_ok fa c me cur func arg stack QA k :
  running [] c me k -> procs k !! me = Some cur -> nextpid k < INT_MAX ->
  wp (clone fa c func arg stack) (spawned k (fun np p q => exists ks, ks <> 0 /\
      q = cloned me cur func stack (embryo fa (ticks k) (nextpid k) ks p))) QA foreign_panic k.
Proof.
  intros Hr Hcur Hn. pose proof Hr as [[Ht Hs Hi Hm Hh] Hc].
  destruct (running_slot _ _ _ _ Hr) as (cur' & Hcur' & Hrun). simplify_eq.
  unfold clone. do 3 wstep. eapply wp_mono; [by apply allocproc_ok|].
  intros [np|] k'; [|intros [Hk' Hc']; wsteps; split; [done|]; split; [done|by left]].
  intros (p & ks & v & Hp & Hst & Hfst & Hks & ->). assert (me <> np) by congruence.
  do 10 wstep.
  eapply wp_mono; [eapply (spawn_rest me np cur p _ c v1 _ k QA); [kext|try done..]|].
  - simpl. apply (alive_resources _ _ _ _ _ (inv_slots _ _ _ _ _ Ht _ _ Hcur)). by right; right.
  - intros r k' (-> & ? & ? & ? & Hps). split; [done|]. split; [done|]. right.
    split; [done|]. split; [done|]. exists np, p. eexists. do 4 (split; [done|]).
    exists ks. split; [done|]. unfold cloned, embryo. by psimp.
Qed.

Lemma growproc_ok c me n QA k :
  running [] c me k -> wp (growproc c n) (fun _ => running [] c me) QA foreign_panic k.
Proof.
  intros Hr. destruct (running_slot _ _ _ _ Hr) as (p & Hp & Hst).
  pose proof Hr as [[Ht Hs Hi Hm Hh] Hc]. unfold growproc. do 5 wstep.
  set (m := (if 0 <? n then _ else _ : M (kstate V F) (option Z))).
  apply (wp_mono m (fun _ k' => exists v, k' = set_vm v k)).
  { subst m. assert (k = set_vm (vm k) k) by kext.
    destruct (0 <? n); [wsteps; eauto|]. destruct (n <? 0); wsteps; eauto. }
  intros [sz|] k' (v & ->); wsteps; [|done].
  eapply switchuvm_ok; ksimp; [|tlookup|right; right; done|wsteps].
  - split; ksimp; try done. eapply tinv_core; [done|done|]. repeat split; simpl; auto.
  - split; [|done]. split; ksimp; try done. eapply tinv_core; [done|done|]. repeat split; simpl; auto.
Qed.

(** *** Exiting *)

(** Closing every descriptor of [me]. *)
Lemma close_all_ok me p QA k :
  procs k !! me = Some p -> length (p_ofile p) = NOFILE ->
  wp (for_each (seq 0 NOFILE) (fun fd =>
      p ← slot me;
      match mjoin (p_ofile p !! fd) with
      | Some f => lift_fs (f_fileclose f);; upd me (fun q => set_ofile (<[fd := None]> (p_ofile q)) q)
      | None => mret tt
      end))
    (fun _ k' => exists f, k' = set_fs f (set_procs (<[me := set_ofile (replicate NOFILE None) p]> (procs k)) k))
    QA foreign_panic k.
Proof.
  intros Hp Hlen.
  eapply wp_mono; [apply (wp_for_seq _ (fun i k' => exists f fds,
    k' = set_fs f (set_procs (<[me := set_ofile fds p]> (procs k)) k) /\ length fds = NOFILE /\
    forall j, (j < i)%nat -> (j < NOFILE)%nat -> fds !! j = Some None))|].
  - exists (fs k), (p_ofile p). split; [|split; [done|intros; lia]]. kext.
    rewrite list_insert_id; [done|]. by rewrite Hp; destruct p.
  - intros i k' Hi (f & fds & -> & Hl & Hj). wsteps.
    destruct (lookup_lt_is_Some_2 fds i) as [[x|] Hx]; [lia| |]; psimp; rewrite Hx; simpl; wsteps.
    + eexists _, (<[i := None]> fds). split; [done|]. split; [by rewrite length_insert|].
      intros j Hji Hjn. destruct (decide (j = i)) as [->|].
      * apply list_lookup_insert_eq. lia.
      * rewrite list_lookup_insert_ne by done. apply Hj; lia.
    + exists f, fds. split; [done|]. split; [done|]. intros j Hji Hjn.
      destruct (decide (j = i)) as [->|]; [done|]. apply Hj; lia.
  - intros [] k' (f & fds & -> & Hl & Hj). exists f. kext. do 2 f_equal.
    apply list_eq_same_length with NOFILE; [by rewrite length_replicate|done|].
    intros i x y Hi Hx Hy. apply lookup_replicate in Hy as [-> _].
    rewrite Hj in Hx by lia. congruence.
Qed.

Lemma wake_one_awake ch p : p_state p <> SLEEPING -> wake_one ch p = p.
Proof. intros H. unfold wake_one. destruct (in_state SLEEPING p) eqn:E; [by apply in_state_true in E|done]. Qed.

(** The parent of the process [q] of slot [j] once the children of [me] below
    slot [i] have been passed to init. *)
Definition handed_on (init : option nat) (me i j : nat) (q : proc) : option nat :=
  if bool_decide (p_parent q = Some me /\ (j < i)%nat) then init else p_parent q.

(** The table while [me] is exiting: a good table [ps], in which slot [me] has
    already been stripped to [p1]; the children below [i] have been handed on. *)
Definition exiting (k : kstate V F) (me : nat) (p p1 : proc) (i : nat) (k' : kstate V F) : Prop :=
  exists ps, k' = set_procs (<[me := p1]> ps) k /\
    tinv ps (ticks k) (nextpid k) (initproc k) (cpus k) /\ ps !! me = Some p /\
    forall j q', ps !! j = Some q' ->
      exists q, procs k !! j = Some q /\ p_parent q' = handed_on (initproc k) me i j q.

Lemma exiting_wakeup k me p p1 i ch QA QP k' :
  p_state p = RUNNING -> p_state p1 = RUNNING -> exiting k me p p1 i k' ->
  wp (wakeup1 ch) (fun _ => exiting k me p p1 i) QA QP k'.
Proof.
  intros Hst Hst1 (ps & -> & Ht & Hp & Hj). unfold wakeup1. wsteps.
  exists (wake_one ch <$> ps). split.
  - kext. rewrite list_fmap_insert, wake_one_awake; [done|congruence].
  - split; [by apply tinv_wakeup|]. rewrite list_lookup_fmap, Hp. simpl.
    rewrite wake_one_awake by congruence. split; [done|].
    intros j q. rewrite list_lookup_fmap, fmap_Some. intros (q' & Hq' & ->).
    rewrite (proj1 (proj2 (wake_one_core ch q'))). eauto.
Qed.

Lemma handed_on_S init me i j q :
  init <> Some me -> (j <> i \/ p_parent q <> Some me) ->
  handed_on init me (S i) j q = handed_on init me i j q.
Proof.
  intros Hi Hor. unfold handed_on. apply f_equal with (f := fun b : bool => if b then init else p_parent q).
  apply bool_decide_ext. naive_solver lia.
Qed.

Lemma reparent_ok k me p p1 i QA QP k' :
  p_state p = RUNNING -> p_state p1 = RUNNING -> p_parent p1 = p_parent p ->
  initproc k <> None -> initproc k <> Some me -> (i < NPROC)%nat ->
  exiting k me p p1 i k' ->
  wp (reparent_child me (initproc k) i) (fun _ => exiting k me p p1 (S i)) QA QP k'.
Proof.
  intros Hst Hst1 Hpar Hi0 Him Hi (ps & -> & Ht & Hp & Hj). unfold reparent_child.
  assert (Hnot : forall q', ps !! i = Some q' -> p_parent q' <> Some me ->
    exiting k me p p1 (S i) (set_procs (<[me := p1]> ps) k)).
  { intros q' Hq' Hn. exists ps. do 3 (split; [done|]). intros j r Hr.
    destruct (Hj j r Hr) as (q & Hq & Er). exists q. split; [done|]. rewrite Er. symmetry.
    apply handed_on_S; [done|]. destruct (decide (j = i)) as [->|]; [right|by left].
    simplify_eq. unfold handed_on in Er. rewrite bool_decide_eq_false_2 in Er by lia. congruence. }
  assert (Hself : p_parent p <> Some me).
  { intros H. by destruct (inv_parent _ _ _ _ _ Ht _ _ _ Hp H). }
  destruct (lookup_lt_is_Some_2 ps i) as [q Hq]; [by rewrite (inv_len _ _ _ _ _ Ht)|].
  destruct (decide (i = me)) as [->|Hne].
  { wsteps. rewrite bool_decide_eq_false_2 by congruence. wsteps. by apply (Hnot p). }
  wsteps. case_bool_decide as E; wsteps; [|by apply (Hnot q)].
  destruct (initproc k) as [ini|] eqn:Ei; [|done].
  assert (Hmid : exiting k me p p1 (S i)
    (set_procs (<[i := set_parent (Some ini) q]> (<[me := p1]> ps)) (set_procs (<[me := p1]> ps) k))).
  { exists (<[i := set_parent (Some ini) q]> ps). split; [kext; by rewrite list_insert_insert_ne by done|].
    rewrite Ei. split; [eapply tinv_reparent; [done|done|done|congruence]|].
    rewrite list_lookup_insert_ne by done. split; [done|].
    intros j r. destruct (decide (j = i)) as [->|].
    - rewrite list_lookup_insert_eq by (by eapply lookup_lt_Some). intros [= <-].
      destruct (Hj i q Hq) as (q0 & Hq0 & E0). exists q0. split; [done|]. simpl.
      unfold handed_on in *. rewrite bool_decide_eq_false_2 in E0 by lia.
      rewrite bool_decide_eq_true_2; [done|]. split; [congruence|lia].
    - rewrite list_lookup_insert_ne by done. intros Hr. destruct (Hj j r Hr) as (q0 & Hq0 & E0).
      exists q0. split; [done|]. rewrite E0. symmetry. apply handed_on_S; auto. }
  apply wp_when; intros _; [|done]. by apply exiting_wakeup.
Qed.

Lemma exit_ok c me (Q : unit -> kstate V F -> Prop) k :
  running [] c me k ->
  wp (exit_ c) Q (fun k' => kinv k' /\ cpus k' = <[c := None]> (cpus k) /\
      (exists q, procs k' !! me = Some q /\ p_state q = ZOMBIE /\ no_files q) /\
      forall j q', procs k' !! j = Some q' -> exists q, procs k !! j = Some q /\
        p_parent q' = handed_on (initproc k) me NPROC j q)
    foreign_panic k.
Proof.
  intros Hr. destruct (running_slot _ _ _ _ Hr) as (p & Hp & Hst).
  pose proof Hr as [[Ht Hs Hi Hm Hh] Hc]. unfold exit_. do 4 wstep.
  case_bool_decide as Einit.
  { apply wp_panic. unfold foreign_panic, proc_panics. set_solver. }
  pose proof (inv_slots _ _ _ _ _ Ht _ _ Hp) as Hok. pose proof (proj1 Hok) as Hlen.
  destruct (alive_resources _ _ _ _ _ Hok) as (_ & _ & [ip Eip]%not_eq_None_Some); [by right; right|].
  wstep. eapply wp_mono; [by apply (close_all_ok me p)|]. intros [] k1 (f & ->).
  wsteps. psimp. rewrite Eip. wsteps. psimp.
  match goal with |- wp _ _ _ _ ?s => set (k1 := s) end.
  set (p1 := set_cwd None (set_ofile (replicate NOFILE None) p)) in *.
  assert (Hx : exiting (set_held [lk_ptable] (set_fs (fs k1) k)) me p p1 0 k1).
  { exists (procs k). split; [subst k1; kext|]. do 2 (split; [done|]). intros j q Hq. exists q.
    split; [done|]. unfold handed_on. by rewrite bool_decide_eq_false_2 by lia. }
  clearbody k1. apply (wp_mono _ (fun _ => exiting (set_held [lk_ptable] (set_fs (fs k1) k)) me p p1 0)).
  { destruct (p_parent p); [by apply exiting_wakeup|done]. }
  intros [] k2 Hx2. wstep. eapply wp_mono.
  { apply (wp_for_seq _ (exiting (set_held [lk_ptable] (set_fs (fs k1) k)) me p p1)); [done|].
    intros i k' Hlt Hx'. apply (reparent_ok (set_held [lk_ptable] (set_fs (fs k1) k)) me p p1 i); done || lia. }
  clear Hx Hx2. intros [] k3 (ps & -> & Ht3 & Hp3 & Hj). ksimp.
  assert (Hno : forall j q, ps !! j = Some q -> p_parent q <> Some me).
  { intros j q' Hq'. destruct (Hj j q' Hq') as (q & Hq & ->). unfold handed_on.
    case_bool_decide as E; [congruence|]. intros Hq1. apply E. split; [done|].
    apply lookup_lt_Some in Hq'. by rewrite (inv_len _ _ _ _ _ Ht3) in Hq'. }
  wsteps. eapply (wp_sched c me); ksimp; [done|done|tlookup|done|].
  split; [|split; [done|]; split].
  - split; ksimp; try done. by eapply tinv_zombie.
  - eexists. split; [tlookup|]. done.
  - intros j q. destruct (decide (j = me)) as [->|].
    + ksimp. rewrite list_lookup_insert_eq by in_table. intros [= <-]. exact (Hj me p Hp3).
    + ksimp. rewrite list_lookup_insert_ne by done. apply Hj.
Qed.
End Ops.
