(* ===== verification/Sem.v ===== *)
(** * Counting semaphores

    The semaphore table of [proc.c] and [sem_init], [sem_destroy], [sem_wait]
    and [sem_signal].  A semaphore has its own spin lock; a process that finds
    the value too small sleeps on the semaphore and tries again when it is
    woken, so the wait is one function from its beginning ([sem_wait]) and one
    from the point where [sleep()] returns ([sem_wait_loop]). *)
From S2P Require Import Prelude Cstring Proctab Sched Proc ProcInv ProcOps.
Local Open Scope Z_scope.

Section Sem.
Context {V F : Type} `{!VmOps V, !FileOps F}.
Notation K := (M (kstate V F)).

Definition sem_at (i : nat) : K semaphore := fun k =>
  match sema k !! i with Some s => Ret s k | None => Panic "semaphore outside sema[]" end.

Definition sem_upd (i : nat) (f : semaphore -> semaphore) : K unit :=
  modify (fun k => set_sema (alter f i (sema k)) k).

(** [(sem>=0)&&(sem<MAX_SEMA_NUM)] *)
Definition sem_index (sem : Z) : option nat :=
  if (0 <=? sem) && (sem <? Z.of_nat MAX_SEMA_NUM) then Some (Z.to_nat sem) else None.

Definition sem_init (sem value : Z) : K Z :=
  match sem_index sem with
  | Some i =>
      acquire (lk_sem i);;
      s ← sem_at i;
      when (sem_active s =? 0) (sem_upd i (fun _ => mkSem value 1));;
      release (lk_sem i);;
      mret 0
  | None => mret (-1)
  end.

Definition sem_destroy (sem : Z) : K Z :=
  match sem_index sem with
  | Some i =>
      acquire (lk_sem i);;
      sem_upd i (fun s => mkSem (sem_value s) 0);;
      release (lk_sem i);;
      mret 0
  | None => mret (-1)
  end.

(** [while(sema[sem].value<count) sleep(...); sema[sem].value-=count;] *)
Definition sem_wait_loop (c i : nat) (count : Z) : K Z :=
  s ← sem_at i;
  if sem_value s <? count then sleep c (chan_sem i) (lk_sem i);; mret 0
  else
    sem_upd i (fun s => mkSem (s32 (sem_value s - count)) (sem_active s));;
    release (lk_sem i);;
    mret 0.

Definition sem_wait (c : nat) (sem count : Z) : K Z :=
  match sem_index sem with
  | Some i => acquire (lk_sem i);; sem_wait_loop c i count
  | None => mret (-1)
  end.

Definition sem_signal (sem count : Z) : K Z :=
  match sem_index sem with
  | Some i =>
      acquire (lk_sem i);;
      sem_upd i (fun s => mkSem (s32 (sem_value s + count)) (sem_active s));;
      wakeup (chan_sem i);;
      release (lk_sem i);;
      mret 0
  | None => mret (-1)
  end.

Lemma sem_index_Some sem i : sem_index sem = Some i -> (i < MAX_SEMA_NUM)%nat /\ sem = Z.of_nat i.
Proof.
  unfold sem_index. destruct (Z.leb_spec 0 sem), (Z.ltb_spec sem (Z.of_nat MAX_SEMA_NUM)); simpl; try done.
  intros [= <-]. split; lia.
Qed.

(** ** The operations keep the kernel invariant *)

Implicit Types k : kstate V F.

Lemma wp_sem_at i s Q QA QP k : sema k !! i = Some s -> Q s k -> wp (sem_at i) Q QA QP k.
Proof. intros Hs HQ. unfold wp, sem_at. by rewrite Hs. Qed.

Lemma wp_sem_upd i f s Q QA QP k :
  sema k !! i = Some s -> Q tt (set_sema (<[i := f s]> (sema k)) k) -> wp (sem_upd i f) Q QA QP k.
Proof. intros Hs HQ. unfold wp, sem_upd. simpl. by rewrite (alter_as_insert _ _ _ _ Hs). Qed.

Lemma sem_slot h k i : kinv_at h k -> (i < MAX_SEMA_NUM)%nat -> exists s, sema k !! i = Some s.
Proof. intros [_ _ _ Hm _] Hi. apply lookup_lt_is_Some_2. by rewrite Hm. Qed.

(** What each operation does to the semaphore table, and that it keeps the
    invariant.  [sem_step i s' k k']: the only thing that changed is that
    semaphore [i] is now [s']. *)
Definition sem_step (i : nat) (s' : semaphore) (k k' : kstate V F) : Prop :=
  k' = set_sema (<[i := s']> (sema k)) k.

Lemma sem_step_kinv h i s' k k' : kinv_at h k -> sem_step i s' k k' -> kinv_at h k'.
Proof. intros [] ->. split; ksimp; try done. by rewrite length_insert. Qed.

Lemma sem_init_ok sem value QA QP k :
  kinv k -> wp (sem_init sem value) (fun r k' =>
    match sem_index sem with
    | None => r = -1 /\ k' = k
    | Some i => r = 0 /\ kinv k' /\ exists s, sema k !! i = Some s /\
        sem_step i (if sem_active s =? 0 then mkSem value 1 else s) k k'
    end) QA QP k.
Proof.
  intros Hk. unfold sem_init. destruct (sem_index sem) as [i|] eqn:E; [|by wsteps].
  apply sem_index_Some in E as [Hi _]. destruct (sem_slot _ _ _ Hk Hi) as [s Hs].
  pose proof Hk as [Ht Hsc Hin Hm Hh]. do 3 wstep. eapply wp_sem_at; [done|]. wstep.
  assert (Hgo : forall k', sem_step i (if sem_active s =? 0 then mkSem value 1 else s) k k' ->
    0 = 0 /\ kinv k' /\ exists s, sema k !! i = Some s /\
        sem_step i (if sem_active s =? 0 then mkSem value 1 else s) k k').
  { intros k' Hst. split; [done|]. split; [by eapply sem_step_kinv|]. eauto. }
  apply wp_when; intros Ea; rewrite Ea in Hgo.
  - eapply wp_sem_upd; [done|]. wsteps. apply Hgo. by kext.
  - wsteps. apply Hgo. kext; [by rewrite list_insert_id|done].
Qed.

Lemma sem_destroy_ok sem QA QP k :
  kinv k -> wp (sem_destroy sem) (fun r k' =>
    match sem_index sem with
    | None => r = -1 /\ k' = k
    | Some i => r = 0 /\ kinv k' /\ exists s, sema k !! i = Some s /\ sem_step i (mkSem (sem_value s) 0) k k'
    end) QA QP k.
Proof.
  intros Hk. unfold sem_destroy. destruct (sem_index sem) as [i|] eqn:E; [|by wsteps].
  apply sem_index_Some in E as [Hi _]. destruct (sem_slot _ _ _ Hk Hi) as [s Hs].
  pose proof Hk as [Ht Hsc Hin Hm Hh]. do 3 wstep. eapply wp_sem_upd; [done|]. wsteps.
  assert (Hst : sem_step i (mkSem (sem_value s) 0) k
    (set_held [] (set_sema (<[i:=mkSem (sem_value s) 0]> (sema k)) (set_held [lk_sem i] k)))) by (by kext).
  split; [done|]. split; [by eapply sem_step_kinv|eauto].
Qed.

Lemma sem_wait_loop_ok c me i n p QP k :
  running [lk_sem i] c me k -> procs k !! me = Some p -> (i < MAX_SEMA_NUM)%nat ->
  wp (sem_wait_loop c i n)
    (fun r k' => r = 0 /\ running [] c me k' /\ exists s, sema k !! i = Some s /\ n <= sem_value s /\
       sem_step i (mkSem (s32 (sem_value s - n)) (sem_active s)) (set_held [] k) k')
    (fun k' => kinv k' /\ k' = asleep_on c me (chan_sem i) p k /\
       exists s, sema k !! i = Some s /\ sem_value s < n) QP k.
Proof.
  intros Hr Hp Hi. destruct (sem_slot _ _ _ (proj1 Hr) Hi) as [s Hs].
  unfold sem_wait_loop. wstep. eapply wp_sem_at; [done|].
  destruct (Z.ltb_spec (sem_value s) n).
  - wstep. eapply wp_sleep; [done|done|]. split; [by eapply asleep_on_kinv|]. eauto.
  - wstep. eapply wp_sem_upd; [done|]. destruct Hr as [Hk Hc]. pose proof Hk as [Ht Hsc Hin Hm Hh]. wsteps.
    split; [done|]. split.
    + split; [|done]. split; ksimp; try done. by rewrite length_insert.
    + exists s. split; [done|]. split; [lia|]. by kext.
Qed.

Lemma sem_signal_ok sem n QA QP k :
  kinv k -> wp (sem_signal sem n) (fun r k' =>
    match sem_index sem with
    | None => r = -1 /\ k' = k
    | Some i => r = 0 /\ kinv k' /\ exists s, sema k !! i = Some s /\
        sem_step i (mkSem (s32 (sem_value s + n)) (sem_active s))
          (set_procs (wake_one (chan_sem i) <$> procs k) k) k'
    end) QA QP k.
Proof.
  intros Hk. unfold sem_signal. destruct (sem_index sem) as [i|] eqn:E; [|by wsteps].
  apply sem_index_Some in E as [Hi _]. destruct (sem_slot _ _ _ Hk Hi) as [s Hs].
  pose proof Hk as [Ht Hsc Hin Hm Hh]. do 3 wstep. eapply wp_sem_upd; [done|]. wstep.
  eapply wp_mono; [apply (wakeup_ok [lk_sem i]); [|set_solver]|].
  { split; ksimp; try done. by rewrite length_insert. }
  intros [] k' [-> Hk']. wsteps. split; [done|]. split.
  - destruct Hk'. by split.
  - exists s. split; [done|]. by kext.
Qed.
End Sem.
