(* ===== verification/System.v ===== *)
(** * The running system

    Traps and the system calls on processes ([trap.c], [syscall.c],
    [sysproc.c]), and the whole process layer as a transition system: every
    CPU runs system calls, takes clock and device interrupts, and dispatches.

    A process that went to sleep inside a system call is resumed where it
    slept: [kcont] names that place.  One transition is one kernel entry up to
    the next return to user mode or switch to the scheduler. *)
From S2P Require Import Prelude Cstring Proctab Sched Proc ProcInv ProcOps Sem.
Local Open Scope Z_scope.

(** Where a process that is not running continues. *)
Inductive kcont :=
| KUser                               (* in user mode: a new process, after forkret() *)
| KTimer (user : bool)                (* after yield() in a clock interrupt *)
| KYield                              (* in sys_yield() *)
| KWait                               (* in the sleep() of wait(), wait2(), ... *)
| KWait2 (retime rutime stime : Z)
| KJoin (stack : Z)
| KTicks (n ticks0 : Z)
| KSem (i : nat) (count : Z).

(** The system calls on processes, with their arguments. *)
Inductive call :=
| SysFork | SysClone (func arg stack : Z) | SysExit
| SysWait | SysWait2 (retime rutime stime : Z) | SysJoin (stack : Z)
| SysKill (pid : Z) | SysGetpid | SysGetppid | SysSbrk (n : Z) | SysSleep (n : Z) | SysUptime
| SysYield | SysSetpriority (pid prio : Z) | SysGetptable (nproc size : Z)
| SysGetscheduler | SysSetscheduler (sid : Z)
| SysSemInit (sem value : Z) | SysSemDestroy (sem : Z)
| SysSemWait (sem count : Z) | SysSemSignal (sem count : Z).

Section System.
Context {V F : Type} `{!VmOps V, !FileOps F}.
Context (forkret_addr : Z).
Notation K := (M (kstate V F)).

(** ** System calls ([sysproc.c]) *)

Definition sys_getpid (c : nat) : K Z := me ← curproc c; p ← slot me; mret (p_pid p).

Definition sys_getppid (c : nat) : K Z :=
  me ← curproc c; p ← slot me;
  match p_parent p with
  | Some par => q ← slot par; mret (p_pid q)
  | None => panic "null parent"
  end.

Definition sys_sbrk (c : nat) (n : Z) : K Z :=
  me ← curproc c; p ← slot me;
  r ← growproc c n;
  if r <? 0 then mret (-1) else mret (s32 (p_sz p)).

Definition sys_uptime : K Z := acquire lk_ticks;; t ← gets ticks; release lk_ticks;; mret (s32 t).

(** The rows go to the caller's buffer, which has [size] bytes. *)
Definition sys_getptable (nproc size : Z) : K Z :=
  if negb (u32 size =? u32 (nproc * sizeof_proc_us)) then mret (-1)
  else r ← getptable nproc size (Some tt); mret (fst r).

Definition sys_getscheduler : K Z :=
  acquire lk_sched;; st ← gets sched_st; release lk_sched;; mret (getscheduler st).

(** [setscheduler] takes [schedulerlock] only for a number it accepts. *)
Definition sys_setscheduler (sid : Z) : K Z :=
  st ← gets sched_st;
  if fst (setscheduler sid st) <? 0 then mret (-1)
  else
    acquire lk_sched;;
    modify (fun k => set_sched_st (snd (setscheduler sid (sched_st k))) k);;
    release lk_sched;;
    mret sid.

Definition sys_yield (c : nat) : K Z := yield c;; mret 0.

Definition exec_call (c : nat) (a : call) : K Z :=
  match a with
  | SysFork => fork forkret_addr c
  | SysClone func arg stack => clone forkret_addr c func arg stack
  | SysExit => exit_ c;; mret 0
  | SysWait => wait c
  | SysWait2 x y z => wait2 c x y z
  | SysJoin stack => join c stack
  | SysKill pid => kill pid
  | SysGetpid => sys_getpid c
  | SysGetppid => sys_getppid c
  | SysSbrk n => sys_sbrk c n
  | SysSleep n => sys_sleep c n
  | SysUptime => sys_uptime
  | SysYield => sys_yield c
  | SysSetpriority pid prio => setpriority pid prio
  | SysGetptable nproc size => sys_getptable nproc size
  | SysGetscheduler => sys_getscheduler
  | SysSetscheduler sid => sys_setscheduler sid
  | SysSemInit sem value => sem_init sem value
  | SysSemDestroy sem => sem_destroy sem
  | SysSemWait sem count => sem_wait c sem count
  | SysSemSignal sem count => sem_signal sem count
  end.

(** ** Traps ([trap.c]) *)

(** [curproc->tf->eax = ...] at the end of [syscall()]. *)
Definition set_result (c : nat) (r : Z) : K unit :=
  me ← curproc c; upd me (fun p => set_tf (set_tf_eax (u32 r) (p_tf p)) p).

(** [if(myproc()->killed && user) exit();] *)
Definition exit_if_killed (c : nat) (user : bool) : K unit :=
  me ← curproc c; p ← slot me;
  when (user && negb (p_killed p =? 0)) (exit_ c).

(** [trap()] for [T_SYSCALL]. *)
Definition trap_syscall (c : nat) (a : call) : K unit :=
  exit_if_killed c true;;
  r ← exec_call c a;
  set_result c r;;
  exit_if_killed c true.

(** [trap()] for the clock. *)
Definition trap_timer (c : nat) (user : bool) : K unit :=
  timer_interrupt c;;
  r ← myproc c;
  match r with
  | None => mret tt
  | Some _ => exit_if_killed c user;; timer_yield c;; exit_if_killed c user
  end.

(** [trap()] for a device whose handler wakes [ch]. *)
Definition trap_device (c : nat) (ch : channel) (user : bool) : K unit :=
  wakeup ch;;
  r ← myproc c;
  match r with
  | None => mret tt
  | Some _ => exit_if_killed c user;; exit_if_killed c user
  end.

(** [trap()] for a fault of the program in user mode. *)
Definition trap_fault (c : nat) : K unit :=
  me ← curproc c;
  upd me (set_killed 1);;
  exit_if_killed c true.

(** What runs when the scheduler switches back to a process. *)
Definition resume (c : nat) (kc : kcont) : K unit :=
  match kc with
  | KUser => yield_return
  | KTimer user => yield_return;; exit_if_killed c user
  | _ =>
      r ← match kc with
          | KWait => sleep_return c lk_ptable;; wait_loop c
          | KWait2 x y z => sleep_return c lk_ptable;; wait2_loop c x y z
          | KJoin stack => sleep_return c lk_ptable;; join_loop c stack
          | KTicks n t0 => sleep_return c lk_ticks;; sys_sleep_loop c n t0
          | KSem i n => sleep_return c (lk_sem i);; sem_wait_loop c i n
          | _ => yield_return;; mret 0
          end;
      set_result c r;;
      exit_if_killed c true
  end.

(** ** Transitions *)

(** The place where the call [a], entered in [k], sleeps. *)
Definition cont_of (a : call) (k : kstate V F) : kcont :=
  match a with
  | SysWait => KWait
  | SysWait2 x y z => KWait2 x y z
  | SysJoin stack => KJoin stack
  | SysSleep n => KTicks n (ticks k)
  | SysSemWait sem n => match sem_index sem with Some i => KSem i n | None => KUser end
  | SysYield => KYield
  | _ => KUser
  end.

(** A slot that was free holds a process that has not run yet. *)
Definition fresh_conts (k : kstate V F) (cs : list kcont) : list kcont :=
  zip_with (fun p kc => if in_state UNUSED p then KUser else kc) (procs k) cs.

(** Transitions in which every system call satisfies [ok]: [ok me a k] of the
    call [a] that process [me] makes in state [k]. *)
Inductive step (ok : nat -> call -> kstate V F -> Prop) :
    kstate V F * list kcont -> kstate V F * list kcont -> Prop :=
| step_call c me a k cs k' :
    cpus k !! c = Some (Some me) -> ok me a k -> trap_syscall c a k = Ret tt k' ->
    step ok (k, cs) (k', fresh_conts k cs)
| step_call_sleep c me a k cs k' :
    cpus k !! c = Some (Some me) -> ok me a k -> trap_syscall c a k = Asleep k' ->
    step ok (k, cs) (k', <[me := cont_of a k]> (fresh_conts k cs))
| step_timer c user k cs k' :
    (c < length (cpus k))%nat -> trap_timer c user k = Ret tt k' ->
    step ok (k, cs) (k', cs)
| step_timer_yield c me user k cs k' :
    cpus k !! c = Some (Some me) -> trap_timer c user k = Asleep k' ->
    step ok (k, cs) (k', <[me := KTimer user]> cs)
| step_device c ch user k cs k' :
    (c < length (cpus k))%nat -> trap_device c ch user k = Ret tt k' ->
    step ok (k, cs) (k', cs)
| step_device_exit c me ch user k cs k' :
    cpus k !! c = Some (Some me) -> trap_device c ch user k = Asleep k' ->
    step ok (k, cs) (k', <[me := KUser]> cs)
| step_fault c me k cs k' :
    cpus k !! c = Some (Some me) -> trap_fault c k = Asleep k' ->
    step ok (k, cs) (k', <[me := KUser]> cs)
| step_idle c k cs k' :
    cpus k !! c = Some None -> scheduler c k = Ret None k' ->
    step ok (k, cs) (k', cs)
| step_dispatch c me kc k cs k1 k' :
    cpus k !! c = Some None -> scheduler c k = Ret (Some me) k1 -> cs !! me = Some kc ->
    resume c kc k1 = Ret tt k' ->
    step ok (k, cs) (k', cs)
| step_dispatch_sleep c me kc k cs k1 k' :
    cpus k !! c = Some None -> scheduler c k = Ret (Some me) k1 -> cs !! me = Some kc ->
    resume c kc k1 = Asleep k' ->
    step ok (k, cs) (k', cs).

(** The kernel before [userinit()]: the zeroed table. *)
Definition boot_state (v : V) (f : F) (ncpu : nat) : kstate V F :=
  mkK (replicate NPROC zero_proc) 1 None 0 sched_init (replicate MAX_SEMA_NUM (mkSem 0 0))
    (replicate ncpu None) [] v f.

Inductive reachable (ok : nat -> call -> kstate V F -> Prop) : kstate V F * list kcont -> Prop :=
| reach_boot v f ncpu k :
    userinit forkret_addr (boot_state v f ncpu) = Ret tt k ->
    reachable ok (k, replicate NPROC KUser)
| reach_step s s' : reachable ok s -> step ok s s' -> reachable ok s'.
End System.
