(* ===== verification/SystemInv.v ===== *)
(** * The system invariant

    Every state the process layer can reach from boot satisfies [kinv], and no
    kernel entry from such a state raises one of the process layer's own
    panics. *)
From S2P Require Import Prelude Cstring Proctab Sched Proc ProcInv ProcOps Sem System.
Local Open Scope Z_scope.

Section Safety.
Context {V F : Type} `{!VmOps V, !FileOps F, !VmLaws V, !FileLaws F}.
Context (fa : Z).
Implicit Types k : kstate V F.

(** The calls after which the invariant is claimed: process identifiers have
    not run out, the policy number is not the one past the end, and init does
    not ask for its parent. *)
Definition call_ok (me : nat) (a : call) (k : kstate V F) : Prop :=
  match a with
  | SysFork | SysClone _ _ _ => nextpid k < INT_MAX
  | SysSetscheduler sid => sid <> 5
  | SysGetppid => initproc k <> Some me
  | _ => True
  end.

Lemma running_frame h c me k k' :
  running h c me k -> kinv_at h k' -> cpus k' = cpus k -> running h c me k'.
Proof using Type. intros [_ Hc] Hk E. split; [done|congruence]. Qed.

Lemma spawned_running k child r k' c me :
  running [] c me k -> spawned k child r k' -> running [] c me k'.
Proof using Type. intros Hr (Hk & Hc & _). by eapply running_frame. Qed.

Lemma acquire_running l c me QA QP k :
  running [] c me k -> wp (acquire l) (fun _ => running [l] c me) QA QP k.
Proof using Type. intros [[Ht Hs Hi Hm Hh] Hc]. by wstep. Qed.

Lemma sys_setscheduler_ok sid c me QA QP k :
  running [] c me k -> sid <> 5 -> wp (sys_setscheduler sid) (fun _ => running [] c me) QA QP k.
Proof using Type.
  intros Hr Hsid. pose proof Hr as [[Ht Hs Hi Hm Hh] Hc]. unfold sys_setscheduler. wsteps.
  destruct (_ <? _) eqn:E; wsteps; [done|]. split; [|done]. split; ksimp; try done.
  unfold setscheduler in *. change (Z.of_nat (length schedulerName)) with 5 in *.
  destruct (Z.ltb_spec sid 0), (Z.ltb_spec 5 sid); simpl in *; try done.
  destruct Hs as (? & ? & ?). split; simpl; [lia|done].
Qed.

Lemma exec_call_ok c me a k :
  running [] c me k -> call_ok me a k ->
  wp (exec_call fa c a) (fun _ => running [] c me) kinv foreign_panic k.
Proof.
  intros Hr Ha. destruct (running_slot _ _ _ _ Hr) as (p & Hp & Hst).
  pose proof Hr as [Hk Hc]. pose proof Hk as [Ht Hs Hi Hm Hh].
  destruct a; simpl in *.
  - eapply wp_mono; [by apply fork_ok|]. intros r k'. by apply spawned_running.
  - eapply wp_mono; [by apply clone_ok|]. intros r k'. by apply spawned_running.
  - wstep. eapply wp_conseq; [by eapply (exit_ok c me (fun _ _ => False))|done|by intros ? []|done].
  - unfold wait, wait2, join. wstep. eapply wp_mono; [by apply (acquire_running _ c me)|]. intros [] k' H. by apply wait_loop_ok.
  - unfold wait, wait2, join. wstep. eapply wp_mono; [by apply (acquire_running _ c me)|]. intros [] k' H. by apply wait2_loop_ok.
  - unfold wait, wait2, join. wstep. eapply wp_mono; [by apply (acquire_running _ c me)|]. intros [] k' H. by apply join_loop_ok.
  - eapply wp_mono; [by apply kill_ok|]. intros r k' [? ?]. by eapply running_frame.
  - unfold sys_getpid. by wsteps.
  - unfold sys_getppid. wsteps. pose proof (inv_slots _ _ _ _ _ Ht _ _ Hp) as (_ & _ & Hok).
    rewrite Hst in Hok. destruct (p_parent p) as [par|] eqn:Ep; [|naive_solver].
    destruct (inv_parent _ _ _ _ _ Ht _ _ _ Hp Ep) as (_ & q & Hq & _). by wsteps.
  - unfold sys_sbrk. wsteps. eapply wp_mono; [by apply growproc_ok|]. intros r k' H. by destruct (r <? 0); wstep.
  - unfold sys_sleep. wstep. eapply wp_mono; [by apply (acquire_running _ c me)|]. intros [] k' H. do 2 wstep. by apply sys_sleep_loop_ok.
  - unfold sys_uptime. by wsteps.
  - unfold sys_yield. wstep. by apply (yield_ok c me).
  - eapply wp_mono; [by apply setpriority_ok|]. intros r k' [? ?]. by eapply running_frame.
  - unfold sys_getptable, getptable. destruct (negb _); by wsteps.
  - unfold sys_getscheduler. by wsteps.
  - by apply sys_setscheduler_ok.
  - eapply wp_mono; [by apply sem_init_ok|]. intros r k'. destruct (sem_index sem); [|by intros [_ ->]].
    intros (_ & ? & s & _ & ->). by eapply running_frame.
  - eapply wp_mono; [by apply sem_destroy_ok|]. intros r k'. destruct (sem_index sem); [|by intros [_ ->]].
    intros (_ & ? & s & _ & ->). by eapply running_frame.
  - unfold sem_wait. destruct (sem_index sem) as [i|] eqn:E; [|by wsteps].
    apply sem_index_Some in E as [Hlt _]. wsteps.
    eapply wp_conseq; [eapply (sem_wait_loop_ok c me i count p)| | |]; try done.
    + by intros r k' (_ & ? & _).
    + by intros k' [? _].
  - eapply wp_mono; [by apply sem_signal_ok|]. intros r k'. destruct (sem_index sem); [|by intros [_ ->]].
    intros (_ & ? & s & _ & ->). by eapply running_frame.
Qed.

Lemma exit_if_killed_same c me user k :
  running [] c me k -> wp (exit_if_killed c user) (fun _ k' => k' = k) kinv foreign_panic k.
Proof.
  intros Hr. destruct (running_slot _ _ _ _ Hr) as (p & Hp & Hst).
  pose proof Hr as [Hk Hc]. unfold exit_if_killed. wsteps. apply wp_when; intros _; [|done].
  by eapply wp_conseq; [by eapply (exit_ok c me (fun _ _ => False))|done|intros ? []|done].
Qed.

Lemma exit_if_killed_ok c me user k :
  running [] c me k -> wp (exit_if_killed c user) (fun _ => running [] c me) kinv foreign_panic k.
Proof. intros Hr. eapply wp_mono; [by eapply exit_if_killed_same|]. by intros [] k' ->. Qed.

Lemma set_result_ok c me r QA QP k :
  running [] c me k -> wp (set_result c r) (fun _ => running [] c me) QA QP k.
Proof using Type.
  intros Hr. destruct (running_slot _ _ _ _ Hr) as (p & Hp & Hst).
  pose proof Hr as [[Ht Hs Hi Hm Hh] Hc]. unfold set_result. wsteps. split; [|done].
  split; ksimp; try done. eapply tinv_core; [done|done|]. repeat split; simpl; auto.
Qed.

(** The end of every system call. *)
Lemma call_end_ok c me r k :
  running [] c me k ->
  wp (set_result c r;; exit_if_killed c true) (fun _ => running [] c me) kinv foreign_panic k.
Proof.
  intros Hr. wstep. eapply wp_mono; [by apply set_result_ok|]. intros [] k' H. by apply exit_if_killed_ok.
Qed.

Lemma trap_syscall_ok c me a k :
  running [] c me k ->  call_ok me a k ->
  wp (trap_syscall fa c a) (fun _ => running [] c me) kinv foreign_panic k.
Proof.
  intros Hr Ha. unfold trap_syscall. wstep.
  eapply wp_mono; [by eapply exit_if_killed_same|]. intros [] k' ->.
  wstep. eapply wp_mono; [by eapply exec_call_ok|]. intros r k' H. by apply call_end_ok.
Qed.

Lemma trap_timer_ok c user k :
  kinv k -> wp (trap_timer c user) (fun _ k' => kinv k') kinv foreign_panic k.
Proof.
  intros Hk. unfold trap_timer. wstep. eapply wp_mono; [by apply timer_interrupt_ok|].
  intros [] k1 [Hk1 _]. unfold myproc. wsteps. destruct (cpus k1 !! c) as [[me|]|] eqn:E; simpl; try by wsteps.
  assert (Hr : running [] c me k1) by done. wstep.
  eapply wp_mono; [by apply (exit_if_killed_ok c me)|]. intros [] k2 Hr2. wstep.
  eapply wp_mono; [by apply (timer_yield_ok c me)|]. intros [] k3 Hr3.
  eapply wp_mono; [by apply (exit_if_killed_ok c me)|]. by intros [] k4 [? _].
Qed.

Lemma trap_device_ok c ch user k :
  kinv k -> wp (trap_device c ch user) (fun _ k' => kinv k') kinv foreign_panic k.
Proof.
  intros Hk. unfold trap_device. wstep. eapply wp_mono; [by apply (wakeup_ok []); [|apply not_elem_of_nil]|].
  intros [] k1 [_ Hk1]. unfold myproc. wsteps. destruct (cpus k1 !! c) as [[me|]|] eqn:E; simpl; try by wsteps.
  assert (Hr : running [] c me k1) by done. wstep.
  eapply wp_mono; [by apply (exit_if_killed_ok c me)|]. intros [] k2 Hr2.
  eapply wp_mono; [by apply (exit_if_killed_ok c me)|]. by intros [] k4 [? _].
Qed.

Lemma trap_fault_ok c me k :
  running [] c me k -> wp (trap_fault c) (fun _ k' => kinv k') kinv foreign_panic k.
Proof.
  intros Hr. destruct (running_slot _ _ _ _ Hr) as (p & Hp & Hst).
  pose proof Hr as [[Ht Hs Hi Hm Hh] Hc]. unfold trap_fault. wsteps.
  eapply wp_mono; [apply (exit_if_killed_ok c me)|by intros [] k' [? _]].
  split; [|done]. split; ksimp; try done. eapply tinv_core; [done|done|]. repeat split; simpl; auto.
Qed.

(** A continuation names a semaphore of the table. *)
Definition kcont_ok (kc : kcont) : Prop :=
  match kc with KSem i _ => (i < MAX_SEMA_NUM)%nat | _ => True end.

Lemma resume_ok c me kc k :
  running [lk_ptable] c me k -> kcont_ok kc ->
  wp (resume c kc) (fun _ => running [] c me) kinv foreign_panic k.
Proof.
  intros Hr Hkc.
  assert (Hsl : forall lk, wp (sleep_return c lk) (fun _ => running [lk] c me) kinv foreign_panic k).
  { intros lk. by apply sleep_return_ok. }
  assert (Hy : wp yield_return (fun _ => running [] c me) kinv foreign_panic k) by (by apply yield_return_ok).
  destruct kc; simpl; try done.
  - wstep. eapply wp_mono; [done|]. intros [] k' H. by apply exit_if_killed_ok.
  - do 2 wstep. eapply wp_mono; [done|]. intros [] k' H. wstep. by apply call_end_ok.
  - do 2 wstep. eapply wp_mono; [apply Hsl|]. intros [] k' H.
    eapply wp_mono; [by apply wait_loop_ok|]. intros r k2 H2. by apply call_end_ok.
  - do 2 wstep. eapply wp_mono; [apply Hsl|]. intros [] k' H.
    eapply wp_mono; [by apply wait2_loop_ok|]. intros r k2 H2. by apply call_end_ok.
  - do 2 wstep. eapply wp_mono; [apply Hsl|]. intros [] k' H.
    eapply wp_mono; [by apply join_loop_ok|]. intros r k2 H2. by apply call_end_ok.
  - do 2 wstep. eapply wp_mono; [apply Hsl|]. intros [] k' H.
    eapply wp_mono; [by apply sys_sleep_loop_ok|]. intros r k2 H2. by apply call_end_ok.
  - do 2 wstep. eapply wp_mono; [apply Hsl|]. intros [] k' H.
    destruct (running_slot _ _ _ _ H) as (p & Hp & _).
    eapply wp_conseq; [by eapply (sem_wait_loop_ok c me i count p)| |by intros ? []|done].
    intros r k2 (_ & H2 & _). by apply call_end_ok.
Qed.

(** ** Boot *)

Lemma tinv_boot q ncpu :
  p_state q = RUNNABLE -> p_pid q = 1 -> p_parent q = None -> p_kstack q <> 0 -> p_pgdir q <> 0 ->
  p_cwd q <> None -> length (p_ofile q) = NOFILE -> p_ctime q = 0 -> p_stime q = 0 ->
  p_retime q = 0 -> p_rutime q = 0 ->
  tinv (<[0%nat := q]> (replicate NPROC zero_proc)) 0 2 (Some 0%nat) (replicate ncpu None).
Proof using Type.
  intros Hst Hpid Hpar Hks Hpg Hcwd Hlen Hc Hs Hr Hu.
  assert (Hlk : forall i p, <[0%nat := q]> (replicate NPROC zero_proc) !! i = Some p ->
    (i = 0%nat /\ p = q) \/ p = zero_proc).
  { intros i p H. destruct (decide (i = 0%nat)) as [->|].
    - rewrite list_lookup_insert_eq in H by (rewrite length_replicate; unfold NPROC; lia). left; split; congruence.
    - rewrite list_lookup_insert_ne in H by done. apply lookup_replicate in H as [-> _]. by right. }
  split.
  - by rewrite length_insert, length_replicate.
  - lia.
  - intros i p [[-> ->]| ->]%Hlk.
    + unfold slot_ok, accounted. rewrite Hst, Hpid, Hc, Hs, Hr, Hu. naive_solver lia.
    + unfold slot_ok. simpl. repeat split; lia.
  - intros i j p p' [[-> ->]| ->]%Hlk [[-> ->]| ->]%Hlk Hup Hup' _; done || by destruct (Hup eq_refl) || by destruct (Hup' eq_refl).
  - intros i p r [[-> ->]| ->]%Hlk; [congruence|done].
  - intros i [= <-]. exists q. rewrite list_lookup_insert_eq by (rewrite length_replicate; unfold NPROC; lia).
    split; [done|]. split; [by right; left|done].
  - split; [|split].
    + intros c i H. by apply lookup_replicate in H as [? _].
    + intros i p [[-> ->]| ->]%Hlk; [congruence|done].
    + intros c c' i H. by apply lookup_replicate in H as [? _].
Qed.

Lemma userinit_ok v f ncpu :
  wp (userinit fa) (fun _ => kinv) (fun _ => False) foreign_panic (boot_state v f ncpu).
Proof.
  unfold userinit, allocproc. wsteps.
  replace (find_index (in_state UNUSED) (procs (boot_state v f ncpu))) with (Some 0%nat) by (by vm_compute).
  assert (Hz : procs (boot_state v f ncpu) !! 0%nat = Some zero_proc) by done.
  wsteps. destruct (Z.eqb_spec a 0) as [->|Ha]; wsteps.
  { apply wp_panic. unfold foreign_panic, proc_panics. set_solver. }
  destruct (Z.eqb_spec a0 0) as [->|Ha0]; wsteps.
  { apply wp_panic. unfold foreign_panic, proc_panics. set_solver. }
  split; ksimp; try done; [by apply tinv_boot|]. by apply (bool_decide_unpack (sched_wf sched_init)).
Qed.

(** ** Reachable states *)

Definition conts_ok (cs : list kcont) : Prop :=
  length cs = NPROC /\ forall i kc, cs !! i = Some kc -> kcont_ok kc.

Lemma conts_ok_insert cs me kc : conts_ok cs -> kcont_ok kc -> conts_ok (<[me := kc]> cs).
Proof using Type.
  intros [Hl Hc] Hk. split; [by rewrite length_insert|]. intros i kc' Hi.
  destruct (decide (i = me)) as [->|]; [|rewrite list_lookup_insert_ne in Hi by done; eauto].
  destruct (decide (me < length cs)%nat).
  - rewrite list_lookup_insert_eq in Hi by done. by simplify_eq.
  - rewrite list_insert_ge in Hi by lia. eauto.
Qed.

Lemma conts_ok_fresh k cs : kinv k -> conts_ok cs -> conts_ok (fresh_conts k cs).
Proof using Type.
  intros [Ht _ _ _ _] [Hl Hc]. unfold fresh_conts. split.
  - rewrite length_zip_with, (inv_len _ _ _ _ _ Ht), Hl. done.
  - intros i kc Hi. apply lookup_zip_with_Some in Hi as (p & kc' & -> & _ & Hkc).
    destruct (in_state UNUSED p); [done|eauto].
Qed.

(** What a kernel entry with [wp] does when it is known how it ends. *)
Lemma wp_Ret {A} (m : M (kstate V F) A) Q QA QP k a k' :
  wp m Q QA QP k -> m k = Ret a k' -> Q a k'.
Proof using Type. unfold wp. intros H E. by rewrite E in H. Qed.

Lemma wp_Asleep {A} (m : M (kstate V F) A) Q QA QP k k' :
  wp m Q QA QP k -> m k = Asleep k' -> QA k'.
Proof using Type. unfold wp. intros H E. by rewrite E in H. Qed.

Lemma cont_of_ok a k : kcont_ok (cont_of a k).
Proof using Type.
  destruct a; simpl; try done. destruct (sem_index sem) as [i|] eqn:E; [|done].
  by apply sem_index_Some in E as [? _].
Qed.

Definition sysinv (s : kstate V F * list kcont) : Prop := kinv (fst s) /\ conts_ok (snd s).

Lemma scheduler_dispatch c k me k1 :
  kinv k -> cpus k !! c = Some None -> scheduler c k = Ret (Some me) k1 ->
  running [lk_ptable] c me k1 /\ sema k1 = sema k /\
  exists p, procs k !! me = Some p /\ procs k1 = <[me := set_state RUNNING p]> (procs k).
Proof using Type.
  intros Hk Hc E. pose proof (scheduler_ok c (fun _ => True) (fun _ => True) k Hk Hc) as H.
  apply (wp_Ret _ _ _ _ _ _ _ H) in E. by destruct E as (? & _ & ? & ?).
Qed.

Lemma step_sysinv (ok : nat -> call -> kstate V F -> Prop) s s' :
  (forall me a k, ok me a k -> call_ok me a k) -> sysinv s -> step fa ok s s' -> sysinv s'.
Proof.
  intros Hok [Hk Hcs] Hstep.
  destruct Hstep as [c me a k cs k' Hc Ha E|c me a k cs k' Hc Ha E|c user k cs k' Hc E
    |c me user k cs k' Hc E|c ch user k cs k' Hc E|c me ch user k cs k' Hc E|c me k cs k' Hc E
    |c k cs k' Hc E|c me kc k cs k1 k' Hc E1 Hkc E|c me kc k cs k1 k' Hc E1 Hkc E]; simpl in *.
  - pose proof (trap_syscall_ok c me a k (conj Hk Hc) (Hok _ _ _ Ha)) as H.
    destruct (wp_Ret _ _ _ _ _ _ _ H E). split; [done|by apply conts_ok_fresh].
  - pose proof (trap_syscall_ok c me a k (conj Hk Hc) (Hok _ _ _ Ha)) as H.
    pose proof (wp_Asleep _ _ _ _ _ _ H E). split; [done|].
    apply conts_ok_insert; [by apply conts_ok_fresh|apply cont_of_ok].
  - pose proof (wp_Ret _ _ _ _ _ _ _ (trap_timer_ok c user k Hk) E). done.
  - pose proof (wp_Asleep _ _ _ _ _ _ (trap_timer_ok c user k Hk) E).
    split; [done|by apply conts_ok_insert].
  - pose proof (wp_Ret _ _ _ _ _ _ _ (trap_device_ok c ch user k Hk) E). done.
  - pose proof (wp_Asleep _ _ _ _ _ _ (trap_device_ok c ch user k Hk) E).
    split; [done|by apply conts_ok_insert].
  - pose proof (wp_Asleep _ _ _ _ _ _ (trap_fault_ok c me k (conj Hk Hc)) E).
    split; [done|by apply conts_ok_insert].
  - pose proof (wp_Ret _ _ _ _ _ _ _ (scheduler_ok c (fun _ => True) (fun _ => True) k Hk Hc) E) as [? _]. done.
  - destruct (scheduler_dispatch _ _ _ _ Hk Hc E1) as [Hr _].
    pose proof (resume_ok c me kc k1 Hr (proj2 Hcs _ _ Hkc)) as H.
    by destruct (wp_Ret _ _ _ _ _ _ _ H E).
  - destruct (scheduler_dispatch _ _ _ _ Hk Hc E1) as [Hr _].
    pose proof (resume_ok c me kc k1 Hr (proj2 Hcs _ _ Hkc)) as H.
    pose proof (wp_Asleep _ _ _ _ _ _ H E). done.
Qed.

Lemma reachable_sysinv (ok : nat -> call -> kstate V F -> Prop) s :
  (forall me a k, ok me a k -> call_ok me a k) -> reachable fa ok s -> sysinv s.
Proof.
  intros Hok. induction 1 as [v f ncpu k E|s s' _ IH Hstep]; [|by eapply step_sysinv].
  split; cbn [fst snd].
  - by apply (wp_Ret _ _ _ _ _ _ _ (userinit_ok v f ncpu)) in E.
  - split; [by rewrite length_replicate|]. intros i kc Hi. by apply lookup_replicate in Hi as [-> _].
Qed.

(** A kernel entry does not end in a panic of the process layer. *)
Definition no_proc_panic {A} (r : res (kstate V F) A) : Prop :=
  match r with Panic msg => foreign_panic msg | _ => True end.

Lemma wp_no_panic {A} (m : M (kstate V F) A) Q QA k :
  wp m Q QA foreign_panic k -> no_proc_panic (m k).
Proof using Type. unfold wp, no_proc_panic. by destruct (m k). Qed.
End Safety.

(** ** An instance of the interfaces

    Memory that never runs out and files without state. *)
#[export] Instance plain_vm : VmOps unit := {|
  vm_kalloc := mret PGSIZE; vm_kfree _ := mret tt; vm_setupkvm := mret PGSIZE;
  vm_inituvm _ := mret tt; vm_copyuvm _ _ := mret PGSIZE; vm_freevm _ := mret tt;
  vm_allocuvm _ _ newsz := mret newsz; vm_deallocuvm _ _ newsz := mret newsz;
  vm_store _ _ _ := mret tt |}.

#[export] Instance plain_files : FileOps unit := {|
  f_filedup _ := mret tt; f_fileclose _ := mret tt; f_idup _ := mret tt; f_iput _ := mret tt;
  f_begin_op := mret tt; f_end_op := mret tt; f_namei_root := mret (Some 0%nat) |}.

#[export] Instance plain_vm_laws : VmLaws unit.
Proof. by split. Qed.

#[export] Instance plain_file_laws : FileLaws unit.
Proof. by split. Qed.


