(* ===== verification/ProcClaims.v ===== *)
(** * What the process operations do

    The functional behaviour of [fork], [clone], [exit], [wait], [kill] and
    [getptable], and what holds of the process table in every reachable state
    of the system. *)
From S2P Require Import Prelude Cstring Proctab Sched Proc ProcInv ProcOps Sem System SystemInv.
Local Open Scope Z_scope.

(** ** A running system to evaluate on

    Two CPUs after boot, init dispatched on CPU 0. *)
Definition demo_boot : kstate unit unit :=
  match userinit 0 (boot_state tt tt 2) with Ret _ k => k | _ => boot_state tt tt 2 end.

Definition demo : kstate unit unit :=
  match (scheduler 0 ≫= fun _ => yield_return) demo_boot with Ret _ k => k | _ => demo_boot end.

Lemma demo_boot_kinv : kinv demo_boot.
Proof.
  pose proof (userinit_ok (V:=unit) (F:=unit) 0 tt tt 2) as H.
  apply (wp_Ret _ _ _ _ _ tt demo_boot H). vm_compute. reflexivity.
Qed.

Lemma demo_running : running [] 0 0 demo.
Proof.
  assert (H : wp (scheduler 0 ≫= fun _ => yield_return)
    (fun _ k => running [] 0 0 k) (fun _ => True) (fun _ => True) demo_boot).
  { apply wp_bind. eapply wp_mono; [apply scheduler_ok; [apply demo_boot_kinv|by vm_compute]|].
    intros [me|] k; [|intros (_ & _ & _ & H); specialize (H 0%nat); by vm_compute in H].
    intros (Hr & Hrun & _). assert (me = 0%nat) as ->.
    { destruct me as [|me]; [done|]. apply runnable_at_lookup in Hrun as (p & Hp & Hst).
      assert (Forall (fun p => p_state p = UNUSED) (drop 1 (procs demo_boot))) as Hall.
      { apply Forall_forall. intros x Hx. assert (x = zero_proc) as ->; [|done].
        assert (drop 1 (procs demo_boot) = replicate 63 zero_proc) as Hd by (by vm_compute).
        rewrite Hd in Hx. by apply elem_of_replicate in Hx as [-> _]. }
      rewrite Forall_lookup in Hall. specialize (Hall me p). rewrite lookup_drop in Hall.
      specialize (Hall Hp). congruence. }
    by apply yield_return_ok. }
  apply (wp_Ret _ _ _ _ _ tt demo H). vm_compute. reflexivity.
Qed.

(** The same state, reached by the transition system. *)
Lemma demo_reachable ok : reachable 0 ok (demo, replicate NPROC KUser).
Proof.
  apply (reach_step 0 ok (demo_boot, replicate NPROC KUser)).
  - apply (reach_boot 0 ok tt tt 2). vm_compute. reflexivity.
  - apply (step_dispatch 0 ok 0 0 KUser demo_boot (replicate NPROC KUser)
      (match scheduler 0 demo_boot with Ret _ k => k | _ => demo_boot end) demo);
      vm_compute; reflexivity.
Qed.

Definition demo_init : proc := default zero_proc (procs demo !! 0%nat).

Lemma demo_lookup : procs demo !! 0%nat = Some demo_init.
Proof. vm_compute. reflexivity. Qed.

Lemma demo_nextpid : nextpid demo < INT_MAX.
Proof. vm_compute. reflexivity. Qed.

Section Claims.
Context {V F : Type} `{!VmOps V, !FileOps F, !VmLaws V, !FileLaws F}.
Implicit Types k : kstate V F.

(** What [wait] leaves of a reaped child. *)
Definition reaped (p : proc) : proc :=
  set_state UNUSED (set_killed 0 (set_name (<[0%nat := 0]> (p_name p))
    (set_parent None (set_pid 0 (set_kstack 0 p))))).

Lemma wait_spec c me p k :
  running [] c me k -> procs k !! me = Some p ->
  wp (wait c)
    (fun r k' =>
       (exists i q, procs k !! i = Some q /\ p_parent q = Some me /\ p_state q = ZOMBIE /\
          r = p_pid q /\ procs k' = <[i := reaped q]> (procs k)) \/
       (r = -1 /\ procs k' = procs k /\
          (forall i q, procs k !! i = Some q -> p_parent q = Some me -> p_state q <> ZOMBIE) /\
          ((forall i q, procs k !! i = Some q -> p_parent q <> Some me) \/ p_killed p <> 0)))
    (fun k' => procs k' = <[me := set_state SLEEPING (set_chan (Some (chan_proc me)) p)]> (procs k) /\
       (forall i q, procs k !! i = Some q -> p_parent q = Some me -> p_state q <> ZOMBIE) /\
       (exists i q, procs k !! i = Some q /\ p_parent q = Some me) /\ p_killed p = 0)
    foreign_panic k.
Proof.
  intros Hr Hp. pose proof Hr as [[Ht Hs Hi Hm Hh] Hc]. unfold wait, wait_loop. wsteps.
  destruct (scan_kids _ _ _ _) as [i|b] eqn:E.
  - apply scan_kids_inl in E as (d & q & -> & Hq & Hsel & Hz). simpl. wsteps. left.
    exists d, q. split; [done|]. split; [by apply bool_decide_eq_true in Hsel|]. done.
  - apply scan_kids_inr in E as [Hnz Hb]. wsteps.
    assert (Hno : forall i q, procs k !! i = Some q -> p_parent q = Some me -> p_state q <> ZOMBIE).
    { intros i q Hq Hpar. apply Hnz; [by eapply list_elem_of_lookup_2|]. by apply bool_decide_eq_true. }
    simpl in Hb. destruct b; simpl.
    + symmetry in Hb. apply existsb_exists in Hb as (q & Hin & Hsel).
      apply list_elem_of_In, list_elem_of_lookup in Hin as [i Hq]. apply bool_decide_eq_true in Hsel.
      destruct (Z.eqb_spec (p_killed p) 0); simpl; wsteps.
      * eapply (wp_sleep c me _ _ p); [|done|].
        { split; [|done]. by split. }
        unfold asleep_on. ksimp. split; [done|]. split; [done|]. eauto.
      * right. do 3 (split; [done|]). by right.
    + wsteps. right. do 3 (split; [done|]). left. intros i q Hq Hpar.
      assert (existsb (child_of me) (procs k) = true) as He; [|congruence].
      apply existsb_exists. exists q. split; [by apply list_elem_of_In; eapply list_elem_of_lookup_2|].
      by apply bool_decide_eq_true.
Qed.

(** [kill] marks the first slot whose pid field is [pid]. *)
Lemma kill_spec pid k :
  kinv k ->
  wp (kill pid) (fun r k' =>
      match find_index (fun p => p_pid p =? pid) (procs k) with
      | Some i => r = 0 /\ exists p p', procs k !! i = Some p /\ k' = set_procs (<[i := p']> (procs k)) k /\
          p_killed p' = 1 /\ p_pid p' = p_pid p /\
          (p_state p = SLEEPING -> p_state p' = RUNNABLE) /\ (p_state p <> SLEEPING -> p_state p' = p_state p)
      | None => r = -1 /\ k' = k
      end) (fun _ => False) foreign_panic k.
Proof using Type.
  intros [Ht Hs Hi Hm Hh]. unfold kill. wsteps.
  destruct (find_index _ _) as [i|] eqn:E; wsteps; [|split; [done|by kext]].
  apply find_index_Some in E as [(p & Hp & _) _]. wsteps. split; [done|].
  eexists p, _. split; [done|]. split; [by kext|]. simpl.
  destruct (in_state SLEEPING (set_killed 1 p)) eqn:Ep; simpl.
  - apply in_state_true in Ep. simpl in Ep. done.
  - apply in_state_false in Ep. done.
Qed.

Lemma kill_zero_fork_spec fa c me i k :
  running [] c me k -> nextpid k < INT_MAX ->
  find_index (in_state UNUSED) (procs k) = Some i ->
  find_index (fun p => p_pid p =? 0) (procs k) = Some i ->
  wp (r0 ← kill 0; r ← fork fa c; mret (r0, r))
    (fun r k' => fst r = 0 /\ (snd r = -1 \/
       exists q, procs k' !! i = Some q /\ p_pid q = snd r /\ p_state q = RUNNABLE /\ p_killed q = 1))
    (fun _ => False) foreign_panic k.
Proof.
  intros Hr Hn Hfst Hpid. destruct (running_slot _ _ _ _ Hr) as (cur & Hcur & Hst). pose proof Hr as [Hk Hc].
  wstep. pose proof (kill_ok 0 (fun _ => False) foreign_panic k Hk) as Hok.
  pose proof (kill_spec 0 k Hk) as Hsp. rewrite Hpid in Hsp. unfold wp in *.
  destruct (kill 0 k) as [r1 k1| |]; [|done|done]. destruct Hok as [Hk1 Hc1].
  destruct Hsp as (-> & p & p' & Hp & -> & Hkill & Hpp & Hsl & Hns). simpl in Hc1.
  pose proof Hfst as [(p0 & Hp0 & Hun%in_state_true) Hbelow]%find_index_Some. simplify_eq.
  assert (me <> i) by congruence. rewrite Hun in Hns.
  assert (Hr1 : running [] c me (set_procs (<[i:=p']> (procs k)) k)) by done.
  pose proof (fork_ok fa c me cur (fun _ => False) _ Hr1 ltac:(ksimp; tlookup) Hn) as Hf.
  apply (wp_mono (fork fa c) (fun r => spawned (set_procs (<[i:=p']> (procs k)) k) _ r)
    (fun r k' => 0 = 0 /\ (r = -1 \/ exists q, procs k' !! i = Some q /\ p_pid q = r /\
       p_state q = RUNNABLE /\ p_killed q = 1))) in Hf.
  - revert Hf. unfold wp, mbind, M_bind. by destruct (fork fa c _).
  - intros r k' (_ & _ & [->|(-> & _ & np & q0 & q & Hq0 & _ & Hfnp & Hps & ks & pg & _ & _ & Hq)]); [auto|].
    split; [done|]. right. ksimp.
    assert (np = i) as ->.
    { assert (find_index (in_state UNUSED) (<[i:=p']> (procs k)) = Some i) as Hfi; [|congruence].
      apply find_index_Some. split.
      - exists p'. split; [tlookup|]. apply in_state_true, Hns. done.
      - intros j x Hj. rewrite list_lookup_insert_ne by lia. by apply Hbelow. }
    rewrite list_lookup_insert_eq in Hq0 by in_table. simplify_eq.
    exists (forked me cur pg (embryo fa (ticks k) (nextpid k) ks q0)). rewrite Hps.
    split; [by rewrite list_lookup_insert_eq by in_table|]. done.
Qed.
End Claims.

Lemma getptable_rows_take ps l i nproc :
  0 <= i ->
  getptable_rows ps l i nproc (nproc * sizeof_proc_us) =
  take (Z.to_nat (nproc - 1 - i)) (to_us ps <$> filter (fun p => p_state p <> UNUSED) l).
Proof.
  revert i. induction l as [|p l IH]; simpl; intros i Hi; [by rewrite take_nil|].
  replace ((i <? nproc) && (sizeof_proc_us * (i + 1) <? nproc * sizeof_proc_us)) with (i + 1 <? nproc).
  2: { unfold sizeof_proc_us. destruct (Z.ltb_spec (i + 1) nproc), (Z.ltb_spec i nproc); simpl; lia. }
  destruct (Z.ltb_spec (i + 1) nproc).
  - destruct (in_state UNUSED p) eqn:E.
    + apply in_state_true in E. rewrite filter_cons_False by tauto. by apply IH.
    + apply in_state_false in E. rewrite filter_cons_True by done. rewrite IH by lia.
      replace (Z.to_nat (nproc - 1 - i)) with (S (Z.to_nat (nproc - 1 - (i + 1)))) by lia. done.
  - replace (Z.to_nat (nproc - 1 - i)) with 0%nat by lia. done.
Qed.

(** C30: [fork] either fails with -1 or creates exactly one process, in the
    first free slot: its pid is the next one and is what the parent gets, it
    is runnable, its parent is the caller, its registers are the caller's with
    a zero result, its descriptors and working directory are the caller's; all
    other slots are untouched, and the invariant is kept.  It never sleeps. *)
Theorem fork_creates {V F : Type} `{!VmOps V, !FileOps F, !VmLaws V, !FileLaws F}
    (fa : Z) (c me : nat) (cur : proc) (k : kstate V F) (Hr : running [] c me k)
    (Hcur : procs k !! me = Some cur) (Hn : nextpid k < INT_MAX) :
  wp (fork fa c) (spawned k (fun np p q => exists ks pg, ks <> 0 /\ pg <> 0 /\
      q = forked me cur pg (embryo fa (ticks k) (nextpid k) ks p))) (fun _ => False) foreign_panic k.
Proof. by apply fork_ok. Qed.

Lemma fork_creates_witness :
  wp (fork 0 0) (spawned demo (fun np p q => exists ks pg, ks <> 0 /\ pg <> 0 /\
      q = forked 0 demo_init pg (embryo 0 (ticks demo) (nextpid demo) ks p)))
    (fun _ => False) foreign_panic demo.
Proof. exact (fork_creates 0 0 0 demo_init demo demo_running demo_lookup demo_nextpid). Defined.

(** C33: [clone] likewise creates exactly one process, a thread that shares the
    caller's page directory, starts at [func] and has its stack pointer two
    words below the top of the page [stack]. *)
Theorem clone_creates {V F : Type} `{!VmOps V, !FileOps F, !VmLaws V, !FileLaws F}
    (fa : Z) (c me : nat) (cur : proc) (func arg stack : Z) (k : kstate V F) (Hr : running [] c me k)
    (Hcur : procs k !! me = Some cur) (Hn : nextpid k < INT_MAX) :
  wp (clone fa c func arg stack) (spawned k (fun np p q => exists ks, ks <> 0 /\
      q = cloned me cur func stack (embryo fa (ticks k) (nextpid k) ks p))) (fun _ => False) foreign_panic k.
Proof. by apply clone_ok. Qed.

Lemma clone_creates_witness :
  wp (clone 0 0 4096 7 8192) (spawned demo (fun np p q => exists ks, ks <> 0 /\
      q = cloned 0 demo_init 4096 8192 (embryo 0 (ticks demo) (nextpid demo) ks p)))
    (fun _ => False) foreign_panic demo.
Proof. exact (clone_creates 0 0 0 demo_init 4096 7 8192 demo demo_running demo_lookup demo_nextpid). Defined.



(** C32: [wait] reaps a zombie child, returning its pid and emptying its slot,
    whenever there is one; otherwise it fails if the caller has no children or
    has been killed, and sleeps on itself if it has children. *)
Theorem wait_reaps {V F : Type} `{!VmOps V, !FileOps F, !VmLaws V, !FileLaws F}
    (c me : nat) (p : proc) (k : kstate V F) (Hr : running [] c me k) (Hp : procs k !! me = Some p) :
  wp (wait c)
    (fun r k' =>
       (exists i q, procs k !! i = Some q /\ p_parent q = Some me /\ p_state q = ZOMBIE /\
          r = p_pid q /\ procs k' = <[i := reaped q]> (procs k)) \/
       (r = -1 /\ procs k' = procs k /\
          (forall i q, procs k !! i = Some q -> p_parent q = Some me -> p_state q <> ZOMBIE) /\
          ((forall i q, procs k !! i = Some q -> p_parent q <> Some me) \/ p_killed p <> 0)))
    (fun k' => procs k' = <[me := set_state SLEEPING (set_chan (Some (chan_proc me)) p)]> (procs k) /\
       (forall i q, procs k !! i = Some q -> p_parent q = Some me -> p_state q <> ZOMBIE) /\
       (exists i q, procs k !! i = Some q /\ p_parent q = Some me) /\ p_killed p = 0)
    foreign_panic k.
Proof. by apply wait_spec. Qed.

Lemma wait_reaps_witness :
  wp (wait 0)
    (fun r k' =>
       (exists i q, procs demo !! i = Some q /\ p_parent q = Some 0%nat /\ p_state q = ZOMBIE /\
          r = p_pid q /\ procs k' = <[i := reaped q]> (procs demo)) \/
       (r = -1 /\ procs k' = procs demo /\
          (forall i q, procs demo !! i = Some q -> p_parent q = Some 0%nat -> p_state q <> ZOMBIE) /\
          ((forall i q, procs demo !! i = Some q -> p_parent q <> Some 0%nat) \/ p_killed demo_init <> 0)))
    (fun k' => procs k' = <[0%nat := set_state SLEEPING (set_chan (Some (chan_proc 0)) demo_init)]> (procs demo) /\
       (forall i q, procs demo !! i = Some q -> p_parent q = Some 0%nat -> p_state q <> ZOMBIE) /\
       (exists i q, procs demo !! i = Some q /\ p_parent q = Some 0%nat) /\ p_killed demo_init = 0)
    foreign_panic demo.
Proof. exact (wait_reaps 0 0 demo_init demo demo_running demo_lookup). Defined.

(** [kill(0)] succeeds on a free slot, whose pid field is 0, and the mark
    stays: when the first free slot is also the first with pid 0, the next
    [fork] returns a child that is born killed. *)
Lemma kill_zero_poisons {V F : Type} `{!VmOps V, !FileOps F, !VmLaws V, !FileLaws F}
    (fa : Z) (c me i : nat) (k : kstate V F) (Hr : running [] c me k) (Hn : nextpid k < INT_MAX)
    (Hfree : find_index (in_state UNUSED) (procs k) = Some i)
    (Hzero : find_index (fun p => p_pid p =? 0) (procs k) = Some i) :
  wp (r0 ← kill 0; r ← fork fa c; mret (r0, r))
    (fun r k' => fst r = 0 /\ (snd r = -1 \/
       exists q, procs k' !! i = Some q /\ p_pid q = snd r /\ p_state q = RUNNABLE /\ p_killed q = 1))
    (fun _ => False) foreign_panic k.
Proof. by apply (kill_zero_fork_spec fa c me). Qed.

(** [getptable] with a buffer of exactly [nproc] rows, as [sys_getptable]
    demands, returns the live processes in table order, but at most
    [nproc - 1] of them: the last row of the buffer is never written. *)
Lemma getptable_drops_last (ps : list proc) (nproc : Z) :
  getptable_rows ps ps 0 nproc (nproc * sizeof_proc_us) =
  take (Z.to_nat (nproc - 1)) (to_us ps <$> filter (fun p => p_state p <> UNUSED) ps).
Proof. rewrite getptable_rows_take by lia. by rewrite Z.sub_0_r. Qed.


Lemma demo_boot_reachable : reachable 0 call_ok (demo_boot, replicate NPROC KUser).
Proof. apply (reach_boot 0 _ tt tt 2). vm_compute. reflexivity. Qed.

