(* ===== verification/Frame.v ===== *)
(** * What a kernel entry leaves alone

    While one process runs in the kernel, no other process goes to sleep: a
    process that sleeps afterwards was asleep before, on the same channel; and
    only the semaphore calls change a semaphore.  This frame is what the
    argument that no wakeup is lost needs of all the other operations. *)
From S2P Require Import Prelude Cstring Proctab Sched Proc ProcInv ProcOps Sem System.
Local Open Scope Z_scope.

(** An update that puts nobody to sleep. *)
Definition no_new_sleep (p p' : proc) : Prop :=
  p_state p' = SLEEPING -> p_state p = SLEEPING /\ p_chan p' = p_chan p.

Lemma wake_one_no_new_sleep ch p : no_new_sleep p (wake_one ch p).
Proof. unfold no_new_sleep, wake_one. by destruct (_ && _). Qed.

Lemma update_stat_no_new_sleep p : no_new_sleep p (update_stat p).
Proof. unfold no_new_sleep, update_stat. destruct (p_state p) eqn:E; simpl; rewrite ?E; done. Qed.

Section Frame.
Context {V F : Type} `{!VmOps V, !FileOps F}.
Context (c me : nat) (x : option (option nat)) (k0 : kstate V F).
Notation K := (M (kstate V F)).
Implicit Types k : kstate V F.

(** The sleepers of [k] other than [me] were asleep in [k0]. *)
Definition frame (k : kstate V F) : Prop :=
  sema k = sema k0 /\
  forall q p', q <> me -> procs k !! q = Some p' -> p_state p' = SLEEPING ->
    exists p, procs k0 !! q = Some p /\ p_state p = SLEEPING /\ p_chan p = p_chan p'.

(** [m] keeps the frame, and [x] on CPU [c]. *)
Definition pres {A} (m : K A) : Prop :=
  forall k, frame k -> cpus k !! c = x ->
    wp m (fun _ k' => frame k' /\ cpus k' !! c = x) frame (fun _ => True) k.

(** ** Rules *)

Lemma frame_table k k' :
  frame k -> sema k' = sema k ->
  (forall q p', q <> me -> procs k' !! q = Some p' -> exists p, procs k !! q = Some p /\ no_new_sleep p p') ->
  frame k'.
Proof using Type.
  intros [Hs Hf] E Hp. split; [congruence|]. intros q p' Hq Hp' Hsl.
  destruct (Hp q p' Hq Hp') as (p & Hpq & Hn). destruct (Hn Hsl) as [Hsl' ->]. by apply (Hf q).
Qed.

Lemma frame_same k k' : frame k -> sema k' = sema k -> procs k' = procs k -> frame k'.
Proof using Type. intros [Hs Hf] E1 E2. split; [congruence|]. rewrite E2. done. Qed.

Lemma pres_ret {A} (a : A) : pres (mret a).
Proof using Type. by intros k. Qed.

Lemma pres_bind {A B} (m : K A) (f : A -> K B) : pres m -> (forall a, pres (f a)) -> pres (m ≫= f).
Proof using Type.
  intros Hm Hf k Hk Hc. apply wp_bind. eapply wp_conseq; [by apply Hm| |done|done].
  intros a k' [Hk' Hc']. by apply Hf.
Qed.

Lemma pres_myproc_any {B} (f : option nat -> K B) : pres (f (mjoin x)) -> pres (myproc c ≫= f).
Proof using Type.
  intros Hf k Hk Hc. apply wp_bind. unfold myproc. apply wp_gets. rewrite Hc. by apply Hf.
Qed.

Lemma pres_gets {A} (g : kstate V F -> A) : pres (gets g).
Proof using Type. by intros k. Qed.

Lemma pres_get : pres get.
Proof using Type. by intros k. Qed.

Lemma pres_panic {A} msg : pres (A:=A) (panic msg).
Proof using Type. by intros k. Qed.

Lemma pres_when b (m : K unit) : pres m -> pres (when b m).
Proof using Type. intros Hm. destruct b; [done|]. apply pres_ret. Qed.

Lemma pres_modify g :
  (forall k, sema (g k) = sema k /\ cpus (g k) = cpus k /\
     forall q p', procs (g k) !! q = Some p' -> exists p, procs k !! q = Some p /\ no_new_sleep p p') ->
  pres (modify g).
Proof using Type.
  intros Hg k Hk Hc. apply wp_modify. destruct (Hg k) as (Es & Ec & Hp). rewrite Ec. split; [|done].
  eapply frame_table; [done|done|]. intros q p' _. apply Hp.
Qed.

Lemma pres_acquire l : pres (acquire l).
Proof using Type.
  intros k Hk Hc. unfold wp, acquire. case_bool_decide; [done|]. split; [|done]. by eapply frame_same.
Qed.

Lemma pres_release l : pres (release l).
Proof using Type.
  intros k Hk Hc. unfold wp, release. case_bool_decide; [|done]. split; [|done]. by eapply frame_same.
Qed.

Lemma pres_slot i : pres (slot i).
Proof using Type. intros k Hk Hc. unfold wp, slot. by destruct (procs k !! i). Qed.

Lemma pres_upd i f : (forall p, no_new_sleep p (f p)) -> pres (upd i f).
Proof using Type.
  intros Hf. apply pres_modify. intros k. split; [done|]. split; [done|]. intros q p'. simpl.
  rewrite lookup_alter_cases. case_decide.
  - rewrite fmap_Some. intros (p & Hp & ->). eauto.
  - intros Hp. exists p'. split; [done|]. by intros ?.
Qed.

Lemma pres_upd_me f : pres (upd me f).
Proof using Type.
  intros k Hk Hc. unfold upd. apply wp_modify. split; [|done]. eapply frame_table; [done|done|].
  intros q p' Hq. simpl. rewrite lookup_alter_cases. case_decide; [done|]. intros Hp.
  exists p'. split; [done|]. by intros ?.
Qed.

Lemma pres_lift_vm {A} (m : M V A) : pres (lift_vm m).
Proof using Type.
  intros k Hk Hc. unfold wp, lift_vm. by destruct (m (vm k)).
Qed.

Lemma pres_lift_fs {A} (m : M F A) : pres (lift_fs m).
Proof using Type.
  intros k Hk Hc. unfold wp, lift_fs. by destruct (m (fs k)).
Qed.

Lemma pres_for_each {X} (l : list X) (body : X -> K unit) : (forall x, pres (body x)) -> pres (for_each l body).
Proof using Type. intros Hb. induction l; simpl; [apply pres_ret|]. by apply pres_bind. Qed.

End Frame.

Section Current.
Context {V F : Type} `{!VmOps V, !FileOps F}.
Context (c me : nat) (k0 : kstate V F).
Notation K := (M (kstate V F)).
Notation pres := (pres c me (Some (Some me)) k0).

Lemma pres_curproc {B} (f : nat -> K B) : pres (f me) -> pres (curproc c ≫= f).
Proof using Type. intros Hf k Hk Hc. apply wp_bind, (wp_curproc _ me); [done|]. by apply Hf. Qed.

Lemma pres_myproc {B} (f : option nat -> K B) : pres (f (Some me)) -> pres (myproc c ≫= f).
Proof using Type.
  intros Hf k Hk Hc. apply wp_bind. unfold myproc. apply wp_gets. rewrite Hc. by apply Hf.
Qed.

Lemma pres_sched : pres (sched c).
Proof using Type.
  intros k Hk Hc. unfold sched. apply wp_bind, (wp_curproc _ me); [done|]. apply wp_bind, wp_gets.
  destruct (negb _); [done|]. destruct (negb _); [done|]. apply wp_bind.
  unfold wp, slot. destruct (procs k !! me) as [p|]; [|done]. destruct (in_state RUNNING p); [done|].
  unfold set_cpu, release, mbind, M_bind. simpl. case_bool_decide; [|done]. by eapply frame_same.
Qed.
End Current.

(** Walk through a routine. *)
Ltac pstep :=
  lazymatch goal with
  | |- pres _ _ _ _ (curproc _ ≫= _) => apply pres_curproc
  | |- pres _ _ _ _ (myproc _ ≫= _) => apply pres_myproc
  | |- pres _ _ _ _ (_ ≫= _) => apply pres_bind; [|intros ?]
  | |- pres _ _ _ _ (mret _) => apply pres_ret
  | |- pres _ _ _ _ (gets _) => apply pres_gets
  | |- pres _ _ _ _ get => apply pres_get
  | |- pres _ _ _ _ (panic _) => apply pres_panic
  | |- pres _ _ _ _ (when _ _) => apply pres_when
  | |- pres _ _ _ _ (acquire _) => apply pres_acquire
  | |- pres _ _ _ _ (release _) => apply pres_release
  | |- pres _ _ _ _ (slot _) => apply pres_slot
  | |- pres _ _ _ _ (upd _ _) => first [apply pres_upd_me | apply pres_upd; intros ?; unfold no_new_sleep; simpl; by eauto]
  | |- pres _ _ _ _ (lift_vm _) => apply pres_lift_vm
  | |- pres _ _ _ _ (lift_fs _) => apply pres_lift_fs
  | |- pres _ _ _ _ (for_each _ _) => apply pres_for_each; intros ?
  | |- pres _ _ _ _ (sched _) => apply pres_sched
  | |- pres _ _ _ _ (match ?x with _ => _ end) => destruct x
  | |- pres _ _ _ _ (let _ := _ in _) => cbv zeta
  end.
Ltac psteps := repeat pstep.

Section AnyCpu.
Context {V F : Type} `{!VmOps V, !FileOps F}.
Context (c me : nat) (x : option (option nat)) (k0 : kstate V F).
Notation pres := (pres c me x k0).

Lemma pres_wakeup1 ch : pres (wakeup1 ch).
Proof using Type.
  apply pres_modify. intros k. split; [done|]. split; [done|]. intros q p'. simpl.
  rewrite list_lookup_fmap, fmap_Some. intros (p & Hp & ->). eauto using wake_one_no_new_sleep.
Qed.

Lemma pres_wakeup ch : pres (wakeup ch).
Proof using Type. unfold wakeup. psteps. apply pres_wakeup1. Qed.

Lemma pres_timer_interrupt : pres (timer_interrupt c).
Proof using Type.
  unfold timer_interrupt. psteps; try apply pres_wakeup.
  - apply pres_modify. intros k. split; [done|]. split; [done|]. intros q p' Hp. exists p'. split; [done|]. by intros ?.
  - apply pres_modify. intros k. split; [done|]. split; [done|]. intros q p'. simpl. unfold update_statistics.
    rewrite list_lookup_fmap, fmap_Some. intros (p & Hp & ->). eauto using update_stat_no_new_sleep.
Qed.

(** Interrupts on an idle CPU. *)
Lemma pres_trap_timer_idle user : x = Some None -> pres (trap_timer c user).
Proof.
  intros E. apply pres_bind; [apply pres_timer_interrupt|]. intros _. apply pres_myproc_any.
  rewrite E. apply pres_ret.
Qed.

Lemma pres_trap_device_idle ch user : x = Some None -> pres (trap_device c ch user).
Proof.
  intros E. apply pres_bind; [apply pres_wakeup|]. intros _. apply pres_myproc_any.
  rewrite E. apply pres_ret.
Qed.
End AnyCpu.

Section Ops.
Context {V F : Type} `{!VmOps V, !FileOps F}.
Context (c me : nat) (k0 : kstate V F).
Notation pres := (pres c me (Some (Some me)) k0).

Lemma pres_sleep ch lk : pres (sleep c ch lk).
Proof using Type. unfold sleep. psteps. Qed.

Lemma pres_sleep_return lk : pres (sleep_return c lk).
Proof using Type. unfold sleep_return. psteps. Qed.

Lemma pres_yield : pres (yield c).
Proof using Type. unfold yield. psteps. Qed.

Lemma pres_yield_return : pres yield_return.
Proof using Type. unfold yield_return. psteps. Qed.

Lemma pres_allocproc fa : pres (allocproc fa).
Proof. unfold allocproc. psteps. apply pres_modify. intros k.
  split; [done|]. split; [done|]. intros q p' Hp. exists p'. split; [done|]. by intros ?.
Qed.

Lemma pres_dup_files np : pres (dup_files me np).
Proof. unfold dup_files. psteps. Qed.

Lemma pres_dup_cwd np : pres (dup_cwd me np).
Proof. unfold dup_cwd. psteps. Qed.

Lemma pres_fork fa : pres (fork fa c).
Proof. unfold fork. psteps; auto using pres_allocproc, pres_dup_files, pres_dup_cwd. Qed.

Lemma pres_clone fa x y z : pres (clone fa c x y z).
Proof. unfold clone. psteps; auto using pres_allocproc, pres_dup_files, pres_dup_cwd. Qed.

Lemma pres_exit : pres (exit_ c).
Proof. unfold exit_, reparent_child. psteps; auto using pres_wakeup1. Qed.

Lemma pres_growproc n : pres (growproc c n).
Proof. unfold growproc, switchuvm. psteps. Qed.

Lemma pres_wait_loop : pres (wait_loop c).
Proof. unfold wait_loop. psteps; apply pres_sleep. Qed.

Lemma pres_wait2_loop x y z : pres (wait2_loop c x y z).
Proof. unfold wait2_loop. psteps; apply pres_sleep. Qed.

Lemma pres_join_loop x : pres (join_loop c x).
Proof. unfold join_loop. psteps; apply pres_sleep. Qed.

Lemma pres_kill pid : pres (kill pid).
Proof using Type.
  unfold kill. psteps. apply pres_upd. intros p. unfold no_new_sleep.
  destruct (in_state SLEEPING (set_killed 1 p)) eqn:E; [done|]. simpl. auto.
Qed.

Lemma pres_sys_sleep_loop n t : pres (sys_sleep_loop c n t).
Proof using Type. unfold sys_sleep_loop. psteps; apply pres_sleep. Qed.

Lemma pres_timer_yield : pres (timer_yield c).
Proof using Type. unfold timer_yield. psteps. apply pres_yield. Qed.

(** The system calls other than the four on semaphores. *)
Definition sem_call (a : call) : bool :=
  match a with
  | SysSemInit _ _ | SysSemDestroy _ | SysSemWait _ _ | SysSemSignal _ _ => true
  | _ => false
  end.

Lemma pres_exec_call fa a : sem_call a = false -> pres (exec_call fa c a).
Proof.
  intros Ha. destruct a; simpl in *; try done;
    auto using pres_fork, pres_clone, pres_kill.
  - psteps. apply pres_exit.
  - unfold wait. psteps. apply pres_wait_loop.
  - unfold wait2. psteps. apply pres_wait2_loop.
  - unfold join. psteps. apply pres_join_loop.
  - unfold sys_getpid. psteps.
  - unfold sys_getppid. psteps.
  - unfold sys_sbrk. psteps. apply pres_growproc.
  - unfold sys_sleep. psteps. apply pres_sys_sleep_loop.
  - unfold sys_uptime. psteps.
  - unfold sys_yield. psteps. apply pres_yield.
  - unfold setpriority. psteps.
  - unfold sys_getptable, getptable. psteps.
  - unfold sys_getscheduler. psteps.
  - unfold sys_setscheduler. psteps. apply pres_modify. intros k.
    split; [done|]. split; [done|]. intros q p' Hp. exists p'. split; [done|]. by intros ?.
Qed.

Lemma pres_exit_if_killed user : pres (exit_if_killed c user).
Proof. unfold exit_if_killed. psteps. apply pres_exit. Qed.

Lemma pres_set_result r : pres (set_result c r).
Proof using Type. unfold set_result. psteps. Qed.

Lemma pres_trap_syscall fa a : sem_call a = false -> pres (trap_syscall fa c a).
Proof.
  intros Ha. unfold trap_syscall.
  psteps; auto using pres_exit_if_killed, pres_exec_call, pres_set_result.
Qed.

Lemma pres_trap_timer user : pres (trap_timer c user).
Proof.
  unfold trap_timer. psteps; auto using pres_timer_interrupt, pres_exit_if_killed, pres_timer_yield.
Qed.

Lemma pres_trap_device ch user : pres (trap_device c ch user).
Proof. unfold trap_device. psteps; auto using pres_wakeup, pres_exit_if_killed. Qed.

Lemma pres_trap_fault : pres (trap_fault c).
Proof. unfold trap_fault. psteps. apply pres_exit_if_killed. Qed.
End Ops.
