(* ===== verification/SemClaims.v ===== *)
(** * No wakeup of a semaphore is lost

    In every reachable state of a system whose processes use the semaphores
    with non-negative counts and do not initialise one on which somebody
    sleeps, a process sleeps in [sem_wait] only while the value is smaller
    than the count it waits for. *)
From S2P Require Import Prelude Cstring Proctab Sched Proc ProcInv ProcOps Sem System SystemInv Frame ProcClaims.
Local Open Scope Z_scope.

Section Waiters.
Context {V F : Type} `{!VmOps V, !FileOps F, !VmLaws V, !FileLaws F}.
Context (fa : Z).
Implicit Types k : kstate V F.

(** Disciplined use of the semaphores. *)
Definition sem_disciplined (me : nat) (a : call) (k : kstate V F) : Prop :=
  call_ok me a k /\
  match a with
  | SysSemWait _ n => 0 <= n
  | SysSemInit sem _ => forall i q p, sem_index sem = Some i -> procs k !! q = Some p ->
      p_state p = SLEEPING -> p_chan p <> Some (chan_sem i)
  | _ => True
  end.

(** Process [q], if it sleeps in [sem_wait], has a reason to. *)
Definition waiter_ok (k : kstate V F) (q : nat) (kc : kcont) : Prop :=
  forall p i n, procs k !! q = Some p -> p_state p = SLEEPING -> kc = KSem i n ->
    p_chan p = Some (chan_sem i) /\ exists s, sema k !! i = Some s /\ sem_value s < n.

Definition others_ok (me : nat) (k : kstate V F) (cs : list kcont) : Prop :=
  forall q kc, q <> me -> cs !! q = Some kc -> waiter_ok k q kc.

Definition waiters_ok (k : kstate V F) (cs : list kcont) : Prop :=
  forall q kc, cs !! q = Some kc -> waiter_ok k q kc.

Lemma frame_others me k0 k cs : frame me k0 k -> others_ok me k0 cs -> others_ok me k cs.
Proof using Type.
  intros [Es Hf] Ho q kc Hq Hkc p i n Hp Hsl ->. destruct (Hf q p Hq Hp Hsl) as (p0 & Hp0 & Hsl0 & <-).
  rewrite Es. by eapply (Ho q (KSem i n)).
Qed.

Lemma others_all me k cs kc :
  others_ok me k cs -> cs !! me = Some kc -> waiter_ok k me kc -> waiters_ok k cs.
Proof using Type.
  intros Ho Hme Hw q kc' Hq. destruct (decide (q = me)) as [->|]; [|by apply Ho]. by simplify_eq.
Qed.

Lemma awake_ok k q p kc : procs k !! q = Some p -> p_state p <> SLEEPING -> waiter_ok k q kc.
Proof using Type. intros Hp Hn p' i n Hp' Hsl. congruence. Qed.

Lemma running_awake h c me k kc : running h c me k -> waiter_ok k me kc.
Proof using Type.
  intros (p & Hp & Hst)%running_slot. eapply awake_ok; [done|congruence].
Qed.

(** A semaphore whose value did not grow keeps its waiters waiting. *)
Lemma others_sem_step me k k' cs i s s' :
  others_ok me k cs -> sema k !! i = Some s -> sem_step i s' k k' -> sem_value s' <= sem_value s ->
  others_ok me k' cs.
Proof using Type.
  intros Ho Hs -> Hle q kc Hq Hkc p j n Hp Hsl ->.
  destruct (Ho q (KSem j n) Hq Hkc p j n Hp Hsl eq_refl) as (Hch & sj & Hsj & Hlt). split; [done|]. ksimp.
  destruct (decide (i = j)) as [->|].
  - simplify_eq. exists s'. rewrite list_lookup_insert_eq by (by eapply lookup_lt_Some). split; [done|lia].
  - exists sj. by rewrite list_lookup_insert_ne.
Qed.

(** A semaphore without sleepers may change at will. *)
Lemma others_sem_free me k k' cs i s' :
  others_ok me k cs -> sem_step i s' k k' ->
  (forall q p, procs k !! q = Some p -> p_state p = SLEEPING -> p_chan p <> Some (chan_sem i)) ->
  others_ok me k' cs.
Proof using Type.
  intros Ho -> Hno q kc Hq Hkc p j n Hp Hsl ->.
  destruct (Ho q (KSem j n) Hq Hkc p j n Hp Hsl eq_refl) as (Hch & sj & Hsj & Hlt). split; [done|]. ksimp.
  destruct (decide (i = j)) as [->|]; [by destruct (Hno q p)|].
  exists sj. by rewrite list_lookup_insert_ne.
Qed.

Lemma s32_le z : 0 <= z -> s32 z <= z.
Proof using Type. unfold s32. lia. Qed.

(** One attempt of [sem_wait], with the semaphore's lock held. *)
Lemma sem_wait_loop_waiters c me i n cs QP k :
  running [lk_sem i] c me k -> (i < MAX_SEMA_NUM)%nat -> 0 <= n -> others_ok me k cs ->
  wp (sem_wait_loop c i n) (fun _ k' => running [] c me k' /\ others_ok me k' cs)
    (fun k' => others_ok me k' cs /\ waiter_ok k' me (KSem i n)) QP k.
Proof using Type.
  intros Hr Hi Hn Ho. destruct (running_slot _ _ _ _ Hr) as (p & Hp & Hst).
  eapply wp_conseq; [by apply (sem_wait_loop_ok c me i n p)| | |done].
  - intros r k' (_ & Hr' & s & Hs & Hle & Hstep). split; [done|].
    eapply (others_sem_step me (set_held [] k)); [|done|done|].
    + intros q kc Hq Hkc. by apply (Ho q kc).
    + simpl. pose proof (s32_le (sem_value s - n)). lia.
  - intros k' (Hk' & -> & s & Hs & Hlt). split.
    + intros q kc Hq Hkc p' j m Hp' Hsl ->. unfold asleep_on in Hp'. ksimp.
      rewrite list_lookup_insert_ne in Hp' by done. by apply (Ho q (KSem j m)).
    + intros p' j m Hp' _ [= <- <-]. unfold asleep_on in *. ksimp.
      rewrite list_lookup_insert_eq in Hp' by in_table. simplify_eq. split; [done|eauto].
Qed.

Lemma exec_sem_waiters c me a cs k :
  running [] c me k -> sem_disciplined me a k -> sem_call a = true -> others_ok me k cs ->
  wp (exec_call fa c a) (fun _ k' => running [] c me k' /\ others_ok me k' cs)
    (fun k' => others_ok me k' cs /\ waiter_ok k' me (cont_of a k)) foreign_panic k.
Proof.
  intros Hr [_ Ha] Hsem Ho. pose proof Hr as [Hk Hc]. destruct a; try done; simpl in *.
  - eapply wp_conseq; [by apply (sem_init_ok sem value (fun _ => False) (fun _ => False))| |done|done].
    intros r k'. destruct (sem_index sem) as [i|] eqn:E; [|by intros [_ ->]].
    intros (_ & Hk' & s & Hs & Hstep). split; [rewrite Hstep; split; [by rewrite <- Hstep|done]|].
    eapply others_sem_free; [done|done|]. intros q p. by apply Ha.
  - eapply wp_conseq; [by apply (sem_destroy_ok sem (fun _ => False) (fun _ => False))| |done|done].
    intros r k'. destruct (sem_index sem) as [i|] eqn:E; [|by intros [_ ->]].
    intros (_ & Hk' & s & Hs & Hstep). split; [rewrite Hstep; split; [by rewrite <- Hstep|done]|].
    by eapply others_sem_step.
  - unfold sem_wait. destruct (sem_index sem) as [i|] eqn:E; [|by wsteps].
    apply sem_index_Some in E as [Hlt _]. pose proof Hk as [Ht Hs Hi Hm Hh]. wsteps.
    eapply wp_conseq; [eapply (sem_wait_loop_waiters c me i count cs foreign_panic)|done|done|done]; try done.
  - eapply wp_conseq; [by apply (sem_signal_ok sem count (fun _ => False) (fun _ => False))| |done|done].
    intros r k'. destruct (sem_index sem) as [i|] eqn:E; [|by intros [_ ->]].
    intros (_ & Hk' & s & Hs & Hstep). split; [rewrite Hstep; split; [by rewrite <- Hstep|done]|].
    eapply others_sem_free; [|done|].
    + intros q kc Hq Hkc p' j n Hp' Hsl ->. ksimp. rewrite list_lookup_fmap, fmap_Some in Hp'.
      destruct Hp' as (p & Hp & ->). destruct (wake_one_no_new_sleep _ _ Hsl) as [Hsl' ->].
      by apply (Ho q (KSem j n) Hq Hkc p j n).
    + intros q p'. ksimp. rewrite list_lookup_fmap, fmap_Some. intros (p & Hp & ->) Hsl Hch.
      revert Hsl Hch. unfold wake_one. destruct (_ && _) eqn:Ew; [done|]. intros Hsl Hch.
      rewrite (proj2 (in_state_true _ _) Hsl), bool_decide_eq_true_2 in Ew; done.
Qed.

(** [exit] leaves its caller a zombie. *)
Lemma exit_if_killed_waiters c me user cs k :
  running [] c me k -> others_ok me k cs ->
  wp (exit_if_killed c user) (fun _ k' => k' = k)
    (fun k' => others_ok me k' cs /\ forall kc, waiter_ok k' me kc) (fun _ => True) k.
Proof.
  intros Hr Ho. destruct (running_slot _ _ _ _ Hr) as (p & Hp & Hst). pose proof Hr as [Hk Hc].
  unfold exit_if_killed. wsteps. apply wp_when; intros _; [|done].
  assert (Hf : frame me k k).
  { split; [done|]. intros q p' _ Hq Hsl. eauto. }
  eapply wp_conseq; [apply wp_and; [by apply (exit_ok c me (fun _ _ => False))|by apply (pres_exit c me k)]| | |done].
  - by intros [] k' [[] _].
  - intros k' [(_ & _ & (q & Hq & Hz & _) & _) Hfr]. split; [by eapply frame_others|].
    intros kc. eapply awake_ok; [done|congruence].
Qed.

Lemma call_end_waiters c me r cs k :
  running [] c me k -> others_ok me k cs ->
  wp (set_result c r;; exit_if_killed c true) (fun _ k' => others_ok me k' cs)
    (fun k' => others_ok me k' cs /\ forall kc, waiter_ok k' me kc) (fun _ => True) k.
Proof.
  intros Hr Ho. wstep.
  assert (Hf : frame me k k) by (split; [done|]; intros q p' _ Hq Hsl; eauto).
  eapply wp_conseq; [apply wp_and; [by apply (set_result_ok c me r (fun _ => False) (fun _ => False))
    |by apply (pres_set_result c me k r); [|apply Hr]]| |by intros ? []|done].
  intros [] k1 [Hr1 [Hf1 _]].
  eapply wp_conseq; [apply (exit_if_killed_waiters c me true cs k1 Hr1); by eapply frame_others| |done|done].
  intros [] k2 ->. by eapply frame_others.
Qed.

Lemma trap_sem_waiters c me a cs k :
  running [] c me k -> sem_disciplined me a k -> sem_call a = true -> others_ok me k cs ->
  wp (trap_syscall fa c a) (fun _ k' => others_ok me k' cs)
    (fun k' => others_ok me k' cs /\ waiter_ok k' me (cont_of a k)) (fun _ => True) k.
Proof.
  intros Hr Ha Hsem Ho. unfold trap_syscall. wstep.
  eapply wp_conseq; [by apply (exit_if_killed_waiters c me true cs)| |by intros k' [? ?]|done].
  intros [] k' ->. wstep. eapply wp_conseq; [by apply (exec_sem_waiters c me a cs)| |done|done].
  intros r k1 [Hr1 Ho1]. eapply wp_conseq; [by apply (call_end_waiters c me r cs)|done| |done].
  by intros k2 [? ?].
Qed.

Lemma resume_waiters c me kc cs k :
  running [lk_ptable] c me k -> kcont_ok kc -> (forall i n, kc = KSem i n -> 0 <= n) -> others_ok me k cs ->
  wp (resume c kc) (fun _ k' => others_ok me k' cs)
    (fun k' => others_ok me k' cs /\ waiter_ok k' me kc) (fun _ => True) k.
Proof.
  intros Hr Hkc Hn Ho.
  assert (Hf : frame me k k) by (split; [done|]; intros q p' _ Hq Hsl; eauto).
  assert (Hplain : (forall i n, kc <> KSem i n) -> pres c me (Some (Some me)) k (resume c kc) ->
    wp (resume c kc) (fun _ k' => others_ok me k' cs)
      (fun k' => others_ok me k' cs /\ waiter_ok k' me kc) (fun _ => True) k).
  { intros Hno Hp. eapply wp_conseq; [by apply Hp; [|apply Hr]| | |done].
    - intros [] k' [? _]. by eapply frame_others.
    - intros k' ?. split; [by eapply frame_others|]. intros p i n _ _ ->. by destruct (Hno i n). }
  destruct kc as [| | | | | | |i n]; try (apply Hplain; [done|]; simpl; psteps;
    auto using pres_yield_return, pres_exit_if_killed, pres_sleep_return, pres_wait_loop,
      pres_wait2_loop, pres_join_loop, pres_sys_sleep_loop, pres_set_result).
  simpl. do 2 wstep. eapply wp_conseq; [apply wp_and; [by apply (sleep_return_ok c me (lk_sem i) (fun _ => False) (fun _ => False))
    |by apply (pres_sleep_return c me k (lk_sem i)); [|apply Hr]]| |by intros ? []|done].
  intros [] k1 [Hr1 [Hf1 _]].
  eapply wp_conseq; [apply (sem_wait_loop_waiters c me i n cs (fun _ => True)); [done|done|by eapply Hn|by eapply frame_others]| |done|done].
  intros r k2 [Hr2 Ho2]. eapply wp_conseq; [by apply (call_end_waiters c me r cs)|done| |done].
  by intros k3 [? ?].
Qed.

(** ** The invariant of the disciplined system *)

Definition counts_ok (cs : list kcont) : Prop := forall q i n, cs !! q = Some (KSem i n) -> 0 <= n.

Definition seminv (s : kstate V F * list kcont) : Prop :=
  sysinv s /\ counts_ok (snd s) /\ waiters_ok (fst s) (snd s).

Lemma lookup_set_cont (cs : list kcont) me kc q kc' :
  <[me := kc]> cs !! q = Some kc' -> (q = me /\ kc' = kc) \/ (q <> me /\ cs !! q = Some kc') .
Proof using Type.
  intros H. destruct (decide (q = me)) as [->|]; [|rewrite list_lookup_insert_ne in H by done; auto].
  destruct (decide (me < length cs)%nat) as [|Hge].
  - rewrite list_lookup_insert_eq in H by done. left. split; congruence.
  - rewrite list_insert_ge in H by lia. apply lookup_lt_Some in H. lia.
Qed.

Lemma counts_set cs me kc :
  counts_ok cs -> (forall i n, kc = KSem i n -> 0 <= n) -> counts_ok (<[me := kc]> cs).
Proof using Type.
  intros Hc Hkc q i n [[_ E]|[_ E]]%lookup_set_cont; [by eapply Hkc|by eapply Hc].
Qed.

Lemma waiters_set k cs me kc :
  others_ok me k cs -> waiter_ok k me kc -> waiters_ok k (<[me := kc]> cs).
Proof using Type.
  intros Ho Hw q kc' [[-> ->]|[Hq E]]%lookup_set_cont; [done|by apply Ho].
Qed.

(** The entries of [fresh_conts] are old ones, or of a new process. *)
Lemma fresh_lookup k cs q i n :
  fresh_conts k cs !! q = Some (KSem i n) -> cs !! q = Some (KSem i n).
Proof using Type.
  unfold fresh_conts. rewrite lookup_zip_with_Some. intros (p & kc & E & _ & Hkc).
  destruct (in_state UNUSED p); congruence.
Qed.

Lemma counts_fresh k cs : counts_ok cs -> counts_ok (fresh_conts k cs).
Proof using Type. intros Hc q i n H%fresh_lookup. by eapply Hc. Qed.

Lemma others_fresh me k k' cs : others_ok me k' cs -> others_ok me k' (fresh_conts k cs).
Proof using Type.
  intros Ho q kc Hq Hkc p i n Hp Hsl ->. apply fresh_lookup in Hkc. by eapply (Ho q (KSem i n)).
Qed.

Lemma waiters_others me k cs : waiters_ok k cs -> others_ok me k cs.
Proof using Type. intros Hw q kc _. apply Hw. Qed.

(** A running process that is done with the kernel. *)
Lemma waiters_running c me k cs : others_ok me k cs -> running [] c me k -> waiters_ok k cs.
Proof using Type.
  intros Ho Hr q kc Hkc. destruct (decide (q = me)) as [->|]; [by eapply running_awake|by apply Ho].
Qed.

Lemma frame_refl me k : frame me k k.
Proof using Type. split; [done|]. intros q p' _ Hq Hsl. eauto. Qed.

(** The disciplined system call, returning or sleeping. *)
Lemma trap_syscall_waiters c me a cs k :
  running [] c me k -> sem_disciplined me a k -> others_ok me k cs ->
  wp (trap_syscall fa c a) (fun _ k' => others_ok me k' cs)
    (fun k' => others_ok me k' cs /\ waiter_ok k' me (cont_of a k)) (fun _ => True) k.
Proof.
  intros Hr Ha Ho. destruct (sem_call a) eqn:E; [by apply trap_sem_waiters|].
  eapply wp_conseq; [by apply (pres_trap_syscall c me k fa a); [|apply frame_refl|apply Hr]| | |done].
  - intros [] k' [Hf _]. by eapply frame_others.
  - intros k' Hf. split; [by eapply frame_others|]. intros p i n _ _ Hkc. by destruct a.
Qed.

(** An interrupt on a CPU, whatever it runs. *)
Lemma interrupt_waiters (m : M (kstate V F) unit) c k cs k' :
  kinv k -> kinv k' -> waiters_ok k cs -> length cs = NPROC -> (c < length (cpus k))%nat ->
  (forall me, pres c me (Some (Some me)) k m) ->
  (cpus k !! c = Some None -> pres c NPROC (Some None) k m) ->
  m k = Ret tt k' -> waiters_ok k' cs.
Proof using Type.
  intros Hk Hk' Hw Hl Hlt Hrun Hidle E.
  destruct (lookup_lt_is_Some_2 (cpus k) c Hlt) as [[me|] Hc].
  - destruct (wp_Ret _ _ _ _ _ _ _ (Hrun me k (frame_refl me k) Hc) E) as [Hf Hc'].
    eapply (waiters_running c me); [|done]. by eapply frame_others, waiters_others.
  - destruct (wp_Ret _ _ _ _ _ _ _ (Hidle Hc k (frame_refl NPROC k) Hc) E) as [Hf _].
    intros q kc Hkc. eapply (frame_others NPROC k); [done|by apply waiters_others| |done].
    apply lookup_lt_Some in Hkc. lia.
Qed.

(** A kernel entry other than a system call that leaves the CPU. *)
Lemma away_waiters (m : M (kstate V F) unit) c me kc k cs k' :
  counts_ok cs -> waiters_ok k cs -> cpus k !! c = Some (Some me) ->
  pres c me (Some (Some me)) k m -> (forall i n, kc <> KSem i n) -> m k = Asleep k' ->
  counts_ok (<[me := kc]> cs) /\ waiters_ok k' (<[me := kc]> cs).
Proof using Type.
  intros Hcnt Hw Hc Hp Hkc E. pose proof (wp_Asleep _ _ _ _ _ _ (Hp k (frame_refl me k) Hc) E) as Hf.
  split; [apply counts_set; [done|by intros i n []%Hkc]|].
  apply waiters_set; [by eapply frame_others, waiters_others|]. by intros p i n _ _ []%Hkc.
Qed.

(** The scheduler's choice, up to the switch. *)
Lemma dispatch_waiters c me k cs k1 :
  kinv k -> cpus k !! c = Some None -> scheduler c k = Ret (Some me) k1 -> waiters_ok k cs ->
  running [lk_ptable] c me k1 /\ others_ok me k1 cs.
Proof using Type.
  intros Hk Hc E Hw. destruct (scheduler_dispatch _ _ _ _ Hk Hc E) as (Hr & Es & p & Hp & Ep).
  split; [done|]. intros q kc Hq Hkc r i n. rewrite Ep, Es, list_lookup_insert_ne by done. by apply (Hw q kc).
Qed.

(** One system call. *)
Lemma call_step_waiters c me a k cs k' :
  running [] c me k -> sem_disciplined me a k -> counts_ok cs -> waiters_ok k cs ->
  (trap_syscall fa c a k = Ret tt k' ->
     counts_ok (fresh_conts k cs) /\ waiters_ok k' (fresh_conts k cs)) /\
  (trap_syscall fa c a k = Asleep k' ->
     counts_ok (<[me := cont_of a k]> (fresh_conts k cs)) /\
     waiters_ok k' (<[me := cont_of a k]> (fresh_conts k cs))).
Proof.
  intros Hr Ha Hcnt Hw. pose proof (trap_syscall_waiters c me a cs k Hr Ha (waiters_others me _ _ Hw)) as Ht.
  split; intros E.
  - pose proof (wp_Ret _ _ _ _ _ _ _ Ht E).
    pose proof (wp_Ret _ _ _ _ _ _ _ (trap_syscall_ok fa c me a k Hr (proj1 Ha)) E).
    split; [by apply counts_fresh|]. eapply (waiters_running c me); [by apply others_fresh|done].
  - pose proof (wp_Asleep _ _ _ _ _ _ Ht E) as [Ho Hme].
    split; [|apply waiters_set; [by apply others_fresh|done]].
    apply counts_set; [by apply counts_fresh|]. intros i n Ei. destruct a; try done; simpl in Ei.
    destruct (sem_index sem); simplify_eq. apply Ha.
Qed.

Lemma step_seminv s s' : seminv s -> step fa sem_disciplined s s' -> seminv s'.
Proof.
  intros (Hinv & Hcnt & Hw) Hstep.
  assert (Hinv' : sysinv s') by (eapply step_sysinv; [|done|done]; by intros me a k [? _]).
  split; [done|]. destruct Hinv as [Hk [Hl Hcs]], Hinv' as [Hk' _].
  destruct Hstep as [c me a k cs k' Hc Ha E|c me a k cs k' Hc Ha E|c user k cs k' Hc E
    |c me user k cs k' Hc E|c ch user k cs k' Hc E|c me ch user k cs k' Hc E|c me k cs k' Hc E
    |c k cs k' Hc E|c me kc k cs k1 k' Hc E1 Hkc E|c me kc k cs k1 k' Hc E1 Hkc E]; simpl in *.
  - by apply (call_step_waiters c me a k cs k').
  - by apply (call_step_waiters c me a k cs k').
  - split; [done|]. eapply (interrupt_waiters (trap_timer c user) c k); try done.
    + intros me. apply pres_trap_timer.
    + intros _. by apply pres_trap_timer_idle.
  - by eapply away_waiters; [| | |apply pres_trap_timer| |].
  - split; [done|]. eapply (interrupt_waiters (trap_device c ch user) c k); try done.
    + intros me. apply pres_trap_device.
    + intros _. by apply pres_trap_device_idle.
  - by eapply away_waiters; [| | |apply pres_trap_device| |].
  - by eapply away_waiters; [| | |apply pres_trap_fault| |].
  - split; [done|].
    destruct (wp_Ret _ _ _ _ _ _ _ (scheduler_ok c (fun _ => True) (fun _ => True) k Hk Hc) E) as (_ & Ep & Es & _).
    intros q kc Hkc p i n. rewrite Ep, Es. by apply (Hw q kc).
  - split; [done|]. destruct (dispatch_waiters _ _ _ _ _ Hk Hc E1 Hw) as [Hr Ho].
    assert (Hn : forall i n, kc = KSem i n -> 0 <= n) by (intros i n ->; by eapply Hcnt).
    pose proof (wp_Ret _ _ _ _ _ _ _ (resume_waiters c me kc cs k1 Hr (Hcs _ _ Hkc) Hn Ho) E).
    eapply (waiters_running c me); [done|].
    by apply (wp_Ret _ _ _ _ _ _ _ (resume_ok c me kc k1 Hr (Hcs _ _ Hkc)) E).
  - split; [done|]. destruct (dispatch_waiters _ _ _ _ _ Hk Hc E1 Hw) as [Hr Ho].
    assert (Hn : forall i n, kc = KSem i n -> 0 <= n) by (intros i n ->; by eapply Hcnt).
    pose proof (wp_Asleep _ _ _ _ _ _ (resume_waiters c me kc cs k1 Hr (Hcs _ _ Hkc) Hn Ho) E) as [? ?].
    by eapply others_all.
Qed.

Lemma reachable_seminv s : reachable fa sem_disciplined s -> seminv s.
Proof.
  induction 1 as [v f ncpu k E|s s' _ IH Hstep]; [|by eapply step_seminv].
  assert (Hr : reachable fa sem_disciplined (k, replicate NPROC KUser)) by (by eapply reach_boot).
  split; [by eapply reachable_sysinv; [|done]; intros me a k1 [? _]|].
  split; intros q; [intros i n H|intros kc H p i n _ _ ->]; by apply lookup_replicate in H as [? _].
Qed.
End Waiters.


(** init waits for a unit of semaphore 0, whose value is 0. *)
Definition demo_wait : kstate unit unit :=
  match trap_syscall 0 0 (SysSemWait 0 1) demo with Asleep k => k | _ => demo end.

Definition demo_conts : list kcont := <[0%nat := KSem 0 1]> (fresh_conts demo (replicate NPROC KUser)).

Lemma demo_wait_reachable : reachable 0 sem_disciplined (demo_wait, demo_conts).
Proof.
  apply (reach_step 0 sem_disciplined (demo, replicate NPROC KUser)); [apply demo_reachable|].
  apply (step_call_sleep 0 sem_disciplined 0 0 (SysSemWait 0 1) demo (replicate NPROC KUser) demo_wait).
  - apply demo_running.
  - split; [exact I|]. by vm_compute.
  - vm_compute. reflexivity.
Qed.

Definition demo_sys : kstate unit unit * list kcont := (demo_wait, demo_conts).
Definition demo_waiter : proc := default zero_proc (procs (fst demo_sys) !! 0%nat).

