(* ===== verification/Pipe.v ===== *)
(** * Pipes

    [pipe.c]: the ring buffer with its two free-running counters, [pipewrite],
    [piperead] and [pipeclose], and a pipe with the threads that use it as a
    transition system with [sleep]/[wakeup] on its two channels. *)
From S2P Require Import Prelude.
Local Open Scope Z_scope.

Definition PIPESIZE : Z := 512.

Record pipe := mkPipe {
  data : list Z;
  nread : Z;
  nwrite : Z;
  readopen : Z;
  writeopen : Z
}.

Definition set_open (r w : Z) (p : pipe) : pipe := mkPipe (data p) (nread p) (nwrite p) r w.

(** A pipe as [pipealloc] initialises it; the page from [kalloc] holds [junk]. *)
Definition new_pipe (junk : list Z) : pipe := mkPipe junk 0 0 1 1.

(** ** The ring buffer *)

(** [p->nwrite == p->nread + PIPESIZE] *)
Definition pipe_full (p : pipe) : bool := nwrite p =? u32 (nread p + PIPESIZE).
Definition pipe_empty (p : pipe) : bool := nread p =? nwrite p.

(** [p->data[p->nwrite++ % PIPESIZE] = b;] *)
Definition put_byte (b : Z) (p : pipe) : pipe :=
  mkPipe (<[Z.to_nat (nwrite p mod PIPESIZE) := b]> (data p)) (nread p) (u32 (nwrite p + 1))
    (readopen p) (writeopen p).

(** [addr[i] = p->data[p->nread++ % PIPESIZE];] *)
Definition get_byte (p : pipe) : Z * pipe :=
  (default 0 (data p !! Z.to_nat (nread p mod PIPESIZE)),
   mkPipe (data p) (u32 (nread p + 1)) (nwrite p) (readopen p) (writeopen p)).

(** The write loop up to the first byte that does not fit. *)
Fixpoint write_bytes (bytes : list Z) (p : pipe) : pipe * list Z :=
  match bytes with
  | [] => (p, [])
  | b :: rest => if pipe_full p then (p, bytes) else write_bytes rest (put_byte b p)
  end.

(** The copy loop of [piperead]. *)
Fixpoint read_bytes (n : nat) (p : pipe) : list Z * pipe :=
  match n with
  | O => ([], p)
  | S n' =>
      if pipe_empty p then ([], p)
      else let (b, p1) := get_byte p in let (bs, p2) := read_bytes n' p1 in (b :: bs, p2)
  end.

(** ** The operations, from entry or from the return of [sleep()]

    Each runs with [p->lock] held.  The result says which channels were woken
    and whether the call returned or sleeps. *)
Inductive outcome :=
| Returns (r : Z) (bytes : list Z)
| SleepsOnRead
| SleepsOnWrite (rest : list Z).

Record effect := mkEffect {
  after : pipe;
  wake_nread : bool;
  wake_nwrite : bool;
  out : outcome
}.

(** [n] is the count of the call, [bytes] what it has still to write. *)
Definition pipewrite (n : Z) (bytes : list Z) (killed : bool) (p : pipe) : effect :=
  match write_bytes bytes p with
  | (p', []) => mkEffect p' true false (Returns n [])
  | (p', rest) =>
      if (readopen p' =? 0) || killed then mkEffect p' false false (Returns (-1) [])
      else mkEffect p' true false (SleepsOnWrite rest)
  end.

Definition piperead (n : Z) (killed : bool) (p : pipe) : effect :=
  if pipe_empty p && negb (writeopen p =? 0) then
    if killed then mkEffect p false false (Returns (-1) [])
    else mkEffect p false false SleepsOnRead
  else
    let (bs, p') := read_bytes (Z.to_nat n) p in
    mkEffect p' false true (Returns (Z.of_nat (length bs)) bs).

(** The pipe after [pipeclose], [None] when its page is freed. *)
Definition pipeclose (writable : bool) (p : pipe) : option pipe * (bool * bool) :=
  let p' := if writable then set_open (readopen p) 0 p else set_open 0 (writeopen p) p in
  (if (readopen p' =? 0) && (writeopen p' =? 0) then None else Some p', (writable, negb writable)).

(** ** Invariant and contents *)

Definition count (p : pipe) : Z := u32 (nwrite p - nread p).

Definition pipe_ok (p : pipe) : Prop :=
  length (data p) = Z.to_nat PIPESIZE /\ is_u32 (nread p) /\ is_u32 (nwrite p) /\ count p <= PIPESIZE.

(** The bytes in the pipe, oldest first. *)
Definition contents (p : pipe) : list Z :=
  (fun j : nat => default 0 (data p !! Z.to_nat ((nread p + Z.of_nat j) mod PIPESIZE)))
    <$> seq 0 (Z.to_nat (count p)).

Lemma count_range p : 0 <= count p < 2 ^ 32.
Proof. apply u32_range. Qed.

Lemma pipe_full_iff p : pipe_ok p -> pipe_full p = true <-> count p = PIPESIZE.
Proof.
  unfold pipe_ok, pipe_full, count, is_u32, u32, PIPESIZE. rewrite Z.eqb_eq. lia.
Qed.

Lemma pipe_empty_iff p : pipe_ok p -> pipe_empty p = true <-> count p = 0.
Proof. unfold pipe_ok, pipe_empty, count, is_u32, u32, PIPESIZE. rewrite Z.eqb_eq. lia. Qed.

Lemma length_contents p : length (contents p) = Z.to_nat (count p).
Proof. unfold contents. by rewrite length_fmap, length_seq. Qed.

Lemma put_byte_ok b p : pipe_ok p -> pipe_full p = false -> pipe_ok (put_byte b p).
Proof.
  intros Hok Hf. assert (count p <> PIPESIZE) by (intros E; apply pipe_full_iff in E; congruence).
  destruct Hok as (Hl & Hr & Hw & Hc). unfold pipe_ok, put_byte, count, is_u32, u32, PIPESIZE in *. simpl.
  rewrite length_insert. split; [done|]. lia.
Qed.

Lemma put_byte_count b p : pipe_ok p -> pipe_full p = false -> count (put_byte b p) = count p + 1.
Proof.
  intros Hok Hf. assert (count p <> PIPESIZE) by (intros E; apply pipe_full_iff in E; congruence).
  destruct Hok as (Hl & Hr & Hw & Hc). unfold put_byte, count, is_u32, u32, PIPESIZE in *. simpl. lia.
Qed.

(** Positions of the ring: the writer's slot is the one past the contents, and
    no two of the 512 positions collide. *)
Lemma ring_slot p j :
  pipe_ok p -> 0 <= j < PIPESIZE ->
  ((nread p + j) mod PIPESIZE = nwrite p mod PIPESIZE <-> j = count p \/ (count p = PIPESIZE /\ j = 0)).
Proof.
  unfold pipe_ok, count, is_u32, u32, PIPESIZE. intros (_ & Hr & Hw & Hc) Hj.
  split; lia.
Qed.

Lemma contents_put b p :
  pipe_ok p -> pipe_full p = false -> contents (put_byte b p) = contents p ++ [b].
Proof.
  intros Hok Hf. pose proof (put_byte_count b p Hok Hf) as Hcnt.
  pose proof (count_range p) as Hr.
  assert (Hlt : count p < PIPESIZE).
  { pose proof Hok as (_ & _ & _ & ?). assert (count p <> PIPESIZE); [|lia].
    intros E. apply pipe_full_iff in E; [congruence|done]. }
  assert (Hidx : forall j : nat, (Z.of_nat j < PIPESIZE) ->
    Z.to_nat ((nread p + Z.of_nat j) mod PIPESIZE) = Z.to_nat (nwrite p mod PIPESIZE) <-> Z.of_nat j = count p).
  { intros j Hj. rewrite Z2Nat.inj_iff by (unfold PIPESIZE; lia). rewrite ring_slot by (done || lia). lia. }
  unfold contents. rewrite Hcnt. simpl.
  replace (Z.to_nat (count p + 1)) with (Z.to_nat (count p) + 1)%nat by lia.
  rewrite seq_app, fmap_app. simpl. f_equal.
  - apply list_fmap_ext. intros j x Hx. apply lookup_seq in Hx as [-> Hx]. simpl.
    rewrite list_lookup_insert_ne; [done|]. intros E. symmetry in E. apply Hidx in E; lia.
  - f_equal. rewrite (proj2 (Hidx (Z.to_nat (count p)) ltac:(lia))) by lia.
    rewrite list_lookup_insert_eq; [done|]. destruct Hok as (-> & _). unfold PIPESIZE. lia.
Qed.

Lemma contents_get p :
  pipe_ok p -> pipe_empty p = false ->
  contents p = fst (get_byte p) :: contents (snd (get_byte p)) /\ pipe_ok (snd (get_byte p)).
Proof.
  intros Hok He.
  assert (count p <> 0) by (intros E; apply pipe_empty_iff in E; [congruence|done]).
  pose proof (count_range p) as Hr. pose proof Hok as (Hl & Hrd & Hwr & Hc).
  assert (Hcnt : count (snd (get_byte p)) = count p - 1).
  { unfold count, get_byte, is_u32, u32, PIPESIZE in *. simpl. lia. }
  split.
  - unfold contents. rewrite Hcnt.
    replace (Z.to_nat (count p)) with (S (Z.to_nat (count p - 1))) by lia. simpl. f_equal.
    + by rewrite Z.add_0_r.
    + rewrite <- seq_shift, <- list_fmap_compose. apply list_fmap_ext. intros j x _. simpl.
      do 2 f_equal. unfold u32, PIPESIZE. f_equal. lia.
  - unfold pipe_ok. rewrite Hcnt. unfold get_byte, is_u32, u32, PIPESIZE in *. simpl. lia.
Qed.

Arguments get_byte : simpl never.
Arguments put_byte : simpl never.

(** ** The loops against a bounded queue *)

Lemma write_bytes_spec bytes p :
  pipe_ok p ->
  let r := write_bytes bytes p in
  pipe_ok (fst r) /\ readopen (fst r) = readopen p /\ writeopen (fst r) = writeopen p /\
  (exists done, bytes = done ++ snd r /\ contents (fst r) = contents p ++ done) /\
  (snd r <> [] -> pipe_full (fst r) = true).
Proof.
  revert p. induction bytes as [|b bytes IH]; intros p Hok; simpl.
  - do 3 (split; [done|]). split; [|done]. exists []. split; [done|]. by rewrite app_nil_r.
  - destruct (pipe_full p) eqn:Ef; simpl.
    + do 3 (split; [done|]). split; [|done]. exists []. split; [done|]. by rewrite app_nil_r.
    + destruct (IH (put_byte b p)) as (H1 & H2 & H3 & (dn & Eb & H4) & H5); [by apply put_byte_ok|].
      split; [exact H1|]. split; [exact H2|]. split; [exact H3|]. split; [|exact H5].
      exists (b :: dn). split; [by rewrite Eb at 1|].
      rewrite H4, contents_put by done. by rewrite <- app_assoc.
Qed.

Lemma read_bytes_spec n p :
  pipe_ok p ->
  let r := read_bytes n p in
  pipe_ok (snd r) /\ readopen (snd r) = readopen p /\ writeopen (snd r) = writeopen p /\
  fst r = take n (contents p) /\ contents (snd r) = drop n (contents p).
Proof.
  revert p. induction n as [|n IH]; intros p Hok; cbn [read_bytes].
  - simpl. by rewrite drop_0.
  - destruct (pipe_empty p) eqn:Ee.
    + assert (contents p = []) as Ec.
      { apply length_zero_iff_nil. rewrite length_contents. apply pipe_empty_iff in Ee; [lia|done]. }
      simpl. by rewrite Ec.
    + destruct (contents_get p Hok Ee) as [-> Hok']. destruct (get_byte p) as [b p1] eqn:Eg. cbn [fst snd] in *.
      assert (readopen p1 = readopen p /\ writeopen p1 = writeopen p) as [Er Ew].
      { unfold get_byte in Eg. by injection Eg as <- <-. }
      destruct (IH p1 Hok') as (H1 & H2 & H3 & H4 & H5). destruct (read_bytes n p1) as [bs p2]. simpl in *.
      split; [done|]. split; [congruence|]. split; [congruence|]. by rewrite H4.
Qed.

(** ** A pipe and its threads *)

Inductive task := TIdle | TWrite (n : Z) (rest : list Z) | TRead (n : Z).
Inductive status := TRun | TSleepRead | TSleepWrite.

#[export] Instance status_eq_dec : EqDecision status.
Proof. solve_decision. Defined.

Record thread := mkThread { t_task : task; t_status : status; t_killed : bool }.

(** [sent] and [received] record what went into the pipe and what reads returned. *)
Record psys := mkSys { pp : pipe; threads : list thread; sent : list Z; received : list Z }.

Definition wake_thread (e : effect) (t : thread) : thread :=
  if (wake_nread e && bool_decide (t_status t = TSleepRead)) ||
     (wake_nwrite e && bool_decide (t_status t = TSleepWrite))
  then mkThread (t_task t) TRun (t_killed t) else t.

(** The caller after its step: back in user mode, or asleep. *)
Definition caller_after (e : effect) (t : thread) : thread :=
  match out e with
  | Returns _ _ => mkThread TIdle TRun (t_killed t)
  | SleepsOnRead => mkThread (t_task t) TSleepRead (t_killed t)
  | SleepsOnWrite rest =>
      mkThread (match t_task t with TWrite n _ => TWrite n rest | x => x end) TSleepWrite (t_killed t)
  end.

Definition apply_effect (i : nat) (t : thread) (e : effect) (ts : list thread) : list thread :=
  <[i := caller_after e t]> (wake_thread e <$> ts).

Definition received_by (e : effect) : list Z := match out e with Returns _ bs => bs | _ => [] end.

(** The end of the pipe that a call uses is open. *)
Definition holds_open (k : task) (p : pipe) : Prop :=
  match k with TIdle => True | TWrite _ _ => writeopen p <> 0 | TRead _ => readopen p <> 0 end.

Definition after_call (i : nat) (t : thread) (k : task) (s : psys) : psys :=
  mkSys (pp s) (<[i := mkThread k TRun (t_killed t)]> (threads s)) (sent s) (received s).

Definition after_write (i : nat) (t : thread) (n : Z) (bytes : list Z) (s : psys) : psys :=
  let e := pipewrite n bytes (t_killed t) (pp s) in
  mkSys (after e) (apply_effect i t e (threads s))
    (sent s ++ take (length bytes - length (snd (write_bytes bytes (pp s)))) bytes) (received s).

Definition after_read (i : nat) (t : thread) (n : Z) (s : psys) : psys :=
  let e := piperead n (t_killed t) (pp s) in
  mkSys (after e) (apply_effect i t e (threads s)) (sent s) (received s ++ received_by e).

Definition after_kill (i : nat) (t : thread) (s : psys) : psys :=
  mkSys (pp s) (<[i := mkThread (t_task t) TRun true]> (threads s)) (sent s) (received s).

(** [kills]: whether processes are killed while they use the pipe.  A thread
    inside a read or write holds the file open, so that end is not closed. *)
Inductive pstep (kills : bool) : psys -> psys -> Prop :=
| ps_call i t k s :
    threads s !! i = Some t -> t_task t = TIdle -> holds_open k (pp s) ->
    pstep kills s (after_call i t k s)
| ps_write i t n bytes s :
    threads s !! i = Some t -> t_task t = TWrite n bytes -> t_status t = TRun ->
    pstep kills s (after_write i t n bytes s)
| ps_read i t n s :
    threads s !! i = Some t -> t_task t = TRead n -> t_status t = TRun ->
    pstep kills s (after_read i t n s)
| ps_close writable p' w s :
    pipeclose writable (pp s) = (Some p', w) ->
    (forall i t, threads s !! i = Some t -> holds_open (t_task t) p') ->
    pstep kills s (mkSys p' (wake_thread (mkEffect p' (fst w) (snd w) (Returns 0 [])) <$> threads s)
      (sent s) (received s))
| ps_kill i t s :
    kills = true -> threads s !! i = Some t ->
    pstep kills s (after_kill i t s).

Inductive preach (kills : bool) : psys -> Prop :=
| pr_init junk n : length junk = Z.to_nat PIPESIZE ->
    preach kills (mkSys (new_pipe junk) (replicate n (mkThread TIdle TRun false)) [] [])
| pr_step s s' : preach kills s -> pstep kills s s' -> preach kills s'.

(** *** First in, first out *)

Definition fifo_inv (s : psys) : Prop :=
  pipe_ok (pp s) /\ received s ++ contents (pp s) = sent s.

Lemma new_pipe_ok junk : length junk = Z.to_nat PIPESIZE -> pipe_ok (new_pipe junk).
Proof. intros Hl. unfold pipe_ok, new_pipe, count, is_u32, u32, PIPESIZE in *. simpl. lia. Qed.

Lemma pipewrite_after n bytes killed p : after (pipewrite n bytes killed p) = fst (write_bytes bytes p).
Proof. unfold pipewrite. destruct (write_bytes bytes p) as [p' [|b r]]; [done|]. by destruct (_ || _). Qed.

Lemma pstep_fifo kills s s' : fifo_inv s -> pstep kills s s' -> fifo_inv s'.
Proof.
  intros [Hok Hf] Hstep. destruct Hstep as [i t k s _ _ _|i t n bytes s _ _ _|i t n s _ _ _
    |writable p' w s E _|i t s _ _]; unfold fifo_inv in *; simpl; [done| | | |done].
  - rewrite pipewrite_after.
    destruct (write_bytes_spec bytes (pp s) Hok) as (Hok' & _ & _ & (dn & Eb & Ec) & _).
    split; [done|]. rewrite Ec, app_assoc, Hf. f_equal.
    apply (f_equal length) in Eb as El. rewrite length_app in El. rewrite Eb at 3.
    rewrite take_app_length'; [done|lia].
  - unfold piperead. destruct (_ && _).
    + destruct (t_killed t); simpl; by rewrite app_nil_r.
    + destruct (read_bytes_spec (Z.to_nat n) (pp s) Hok) as (Hok' & _ & _ & E1 & E2).
      destruct (read_bytes _ _) as [bs p']. simpl in *. subst bs. split; [done|].
      unfold received_by. simpl. by rewrite E2, <- app_assoc, take_drop.
  - unfold pipeclose in E. destruct (_ && _); [done|]. injection E as <- <-.
    by destruct writable.
Qed.

Lemma preach_fifo kills s : preach kills s -> fifo_inv s.
Proof.
  induction 1 as [junk n Hl|s s' _ IH Hs]; [|by eapply pstep_fifo].
  split; [by apply new_pipe_ok|]. done.
Qed.

(** *** No lost wakeup *)

(** A thread sleeps only for a reason that still holds. *)
Definition thread_ok (p : pipe) (t : thread) : Prop :=
  t_killed t = false /\ holds_open (t_task t) p /\
  (t_status t = TSleepRead -> (exists n, t_task t = TRead n) /\ pipe_empty p = true /\ writeopen p <> 0) /\
  (t_status t = TSleepWrite -> (exists n r, t_task t = TWrite n r) /\ pipe_full p = true /\ readopen p <> 0).

Definition awake_inv (s : psys) : Prop :=
  pipe_ok (pp s) /\ forall i t, threads s !! i = Some t -> thread_ok (pp s) t.

Lemma write_bytes_full bytes p : pipe_full p = true -> write_bytes bytes p = (p, bytes).
Proof. intros Hf. destruct bytes; simpl; [done|]. by rewrite Hf. Qed.

(** A running thread is fine in any pipe whose end it uses is open. *)
Lemma thread_ok_run p t :
  t_killed t = false -> holds_open (t_task t) p -> t_status t = TRun -> thread_ok p t.
Proof. intros Hk Ho Hs. split; [done|]. split; [done|]. rewrite Hs. done. Qed.

(** A step of thread [i] that leaves the open flags alone is safe for the
    others if every sleeper is woken or its reason remains. *)
Lemma effect_ok s i t e :
  awake_inv s -> threads s !! i = Some t -> pipe_ok (after e) ->
  readopen (after e) = readopen (pp s) -> writeopen (after e) = writeopen (pp s) ->
  (forall j u, threads s !! j = Some u -> t_status u = TSleepRead -> wake_nread e = false ->
     pipe_empty (pp s) = true -> writeopen (pp s) <> 0 -> holds_open (t_task u) (pp s) -> (exists n, t_task u = TRead n) ->
     pipe_empty (after e) = true) ->
  (wake_nwrite e = false -> pipe_full (pp s) = true -> pipe_full (after e) = true) ->
  thread_ok (after e) (caller_after e t) ->
  forall j u, apply_effect i t e (threads s) !! j = Some u -> thread_ok (after e) u.
Proof.
  intros [Hok Hth] Hi Hok' Er Ew HR HW Hme j u. unfold apply_effect.
  destruct (decide (j = i)) as [->|Hne].
  { rewrite list_lookup_insert_eq; [by intros [= <-]|]. rewrite length_fmap. by eapply lookup_lt_Some. }
  rewrite list_lookup_insert_ne by done. rewrite list_lookup_fmap, fmap_Some.
  intros (v & Hv & ->). destruct (Hth _ _ Hv) as (Hk & Ho & Hr & Hw).
  assert (Ho' : holds_open (t_task v) (after e)).
  { unfold holds_open in *. by rewrite Er, Ew. }
  unfold wake_thread. destruct (_ || _) eqn:E; [by apply thread_ok_run|].
  apply orb_false_iff in E as [E1 E2]. split; [done|]. split; [done|]. split; intros Hs.
  - destruct (Hr Hs) as (Hn & He & Hwo). split; [done|]. rewrite bool_decide_eq_true_2, andb_true_r in E1 by done.
    rewrite Ew. split; [|done]. by eapply HR.
  - destruct (Hw Hs) as (Hn & He & Hro). split; [done|]. rewrite (bool_decide_eq_true_2 (_ = TSleepWrite)), andb_true_r in E2 by done.
    rewrite Er. split; [|done]. by apply HW.
Qed.

Lemma write_awake s i t n bytes :
  awake_inv s -> threads s !! i = Some t -> t_task t = TWrite n bytes ->
  let e := pipewrite n bytes (t_killed t) (pp s) in
  pipe_ok (after e) /\ forall j u, apply_effect i t e (threads s) !! j = Some u -> thread_ok (after e) u.
Proof.
  intros Hinv Hi Ht e. pose proof Hinv as [Hok Hth]. destruct (Hth _ _ Hi) as (Hk & Ho & _).
  destruct (write_bytes_spec bytes (pp s) Hok) as (Hok' & Er & Ew & _ & Hfull).
  assert (Ea : after e = fst (write_bytes bytes (pp s))) by apply pipewrite_after.
  split; [by rewrite Ea|].
  assert (Hcase : wake_nwrite e = false /\
    (wake_nread e = false -> readopen (after e) = 0) /\ thread_ok (after e) (caller_after e t)).
  { subst e. unfold pipewrite, caller_after in *. rewrite Hk. rewrite Ht in Ho. simpl in Ho.
    destruct (write_bytes bytes (pp s)) as [p' [|b r]] eqn:Ewb; simpl in *.
    - split; [done|]. split; [done|]. by apply thread_ok_run.
    - rewrite orb_false_r. destruct (Z.eqb_spec (readopen p') 0); simpl.
      + split; [done|]. split; [done|]. by apply thread_ok_run.
      + split; [done|]. split; [done|]. rewrite Ht. split; [done|]. split; [simpl; congruence|]. simpl.
        split; [done|]. intros _. split; [by eauto|]. split; [by apply Hfull|done]. }
  destruct Hcase as (Hnw & Hnr & Hme).
  apply effect_ok; try done; rewrite ?Ea in *; try done.
  - intros j u Hj Hs Hwk _ _ Ho' [m Hm]. rewrite Hm in Ho'. simpl in Ho'.
    rewrite <- Er, Hnr in Ho' by done. done.
  - intros _ Hf. by rewrite write_bytes_full.
Qed.

Lemma read_awake s i t n :
  awake_inv s -> threads s !! i = Some t -> t_task t = TRead n ->
  let e := piperead n (t_killed t) (pp s) in
  pipe_ok (after e) /\ forall j u, apply_effect i t e (threads s) !! j = Some u -> thread_ok (after e) u.
Proof.
  intros Hinv Hi Ht e. pose proof Hinv as [Hok Hth]. destruct (Hth _ _ Hi) as (Hk & Ho & _).
  subst e. unfold piperead. rewrite Hk. rewrite Ht in Ho. simpl in Ho.
  destruct (pipe_empty (pp s) && negb (writeopen (pp s) =? 0)) eqn:E.
  - apply andb_true_iff in E as [He Hw%negb_true_iff%Z.eqb_neq]. split; [done|].
    eapply effect_ok; eauto; simpl; try done. split; [done|]. split; [simpl; by rewrite Ht|]. split; [|done].
    intros _. split; [by eauto|done].
  - destruct (read_bytes_spec (Z.to_nat n) (pp s) Hok) as (Hok' & Er & Ew & _).
    destruct (read_bytes _ _) as [bs p']. simpl in *. split; [done|].
    eapply effect_ok; eauto; simpl; try done.
    intros j u Hj Hs _ He Hw _ _. apply Z.eqb_neq in Hw. by rewrite He, Hw in E.
Qed.

Lemma close_awake s writable p' w :
  awake_inv s -> pipeclose writable (pp s) = (Some p', w) ->
  (forall i t, threads s !! i = Some t -> holds_open (t_task t) p') ->
  pipe_ok p' /\ forall j u, (wake_thread (mkEffect p' (fst w) (snd w) (Returns 0 [])) <$> threads s) !! j = Some u ->
    thread_ok p' u.
Proof.
  intros [Hok Hth] E Hopen. unfold pipeclose in E. destruct (_ && _); [done|]. injection E as Ep <-.
  split; [by destruct writable; subst p'|]. intros j u. rewrite list_lookup_fmap, fmap_Some.
  intros (v & Hv & ->). destruct (Hth _ _ Hv) as (Hk & Ho & Hr & Hw). pose proof (Hopen _ _ Hv) as Ho'.
  unfold wake_thread. destruct (_ || _) eqn:E; [by apply thread_ok_run|].
  apply orb_false_iff in E as [E1 E2]. simpl in *. split; [done|]. split; [done|]. split; intros Hs.
  - destruct (Hr Hs) as (Hn & He & Hwo). rewrite bool_decide_eq_true_2, andb_true_r in E1 by done. subst writable p'.
    split; [done|]. done.
  - destruct (Hw Hs) as (Hn & He & Hro). rewrite (bool_decide_eq_true_2 (_ = TSleepWrite)), andb_true_r in E2 by done.
    apply negb_false_iff in E2. subst writable p'. split; [done|]. done.
Qed.

Lemma pstep_awake s s' : awake_inv s -> pstep false s s' -> awake_inv s'.
Proof.
  intros Hinv Hstep. pose proof Hinv as [Hok Hth]. destruct Hstep as [i t k s Hi Ht Ho|i t n bytes s Hi Ht Hs
    |i t n s Hi Ht Hs|writable p' w s E Ho|i t s Hk _]; [| | | |done].
  - split; [done|]. simpl. intros j u. destruct (decide (j = i)) as [->|].
    + rewrite list_lookup_insert_eq by (by eapply lookup_lt_Some). intros [= <-]. apply thread_ok_run; try done.
      simpl. by destruct (Hth _ _ Hi).
    + rewrite list_lookup_insert_ne by done. apply Hth.
  - by eapply write_awake.
  - by eapply read_awake.
  - by eapply close_awake.
Qed.

Lemma preach_awake s : preach false s -> awake_inv s.
Proof.
  induction 1 as [junk n Hl|s s' _ IH Hs]; [|by eapply pstep_awake].
  split; [by apply new_pipe_ok|]. simpl. intros i t H. apply lookup_replicate in H as [-> _].
  by apply thread_ok_run.
Qed.

(** ** Claims *)

(** C18: a pipe is first in, first out and loses nothing: in every reachable
    state, whatever its threads do (kills included), the bytes that reads have
    returned followed by the bytes in the ring are exactly the bytes that were
    written, across any number of wrap-arounds of the two counters. *)
Theorem pipe_fifo (kills : bool) (s : psys) (Hs : preach kills s) :
  pipe_ok (pp s) /\ received s ++ contents (pp s) = sent s.
Proof. exact (preach_fifo kills s Hs). Qed.

(** Two threads; the first writes three bytes and the second reads two. *)
Definition idle : thread := mkThread TIdle TRun false.
Definition demo0 : psys := mkSys (new_pipe (replicate 512 0)) (replicate 2 idle) [] [].
Definition demo1 : psys := after_call 0 idle (TWrite 3 [10; 20; 30]) demo0.
Definition demo2 : psys := after_write 0 (mkThread (TWrite 3 [10; 20; 30]) TRun false) 3 [10; 20; 30] demo1.
Definition demo3 : psys := after_call 1 idle (TRead 2) demo2.
Definition demo4 : psys := after_read 1 (mkThread (TRead 2) TRun false) 2 demo3.

Lemma demo4_reachable kills : preach kills demo4.
Proof.
  apply (pr_step kills demo3); [apply (pr_step kills demo2); [apply (pr_step kills demo1);
    [apply (pr_step kills demo0); [apply pr_init; reflexivity|]|]|]|].
  - by apply ps_call.
  - by apply ps_write.
  - by apply ps_call.
  - by apply ps_read.
Qed.

Lemma pipe_fifo_witness :
  received demo4 = [10; 20] /\ contents (pp demo4) = [30] /\
  (pipe_ok (pp demo4) /\ received demo4 ++ contents (pp demo4) = sent demo4).
Proof.
  split; [vm_compute; reflexivity|]. split; [vm_compute; reflexivity|].
  exact (pipe_fifo true demo4 (demo4_reachable true)).
Defined.

(** C29: no wakeup is lost while no process is killed: a reader sleeps only in
    front of an empty pipe with an open write end, a writer only in front of a
    full one with an open read end. *)
Theorem pipe_no_lost_wakeup (s : psys) (Hs : preach false s) (i : nat) (t : thread)
    (Hi : threads s !! i = Some t) :
  (t_status t = TSleepRead -> contents (pp s) = [] /\ writeopen (pp s) <> 0) /\
  (t_status t = TSleepWrite -> length (contents (pp s)) = Z.to_nat PIPESIZE /\ readopen (pp s) <> 0).
Proof.
  destruct (preach_awake s Hs) as [Hok Hth]. destruct (Hth i t Hi) as (_ & _ & Hr & Hw). split; intros E.
  - destruct (Hr E) as (_ & He & ?). split; [|done]. apply length_zero_iff_nil.
    rewrite length_contents. apply pipe_empty_iff in He; [lia|done].
  - destruct (Hw E) as (_ & Hf & ?). split; [|done]. rewrite length_contents.
    apply pipe_full_iff in Hf; [by rewrite Hf|done].
Qed.

(** A reader that sleeps in front of the new pipe. *)
Definition demo5 : psys := after_call 1 idle (TRead 2) demo0.
Definition demo6 : psys := after_read 1 (mkThread (TRead 2) TRun false) 2 demo5.

Lemma demo6_reachable kills : preach kills demo6.
Proof.
  apply (pr_step kills demo5); [apply (pr_step kills demo0); [apply pr_init; reflexivity|]|].
  - by apply ps_call.
  - by apply ps_read.
Qed.

Lemma pipe_no_lost_wakeup_witness :
  t_status (mkThread (TRead 2) TSleepRead false) = TSleepRead /\
  ((t_status (mkThread (TRead 2) TSleepRead false) = TSleepRead ->
     contents (pp demo6) = [] /\ writeopen (pp demo6) <> 0) /\
  (t_status (mkThread (TRead 2) TSleepRead false) = TSleepWrite ->
     length (contents (pp demo6)) = Z.to_nat PIPESIZE /\ readopen (pp demo6) <> 0)).
Proof.
  split; [reflexivity|].
  exact (pipe_no_lost_wakeup demo6 (demo6_reachable false) 1 (mkThread (TRead 2) TSleepRead false) eq_refl).
Defined.

(** A killed writer can strand a reader.  A writer that was killed inside
    [pipewrite] fills the ring and returns -1 without waking anybody; there is
    a reachable state in which a thread that was not killed sleeps in
    [piperead] although 512 bytes are in the pipe. *)
Lemma killed_writer_strands_reader :
  exists s t, preach true s /\ threads s !! 1%nat = Some t /\ t_killed t = false /\
    t_status t = TSleepRead /\ length (contents (pp s)) = Z.to_nat PIPESIZE.
Proof.
  set (bytes := replicate 513 7).
  set (s1 := after_call 0 idle (TWrite 513 bytes) demo6).
  set (s2 := after_kill 0 (mkThread (TWrite 513 bytes) TRun false) s1).
  set (s3 := after_write 0 (mkThread (TWrite 513 bytes) TRun true) 513 bytes s2).
  exists s3, (mkThread (TRead 2) TSleepRead false). split; [|vm_compute; done].
  apply (pr_step true s2); [apply (pr_step true s1); [apply (pr_step true demo6 s1 (demo6_reachable true))|]|].
  - by apply ps_call.
  - by apply ps_kill.
  - by apply ps_write.
Qed.
