(* ===== verification/Kalloc.v ===== *)
(** * The physical page allocator

    [kalloc.c]: the free list is a chain of pointers stored in the free pages
    themselves, so the state is the byte memory, the head pointer and the
    [use_lock] flag.  [kernel_end] stands for the linker's symbol [end]. *)
From S2P Require Import Prelude Cstring.
Local Open Scope Z_scope.

Definition PGSIZE : Z := 4096.
Definition KERNBASE : Z := 0x80000000.
Definition PHYSTOP : Z := 0xE000000.

Definition V2P (a : Z) : Z := u32 (a - KERNBASE).
Definition P2V (a : Z) : Z := u32 (a + KERNBASE).

(** [(((sz)+PGSIZE-1) & ~(PGSIZE-1))] *)
Definition PGROUNDUP (sz : Z) : Z := Z.land (u32 (sz + PGSIZE - 1)) (u32 (Z.lnot (PGSIZE - 1))).

(** A 32-bit little-endian load. *)
Definition mget32 (m : mem) (a : Z) : Z :=
  m a + 2 ^ 8 * m (a + 1) + 2 ^ 16 * m (a + 2) + 2 ^ 24 * m (a + 3).

Record kmem := mkKmem { kmem_mem : mem; freelist : Z; use_lock : bool; kmem_locked : bool }.

Section Kalloc.
Context (kernel_end : Z).

Definition lock_kmem : M kmem unit := fun k =>
  if use_lock k then
    if kmem_locked k then Panic "acquire" else Ret tt (mkKmem (kmem_mem k) (freelist k) (use_lock k) true)
  else Ret tt k.

Definition unlock_kmem : M kmem unit := fun k =>
  if use_lock k then
    if kmem_locked k then Ret tt (mkKmem (kmem_mem k) (freelist k) (use_lock k) false) else Panic "release"
  else Ret tt k.

Definition set_mem (f : mem -> mem) : M kmem unit :=
  modify (fun k => mkKmem (f (kmem_mem k)) (freelist k) (use_lock k) (kmem_locked k)).

Definition set_freelist (r : Z) : M kmem unit :=
  modify (fun k => mkKmem (kmem_mem k) r (use_lock k) (kmem_locked k)).

Definition kfree (v : Z) : M kmem unit :=
  if negb (v mod PGSIZE =? 0) || (v <? kernel_end) || (PHYSTOP <=? V2P v) then panic "kfree"
  else
    set_mem (memset v 1 PGSIZE);;
    lock_kmem;;
    fl ← gets freelist;
    set_mem (mset32 v fl);;
    set_freelist v;;
    unlock_kmem.

Definition kalloc : M kmem Z :=
  lock_kmem;;
  k ← get;
  let r := freelist k in
  when (negb (r =? 0)) (set_freelist (mget32 (kmem_mem k) r));;
  unlock_kmem;;
  mret r.

(** [for(; p + PGSIZE <= (char* )vend; p += PGSIZE) kfree(p);] with [fuel]
    iterations left. *)
Fixpoint freerange_loop (fuel : nat) (p vend : Z) : M kmem unit :=
  match fuel with
  | O => mret tt
  | S fuel' =>
      if u32 (p + PGSIZE) <=? vend then kfree p;; freerange_loop fuel' (u32 (p + PGSIZE)) vend
      else mret tt
  end.

(** No address space holds more than 2^20 pages. *)
Definition freerange (vstart vend : Z) : M kmem unit :=
  freerange_loop (Z.to_nat ((vend - PGROUNDUP vstart) / PGSIZE + 1)) (PGROUNDUP vstart) vend.

Definition kinit1 (vstart vend : Z) : M kmem unit :=
  modify (fun k => mkKmem (kmem_mem k) (freelist k) false false);;
  freerange vstart vend.

Definition kinit2 (vstart vend : Z) : M kmem unit :=
  freerange vstart vend;;
  modify (fun k => mkKmem (kmem_mem k) (freelist k) true (kmem_locked k)).

(** ** The free list *)

(** A page that [kfree] accepts. *)
Definition good_page (v : Z) : Prop :=
  v mod PGSIZE = 0 /\ kernel_end <= v /\ KERNBASE <= v < KERNBASE + PHYSTOP.

(** The chain of free pages from [head] on is [l]. *)
Fixpoint chain (m : mem) (head : Z) (l : list Z) : Prop :=
  match l with
  | [] => head = 0
  | v :: l' => head = v /\ chain m (mget32 m v) l'
  end.

Record kmem_ok (k : kmem) (l : list Z) : Prop := {
  ok_chain : chain (kmem_mem k) (freelist k) l;
  ok_nodup : NoDup l;
  ok_pages v : v ∈ l -> good_page v;
  ok_unlocked : kmem_locked k = false
}.

Lemma mget32_mset32 v x m :
  0 <= v -> v + 4 <= 2 ^ 32 -> is_u32 x -> mget32 (mset32 v x m) v = x.
Proof.
  intros H0 H1 [Hx0 Hx1]. unfold mget32, mset32. rewrite !u32_id by lia.
  rewrite !mset_cases. repeat (case_decide; try lia).
  unfold u8. rewrite !Z.shiftr_div_pow2 by lia. lia.
Qed.

Lemma chain_ext m m' head l :
  (forall v a, v ∈ l -> v <= a < v + 4 -> m' a = m a) -> chain m head l -> chain m' head l.
Proof.
  revert head. induction l as [|v l IH]; intros head Hm; simpl; [done|]. intros [-> Hc]. split; [done|].
  assert (mget32 m' v = mget32 m v) as ->.
  { unfold mget32. rewrite !(Hm v) by (left || lia). done. }
  apply IH; [|done]. intros w a Hw. apply Hm. by right.
Qed.

Lemma good_page_bounds v : good_page v -> 0 <= v /\ v + PGSIZE <= 2 ^ 32 /\ v <> 0.
Proof. unfold good_page, PGSIZE, KERNBASE, PHYSTOP. lia. Qed.

Lemma pages_disjoint v w : good_page v -> good_page w -> v <> w -> v + PGSIZE <= w \/ w + PGSIZE <= v.
Proof. unfold good_page, PGSIZE. lia. Qed.

(** ** Specifications of the operations *)

Lemma kfree_ok v k l :
  kmem_ok k l -> good_page v -> v ∉ l ->
  exists k', kfree v k = Ret tt k' /\ kmem_ok k' (v :: l) /\ use_lock k' = use_lock k /\
    forall a, a < v \/ v + PGSIZE <= a -> kmem_mem k' a = kmem_mem k a.
Proof.
  intros [Hc Hnd Hp Hu] Hv Hnot. pose proof (good_page_bounds v Hv) as (Hv0 & Hv1 & Hvn).
  pose proof Hv as (Hal & Hend & Hrange).
  assert (V2P v < PHYSTOP) by (unfold V2P; rewrite u32_id; unfold KERNBASE, PHYSTOP in *; lia).
  assert (Hfl : is_u32 (freelist k)).
  { destruct l as [|w l]; simpl in Hc; [rewrite Hc; unfold is_u32; lia|]. destruct Hc as [-> _].
    destruct (good_page_bounds w) as (? & ? & _); [apply Hp; left|]. unfold is_u32, PGSIZE in *. lia. }
  unfold kfree. rewrite Hal, Z.eqb_refl. destruct (Z.ltb_spec v kernel_end); [lia|].
  destruct (Z.leb_spec PHYSTOP (V2P v)); [lia|]. simpl.
  set (m' := mset32 v (freelist k) (memset v 1 PGSIZE (kmem_mem k))).
  assert (Hm' : forall a, a < v \/ v + PGSIZE <= a -> m' a = kmem_mem k a).
  { intros a Ha. subst m'. unfold mset32. unfold PGSIZE in *. rewrite !u32_id by lia.
    rewrite !mset_ne by lia. rewrite memset_spec by lia. case_decide; [lia|done]. }
  exists (mkKmem m' v (use_lock k) false). split; [|split; [split; simpl|done]].
  - destruct k as [mm fl ul lk]. simpl in *. subst lk. unfold mbind, M_bind, lock_kmem, unlock_kmem, set_mem, set_freelist.
    simpl. destruct ul; simpl; done.
  - split; [done|]. subst m'. rewrite mget32_mset32 by (unfold PGSIZE in *; done || lia).
    eapply chain_ext; [|exact Hc]. intros w a Hw Ha. apply Hm'.
    destruct (pages_disjoint v w Hv (Hp w Hw)); [set_solver| |]; unfold PGSIZE in *; lia.
  - by constructor.
  - intros w [->|Hw]%elem_of_cons; [done|by apply Hp].
  - done.
Qed.

Lemma kalloc_ok k l :
  kmem_ok k l ->
  exists k', kalloc k = Ret (match l with [] => 0 | v :: _ => v end) k' /\ kmem_ok k' (tail l) /\
    use_lock k' = use_lock k /\ kmem_mem k' = kmem_mem k.
Proof.
  intros [Hc Hnd Hp Hu]. destruct k as [mm fl ul lk]. simpl in *. subst lk.
  unfold kalloc, mbind, M_bind, lock_kmem, unlock_kmem, set_freelist, when. simpl.
  destruct l as [|v l]; simpl in *.
  - subst fl. exists (mkKmem mm 0 ul false). split; [by destruct ul|]. split; [by split|done].
  - destruct Hc as [-> Hc]. destruct (good_page_bounds v) as (_ & _ & Hv); [apply Hp; left|].
    apply Z.eqb_neq in Hv. exists (mkKmem mm (mget32 mm v) ul false). apply NoDup_cons in Hnd as [_ Hnd].
    split; [destruct ul; simpl; by rewrite Hv|]. split; [split; simpl; try done|done].
    intros w Hw. apply Hp. by right.
Qed.

(** ** Building the free list *)

Lemma land_page_mask x : is_u32 x -> Z.land x (u32 (Z.lnot (PGSIZE - 1))) = x / PGSIZE * PGSIZE.
Proof.
  intros [Hx0 Hx1]. change (u32 (Z.lnot (PGSIZE - 1))) with (Z.shiftl (Z.ones 20) 12).
  change PGSIZE with (2 ^ 12). rewrite <- Z.shiftr_div_pow2, <- Z.shiftl_mul_pow2 by lia.
  apply Z.bits_inj'. intros i Hi. rewrite Z.land_spec.
  destruct (decide (i < 12)).
  - rewrite !Z.shiftl_spec_low by lia. by rewrite andb_false_r.
  - rewrite !Z.shiftl_spec by lia. rewrite Z.shiftr_spec, Z.testbit_ones_nonneg by lia.
    replace (i - 12 + 12) with i by lia. destruct (Z.ltb_spec (i - 12) 20); [by rewrite andb_true_r|].
    rewrite andb_false_r. symmetry. apply Z.bits_above_log2; [lia|].
    destruct (decide (x = 0)) as [->|]; [done || (simpl; lia)|].
    apply Z.log2_lt_pow2; [lia|]. eapply Z.lt_le_trans; [exact Hx1|]. apply Z.pow_le_mono_r; lia.
Qed.

Lemma PGROUNDUP_spec sz : 0 <= sz <= 2 ^ 32 - PGSIZE -> PGROUNDUP sz = (sz + PGSIZE - 1) / PGSIZE * PGSIZE.
Proof.
  intros H. unfold PGROUNDUP. rewrite u32_id by (unfold PGSIZE in *; lia).
  apply land_page_mask. unfold is_u32, PGSIZE in *. lia.
Qed.

(** The [n] pages from [p] on. *)
Definition pages (p : Z) (n : nat) : list Z := (fun i : nat => p + PGSIZE * Z.of_nat i) <$> seq 0 n.

Lemma pages_S p n : pages p (S n) = p :: pages (p + PGSIZE) n.
Proof.
  unfold pages. simpl. f_equal; [lia|]. rewrite <- seq_shift, <- list_fmap_compose.
  apply list_fmap_ext. intros i x _. simpl. lia.
Qed.

Lemma elem_of_pages p n v : v ∈ pages p n <-> exists i, 0 <= i < Z.of_nat n /\ v = p + PGSIZE * i.
Proof.
  unfold pages. rewrite list_elem_of_fmap. split.
  - intros (i & -> & Hi). apply elem_of_seq in Hi. exists (Z.of_nat i). split; [lia|done].
  - intros (i & Hi & ->). exists (Z.to_nat i). split; [by rewrite Z2Nat.id by lia|]. apply elem_of_seq. lia.
Qed.

Lemma NoDup_pages p n : NoDup (pages p n).
Proof. apply NoDup_fmap_2; [|apply NoDup_seq]. intros i j H. unfold PGSIZE in H. lia. Qed.

Lemma freerange_loop_ok n : forall fuel p vend k l,
  kmem_ok k l -> (n < fuel)%nat -> p mod PGSIZE = 0 -> kernel_end <= p -> KERNBASE <= p ->
  vend <= KERNBASE + PHYSTOP -> p + PGSIZE * Z.of_nat n <= vend -> vend < p + PGSIZE * (Z.of_nat n + 1) ->
  (forall v, v ∈ pages p n -> v ∉ l) ->
  exists k', freerange_loop fuel p vend k = Ret tt k' /\ kmem_ok k' (reverse (pages p n) ++ l) /\
    use_lock k' = use_lock k.
Proof.
  induction n as [|n IH]; intros fuel p vend k l Hk Hfuel Hal Hend Hbase Htop Hle Hlt Hnot;
    (destruct fuel as [|fuel]; [lia|]); cbn [freerange_loop].
  - rewrite u32_id by (unfold PGSIZE, KERNBASE, PHYSTOP in *; lia).
    destruct (Z.leb_spec (p + PGSIZE) vend); [unfold PGSIZE in *; lia|]. by exists k.
  - rewrite u32_id by (unfold PGSIZE, KERNBASE, PHYSTOP in *; lia).
    destruct (Z.leb_spec (p + PGSIZE) vend); [|unfold PGSIZE in *; lia].
    rewrite pages_S in *. destruct (kfree_ok p k l) as (k1 & E1 & Hk1 & Hu1 & _); [done| |by apply Hnot; left|].
    { unfold good_page, PGSIZE in *. lia. }
    destruct (IH fuel (p + PGSIZE) vend k1 (p :: l)) as (k' & E & Hk' & Hu'); try done; try (unfold PGSIZE in *; lia).
    { intros v Hv [->|Hin]%elem_of_cons; [|by apply (Hnot v); [right|]].
      apply elem_of_pages in Hv as (i & Hi & Ei). unfold PGSIZE in Ei. lia. }
    exists k'. rewrite (bind_Ret _ _ _ _ _ E1). split; [done|]. split; [|congruence].
    by rewrite reverse_cons, <- app_assoc.
Qed.

(** The pages of [vstart, vend). *)
Definition range_pages (vstart vend : Z) : list Z :=
  pages (PGROUNDUP vstart) (Z.to_nat ((vend - PGROUNDUP vstart) / PGSIZE)).

Lemma freerange_ok vstart vend k l :
  kmem_ok k l -> kernel_end <= vstart -> KERNBASE <= vstart -> vstart <= vend -> PGROUNDUP vstart <= vend ->
  vend <= KERNBASE + PHYSTOP -> (forall v, v ∈ range_pages vstart vend -> v ∉ l) ->
  exists k', freerange vstart vend k = Ret tt k' /\
    kmem_ok k' (reverse (range_pages vstart vend) ++ l) /\ use_lock k' = use_lock k.
Proof.
  intros Hk Hend Hbase Hsv Hle Htop Hnot.
  assert (Hs : 0 <= vstart <= 2 ^ 32 - PGSIZE) by (unfold KERNBASE, PHYSTOP, PGSIZE in *; lia).
  pose proof (PGROUNDUP_spec vstart Hs) as Hr.
  apply freerange_loop_ok; try done; unfold PGSIZE in *; lia.
Qed.

(** [main()]: the two phases of the initialisation. *)
Definition kinit : M kmem unit :=
  kinit1 kernel_end (P2V (4 * 1024 * 1024));;
  kinit2 (P2V (4 * 1024 * 1024)) (P2V PHYSTOP).

(** Every page between the kernel and the top of memory. *)
Definition all_pages : list Z :=
  reverse (range_pages (P2V (4 * 1024 * 1024)) (P2V PHYSTOP)) ++
  reverse (range_pages kernel_end (P2V (4 * 1024 * 1024))).

Lemma elem_of_range_pages vstart vend v :
  0 <= vstart <= 2 ^ 32 - PGSIZE -> v ∈ range_pages vstart vend -> vstart <= v /\ v + PGSIZE <= vend.
Proof.
  intros Hs. unfold range_pages. rewrite (PGROUNDUP_spec vstart Hs), elem_of_pages.
  unfold PGSIZE in *. intros (i & Hi & ->). lia.
Qed.

Lemma kinit_ok m :
  KERNBASE <= kernel_end <= KERNBASE + 4 * 1024 * 1024 ->
  exists k, kinit (mkKmem m 0 false false) = Ret tt k /\ kmem_ok k all_pages /\ use_lock k = true.
Proof.
  intros Hend. assert (E4 : P2V (4 * 1024 * 1024) = KERNBASE + 4 * 1024 * 1024) by reflexivity.
  assert (Et : P2V PHYSTOP = KERNBASE + PHYSTOP) by reflexivity.
  unfold kinit, all_pages, kinit1, kinit2. rewrite E4, Et.
  assert (Hk0 : kmem_ok (mkKmem m 0 false false) []).
  { split; simpl; try done; [by constructor|]. intros v Hv. by apply not_elem_of_nil in Hv. }
  assert (Hr : forall x, 0 <= x <= 2 ^ 32 - PGSIZE -> PGROUNDUP x = (x + PGSIZE - 1) / PGSIZE * PGSIZE)
    by apply PGROUNDUP_spec.
  destruct (freerange_ok kernel_end (KERNBASE + 4 * 1024 * 1024) _ _ Hk0) as (k1 & E1 & Hk1 & Hu1);
    try (unfold KERNBASE, PHYSTOP, PGSIZE in *; lia).
  { rewrite Hr; unfold KERNBASE, PGSIZE in *; lia. }
  { intros v _. apply not_elem_of_nil. }
  destruct (freerange_ok (KERNBASE + 4 * 1024 * 1024) (KERNBASE + PHYSTOP) k1 _ Hk1) as (k2 & E2 & Hk2 & Hu2);
    try (unfold KERNBASE, PHYSTOP, PGSIZE in *; lia).
  { rewrite Hr; unfold KERNBASE, PHYSTOP, PGSIZE in *; lia. }
  { intros v Hv. rewrite app_nil_r, elem_of_reverse. intros Hv'.
    apply elem_of_range_pages in Hv, Hv'; unfold KERNBASE, PGSIZE in *; lia. }
  exists (mkKmem (kmem_mem k2) (freelist k2) true (kmem_locked k2)). split; [|split; [|done]].
  - unfold mbind, M_bind. simpl. rewrite E1. simpl. by rewrite E2.
  - rewrite app_nil_r in Hk2. destruct Hk2. by split.
Qed.

(** ** The allocator and its clients

    [out] are the pages handed out; their owners write to them at will. *)
Inductive astep : kmem * list Z -> kmem * list Z -> Prop :=
| as_alloc k out v k' : kalloc k = Ret v k' -> v <> 0 -> astep (k, out) (k', v :: out)
| as_fail k out k' : kalloc k = Ret 0 k' -> astep (k, out) (k', out)
| as_free k out v out' k' :
    out ≡ₚ v :: out' -> kfree v k = Ret tt k' -> astep (k, out) (k', out')
| as_write k out v m' :
    v ∈ out -> (forall a, a < v \/ v + PGSIZE <= a -> m' a = kmem_mem k a) ->
    astep (k, out) (mkKmem m' (freelist k) (use_lock k) (kmem_locked k), out).

Inductive areach : kmem * list Z -> Prop :=
| ar_init m k : kinit (mkKmem m 0 false false) = Ret tt k -> areach (k, [])
| ar_step s s' : areach s -> astep s s' -> areach s'.

(** Every page is either free or owned by exactly one client. *)
Definition partitioned (s : kmem * list Z) : Prop :=
  exists l, kmem_ok (fst s) l /\ snd s ++ l ≡ₚ all_pages.

Context (Hend : KERNBASE <= kernel_end <= KERNBASE + 4 * 1024 * 1024).

Lemma all_pages_ok : NoDup all_pages /\ forall v, v ∈ all_pages -> good_page v.
Proof using Hend. destruct (kinit_ok (fun _ => 0) Hend) as (k & _ & [? Hn Hp ?] & _). exact (conj Hn Hp). Qed.

Lemma astep_partitioned s s' : partitioned s -> astep s s' -> partitioned s'.
Proof using Hend.
  intros (l & Hk & Hperm) Hstep. destruct all_pages_ok as [Hnd Hgood].
  assert (Hnd' : NoDup (snd s ++ l)) by (rewrite Hperm; exact Hnd).
  destruct Hstep as [k out v k' E Hv|k out k' E|k out v out' k' Hp E|k out v m' Hin Hm]; simpl in *.
  - destruct (kalloc_ok k l Hk) as (k1 & E1 & Hk1 & _). rewrite E in E1. injection E1 as -> ->.
    destruct l as [|v l]; [congruence|]. exists l. split; [exact Hk1|]. rewrite <- Hperm. simpl. apply Permutation_middle.
  - destruct (kalloc_ok k l Hk) as (k1 & E1 & Hk1 & _). rewrite E in E1. injection E1 as E0 ->.
    destruct l as [|v l]; [exists []; split; [exact Hk1|exact Hperm]|]. exfalso. destruct (good_page_bounds v) as (_ & _ & Hv0); [|congruence].
    eapply ok_pages; [exact Hk|left].
  - assert (Hvl : v ∉ l).
    { intros Hv. apply NoDup_app in Hnd' as (_ & Hdis & _). apply (Hdis v); [|done]. rewrite Hp. left. }
    destruct (kfree_ok v k l Hk) as (k1 & E1 & Hk1 & _); [|done|].
    { apply Hgood. rewrite <- Hperm, Hp. left. }
    rewrite E in E1. injection E1 as ->. exists (v :: l). split; [exact Hk1|].
    rewrite <- Hperm, Hp. simpl. symmetry. apply Permutation_middle.
  - exists l. split; [|exact Hperm]. destruct Hk as [Hc Hn Hpg Hu]. split; try assumption. simpl.
    eapply chain_ext; [|exact Hc]. intros w a Hw Ha. apply Hm.
    assert (Hvw : v <> w).
    { intros ->. apply NoDup_app in Hnd' as (_ & Hdis & _). by apply (Hdis w). }
    destruct (pages_disjoint v w); [| |exact Hvw| |]; try (unfold PGSIZE in *; lia); [|by apply Hpg].
    apply Hgood. rewrite <- Hperm. apply elem_of_app. by left.
Qed.

Lemma areach_partitioned s : areach s -> partitioned s.
Proof using Hend.
  induction 1 as [m k E|s s' _ IH Hs]; [|by eapply astep_partitioned].
  destruct (kinit_ok m Hend) as (k1 & E1 & Hk1 & _). rewrite E in E1. injection E1 as ->.
  exists all_pages. split; [exact Hk1|]. reflexivity.
Qed.
End Kalloc.

(** C19: the page allocator partitions memory.  From boot on, whatever its
    clients do with their pages, every page between the kernel and the top of
    memory is either on the free list or owned by exactly one client; [kalloc]
    returns a page that nobody owns, and fails only when all are owned; [kfree]
    of an owned page always succeeds. *)
Theorem kalloc_exclusive (kernel_end : Z) (s : kmem * list Z)
    (Hend : KERNBASE <= kernel_end <= KERNBASE + 4 * 1024 * 1024) (Hs : areach kernel_end s) :
  NoDup (snd s) /\ (forall v, v ∈ snd s -> good_page kernel_end v) /\
  (exists v k', kalloc (fst s) = Ret v k' /\ v ∉ snd s /\
     (v = 0 <-> snd s ≡ₚ all_pages kernel_end)) /\
  (forall v, v ∈ snd s -> exists k', kfree kernel_end v (fst s) = Ret tt k').
Proof.
  destruct (areach_partitioned kernel_end Hend s Hs) as (l & Hk & Hperm).
  destruct (all_pages_ok kernel_end Hend) as [Hnd Hgood].
  rewrite <- Hperm in Hnd. apply NoDup_app in Hnd as (Hno & Hdis & Hnl).
  assert (Hg : forall v, v ∈ snd s -> good_page kernel_end v).
  { intros v Hv. apply Hgood. rewrite <- Hperm. apply elem_of_app. by left. }
  split; [done|]. split; [done|]. split.
  - destruct (kalloc_ok kernel_end (fst s) l Hk) as (k' & E & _). eexists _, k'. split; [exact E|].
    destruct l as [|v l].
    + split; [|split; [intros _; by rewrite <- Hperm, app_nil_r|done]].
      intros H0. by destruct (good_page_bounds kernel_end 0 (Hg 0 H0)) as (_ & _ & ?).
    + assert (good_page kernel_end v) as Hv by (eapply ok_pages; [exact Hk|left]).
      split; [intros Hin; apply (Hdis v Hin); left|]. split.
      * intros ->. by destruct (good_page_bounds kernel_end 0 Hv) as (_ & _ & ?).
      * intros Hp. rewrite <- Hperm in Hp. apply Permutation_length in Hp. rewrite length_app in Hp. simpl in Hp. lia.
  - intros v Hv. destruct (kfree_ok kernel_end v (fst s) l Hk (Hg v Hv)) as (k' & E & _); [by apply Hdis|]. eauto.
Qed.

Lemma kalloc_exclusive_witness :
  exists s, areach (KERNBASE + 0x100000) s /\ NoDup (snd s).
Proof.
  destruct (kinit_ok (KERNBASE + 0x100000) (fun _ => 0)) as (k & E & _); [unfold KERNBASE; lia|].
  exists (k, []). assert (Hr : areach (KERNBASE + 0x100000) (k, [])) by (apply (ar_init _ _ _ E)).
  split; [exact Hr|].
  apply (kalloc_exclusive (KERNBASE + 0x100000) (k, [])); [unfold KERNBASE; lia|exact Hr].
Defined.
