(* ===== verification/Bytes.v ===== *)
(** * Little-endian integers in byte arrays

    The kernel overlays C structures on the data of a disk block
    ([struct logheader], [struct dinode], [struct dirent], an array of [uint]).
    A field of [k] bytes at offset [off] is read with [getle] and written with
    [putle]; both follow the i386 byte order. *)
From S2P Require Import Prelude.
Local Open Scope Z_scope.

Fixpoint le_bytes (k : nat) (v : Z) : list Z :=
  match k with
  | O => []
  | S k' => v mod 2 ^ 8 :: le_bytes k' (v / 2 ^ 8)
  end.

Fixpoint le_val (bs : list Z) : Z :=
  match bs with
  | [] => 0
  | b :: bs' => b + 2 ^ 8 * le_val bs'
  end.

(** [memmove(d + off, bs, length bs)] on an array [d]. *)
Definition splice (off : nat) (bs d : list Z) : list Z :=
  take off d ++ bs ++ drop (off + length bs) d.

Definition getle (k off : nat) (d : list Z) : Z := le_val (take k (drop off d)).
Definition putle (k off : nat) (v : Z) (d : list Z) : list Z := splice off (le_bytes k v) d.

Lemma le_bytes_length k v : length (le_bytes k v) = k.
Proof. revert v. induction k as [|k IH]; intros v; simpl; [done|]. by rewrite IH. Qed.

Lemma le_val_bytes k v : 0 <= v < 2 ^ (8 * Z.of_nat k) -> le_val (le_bytes k v) = v.
Proof.
  revert v. induction k as [|k IH]; intros v Hv; cbn [le_bytes le_val]; [simpl in Hv; lia|].
  rewrite IH; [lia|]. replace (8 * Z.of_nat (S k)) with (8 + 8 * Z.of_nat k) in Hv by lia.
  rewrite Z.pow_add_r in Hv by lia. split; [apply Z.div_pos; lia|]. apply Z.div_lt_upper_bound; lia.
Qed.

Lemma le_val_range bs : Forall is_u8 bs -> 0 <= le_val bs < 2 ^ (8 * Z.of_nat (length bs)).
Proof.
  induction 1 as [|b bs Hb _ IH]; [simpl; lia|]. unfold is_u8 in Hb. cbn [le_val length].
  replace (8 * Z.of_nat (S (length bs))) with (8 + 8 * Z.of_nat (length bs)) by lia.
  rewrite Z.pow_add_r by lia. lia.
Qed.

Lemma splice_length off bs d : (off + length bs <= length d)%nat -> length (splice off bs d) = length d.
Proof. intros H. unfold splice. rewrite !length_app, length_take, length_drop. lia. Qed.

Lemma splice_lookup off bs d i :
  (off + length bs <= length d)%nat ->
  splice off bs d !! i = if decide (off <= i < off + length bs)%nat then bs !! (i - off)%nat else d !! i.
Proof.
  intros H. unfold splice. case_decide as Hi.
  - rewrite lookup_app_r by (rewrite length_take; lia). rewrite length_take, Nat.min_l by lia.
    rewrite lookup_app_l by lia. done.
  - destruct (decide (i < off)%nat).
    + rewrite lookup_app_l by (rewrite length_take; lia). by rewrite lookup_take_lt by lia.
    + rewrite lookup_app_r by (rewrite length_take; lia). rewrite length_take, Nat.min_l by lia.
      rewrite lookup_app_r by lia. rewrite lookup_drop. f_equal. lia.
Qed.

Lemma splice_read off bs d :
  (off + length bs <= length d)%nat -> take (length bs) (drop off (splice off bs d)) = bs.
Proof.
  intros H. unfold splice. rewrite drop_app_length' by (rewrite length_take; lia).
  by rewrite take_app_length.
Qed.

Lemma splice_read_other off bs d off' k :
  (off + length bs <= length d)%nat -> (off' + k <= off \/ off + length bs <= off')%nat ->
  take k (drop off' (splice off bs d)) = take k (drop off' d).
Proof.
  intros H Hdis. apply list_eq. intros i. destruct (decide (i < k)%nat).
  - rewrite !lookup_take_lt, !lookup_drop by lia. rewrite splice_lookup by done. by rewrite decide_False by lia.
  - by rewrite !lookup_take_ge by lia.
Qed.

Lemma putle_length k off v d : (off + k <= length d)%nat -> length (putle k off v d) = length d.
Proof. intros H. apply splice_length. by rewrite le_bytes_length. Qed.

Lemma getle_putle k off v d :
  (off + k <= length d)%nat -> 0 <= v < 2 ^ (8 * Z.of_nat k) -> getle k off (putle k off v d) = v.
Proof.
  intros H Hv. unfold getle, putle. rewrite <- (le_bytes_length k v) at 1.
  rewrite splice_read by (by rewrite le_bytes_length). by apply le_val_bytes.
Qed.

Lemma getle_putle_other k off v d k' off' :
  (off + k <= length d)%nat -> (off' + k' <= off \/ off + k <= off')%nat ->
  getle k' off' (putle k off v d) = getle k' off' d.
Proof.
  intros H Hdis. unfold getle, putle. by rewrite splice_read_other by (rewrite ?le_bytes_length; done).
Qed.

(** [u32], [s32] and [u16] fields *)
Definition get32 (off : nat) (d : list Z) : Z := getle 4 off d.
Definition put32 (off : nat) (v : Z) (d : list Z) : list Z := putle 4 off (u32 v) d.
Definition get16 (off : nat) (d : list Z) : Z := getle 2 off d.
Definition put16 (off : nat) (v : Z) (d : list Z) : list Z := putle 2 off (u16 v) d.

Lemma put32_length off v d : (off + 4 <= length d)%nat -> length (put32 off v d) = length d.
Proof. apply putle_length. Qed.

Lemma put16_length off v d : (off + 2 <= length d)%nat -> length (put16 off v d) = length d.
Proof. apply putle_length. Qed.

Lemma get32_put32 off v d : (off + 4 <= length d)%nat -> get32 off (put32 off v d) = u32 v.
Proof. intros H. apply getle_putle; [done|]. simpl. apply u32_range. Qed.

Lemma get32_put32_other off v d off' :
  (off + 4 <= length d)%nat -> (off' + 4 <= off \/ off + 4 <= off')%nat ->
  get32 off' (put32 off v d) = get32 off' d.
Proof. apply getle_putle_other. Qed.

Lemma get16_put16 off v d : (off + 2 <= length d)%nat -> get16 off (put16 off v d) = u16 v.
Proof. intros H. apply getle_putle; [done|]. unfold u16. simpl. lia. Qed.

Lemma get16_put16_other off v d off' :
  (off + 2 <= length d)%nat -> (off' + 2 <= off \/ off + 2 <= off')%nat ->
  get16 off' (put16 off v d) = get16 off' d.
Proof. apply getle_putle_other. Qed.
