(* ===== verification/Bio.v ===== *)
(** * The disk and the buffer cache

    [memide.c] (the disk kept in memory) and [bio.c].  The cache is an array of
    [NBUF] buffers threaded on a doubly linked list through [prev]/[next]; here
    the links are two arrays of indices in which [HEAD] stands for
    [bcache.head].  A buffer's sleep lock is the flag [b_locked]: a process that
    finds it taken goes to sleep.  [hist] records, newest first, the disk before
    each write to it: the states in which a crash can leave the disk. *)
From S2P Require Import Prelude.
Local Open Scope Z_scope.

Definition BSIZE : nat := 512.
Definition FSSIZE : Z := 1102.
Definition NBUF : nat := 30.
Definition HEAD : nat := NBUF.
Definition ROOTDEV : Z := 1.

Definition B_VALID : Z := 2.
Definition B_DIRTY : Z := 4.

Notation block := (list Z).

Record buf := mkBuf {
  b_flags : Z; b_dev : Z; b_blockno : Z; b_locked : bool; b_refcnt : Z; b_data : block
}.

Definition set_flags (f : Z) (b : buf) : buf :=
  mkBuf f (b_dev b) (b_blockno b) (b_locked b) (b_refcnt b) (b_data b).
Definition set_locked (l : bool) (b : buf) : buf :=
  mkBuf (b_flags b) (b_dev b) (b_blockno b) l (b_refcnt b) (b_data b).
Definition set_refcnt (r : Z) (b : buf) : buf :=
  mkBuf (b_flags b) (b_dev b) (b_blockno b) (b_locked b) r (b_data b).
Definition set_data (d : block) (b : buf) : buf :=
  mkBuf (b_flags b) (b_dev b) (b_blockno b) (b_locked b) (b_refcnt b) d.

Definition flag (m : Z) (b : buf) : bool := negb (Z.land (b_flags b) m =? 0).

Record bio := mkBio {
  bufs : list buf;
  nxt : list nat;
  prv : list nat;
  disk : list block;
  hist : list (list block)
}.

Definition set_bufs x s := mkBio x (nxt s) (prv s) (disk s) (hist s).
Definition set_nxt x s := mkBio (bufs s) x (prv s) (disk s) (hist s).
Definition set_prv x s := mkBio (bufs s) (nxt s) x (disk s) (hist s).
(** A disk write. *)
Definition set_disk x s := mkBio (bufs s) (nxt s) (prv s) x (disk s :: hist s).

Section Ops.
Notation B := (M bio).

Definition bufat (b : nat) : B buf := fun s =>
  match bufs s !! b with Some x => Ret x s | None => Panic "not a buffer" end.
Definition bufupd (b : nat) (f : buf -> buf) : B unit :=
  modify (fun s => set_bufs (alter f b (bufs s)) s).

(** ** [memide.c] *)

Definition iderw (b : nat) : B unit :=
  x ← bufat b;
  if negb (b_locked x) then panic "iderw: buf not locked"
  else if Z.land (b_flags x) (Z.lor B_VALID B_DIRTY) =? B_VALID then panic "iderw: nothing to do"
  else if negb (b_dev x =? 1) then panic "iderw: request not for disk 1"
  else
    d ← gets disk;
    if Z.of_nat (length d) <=? b_blockno x then panic "iderw: block out of range"
    else
      let n := Z.to_nat (b_blockno x) in
      (if flag B_DIRTY x then
         bufupd b (fun y => set_flags (Z.land (b_flags y) (Z.lnot B_DIRTY)) y);;
         modify (set_disk (<[n := b_data x]> d))
       else
         bufupd b (set_data (default ([] : block) (d !! n))));;
      bufupd b (fun y => set_flags (Z.lor (b_flags y) B_VALID) y).

(** ** [bio.c] *)

Definition zero_buf : buf := mkBuf 0 0 0 false 0 (replicate BSIZE 0).

(** One step of the loop of [binit]: put buffer [b] at the front. *)
Definition push_front (b : nat) (s : bio) : bio :=
  let h := default HEAD (nxt s !! HEAD) in
  let s := set_nxt (<[b := h]> (nxt s)) s in
  let s := set_prv (<[b := HEAD]> (prv s)) s in
  let s := set_prv (<[h := b]> (prv s)) s in
  set_nxt (<[HEAD := b]> (nxt s)) s.

Definition binit (d : list block) : bio :=
  foldl (fun s b => push_front b s)
    (mkBio (replicate NBUF zero_buf) (replicate (S NBUF) HEAD) (replicate (S NBUF) HEAD) d [])
    (seq 0 NBUF).

(** [acquiresleep(&b->lock)] *)
Definition acquiresleep (b : nat) : B unit :=
  x ← bufat b;
  if b_locked x then suspend else bufupd b (set_locked true).

Definition releasesleep (b : nat) : B unit := bufupd b (set_locked false).

(** [for(b = from; b != &bcache.head; b = link[b]) if(P b) ...] *)
Fixpoint scan (link : list nat) (bs : list buf) (P : buf -> bool) (fuel b : nat) : option nat :=
  match fuel with
  | O => None
  | S fuel' =>
      if (b =? HEAD)%nat then None
      else match bs !! b with
           | Some x => if P x then Some b else scan link bs P fuel' (default HEAD (link !! b))
           | None => None
           end
  end.

Definition is_block (dev blockno : Z) (x : buf) : bool := (b_dev x =? dev) && (b_blockno x =? blockno).
Definition recyclable (x : buf) : bool := (b_refcnt x =? 0) && negb (flag B_DIRTY x).

Definition bget (dev blockno : Z) : B nat :=
  s ← get;
  match scan (nxt s) (bufs s) (is_block dev blockno) (S NBUF) (default HEAD (nxt s !! HEAD)) with
  | Some b => bufupd b (fun x => set_refcnt (b_refcnt x + 1) x);; acquiresleep b;; mret b
  | None =>
      match scan (prv s) (bufs s) recyclable (S NBUF) (default HEAD (prv s !! HEAD)) with
      | Some b =>
          bufupd b (fun x => mkBuf 0 dev blockno (b_locked x) 1 (b_data x));;
          acquiresleep b;; mret b
      | None => panic "bget: no buffers"
      end
  end.

Definition bread (dev blockno : Z) : B nat :=
  b ← bget dev blockno;
  x ← bufat b;
  when (negb (flag B_VALID x)) (iderw b);;
  mret b.

Definition bwrite (b : nat) : B unit :=
  x ← bufat b;
  if negb (b_locked x) then panic "bwrite"
  else
    bufupd b (fun y => set_flags (Z.lor (b_flags y) B_DIRTY) y);;
    iderw b.

(** The unlinking of [b] in [brelse]; then it goes to the front. *)
Definition unlink (b : nat) (s : bio) : bio :=
  let n := default HEAD (nxt s !! b) in
  let p := default HEAD (prv s !! b) in
  let s := set_prv (<[n := p]> (prv s)) s in
  set_nxt (<[p := n]> (nxt s)) s.

Definition brelse (b : nat) : B unit :=
  x ← bufat b;
  if negb (b_locked x) then panic "brelse"
  else
    releasesleep b;;
    bufupd b (fun y => set_refcnt (b_refcnt y - 1) y);;
    y ← bufat b;
    when (b_refcnt y =? 0) (modify (fun s => push_front b (unlink b s))).
End Ops.

(** ** The linked list *)

Fixpoint linked (n p : list nat) (a : nat) (r : list nat) : Prop :=
  match r with
  | [] => True
  | b :: r' => n !! a = Some b /\ p !! b = Some a /\ linked n p b r'
  end.

(** The list through [next] and [prev] is [l], from the most to the least
    recently used buffer. *)
Definition dll (n p : list nat) (l : list nat) : Prop :=
  length n = S NBUF /\ length p = S NBUF /\ NoDup l /\ (forall b, b ∈ l -> (b < NBUF)%nat) /\
  linked n p HEAD (l ++ [HEAD]).

Lemma linked_app n p a r1 b r2 :
  linked n p a (r1 ++ b :: r2) <-> linked n p a (r1 ++ [b]) /\ linked n p b r2.
Proof.
  revert a. induction r1 as [|c r1 IH]; intros a; simpl; [tauto|]. rewrite IH. tauto.
Qed.

(** The nodes whose [next] the segment reads. *)
Fixpoint srcs (a : nat) (r : list nat) : list nat :=
  match r with [] => [] | b :: r' => a :: srcs b r' end.

Lemma srcs_snoc a r b : srcs a (r ++ [b]) = a :: r.
Proof. revert a. induction r as [|c r IH]; intros a; simpl; [done|]. by rewrite IH. Qed.

(** Links outside the segment may change. *)
Lemma linked_frame n p n' p' a r :
  (forall x, x ∈ srcs a r -> n' !! x = n !! x) -> (forall x, x ∈ r -> p' !! x = p !! x) ->
  linked n p a r -> linked n' p' a r.
Proof.
  revert a. induction r as [|b r IH]; intros a Hn Hp; simpl; [done|]. intros (H1 & H2 & H3).
  rewrite Hn, Hp by left. split; [done|]. split; [done|].
  apply IH; [intros x Hx; apply Hn; by right|intros x Hx; apply Hp; by right|done].
Qed.

Lemma dll_bound n p l b : dll n p l -> b ∈ HEAD :: l -> (b < S NBUF)%nat.
Proof. intros (_ & _ & _ & Hb & _) [->|Hin]%elem_of_cons; [unfold HEAD; lia|]. apply Hb in Hin. lia. Qed.

(** The first node of the list is [next] of the head, the last one [prev]. *)
Lemma dll_first n p l : dll n p l -> n !! HEAD = Some (default HEAD (head l)).
Proof. intros (_ & _ & _ & _ & H). destruct l; simpl in *; tauto. Qed.

Lemma push_front_dll s b l :
  dll (nxt s) (prv s) l -> b ∉ l -> (b < NBUF)%nat ->
  dll (nxt (push_front b s)) (prv (push_front b s)) (b :: l).
Proof.
  intros Hd Hb Hlt. pose proof (dll_first _ _ _ Hd) as Hf. pose proof Hd as (Hln & Hlp & Hnd & Hbd & Hl).
  unfold push_front. rewrite Hf. simpl. set (f := default HEAD (head l)).
  assert (Hfin : f ∈ HEAD :: l) by (subst f; destruct l; [left|right; left]).
  assert (Hfb : (f < S NBUF)%nat) by (by eapply dll_bound).
  assert (HbH : b <> HEAD) by (unfold HEAD; lia). assert (HfbN : f <> b) by set_solver.
  split; [by rewrite !length_insert|]. split; [by rewrite !length_insert|].
  split; [by constructor|]. split; [intros x [->|Hx]%elem_of_cons; [done|by apply Hbd]|].
  simpl. split; [by rewrite list_lookup_insert_eq by (rewrite length_insert; unfold HEAD; lia)|].
  split; [rewrite list_lookup_insert_ne, list_lookup_insert_eq; [done|lia|done]|].
  assert (Hseg : exists r, l ++ [HEAD] = f :: r) by (subst f; destruct l; simpl; eauto).
  destruct Hseg as [r Hr]. rewrite Hr in *. simpl in *.
  assert (Hnr : b ∉ r /\ f ∉ r).
  { assert (NoDup (f :: r)) as [Hfr _]%NoDup_cons.
    { rewrite <- Hr. apply NoDup_app. split; [done|]. split; [|apply NoDup_singleton].
      intros x Hx ->%list_elem_of_singleton. apply Hbd in Hx. unfold HEAD in Hx. lia. }
    split; [|done]. intros Hin. assert (b ∈ l ++ [HEAD]) by (rewrite Hr; by right). set_solver. }
  split; [|split].
  - rewrite list_lookup_insert_ne, list_lookup_insert_eq by (done || lia). done.
  - rewrite list_lookup_insert_eq by (rewrite length_insert; lia). done.
  - eapply linked_frame; [| |apply Hl].
    + intros x Hx. assert (x ∈ l) as Hxl.
      { assert (Hs : HEAD :: srcs f r = HEAD :: l).
        { change (HEAD :: srcs f r) with (srcs HEAD (f :: r)). by rewrite <- Hr, srcs_snoc. }
        assert (srcs f r = l) as E by congruence. by rewrite E in Hx. }
      rewrite !list_lookup_insert_ne; [done| |]; [set_solver|]. intros <-. apply Hbd in Hxl. unfold HEAD in Hxl. lia.
    + intros x Hx. rewrite !list_lookup_insert_ne; [done| |]; intros ->; tauto.
Qed.

(** Closing the gap left by [b] between its predecessor and [y]. *)
Lemma linked_close n p a l1 b y :
  linked n p a (l1 ++ [b]) -> NoDup (a :: l1) -> y ∉ l1 ->
  (forall z, z ∈ a :: l1 -> (z < length n)%nat) -> (y < length p)%nat ->
  exists x, p !! b = Some x /\ x ∈ a :: l1 /\ linked (<[x := y]> n) (<[y := x]> p) a (l1 ++ [y]).
Proof.
  revert a. induction l1 as [|c l1 IH]; intros a; simpl.
  - intros (_ & Hp & _) _ _ Hn Hy. exists a. split; [done|]. split; [left|].
    rewrite !list_lookup_insert_eq; [done|done|]. apply Hn. left.
  - intros (Hna & Hpc & Hl) [Ha Hnd]%NoDup_cons [Hyc Hy]%not_elem_of_cons Hn Hyb.
    destruct (IH c Hl Hnd Hy) as (x & Hx & Hin & Hlk); [|done|].
    { intros z Hz. apply Hn. by right. }
    exists x. split; [done|]. split; [by right|].
    rewrite list_lookup_insert_ne by (intros ->; done). rewrite list_lookup_insert_ne by done. done.
Qed.

Lemma unlink_dll s l1 b l2 :
  dll (nxt s) (prv s) (l1 ++ b :: l2) -> dll (nxt (unlink b s)) (prv (unlink b s)) (l1 ++ l2).
Proof.
  intros (Hln & Hlp & Hnd & Hbd & Hl). rewrite <- app_assoc in Hl. simpl in Hl.
  assert (Hseg : exists y r, l2 ++ [HEAD] = y :: r) by (destruct l2; simpl; eauto).
  destruct Hseg as (y & r & Hr). rewrite Hr in Hl.
  apply linked_app in Hl as [Hl1 Hl2]. simpl in Hl2. destruct Hl2 as (Hny & Hpy & Hl3).
  assert (Hout : forall z, z ∈ l1 ++ b :: l2 -> z <> HEAD).
  { intros z Hz%Hbd ->. unfold HEAD in Hz. lia. }
  pose proof Hnd as (Hnd1 & Hdis & [Hb2 Hnd2]%NoDup_cons)%NoDup_app.
  assert (Hyin : y ∈ l2 ++ [HEAD]) by (rewrite Hr; left).
  assert (Hyr : NoDup (y :: r)).
  { rewrite <- Hr. apply NoDup_app. split; [done|]. split; [|apply NoDup_singleton].
    intros z Hz ->%list_elem_of_singleton. by apply (Hout HEAD); [set_solver|]. }
  destruct (linked_close (nxt s) (prv s) HEAD l1 b y Hl1) as (x & Hpb & Hx & Hlk).
  { constructor; [|done]. intros Hin. by apply (Hout HEAD); [set_solver|]. }
  { intros Hy. apply elem_of_app in Hyin as [Hy2|Hy2%list_elem_of_singleton].
    - apply (Hdis y Hy). by right.
    - subst y. by apply (Hout HEAD); [set_solver|]. }
  { rewrite Hln. intros z [->|Hz]%elem_of_cons; [unfold HEAD; lia|].
    assert (z < NBUF)%nat; [|lia]. apply Hbd. set_solver. }
  { rewrite Hlp. apply elem_of_app in Hyin as [Hy2| ->%list_elem_of_singleton]; [|unfold HEAD; lia].
    assert (y < NBUF)%nat; [|lia]. apply Hbd. set_solver. }
  unfold unlink. rewrite Hny, Hpb. simpl.
  split; [by rewrite length_insert|]. split; [by rewrite length_insert|].
  split; [apply NoDup_app; split; [done|]; split; [|done]; intros z Hz Hz2; apply (Hdis z Hz); by right|].
  split; [intros z Hz; apply Hbd; set_solver|].
  rewrite <- app_assoc, Hr. apply linked_app. split; [done|].
  assert (Hsr : srcs y r = l2).
  { destruct l2 as [|c l2]; simpl in Hr; injection Hr as <- <-; [done|]. by rewrite srcs_snoc. }
  eapply linked_frame; [| |exact Hl3].
  - intros z Hz. rewrite list_lookup_insert_ne; [done|]. intros ->.
    rewrite Hsr in Hz.
    apply elem_of_cons in Hx as [->|Hx]; [by apply (Hout HEAD); [set_solver|]|]. apply (Hdis z Hx). by right.
  - intros z Hz. rewrite list_lookup_insert_ne; [done|]. intros ->. apply NoDup_cons in Hyr. tauto.
Qed.

Lemma linked_reverse n p a l b : linked n p a (l ++ [b]) -> linked p n b (reverse l ++ [a]).
Proof.
  revert a. induction l as [|c l IH]; intros a; simpl; [tauto|]. intros (Hn & Hp & Hl).
  rewrite reverse_cons, <- app_assoc. apply linked_app. split; [by apply IH|]. simpl. tauto.
Qed.

(** ** Scanning the list *)

(** The first buffer of [l] that satisfies [P]. *)
Fixpoint first_in (bs : list buf) (P : buf -> bool) (l : list nat) : option nat :=
  match l with
  | [] => None
  | b :: l' => match bs !! b with Some x => if P x then Some b else first_in bs P l' | None => None end
  end.

Lemma first_in_Some bs P l b :
  first_in bs P l = Some b -> b ∈ l /\ exists x, bs !! b = Some x /\ P x = true.
Proof.
  induction l as [|c l IH]; simpl; [done|]. destruct (bs !! c) as [x|] eqn:E; [|done].
  destruct (P x) eqn:EP.
  - intros [= <-]. split; [left|eauto].
  - intros [? ?]%IH. split; [by right|done].
Qed.

Lemma first_in_None bs P l b x :
  first_in bs P l = None -> (forall c, c ∈ l -> is_Some (bs !! c)) -> b ∈ l -> bs !! b = Some x -> P x = false.
Proof.
  induction l as [|c l IH]; simpl; [set_solver|]. intros H Hl Hb Hx.
  destruct (bs !! c) as [y|] eqn:E; [|destruct (Hl c) as [? ?]; [left|congruence]].
  destruct (P y) eqn:EP; [done|]. apply elem_of_cons in Hb as [->|Hb]; [congruence|].
  apply IH; [done| |done|done]. intros d Hd. apply Hl. by right.
Qed.

Lemma scan_first_in n p bs P a l fuel :
  linked n p a (l ++ [HEAD]) -> (length l < fuel)%nat -> (forall b, b ∈ l -> (b < NBUF)%nat) ->
  scan n bs P fuel (default HEAD (n !! a)) = first_in bs P l.
Proof.
  revert a fuel. induction l as [|c l IH]; intros a fuel Hl Hf Hb; (destruct fuel as [|fuel]; [simpl in Hf; lia|]).
  - destruct Hl as (-> & _). cbn [scan default]. by rewrite Nat.eqb_refl.
  - simpl in Hl. destruct Hl as (-> & _ & Hl). change (default HEAD (Some c)) with c. cbn [scan first_in].
    destruct (Nat.eqb_spec c HEAD) as [->|_].
    { assert (HEAD < NBUF)%nat by (apply Hb; left). unfold HEAD in *. lia. }
    destruct (bs !! c) as [x|]; [|done]. destruct (P x); [done|].
    apply (IH c fuel Hl); [simpl in Hf; lia|]. intros b Hin. apply Hb. by right.
Qed.

(** ** The cache invariant

    One process at a time uses the cache, so a buffer's reference count is 1
    while that process holds it and 0 otherwise. *)
Definition buf_ok (d : list block) (x : buf) : Prop :=
  b_refcnt x = (if b_locked x then 1 else 0) /\
  ((b_flags x = 0 /\ b_dev x = 0 /\ b_locked x = false) \/
   ((b_flags x = 2 \/ b_flags x = 6) /\ b_dev x = 1 /\ 0 <= b_blockno x < Z.of_nat (length d))) /\
  (b_flags x = 2 -> b_locked x = false -> d !! Z.to_nat (b_blockno x) = Some (b_data x)).

Record bio_ok (s : bio) (l : list nat) : Prop := {
  ok_dll : dll (nxt s) (prv s) l;
  ok_all : length l = NBUF;
  ok_len : length (bufs s) = NBUF;
  ok_uniq i j x y : bufs s !! i = Some x -> bufs s !! j = Some y -> b_dev x = 1 -> b_dev y = 1 ->
    b_blockno x = b_blockno y -> i = j;
  ok_buf i x : bufs s !! i = Some x -> buf_ok (disk s) x
}.

(** Buffer [b] is the one for block [n]. *)
Definition caches (s : bio) (n : Z) (b : nat) (x : buf) : Prop :=
  bufs s !! b = Some x /\ b_dev x = 1 /\ b_blockno x = n.

(** The current contents of block [n]: of its buffer, or of the disk. *)
Definition view (s : bio) (n : Z) : option block :=
  match find_index (is_block 1 n) (bufs s) with
  | Some b => b_data <$> bufs s !! b
  | None => if decide (0 <= n) then disk s !! Z.to_nat n else None
  end.

Definition dirty (s : bio) (n : Z) : Prop := exists b x, caches s n b x /\ b_flags x = 6.
Definition held (s : bio) (b : nat) (n : Z) : Prop := exists x, caches s n b x /\ b_locked x = true.

(** The buffer [b] of block [n], locked by the running process, holds [d]. *)
Definition holds (s : bio) (b : nat) (n : Z) (d : block) : Prop :=
  exists x, caches s n b x /\ b_locked x = true /\ b_data x = d.

Lemma is_block_true n x : is_block 1 n x = true <-> b_dev x = 1 /\ b_blockno x = n.
Proof. unfold is_block. rewrite andb_true_iff, !Z.eqb_eq. done. Qed.

Lemma view_cached s l n b x : bio_ok s l -> caches s n b x -> view s n = Some (b_data x).
Proof.
  intros Hok (Hb & Hd & Hn). unfold view.
  destruct (find_index (is_block 1 n) (bufs s)) as [b'|] eqn:E.
  - apply find_index_Some in E as [(y & Hy & [Hyd Hyn]%is_block_true) _].
    assert (b' = b) as -> by (eapply ok_uniq; eauto; congruence). by rewrite Hb.
  - rewrite find_index_None in E. specialize (E b x Hb).
    rewrite (proj2 (is_block_true n x)) in E; done.
Qed.

Lemma view_uncached s n :
  0 <= n -> (forall b x, ~ caches s n b x) -> view s n = disk s !! Z.to_nat n.
Proof.
  intros Hn Hno. unfold view. destruct (find_index (is_block 1 n) (bufs s)) as [b'|] eqn:E.
  - apply find_index_Some in E as [(y & Hy & [Hyd Hyn]%is_block_true) _]. by destruct (Hno b' y).
  - by rewrite decide_True by done.
Qed.

Lemma cached_dec s n : (exists b x, caches s n b x) \/ (forall b x, ~ caches s n b x).
Proof.
  destruct (find_index (is_block 1 n) (bufs s)) as [b|] eqn:E.
  - apply find_index_Some in E as [(y & Hy & [Hyd Hyn]%is_block_true) _]. left. exists b, y. done.
  - right. rewrite find_index_None in E. intros b x (Hb & Hd & Hn). specialize (E b x Hb).
    by rewrite (proj2 (is_block_true n x)) in E.
Qed.

(** ** Scans of a well-formed cache *)

Lemma bio_scan_next s l P :
  bio_ok s l -> scan (nxt s) (bufs s) P (S NBUF) (default HEAD (nxt s !! HEAD)) = first_in (bufs s) P l.
Proof.
  intros [Hd Hl _ _ _]. destruct Hd as (_ & _ & _ & Hb & Hlk).
  eapply scan_first_in; [exact Hlk|lia|exact Hb].
Qed.

Lemma bio_scan_prev s l P :
  bio_ok s l -> scan (prv s) (bufs s) P (S NBUF) (default HEAD (prv s !! HEAD)) = first_in (bufs s) P (reverse l).
Proof.
  intros [Hd Hl _ _ _]. destruct Hd as (_ & _ & _ & Hb & Hlk).
  eapply scan_first_in; [by apply linked_reverse|rewrite length_reverse; lia|].
  intros b. rewrite elem_of_reverse. apply Hb.
Qed.

(** Every buffer is on the list. *)
Lemma bio_all_linked s l b : bio_ok s l -> (b < NBUF)%nat -> b ∈ l.
Proof.
  intros [Hd Hl _ _ _] Hb. destruct Hd as (_ & _ & Hnd & Hbd & _).
  assert (Hsub : l ⊆+ seq 0 NBUF).
  { apply NoDup_submseteq; [done|]. intros x Hx. apply elem_of_seq. apply Hbd in Hx. lia. }
  apply submseteq_length_Permutation in Hsub; [|by rewrite length_seq, Hl].
  rewrite Hsub. apply elem_of_seq. lia.
Qed.

Lemma bio_on_list s l b x : bio_ok s l -> bufs s !! b = Some x -> b ∈ l.
Proof. intros Hok Hb. eapply bio_all_linked; [done|]. rewrite <- (ok_len _ _ Hok). by eapply lookup_lt_Some. Qed.

Lemma bio_listed s l : bio_ok s l -> forall c, c ∈ l -> is_Some (bufs s !! c).
Proof.
  intros Hok c Hc. apply lookup_lt_is_Some_2. rewrite (ok_len _ _ Hok). by apply (ok_dll _ _ Hok).
Qed.

(** ** Rules for the primitives *)

Definition put_buf (b : nat) (x : buf) (s : bio) : bio := set_bufs (<[b := x]> (bufs s)) s.

Lemma bufat_eq b x s : bufs s !! b = Some x -> bufat b s = Ret x s.
Proof. unfold bufat. by intros ->. Qed.

Lemma bufupd_eq b f x s : bufs s !! b = Some x -> bufupd b f s = Ret tt (put_buf b (f x) s).
Proof. intros Hx. unfold bufupd, put_buf, modify. by rewrite (alter_Some f _ b x). Qed.

Lemma put_buf_lookup b x s c :
  (b < length (bufs s))%nat -> bufs (put_buf b x s) !! c = if decide (c = b) then Some x else bufs s !! c.
Proof.
  intros Hb. unfold put_buf. simpl. case_decide as E; subst; [by rewrite list_lookup_insert_eq|].
  by rewrite list_lookup_insert_ne.
Qed.

Lemma put_buf_put b x y s : put_buf b x (put_buf b y s) = put_buf b x s.
Proof. unfold put_buf, set_bufs. simpl. by rewrite list_insert_insert_eq. Qed.

Lemma caches_put s b x0 x n c y :
  bufs s !! b = Some x0 ->
  caches (put_buf b x s) n c y <->
  (c = b /\ y = x /\ b_dev x = 1 /\ b_blockno x = n) \/ (c <> b /\ caches s n c y).
Proof.
  intros Hb. unfold caches. rewrite put_buf_lookup by (by eapply lookup_lt_Some). case_decide; naive_solver.
Qed.

Lemma bio_ok_put s l b x0 x :
  bio_ok s l -> bufs s !! b = Some x0 -> buf_ok (disk s) x ->
  (b_dev x = 1 -> (b_dev x0 = 1 /\ b_blockno x = b_blockno x0) \/
     (forall c y, c <> b -> ~ caches s (b_blockno x) c y)) ->
  bio_ok (put_buf b x s) l.
Proof.
  intros [Hd Hl Hlen Hu Hbuf] Hb Hx Hor. assert (Hlt : (b < length (bufs s))%nat) by (by eapply lookup_lt_Some).
  split; try done.
  - unfold put_buf. simpl. by rewrite length_insert.
  - intros i j y z. rewrite !put_buf_lookup by done. intros Hi Hj Hy Hz He.
    destruct (decide (i = b)) as [->|Hib], (decide (j = b)) as [->|Hjb]; simplify_eq; [done| | |by eauto].
    + destruct Hor as [[H1 H2]|H']; [done|eapply Hu; eauto; congruence|]. exfalso. by apply (H' j z).
    + destruct Hor as [[H1 H2]|H']; [done|eapply Hu; eauto; congruence|]. exfalso. by apply (H' i y).
  - intros i y. rewrite put_buf_lookup by done. case_decide; [by intros [= <-]|apply Hbuf].
Qed.

(** The view of a state whose buffer [b] was replaced. *)
Lemma view_put s l b x0 x n :
  bio_ok s l -> bio_ok (put_buf b x s) l -> bufs s !! b = Some x0 -> 0 <= n ->
  view (put_buf b x s) n =
    if decide (b_dev x = 1 /\ b_blockno x = n) then Some (b_data x)
    else if decide (b_dev x0 = 1 /\ b_blockno x0 = n) then disk s !! Z.to_nat n
    else view s n.
Proof.
  intros Hok Hok' Hb Hn. case_decide as E1.
  - eapply view_cached; [exact Hok'|]. eapply caches_put; [done|]. left. tauto.
  - case_decide as E2.
    + rewrite view_uncached; [done|done|]. intros c y [(-> & -> & ?)|(Hne & Hc & Hd & Hbn)]%(caches_put _ _ _ _ _ _ _ Hb); [tauto|].
      apply Hne. eapply ok_uniq; [exact Hok|exact Hc|exact Hb|done|tauto|]. destruct E2. congruence.
    + destruct (cached_dec s n) as [(c & y & Hc)|Hno].
      * assert (c <> b). { intros ->. destruct Hc as (Hcb & ? & ?). simplify_eq. tauto. }
        rewrite (view_cached s l n c y) by done. eapply view_cached; [exact Hok'|]. apply (caches_put _ _ _ _ _ _ _ Hb). by right.
      * rewrite !view_uncached; try done.
        intros c y [(-> & -> & ?)|(Hne & Hc)]%(caches_put _ _ _ _ _ _ _ Hb); [tauto|]. by eapply Hno.
Qed.
