(* ===== verification/BioSpec.v ===== *)
(** * The abstract buffer cache

    What [bio.c] promises to the log: a disk with a volatile view of it.  A
    client reads a block and so holds its buffer, changes the data it sees,
    writes the buffer through, pins it ([B_DIRTY]) or releases it.  The list
    order, the buffer numbers and the reference counts are gone; the
    operations of [Bio] are shown to implement these. *)
From stdpp Require Import gmap.
From S2P Require Import Prelude Bio.
Local Open Scope nat_scope.

Record cache := mkCache {
  c_view : list block;
  c_disk : list block;
  c_dirty : gset nat;
  c_held : gset nat;
  c_hist : list (list block)
}.

(** [h] names the buffer in which a held block is. *)
Record represents (s : bio) (h : gmap nat nat) (a : cache) : Prop := {
  r_ok : exists l, bio_ok s l;
  r_disk : c_disk a = disk s;
  r_hist : c_hist a = hist s;
  r_view n : c_view a !! n = view s (Z.of_nat n);
  r_dirty n : n ∈ c_dirty a <-> dirty s (Z.of_nat n);
  r_dom : c_held a = dom h;
  r_held n b : h !! n = Some b <-> held s b (Z.of_nat n)
}.

Definition s_bread (n : nat) (a : cache) : cache :=
  mkCache (c_view a) (c_disk a) (c_dirty a) ({[n]} ∪ c_held a) (c_hist a).
Definition s_set (n : nat) (d : block) (a : cache) : cache :=
  mkCache (<[n := d]> (c_view a)) (c_disk a) (c_dirty a) (c_held a) (c_hist a).
Definition s_bwrite (n : nat) (a : cache) : cache :=
  mkCache (c_view a) (<[n := default ([] : block) (c_view a !! n)]> (c_disk a)) (c_dirty a ∖ {[n]}) (c_held a)
    (c_disk a :: c_hist a).
Definition s_pin (n : nat) (a : cache) : cache :=
  mkCache (c_view a) (c_disk a) ({[n]} ∪ c_dirty a) (c_held a) (c_hist a).
Definition s_brelse (n : nat) (a : cache) : cache :=
  mkCache (c_view a) (c_disk a) (c_dirty a) (c_held a ∖ {[n]}) (c_hist a).

(** ** Facts about represented caches *)

Lemma caches_fun s l n b x c y : bio_ok s l -> caches s n b x -> caches s n c y -> c = b /\ y = x.
Proof.
  intros Hok (Hb & Hd & Hn) (Hc & Hd' & Hn'). assert (c = b) as -> by (eapply ok_uniq; eauto; congruence).
  split; congruence.
Qed.

Lemma caches_range s l n b x :
  bio_ok s l -> caches s n b x ->
  (b_flags x = 2 \/ b_flags x = 6)%Z /\ (0 <= n < Z.of_nat (length (disk s)))%Z.
Proof.
  intros Hok (Hb & Hd & <-). destruct (ok_buf _ _ Hok b x Hb) as (_ & [(_ & ? & _)|(? & _ & ?)] & _); [lia|done].
Qed.

Lemma r_len s h a : represents s h a -> length (c_view a) = length (c_disk a).
Proof.
  intros R. destruct (r_ok _ _ _ R) as [l Hok].
  assert (Hiff : forall n, is_Some (c_view a !! n) <-> is_Some (c_disk a !! n)).
  { intros n. rewrite (r_view _ _ _ R), (r_disk _ _ _ R).
    destruct (cached_dec s (Z.of_nat n)) as [(b & x & Hc)|Hno].
    - rewrite (view_cached s l _ b x) by done. split; [|eauto]. intros _.
      apply lookup_lt_is_Some_2. destruct (caches_range _ _ _ _ _ Hok Hc). lia.
    - rewrite view_uncached by (done || lia). by rewrite Nat2Z.id. }
  destruct (Nat.lt_trichotomy (length (c_view a)) (length (c_disk a))) as [H|[H|H]]; [|done|].
  - apply lookup_lt_is_Some in H. apply Hiff, lookup_lt_is_Some in H. lia.
  - apply lookup_lt_is_Some in H. apply Hiff, lookup_lt_is_Some in H. lia.
Qed.

Lemma r_holder s h a n b :
  represents s h a -> h !! n = Some b ->
  exists f d, bufs s !! b = Some (mkBuf f 1 (Z.of_nat n) true 1 d) /\ (f = 2 \/ f = 6)%Z /\
    c_view a !! n = Some d /\ (f = 6%Z <-> n ∈ c_dirty a) /\ (n < length (c_disk a)).
Proof.
  intros R Hb. destruct (r_ok _ _ _ R) as [l Hok].
  apply (r_held _ _ _ R) in Hb as (x & Hc & Hl). destruct (caches_range _ _ _ _ _ Hok Hc) as [Hf Hlt].
  assert (Hv : c_view a !! n = Some (b_data x)) by (by rewrite (r_view _ _ _ R), (view_cached s l _ b x)).
  destruct (Hc) as (Hbx & Hd & Hn). destruct (ok_buf _ _ Hok b x Hbx) as (Hr & _). rewrite Hl in Hr.
  destruct x as [f dev bn lk rc d]. simpl in *. subst. exists f, d.
  do 3 (split; [done|]). rewrite (r_dirty _ _ _ R), (r_disk _ _ _ R). split; [|lia]. split.
  - intros ->. by exists b, (mkBuf 6 1 (Z.of_nat n) true 1 d).
  - intros (c & y & Hcy & H6). by destruct (caches_fun _ _ _ _ _ _ _ Hok Hc Hcy) as [-> ->].
Qed.

(** A block that is neither held nor pinned is in its place on the disk. *)
Lemma r_clean s h a n :
  represents s h a -> n ∉ c_held a -> n ∉ c_dirty a -> c_view a !! n = c_disk a !! n.
Proof.
  intros R Hh Hd. destruct (r_ok _ _ _ R) as [l Hok]. rewrite (r_view _ _ _ R), (r_disk _ _ _ R).
  destruct (cached_dec s (Z.of_nat n)) as [(b & x & Hc)|Hno];
    [|rewrite view_uncached by (done || lia); by rewrite Nat2Z.id].
  rewrite (view_cached s l _ b x) by done. destruct (caches_range _ _ _ _ _ Hok Hc) as [[Hf|Hf] _].
  - destruct (Hc) as (Hbx & _ & Hn). destruct (ok_buf _ _ Hok b x Hbx) as (_ & _ & H).
    destruct (b_locked x) eqn:El.
    + destruct Hh. rewrite (r_dom _ _ _ R). apply elem_of_dom. exists b. apply (r_held _ _ _ R). exists x. done.
    + rewrite <- H by done. by rewrite Hn, Nat2Z.id.
  - destruct Hd. apply (r_dirty _ _ _ R). exists b, x. done.
Qed.

(** ** Replacing one buffer, and writing its block *)

Definition toggle (v : bool) (n : nat) (X : gset nat) : gset nat := if v then {[n]} ∪ X else X ∖ {[n]}.

Lemma elem_of_toggle v n m X : m ∈ toggle v n X <-> if decide (m = n) then v = true else m ∈ X.
Proof. unfold toggle. destruct v; case_decide; set_solver. Qed.

Lemma rep_put s h a b n x0 x :
  represents s h a -> caches s (Z.of_nat n) b x0 -> b_dev x = 1%Z -> b_blockno x = Z.of_nat n ->
  buf_ok (disk s) x ->
  represents (put_buf b x s) (if b_locked x then <[n := b]> h else delete n h)
    (mkCache (<[n := b_data x]> (c_view a)) (c_disk a) (toggle (b_flags x =? 6)%Z n (c_dirty a))
       (toggle (b_locked x) n (c_held a)) (c_hist a)).
Proof.
  intros R Hc Hd Hn Hx. destruct (r_ok _ _ _ R) as [l Hok]. destruct (Hc) as (Hb & Hd0 & Hn0).
  assert (Hok' : bio_ok (put_buf b x s) l) by (eapply bio_ok_put; eauto; intros _; left; split; congruence).
  assert (Hcp : forall m c y, caches (put_buf b x s) (Z.of_nat m) c y <->
    if decide (m = n) then c = b /\ y = x else caches s (Z.of_nat m) c y).
  { intros m c y. rewrite (caches_put _ _ _ _ _ _ _ Hb). case_decide as Em; subst.
    - split; [|naive_solver]. intros [?|[? Hcy]]; [naive_solver|]. by destruct (caches_fun _ _ _ _ _ _ _ Hok Hc Hcy).
    - split; [|intros Hcy; right; split; [|done]].
      + intros [(_ & _ & _ & ?)|[_ ?]]; [lia|done].
      + intros ->. destruct Hcy as (Hcy & _ & ?). simplify_eq. lia. }
  split; simpl.
  - by exists l.
  - apply R.
  - apply R.
  - intros m. rewrite (view_put s l b x0 x (Z.of_nat m)) by (done || lia). destruct (decide (m = n)) as [->|Hm].
    + rewrite decide_True by done. apply list_lookup_insert_eq.
      rewrite (r_len _ _ _ R), (r_disk _ _ _ R). destruct (caches_range _ _ _ _ _ Hok Hc). lia.
    + rewrite !decide_False by lia. rewrite list_lookup_insert_ne by done. apply R.
  - intros m. rewrite elem_of_toggle. unfold dirty. setoid_rewrite Hcp. case_decide; [|apply R].
    rewrite Z.eqb_eq. naive_solver.
  - rewrite (r_dom _ _ _ R). unfold toggle. destruct (b_locked x); set_solver.
  - intros m c. unfold held. setoid_rewrite Hcp. destruct (decide (m = n)) as [->|Hm].
    + clear Hcp. destruct (b_locked x) eqn:El; [rewrite lookup_insert_eq|rewrite lookup_delete_eq]; split.
      * intros [= <-]. eauto.
      * by intros (? & [-> ->] & _).
      * done.
      * intros (? & [-> ->] & ?). congruence.
    + destruct (b_locked x); [rewrite lookup_insert_ne by done|rewrite lookup_delete_ne by done]; apply R.
Qed.

Lemma rep_disk s h a b n d :
  represents s h a -> h !! n = Some b ->
  represents (set_disk (<[n := d]> (disk s)) s) h
    (mkCache (c_view a) (<[n := d]> (c_disk a)) (c_dirty a) (c_held a) (c_disk a :: c_hist a)).
Proof.
  intros R Hn. destruct (r_ok _ _ _ R) as [l Hok].
  apply (r_held _ _ _ R) in Hn as (x & Hc & Hl).
  split; simpl; try apply R.
  - exists l. destruct Hok as [? ? ? Hu Hbuf]. split; try done. intros i y Hy. simpl.
    destruct (Hbuf i y Hy) as (? & Hfl & Hcl). split; [done|]. rewrite length_insert. split; [done|].
    intros Hf Hly. rewrite list_lookup_insert_ne; [by apply Hcl|]. intros Hne.
    destruct Hc as (Hb & Hd & Hbn). destruct Hfl as [[? _]|(_ & Hdy & ? & _)]; [lia|].
    assert (i = b) as -> by (apply (Hu i b y x); try done; lia). change (bufs s !! b = Some y) in Hy. congruence.
  - by rewrite (r_disk _ _ _ R).
  - by rewrite (r_disk _ _ _ R), (r_hist _ _ _ R).
  - intros m. rewrite (r_view _ _ _ R). destruct (cached_dec s (Z.of_nat m)) as [(c & y & Hcy)|Hno].
    + unfold view. simpl. destruct (find_index _ _) eqn:E; [done|]. rewrite find_index_None in E.
      destruct Hcy as (Hy & Hyd & Hyn). specialize (E c y Hy). by rewrite (proj2 (is_block_true _ _)) in E.
    + rewrite view_uncached by (done || lia). symmetry. rewrite view_uncached by (done || lia). simpl.
      rewrite list_lookup_insert_ne; [done|]. intros ->. rewrite Nat2Z.id in Hc. by apply (Hno b x).
Qed.

(** The state after an operation is determined up to the presentation of its
    finite sets. *)
Lemma rep_eq s h h' a a' :
  represents s h a -> h = h' -> a = a' -> represents s h' a'.
Proof. by intros ? -> ->. Qed.

(** ** The operations implement the abstract ones *)

Lemma holder_put s h a b n f0 d0 f d :
  represents s h a -> h !! n = Some b -> bufs s !! b = Some (mkBuf f0 1 (Z.of_nat n) true 1 d0) ->
  (f = 2 \/ f = 6)%Z ->
  represents (put_buf b (mkBuf f 1 (Z.of_nat n) true 1 d) s) h
    (mkCache (<[n := d]> (c_view a)) (c_disk a) (toggle (f =? 6)%Z n (c_dirty a)) (c_held a) (c_hist a)).
Proof.
  intros R Hn Hb Hf. destruct (r_holder _ _ _ _ _ R Hn) as (_ & _ & _ & _ & _ & _ & Hlt).
  eapply rep_eq; [eapply (rep_put s h a b n); try done| |].
  - split; [done|]. split; [|done]. right. rewrite <- (r_disk _ _ _ R). split; [done|]. simpl. lia.
  - simpl. by apply insert_id.
  - simpl. f_equal. unfold toggle. assert (n ∈ c_held a); [|set_solver].
    rewrite (r_dom _ _ _ R). by apply elem_of_dom_2 in Hn.
Qed.

Lemma toggle_id v n X : (v = true <-> n ∈ X) -> toggle v n X = X.
Proof. intros H. apply set_eq. intros m. rewrite elem_of_toggle. case_decide; naive_solver. Qed.

Lemma set_data_spec s h a b n d :
  represents s h a -> h !! n = Some b ->
  exists s', bufupd b (set_data d) s = Ret tt s' /\ represents s' h (s_set n d a).
Proof.
  intros R Hn. destruct (r_holder _ _ _ _ _ R Hn) as (f & d0 & Hb & Hf & Hv & H6 & _).
  eexists. split; [by apply bufupd_eq|].
  eapply rep_eq; [by apply (holder_put s h a b n f d0 f d)|done|].
  unfold s_set. f_equal. apply toggle_id. by rewrite Z.eqb_eq.
Qed.

(** [b->flags |= B_DIRTY] *)
Lemma pin_spec s h a b n :
  represents s h a -> h !! n = Some b ->
  exists s', bufupd b (fun x => set_flags (Z.lor (b_flags x) B_DIRTY) x) s = Ret tt s' /\
    represents s' h (s_pin n a).
Proof.
  intros R Hn. destruct (r_holder _ _ _ _ _ R Hn) as (f & d0 & Hb & Hf & Hv & H6 & _).
  eexists. split; [by apply bufupd_eq|].
  assert (Z.lor f B_DIRTY = 6%Z) as E by (destruct Hf as [-> | ->]; done).
  unfold set_flags. cbn [b_flags b_dev b_blockno b_locked b_refcnt b_data]. rewrite E.
  eapply rep_eq; [apply (holder_put s h a b n f d0 6 d0); auto|done|].
  unfold s_pin. simpl. f_equal. by apply list_insert_id.
Qed.

Lemma put_buf_eq b x s : b < length (bufs s) -> bufs (put_buf b x s) !! b = Some x.
Proof. intros H. by rewrite put_buf_lookup, decide_True. Qed.

(** Run the next access to buffer [b], whose contents are known. *)
Ltac bstep H :=
  first [ eapply bind_eq; [first [apply bufat_eq | apply bufupd_eq]; exact H|]
        | apply bufupd_eq; exact H ];
  cbn [b_flags b_dev b_blockno b_locked b_refcnt b_data set_flags set_data set_locked set_refcnt negb].

Lemma iderw_write b n rc d s :
  bufs s !! b = Some (mkBuf 6 1 (Z.of_nat n) true rc d) -> n < length (disk s) ->
  iderw b s = Ret tt (set_disk (<[n := d]> (disk s)) (put_buf b (mkBuf 2 1 (Z.of_nat n) true rc d) s)).
Proof.
  intros Hb Hn. pose proof (lookup_lt_Some _ _ _ Hb) as Hlt. pose proof put_buf_eq as Hp.
  unfold iderw. bstep Hb. simpl. eapply bind_eq; [reflexivity|]. rewrite (proj2 (Z.leb_gt _ _)) by lia.
  eapply bind_eq.
  { bstep Hb. reflexivity. }
  etrans; [eapply bufupd_eq; simpl; apply list_lookup_insert_eq; done|].
  rewrite Nat2Z.id. unfold put_buf, set_bufs, set_disk. simpl. by rewrite list_insert_insert_eq.
Qed.

Lemma iderw_read b n rc d0 d s :
  bufs s !! b = Some (mkBuf 0 1 (Z.of_nat n) true rc d0) -> disk s !! n = Some d ->
  iderw b s = Ret tt (put_buf b (mkBuf 2 1 (Z.of_nat n) true rc d) s).
Proof.
  intros Hb Hn. pose proof (lookup_lt_Some _ _ _ Hb) as Hlt. pose proof (lookup_lt_Some _ _ _ Hn) as Hln.
  unfold iderw. bstep Hb. simpl. eapply bind_eq; [reflexivity|]. rewrite (proj2 (Z.leb_gt _ _)) by lia.
  rewrite Nat2Z.id.
  rewrite Hn. eapply bind_eq; [by apply bufupd_eq|].
  etrans; [eapply bufupd_eq; simpl; apply list_lookup_insert_eq; done|]. simpl. by rewrite put_buf_put.
Qed.

Lemma bwrite_spec s h a b n :
  represents s h a -> h !! n = Some b ->
  exists s', bwrite b s = Ret tt s' /\ represents s' h (s_bwrite n a).
Proof.
  intros R Hn. destruct (r_holder _ _ _ _ _ R Hn) as (f & d & Hb & Hf & Hv & H6 & Hlt).
  rewrite (r_disk _ _ _ R) in Hlt. pose proof (lookup_lt_Some _ _ _ Hb) as Hbl.
  assert (Z.lor f B_DIRTY = 6%Z) as E by (destruct Hf as [-> | ->]; done).
  set (s1 := put_buf b (mkBuf 2 1 (Z.of_nat n) true 1 d) s).
  exists (set_disk (<[n := d]> (disk s1)) s1). split.
  - unfold bwrite. bstep Hb. bstep Hb. rewrite E. etrans; [apply iderw_write; [by apply put_buf_eq|done]|].
    by rewrite put_buf_put.
  - eapply rep_eq; [eapply (rep_disk s1); [by apply (holder_put s h a b n f d 2 d); auto|done]|done|].
    unfold s_bwrite, toggle. simpl. rewrite Hv. simpl. f_equal. by apply list_insert_id.
Qed.

(** Moving a buffer to the front of the list. *)
Lemma bio_ok_front s l1 b l2 :
  bio_ok s (l1 ++ b :: l2) -> bio_ok (push_front b (unlink b s)) (b :: l1 ++ l2).
Proof.
  intros [Hd Hl Hlen Hu Hb]. split; try done; [|rewrite <- Hl; simpl; rewrite !length_app; simpl; lia].
  apply push_front_dll; [by apply unlink_dll| |].
  - destruct Hd as (_ & _ & Hnd & _). rewrite <- Permutation_middle in Hnd. by apply NoDup_cons in Hnd as [? _].
  - apply Hd. set_solver.
Qed.

Lemma rep_front s h a b x :
  represents s h a -> bufs s !! b = Some x -> represents (push_front b (unlink b s)) h a.
Proof.
  intros R Hb. destruct (r_ok _ _ _ R) as [l Hok].
  pose proof (bio_on_list _ _ _ _ Hok Hb) as (l1 & l2 & ->)%list_elem_of_split.
  pose proof (bio_ok_front _ _ _ _ Hok). split; try apply R. by eexists.
Qed.

Lemma brelse_spec s h a b n :
  represents s h a -> h !! n = Some b -> (n ∈ c_dirty a \/ c_view a !! n = c_disk a !! n) ->
  exists s', brelse b s = Ret tt s' /\ represents s' (delete n h) (s_brelse n a).
Proof.
  intros R Hn Hcl. destruct (r_holder _ _ _ _ _ R Hn) as (f & d & Hb & Hf & Hv & H6 & Hlt).
  pose proof (lookup_lt_Some _ _ _ Hb) as Hbl.
  set (x := mkBuf f 1 (Z.of_nat n) false 0 d). exists (push_front b (unlink b (put_buf b x s))). split.
  - unfold brelse. bstep Hb. unfold releasesleep. bstep Hb.
    eapply bind_eq; [apply bufupd_eq, put_buf_eq, Hbl|]. simpl. rewrite put_buf_put.
    eapply bind_eq; [apply bufat_eq, put_buf_eq, Hbl|]. done.
  - eapply rep_front; [|by apply put_buf_eq].
    eapply rep_eq; [eapply (rep_put s h a b n _ x R); try done|done|].
    + split; [done|]. rewrite <- (r_disk _ _ _ R). simpl. split; [right; split; [done|lia]|].
      intros -> _. rewrite Nat2Z.id. destruct Hcl as [Hcl%H6|Hcl]; [done|congruence].
    + unfold s_brelse, toggle. simpl. f_equal; [by apply list_insert_id|]. apply toggle_id. by rewrite Z.eqb_eq.
Qed.

(** ** [bread] *)

(** Some buffer can be recycled. *)
Definition avail (s : bio) : Prop := exists b x, bufs s !! b = Some x /\ recyclable x = true.

Lemma recyclable_clean s l b x :
  bio_ok s l -> bufs s !! b = Some x -> recyclable x = true -> b_locked x = false /\ b_flags x <> 6%Z.
Proof.
  intros Hok Hb [Hr Hf]%andb_true_iff. destruct (ok_buf _ _ Hok b x Hb) as (Hrc & _).
  apply Z.eqb_eq in Hr. rewrite Hr in Hrc. destruct (b_locked x); [done|]. split; [done|].
  intros H6. unfold flag in Hf. by rewrite H6 in Hf.
Qed.

Lemma first_block s l n b x :
  bio_ok s l -> caches s n b x -> first_in (bufs s) (is_block 1 n) l = Some b.
Proof.
  intros Hok Hc. destruct (first_in _ _ _) as [c|] eqn:E.
  - apply first_in_Some in E as (_ & y & Hy & [Hd Hn]%is_block_true).
    by destruct (caches_fun s l n b x c y Hok Hc) as [-> _].
  - destruct Hc as (Hb & Hd & Hn).
    apply (first_in_None _ _ _ b x) in E; [|by apply bio_listed|by eapply bio_on_list|done].
    by rewrite (proj2 (is_block_true n x)) in E.
Qed.

Lemma first_block_None s l n :
  (forall b x, ~ caches s n b x) -> first_in (bufs s) (is_block 1 n) l = None.
Proof.
  intros Hno. destruct (first_in _ _ _) as [c|] eqn:E; [|done].
  apply first_in_Some in E as (_ & y & Hy & [Hd Hn]%is_block_true). by destruct (Hno c y).
Qed.

Lemma bread_hit s h a b x n :
  represents s h a -> caches s (Z.of_nat n) b x -> n ∉ c_held a ->
  exists s', bread 1 (Z.of_nat n) s = Ret b s' /\ represents s' (<[n := b]> h) (s_bread n a).
Proof.
  intros R Hc Hnh. destruct (r_ok _ _ _ R) as [l Hok]. destruct (caches_range _ _ _ _ _ Hok Hc) as [Hf Hlt].
  destruct (Hc) as (Hb & Hd & Hbn). pose proof (lookup_lt_Some _ _ _ Hb) as Hbl.
  destruct (b_locked x) eqn:El.
  { destruct Hnh. rewrite (r_dom _ _ _ R). apply elem_of_dom. exists b. apply (r_held _ _ _ R). by exists x. }
  destruct (ok_buf _ _ Hok b x Hb) as (Hr & _ & _). rewrite El in Hr.
  pose proof (view_cached s l _ b x Hok Hc) as Hv. rewrite <- (r_view _ _ _ R) in Hv.
  destruct x as [f dev bn lk rc d]. simpl in *. subst.
  set (x := mkBuf f 1 (Z.of_nat n) true 1 d). exists (put_buf b x s). split.
  - unfold bread. eapply bind_eq.
    + unfold bget. eapply bind_eq; [reflexivity|]. rewrite (bio_scan_next s l) by done.
      rewrite (first_block s l _ b _ Hok Hc).
      bstep Hb. eapply bind_eq; [|reflexivity]. unfold acquiresleep.
      eapply bind_eq; [apply bufat_eq, put_buf_eq, Hbl|]. simpl.
      etrans; [apply bufupd_eq, put_buf_eq, Hbl|]. by rewrite put_buf_put.
    + eapply bind_eq; [by apply bufat_eq, put_buf_eq|]. by destruct Hf as [-> | ->].
  - eapply rep_eq; [eapply (rep_put s h a b n _ x R Hc); try done|done|].
    + split; [done|]. split; [right; done|done].
    + unfold s_bread. simpl. f_equal; [by apply list_insert_id|]. apply toggle_id.
      rewrite Z.eqb_eq, (r_dirty _ _ _ R). split; [intros ->; by eexists _, _|].
      intros (c & y & Hcy & H6). by destruct (caches_fun _ _ _ _ _ _ _ Hok Hc Hcy) as [-> ->].
Qed.

Lemma rep_recycle s h a b x n d :
  represents s h a -> (forall c y, ~ caches s (Z.of_nat n) c y) ->
  bufs s !! b = Some x -> recyclable x = true -> disk s !! n = Some d ->
  represents (put_buf b (mkBuf 2 1 (Z.of_nat n) true 1 d) s) (<[n := b]> h) (s_bread n a).
Proof.
  intros R Hno Hb Hrec Hd. destruct (r_ok _ _ _ R) as [l Hok]. pose proof (lookup_lt_Some _ _ _ Hd) as Hdl.
  destruct (recyclable_clean _ _ _ _ Hok Hb Hrec) as [Hlk H6]. set (x' := mkBuf _ _ _ _ _ _).
  assert (Hok' : bio_ok (put_buf b x' s) l).
  { eapply bio_ok_put; [done|done| |].
    - split; [done|]. split; [right; simpl; split; [by left|]; split; [done|lia]|done].
    - intros _. right. intros c y _. apply Hno. }
  pose proof (fun m c y => caches_put s b x x' m c y Hb) as Hcp.
  split; simpl; [by eexists|apply R|apply R| | | |].
  - intros m. rewrite (view_put s l b x x' (Z.of_nat m)) by (done || lia). rewrite (r_view _ _ _ R).
    case_decide as E1.
    + assert (m = n) as -> by (simpl in E1; lia). rewrite view_uncached by (done || lia). simpl. by rewrite Nat2Z.id.
    + case_decide as E2; [|done]. destruct E2 as [E2 E3]. rewrite (view_cached s l _ b x) by done.
      destruct (ok_buf _ _ Hok b x Hb) as (_ & [(? & ? & _)|([Hf|Hf] & _ & _)] & Hdk); [lia| |done].
      symmetry. rewrite <- E3. by apply Hdk.
  - intros m. rewrite (r_dirty _ _ _ R). split; intros (c & y & Hcy & Hy6).
    + exists c, y. split; [apply Hcp; right; split; [|done]|done]. intros ->. destruct Hcy as (? & _). congruence.
    + apply Hcp in Hcy as [(-> & -> & _)|[_ ?]]; [done|by exists c, y].
  - rewrite (r_dom _ _ _ R). set_solver.
  - intros m c. destruct (decide (m = n)) as [->|Hm].
    + rewrite lookup_insert_eq. split; [intros [= <-]; exists x'; split; [apply Hcp; by left|done]|].
      intros (y & [(-> & _)|[_ Hcy]]%Hcp & _); [done|]. by apply Hno in Hcy.
    + rewrite lookup_insert_ne, (r_held _ _ _ R) by done. split; intros (y & Hcy & Hy).
      * exists y. split; [apply Hcp; right; split; [|done]|done]. intros ->. destruct Hcy as (? & _). congruence.
      * apply Hcp in Hcy as [(_ & _ & _ & ?)|[_ ?]]; [simpl in *; lia|by exists y].
Qed.

Lemma bread_miss s l h a b n d :
  represents s h a -> bio_ok s l -> (forall c y, ~ caches s (Z.of_nat n) c y) ->
  first_in (bufs s) recyclable (reverse l) = Some b -> disk s !! n = Some d ->
  exists s', bread 1 (Z.of_nat n) s = Ret b s' /\ represents s' (<[n := b]> h) (s_bread n a).
Proof.
  intros R Hok Hno Hf Hd. apply first_in_Some in Hf as Hx. destruct Hx as (_ & x & Hb & Hrec).
  pose proof (lookup_lt_Some _ _ _ Hb) as Hbl. destruct (recyclable_clean _ _ _ _ Hok Hb Hrec) as [Hlk _].
  exists (put_buf b (mkBuf 2 1 (Z.of_nat n) true 1 d) s). split; [|by eapply rep_recycle].
  unfold bread. eapply bind_eq.
  - unfold bget. eapply bind_eq; [reflexivity|]. rewrite (bio_scan_next s l), (bio_scan_prev s l) by done.
    rewrite first_block_None, Hf by done. bstep Hb. eapply bind_eq; [|reflexivity]. unfold acquiresleep.
    eapply bind_eq; [apply bufat_eq, put_buf_eq, Hbl|]. simpl. rewrite Hlk.
    etrans; [apply bufupd_eq, put_buf_eq, Hbl|]. by rewrite put_buf_put.
  - eapply bind_eq; [by apply bufat_eq, put_buf_eq|]. simpl. eapply bind_eq; [|reflexivity].
    etrans; [eapply iderw_read; [by apply put_buf_eq|done]|]. by rewrite put_buf_put.
Qed.

(** With fewer than [NBUF] blocks held or pinned some buffer can be recycled. *)
Lemma pigeonhole s h a :
  represents s h a -> size (c_dirty a ∪ c_held a) < NBUF -> avail s.
Proof.
  intros R Hsz. destruct (r_ok _ _ _ R) as [l Hok].
  destruct (decide (Exists (fun x => recyclable x = true) (bufs s))) as [He|He].
  { apply Exists_exists in He as (x & Hx & Hr). apply list_elem_of_lookup in Hx as [b Hb]. by exists b, x. }
  exfalso. apply not_Exists_Forall in He; [|intros x; apply _]. rewrite Forall_lookup in He.
  assert (Hbusy : forall b x, bufs s !! b = Some x ->
    exists n, b_dev x = 1%Z /\ b_blockno x = Z.of_nat n /\ n ∈ c_dirty a ∪ c_held a).
  { intros b x Hb. specialize (He b x Hb). destruct (ok_buf _ _ Hok b x Hb) as (Hr & Hf & _).
    destruct Hf as [(Hf & _ & Hlk)|(Hf & Hd & Hr0 & _)].
    - destruct He. unfold recyclable, flag. by rewrite Hr, Hlk, Hf.
    - exists (Z.to_nat (b_blockno x)). split; [done|]. rewrite Z2Nat.id by done. split; [done|].
      apply elem_of_union. assert (Hc : caches s (Z.of_nat (Z.to_nat (b_blockno x))) b x).
      { split; [done|]. split; [done|]. by rewrite Z2Nat.id. }
      destruct (b_locked x) eqn:El.
      + right. rewrite (r_dom _ _ _ R). apply elem_of_dom. exists b. apply (r_held _ _ _ R). by exists x.
      + left. apply (r_dirty _ _ _ R). exists b, x. split; [done|]. destruct Hf as [Hf|Hf]; [|done].
        destruct He. unfold recyclable, flag. by rewrite Hr, Hf. }
  set (L := (fun x => Z.to_nat (b_blockno x)) <$> bufs s).
  assert (HL : NoDup L).
  { apply NoDup_alt. intros i j n Hi Hj. subst L. rewrite list_lookup_fmap in Hi, Hj.
    destruct (bufs s !! i) as [x|] eqn:Ei; [|done]. destruct (bufs s !! j) as [y|] eqn:Ej; [|done].
    destruct (Hbusy _ _ Ei) as (n1 & ? & ? & _), (Hbusy _ _ Ej) as (n2 & ? & ? & _).
    simpl in *. apply (ok_uniq _ _ Hok i j x y Ei Ej); [done|done|]. simplify_eq. lia. }
  assert (Hsub : list_to_set L ⊆ c_dirty a ∪ c_held a).
  { intros n Hn. apply elem_of_list_to_set in Hn. subst L. apply list_elem_of_fmap in Hn as (x & -> & Hx).
    apply list_elem_of_lookup in Hx as [b Hb]. destruct (Hbusy _ _ Hb) as (n & _ & -> & Hin). by rewrite Nat2Z.id. }
  apply subseteq_size in Hsub. rewrite size_list_to_set in Hsub by done.
  subst L. rewrite length_fmap, (ok_len _ _ Hok) in Hsub. lia.
Qed.

(** Reading a block that the client does not hold yet. *)
Lemma bread_spec s h a n :
  represents s h a -> n < length (c_disk a) -> n ∉ c_held a ->
  (n ∈ c_dirty a \/ size (c_dirty a ∪ c_held a) < NBUF) ->
  exists b s', bread 1 (Z.of_nat n) s = Ret b s' /\ represents s' (<[n := b]> h) (s_bread n a).
Proof.
  intros R Hn Hh Hroom. destruct (cached_dec s (Z.of_nat n)) as [(b & x & Hc)|Hno].
  - exists b. by eapply bread_hit.
  - destruct (r_ok _ _ _ R) as [l Hok]. rewrite (r_disk _ _ _ R) in Hn. apply lookup_lt_is_Some in Hn as [d Hd].
    assert (Hav : avail s).
    { destruct Hroom as [Hdy|Hsz]; [|by eapply pigeonhole].
      apply (r_dirty _ _ _ R) in Hdy as (c & y & Hcy & _). by apply Hno in Hcy. }
    destruct (first_in (bufs s) recyclable (reverse l)) as [b|] eqn:Ef; [exists b; by eapply bread_miss|].
    destruct Hav as (b & x & Hb & Hrec). eapply first_in_None in Ef; [|..|exact Hb].
    + congruence.
    + intros c. rewrite elem_of_reverse. by apply bio_listed.
    + rewrite elem_of_reverse. by eapply bio_on_list.
Qed.

(** ** The fresh cache *)

Definition fresh (d : list block) : cache := mkCache d d ∅ ∅ [].

Lemma push_all_dll L s l :
  dll (nxt s) (prv s) l -> NoDup (L ++ l) -> (forall b, b ∈ L -> b < NBUF) ->
  dll (nxt (foldl (fun s b => push_front b s) s L)) (prv (foldl (fun s b => push_front b s) s L)) (reverse L ++ l).
Proof.
  revert s l. induction L as [|b L IH]; intros s l Hd Hnd Hlt; [done|]. simpl in *.
  apply NoDup_cons in Hnd as [Hb Hnd]. rewrite reverse_cons, <- app_assoc. simpl. apply IH.
  - apply push_front_dll; [done|set_solver|apply Hlt; set_solver].
  - rewrite <- Permutation_middle, NoDup_cons. done.
  - intros c Hc. apply Hlt. set_solver.
Qed.

Lemma push_all_rest L s :
  bufs (foldl (fun s b => push_front b s) s L) = bufs s /\ disk (foldl (fun s b => push_front b s) s L) = disk s /\
  hist (foldl (fun s b => push_front b s) s L) = hist s.
Proof. revert s. induction L as [|b L IH]; intros s; simpl; [done|]. by rewrite !(proj1 (IH _)), (proj1 (proj2 (IH _))), (proj2 (proj2 (IH _))). Qed.

Lemma binit_ok d : bio_ok (binit d) (reverse (seq 0 NBUF)).
Proof.
  unfold binit. set (s0 := mkBio _ _ _ _ _). destruct (push_all_rest (seq 0 NBUF) s0) as (Hb & Hd & _).
  assert (Hz : forall i x, bufs s0 !! i = Some x -> x = zero_buf) by (intros i x [? _]%lookup_replicate; done).
  split; rewrite ?Hb, ?Hd.
  - rewrite <- (app_nil_r (reverse _)). apply push_all_dll.
    + split; [done|]. split; [done|]. split; [constructor|]. split; [set_solver|]. simpl. by repeat split.
    + rewrite app_nil_r. apply NoDup_seq.
    + intros b [_ ?]%elem_of_seq. lia.
  - by rewrite length_reverse, length_seq.
  - done.
  - intros i j x y ->%Hz _ H. by vm_compute in H.
  - intros i x ->%Hz. split; [done|]. split; [left; done|]. intros H. by vm_compute in H.
Qed.

Lemma binit_rep d : represents (binit d) ∅ (fresh d).
Proof.
  assert (Hno : forall n b x, ~ caches (binit d) n b x).
  { intros n b x (Hb & Hd & _). unfold binit in Hb. rewrite (proj1 (push_all_rest _ _)) in Hb.
    apply lookup_replicate in Hb as [-> _]. by vm_compute in Hd. }
  assert (Hdisk : disk (binit d) = d) by (apply push_all_rest).
  split; cbn [c_view c_disk c_dirty c_held c_hist fresh].
  - eexists. apply binit_ok.
  - by rewrite Hdisk.
  - symmetry. apply push_all_rest.
  - intros n. rewrite view_uncached by (done || lia). by rewrite Hdisk, Nat2Z.id.
  - intros n. split; [set_solver|]. intros (b & x & Hc & _). by apply Hno in Hc.
  - by rewrite dom_empty_L.
  - intros n b. split; [done|]. intros (x & Hc & _). by apply Hno in Hc.
Qed.

(** ** Clients of the cache *)

(** What a client does with the cache. *)
Inductive cmd : Type :=
| CRead (n : nat)
| CSet (n : nat) (d : block)
| CWrite (n : nat)
| CPin (n : nat)
| CRelease (n : nat).

(** The code run for a command; [h] holds the client's buffer pointers. *)
Definition ptr (h : gmap nat nat) (n : nat) : M bio nat :=
  match h !! n with Some b => mret b | None => panic "no buffer" end.

Definition run_cmd (c : cmd) (h : gmap nat nat) : M bio (option block * gmap nat nat) :=
  match c with
  | CRead n => b ← bread 1 (Z.of_nat n); x ← bufat b; mret (Some (b_data x), <[n := b]> h)
  | CSet n d => b ← ptr h n; bufupd b (set_data d);; mret (None, h)
  | CWrite n => b ← ptr h n; bwrite b;; mret (None, h)
  | CPin n => b ← ptr h n; bufupd b (fun x => set_flags (Z.lor (b_flags x) B_DIRTY) x);; mret (None, h)
  | CRelease n => b ← ptr h n; brelse b;; mret (None, delete n h)
  end.

(** What the command does to the abstract cache; [None] when the client breaks
    the rules: it may not read a block it holds, nor hold and pin all buffers,
    nor drop a change that is neither written nor pinned. *)
Definition abs_cmd (c : cmd) (a : cache) : option (option block * cache) :=
  match c with
  | CRead n =>
      if decide (n < length (c_disk a) /\ n ∉ c_held a /\ (n ∈ c_dirty a \/ size (c_dirty a ∪ c_held a) < NBUF))
      then Some (c_view a !! n, s_bread n a) else None
  | CSet n d => if decide (n ∈ c_held a) then Some (None, s_set n d a) else None
  | CWrite n => if decide (n ∈ c_held a) then Some (None, s_bwrite n a) else None
  | CPin n => if decide (n ∈ c_held a) then Some (None, s_pin n a) else None
  | CRelease n =>
      if decide (n ∈ c_held a /\ (n ∈ c_dirty a \/ c_view a !! n = c_disk a !! n))
      then Some (None, s_brelse n a) else None
  end.

Fixpoint run_cmds (cs : list cmd) (h : gmap nat nat) : M bio (list (option block) * gmap nat nat) :=
  match cs with
  | [] => mret ([], h)
  | c :: cs' => r ← run_cmd c h; r' ← run_cmds cs' r.2; mret (r.1 :: r'.1, r'.2)
  end.

Fixpoint abs_cmds (cs : list cmd) (a : cache) : option (list (option block) * cache) :=
  match cs with
  | [] => Some ([], a)
  | c :: cs' => match abs_cmd c a with
                | Some (o, a1) => match abs_cmds cs' a1 with Some (os, a2) => Some (o :: os, a2) | None => None end
                | None => None
                end
  end.

Lemma held_ptr s h a n : represents s h a -> n ∈ c_held a -> exists b, h !! n = Some b /\ ptr h n = mret b.
Proof. intros R. rewrite (r_dom _ _ _ R). intros [b Hb]%elem_of_dom. exists b. unfold ptr. by rewrite Hb. Qed.

Lemma run_cmd_refines c s h a o a' :
  represents s h a -> abs_cmd c a = Some (o, a') ->
  exists h' s', run_cmd c h s = Ret (o, h') s' /\ represents s' h' a'.
Proof.
  intros R Ha. destruct c; simpl in *; case_decide as Hc; try done; injection Ha as <- <-.
  - destruct Hc as (Hn & Hh & Hr). destruct (bread_spec s h a n R Hn Hh Hr) as (b & s' & Hrun & R').
    exists (<[n := b]> h), s'. split; [|done]. eapply bind_eq; [exact Hrun|].
    destruct (r_holder _ _ _ _ _ R' (lookup_insert_eq h n b)) as (f & d & Hb & _ & Hv & _).
    eapply bind_eq; [by apply bufat_eq|]. simpl in *. by rewrite Hv.
  - destruct (held_ptr _ _ _ _ R Hc) as (b & Hb & ->). destruct (set_data_spec s h a b n d R Hb) as (s' & Hrun & R').
    exists h, s'. split; [|done]. eapply bind_eq; [done|]. by eapply bind_eq.
  - destruct (held_ptr _ _ _ _ R Hc) as (b & Hb & ->). destruct (bwrite_spec s h a b n R Hb) as (s' & Hrun & R').
    exists h, s'. split; [|done]. eapply bind_eq; [done|]. by eapply bind_eq.
  - destruct (held_ptr _ _ _ _ R Hc) as (b & Hb & ->). destruct (pin_spec s h a b n R Hb) as (s' & Hrun & R').
    exists h, s'. split; [|done]. eapply bind_eq; [done|]. by eapply bind_eq.
  - destruct Hc as [Hh Hcl]. destruct (held_ptr _ _ _ _ R Hh) as (b & Hb & ->).
    destruct (brelse_spec s h a b n R Hb Hcl) as (s' & Hrun & R').
    exists (delete n h), s'. split; [|done]. eapply bind_eq; [done|]. by eapply bind_eq.
Qed.

Lemma run_cmds_refines cs s h a o a' :
  represents s h a -> abs_cmds cs a = Some (o, a') ->
  exists h' s', run_cmds cs h s = Ret (o, h') s' /\ represents s' h' a'.
Proof.
  revert s h a o. induction cs as [|c cs IH]; intros s h a o R Ha; simpl in *.
  - injection Ha as <- <-. by exists h, s.
  - destruct (abs_cmd c a) as [[o1 a1]|] eqn:E1; [|done]. destruct (abs_cmds cs a1) as [[os a2]|] eqn:E2; [|done].
    injection Ha as <- <-. destruct (run_cmd_refines c s h a o1 a1 R E1) as (h1 & s1 & Hr1 & R1).
    destruct (IH s1 h1 a1 os R1 E2) as (h2 & s2 & Hr2 & R2). exists h2, s2. split; [|done].
    eapply bind_eq; [exact Hr1|]. eapply bind_eq; [exact Hr2|]. done.
Qed.

(** ** Claims *)

(** C9: whatever a client that keeps to the rules of the cache does, starting
    from [binit] on a disk [d], the code of [bio.c] and [memide.c] returns (it
    neither panics nor blocks), every block it reads has the contents that the
    abstract cache gives it, and the disk, the pinned blocks and the held
    buffers are those of the abstract cache. *)
Theorem cache_refines (d : list block) (cs : list cmd) (o : list (option block)) (a' : cache) :
  abs_cmds cs (fresh d) = Some (o, a') ->
  exists h' s', run_cmds cs ∅ (binit d) = Ret (o, h') s' /\ represents s' h' a'.
Proof. apply run_cmds_refines, binit_rep. Qed.

Lemma cache_refines_witness :
  exists h' s',
    run_cmds [CRead 1; CSet 1 [7%Z]; CPin 1; CRelease 1; CRead 0; CRead 1; CWrite 1; CRelease 1] ∅
      (binit [[5%Z]; [6%Z]])
    = Ret ([Some [6%Z]; None; None; None; Some [5%Z]; Some [7%Z]; None; None], h') s' /\
    represents s' h' (mkCache [[5%Z]; [7%Z]] [[5%Z]; [7%Z]] ∅ {[0]} [[[5%Z]; [6%Z]]]).
Proof. apply cache_refines. vm_compute. reflexivity. Defined.

(** Replacement is least recently used.  [brelse] of a buffer puts it at the
    front of the list and keeps the order of the others; [bget] of a block that
    is not cached takes the last buffer of the list that is neither in use nor
    pinned, and panics only when there is none. *)
Lemma lru_replacement (s : bio) (l : list nat) :
  bio_ok s l ->
  (forall l1 b l2 x, l = l1 ++ b :: l2 -> bufs s !! b = Some x -> b_locked x = true ->
     (b_flags x = 6%Z \/ disk s !! Z.to_nat (b_blockno x) = Some (b_data x)) ->
     exists s', brelse b s = Ret tt s' /\ bio_ok s' (b :: l1 ++ l2)) /\
  (forall n, (forall b x, ~ caches s n b x) ->
     match first_in (bufs s) recyclable (reverse l) with
     | Some b => exists s', bget 1 n s = Ret b s'
     | None => bget 1 n s = Panic "bget: no buffers"
     end).
Proof.
  intros Hok. split.
  - intros l1 b l2 x -> Hb Hlk Hcl. pose proof (lookup_lt_Some _ _ _ Hb) as Hbl.
    destruct (ok_buf _ _ Hok b x Hb) as (Hr & Hf & _). rewrite Hlk in Hr.
    destruct x as [f dev bn lk rc d]. simpl in *. subst. eexists. split.
    + unfold brelse. bstep Hb. unfold releasesleep. bstep Hb.
      eapply bind_eq; [apply bufupd_eq, put_buf_eq, Hbl|]. simpl. rewrite put_buf_put.
      eapply bind_eq; [apply bufat_eq, put_buf_eq, Hbl|]. reflexivity.
    + apply bio_ok_front. eapply bio_ok_put; [done|done| |by left].
      split; [done|]. simpl. split; [naive_solver|]. intros -> _. by destruct Hcl.
  - intros n Hno. destruct (first_in _ recyclable _) as [b|] eqn:Ef.
    + apply first_in_Some in Ef as Hx. destruct Hx as (_ & x & Hb & Hrec).
      pose proof (lookup_lt_Some _ _ _ Hb) as Hbl. destruct (recyclable_clean _ _ _ _ Hok Hb Hrec) as [Hlk _].
      eexists. unfold bget. eapply bind_eq; [reflexivity|]. rewrite (bio_scan_next s l), (bio_scan_prev s l) by done.
      rewrite first_block_None, Ef by done. bstep Hb. eapply bind_eq; [|reflexivity]. unfold acquiresleep.
      eapply bind_eq; [apply bufat_eq, put_buf_eq, Hbl|]. simpl. rewrite Hlk. apply bufupd_eq, put_buf_eq, Hbl.
    + unfold bget. eapply bind_eq; [reflexivity|]. rewrite (bio_scan_next s l), (bio_scan_prev s l) by done.
      by rewrite first_block_None, Ef.
Qed.

