(* ===== verification/Log.v ===== *)
(** * The write-ahead log

    [log.c], on top of the buffer cache: transactions grouped from several file
    system calls, committed by writing the blocks to the log, then the header,
    then the home locations, and recovered after a crash.  [readsb] of [fs.c]
    is here because [initlog] calls it.

    The log's spin lock is held only inside a routine and never across a call
    that sleeps, so its operations are atomic here; the processes asleep on
    [&log] are counted in [waiters].  The state also has the buffer cache, whose
    [hist] records every state of the disk.  An index outside
    [log.lh.block\[\]] would be undefined behaviour in C: it is a panic here,
    and the theorems show that it does not happen. *)
From S2P Require Import Prelude Bytes Bio BioSpec.
Local Open Scope Z_scope.

Definition MAXOPBLOCKS : Z := 10.
Definition LOGSIZE : Z := MAXOPBLOCKS * 3.

Record superblock := mkSb {
  sb_size : Z; sb_nblocks : Z; sb_ninodes : Z; sb_nlog : Z; sb_logstart : Z; sb_inodestart : Z; sb_bmapstart : Z
}.

(** [struct log]; [lh] is split into its two fields. *)
Record log := mkLog {
  start : Z;
  lsize : Z;
  outstanding : Z;
  committing : Z;
  dev : Z;
  lh_n : Z;
  lh_block : list Z;
  waiters : nat
}.

Record lstate := mkL { l_bio : bio; l_log : log }.

Definition set_start v g := mkLog v (lsize g) (outstanding g) (committing g) (dev g) (lh_n g) (lh_block g) (waiters g).
Definition set_lsize v g := mkLog (start g) v (outstanding g) (committing g) (dev g) (lh_n g) (lh_block g) (waiters g).
Definition set_outstanding v g := mkLog (start g) (lsize g) v (committing g) (dev g) (lh_n g) (lh_block g) (waiters g).
Definition set_committing v g := mkLog (start g) (lsize g) (outstanding g) v (dev g) (lh_n g) (lh_block g) (waiters g).
Definition set_dev v g := mkLog (start g) (lsize g) (outstanding g) (committing g) v (lh_n g) (lh_block g) (waiters g).
Definition set_lh_n v g := mkLog (start g) (lsize g) (outstanding g) (committing g) (dev g) v (lh_block g) (waiters g).
Definition set_lh_block v g := mkLog (start g) (lsize g) (outstanding g) (committing g) (dev g) (lh_n g) v (waiters g).
Definition set_waiters v g := mkLog (start g) (lsize g) (outstanding g) (committing g) (dev g) (lh_n g) (lh_block g) v.

Section Ops.
Notation L := (M lstate).

(** A routine of the buffer cache. *)
Definition cached {A} (m : M bio A) : L A := fun s =>
  match m (l_bio s) with
  | Ret a b => Ret a (mkL b (l_log s))
  | Panic msg => Panic msg
  | Asleep b => Asleep (mkL b (l_log s))
  end.

Definition getlog : L log := gets l_log.
Definition updlog (f : log -> log) : L unit := modify (fun s => mkL (l_bio s) (f (l_log s))).

(** [bp->data], and [memmove] into it. *)
Definition data (b : nat) : L block := x ← cached (bufat b); mret (b_data x).
Definition set_bytes (b : nat) (d : block) : L unit := cached (bufupd b (set_data d)).

(** [sleep(&log, &log.lock)] and [wakeup(&log)] *)
Definition sleep_log {A} : L A :=
  updlog (fun g => set_waiters (S (waiters g)) g);; suspend.
Definition wakeup_log : L unit := updlog (set_waiters 0%nat).

(** [log.lh.block\[i\]] *)
Definition block_at (i : nat) : L Z :=
  g ← getlog;
  match lh_block g !! i with Some v => mret v | None => panic "lh.block out of range" end.
Definition set_block_at (i : nat) (v : Z) : L unit :=
  g ← getlog;
  if (i <? length (lh_block g))%nat then updlog (set_lh_block (<[i := s32 v]> (lh_block g)))
  else panic "lh.block out of range".

(** ** [fs.c]: [readsb] *)
Definition decode_sb (d : block) : superblock :=
  mkSb (get32 0 d) (get32 4 d) (get32 8 d) (get32 12 d) (get32 16 d) (get32 20 d) (get32 24 d).

Definition readsb (dv : Z) : L superblock :=
  bp ← cached (bread (u32 dv) 1);
  d ← data bp;
  cached (brelse bp);;
  mret (decode_sb d).

(** ** Copying between the log and the home locations *)

(** Iteration [tail] of [install_trans]. *)
Definition install_block (tail : nat) : L unit :=
  g ← getlog;
  lbuf ← cached (bread (u32 (dev g)) (u32 (start g + Z.of_nat tail + 1)));
  v ← block_at tail;
  dbuf ← cached (bread (u32 (dev g)) (u32 v));
  d ← data lbuf;
  set_bytes dbuf d;;
  cached (bwrite dbuf);;
  cached (brelse lbuf);;
  cached (brelse dbuf).

Definition install_trans : L unit :=
  g ← getlog;
  for_each (seq 0 (Z.to_nat (lh_n g))) install_block.

(** The loop of [read_head] that copies [lh->block\[i\]]. *)
Definition read_entry (d : block) (i : nat) : L unit := set_block_at i (get32 (4 + 4 * i) d).

Definition read_head : L unit :=
  g ← getlog;
  bp ← cached (bread (u32 (dev g)) (u32 (start g)));
  d ← data bp;
  updlog (set_lh_n (s32 (get32 0 d)));;
  g ← getlog;
  for_each (seq 0 (Z.to_nat (lh_n g))) (read_entry d);;
  cached (brelse bp).

(** The loop of [write_head] that copies [log.lh.block\[i\]]. *)
Definition write_entry (bp : nat) (i : nat) : L unit :=
  v ← block_at i;
  d ← data bp;
  set_bytes bp (put32 (4 + 4 * i) v d).

Definition write_head : L unit :=
  g ← getlog;
  bp ← cached (bread (u32 (dev g)) (u32 (start g)));
  d ← data bp;
  set_bytes bp (put32 0 (lh_n g) d);;
  for_each (seq 0 (Z.to_nat (lh_n g))) (write_entry bp);;
  cached (bwrite bp);;
  cached (brelse bp).

Definition recover_from_log : L unit :=
  read_head;;
  install_trans;;
  updlog (set_lh_n 0);;
  write_head.

(** [sizeof(struct logheader)] *)
Definition logheader_size : Z := 4 + 4 * LOGSIZE.

Definition initlog (dv : Z) : L unit :=
  if Z.of_nat BSIZE <=? logheader_size then panic "initlog: too big logheader"
  else
    sb ← readsb dv;
    updlog (set_start (s32 (sb_logstart sb)));;
    updlog (set_lsize (s32 (sb_nlog sb)));;
    updlog (set_dev dv);;
    recover_from_log.

(** Iteration [tail] of [write_log]. *)
Definition log_block (tail : nat) : L unit :=
  g ← getlog;
  to ← cached (bread (u32 (dev g)) (u32 (start g + Z.of_nat tail + 1)));
  v ← block_at tail;
  from ← cached (bread (u32 (dev g)) (u32 v));
  d ← data from;
  set_bytes to d;;
  cached (bwrite to);;
  cached (brelse from);;
  cached (brelse to).

Definition write_log : L unit :=
  g ← getlog;
  for_each (seq 0 (Z.to_nat (lh_n g))) log_block.

Definition commit : L unit :=
  g ← getlog;
  when (0 <? lh_n g)
    (write_log;; write_head;; install_trans;; updlog (set_lh_n 0);; write_head).

(** ** Transactions *)

(** One pass of the loop of [begin_op]; a process woken from its sleep runs it
    again. *)
Definition begin_op : L unit :=
  g ← getlog;
  if negb (committing g =? 0) then sleep_log
  else if LOGSIZE <? lh_n g + (outstanding g + 1) * MAXOPBLOCKS then sleep_log
  else updlog (set_outstanding (outstanding g + 1)).

(** [end_op] up to the release of the lock: is it this process that commits? *)
Definition end_op_enter : L bool :=
  updlog (fun g => set_outstanding (outstanding g - 1) g);;
  g ← getlog;
  if negb (committing g =? 0) then panic "log.committing"
  else if outstanding g =? 0 then updlog (set_committing 1);; mret true
  else wakeup_log;; mret false.

(** The part of [end_op] after the commit. *)
Definition end_op_leave : L unit := updlog (set_committing 0);; wakeup_log.

Definition end_op : L unit :=
  do_commit ← end_op_enter;
  when do_commit (commit;; end_op_leave).

(** The scan of [log_write]: the first [i] from [i0] on, below [n], whose
    entry is [blockno], or [n]. *)
Fixpoint absorb (blocks : list Z) (blockno : Z) (i fuel : nat) : nat :=
  match fuel with
  | O => i
  | S fuel' =>
      match blocks !! i with
      | Some v => if u32 v =? blockno then i else absorb blocks blockno (S i) fuel'
      | None => i
      end
  end.

Definition log_write (b : nat) : L unit :=
  g ← getlog;
  if (LOGSIZE <=? lh_n g) || (lsize g - 1 <=? lh_n g) then panic "too big a transaction"
  else if outstanding g <? 1 then panic "log_write outside of trans"
  else
    x ← cached (bufat b);
    let i := absorb (lh_block g) (b_blockno x) 0 (Z.to_nat (lh_n g)) in
    set_block_at i (b_blockno x);;
    when (Z.of_nat i =? lh_n g) (updlog (set_lh_n (lh_n g + 1)));;
    cached (bufupd b (fun y => set_flags (Z.lor (b_flags y) B_DIRTY) y)).
End Ops.
