(* ===== verification/LogCopy.v ===== *)
(** * Copying blocks through the cache

    The routines of [log.c] that move blocks, as transformations of the
    abstract cache: one iteration of [install_trans] or of [write_log] and the
    whole of [write_head] each write one block, through the cache, to the
    disk. *)
From S2P Require Import Prelude Bytes Bio BioSpec Log.
Local Open Scope Z_scope.

(** The log state is [g] and the cache represents [a]; [h] are the buffers the
    running process holds. *)
Definition lrep (s : lstate) (h : gmap nat nat) (a : cache) (g : log) : Prop :=
  represents (l_bio s) h a /\ l_log s = g.

Lemma cached_total {A} (m : M bio A) (Q : A -> lstate -> Prop) s :
  (exists r b, m (l_bio s) = Ret r b /\ Q r (mkL b (l_log s))) -> total (cached m) Q s.
Proof. intros (r & b & Hm & HQ). apply total_iff. exists r, (mkL b (l_log s)). unfold cached. by rewrite Hm. Qed.

Section Lifted.
Variables (s : lstate) (h : gmap nat nat) (a : cache) (g : log).
Hypothesis Hrep : lrep s h a g.

Lemma getlog_bind {B} (k : log -> M lstate B) Q : total (k g) Q s -> total (getlog ≫= k) Q s.
Proof using Hrep. destruct Hrep as [_ <-]. done. Qed.

Lemma updlog_ok f : total (updlog f) (fun _ s' => lrep s' h a (f g)) s.
Proof using Hrep. destruct Hrep as [R <-]. by split. Qed.

Lemma bread_ok n :
  (n < length (c_disk a))%nat -> n ∉ c_held a ->
  (n ∈ c_dirty a \/ (size (c_dirty a ∪ c_held a) < NBUF)%nat) ->
  total (cached (bread 1 (Z.of_nat n))) (fun b s' => lrep s' (<[n := b]> h) (s_bread n a) g) s.
Proof using Hrep.
  destruct Hrep as [R <-]. intros H1 H2 H3. destruct (bread_spec _ _ _ n R H1 H2 H3) as (b & s' & Hrun & R').
  apply cached_total. by exists b, s'.
Qed.

Lemma data_ok n b d :
  h !! n = Some b -> c_view a !! n = Some d -> total (data b) (fun d' s' => d' = d /\ lrep s' h a g) s.
Proof using Hrep.
  destruct Hrep as [R <-]. intros Hn Hv. destruct (r_holder _ _ _ _ _ R Hn) as (f & d' & Hb & _ & Hv' & _).
  apply total_iff. exists d', s. split; [|split; [congruence|done]].
  unfold data, cached, mbind, M_bind. rewrite (bufat_eq _ _ _ Hb). by destruct s.
Qed.

Lemma set_bytes_ok n b d :
  h !! n = Some b -> total (set_bytes b d) (fun _ s' => lrep s' h (s_set n d a) g) s.
Proof using Hrep.
  destruct Hrep as [R <-]. intros Hn. destruct (set_data_spec _ _ _ b n d R Hn) as (s' & Hrun & R').
  apply cached_total. by exists tt, s'.
Qed.

Lemma bwrite_ok n b :
  h !! n = Some b -> total (cached (bwrite b)) (fun _ s' => lrep s' h (s_bwrite n a) g) s.
Proof using Hrep.
  destruct Hrep as [R <-]. intros Hn. destruct (bwrite_spec _ _ _ b n R Hn) as (s' & Hrun & R').
  apply cached_total. by exists tt, s'.
Qed.

Lemma pin_ok n b :
  h !! n = Some b ->
  total (cached (bufupd b (fun y => set_flags (Z.lor (b_flags y) B_DIRTY) y)))
    (fun _ s' => lrep s' h (s_pin n a) g) s.
Proof using Hrep.
  destruct Hrep as [R <-]. intros Hn. destruct (pin_spec _ _ _ b n R Hn) as (s' & Hrun & R').
  apply cached_total. by exists tt, s'.
Qed.

Lemma brelse_ok n b :
  h !! n = Some b -> (n ∈ c_dirty a \/ c_view a !! n = c_disk a !! n) ->
  total (cached (brelse b)) (fun _ s' => lrep s' (delete n h) (s_brelse n a) g) s.
Proof using Hrep.
  destruct Hrep as [R <-]. intros Hn Hc. destruct (brelse_spec _ _ _ b n R Hn Hc) as (s' & Hrun & R').
  apply cached_total. by exists tt, s'.
Qed.

Lemma block_at_bind {B} i v (k : Z -> M lstate B) Q :
  lh_block g !! i = Some v -> total (k v) Q s -> total (block_at i ≫= k) Q s.
Proof using Hrep.
  intros Hi HQ. destruct Hrep as [_ <-]. unfold block_at, getlog, total, wp, mbind, M_bind, gets. by rewrite Hi.
Qed.
End Lifted.

(** Nothing is held any more. *)
Lemma lrep_idle s h a a' g : lrep s h a g -> c_held a = ∅ -> a = a' -> lrep s ∅ a' g.
Proof.
  intros [R Hg] Hh <-. split; [|done]. pose proof (r_dom _ _ _ R) as Hd. rewrite Hh in Hd.
  symmetry in Hd. by apply dom_empty_inv_L in Hd as ->.
Qed.

(** Block [n] is written with data [d]. *)
Definition s_copy (n : nat) (d : block) (a : cache) : cache :=
  mkCache (<[n := d]> (c_view a)) (<[n := d]> (c_disk a)) (c_dirty a ∖ {[n]}) (c_held a) (c_disk a :: c_hist a).

(** Take the next step of a routine by its specification. *)
Ltac lstep H := eapply total_bind; [eapply H; eauto|cbv beta].

(** ** One block of [install_trans] and of [write_log] *)

Lemma size_add (X : gset nat) n : (size (X ∪ ({[n]} ∪ ∅)) <= size X + 1)%nat.
Proof.
  rewrite union_empty_r_L, size_union_alt. assert (Hs : ({[n]} ∖ X : gset nat) ⊆ {[n]}) by set_solver.
  apply subseteq_size in Hs. rewrite size_singleton in Hs. lia.
Qed.

Lemma copied_view a n d : (n < length (c_view a))%nat ->
  c_view (s_copy n d a) !! n = Some d.
Proof. apply list_lookup_insert_eq. Qed.

Lemma copy_abs a n m l d :
  c_held a = ∅ -> (n < length (c_view a))%nat -> n = m \/ n = l ->
  s_brelse m (s_brelse l (s_bwrite n (s_set n d (s_bread m (s_bread l a))))) = s_copy n d a /\
  s_brelse l (s_brelse m (s_bwrite n (s_set n d (s_bread m (s_bread l a))))) = s_copy n d a.
Proof.
  intros Hh Hn Hor. unfold s_copy, s_brelse, s_bwrite, s_set, s_bread. simpl.
  rewrite list_lookup_insert_eq, Hh by done. simpl. split; f_equal; set_solver.
Qed.

Section Blocks.
Variables (s : lstate) (a : cache) (g : log) (lb hb tail : nat) (d : block).
Hypotheses (Hrep : lrep s ∅ a g) (Hidle : c_held a = ∅) (Hdev : dev g = 1)
  (Hlb : start g + Z.of_nat tail + 1 = Z.of_nat lb) (Hhb : lh_block g !! tail = Some (Z.of_nat hb))
  (Hlen : Z.of_nat (length (c_disk a)) <= 2 ^ 32)
  (Hlb' : (lb < length (c_disk a))%nat) (Hhb' : (hb < length (c_disk a))%nat) (Hne : lb <> hb)
  (Hclean : lb ∉ c_dirty a) (Hroom : (size (c_dirty a) < NBUF)%nat).

Lemma install_block_ok :
  c_view a !! lb = Some d -> (hb ∈ c_dirty a \/ (size (c_dirty a) + 1 < NBUF)%nat) ->
  total (install_block tail) (fun _ s' => lrep s' ∅ (s_copy hb d a) g) s.
Proof using All.
  intros Hd Hroom2. pose proof (r_len _ _ _ (proj1 Hrep)) as Hvl.
  assert (Hcl : c_view a !! lb = c_disk a !! lb) by (eapply r_clean; [apply Hrep|set_solver|done]).
  unfold install_block. eapply getlog_bind; [exact Hrep|]. rewrite Hlb, Hdev, !u32_id by lia.
  lstep bread_ok; [set_solver|right; by rewrite Hidle, union_empty_r_L|]. intros lbuf s1 R1.
  eapply block_at_bind; [exact R1|exact Hhb|]. rewrite u32_id by lia.
  lstep bread_ok; [set_solver| |].
  { destruct Hroom2; [by left|]. right. simpl. rewrite Hidle. pose proof (size_add (c_dirty a) lb). lia. }
  intros dbuf s2 R2. lstep (data_ok s2 _ _ _ R2 lb); [by rewrite lookup_insert_ne, lookup_insert_eq|].
  intros ? s3 [-> R3]. lstep (set_bytes_ok s3 _ _ _ R3 hb); [by rewrite lookup_insert_eq|].
  intros _ s4 R4. lstep (bwrite_ok s4 _ _ _ R4 hb); [by rewrite lookup_insert_eq|].
  intros _ s5 R5.
  lstep (brelse_ok s5 _ _ _ R5 lb); [by rewrite lookup_insert_ne, lookup_insert_eq| |].
  { right. simpl. by rewrite !list_lookup_insert_ne. }
  intros _ s6 R6. eapply total_mono; [apply (brelse_ok s6 _ _ _ R6 hb)|cbv beta].
  { by rewrite lookup_delete_ne, lookup_insert_eq. }
  { right. simpl. rewrite !list_lookup_insert_eq by lia. done. }
  intros _ s7 R7. rewrite (proj1 (copy_abs a hb hb lb d Hidle ltac:(lia) ltac:(auto))) in R7.
  by eapply lrep_idle.
Qed.

Lemma log_block_ok :
  c_view a !! hb = Some d -> hb ∈ c_dirty a ->
  total (log_block tail) (fun _ s' => lrep s' ∅ (s_copy lb d a) g) s.
Proof using All.
  intros Hd Hdirty. pose proof (r_len _ _ _ (proj1 Hrep)) as Hvl.
  unfold log_block. eapply getlog_bind; [exact Hrep|]. rewrite Hlb, Hdev, !u32_id by lia.
  lstep bread_ok; [set_solver|right; by rewrite Hidle, union_empty_r_L|]. intros to s1 R1.
  eapply block_at_bind; [exact R1|exact Hhb|]. rewrite u32_id by lia.
  lstep bread_ok; [set_solver|]. intros from s2 R2.
  lstep (data_ok s2 _ _ _ R2 hb); [by rewrite lookup_insert_eq|].
  intros ? s3 [-> R3]. lstep (set_bytes_ok s3 _ _ _ R3 lb); [by rewrite lookup_insert_ne, lookup_insert_eq|].
  intros _ s4 R4. lstep (bwrite_ok s4 _ _ _ R4 lb); [by rewrite lookup_insert_ne, lookup_insert_eq|].
  intros _ s5 R5.
  lstep (brelse_ok s5 _ _ _ R5 hb); [by rewrite lookup_insert_eq|left; simpl; set_solver|].
  intros _ s6 R6. eapply total_mono; [apply (brelse_ok s6 _ _ _ R6 lb)|cbv beta].
  { by rewrite lookup_delete_ne, lookup_insert_ne, lookup_insert_eq. }
  { right. simpl. rewrite !list_lookup_insert_eq by lia. done. }
  intros _ s7 R7. rewrite (proj2 (copy_abs a lb hb lb d Hidle ltac:(lia) ltac:(auto))) in R7.
  by eapply lrep_idle.
Qed.
End Blocks.

(** ** The header *)

(** The header block after [write_head] stored [n] and the entries [f 0], ... *)
Definition put_entries (f : nat -> Z) (n : nat) (d : block) : block :=
  foldl (fun d i => put32 (4 + 4 * i) (f i) d) d (seq 0 n).
Definition encode (f : nat -> Z) (n : nat) (d : block) : block := put_entries f n (put32 0 (Z.of_nat n) d).

Lemma put_entries_S f n d : put_entries f (S n) d = put32 (4 + 4 * n) (f n) (put_entries f n d).
Proof. unfold put_entries. rewrite seq_S, foldl_app. done. Qed.

Lemma put_entries_length f n d : (4 + 4 * n <= length d)%nat -> length (put_entries f n d) = length d.
Proof.
  induction n as [|n IH]; intros Hn; [done|]. rewrite put_entries_S, put32_length; rewrite IH; lia.
Qed.

Lemma encode_length f n d : (4 + 4 * n <= length d)%nat -> length (encode f n d) = length d.
Proof. intros H. unfold encode. rewrite put_entries_length; rewrite put32_length; lia. Qed.

Lemma put_entries_count f n d : (4 + 4 * n <= length d)%nat -> get32 0 (put_entries f n d) = get32 0 d.
Proof.
  induction n as [|n IH]; intros Hn; [done|].
  rewrite put_entries_S, get32_put32_other; [apply IH; lia|rewrite put_entries_length; lia|lia].
Qed.

Lemma put_entries_entry f n d i :
  (4 + 4 * n <= length d)%nat -> (i < n)%nat -> get32 (4 + 4 * i) (put_entries f n d) = u32 (f i).
Proof.
  induction n as [|n IH]; intros Hn Hi; [lia|]. rewrite put_entries_S. destruct (decide (i = n)) as [->|].
  - apply get32_put32. rewrite put_entries_length; lia.
  - rewrite get32_put32_other; [apply IH; lia|rewrite put_entries_length; lia|lia].
Qed.

Lemma encode_count f n d : (4 + 4 * n <= length d)%nat -> get32 0 (encode f n d) = u32 (Z.of_nat n).
Proof. intros H. unfold encode. rewrite put_entries_count, get32_put32; [done|..]; rewrite ?put32_length; lia. Qed.

Lemma encode_entry f n d i :
  (4 + 4 * n <= length d)%nat -> (i < n)%nat -> get32 (4 + 4 * i) (encode f n d) = u32 (f i).
Proof. intros H Hi. apply put_entries_entry; rewrite ?put32_length; lia. Qed.

Lemma set_set n d d' a : s_set n d (s_set n d' a) = s_set n d a.
Proof. unfold s_set. simpl. by rewrite list_insert_insert_eq. Qed.

Section Head.
Variables (s : lstate) (a : cache) (g : log) (st n : nat) (d : block).
Hypotheses (Hrep : lrep s ∅ a g) (Hidle : c_held a = ∅) (Hdev : dev g = 1)
  (Hst : start g = Z.of_nat st) (Hlen : Z.of_nat (length (c_disk a)) <= 2 ^ 32)
  (Hst' : (st < length (c_disk a))%nat) (Hclean : st ∉ c_dirty a) (Hroom : (size (c_dirty a) < NBUF)%nat)
  (Hd : c_view a !! st = Some d).

Lemma write_head_ok f :
  lh_n g = Z.of_nat n -> (forall i, (i < n)%nat -> lh_block g !! i = Some (f i)) ->
  total write_head (fun _ s' => lrep s' ∅ (s_copy st (encode f n d) a) g) s.
Proof using All.
  intros Hn Hf. pose proof (r_len _ _ _ (proj1 Hrep)) as Hvl.
  unfold write_head. eapply getlog_bind; [exact Hrep|]. rewrite Hst, Hdev, !u32_id by lia.
  lstep bread_ok; [set_solver|right; by rewrite Hidle, union_empty_r_L|]. intros bp s1 R1.
  lstep (data_ok s1 _ _ _ R1 st); [by rewrite lookup_insert_eq|]. intros ? s2 [-> R2].
  lstep (set_bytes_ok s2 _ _ _ R2 st); [by rewrite lookup_insert_eq|]. intros _ s3 R3.
  rewrite Hn, Nat2Z.id in *. eapply total_bind.
  { apply (wp_for_seq _ (fun i s' => lrep s' (<[st := bp]> ∅)
      (s_set st (put_entries f i (put32 0 (Z.of_nat n) d)) (s_bread st a)) g)); [exact R3|].
    intros i s' Hi R. unfold write_entry. eapply block_at_bind; [exact R|apply Hf; lia|].
    lstep (data_ok s' _ _ _ R st); [by rewrite lookup_insert_eq|apply list_lookup_insert_eq; simpl; lia|].
    intros ? s'' [-> R'']. eapply total_mono; [apply (set_bytes_ok s'' _ _ _ R'' st); by rewrite lookup_insert_eq|].
    cbv beta. intros _ s4 R4. rewrite set_set in R4. by rewrite put_entries_S. }
  cbv beta. intros _ s4 R4. lstep (bwrite_ok s4 _ _ _ R4 st); [by rewrite lookup_insert_eq|]. intros _ s5 R5.
  eapply total_mono; [apply (brelse_ok s5 _ _ _ R5 st); [by rewrite lookup_insert_eq|]|cbv beta].
  { right. simpl. rewrite !list_lookup_insert_eq by lia. done. }
  intros _ s6 R6. eapply lrep_idle; [exact R6|simpl; set_solver|].
  unfold s_copy, s_brelse, s_bwrite, s_set, s_bread. simpl. rewrite list_lookup_insert_eq, Hidle by lia. simpl.
  f_equal. set_solver.
Qed.

Lemma read_head_ok :
  s32 (get32 0 d) = Z.of_nat n -> (n <= length (lh_block g))%nat ->
  total read_head (fun _ s' => exists bl, length bl = length (lh_block g) /\
    (forall i, (i < n)%nat -> bl !! i = Some (s32 (get32 (4 + 4 * i) d))) /\
    lrep s' ∅ a (set_lh_block bl (set_lh_n (Z.of_nat n) g))) s.
Proof using All.
  intros Hn Hbl. pose proof (r_len _ _ _ (proj1 Hrep)) as Hvl.
  assert (Hcl : c_view a !! st = c_disk a !! st) by (eapply r_clean; [apply Hrep|set_solver|done]).
  unfold read_head. eapply getlog_bind; [exact Hrep|]. rewrite Hst, Hdev, !u32_id by lia.
  lstep bread_ok; [set_solver|right; by rewrite Hidle, union_empty_r_L|]. intros bp s1 R1.
  lstep (data_ok s1 _ _ _ R1 st); [by rewrite lookup_insert_eq|]. intros ? s2 [-> R2].
  rewrite Hn. lstep updlog_ok. intros _ s3 R3. eapply getlog_bind; [exact R3|].
  cbn [lh_n set_lh_n]. rewrite Nat2Z.id. eapply total_bind.
  { apply (wp_for_seq _ (fun k s' => exists bl, length bl = length (lh_block g) /\
      (forall i, (i < k)%nat -> bl !! i = Some (s32 (get32 (4 + 4 * i) d))) /\
      lrep s' (<[st := bp]> ∅) (s_bread st a) (set_lh_block bl (set_lh_n (Z.of_nat n) g)))).
    { exists (lh_block g). split; [done|]. split; [lia|]. by destruct g. }
    intros k s' Hk (bl & Hl & Hb & R). unfold read_entry, set_block_at. eapply getlog_bind; [exact R|].
    rewrite (proj2 (Nat.ltb_lt _ _)) by (simpl; lia).
    eapply total_mono; [eapply (updlog_ok s' _ _ _ R)|cbv beta]. intros _ s4 R4. cbn [lh_block set_lh_block] in R4.
    eexists. split; [|split; [|exact R4]]; [by rewrite length_insert|]. intros i Hi. destruct (decide (i = k)) as [->|].
    - apply list_lookup_insert_eq. lia.
    - rewrite list_lookup_insert_ne by done. apply Hb. lia. }
  cbv beta. intros _ s4 (bl & Hl & Hb & R4).
  eapply total_mono; [apply (brelse_ok s4 _ _ _ R4 st); [by rewrite lookup_insert_eq|by right]|cbv beta].
  intros _ s5 R5. exists bl. split; [done|]. split; [done|]. eapply lrep_idle; [exact R5|simpl; set_solver|].
  destruct a. unfold s_brelse, s_bread. simpl in *. f_equal. set_solver.
Qed.
End Head.
