(* ===== verification/LogCrash.v ===== *)
(** * Commit and recovery

    What the disk means after a crash: [recovered D] is the disk that recovery
    makes of [D], the blocks of a committed transaction copied to their home
    locations.  A commit writes the blocks of the log, then the header, then the
    home locations, then the header again; every disk on the way recovers to
    the state before the transaction or to the one after it.  Recovery itself
    writes to the disk, and every disk on its way recovers to the same state. *)
From S2P Require Import Prelude Bytes Bio BioSpec Log LogCopy.
Local Open Scope nat_scope.

(** ** Sequences of writes *)

Definition write : Type := nat * block.

Definition apply_writes (ws : list write) (D : list block) : list block :=
  foldl (fun D w => <[w.1 := w.2]> D) D ws.

(** The disks before each of the writes, newest first. *)
Fixpoint trail (ws : list write) (D : list block) : list (list block) :=
  match ws with
  | [] => []
  | w :: ws' => trail ws' (<[w.1 := w.2]> D) ++ [D]
  end.

Definition copies (ws : list write) (a : cache) : cache := foldl (fun a w => s_copy w.1 w.2 a) a ws.

Lemma apply_length ws D : length (apply_writes ws D) = length D.
Proof. revert D. induction ws as [|w ws IH]; intros D; simpl; [done|]. unfold apply_writes in *. simpl. by rewrite IH, length_insert. Qed.

Lemma apply_app ws ws' D : apply_writes (ws ++ ws') D = apply_writes ws' (apply_writes ws D).
Proof. apply foldl_app. Qed.

Lemma apply_other ws D n : n ∉ ws.*1 -> apply_writes ws D !! n = D !! n.
Proof.
  revert D. induction ws as [|w ws IH]; intros D Hn; [done|]. rewrite fmap_cons, elem_of_cons in Hn.
  unfold apply_writes in *. simpl. rewrite IH by tauto. apply list_lookup_insert_ne. naive_solver.
Qed.

Lemma apply_written ws D j n d :
  NoDup ws.*1 -> ws !! j = Some (n, d) -> n < length D -> apply_writes ws D !! n = Some d.
Proof.
  revert D j. induction ws as [|w ws IH]; intros D j Hnd Hj Hn; [done|]. rewrite fmap_cons in Hnd.
  apply NoDup_cons in Hnd as [Hw Hnd]. destruct j as [|j]; simpl in Hj.
  - injection Hj as ->. change (apply_writes ws (<[n := d]> D) !! n = Some d).
    rewrite apply_other by done. by apply list_lookup_insert_eq.
  - change (apply_writes ws (<[w.1 := w.2]> D) !! n = Some d). eapply IH; [done|done|]. by rewrite length_insert.
Qed.

(** Writing a prefix first changes nothing. *)
Lemma apply_prefix ws D i : NoDup ws.*1 -> apply_writes ws (apply_writes (take i ws) D) = apply_writes ws D.
Proof.
  intros Hnd. apply list_eq. intros n. destruct (decide (n ∈ ws.*1)) as [Hn|Hn].
  - apply list_elem_of_fmap in Hn as ([n' d] & -> & Hin). apply list_elem_of_lookup in Hin as [j Hj]. simpl.
    destruct (decide (n' < length D)).
    + rewrite !(apply_written ws _ j n' d); rewrite ?apply_length; done.
    + rewrite !lookup_ge_None_2; rewrite ?apply_length; (done || lia).
  - rewrite !apply_other; [done|done| |done]. intros Hn'. apply Hn. rewrite fmap_take in Hn'.
    apply elem_of_take in Hn' as (k & Hk & _).
    by eapply list_elem_of_lookup_2.
Qed.

Lemma trail_in ws D D' : D' ∈ trail ws D -> exists i, i < length ws /\ D' = apply_writes (take i ws) D.
Proof.
  revert D. induction ws as [|w ws IH]; intros D; simpl; [set_solver|]. intros [H|H]%elem_of_app.
  - apply IH in H as (i & Hi & ->). exists (S i). split; [lia|done].
  - apply list_elem_of_singleton in H as ->. exists 0. split; [lia|done].
Qed.

Lemma copies_app ws ws' a : copies (ws ++ ws') a = copies ws' (copies ws a).
Proof. apply foldl_app. Qed.

Lemma copies_fields ws a :
  c_disk (copies ws a) = apply_writes ws (c_disk a) /\ c_view (copies ws a) = apply_writes ws (c_view a) /\
  c_dirty (copies ws a) = c_dirty a ∖ list_to_set ws.*1 /\ c_held (copies ws a) = c_held a /\
  c_hist (copies ws a) = trail ws (c_disk a) ++ c_hist a.
Proof.
  revert a. induction ws as [|w ws IH]; intros a; [simpl; repeat split; set_solver|].
  destruct (IH (s_copy w.1 w.2 a)) as (H1 & H2 & H3 & H4 & H5). unfold copies, apply_writes in *. simpl in *.
  rewrite H1, H2, H3, H4, H5. split; [done|]. split; [done|]. split; [set_solver|]. split; [done|].
  by rewrite <- app_assoc.
Qed.

(** ** What a disk recovers to *)

Section Geometry.
(** The log occupies the [sz] blocks from [st] on, the first its header. *)
Context (st sz : nat).

Definition home (n : nat) : Prop := n < st \/ st + sz <= n.

Definition count (b : block) : nat := Z.to_nat (s32 (get32 0 b)).
Definition entry (b : block) (i : nat) : nat := Z.to_nat (get32 (4 + 4 * i) b).
Definition entries (D : list block) : list nat :=
  match D !! st with Some b => entry b <$> seq 0 (count b) | None => [] end.

(** The writes to the home locations of the blocks [es] from the log in [D]. *)
Definition installs (es : list nat) (D : list block) : list write :=
  imap (fun i n => (n, default ([] : block) (D !! (st + 1 + i)))) es.

Definition recovered (D : list block) : list block := apply_writes (installs (entries D) D) D.

(** The writes to the log of the blocks [es] as the cache has them in [V]. *)
Definition logs (es : list nat) (V : list block) : list write :=
  imap (fun i n => (st + 1 + i, default ([] : block) (V !! n))) es.

Definition same_home (D1 D2 : list block) : Prop :=
  length D1 = length D2 /\ forall n, home n -> D1 !! n = D2 !! n.

Lemma installs_fst es D : (installs es D).*1 = es.
Proof.
  apply list_eq. intros i. unfold installs. rewrite list_lookup_fmap, list_lookup_imap. by destruct (es !! i).
Qed.

Lemma installs_lookup es D j n : es !! j = Some n ->
  installs es D !! j = Some (n, default ([] : block) (D !! (st + 1 + j))).
Proof. intros H. unfold installs. by rewrite list_lookup_imap, H. Qed.

Lemma logs_lookup es V j n : es !! j = Some n ->
  logs es V !! j = Some (st + 1 + j, default ([] : block) (V !! n)).
Proof. intros H. unfold logs. by rewrite list_lookup_imap, H. Qed.

Lemma logs_fst es V n : n ∈ (logs es V).*1 -> st < n < st + 1 + length es.
Proof.
  intros (w & -> & Hw)%list_elem_of_fmap. apply list_elem_of_lookup in Hw as [j Hj].
  unfold logs in Hj. rewrite list_lookup_imap in Hj. destruct (es !! j) eqn:E; [|done].
  simpl in Hj. injection Hj as <-. simpl. apply lookup_lt_Some in E. lia.
Qed.

Lemma logs_nodup es V : NoDup (logs es V).*1.
Proof.
  apply NoDup_alt. intros i j n Hi Hj. rewrite list_lookup_fmap in Hi, Hj. unfold logs in *.
  rewrite list_lookup_imap in Hi, Hj. destruct (es !! i), (es !! j); simpl in *; simplify_eq. lia.
Qed.

Lemma same_home_refl D : same_home D D.
Proof. done. Qed.

Lemma same_home_sym D1 D2 : same_home D1 D2 -> same_home D2 D1.
Proof. intros [H1 H2]. split; [done|]. intros n Hn. by rewrite H2. Qed.

Lemma same_home_trans D1 D2 D3 : same_home D1 D2 -> same_home D2 D3 -> same_home D1 D3.
Proof. intros [H1 H2] [H3 H4]. split; [congruence|]. intros n Hn. by rewrite H2, H4. Qed.

Lemma same_home_write D n d : ~ home n -> same_home (<[n := d]> D) D.
Proof.
  intros Hn. split; [apply length_insert|]. intros m Hm. apply list_lookup_insert_ne. by intros ->.
Qed.

Lemma recovered_empty D : entries D = [] -> recovered D = D.
Proof. unfold recovered. by intros ->. Qed.

Lemma entries_stable ws D : st ∉ ws.*1 -> entries (apply_writes ws D) = entries D.
Proof. intros H. unfold entries. by rewrite apply_other. Qed.

(** A transaction that the log can hold: distinct blocks outside the log, the
    super block not among them. *)
Record transaction (es : list nat) : Prop := {
  t_sb : 1 ∉ es;
  t_home n : n ∈ es -> home n;
  t_nodup : NoDup es;
  t_fits : length es < sz;
  t_max : length es <= Z.to_nat LOGSIZE
}.

Lemma installs_stable es D ws :
  transaction es -> (forall n, n ∈ ws.*1 -> home n) -> installs es (apply_writes ws D) = installs es D.
Proof.
  intros Ht Hws. unfold installs. apply imap_ext. intros i n Hi. f_equal. rewrite apply_other; [done|].
  intros [H|H]%Hws; [lia|]. apply lookup_lt_Some in Hi. pose proof (t_fits _ Ht). lia.
Qed.

(** A crash in the middle of copying the log to the home locations. *)
Lemma recovered_partial D i :
  transaction (entries D) ->
  recovered (apply_writes (take i (installs (entries D) D)) D) = recovered D.
Proof.
  intros Ht. set (W := installs (entries D) D).
  assert (Hw : forall n, n ∈ (take i W).*1 -> home n).
  { intros n Hn. apply (t_home _ Ht). rewrite fmap_take in Hn. apply elem_of_take in Hn as (k & Hk & _).
    subst W. rewrite installs_fst in Hk. by eapply list_elem_of_lookup_2. }
  assert (Hst : st ∉ (take i W).*1).
  { intros [H|H]%Hw; [lia|]. pose proof (t_fits _ Ht). lia. }
  unfold recovered. rewrite entries_stable, installs_stable by done. fold W. apply apply_prefix.
  subst W. rewrite installs_fst. apply Ht.
Qed.

(** ** The loops *)

(** The in-memory log describes the blocks [es]; the cache is idle. *)
Record describes (s : lstate) (a : cache) (g : log) (es : list nat) : Prop := {
  k_rep : lrep s ∅ a g;
  k_idle : c_held a = ∅;
  k_dev : dev g = 1%Z;
  k_start : start g = Z.of_nat st;
  k_len : (Z.of_nat (length (c_disk a)) <= 2 ^ 31)%Z;
  k_fit : st + sz <= length (c_disk a);
  k_n : lh_n g = Z.of_nat (length es);
  k_blocks i n : es !! i = Some n -> lh_block g !! i = Some (Z.of_nat n);
  k_tx : transaction es;
  k_range n : n ∈ es -> n < length (c_disk a);
  k_dirty n : n ∈ c_dirty a -> home n;
  k_room : size (c_dirty a) < NBUF;
  k_head : exists b, c_view a !! st = Some b /\ length b = BSIZE
}.

Lemma describes_copies s a g es s' ws :
  describes s a g es -> lrep s' ∅ (copies ws a) g ->
  (forall n d, (n, d) ∈ ws -> n = st -> length d = BSIZE) -> NoDup ws.*1 ->
  describes s' (copies ws a) g es.
Proof.
  intros H R Hst Hnd. destruct (copies_fields ws a) as (E1 & E2 & E3 & E4 & E5).
  split; rewrite ?E1, ?E2, ?E3, ?E4, ?apply_length; try apply H; try done.
  - intros n [? _]%elem_of_difference. by apply (k_dirty _ _ _ _ H).
  - assert (Hsub : c_dirty a ∖ list_to_set ws.*1 ⊆ c_dirty a) by set_solver.
    apply subseteq_size in Hsub. pose proof (k_room _ _ _ _ H). lia.
  - destruct (decide (st ∈ ws.*1)) as [Hin|Hin]; [|rewrite apply_other by done; apply H].
    apply list_elem_of_fmap in Hin as ([n d] & -> & Hin). apply list_elem_of_lookup in Hin as [j Hj]. simpl in *.
    exists d. split; [|by eapply Hst, eq_refl; eapply list_elem_of_lookup_2].
    eapply apply_written; [done|done|]. pose proof (r_len _ _ _ (proj1 (k_rep _ _ _ _ H))).
    pose proof (k_fit _ _ _ _ H). pose proof (t_fits _ (k_tx _ _ _ _ H)). lia.
Qed.

Lemma clean_view s a g es n : describes s a g es -> ~ home n -> c_view a !! n = c_disk a !! n.
Proof.
  intros H Hn. eapply r_clean; [apply H|rewrite (k_idle _ _ _ _ H); set_solver|].
  intros Hd. by apply Hn, (k_dirty _ _ _ _ H).
Qed.

Lemma log_not_home i es : i < length es -> transaction es -> ~ home (st + 1 + i).
Proof. intros Hi Ht [H|H]; pose proof (t_fits _ Ht); lia. Qed.

(** One iteration of the loops, in a state that [describes] the transaction. *)
Lemma block_steps s a g es i hb :
  describes s a g es -> es !! i = Some hb ->
  (forall d, c_view a !! (st + 1 + i) = Some d -> (hb ∈ c_dirty a \/ size (c_dirty a) + 1 < NBUF) ->
     total (install_block i) (fun _ s' => lrep s' ∅ (s_copy hb d a) g) s) /\
  (forall d, c_view a !! hb = Some d -> hb ∈ c_dirty a ->
     total (log_block i) (fun _ s' => lrep s' ∅ (s_copy (st + 1 + i) d a) g) s).
Proof.
  intros H Hi. pose proof (k_fit _ _ _ _ H). pose proof (k_len _ _ _ _ H). pose proof (k_start _ _ _ _ H).
  pose proof (lookup_lt_Some _ _ _ Hi) as Hlt. pose proof (t_fits _ (k_tx _ _ _ _ H)).
  pose proof (list_elem_of_lookup_2 _ _ _ Hi) as Hin. pose proof (k_range _ _ _ _ H _ Hin).
  pose proof (log_not_home i es Hlt (k_tx _ _ _ _ H)) as Hnh.
  assert (Hne : st + 1 + i <> hb) by (intros E; apply Hnh; rewrite E; by apply (t_home _ (k_tx _ _ _ _ H))).
  assert (Hcl : st + 1 + i ∉ c_dirty a) by (intros Hd; by apply Hnh, (k_dirty _ _ _ _ H)).
  split; intros d Hd Hr; [apply (install_block_ok s a g (st + 1 + i) hb i d)|apply (log_block_ok s a g (st + 1 + i) hb i d)];
    eauto using k_rep, k_idle, k_dev, k_blocks, k_room; lia.
Qed.

(** The targets of the first [i] installs. *)
Lemma installs_take es D i n : n ∈ (take i (installs es D)).*1 -> exists j, j < i /\ es !! j = Some n.
Proof. intros Hn. rewrite fmap_take, installs_fst in Hn. apply elem_of_take in Hn as (j & ? & ?). eauto. Qed.

Lemma take_fst_nodup (W : list write) i : NoDup W.*1 -> NoDup (take i W).*1.
Proof. intros H. rewrite fmap_take. eapply sublist_NoDup; [done|apply sublist_take]. Qed.

Lemma not_head (es : list nat) n : transaction es -> n ∈ es -> n <> st.
Proof. intros Ht Hn ->. destruct (t_home _ Ht _ Hn); pose proof (t_fits _ Ht); lia. Qed.

Lemma describes_installs s a g es s' i :
  describes s a g es -> lrep s' ∅ (copies (take i (installs es (c_disk a))) a) g ->
  describes s' (copies (take i (installs es (c_disk a))) a) g es.
Proof.
  intros H R. eapply describes_copies; [done|done| |].
  - intros n d Hnd ->. exfalso. destruct (installs_take es (c_disk a) i st) as (j & _ & Hj%list_elem_of_lookup_2).
    + apply list_elem_of_fmap. by exists (st, d).
    + by apply (not_head es st (k_tx _ _ _ _ H)).
  - apply take_fst_nodup. rewrite installs_fst. apply H.
Qed.

Lemma describes_logs s a g es s' i :
  describes s a g es -> lrep s' ∅ (copies (take i (logs es (c_view a))) a) g ->
  describes s' (copies (take i (logs es (c_view a))) a) g es.
Proof.
  intros H R. eapply describes_copies; [done|done| |].
  - intros n d Hnd ->. exfalso. assert (Hn : st ∈ (logs es (c_view a)).*1).
    { apply list_elem_of_fmap. exists (st, d). split; [done|]. by eapply subseteq_take. }
    apply logs_fst in Hn. lia.
  - apply take_fst_nodup, logs_nodup.
Qed.

Lemma copies_snoc (W : list write) i (w : write) a : W !! i = Some w -> copies (take (S i) W) a = s_copy w.1 w.2 (copies (take i W) a).
Proof. intros H. unfold write in *. by rewrite (take_S_r _ _ _ H), copies_app. Qed.

Lemma install_trans_ok s a g es :
  describes s a g es -> ((forall n, n ∈ es -> n ∈ c_dirty a) \/ size (c_dirty a) + 1 < NBUF) ->
  total install_trans (fun _ s' => lrep s' ∅ (copies (installs es (c_disk a)) a) g) s.
Proof.
  intros H Hroom. unfold install_trans. eapply getlog_bind; [apply H|]. rewrite (k_n _ _ _ _ H), Nat2Z.id.
  set (W := installs es (c_disk a)).
  assert (HW : length W = length es) by (apply length_imap).
  rewrite <- (take_ge W (0 + length es)) by lia.
  apply (wp_for_seq _ (fun i s' => lrep s' ∅ (copies (take i W) a) g)); [apply H|].
  intros i s' [_ Hi] R. destruct (lookup_lt_is_Some_2 es i) as [hb Hhb]; [lia|].
  pose proof (describes_installs _ _ _ _ _ i H R) as Hd. fold W in Hd.
  destruct (copies_fields (take i W) a) as (E1 & E2 & E3 & E4 & E5).
  destruct (lookup_lt_is_Some_2 (c_disk a) (st + 1 + i)) as [d Hdk].
  { pose proof (k_fit _ _ _ _ H). pose proof (t_fits _ (k_tx _ _ _ _ H)). lia. }
  pose proof (log_not_home i es Hi (k_tx _ _ _ _ H)) as Hnh.
  eapply total_mono; [apply (proj1 (block_steps _ _ _ _ i hb Hd Hhb) d)|cbv beta].
  - rewrite E2, apply_other; [by rewrite (clean_view _ _ _ _ _ H)|].
    intros (j & _ & Hj)%installs_take. by apply list_elem_of_lookup_2, (t_home _ (k_tx _ _ _ _ H)) in Hj.
  - rewrite E3. destruct Hroom as [Hr|Hr].
    + left. apply elem_of_difference. split; [apply Hr; by eapply list_elem_of_lookup_2|].
      rewrite elem_of_list_to_set. intros (j & Hji & Hj)%installs_take.
      pose proof (NoDup_lookup _ _ _ _ (t_nodup _ (k_tx _ _ _ _ H)) Hj Hhb). lia.
    + right. assert (Hsub : c_dirty a ∖ list_to_set (take i W).*1 ⊆ c_dirty a) by set_solver.
      apply subseteq_size in Hsub. lia.
  - intros _ s2 R2. rewrite (copies_snoc W i (hb, d)); [done|]. subst W.
    rewrite (installs_lookup es _ _ _ Hhb), Hdk. done.
Qed.

Lemma write_log_ok s a g es :
  describes s a g es -> (forall n, n ∈ es -> n ∈ c_dirty a) ->
  total write_log (fun _ s' => lrep s' ∅ (copies (logs es (c_view a)) a) g) s.
Proof.
  intros H Hroom. unfold write_log. eapply getlog_bind; [apply H|]. rewrite (k_n _ _ _ _ H), Nat2Z.id.
  set (W := logs es (c_view a)).
  assert (HW : length W = length es) by (apply length_imap).
  rewrite <- (take_ge W (0 + length es)) by lia.
  apply (wp_for_seq _ (fun i s' => lrep s' ∅ (copies (take i W) a) g)); [apply H|].
  intros i s' [_ Hi] R. destruct (lookup_lt_is_Some_2 es i) as [hb Hhb]; [lia|].
  pose proof (list_elem_of_lookup_2 _ _ _ Hhb) as Hin. pose proof (t_home _ (k_tx _ _ _ _ H) _ Hin) as Hh.
  pose proof (describes_logs _ _ _ _ _ i H R) as Hd. fold W in Hd.
  destruct (copies_fields (take i W) a) as (E1 & E2 & E3 & E4 & E5).
  destruct (lookup_lt_is_Some_2 (c_view a) hb) as [d Hdk].
  { rewrite (r_len _ _ _ (proj1 (k_rep _ _ _ _ H))). by apply (k_range _ _ _ _ H). }
  assert (Hnl : hb ∉ (take i W).*1).
  { intros Hn. assert (Hn' : hb ∈ W.*1) by (rewrite fmap_take in Hn; by eapply subseteq_take).
    apply logs_fst in Hn'. pose proof (t_fits _ (k_tx _ _ _ _ H)). destruct Hh; lia. }
  eapply total_mono; [apply (proj2 (block_steps _ _ _ _ i hb Hd Hhb) d)|cbv beta].
  - by rewrite E2, apply_other.
  - rewrite E3. set_solver.
  - intros _ s2 R2. rewrite (copies_snoc W i (st + 1 + i, d)); [done|]. subst W.
    rewrite (logs_lookup es _ _ _ Hhb), Hdk. done.
Qed.

Lemma header_ok s a g es f :
  describes s a g es -> (forall i n, es !! i = Some n -> f i = Z.of_nat n) ->
  exists d, c_view a !! st = Some d /\ length d = BSIZE /\
  total write_head (fun _ s' => lrep s' ∅ (s_copy st (encode f (length es) d) a) g) s.
Proof.
  intros H Hf. destruct (k_head _ _ _ _ H) as (d & Hd & Hl). exists d. split; [done|]. split; [done|].
  pose proof (k_fit _ _ _ _ H). pose proof (k_len _ _ _ _ H). pose proof (t_fits _ (k_tx _ _ _ _ H)).
  eapply write_head_ok; eauto using k_rep, k_idle, k_dev, k_start, k_room, k_n.
  - lia.
  - lia.
  - intros [?|?]%(k_dirty _ _ _ _ H); lia.
  - intros i Hi. apply lookup_lt_is_Some_2 in Hi as [n Hn]. rewrite (Hf _ _ Hn). by apply (k_blocks _ _ _ _ H).
Qed.

(** ** The header on the disk *)

(** A disk that recovery can read. *)
Record recoverable (D : list block) : Prop := {
  v_head : exists b, D !! st = Some b /\ length b = BSIZE /\ s32 (get32 0 b) = Z.of_nat (length (entries D)) /\
    forall i, i < length (entries D) -> (0 <= get32 (4 + 4 * i) b)%Z;
  v_tx : transaction (entries D);
  v_range n : n ∈ entries D -> n < length D
}.

Lemma entries_encode (D : list block) f es d :
  st < length D -> length d = BSIZE -> length es <= Z.to_nat LOGSIZE ->
  (forall i n, es !! i = Some n -> f i = Z.of_nat n /\ (Z.of_nat n < 2 ^ 31)%Z) ->
  entries (<[st := encode f (length es) d]> D) = es /\
  s32 (get32 0 (encode f (length es) d)) = Z.of_nat (length es).
Proof.
  intros Hst Hd Hes Hf. change (Z.to_nat LOGSIZE) with 30 in Hes. unfold entries. rewrite list_lookup_insert_eq by done.
  assert (Hc : s32 (get32 0 (encode f (length es) d)) = Z.of_nat (length es)).
  { rewrite encode_count by (rewrite Hd; unfold BSIZE; lia). rewrite s32_u32. apply s32_id. lia. }
  split; [|done]. unfold count. rewrite Hc, Nat2Z.id. apply list_eq. intros i. rewrite list_lookup_fmap.
  destruct (decide (i < length es)) as [Hi|Hi].
  - rewrite lookup_seq_lt by done. destruct (lookup_lt_is_Some_2 es i Hi) as [n Hn]. rewrite Hn. simpl. f_equal.
    unfold entry. change (S (S (S (S (i + (i + (i + (i + 0)))))))) with (4 + 4 * i).
    rewrite encode_entry by (rewrite ?Hd; unfold BSIZE; lia). destruct (Hf _ _ Hn) as [-> Hb].
    rewrite u32_id by lia. apply Nat2Z.id.
  - rewrite lookup_seq_ge by lia. by rewrite lookup_ge_None_2 by lia.
Qed.

(** The home locations after the log is copied to them. *)
Lemma recovered_home D V0 D0 es :
  entries D = es -> transaction es -> (forall n, n ∈ es -> n < length D) -> length V0 = length D ->
  (forall j n, es !! j = Some n -> D !! (st + 1 + j) = V0 !! n) ->
  (forall n, home n -> n ∉ es -> D !! n = V0 !! n) -> D0 = recovered D ->
  same_home D0 V0.
Proof.
  intros <- Ht Hr Hl Hlog Hoth ->. split; [unfold recovered; by rewrite apply_length|]. intros n Hn. unfold recovered.
  destruct (decide (n ∈ entries D)) as [Hin|Hin].
  - apply list_elem_of_lookup in Hin as [j Hj]. pose proof (Hlog _ _ Hj) as Hd.
    destruct (lookup_lt_is_Some_2 V0 n) as [d Hv]; [rewrite Hl; apply Hr; by eapply list_elem_of_lookup_2|].
    rewrite Hv in Hd |- *. eapply (apply_written _ _ j).
    + rewrite installs_fst. apply Ht.
    + by rewrite (installs_lookup _ _ _ _ Hj), Hd.
    + apply Hr. by eapply list_elem_of_lookup_2.
  - rewrite apply_other by (by rewrite installs_fst). by apply Hoth.
Qed.

Lemma recoverable_stable ws D : st ∉ ws.*1 -> recoverable D -> recoverable (apply_writes ws D).
Proof.
  intros Hst [Hh Ht Hr]. split; rewrite ?entries_stable, ?apply_length by done; [|done|done].
  by rewrite apply_other.
Qed.

Lemma apply_not_home ws D : (forall n, n ∈ ws.*1 -> ~ home n) -> same_home (apply_writes ws D) D.
Proof.
  intros H. split; [apply apply_length|]. intros n Hn. apply apply_other. intros Hin. by apply (H n).
Qed.

Lemma take_fst (W : list write) i n : n ∈ (take i W).*1 -> n ∈ W.*1.
Proof. rewrite fmap_take. apply subseteq_take. Qed.

(** Writing the blocks of the log of an empty transaction. *)
Lemma logged D es V i :
  transaction es -> recoverable D -> entries D = [] ->
  let D' := apply_writes (take i (logs es V)) D in
  recoverable D' /\ entries D' = [] /\ same_home D' D.
Proof.
  intros Ht Hrec He D'. pose proof (t_fits _ Ht).
  assert (Hst : st ∉ (take i (logs es V)).*1) by (intros Hn%take_fst%logs_fst; lia).
  split; [by apply recoverable_stable|]. split; [unfold D'; by rewrite entries_stable|].
  apply apply_not_home. intros n Hn%take_fst%logs_fst [Hh|Hh]; lia.
Qed.

Lemma no_transaction : 0 < sz -> transaction [].
Proof. intros H. split; [set_solver|set_solver|constructor|done|simpl; lia]. Qed.

Lemma header_write D f es d :
  st < length D -> length d = BSIZE -> transaction es ->
  (forall i n, es !! i = Some n -> f i = Z.of_nat n /\ (Z.of_nat n < 2 ^ 31)%Z /\ n < length D) ->
  let D' := <[st := encode f (length es) d]> D in
  recoverable D' /\ entries D' = es /\ same_home D' D.
Proof.
  intros Hst Hd Ht Hf D'. pose proof (t_max _ Ht) as Hmax. pose proof (t_fits _ Ht).
  destruct (entries_encode D f es d) as [He Hc]; [done|done|done|intros i n Hn; by destruct (Hf i n Hn) as (? & ? & _)|].
  fold D' in He. split; [split|split]; rewrite ?He.
  - change (Z.to_nat LOGSIZE) with 30 in Hmax. assert (4 + 4 * length es <= length d) by (rewrite Hd; unfold BSIZE; lia).
    eexists. split; [by apply list_lookup_insert_eq|]. split; [by rewrite encode_length|]. split; [done|].
    intros i Hi. rewrite encode_entry by done. apply u32_range.
  - done.
  - intros n [i Hi]%list_elem_of_lookup. unfold D'. rewrite length_insert. by eapply Hf.
  - done.
  - apply same_home_write. intros [Hh|Hh]; lia.
Qed.

Definition crash_ok (old new D : list block) : Prop :=
  recoverable D /\ (same_home (recovered D) old \/ same_home (recovered D) new).

(** The cache is clean and the log empty, in memory and on the disk. *)
Record quiet (s : lstate) (a : cache) (g : log) : Prop := {
  q_desc : describes s a g [];
  q_dirty : c_dirty a = ∅;
  q_entries : entries (c_disk a) = [];
  q_rec : recoverable (c_disk a)
}.

(** The tail of [commit] and of [recover_from_log]: copy the log to the home
    locations and clear it. *)
Lemma install_clear_ok s a g :
  let es := entries (c_disk a) in
  describes s a g es -> recoverable (c_disk a) ->
  (forall n, n ∈ c_dirty a -> n ∈ es) -> ((forall n, n ∈ es -> n ∈ c_dirty a) \/ c_dirty a = ∅) ->
  total (install_trans;; updlog (set_lh_n 0);; write_head) (fun _ s' => exists a' new,
    quiet s' a' (set_lh_n 0 g) /\ same_home (c_disk a') (recovered (c_disk a)) /\
    c_hist a' = new ++ c_hist a /\
    forall D, D ∈ new -> recoverable D /\ same_home (recovered D) (recovered (c_disk a))) s.
Proof.
  intros es H Hrec Hd Hroom. pose proof (k_tx _ _ _ _ H) as Ht. pose proof (t_fits _ Ht) as Hfits.
  pose proof (k_fit _ _ _ _ H) as Hfit. set (W := installs es (c_disk a)).
  eapply total_bind; [apply (install_trans_ok s a g es H); destruct Hroom as [?|Hr]; [by left|right; rewrite Hr; vm_compute; lia]|].
  cbv beta. fold W. intros _ s1 R1. destruct (copies_fields W a) as (E1 & E2 & E3 & E4 & E5).
  assert (H1 : describes s1 (copies W a) g es).
  { pose proof (describes_installs s a g es s1 (length W) H) as Hdi. fold W in Hdi. rewrite firstn_all in Hdi. auto. }
  lstep updlog_ok. intros _ s2 R2.
  assert (H2 : describes s2 (copies W a) (set_lh_n 0 g) []).
  { destruct H1. split; try done; [by apply no_transaction; lia|set_solver]. }
  destruct (header_ok s2 _ _ [] (fun _ => 0%Z) H2) as (d & Hd' & Hdl & Hw); [done|].
  destruct (header_write (c_disk (copies W a)) (fun _ => 0%Z) [] d) as (Hr' & He' & Hs');
    [rewrite E1, apply_length; lia|done|by apply no_transaction; lia|done|].
  eapply total_mono; [exact Hw|cbv beta]. intros _ s3 R3.
  exists (s_copy st (encode (fun _ => 0%Z) 0 d) (copies W a)), (c_disk (copies W a) :: trail W (c_disk a)).
  split; [|split; [|split]].
  - split; [| |done|done].
    + apply (describes_copies s2 _ _ [] s3 [(st, encode (fun _ => 0%Z) 0 d)] H2 R3); [|apply NoDup_singleton].
      intros n d' [= -> ->]%list_elem_of_singleton _. rewrite encode_length by (rewrite Hdl; unfold BSIZE; lia). done.
    + simpl. rewrite E3. unfold W. rewrite installs_fst. set_solver.
  - unfold recovered. fold es W. rewrite <- E1. exact Hs'.
  - simpl. by rewrite E5.
  - assert (HW : forall i, recoverable (apply_writes (take i W) (c_disk a)) /\
      recovered (apply_writes (take i W) (c_disk a)) = recovered (c_disk a)).
    { intros i. split; [|by apply recovered_partial]. apply recoverable_stable; [|done].
      intros Hn%take_fst. unfold W in Hn. rewrite installs_fst in Hn. by apply (not_head es st Ht). }
    intros D [->|HD]%elem_of_cons.
    + specialize (HW (length W)). rewrite firstn_all in HW. destruct HW as [Ha Hb]. by rewrite E1, Hb.
    + apply trail_in in HD as (i & _ & ->). destruct (HW i) as [Ha Hb]. by rewrite Hb.
Qed.

(** The first half of [commit], up to and including the write of the header. *)
Lemma log_phase_ok s a g es :
  describes s a g es -> (forall n, n ∈ c_dirty a <-> n ∈ es) ->
  entries (c_disk a) = [] -> recoverable (c_disk a) ->
  total (write_log;; write_head) (fun _ s' => exists a' new,
    describes s' a' g es /\ recoverable (c_disk a') /\ entries (c_disk a') = es /\
    same_home (recovered (c_disk a')) (c_view a) /\ c_dirty a' = c_dirty a /\
    c_hist a' = new ++ c_hist a /\ forall D, D ∈ new -> recoverable D /\ same_home (recovered D) (c_disk a)) s.
Proof.
  intros H Hdirty He Hrec. pose proof (k_tx _ _ _ _ H) as Ht. pose proof (t_fits _ Ht) as Hfits.
  pose proof (k_fit _ _ _ _ H) as Hfit. pose proof (r_len _ _ _ (proj1 (k_rep _ _ _ _ H))) as Hvl.
  set (W := logs es (c_view a)).
  eapply total_bind; [apply (write_log_ok s a g es H); intros n Hn; by apply Hdirty|]. cbv beta. fold W. intros _ s1 R1.
  destruct (copies_fields W a) as (E1 & E2 & E3 & E4 & E5).
  assert (H1 : describes s1 (copies W a) g es).
  { pose proof (describes_logs s a g es s1 (length W) H) as Hdi. fold W in Hdi. rewrite firstn_all in Hdi. auto. }
  set (f := fun i => Z.of_nat (default 0 (es !! i))).
  assert (Hf : forall i n, es !! i = Some n -> f i = Z.of_nat n) by (intros i n Hi; unfold f; by rewrite Hi).
  destruct (header_ok s1 _ _ es f H1 Hf) as (d & Hd & Hdl & Hw). eapply total_mono; [exact Hw|]. cbv beta. intros _ s2 R2.
  destruct (header_write (c_disk (copies W a)) f es d) as (Hr2 & He2 & Hs2);
    [rewrite E1, apply_length; lia|done|done| |].
  { intros i n Hi. split; [by apply Hf|]. rewrite E1, apply_length. pose proof (k_len _ _ _ _ H).
    pose proof (k_range _ _ _ _ H n (list_elem_of_lookup_2 _ _ _ Hi)). split; [lia|done]. }
  exists (s_copy st (encode f (length es) d) (copies W a)), (c_disk (copies W a) :: trail W (c_disk a)).
  split; [|split; [done|split; [done|split; [|split; [|split]]]]].
  - apply (describes_copies s1 _ _ es s2 [(st, encode f (length es) d)] H1 R2); [|apply NoDup_singleton].
    pose proof (t_max _ Ht) as Hmax. change (Z.to_nat LOGSIZE) with 30 in Hmax.
    intros n d' [= -> ->]%list_elem_of_singleton _. rewrite encode_length by (rewrite Hdl; unfold BSIZE; lia). done.
  - eapply recovered_home; [exact He2|done|simpl; rewrite E1, length_insert, apply_length; apply H|
      simpl; by rewrite length_insert, E1, apply_length| | |done]; simpl.
    + intros j n Hj. rewrite list_lookup_insert_ne by lia.
      destruct (lookup_lt_is_Some_2 (c_view a) n) as [x Hx].
      { rewrite Hvl. apply H. by eapply list_elem_of_lookup_2. }
      rewrite E1, (apply_written W _ j (st + 1 + j) x); [done|apply logs_nodup| |].
      * unfold W. by rewrite (logs_lookup _ _ _ _ Hj), Hx.
      * apply lookup_lt_Some in Hj. lia.
    + intros n Hn Hnes. rewrite list_lookup_insert_ne by (intros ->; destruct Hn; lia).
      rewrite E1, apply_other by (intros Hin%logs_fst; destruct Hn; lia).
      symmetry. eapply r_clean; [apply H|rewrite (k_idle _ _ _ _ H); set_solver|by rewrite Hdirty].
  - simpl. rewrite E3. apply set_eq. intros n. rewrite !elem_of_difference, elem_of_list_to_set, elem_of_singleton.
    split; [tauto|]. intros Hn. pose proof (k_dirty _ _ _ _ H n Hn) as Hh.
    split; [split; [done|intros Hin%logs_fst]|intros ->]; destruct Hh; lia.
  - simpl. by rewrite E5.
  - assert (HW : forall i, recoverable (apply_writes (take i W) (c_disk a)) /\
      same_home (recovered (apply_writes (take i W) (c_disk a))) (c_disk a)).
    { intros i. destruct (logged (c_disk a) es (c_view a) i Ht Hrec He) as (Ha & Hb & Hc). by rewrite recovered_empty. }
    intros D [->|HD]%elem_of_cons.
    + specialize (HW (length W)). rewrite firstn_all in HW. by rewrite E1.
    + apply trail_in in HD as (i & _ & ->). apply HW.
Qed.

Lemma commit_ok s a g es :
  describes s a g es -> (forall n, n ∈ c_dirty a <-> n ∈ es) ->
  entries (c_disk a) = [] -> recoverable (c_disk a) ->
  total commit (fun _ s' => exists a' new,
    quiet s' a' (set_lh_n 0 g) /\ same_home (c_disk a') (c_view a) /\
    c_hist a' = new ++ c_hist a /\ forall D, D ∈ new -> crash_ok (c_disk a) (c_view a) D) s.
Proof.
  intros H Hdirty He Hrec. unfold commit. eapply getlog_bind; [apply H|]. rewrite (k_n _ _ _ _ H).
  destruct es as [|e0 es0] eqn:Ees.
  { assert (c_dirty a = ∅) as Hd0 by (apply set_eq; intros n; rewrite Hdirty; set_solver).
    assert (Hv : c_view a = c_disk a).
    { apply list_eq. intros n. eapply r_clean; [apply H|rewrite (k_idle _ _ _ _ H); set_solver|rewrite Hd0; set_solver]. }
    apply total_ret. exists a, []. split; [|split; [by rewrite Hv|split; [done|set_solver]]].
    assert (set_lh_n 0 g = g) as -> by (pose proof (k_n _ _ _ _ H); destruct g; simpl in *; by subst). done. }
  rewrite <- Ees in *. rewrite (proj2 (Z.ltb_lt _ _)) by (rewrite Ees; simpl; lia). clear Ees e0 es0.
  apply total_assoc. eapply total_bind; [by apply (log_phase_ok s a g es)|]. cbv beta.
  intros _ s2 (a2 & new & H2 & Hr2 & He2 & Hs2 & Hd2 & Hh2 & Hc2).
  rewrite <- He2 in H2. eapply total_mono; [eapply (install_clear_ok s2 a2 g H2 Hr2)|cbv beta].
  - intros n. rewrite Hd2, He2. apply Hdirty.
  - left. intros n. rewrite Hd2, He2. apply Hdirty.
  - intros _ s3 (a3 & new' & Hq & Hs3 & Hh3 & Hc3). exists a3, (new' ++ new). split; [done|].
    split; [by eapply same_home_trans|]. split; [by rewrite Hh3, Hh2, app_assoc|].
    intros D [HD|HD]%elem_of_app.
    + destruct (Hc3 D HD) as [Ha Hb]. split; [done|]. right. by eapply same_home_trans.
    + destruct (Hc2 D HD) as [Ha Hb]. split; [done|]. by left.
Qed.

(** ** Recovery *)

(** The super block places the log where it is. *)
Definition sb_ok (D : list block) : Prop :=
  exists b, D !! 1 = Some b /\ get32 12 b = Z.of_nat sz /\ get32 16 b = Z.of_nat st.

Lemma sb_home D D' : 1 < st -> transaction (entries D) -> same_home (recovered D) D' -> sb_ok D' -> sb_ok D.
Proof.
  intros Hst Ht [_ Hs] (b & Hb & Hsb). exists b. split; [|done].
  rewrite <- Hb, <- Hs by (left; lia). unfold recovered. rewrite apply_other; [done|].
  rewrite installs_fst. apply Ht.
Qed.

Lemma entries_lookup D (b : block) i n : D !! st = Some b -> entries D !! i = Some n -> n = entry b i.
Proof.
  intros Hb. unfold entries. rewrite Hb, list_lookup_fmap. destruct (seq 0 (count b) !! i) as [j|] eqn:Hj; [|done].
  apply lookup_seq in Hj as [-> _]. by intros [= <-].
Qed.

Lemma recover_ok s D g :
  lrep s ∅ (fresh D) g -> dev g = 1%Z -> start g = Z.of_nat st -> length (lh_block g) = Z.to_nat LOGSIZE ->
  recoverable D -> (Z.of_nat (length D) <= 2 ^ 31)%Z -> st + sz <= length D ->
  total recover_from_log (fun _ s' => exists a bl,
    quiet s' a (set_lh_n 0 (set_lh_block bl g)) /\ length bl = length (lh_block g) /\
    same_home (c_disk a) (recovered D) /\
    forall D', D' ∈ c_hist a -> recoverable D' /\ same_home (recovered D') (recovered D)) s.
Proof.
  intros R Hdev Hst Hbl Hrec Hlen Hfit. destruct (v_head _ Hrec) as (b & Hb & Hbs & Hc & Hpos).
  pose proof (v_tx _ Hrec) as Ht. pose proof (t_fits _ Ht).
  unfold recover_from_log. eapply total_bind.
  { eapply (read_head_ok s (fresh D) g st (length (entries D)) b); simpl; try done; try lia.
    - vm_compute. lia.
    - rewrite Hbl. apply Ht. }
  cbv beta. intros _ s1 (bl & Hl & Hblk & R1).
  eapply total_mono; [apply (install_clear_ok s1 (fresh D) (set_lh_block bl (set_lh_n (Z.of_nat (length (entries D))) g)))|cbv beta].
  - split; simpl; try done; try (by rewrite size_empty; vm_compute; lia).
    + intros i n Hi. change (entries D !! i = Some n) in Hi. pose proof (lookup_lt_Some _ _ _ Hi) as Hlt.
      rewrite Hblk by done. pose proof (v_range _ Hrec _ (list_elem_of_lookup_2 _ _ _ Hi)) as Hr.
      apply (entries_lookup D b) in Hi as ->; [|done]. unfold entry in *. f_equal.
      specialize (Hpos i). rewrite s32_id; lia.
    + apply Hrec.
    + vm_compute. lia.
    + by exists b.
  - done.
  - set_solver.
  - right. done.
  - intros _ s2 (a & new & Hq & Hs & Hh & Hn). exists a, bl. simpl in *. rewrite app_nil_r in Hh. subst.
    split; [by destruct g|]. done.
Qed.
End Geometry.
