(* ===== verification/LogClaims.v ===== *)
(** * The log as its clients see it

    File system calls bracket their writes by [begin_op] and [end_op]; what
    they write becomes durable, all of it or nothing, when the last of a group
    of concurrent calls ends. *)
From S2P Require Import Prelude Bytes Bio BioSpec Log LogCopy LogCrash.
Local Open Scope nat_scope.

(** [struct log log], zeroed at boot, and a machine booted on the disk [D]. *)
Definition boot_log : log := mkLog 0 0 0 0 0 0 (replicate (Z.to_nat LOGSIZE) 0%Z) 0.
Definition booted (D : list block) : lstate := mkL (binit D) boot_log.

(** What a file system call does: the body of [bread]; change; [log_write];
    [brelse] is one command. *)
Inductive lcmd : Type :=
| LBegin
| LWrite (n : nat) (d : block)
| LEnd.

Definition run_lcmd (c : lcmd) : M lstate unit :=
  match c with
  | LBegin => begin_op
  | LWrite n d =>
      b ← cached (bread 1 (Z.of_nat n));
      set_bytes b d;;
      log_write b;;
      cached (brelse b)
  | LEnd => end_op
  end.

(** Several calls may be open at once: the commands are the interleaving of
    what they do. *)
Definition run_lcmds (cs : list lcmd) : M lstate unit := for_each cs run_lcmd.

(** ** The specification *)

Record spec := mkSpec {
  sp_disk : list block;  (* what a crash leaves *)
  sp_cur : list block;   (* what is read now *)
  sp_open : nat;         (* the calls between begin_op and end_op *)
  sp_tx : list nat       (* the blocks of the current transaction *)
}.

(** The blocks of the transaction after a write of block [n]. *)
Definition add_block (n : nat) (tx : list nat) : list nat := if decide (n ∈ tx) then tx else tx ++ [n].

Section Spec.
Context (st sz : nat).

(** [None]: the command would sleep or panic, or writes where a file system call
    must not.  A transaction of [NBUF] blocks would pin every buffer, so 29
    blocks are the limit whatever the size of the log. *)
Definition abs_lcmd (c : lcmd) (p : spec) : option spec :=
  match c with
  | LBegin =>
      if decide (length (sp_tx p) + (sp_open p + 1) * 10 <= 30)
      then Some (mkSpec (sp_disk p) (sp_cur p) (sp_open p + 1) (sp_tx p)) else None
  | LWrite n d =>
      if decide (1 <= sp_open p /\ length (sp_tx p) < 29 /\ length (sp_tx p) + 1 < sz /\
                 (n < st \/ st + sz <= n) /\ n <> 1 /\ n < length (sp_cur p))
      then Some (mkSpec (sp_disk p) (<[n := d]> (sp_cur p)) (sp_open p) (add_block n (sp_tx p)))
      else None
  | LEnd =>
      match sp_open p with
      | O => None
      | S O => Some (mkSpec (sp_cur p) (sp_cur p) 0 [])
      | S k => Some (mkSpec (sp_disk p) (sp_cur p) k (sp_tx p))
      end
  end.

Fixpoint abs_lcmds (cs : list lcmd) (p : spec) : option spec :=
  match cs with
  | [] => Some p
  | c :: cs' => match abs_lcmd c p with Some p' => abs_lcmds cs' p' | None => None end
  end.

Record linv (s : lstate) (p : spec) : Prop := {
  i_ex : exists a, describes st sz s a (l_log s) (sp_tx p) /\ (forall n, n ∈ c_dirty a <-> n ∈ sp_tx p) /\
    entries st (c_disk a) = [] /\ recoverable st sz (c_disk a) /\
    same_home st sz (c_disk a) (sp_disk p) /\ same_home st sz (c_view a) (sp_cur p);
  i_open : outstanding (l_log s) = Z.of_nat (sp_open p);
  i_comm : committing (l_log s) = 0%Z;
  i_size : lsize (l_log s) = Z.of_nat sz;
  i_block : length (lh_block (l_log s)) = Z.to_nat LOGSIZE;
  i_closed : sp_open p = 0 -> sp_tx p = []
}.

(** [s'] is reached from [s] and every disk in between recovers to the contents
    of [p] or to those of [p']. *)
Definition crash_safe (s s' : lstate) (p p' : spec) : Prop :=
  exists new, hist (l_bio s') = new ++ hist (l_bio s) /\
    forall D, D ∈ new -> crash_ok st sz (sp_disk p) (sp_disk p') D.

Lemma crash_safe_same s s' p p' : hist (l_bio s') = hist (l_bio s) -> crash_safe s s' p p'.
Proof. intros H. exists []. split; [done|]. set_solver. Qed.

Lemma crash_ok_home old new old' new' D :
  crash_ok st sz old new D -> same_home st sz old old' -> same_home st sz new new' -> crash_ok st sz old' new' D.
Proof.
  intros [Hr [H|H]] Ho Hn; (split; [done|]); [left|right]; by eapply same_home_trans.
Qed.

Lemma begin_ok s p p' :
  linv s p -> abs_lcmd LBegin p = Some p' ->
  total begin_op (fun _ s' => linv s' p' /\ crash_safe s s' p p') s.
Proof.
  intros H. unfold abs_lcmd. case_decide as Hroom; [|done]. intros [= <-]. destruct (i_ex _ _ H) as (a & Hd & Hrest).
  unfold begin_op. eapply getlog_bind; [apply Hd|]. rewrite (i_comm _ _ H), (i_open _ _ H), (k_n _ _ _ _ _ _ Hd). simpl.
  rewrite (proj2 (Z.ltb_ge _ _)) by (unfold LOGSIZE, MAXOPBLOCKS; lia).
  split; [|by apply crash_safe_same]. destruct Hd, H. split; simpl; try done; [|lia|lia].
  exists a. split; [|done]. split; try done. by destruct k_rep.
Qed.

(** ** [log_write] *)

(** The in-memory header lists the blocks [tx]. *)
Definition lists (bl : list Z) (tx : list nat) : Prop := forall i n, tx !! i = Some n -> bl !! i = Some (Z.of_nat n).

Lemma absorb_spec bl tx n k :
  lists bl tx -> (forall m, m ∈ tx -> (Z.of_nat m < 2 ^ 32)%Z) -> k <= length tx ->
  let i := absorb bl (Z.of_nat n) (length tx - k) k in
  (length tx - k <= i < length tx /\ tx !! i = Some n) \/ (i = length tx /\ n ∉ drop (length tx - k) tx).
Proof.
  intros Hl Hb. induction k as [|k IH]; intros Hk i; subst i; simpl.
  - right. split; [lia|]. rewrite Nat.sub_0_r, drop_all. set_solver.
  - destruct (lookup_lt_is_Some_2 tx (length tx - S k)) as [m Hm]; [lia|]. rewrite (Hl _ _ Hm).
    rewrite u32_id by (pose proof (Hb m (list_elem_of_lookup_2 _ _ _ Hm)); lia).
    destruct (Z.eqb_spec (Z.of_nat m) (Z.of_nat n)) as [E|E].
    + left. split; [lia|]. rewrite Hm. f_equal. lia.
    + replace (S (length tx - S k)) with (length tx - k) by lia. destruct (IH ltac:(lia)) as [[H1 H2]|[H1 H2]].
      * left. split; [lia|done].
      * right. split; [done|]. rewrite (drop_S _ _ _ Hm). replace (S (length tx - S k)) with (length tx - k) by lia.
        intros [->|?]%elem_of_cons; [lia|done].
Qed.

Lemma lists_snoc bl tx n : lists bl tx -> length tx < length bl -> lists (<[length tx := Z.of_nat n]> bl) (tx ++ [n]).
Proof.
  intros Hl Hlt i m Hi. destruct (decide (i = length tx)) as [->|].
  - rewrite lookup_app_r, Nat.sub_diag in Hi by lia. injection Hi as ->. by apply list_lookup_insert_eq.
  - rewrite list_lookup_insert_ne by done. apply Hl. apply lookup_app_Some in Hi as [?|[? Hi]]; [done|].
    apply list_lookup_singleton_Some in Hi as [? _]. lia.
Qed.

Lemma lists_same bl tx n i : lists bl tx -> tx !! i = Some n -> lists (<[i := Z.of_nat n]> bl) tx.
Proof.
  intros Hl Hi j m Hj. destruct (decide (j = i)) as [->|]; [|rewrite list_lookup_insert_ne by done; by apply Hl].
  rewrite list_lookup_insert_eq by (eapply lookup_lt_Some; by apply Hl). congruence.
Qed.

Lemma set_block_at_ok s h a g i v :
  lrep s h a g -> i < length (lh_block g) ->
  total (set_block_at i v) (fun _ s' => lrep s' h a (set_lh_block (<[i := s32 v]> (lh_block g)) g)) s.
Proof.
  intros R Hi. unfold set_block_at. eapply getlog_bind; [exact R|]. rewrite (proj2 (Nat.ltb_lt _ _)) by done.
  eapply total_mono; [eapply updlog_ok; exact R|]. done.
Qed.

Lemma log_write_ok s h a g n b tx :
  lrep s h a g -> h !! n = Some b -> lists (lh_block g) tx -> lh_n g = Z.of_nat (length tx) ->
  length (lh_block g) = Z.to_nat LOGSIZE -> length tx < 30 -> (Z.of_nat (length tx) + 1 < lsize g)%Z ->
  (1 <= outstanding g)%Z -> (Z.of_nat n < 2 ^ 31)%Z -> (forall m, m ∈ tx -> (Z.of_nat m < 2 ^ 31)%Z) ->
  total (log_write b) (fun _ s' => exists bl, lists bl (add_block n tx) /\ length bl = length (lh_block g) /\
    lrep s' h (s_pin n a) (set_lh_n (Z.of_nat (length (add_block n tx))) (set_lh_block bl g))) s.
Proof.
  intros R Hh Hl Hn Hbl H30 Hsz Hout Hn31 Htx. change (Z.to_nat LOGSIZE) with 30 in Hbl.
  unfold log_write. eapply getlog_bind; [exact R|]. rewrite Hn.
  rewrite (proj2 (Z.leb_gt _ _)) by (unfold LOGSIZE, MAXOPBLOCKS; lia).
  rewrite (proj2 (Z.leb_gt _ _)), (proj2 (Z.ltb_ge _ _)) by lia. cbn [orb].
  destruct (r_holder _ _ _ _ _ (proj1 R) Hh) as (f & d & Hb & _).
  apply (total_bind _ _ _ (fun x s' => x = mkBuf f 1 (Z.of_nat n) true 1 d /\ s' = s)).
  { apply cached_total. eexists _, _. split; [by apply bufat_eq|]. by destruct s. }
  intros ? ? [-> ->]. cbn [b_blockno]. rewrite Nat2Z.id.
  destruct (absorb_spec (lh_block g) tx n (length tx) Hl) as [[Hi1 Hi2]|[Hi1 Hi2]];
    [intros m Hm; pose proof (Htx m Hm); lia|lia| |]; rewrite Nat.sub_diag in *; set (i := absorb _ _ _ _) in *;
    (eapply total_bind; [apply (set_block_at_ok s h a g i _ R); lia|]); cbv beta; intros _ s1 R1; rewrite s32_id in R1 by lia.
  - assert (add_block n tx = tx) as -> by (unfold add_block; rewrite decide_True; [done|by eapply list_elem_of_lookup_2]).
    rewrite (proj2 (Z.eqb_neq _ _)) by lia.
    apply (total_bind _ _ _ (fun _ s' => s' = s1)); [done|]. intros _ ? ->.
    eapply total_mono; [eapply (pin_ok s1 h a _ R1); done|cbv beta]. intros _ s2 R2.
    exists (<[i := Z.of_nat n]> (lh_block g)). split; [by apply lists_same|]. split; [by rewrite length_insert|].
    rewrite <- Hn. by destruct g.
  - assert (add_block n tx = tx ++ [n]) as -> by (unfold add_block; by rewrite decide_False).
    rewrite Hi1, Z.eqb_refl in *. lstep updlog_ok. intros _ s2 R2.
    eapply total_mono; [eapply (pin_ok s2 h a _ R2); done|cbv beta]. intros _ s3 R3.
    exists (<[length tx := Z.of_nat n]> (lh_block g)). split; [apply lists_snoc; [done|lia]|]. split; [by rewrite length_insert|].
    rewrite length_app. simpl. by replace (Z.of_nat (length tx + 1)) with (Z.of_nat (length tx) + 1)%Z by lia.
Qed.

(** ** The commands *)

Lemma add_block_tx n tx len :
  transaction st sz tx -> home st sz n -> n <> 1 -> length tx < 30 -> length tx + 1 < sz ->
  (forall m, m ∈ tx -> m < len) -> n < len ->
  transaction st sz (add_block n tx) /\ forall m, m ∈ add_block n tx -> m < len.
Proof.
  intros [Hsb Hh Hnd Hf Hm] Hn H1 H30 Hsz Hr Hl. unfold add_block. case_decide as Hin; [done|].
  split; [|set_solver]. split.
  - set_solver.
  - set_solver.
  - apply NoDup_app. split; [done|]. split; [set_solver|apply NoDup_singleton].
  - rewrite length_app. simpl. lia.
  - rewrite length_app. change (Z.to_nat LOGSIZE) with 30. simpl. lia.
Qed.

Lemma elem_of_add_block m n tx : m ∈ add_block n tx <-> m = n \/ m ∈ tx.
Proof. unfold add_block. case_decide; set_solver. Qed.

(** A transaction within the log's size leaves a buffer for one more block. *)
Lemma dirty_room (X : gset nat) tx : (forall n, n ∈ X -> n ∈ tx) -> length tx < 30 -> size X < NBUF.
Proof.
  intros Hs Hl. assert (Hsub : X ⊆ list_to_set tx) by (intros n Hn; apply elem_of_list_to_set; auto).
  apply subseteq_size in Hsub. enough (size (list_to_set tx : gset nat) <= length tx) by (unfold NBUF; lia).
  clear. induction tx as [|n tx IH]; [by rewrite list_to_set_nil, size_empty|].
  rewrite list_to_set_cons, size_union_alt, size_singleton. simpl.
  assert (Hs : list_to_set tx ∖ {[n]} ⊆ (list_to_set tx : gset nat)) by set_solver. apply subseteq_size in Hs. lia.
Qed.

Lemma write_ok s p p' n d :
  linv s p -> abs_lcmd (LWrite n d) p = Some p' ->
  total (run_lcmd (LWrite n d)) (fun _ s' => linv s' p' /\ crash_safe s s' p p') s.
Proof.
  intros H. unfold abs_lcmd. case_decide as Hc; [|done]. intros [= <-].
  destruct Hc as (Hop & H30 & Hsz & Hn & H1 & Hlt). destruct (i_ex _ _ H) as (a & Hd & Hdy & He & Hrec & Hs1 & Hs2).
  pose proof (r_len _ _ _ (proj1 (k_rep _ _ _ _ _ _ Hd))) as Hvl. pose proof (k_len _ _ _ _ _ _ Hd) as Hlen.
  destruct Hs2 as [Hl2 Hs2]. rewrite <- Hl2, Hvl in Hlt.
  simpl. lstep bread_ok; [apply Hd|rewrite (k_idle _ _ _ _ _ _ Hd); set_solver|right; rewrite (k_idle _ _ _ _ _ _ Hd), union_empty_r_L; apply Hd|].
  intros b s1 R1. lstep (set_bytes_ok s1 _ _ _ R1 n); [by rewrite lookup_insert_eq|]. intros _ s2 R2.
  eapply total_bind.
  { eapply (log_write_ok s2 _ _ _ n b (sp_tx p) R2); [by rewrite lookup_insert_eq|exact (k_blocks _ _ _ _ _ _ Hd)|apply Hd|apply H|lia| | | |].
    - rewrite (i_size _ _ H). lia.
    - rewrite (i_open _ _ H). lia.
    - lia.
    - intros m Hm. pose proof (k_range _ _ _ _ _ _ Hd m Hm). lia. }
  cbv beta. intros _ s3 (bl & Hbl & Hbll & R3).
  eapply total_mono; [apply (brelse_ok s3 _ _ _ R3 n); [by rewrite lookup_insert_eq|left; simpl; set_solver]|cbv beta].
  intros _ s4 R4. rewrite delete_insert_id in R4 by done.
  destruct (add_block_tx n (sp_tx p) (length (c_disk a))) as [Ht' Hr']; try done; [apply Hd|lia|apply Hd|].
  assert (Hidle : c_held a = ∅) by apply Hd. assert (Hst : n <> st) by (intros ->; lia).
  assert (Hdy' : forall m, m ∈ {[n]} ∪ c_dirty a <-> m ∈ add_block n (sp_tx p)).
  { intros m. rewrite elem_of_add_block, elem_of_union, elem_of_singleton, Hdy. done. }
  split; [|apply crash_safe_same]; [split; simpl|].
  - exists (s_brelse n (s_pin n (s_set n d (s_bread n a)))). destruct R4 as [R4 Hg4].
    split; [|split; [done|]; split; [done|]; split; [done|]; split; [done|]].
    + rewrite Hg4. split; simpl; try apply Hd; try done.
      * rewrite Hidle. set_solver.
      * intros m. rewrite Hdy'. apply Ht'.
      * apply (dirty_room _ (add_block n (sp_tx p))); [intros m; by rewrite Hdy'|].
        unfold add_block. case_decide; rewrite ?length_app; simpl; lia.
      * rewrite list_lookup_insert_ne by done. apply Hd.
    + split; [simpl; rewrite !length_insert; exact Hl2|]. intros m Hm. simpl. destruct (decide (m = n)) as [->|].
      * rewrite !list_lookup_insert_eq by lia. done.
      * rewrite !list_lookup_insert_ne by done. by apply Hs2.
  - rewrite (proj2 R4). apply H.
  - rewrite (proj2 R4). apply H.
  - rewrite (proj2 R4). apply H.
  - rewrite (proj2 R4). simpl. rewrite Hbll. apply H.
  - lia.
  - rewrite <- (r_hist _ _ _ (proj1 R4)). simpl. apply (r_hist _ _ _ (proj1 (k_rep _ _ _ _ _ _ Hd))).
Qed.

(** The log fields that the description of a transaction does not mention. *)
Lemma describes_log s a g es s' g' :
  describes st sz s a g es -> lrep s' ∅ a g' ->
  dev g' = dev g -> start g' = start g -> lh_n g' = lh_n g -> lh_block g' = lh_block g ->
  describes st sz s' a g' es.
Proof. intros H R E1 E2 E3 E4. split; try apply H; [done|..]; rewrite ?E1, ?E2, ?E3, ?E4; apply H. Qed.

Lemma quiet_view s a g : quiet st sz s a g -> c_view a = c_disk a.
Proof.
  intros [H Hd _ _]. apply list_eq. intros n.
  eapply r_clean; [apply H|rewrite (k_idle _ _ _ _ _ _ H); set_solver|rewrite Hd; set_solver].
Qed.

Lemma quiet_linv s a g s' :
  quiet st sz s a g -> represents (l_bio s') ∅ a ->
  dev (l_log s') = dev g -> start (l_log s') = start g -> lh_n (l_log s') = lh_n g -> lh_block (l_log s') = lh_block g ->
  outstanding (l_log s') = 0%Z -> committing (l_log s') = 0%Z -> lsize (l_log s') = Z.of_nat sz ->
  length (lh_block (l_log s')) = Z.to_nat LOGSIZE ->
  forall D, same_home st sz (c_disk a) D -> linv s' (mkSpec D D 0 []).
Proof.
  intros Hq R E1 E2 E3 E4 E5 E6 E7 E8 D HD. pose proof (quiet_view _ _ _ Hq) as Hv. destruct Hq as [H Hd He Hr].
  split; simpl; try done. exists a. split; [by eapply describes_log|]. split; [rewrite Hd; set_solver|].
  by rewrite Hv.
Qed.

Lemma end_ok s p p' :
  linv s p -> abs_lcmd LEnd p = Some p' ->
  total end_op (fun _ s' => linv s' p' /\ crash_safe s s' p p') s.
Proof.
  intros H Hp. destruct (i_ex _ _ H) as (a & Hd & Hdy & He & Hrec & Hs1 & Hs2).
  pose proof (r_hist _ _ _ (proj1 (k_rep _ _ _ _ _ _ Hd))) as Hh.
  unfold end_op, end_op_enter. apply total_assoc_rev. lstep updlog_ok; [apply Hd|]. intros _ s1 R1.
  apply total_assoc_rev. eapply getlog_bind; [exact R1|].
  cbn [committing set_outstanding outstanding]. rewrite (i_comm _ _ H), (i_open _ _ H). simpl negb. cbv iota.
  simpl in Hp. destruct (sp_open p) as [|[|k]] eqn:Eo; [done| |]; injection Hp as <-.
  - rewrite (proj2 (Z.eqb_eq _ _)) by lia. apply total_assoc_rev. lstep updlog_ok. intros _ s2 R2.
    change (total (commit;; end_op_leave) (fun _ s' => linv s' (mkSpec (sp_cur p) (sp_cur p) 0 []) /\
      crash_safe s s' p (mkSpec (sp_cur p) (sp_cur p) 0 [])) s2).
    eapply total_bind; [eapply (commit_ok st sz s2 a _ (sp_tx p)); [eapply (describes_log s); [exact Hd|exact R2|done..]|done|done|done]|].
    cbv beta. intros _ s3 (a3 & new & Hq & Hs3 & Hh3 & Hc3).
    unfold end_op_leave. lstep updlog_ok; [apply Hq|]. intros _ s4 R4.
    eapply total_mono; [eapply updlog_ok; exact R4|cbv beta]. intros _ s5 [R5 Hg5].
    split.
    + apply (quiet_linv s3 a3 _ s5 Hq); rewrite ?Hg5; simpl; rewrite ?(i_open _ _ H), ?Eo; try done;
        [apply H|apply H|]. by eapply same_home_trans.
    + exists new. rewrite <- (r_hist _ _ _ R5), Hh3, Hh. split; [done|]. intros D HD.
      eapply crash_ok_home; eauto.
  - rewrite (proj2 (Z.eqb_neq _ _)) by lia. apply total_assoc_rev. lstep updlog_ok. intros _ s2 [R2 Hg2].
    apply total_ret. split; [|apply crash_safe_same; by rewrite <- (r_hist _ _ _ R2), Hh].
    split; rewrite ?Hg2; simpl; try apply H; [|rewrite (i_open _ _ H); lia|lia].
    exists a. split; [|done]. eapply (describes_log s); [exact Hd|by split|done..].
Qed.

(** The specification of every command. *)
Lemma run_lcmd_ok c s p p' :
  linv s p -> abs_lcmd c p = Some p' -> total (run_lcmd c) (fun _ s' => linv s' p' /\ crash_safe s s' p p') s.
Proof. destruct c; [apply begin_ok|apply write_ok|apply end_ok]. Qed.

Lemma run_lcmds_ok cs s p p' :
  linv s p -> abs_lcmds cs p = Some p' -> total (run_lcmds cs) (fun _ s' => linv s' p') s.
Proof.
  revert s p. induction cs as [|c cs IH]; intros s p H Hp; simpl in Hp; [injection Hp as <-; done|].
  destruct (abs_lcmd c p) as [p1|] eqn:E; [|done].
  eapply total_bind; [by eapply run_lcmd_ok|]. cbv beta. intros _ s1 [H1 _]. by eapply IH.
Qed.

(** ** Mounting *)

Lemma readsb_ok D b :
  D !! 1 = Some b ->
  total (readsb 1) (fun sb s' => sb = decode_sb b /\ lrep s' ∅ (fresh D) boot_log) (booted D).
Proof.
  intros Hb. assert (R : lrep (booted D) ∅ (fresh D) boot_log) by (split; [apply binit_rep|done]).
  unfold readsb. change (u32 1) with (Z.of_nat 1). change 1%Z with (Z.of_nat 1) at 1.
  lstep bread_ok; [by eapply lookup_lt_Some|set_solver|right; vm_compute; lia|]. intros bp s1 R1.
  lstep (data_ok s1 _ _ _ R1 1). intros ? s2 [-> R2].
  lstep (brelse_ok s2 _ _ _ R2 1). intros _ s3 R3.
  apply total_ret. split; [done|]. eapply lrep_idle; [exact R3|simpl; set_solver|].
  unfold s_brelse, s_bread, fresh. simpl. f_equal.
Qed.

Lemma mount_ok D :
  1 < st -> st + sz <= length D -> (Z.of_nat (length D) <= 2 ^ 31)%Z -> sb_ok st sz D -> recoverable st sz D ->
  total (initlog 1) (fun _ s' =>
    linv s' (mkSpec (recovered st D) (recovered st D) 0 []) /\
    same_home st sz (disk (l_bio s')) (recovered st D) /\
    forall D', D' ∈ disk (l_bio s') :: hist (l_bio s') ->
      recoverable st sz D' /\ same_home st sz (recovered st D') (recovered st D)) (booted D).
Proof.
  intros Hst Hfit Hlen (b & Hb & Hnlog & Hstart) Hrec. pose proof (t_fits _ _ _ (v_tx _ _ _ Hrec)). unfold initlog.
  change (Z.of_nat BSIZE <=? logheader_size)%Z with false. cbv iota.
  lstep readsb_ok. intros sb s1 [-> R1]. cbn [sb_logstart sb_nlog decode_sb].
  rewrite Hnlog, Hstart, !s32_id by lia.
  lstep updlog_ok. intros _ s2 R2. lstep updlog_ok. intros _ s3 R3. lstep updlog_ok. intros _ s4 R4.
  eapply total_mono; [eapply (recover_ok st sz s4 D _ R4); done|cbv beta].
  intros _ s5 (a & bl & Hq & Hl & Hs & Hc). pose proof (k_rep _ _ _ _ _ _ (q_desc _ _ _ _ _ Hq)) as [R5 Hg5].
  rewrite <- (r_disk _ _ _ R5), <- (r_hist _ _ _ R5). split; [|split; [done|]].
  - eapply (quiet_linv s5 a _ s5 Hq R5); rewrite ?Hg5; done.
  - intros D' [->|HD]%elem_of_cons; [|by apply Hc]. split; [apply Hq|]. by rewrite recovered_empty by apply Hq.
Qed.

#[local] Opaque initlog run_lcmd run_lcmds.

(** The disks that a machine can leave behind that is booted on [D] and crashes
    during recovery, any number of times. *)
Inductive crashes : list block -> list block -> Prop :=
| crash_none D : crashes D D
| crash_again D s' D1 D2 :
    initlog 1 (booted D) = Ret tt s' -> D1 ∈ disk (l_bio s') :: hist (l_bio s') -> crashes D1 D2 -> crashes D D2.

Lemma crashes_ok D D' X :
  1 < st -> sb_ok st sz X -> (Z.of_nat (length X) <= 2 ^ 31)%Z -> st + sz <= length X ->
  recoverable st sz D -> same_home st sz (recovered st D) X -> crashes D D' ->
  recoverable st sz D' /\ same_home st sz (recovered st D') X.
Proof.
  intros Hst Hsb Hlen Hfit Hrec Hs Hc. induction Hc as [D|D s' D1 D2 Hrun Hin Hc IH]; [done|].
  assert (HlD : length D = length X).
  { destruct Hs as [Hl _]. unfold recovered in Hl. by rewrite apply_length in Hl. }
  pose proof (sb_home st sz D X Hst (v_tx _ _ _ Hrec) Hs Hsb) as HsbD.
  pose proof (mount_ok D Hst ltac:(lia) ltac:(lia) HsbD Hrec) as Hm.
  destruct (total_det _ _ _ _ _ Hm Hrun) as (_ & _ & Hall). destruct (Hall D1 Hin) as [Hr1 Hs1]. apply IH; [done|]. by eapply same_home_trans.
Qed.

(** Transactions leave the super block and the size of the disk alone. *)
Definition mounts (p : spec) (X : list block) : Prop :=
  length (sp_disk p) = length X /\ length (sp_cur p) = length X /\ sp_disk p !! 1 = X !! 1 /\ sp_cur p !! 1 = X !! 1.

Lemma recovered_mounts D : recoverable st sz D -> mounts (mkSpec (recovered st D) (recovered st D) 0 []) D.
Proof.
  intros Hr. assert (H1 : recovered st D !! 1 = D !! 1).
  { unfold recovered. apply apply_other. rewrite installs_fst. apply (v_tx _ _ _ Hr). }
  assert (H2 : length (recovered st D) = length D) by apply apply_length.
  exact (conj H2 (conj H2 (conj H1 H1))).
Qed.

Lemma abs_lcmd_mounts c p p' X : abs_lcmd c p = Some p' -> mounts p X -> mounts p' X.
Proof.
  intros Hc (H1 & H2 & H3 & H4). destruct c; simpl in Hc.
  - case_decide; [|done]. by injection Hc as <-.
  - case_decide as Hd; [|done]. injection Hc as <-. destruct Hd as (_ & _ & _ & _ & Hn & _).
    split; [done|]. split; [by simpl; rewrite length_insert|]. split; [done|]. simpl. by rewrite list_lookup_insert_ne.
  - destruct (sp_open p) as [|[|k]]; [done| |]; by injection Hc as <-.
Qed.

Lemma abs_lcmds_mounts cs p p' X : abs_lcmds cs p = Some p' -> mounts p X -> mounts p' X.
Proof.
  revert p. induction cs as [|c cs IH]; intros p Hp Hm; simpl in Hp; [by injection Hp as <-|].
  destruct (abs_lcmd c p) as [p1|] eqn:E; [|done]. eapply IH; [done|]. by eapply abs_lcmd_mounts.
Qed.

Lemma mounts_geometry q D :
  mounts q D -> sb_ok st sz D -> (Z.of_nat (length D) <= 2 ^ 31)%Z -> st + sz <= length D ->
  sb_ok st sz (sp_disk q) /\ (Z.of_nat (length (sp_disk q)) <= 2 ^ 31)%Z /\ st + sz <= length (sp_disk q).
Proof.
  intros (H1 & _ & H3 & _) (b & Hb & Hsb) Hlen Hfit. rewrite H1. split; [|done].
  exists b. split; [exact (eq_trans H3 Hb)|done].
Qed.

(** A crash between two commands. *)
Lemma linv_crash s p p' : linv s p' -> crash_ok st sz (sp_disk p) (sp_disk p') (disk (l_bio s)).
Proof.
  intros H. destruct (i_ex _ _ H) as (a & Hd & _ & He & Hr & Hs & _).
  rewrite <- (r_disk _ _ _ (proj1 (k_rep _ _ _ _ _ _ Hd))). split; [done|]. right. by rewrite recovered_empty.
Qed.

(** Recovery from a disk that a crash left during a command. *)
Lemma remount_ok D D' X :
  1 < st -> sb_ok st sz X -> (Z.of_nat (length X) <= 2 ^ 31)%Z -> st + sz <= length X ->
  recoverable st sz D -> same_home st sz (recovered st D) X -> crashes D D' ->
  exists s'', initlog 1 (booted D') = Ret tt s'' /\ same_home st sz (disk (l_bio s'')) X.
Proof.
  intros Hst Hsb Hlen Hfit Hrec Hs Hc. destruct (crashes_ok D D' X) as [Hr' Hs']; try done.
  assert (HlD : length D' = length X).
  { destruct Hs' as [Hl _]. unfold recovered in Hl. by rewrite apply_length in Hl. }
  pose proof (sb_home st sz D' X Hst (v_tx _ _ _ Hr') Hs' Hsb) as Hsb'.
  pose proof (mount_ok D' Hst ltac:(lia) ltac:(lia) Hsb' Hr') as Hm.
  destruct (proj1 (total_iff _ _ _) Hm) as ([] & s'' & Hrun & _ & Hs'' & _). exists s''. split; [done|]. by eapply same_home_trans.
Qed.
End Spec.

(** ** Claims *)

(** C2: transactions are atomic and durable across crashes.  On a disk [D0] that
    was left by a crash, mount, run any interleaving [cs] of file system calls
    (each between [begin_op] and [end_op]) and then one more command [c].  All of
    it returns.  If the machine crashes at any write of [c], or right after it,
    and then crashes any number of times during recovery, the next recovery
    completes, and outside the log the disk is exactly what the committed
    transactions made it, either before [c] or after [c]: never a mixture. *)
Theorem crash_atomicity (st sz : nat) (D0 : list block) (cs : list lcmd) (c : lcmd) (p p' : spec)
  (Hst : 1 < st) (Hfit : st + sz <= length D0) (Hlen : (Z.of_nat (length D0) <= 2 ^ 31)%Z)
  (Hsb : sb_ok st sz D0) (Hrec : recoverable st sz D0)
  (Hcs : abs_lcmds st sz cs (mkSpec (recovered st D0) (recovered st D0) 0 []) = Some p)
  (Hc : abs_lcmd st sz c p = Some p') :
  exists s s' new,
    (initlog 1;; run_lcmds cs) (booted D0) = Ret tt s /\ run_lcmd c s = Ret tt s' /\
    hist (l_bio s') = new ++ hist (l_bio s) /\
    forall D D', D ∈ disk (l_bio s') :: new -> crashes D D' ->
      exists s'', initlog 1 (booted D') = Ret tt s'' /\
        (same_home st sz (disk (l_bio s'')) (sp_disk p) \/ same_home st sz (disk (l_bio s'')) (sp_disk p')).
Proof.
  assert (Hrun : total (initlog 1;; run_lcmds cs) (fun _ s' => linv st sz s' p) (booted D0)).
  { eapply total_bind; [by apply mount_ok|]. cbv beta. intros _ s [Hi _]. by eapply run_lcmds_ok. }
  destruct (proj1 (total_iff _ _ _) Hrun) as ([] & s & Hret & Hi).
  pose proof (run_lcmd_ok st sz c s p p' Hi Hc) as Hrun'.
  destruct (proj1 (total_iff _ _ _) Hrun') as ([] & s' & Hret' & Hi' & new & Hnew & Hall). exists s, s', new.
  split; [exact Hret|]. split; [exact Hret'|]. split; [exact Hnew|].
  assert (Hm : mounts p D0).
  { eapply abs_lcmds_mounts; [exact Hcs|]. by apply (recovered_mounts st sz). }
  pose proof (abs_lcmd_mounts _ _ _ _ _ _ Hc Hm) as Hm'.
  destruct (mounts_geometry st sz p D0 Hm Hsb Hlen Hfit) as (X1 & X2 & X3).
  destruct (mounts_geometry st sz p' D0 Hm' Hsb Hlen Hfit) as (Y1 & Y2 & Y3).
  pose proof (linv_crash st sz s' p p' Hi') as Hfinal.
  intros D D' HD HDD'. assert (Hok : crash_ok st sz (sp_disk p) (sp_disk p') D).
  { apply elem_of_cons in HD as [->|HD]; [exact Hfinal|exact (Hall D HD)]. }
  destruct Hok as [Hr [Hs|Hs]].
  - destruct (remount_ok st sz D D' (sp_disk p) Hst X1 X2 X3 Hr Hs HDD') as (s'' & Hm1 & Hm2). exists s''. exact (conj Hm1 (or_introl Hm2)).
  - destruct (remount_ok st sz D D' (sp_disk p') Hst Y1 Y2 Y3 Hr Hs HDD') as (s'' & Hm1 & Hm2). exists s''. exact (conj Hm1 (or_intror Hm2)).
Qed.

(** A disk of eight blocks whose log is blocks 2 to 5, empty. *)
Definition demo_disk : list block :=
  [[]; put32 16 2 (put32 12 4 (replicate 28 0%Z)); replicate BSIZE 0%Z; []; []; []; [6%Z]; [7%Z]].

Lemma demo_disk_recoverable : recoverable 2 4 demo_disk.
Proof.
  assert (He : entries 2 demo_disk = []) by (vm_compute; reflexivity).
  split; rewrite ?He.
  - exists (replicate BSIZE 0%Z). split; [done|]. split; [done|]. split; [vm_compute; reflexivity|]. simpl. lia.
  - apply no_transaction. lia.
  - set_solver.
Qed.

Lemma crash_atomicity_witness :
  exists s s' new,
    (initlog 1;; run_lcmds [LBegin; LWrite 6 [60%Z]; LBegin; LWrite 7 [70%Z]; LEnd]) (booted demo_disk) = Ret tt s /\
    run_lcmd LEnd s = Ret tt s' /\ hist (l_bio s') = new ++ hist (l_bio s) /\
    forall D D', D ∈ disk (l_bio s') :: new -> crashes D D' ->
      exists s'', initlog 1 (booted D') = Ret tt s'' /\
        (same_home 2 4 (disk (l_bio s'')) demo_disk \/
         same_home 2 4 (disk (l_bio s'')) (<[7 := [70%Z]]> (<[6 := [60%Z]]> demo_disk))).
Proof.
  apply (crash_atomicity 2 4 demo_disk [LBegin; LWrite 6 [60%Z]; LBegin; LWrite 7 [70%Z]; LEnd] LEnd
    (mkSpec demo_disk (<[7 := [70%Z]]> (<[6 := [60%Z]]> demo_disk)) 1 [6; 7])
    (mkSpec (<[7 := [70%Z]]> (<[6 := [60%Z]]> demo_disk)) (<[7 := [70%Z]]> (<[6 := [60%Z]]> demo_disk)) 0 [])).
  - lia.
  - vm_compute. lia.
  - vm_compute. done.
  - exists (put32 16 2 (put32 12 4 (replicate 28 0%Z))). split; [done|]. split; vm_compute; reflexivity.
  - apply demo_disk_recoverable.
  - vm_compute. reflexivity.
  - vm_compute. reflexivity.
Defined.
