(* ===== verification/Blocks.v ===== *)
(** * The block layer as the file system sees it

    What [fs.c] uses of [bio.c] and [log.c]: [bread], the data of a locked
    buffer, [log_write] and [brelse].  [BlockOps] names the operations and
    [BlockLaws] states what they promise during a transaction: a buffer holds
    the current contents of its block, a change to it becomes part of the
    transaction when it is logged, and a changed buffer is logged before it is
    released.  The file system is verified against these classes; the log on
    top of the buffer cache is an instance, and so is a disk that is just a
    list of blocks. *)
From stdpp Require Import gmap.
From S2P Require Import Prelude Bytes Bio BioSpec Log LogCopy LogCrash LogClaims.
Local Open Scope nat_scope.

Class BlockOps (S : Type) := {
  bk_read : Z -> Z -> M S nat;
  bk_data : nat -> M S block;
  bk_set : nat -> block -> M S unit;
  bk_log : nat -> M S unit;
  bk_release : nat -> M S unit
}.

(** [bk_state s h V tx md]: block [n] contains [V !! n]; the caller holds the
    blocks of [h]; the transaction has the blocks [tx]; the held blocks [md] have
    been changed and not yet logged.  At most [bk_limit] blocks fit into a
    transaction, and only the blocks [bk_home] may be logged. *)
Class BlockLaws (S : Type) {ops : BlockOps S} := {
  bk_state : S -> gmap nat nat -> list block -> gset nat -> gset nat -> Prop;
  bk_limit : nat;
  bk_home : nat -> Prop;
  law_limit : bk_limit < NBUF;
  law_read s h V tx md n :
    bk_state s h V tx md -> n < length V -> n ∉ dom h -> size (tx ∪ dom h) < NBUF ->
    total (bk_read 1 (Z.of_nat n)) (fun b s' => bk_state s' (<[n := b]> h) V tx md) s;
  law_data s h V tx md n b d :
    bk_state s h V tx md -> h !! n = Some b -> V !! n = Some d ->
    total (bk_data b) (fun d' s' => d' = d /\ bk_state s' h V tx md) s;
  law_set s h V tx md n b d :
    bk_state s h V tx md -> h !! n = Some b ->
    total (bk_set b d) (fun _ s' => bk_state s' h (<[n := d]> V) tx ({[n]} ∪ md)) s;
  law_log s h V tx md n b :
    bk_state s h V tx md -> h !! n = Some b -> bk_home n -> size tx < bk_limit ->
    total (bk_log b) (fun _ s' => bk_state s' h V ({[n]} ∪ tx) (md ∖ {[n]})) s;
  law_release s h V tx md n b :
    bk_state s h V tx md -> h !! n = Some b -> n ∉ md ->
    total (bk_release b) (fun _ s' => bk_state s' (delete n h) V tx md) s
}.

(** ** The log as the block layer *)

#[export] Instance log_ops : BlockOps lstate := {
  bk_read d n := cached (bread d n);
  bk_data b := data b;
  bk_set b d := set_bytes b d;
  bk_log b := log_write b;
  bk_release b := cached (brelse b)
}.

Section LogBlocks.
(** The log occupies the [sz] blocks from [st] on.  During a call the disk [D] and
    its history [H] do not change, and of the log [g0] only the list of blocks
    does. *)
Context (st sz : nat) (D : list block) (H : list (list block)) (g0 : log).

Record in_call (s : lstate) (h : gmap nat nat) (V : list block) (tx md : gset nat)
    (a : cache) (bl : list Z) (es : list nat) : Prop := {
  c_rep : lrep s h a (set_lh_n (Z.of_nat (length es)) (set_lh_block bl g0));
  c_cache : c_view a = V /\ c_disk a = D /\ c_hist a = H;
  c_es n : n ∈ tx <-> n ∈ es;
  c_dirtyes n : n ∈ c_dirty a <-> n ∈ es;
  c_clean n : n ∉ es -> n ∉ md -> V !! n = D !! n;
  c_md : md ⊆ dom h;
  c_lists : lists bl es;
  c_block : length bl = Z.to_nat LOGSIZE;
  c_tx : transaction st sz es;
  c_range n : n ∈ es -> n < length D;
  c_max : length es <= 29
}.

(** The call is open, on a log of this geometry. *)
Record log_open : Prop := {
  o_size : lsize g0 = Z.of_nat sz;
  o_open : (1 <= outstanding g0)%Z;
  o_len : (Z.of_nat (length D) <= 2 ^ 31)%Z
}.
Context (Hopen : log_open).

Definition log_limit : nat := 29 `min` (sz - 1).
Definition log_home (n : nat) : Prop := home st sz n /\ n <> 1.
Definition log_state (s : lstate) h V tx md : Prop := exists a bl es, in_call s h V tx md a bl es.

Lemma size_list (tx : gset nat) es : NoDup es -> (forall n, n ∈ tx <-> n ∈ es) -> size tx = length es.
Proof.
  intros Hnd Heq. rewrite <- (size_list_to_set (C := gset nat) es) by done. f_equal. apply set_eq. intros n.
  by rewrite Heq, elem_of_list_to_set.
Qed.

Lemma log_law_read s h V tx md n :
  log_state s h V tx md -> n < length V -> n ∉ dom h -> size (tx ∪ dom h) < NBUF ->
  total (bk_read 1 (Z.of_nat n)) (fun b s' => log_state s' (<[n := b]> h) V tx md) s.
Proof.
  intros (a & bl & es & Hc) Hn Hh Hsz. destruct (c_cache _ _ _ _ _ _ _ _ Hc) as (HV & HD & HH).
  pose proof (r_len _ _ _ (proj1 (c_rep _ _ _ _ _ _ _ _ Hc))) as Hl.
  pose proof (r_dom _ _ _ (proj1 (c_rep _ _ _ _ _ _ _ _ Hc))) as Hdom.
  eapply total_mono; [eapply (bread_ok s h a _ (c_rep _ _ _ _ _ _ _ _ Hc) n)|].
  - by rewrite <- Hl, HV.
  - by rewrite Hdom.
  - right. replace (c_dirty a) with tx; [by rewrite Hdom|]. apply set_eq. intros m.
    by rewrite (c_es _ _ _ _ _ _ _ _ Hc), (c_dirtyes _ _ _ _ _ _ _ _ Hc).
  - cbv beta. intros b s' R. exists (s_bread n a), bl, es. destruct Hc. split; try done. set_solver.
Qed.

Lemma log_law_data s h V tx md n b d :
  log_state s h V tx md -> h !! n = Some b -> V !! n = Some d ->
  total (bk_data b) (fun d' s' => d' = d /\ log_state s' h V tx md) s.
Proof.
  intros (a & bl & es & Hc) Hn Hd. destruct (c_cache _ _ _ _ _ _ _ _ Hc) as (HV & _).
  eapply total_mono; [eapply (data_ok s h a _ (c_rep _ _ _ _ _ _ _ _ Hc) n b d Hn); by rewrite HV|].
  cbv beta. intros d' s' [-> R]. split; [done|]. exists a, bl, es. destruct Hc. by split.
Qed.

Lemma log_law_set s h V tx md n b d :
  log_state s h V tx md -> h !! n = Some b ->
  total (bk_set b d) (fun _ s' => log_state s' h (<[n := d]> V) tx ({[n]} ∪ md)) s.
Proof.
  intros (a & bl & es & Hc) Hn. destruct (c_cache _ _ _ _ _ _ _ _ Hc) as (HV & HD & HH).
  eapply total_mono; [eapply (set_bytes_ok s h a _ (c_rep _ _ _ _ _ _ _ _ Hc) n b d Hn)|].
  cbv beta. intros _ s' R. exists (s_set n d a), bl, es. destruct Hc. split; try done.
  - simpl. by rewrite HV.
  - intros m Hm1 Hm2. rewrite list_lookup_insert_ne by set_solver. apply c_clean0; set_solver.
  - apply elem_of_dom_2 in Hn. set_solver.
Qed.

Lemma log_law_log s h V tx md n b :
  log_state s h V tx md -> h !! n = Some b -> log_home n -> size tx < log_limit ->
  total (bk_log b) (fun _ s' => log_state s' h V ({[n]} ∪ tx) (md ∖ {[n]})) s.
Proof using Hopen.
  intros (a & bl & es & Hc) Hn [Hh H1] Hlim. destruct (c_cache _ _ _ _ _ _ _ _ Hc) as (HV & HD & HH).
  pose proof (c_tx _ _ _ _ _ _ _ _ Hc) as Ht. rewrite (size_list tx es) in Hlim by (apply Hc || apply Ht).
  unfold log_limit in Hlim. destruct Hopen as [Hsz Hop Hlen].
  destruct (r_holder _ _ _ _ _ (proj1 (c_rep _ _ _ _ _ _ _ _ Hc)) Hn) as (_ & _ & _ & _ & _ & _ & Hlt). rewrite HD in Hlt.
  eapply total_mono; [eapply (log_write_ok s h a _ n b es (c_rep _ _ _ _ _ _ _ _ Hc) Hn)|].
  - apply Hc.
  - done.
  - apply Hc.
  - lia.
  - simpl. lia.
  - done.
  - lia.
  - intros m Hm. pose proof (c_range _ _ _ _ _ _ _ _ Hc m Hm). lia.
  - cbv beta. intros _ s' (bl' & Hl' & Hbl' & R).
    destruct (add_block_tx st sz n es (length D)) as [Ht' Hr']; try done; [lia|lia|apply Hc|].
    exists (s_pin n a), bl', (add_block n es). destruct Hc. split; try done.
    + intros m. rewrite elem_of_add_block, elem_of_union, elem_of_singleton, c_es0. done.
    + intros m. simpl. rewrite elem_of_add_block, elem_of_union, elem_of_singleton, c_dirtyes0. done.
    + intros m. rewrite elem_of_add_block. intros Hm1 Hm2. apply c_clean0; set_solver.
    + set_solver.
    + simpl in Hbl'. congruence.
    + unfold add_block. case_decide; rewrite ?length_app; simpl; lia.
Qed.

Lemma log_law_release s h V tx md n b :
  log_state s h V tx md -> h !! n = Some b -> n ∉ md ->
  total (bk_release b) (fun _ s' => log_state s' (delete n h) V tx md) s.
Proof.
  intros (a & bl & es & Hc) Hn Hmd. destruct (c_cache _ _ _ _ _ _ _ _ Hc) as (HV & HD & HH).
  eapply total_mono; [eapply (brelse_ok s h a _ (c_rep _ _ _ _ _ _ _ _ Hc) n b Hn)|].
  - destruct (decide (n ∈ es)) as [He|He]; [left; by apply (c_dirtyes _ _ _ _ _ _ _ _ Hc)|right]. rewrite HV, HD. by apply (c_clean _ _ _ _ _ _ _ _ Hc).
  - cbv beta. intros _ s' R. exists (s_brelse n a), bl, es. destruct Hc. split; try done. set_solver.
Qed.

Lemma log_limit_ok : log_limit < NBUF.
Proof. unfold log_limit, NBUF. lia. Qed.

Definition log_laws : BlockLaws lstate := {|
  bk_state := log_state; bk_limit := log_limit; bk_home := log_home; law_limit := log_limit_ok;
  law_read := log_law_read; law_data := log_law_data; law_set := log_law_set; law_log := log_law_log;
  law_release := log_law_release
|}.
End LogBlocks.

(** ** A disk that is a list of blocks *)

Notation plain_disk := (list block).

#[export] Instance plain_ops : BlockOps plain_disk := {
  bk_read d n := fun V => if (0 <=? n)%Z && (n <? Z.of_nat (length V))%Z then Ret (Z.to_nat n) V else Panic "no block";
  bk_data b := fun V : list block => match V !! b with Some d => Ret d V | None => Panic "no block" end;
  bk_set b d := fun V : list block => Ret tt (<[b := d]> V : list block);
  bk_log b := fun V => Ret tt V;
  bk_release b := fun V => Ret tt V
}.

Definition plain_state (s : plain_disk) (h : gmap nat nat) (V : list block) (tx md : gset nat) : Prop :=
  s = V /\ forall n b, h !! n = Some b -> b = n.

#[export] Instance plain_laws : BlockLaws plain_disk.
Proof.
  refine {| bk_state := plain_state; bk_limit := 29; bk_home _ := True |}.
  - unfold NBUF. lia.
  - intros s h V tx md n [-> Hh] Hn _ _. unfold total, wp, bk_read. simpl.
    rewrite (proj2 (Z.leb_le _ _)), (proj2 (Z.ltb_lt _ _)), Nat2Z.id by lia. split; [done|].
    intros m b [[-> ->]|[_ ?]]%lookup_insert_Some; [done|auto].
  - intros s h V tx md n b d [-> Hh] Hn Hd. unfold total, wp, bk_data. simpl. apply Hh in Hn as ->. by rewrite Hd.
  - intros s h V tx md n b d [-> Hh] Hn. unfold total, wp, bk_set. simpl. split; [|done]. by apply Hh in Hn as ->.
  - intros s h V tx md n b [-> Hh] Hn _ _. by split.
  - intros s h V tx md n b [-> Hh] Hn _. split; [done|]. intros m c [_ ?]%lookup_delete_Some. auto.
Defined.
