(* ===== verification/Fs.v ===== *)
(** * The file system

    [fs.c]: block allocator, inodes, file contents, directories and paths, over
    the block layer of [Blocks].  The state has the block layer, the super
    block [sb] and the inode cache; an inode pointer is an index into
    [icache.inode\[\]].  A string is a list of bytes without a NUL; the bytes
    copied out of the kernel are returned, those copied in are an argument.

    Locks: [icache.lock] is held only inside a routine; the sleep lock of an
    inode is a flag, and a process that finds it taken goes to sleep.  The
    device switch [devsw\[\]] is a parameter.  The loops of [readi] and [writei]
    advance by at least a byte an iteration, those over directories by 16;
    their fuel is the number of bytes, and running out of it would be the panic
    [diverges], which the theorems exclude. *)
From stdpp Require Import gmap.
From S2P Require Import Prelude Bytes Cstring Bio Log Blocks.
Local Open Scope Z_scope.

Definition NDIRECT : nat := 28.
Definition NINDIRECT : nat := 128.
Definition MAXFILE : Z := Z.of_nat (NDIRECT + NINDIRECT).
Definition NINODE : nat := 50.
Definition NDEV : Z := 10.
Definition ROOTINO : Z := 1.
Definition DIRSIZ : nat := 14.
Definition T_DIR : Z := 1.
Definition T_FILE : Z := 2.
Definition T_DEV : Z := 3.

(** [sizeof(struct dinode)] is 128: four inodes to a block. *)
Definition IPB : Z := 4.
Definition BPB : Z := 4096.
Definition bsize : Z := Z.of_nat BSIZE.
Definition IBLOCK (i : Z) (sb : superblock) : Z := i / IPB + sb_inodestart sb.
Definition BBLOCK (b : Z) (sb : superblock) : Z := b / BPB + sb_bmapstart sb.

(** [struct inode] *)
Record inode := mkInode {
  i_dev : Z; i_inum : Z; i_ref : Z; i_locked : bool; i_valid : Z;
  i_type : Z; i_major : Z; i_minor : Z; i_nlink : Z; i_size : Z; i_addrs : list Z
}.

(** The fields that [struct dinode] has too. *)
Record dinode := mkDinode {
  d_type : Z; d_major : Z; d_minor : Z; d_nlink : Z; d_size : Z; d_addrs : list Z
}.

Definition load_dinode (d : dinode) (i : inode) : inode :=
  mkInode (i_dev i) (i_inum i) (i_ref i) (i_locked i) (i_valid i)
    (d_type d) (d_major d) (d_minor d) (d_nlink d) (d_size d) (d_addrs d).
Definition dinode_of (i : inode) : dinode :=
  mkDinode (i_type i) (i_major i) (i_minor i) (i_nlink i) (i_size i) (i_addrs i).

Definition with_ref r i := mkInode (i_dev i) (i_inum i) r (i_locked i) (i_valid i) (i_type i) (i_major i) (i_minor i) (i_nlink i) (i_size i) (i_addrs i).
Definition with_locked l i := mkInode (i_dev i) (i_inum i) (i_ref i) l (i_valid i) (i_type i) (i_major i) (i_minor i) (i_nlink i) (i_size i) (i_addrs i).
Definition with_valid v i := mkInode (i_dev i) (i_inum i) (i_ref i) (i_locked i) v (i_type i) (i_major i) (i_minor i) (i_nlink i) (i_size i) (i_addrs i).
Definition with_type t i := mkInode (i_dev i) (i_inum i) (i_ref i) (i_locked i) (i_valid i) t (i_major i) (i_minor i) (i_nlink i) (i_size i) (i_addrs i).
Definition with_dev_nos ma mi i := mkInode (i_dev i) (i_inum i) (i_ref i) (i_locked i) (i_valid i) (i_type i) ma mi (i_nlink i) (i_size i) (i_addrs i).
Definition with_nlink n i := mkInode (i_dev i) (i_inum i) (i_ref i) (i_locked i) (i_valid i) (i_type i) (i_major i) (i_minor i) n (i_size i) (i_addrs i).
Definition with_size z i := mkInode (i_dev i) (i_inum i) (i_ref i) (i_locked i) (i_valid i) (i_type i) (i_major i) (i_minor i) (i_nlink i) z (i_addrs i).
Definition with_addrs a i := mkInode (i_dev i) (i_inum i) (i_ref i) (i_locked i) (i_valid i) (i_type i) (i_major i) (i_minor i) (i_nlink i) (i_size i) a.

(** [struct stat] *)
Record stat := mkStat { st_type : Z; st_dev : Z; st_ino : Z; st_nlink : Z; st_size : Z }.

(** ** The on-disk inode *)

Definition dinode_off (inum : Z) : nat := 128 * Z.to_nat (inum mod IPB).

Definition decode_dinode (off : nat) (b : block) : dinode :=
  mkDinode (s16 (get16 off b)) (s16 (get16 (off + 2) b)) (s16 (get16 (off + 4) b)) (s16 (get16 (off + 6) b))
    (get32 (off + 8) b) ((fun i => get32 (off + 12 + 4 * i) b) <$> seq 0 (S NDIRECT)).

(** [memmove(dip->addrs, ip->addrs, sizeof(ip->addrs))] *)
Fixpoint put_addrs (off : nat) (addrs : list Z) (b : block) : block :=
  match addrs with
  | [] => b
  | a :: rest => put_addrs (off + 4) rest (put32 off a b)
  end.

Definition encode_dinode (off : nat) (d : dinode) (b : block) : block :=
  let b := put16 off (d_type d) b in
  let b := put16 (off + 2) (d_major d) b in
  let b := put16 (off + 4) (d_minor d) b in
  let b := put16 (off + 6) (d_nlink d) b in
  let b := put32 (off + 8) (d_size d) b in
  put_addrs (off + 12) (d_addrs d) b.

(** ** Paths *)

Definition slash : Z := 47.

Fixpoint skip_slashes (path : list Z) : list Z :=
  match path with
  | c :: rest => if c =? slash then skip_slashes rest else path
  | [] => []
  end.

(** The bytes up to the next slash, and the rest. *)
Fixpoint span_elem (path : list Z) : list Z * list Z :=
  match path with
  | [] => ([], [])
  | c :: rest => if c =? slash then ([], path) else let (e, r) := span_elem rest in (c :: e, r)
  end.

(** [None] is the null pointer; [name] is the caller's buffer of [DIRSIZ] bytes. *)
Definition skipelem (path name : list Z) : option (list Z * list Z) :=
  let path := skip_slashes path in
  match path with
  | [] => None
  | _ =>
      let (e, rest) := span_elem path in
      let name' := if (DIRSIZ <=? length e)%nat then splice 0 (take DIRSIZ e) name
                   else splice 0 (e ++ [0]) name in
      Some (skip_slashes rest, name')
  end.

Definition namecmp (s t : list Z) : Z := strncmp s t DIRSIZ.

(** [struct dirent] as bytes. *)
Definition DIRENT : Z := 16.
Definition dirent_inum (de : list Z) : Z := get16 0 de.
Definition dirent_name (de : list Z) : list Z := drop 2 de.
Definition make_dirent (inum : Z) (name : list Z) : list Z := le_bytes 2 (u16 inum) ++ name.

(** ** The state *)

Record fs (St : Type) := mkFs { f_blk : St; f_sb : superblock; icache : list inode }.
Arguments mkFs {St} _ _ _.
Arguments f_blk {St} _.
Arguments f_sb {St} _.
Arguments icache {St} _.

Section Fs.
Context {St : Type} {ops : BlockOps St}.
Notation F := (M (fs St)).

(** [devsw\[major\].read] and [.write]: the bytes read, the return value. *)
Context (dev_read : Z -> option (nat -> Z -> F (Z * list Z))) (dev_write : Z -> option (nat -> list Z -> F Z)).

Definition blk {A} (m : M St A) : F A := fun s =>
  match m (f_blk s) with
  | Ret a b => Ret a (mkFs b (f_sb s) (icache s))
  | Panic msg => Panic msg
  | Asleep b => Asleep (mkFs b (f_sb s) (icache s))
  end.

Definition sb : F superblock := gets f_sb.
Definition iat (ip : nat) : F inode := fun s =>
  match icache s !! ip with Some i => Ret i s | None => Panic "not an inode" end.
Definition iupd (ip : nat) (f : inode -> inode) : F unit :=
  modify (fun s => mkFs (f_blk s) (f_sb s) (alter f ip (icache s))).

Definition bread (dev n : Z) : F nat := blk (bk_read dev n).
Definition bdata (b : nat) : F block := blk (bk_data b).
Definition bset (b : nat) (d : block) : F unit := blk (bk_set b d).
Definition log_write (b : nat) : F unit := blk (bk_log b).
Definition brelse (b : nat) : F unit := blk (bk_release b).

(** [readsb(dev, &sb)] *)
Definition readsb (dev : Z) : F unit :=
  bp ← bread dev 1;
  d ← bdata bp;
  modify (fun s => mkFs (f_blk s) (decode_sb d) (icache s));;
  brelse bp.

(** ** Blocks *)

Definition bzero (dev bno : Z) : F unit :=
  bp ← bread dev bno;
  bset bp (replicate BSIZE 0);;
  log_write bp;;
  brelse bp.

(** The byte of a bitmap block that has bit [bi], and the bit's mask. *)
Definition bit_mask (bi : nat) : Z := Z.shiftl 1 (Z.of_nat (bi mod 8)).
Definition bit_byte (d : block) (bi : nat) : Z := default 0 (d !! (bi / 8)%nat).
Definition bit_clear (d : block) (bi : nat) : bool := Z.land (bit_byte d bi) (bit_mask bi) =? 0.
Definition mark_bit (d : block) (bi : nat) : block :=
  <[(bi / 8)%nat := Z.lor (bit_byte d bi) (bit_mask bi)]> d.
(** The byte is an [uchar], so [& ~m] is taken modulo 256. *)
Definition clear_bit (d : block) (bi : nat) : block :=
  <[(bi / 8)%nat := u8 (Z.land (bit_byte d bi) (Z.lnot (bit_mask bi)))]> d.

(** [for(bi = ...; bi < BPB && b + bi < sb.size; bi++) if(the bit is clear) ...] *)
Fixpoint first_clear (d : block) (b size : Z) (bi : nat) (fuel : nat) : option nat :=
  match fuel with
  | O => None
  | S fuel' =>
      if (Z.of_nat bi <? BPB) && (b + Z.of_nat bi <? size) then
        if bit_clear d bi then Some bi else first_clear d b size (S bi) fuel'
      else None
  end.

(** The loop of [balloc] from [b] on. *)
Fixpoint balloc_loop (dev b : Z) (fuel : nat) : F Z :=
  match fuel with
  | O => panic "diverges"
  | S fuel' =>
      s ← sb;
      if b <? sb_size s then
        bp ← bread dev (BBLOCK b s);
        d ← bdata bp;
        match first_clear d b (sb_size s) 0 (Z.to_nat BPB) with
        | Some bi =>
            bset bp (mark_bit d bi);;
            log_write bp;;
            brelse bp;;
            bzero dev (b + Z.of_nat bi);;
            mret (b + Z.of_nat bi)
        | None => brelse bp;; balloc_loop dev (b + BPB) fuel'
        end
      else panic "balloc: out of blocks"
  end.

Definition balloc (dev : Z) : F Z :=
  s ← sb; balloc_loop dev 0 (S (Z.to_nat (sb_size s / BPB + 1))).

Definition bfree (dev b : Z) : F unit :=
  readsb dev;;
  s ← sb;
  bp ← bread dev (BBLOCK b s);
  d ← bdata bp;
  let bi := Z.to_nat (b mod BPB) in
  if bit_clear d bi then panic "freeing free block"
  else
    bset bp (clear_bit d bi);;
    log_write bp;;
    brelse bp.

(** ** Inodes *)

(** The scan of [iget]: the cached entry, or the first free one. *)
Fixpoint iget_scan (l : list inode) (dev inum : Z) (i : nat) (empty : option nat) : nat + option nat :=
  match l with
  | [] => inr empty
  | x :: l' =>
      if (0 <? i_ref x) && (i_dev x =? dev) && (i_inum x =? inum) then inl i
      else iget_scan l' dev inum (S i)
             (match empty with None => if i_ref x =? 0 then Some i else None | Some _ => empty end)
  end.

Definition iget (dev inum : Z) : F nat :=
  s ← get;
  match iget_scan (icache s) dev inum 0 None with
  | inl i => iupd i (fun x => with_ref (i_ref x + 1) x);; mret i
  | inr None => panic "iget: no inodes"
  | inr (Some i) =>
      iupd i (fun x => mkInode dev inum 1 (i_locked x) 0 (i_type x) (i_major x) (i_minor x) (i_nlink x) (i_size x) (i_addrs x));;
      mret i
  end.

Definition idup (ip : nat) : F nat := iupd ip (fun x => with_ref (i_ref x + 1) x);; mret ip.

(** The loop of [ialloc] from [inum] on. *)
Fixpoint ialloc_loop (dev type inum : Z) (fuel : nat) : F nat :=
  match fuel with
  | O => panic "diverges"
  | S fuel' =>
      s ← sb;
      if inum <? sb_ninodes s then
        bp ← bread dev (IBLOCK inum s);
        d ← bdata bp;
        let off := dinode_off inum in
        if s16 (get16 off d) =? 0 then
          bset bp (put16 off type (splice off (replicate 128 0) d));;
          log_write bp;;
          brelse bp;;
          iget dev inum
        else brelse bp;; ialloc_loop dev type (inum + 1) fuel'
      else panic "ialloc: no inodes"
  end.

Definition ialloc (dev type : Z) : F nat :=
  s ← sb; ialloc_loop dev type 1 (S (Z.to_nat (sb_ninodes s))).

Definition iupdate (ip : nat) : F unit :=
  i ← iat ip;
  s ← sb;
  bp ← bread (i_dev i) (IBLOCK (i_inum i) s);
  d ← bdata bp;
  bset bp (encode_dinode (dinode_off (i_inum i)) (dinode_of i) d);;
  log_write bp;;
  brelse bp.

(** [acquiresleep(&ip->lock)] *)
Definition acquire_inode (ip : nat) : F unit :=
  i ← iat ip;
  if i_locked i then suspend else iupd ip (with_locked true).

(** A null pointer is [None]. *)
Definition ilock (p : option nat) : F unit :=
  match p with
  | None => panic "ilock"
  | Some ip =>
      i ← iat ip;
      if i_ref i <? 1 then panic "ilock"
      else
        acquire_inode ip;;
        i ← iat ip;
        when (i_valid i =? 0)
          (s ← sb;
           bp ← bread (i_dev i) (IBLOCK (i_inum i) s);
           d ← bdata bp;
           iupd ip (load_dinode (decode_dinode (dinode_off (i_inum i)) d));;
           brelse bp;;
           iupd ip (with_valid 1);;
           j ← iat ip;
           when (i_type j =? 0) (panic "ilock: no type"))
  end.

Definition iunlock (p : option nat) : F unit :=
  match p with
  | None => panic "iunlock"
  | Some ip =>
      i ← iat ip;
      if negb (i_locked i) || (i_ref i <? 1) then panic "iunlock"
      else iupd ip (with_locked false)
  end.

(** ** Contents *)

Definition addr_at (i : inode) (n : nat) : Z := default 0 (i_addrs i !! n).
Definition set_addr (ip n : nat) (a : Z) : F unit := iupd ip (fun i => with_addrs (<[n := a]> (i_addrs i)) i).

Definition bmap (ip : nat) (bn : Z) : F Z :=
  i ← iat ip;
  if bn <? Z.of_nat NDIRECT then
    let addr := addr_at i (Z.to_nat bn) in
    if addr =? 0 then a ← balloc (i_dev i); set_addr ip (Z.to_nat bn) a;; mret a
    else mret addr
  else
    let bn := bn - Z.of_nat NDIRECT in
    if bn <? Z.of_nat NINDIRECT then
      addr ← (let addr := addr_at i NDIRECT in
              if addr =? 0 then a ← balloc (i_dev i); set_addr ip NDIRECT a;; mret a else mret addr);
      bp ← bread (i_dev i) addr;
      d ← bdata bp;
      let off := (4 * Z.to_nat bn)%nat in
      r ← (if get32 off d =? 0 then
             a ← balloc (i_dev i);
             d ← bdata bp;
             bset bp (put32 off a d);;
             log_write bp;;
             mret a
           else mret (get32 off d));
      brelse bp;;
      mret r
    else panic "bmap: out of range".

(** The two loops of [itrunc]. *)
Definition trunc_direct (ip : nat) (n : nat) : F unit :=
  i ← iat ip;
  when (negb (addr_at i n =? 0)) (bfree (i_dev i) (addr_at i n);; set_addr ip n 0).
Definition trunc_indirect (dev : Z) (bp : nat) (j : nat) : F unit :=
  d ← bdata bp;
  let a := get32 (4 * j) d in
  when (negb (a =? 0)) (bfree dev a).

Definition itrunc (ip : nat) : F unit :=
  for_each (seq 0 NDIRECT) (trunc_direct ip);;
  i ← iat ip;
  when (negb (addr_at i NDIRECT =? 0))
    (bp ← bread (i_dev i) (addr_at i NDIRECT);
     for_each (seq 0 NINDIRECT) (trunc_indirect (i_dev i) bp);;
     brelse bp;;
     bfree (i_dev i) (addr_at i NDIRECT);;
     set_addr ip NDIRECT 0);;
  iupd ip (with_size 0);;
  iupdate ip.

Definition iput (ip : nat) : F unit :=
  acquire_inode ip;;
  i ← iat ip;
  when (negb (i_valid i =? 0) && (i_nlink i =? 0) && (i_ref i =? 1))
    (itrunc ip;; iupd ip (with_type 0);; iupdate ip;; iupd ip (with_valid 0));;
  iupd ip (with_locked false);;
  iupd ip (fun x => with_ref (i_ref x - 1) x).

Definition iunlockput (ip : nat) : F unit := iunlock (Some ip);; iput ip.

Definition stati (ip : nat) : F stat :=
  i ← iat ip; mret (mkStat (i_type i) (i_dev i) (i_inum i) (i_nlink i) (i_size i)).

(** [min(n - tot, BSIZE - off%BSIZE)] *)
Definition chunk (n tot off : Z) : Z := Z.min (n - tot) (bsize - off mod bsize).

Fixpoint readi_loop (ip : nat) (tot off n : Z) (fuel : nat) : F (list Z) :=
  if tot <? n then
    match fuel with
    | O => panic "diverges"
    | S fuel' =>
        i ← iat ip;
        a ← bmap ip (off / bsize);
        bp ← bread (i_dev i) a;
        d ← bdata bp;
        let m := chunk n tot off in
        brelse bp;;
        rest ← readi_loop ip (tot + m) (off + m) n fuel';
        mret (take (Z.to_nat m) (drop (Z.to_nat (off mod bsize)) d) ++ rest)
    end
  else mret [].

(** [off] and [n] are [uint]s. *)
Definition readi (ip : nat) (off n : Z) : F (Z * list Z) :=
  i ← iat ip;
  if i_type i =? T_DEV then
    if (i_major i <? 0) || (NDEV <=? i_major i) then mret (-1, [])
    else match dev_read (i_major i) with Some f => f ip n | None => mret (-1, []) end
  else if (i_size i <? off) || (u32 (off + n) <? off) then mret (-1, [])
  else
    let n := if i_size i <? u32 (off + n) then u32 (i_size i - off) else n in
    bytes ← readi_loop ip 0 off n (Z.to_nat n);
    mret (s32 n, bytes).

(** Returns the offset reached. *)
Fixpoint writei_loop (ip : nat) (src : list Z) (tot off n : Z) (fuel : nat) : F Z :=
  if tot <? n then
    match fuel with
    | O => panic "diverges"
    | S fuel' =>
        i ← iat ip;
        a ← bmap ip (off / bsize);
        bp ← bread (i_dev i) a;
        let m := chunk n tot off in
        d ← bdata bp;
        bset bp (splice (Z.to_nat (off mod bsize)) (take (Z.to_nat m) src) d);;
        log_write bp;;
        brelse bp;;
        writei_loop ip (drop (Z.to_nat m) src) (tot + m) (off + m) n fuel'
    end
  else mret off.

(** [src] has at least [n] bytes. *)
Definition writei (ip : nat) (src : list Z) (off n : Z) : F Z :=
  i ← iat ip;
  if i_type i =? T_DEV then
    if (i_major i <? 0) || (NDEV <=? i_major i) then mret (-1)
    else match dev_write (i_major i) with Some f => f ip (take (Z.to_nat n) src) | None => mret (-1) end
  else if (i_size i <? off) || (u32 (off + n) <? off) then mret (-1)
  else if MAXFILE * bsize <? u32 (off + n) then mret (-1)
  else
    off' ← writei_loop ip src 0 off n (Z.to_nat n);
    i ← iat ip;
    when ((0 <? n) && (i_size i <? off')) (iupd ip (with_size off');; iupdate ip);;
    mret (s32 n).

(** ** Directories *)

(** The loop of [dirlookup] from [off] on: the offset and the inode number. *)
Fixpoint dirlookup_loop (dp : nat) (name : list Z) (off : Z) (fuel : nat) : F (option (Z * Z)) :=
  i ← iat dp;
  if off <? i_size i then
    match fuel with
    | O => panic "diverges"
    | S fuel' =>
        r ← readi dp off DIRENT;
        if negb (r.1 =? DIRENT) then panic "dirlookup read"
        else if dirent_inum r.2 =? 0 then dirlookup_loop dp name (off + DIRENT) fuel'
        else if namecmp name (dirent_name r.2) =? 0 then mret (Some (off, dirent_inum r.2))
        else dirlookup_loop dp name (off + DIRENT) fuel'
    end
  else mret None.

(** Returns the inode, and the offset for [*poff]. *)
Definition dirlookup (dp : nat) (name : list Z) : F (option (nat * Z)) :=
  i ← iat dp;
  if negb (i_type i =? T_DIR) then panic "dirlookup not DIR"
  else
    r ← dirlookup_loop dp name 0 (Z.to_nat (i_size i));
    match r with
    | Some (off, inum) => ip ← iget (i_dev i) inum; mret (Some (ip, off))
    | None => mret None
    end.

(** The loop of [dirlink] that looks for an empty entry. *)
Fixpoint dirlink_loop (dp : nat) (off : Z) (fuel : nat) : F Z :=
  i ← iat dp;
  if off <? i_size i then
    match fuel with
    | O => panic "diverges"
    | S fuel' =>
        r ← readi dp off DIRENT;
        if negb (r.1 =? DIRENT) then panic "dirlink read"
        else if dirent_inum r.2 =? 0 then mret off
        else dirlink_loop dp (off + DIRENT) fuel'
    end
  else mret off.

(** All bytes of the entry are assigned, so its initial contents do not matter. *)
Definition dirlink (dp : nat) (name : list Z) (inum : Z) : F Z :=
  r ← dirlookup dp name;
  match r with
  | Some (ip, _) => iput ip;; mret (-1)
  | None =>
      i ← iat dp;
      off ← dirlink_loop dp 0 (Z.to_nat (i_size i));
      let de := make_dirent inum (strncpy (replicate DIRSIZ 0) name (Z.of_nat DIRSIZ)) in
      w ← writei dp de off DIRENT;
      if negb (w =? DIRENT) then panic "dirlink" else mret 0
  end.

(** ** Path lookup *)

(** The loop of [namex]; the result is the inode and the name buffer. *)
Fixpoint namex_loop (ip : nat) (path : list Z) (nameiparent : bool) (name : list Z) (fuel : nat) :
    F (option nat * list Z) :=
  match skipelem path name with
  | None =>
      if nameiparent then iput ip;; mret (None, name) else mret (Some ip, name)
  | Some (path', name') =>
      match fuel with
      | O => panic "diverges"
      | S fuel' =>
          ilock (Some ip);;
          i ← iat ip;
          if negb (i_type i =? T_DIR) then iunlockput ip;; mret (None, name')
          else if nameiparent && bool_decide (path' = []) then iunlock (Some ip);; mret (Some ip, name')
          else
            r ← dirlookup ip name';
            match r with
            | None => iunlockput ip;; mret (None, name')
            | Some (next, _) => iunlockput ip;; namex_loop next path' nameiparent name' fuel'
            end
      end
  end.

(** [cwd] is the inode of [myproc()->cwd]. *)
Definition namex (cwd : nat) (path : list Z) (nameiparent : bool) (name : list Z) : F (option nat * list Z) :=
  ip ← (if bool_decide (head path = Some slash) then iget ROOTDEV ROOTINO else idup cwd);
  namex_loop ip path nameiparent name (length path).

Definition namei (cwd : nat) (path : list Z) : F (option nat) :=
  r ← namex cwd path false (replicate DIRSIZ 0); mret r.1.

Definition nameiparent (cwd : nat) (path name : list Z) : F (option nat * list Z) := namex cwd path true name.

Definition iinit (dev : Z) : F unit := readsb dev.
End Fs.
