(* ===== verification/FsAlloc.v ===== *)
(** * The block allocator

    [balloc] and [bfree] of [fs.c]: the free bit map, one bit per block.  A block
    that [balloc] returns was free, is zeroed, and is not free any more; no other
    block changes. *)
From stdpp Require Import gmap.
From S2P Require Import Prelude Bytes Bio BioSpec Log Blocks Fs.
Local Open Scope nat_scope.

(** ** Bits *)

Lemma testbit_mask k j : Z.testbit (Z.shiftl 1 (Z.of_nat k)) (Z.of_nat j) = bool_decide (j = k).
Proof.
  rewrite Z.shiftl_spec by lia. case_bool_decide as H; [subst; by rewrite Z.sub_diag|].
  destruct (Z.of_nat j - Z.of_nat k)%Z eqn:E; [lia|done|done].
Qed.

Lemma mask_bit x k : (Z.land x (Z.shiftl 1 (Z.of_nat k)) =? 0)%Z = negb (Z.testbit x (Z.of_nat k)).
Proof.
  destruct (Z.testbit x (Z.of_nat k)) eqn:E; simpl.
  - apply Z.eqb_neq. intros H0. assert (H1 : Z.testbit (Z.land x (Z.shiftl 1 (Z.of_nat k))) (Z.of_nat k) = true).
    { by rewrite Z.land_spec, testbit_mask, E, bool_decide_true. }
    rewrite H0, Z.bits_0 in H1. done.
  - apply Z.eqb_eq. apply Z.bits_inj'. intros j Hj. rewrite Z.land_spec, Z.bits_0.
    rewrite <- (Z2Nat.id j) by done. rewrite testbit_mask. case_bool_decide as Hk; [by rewrite Hk, E|apply andb_false_r].
Qed.

(** Is the bit set? *)
Definition bit_set (d : block) (bi : nat) : bool := Z.testbit (bit_byte d bi) (Z.of_nat (bi mod 8)).

Lemma bit_clear_set d bi : bit_clear d bi = negb (bit_set d bi).
Proof. apply mask_bit. Qed.

Lemma mark_bit_set d bi bj :
  bi / 8 < length d -> bit_set (mark_bit d bi) bj = bool_decide (bi = bj) || bit_set d bj.
Proof.
  intros Hl. unfold bit_set, mark_bit, bit_byte at 1. destruct (decide (bi / 8 = bj / 8)) as [E|E].
  - rewrite <- E, list_lookup_insert_eq, default_Some, Z.lor_spec by done. unfold bit_mask. rewrite testbit_mask.
    unfold bit_byte. rewrite E, orb_comm. f_equal. apply bool_decide_ext. lia.
  - rewrite list_lookup_insert_ne by done. rewrite bool_decide_false by (intros ->; done). done.
Qed.

Lemma clear_bit_set d bi bj :
  bi / 8 < length d -> bit_set (clear_bit d bi) bj = negb (bool_decide (bi = bj)) && bit_set d bj.
Proof.
  intros Hl. unfold bit_set, clear_bit, bit_byte at 1. destruct (decide (bi / 8 = bj / 8)) as [E|E].
  - rewrite <- E, list_lookup_insert_eq, default_Some by done. unfold u8.
    rewrite Z.mod_pow2_bits_low by lia. rewrite Z.land_spec, Z.lnot_spec by lia. unfold bit_mask. rewrite testbit_mask.
    unfold bit_byte. rewrite E, andb_comm. do 2 f_equal. apply bool_decide_ext. lia.
  - rewrite list_lookup_insert_ne by done. rewrite bool_decide_false by (intros ->; done). done.
Qed.

(** The scan of [balloc] finds the first clear bit. *)
Lemma first_clear_Some d b size bi fuel r :
  first_clear d b size bi fuel = Some r ->
  bi <= r /\ (Z.of_nat r < BPB)%Z /\ (b + Z.of_nat r < size)%Z /\ bit_set d r = false /\
  forall k, bi <= k < r -> bit_set d k = true.
Proof.
  revert bi. induction fuel as [|fuel IH]; intros bi; simpl; [done|].
  destruct (Z.of_nat bi <? BPB)%Z eqn:E1, (b + Z.of_nat bi <? size)%Z eqn:E2; simpl; try done.
  rewrite bit_clear_set. destruct (bit_set d bi) eqn:E; simpl.
  - intros (H1 & H2 & H3 & H4 & H5)%IH. split; [lia|]. do 3 (split; [done|]). intros k Hk.
    destruct (decide (k = bi)) as [->|]; [done|]. apply H5. lia.
  - intros [= <-]. do 2 (split; [lia|]). split; [lia|]. split; [done|]. lia.
Qed.

Lemma first_clear_None d b size bi fuel k :
  first_clear d b size bi fuel = None -> bi <= k < bi + fuel ->
  (Z.of_nat k < BPB)%Z -> (b + Z.of_nat k < size)%Z -> bit_set d k = true.
Proof.
  revert bi. induction fuel as [|fuel IH]; intros bi Hn Hk Hb Hs; simpl in *; [lia|].
  rewrite (proj2 (Z.ltb_lt _ _)), (proj2 (Z.ltb_lt _ _)) in Hn by lia. simpl in Hn.
  rewrite bit_clear_set in Hn. destruct (bit_set d bi) eqn:E; simpl in Hn; [|done].
  destruct (decide (k = bi)) as [->|]; [done|]. apply (IH (S bi)); [done|lia|done|done].
Qed.

(** ** The state of the block layer under the file system *)

(** Buffers held, contents, blocks of the transaction, blocks changed but not
    logged, super block, inode cache. *)
Record abs := mkAbs {
  a_h : gmap nat nat; a_V : list block; a_tx : gset nat; a_md : gset nat; a_sb : superblock; a_ic : list inode
}.

Definition A_read n b a := mkAbs (<[n := b]> (a_h a)) (a_V a) (a_tx a) (a_md a) (a_sb a) (a_ic a).
Definition A_release n a := mkAbs (delete n (a_h a)) (a_V a) (a_tx a) (a_md a) (a_sb a) (a_ic a).
Definition A_log n d a := mkAbs (a_h a) (<[n := d]> (a_V a)) ({[n]} ∪ a_tx a) (a_md a) (a_sb a) (a_ic a).
Definition A_sb x a := mkAbs (a_h a) (a_V a) (a_tx a) (a_md a) x (a_ic a).
Definition A_ic x a := mkAbs (a_h a) (a_V a) (a_tx a) (a_md a) (a_sb a) x.

Section Alloc.
Context {St : Type} {ops : BlockOps St} {laws : BlockLaws St}.

Definition frep (s : fs St) (a : abs) : Prop :=
  bk_state (f_blk s) (a_h a) (a_V a) (a_tx a) (a_md a) /\ f_sb s = a_sb a /\ icache s = a_ic a.

Lemma blk_total {A} (m : M St A) (P : A -> St -> Prop) (Q : A -> fs St -> Prop) s :
  total m P (f_blk s) -> (forall r b, P r b -> Q r (mkFs b (f_sb s) (icache s))) -> total (blk m) Q s.
Proof using Type. unfold total, wp, blk. destruct (m (f_blk s)); auto. Qed.

(** [size] of what is logged or held: room in the buffer cache. *)
Definition room (a : abs) : Prop := size (a_tx a ∪ dom (a_h a)) < NBUF.

Lemma fread_ok s a n :
  frep s a -> n < length (a_V a) -> n ∉ dom (a_h a) -> room a ->
  total (bread 1 (Z.of_nat n)) (fun b s' => frep s' (A_read n b a)) s.
Proof.
  intros (R & Hsb & Hic) Hn Hh Hr. eapply blk_total; [by eapply law_read|]. cbv beta. intros b x Rx. by split.
Qed.

Lemma fdata_ok s a n b d :
  frep s a -> a_h a !! n = Some b -> a_V a !! n = Some d ->
  total (bdata b) (fun d' s' => d' = d /\ frep s' a) s.
Proof.
  intros (R & Hsb & Hic) Hn Hd. eapply blk_total; [by eapply law_data|]. cbv beta. intros d' x [-> Rx]. by split.
Qed.

Lemma frelease_ok s a n b :
  frep s a -> a_h a !! n = Some b -> n ∉ a_md a -> total (brelse b) (fun _ s' => frep s' (A_release n a)) s.
Proof.
  intros (R & Hsb & Hic) Hn Hd. eapply blk_total; [by eapply law_release|]. cbv beta. intros _ x Rx. by split.
Qed.

Lemma sb_bind {B} s a (k : superblock -> M (fs St) B) Q : frep s a -> total (k (a_sb a)) Q s -> total (sb ≫= k) Q s.
Proof. intros (_ & <- & _). done. Qed.

Lemma iat_bind {B} s a ip i (k : inode -> M (fs St) B) Q :
  frep s a -> a_ic a !! ip = Some i -> total (k i) Q s -> total (iat ip ≫= k) Q s.
Proof. intros (_ & _ & <-) Hi H. unfold iat, total, wp, mbind, M_bind. by rewrite Hi. Qed.

Lemma iupd_ok s a ip i f :
  frep s a -> a_ic a !! ip = Some i ->
  total (iupd ip f) (fun _ s' => frep s' (A_ic (<[ip := f i]> (a_ic a)) a)) s.
Proof.
  intros (R & Hsb & Hic) Hi. split; [done|]. split; [done|]. simpl. rewrite Hic. by apply alter_Some.
Qed.

(** A change to a held buffer, logged. *)
Lemma flog_ok s a n b d :
  frep s a -> a_h a !! n = Some b -> n ∉ a_md a -> bk_home n -> size (a_tx a) < bk_limit ->
  total (bset b d;; log_write b) (fun _ s' => frep s' (A_log n d a)) s.
Proof.
  intros (R & Hsb & Hic) Hn Hmd Hh Hsz.
  apply (total_bind _ _ _ (fun _ s' => bk_state (f_blk s') (a_h a) (<[n := d]> (a_V a)) (a_tx a) ({[n]} ∪ a_md a) /\
    f_sb s' = a_sb a /\ icache s' = a_ic a)).
  { eapply blk_total; [by eapply law_set|]. cbv beta. intros _ x Rx. by split. }
  intros _ s1 (R1 & Hsb1 & Hic1). eapply blk_total; [by eapply law_log|].
  cbv beta. intros _ x Rx. split; [|by split]. simpl in *. by replace (({[n]} ∪ a_md a) ∖ {[n]}) with (a_md a) in Rx by set_solver.
Qed.

(** ** The layout of the disk *)

(** The blocks of the bit map and of the inodes. *)
Definition bmb (sbk : superblock) (n : nat) : nat := Z.to_nat (BBLOCK (Z.of_nat n) sbk).
Definition inb (sbk : superblock) (i : nat) : nat := Z.to_nat (IBLOCK (Z.of_nat i) sbk).
(** The bit of block [n] within its bit map block. *)
Definition bitpos (n : nat) : nat := Z.to_nat (Z.of_nat n mod BPB).
Definition fsize (sbk : superblock) : nat := Z.to_nat (sb_size sbk).

(** The blocks below [ds] are boot block, super block, log, inodes and bit map;
    those from [ds] on hold data. *)
Record geometry_of {home : nat -> Prop} (sbk : superblock) (ds len : nat) : Prop := {
  g_u32 : (sb_size sbk < 2 ^ 32)%Z;
  g_nonneg : (0 <= sb_size sbk /\ 0 <= sb_bmapstart sbk /\ 0 <= sb_inodestart sbk)%Z;
  g_fit : ds <= fsize sbk <= len;
  g_bm n : n < fsize sbk -> bmb sbk n < ds /\ home (bmb sbk n);
  g_in i : (Z.of_nat i < sb_ninodes sbk)%Z -> inb sbk i < ds /\ home (inb sbk i);
  g_disj i n : (Z.of_nat i < sb_ninodes sbk)%Z -> n < fsize sbk -> inb sbk i <> bmb sbk n;
  g_data n : ds <= n < fsize sbk -> home n
}.
Notation geometry := (geometry_of (home := bk_home)).

Definition allocated (sbk : superblock) (V : list block) (n : nat) : bool :=
  match V !! bmb sbk n with Some d => bit_set d (bitpos n) | None => true end.

Record disk_ok_of {home : nat -> Prop} (sbk : superblock) (ds : nat) (V : list block) : Prop := {
  k_bsize n d : home n -> V !! n = Some d -> length d = BSIZE;
  k_meta n : n < ds -> allocated sbk V n = true
}.
Notation disk_ok := (disk_ok_of (home := bk_home)).

(** All blocks of the bit map. *)
Definition bitmap (sbk : superblock) : gset nat := list_to_set (bmb sbk <$> seq 0 (fsize sbk)).

Lemma bmb_bitmap sbk n : n < fsize sbk -> bmb sbk n ∈ bitmap sbk.
Proof using Type. intros H. apply elem_of_list_to_set, list_elem_of_fmap. exists n. split; [done|]. apply elem_of_seq. lia. Qed.

Lemma bmb_spec sbk n : (0 <= sb_bmapstart sbk)%Z -> Z.of_nat (bmb sbk n) = BBLOCK (Z.of_nat n) sbk.
Proof using Type. intros H. unfold bmb, BBLOCK, BPB. rewrite Z2Nat.id; [done|]. lia. Qed.

(** The contents after [balloc] chose block [n]. *)
Definition mark (sbk : superblock) (n : nat) (V : list block) : list block :=
  alter (fun d => mark_bit d (bitpos n)) (bmb sbk n) V.
Definition unmark (sbk : superblock) (n : nat) (V : list block) : list block :=
  alter (fun d => clear_bit d (bitpos n)) (bmb sbk n) V.
Definition zero_block : block := replicate BSIZE 0%Z.
Definition take_block (sbk : superblock) (n : nat) (V : list block) : list block := <[n := zero_block]> (mark sbk n V).

Section Layout.
Context (sbk : superblock) (ds : nat).

Lemma bmb_same n m : (0 <= sb_bmapstart sbk)%Z -> bmb sbk n = bmb sbk m -> (Z.of_nat n / BPB = Z.of_nat m / BPB)%Z.
Proof using Type.
  intros H0 H. pose proof (bmb_spec sbk n H0) as H1. pose proof (bmb_spec sbk m H0) as H2. rewrite H, H2 in H1.
  unfold BBLOCK in H1. lia.
Qed.

Lemma bitpos_inj n m : (Z.of_nat n / BPB = Z.of_nat m / BPB)%Z -> bitpos n = bitpos m <-> n = m.
Proof using Type. unfold bitpos, BPB. lia. Qed.

Lemma bitpos_lt (d : block) n : length d = BSIZE -> bitpos n / 8 < length d.
Proof using Type. intros ->. unfold bitpos, BPB, BSIZE. lia. Qed.

Lemma mark_allocated V n m :
  geometry sbk ds (length V) -> disk_ok sbk ds V -> n < fsize sbk -> m < fsize sbk ->
  allocated sbk (mark sbk n V) m = bool_decide (n = m) || allocated sbk V m.
Proof.
  intros Hg Hk Hn Hm. unfold allocated, mark. rewrite lookup_alter_cases. case_decide as E.
  - destruct (lookup_lt_is_Some_2 V (bmb sbk m)) as [d Hd].
    { destruct (g_bm _ _ _ Hg m Hm). pose proof (g_fit _ _ _ Hg). lia. }
    rewrite Hd. simpl. rewrite mark_bit_set.
    + f_equal. apply bool_decide_ext, bitpos_inj, bmb_same; [apply Hg|done].
    + apply bitpos_lt. by eapply (k_bsize _ _ _ Hk); [apply (g_bm _ _ _ Hg m Hm)|].
  - rewrite bool_decide_false by (intros ->; done). done.
Qed.

Lemma unmark_allocated V n m :
  geometry sbk ds (length V) -> disk_ok sbk ds V -> n < fsize sbk -> m < fsize sbk ->
  allocated sbk (unmark sbk n V) m = negb (bool_decide (n = m)) && allocated sbk V m.
Proof.
  intros Hg Hk Hn Hm. unfold allocated, unmark. rewrite lookup_alter_cases. case_decide as E.
  - destruct (lookup_lt_is_Some_2 V (bmb sbk m)) as [d Hd].
    { destruct (g_bm _ _ _ Hg m Hm). pose proof (g_fit _ _ _ Hg). lia. }
    rewrite Hd. simpl. rewrite clear_bit_set.
    + do 2 f_equal. apply bool_decide_ext, bitpos_inj, bmb_same; [apply Hg|done].
    + apply bitpos_lt. by eapply (k_bsize _ _ _ Hk); [apply (g_bm _ _ _ Hg m Hm)|].
  - rewrite bool_decide_false by (intros ->; done). done.
Qed.

(** A write to a block outside the bit map. *)
Lemma allocated_write V n d m : n <> bmb sbk m -> allocated sbk (<[n := d]> V) m = allocated sbk V m.
Proof using Type. intros H. unfold allocated. by rewrite list_lookup_insert_ne. Qed.

Lemma take_allocated V n m :
  geometry sbk ds (length V) -> disk_ok sbk ds V -> ds <= n < fsize sbk -> m < fsize sbk ->
  allocated sbk (take_block sbk n V) m = bool_decide (n = m) || allocated sbk V m.
Proof.
  intros Hg Hk Hn Hm. unfold take_block. rewrite allocated_write; [by apply mark_allocated; try lia|].
  destruct (g_bm _ _ _ Hg m Hm). lia.
Qed.

Lemma mark_length n V : length (mark sbk n V) = length V.
Proof using Type. apply length_alter. Qed.

Lemma take_block_length n V : length (take_block sbk n V) = length V.
Proof using Type. unfold take_block. by rewrite length_insert, mark_length. Qed.

Lemma mark_lookup n V m : m <> bmb sbk n -> mark sbk n V !! m = V !! m.
Proof using Type. intros H. unfold mark. rewrite lookup_alter_cases. by rewrite decide_False. Qed.

Lemma disk_ok_write V n d :
  geometry sbk ds (length V) -> disk_ok sbk ds V -> length d = BSIZE -> n ∉ bitmap sbk -> disk_ok sbk ds (<[n := d]> V).
Proof.
  intros Hg [Hb Hm] Hd Hn. split.
  - intros m e Hh [[-> [-> _]]|[_ He]]%list_lookup_insert_Some; [done|by eapply Hb].
  - intros m Hlt. rewrite allocated_write; [by apply Hm|]. intros ->. apply Hn, bmb_bitmap. pose proof (g_fit _ _ _ Hg). lia.
Qed.

Lemma disk_ok_mark V n :
  geometry sbk ds (length V) -> disk_ok sbk ds V -> n < fsize sbk -> disk_ok sbk ds (mark sbk n V).
Proof.
  intros Hg Hk Hn. pose proof (g_fit _ _ _ Hg). split.
  - intros m e Hh. unfold mark. rewrite lookup_alter_cases. case_decide; [|by apply (k_bsize _ _ _ Hk)].
    destruct (V !! m) as [d|] eqn:E; simpl; [|done]. intros [= <-]. unfold mark_bit. rewrite length_insert. by eapply (k_bsize _ _ _ Hk).
  - intros m Hm. rewrite mark_allocated by (done || lia). by rewrite (k_meta _ _ _ Hk), orb_true_r.
Qed.

Lemma disk_ok_take V n :
  geometry sbk ds (length V) -> disk_ok sbk ds V -> ds <= n < fsize sbk -> disk_ok sbk ds (take_block sbk n V).
Proof.
  intros Hg Hk Hn. apply disk_ok_write; [by rewrite mark_length|apply disk_ok_mark; (done || lia)|apply length_replicate|].
  intros (m & -> & Hm)%elem_of_list_to_set%list_elem_of_fmap. apply elem_of_seq in Hm. destruct (g_bm _ _ _ Hg m); lia.
Qed.
End Layout.

(** ** Reading and changing one block *)

Lemma read_release a n b : n ∉ dom (a_h a) -> A_release n (A_read n b a) = a.
Proof using Type.
  intros H. apply not_elem_of_dom in H. unfold A_release, A_read. destruct a; simpl in *. by rewrite delete_insert_id.
Qed.

(** [bread]; use the data; [brelse]. *)
Lemma with_block {A} s a n d (k : nat -> block -> M (fs St) A) Q :
  frep s a -> a_V a !! n = Some d -> n ∉ dom (a_h a) -> room a ->
  (forall b s', frep s' (A_read n b a) -> total (k b d) Q s') ->
  total (b ← bread 1 (Z.of_nat n); d ← bdata b; k b d) Q s.
Proof.
  intros R Hd Hh Hr Hk. eapply total_bind; [apply (fread_ok s a n R); [by eapply lookup_lt_Some|done|done]|].
  cbv beta. intros b s1 R1. eapply total_bind; [eapply (fdata_ok s1 _ n b d R1); [apply lookup_insert_eq|done]|].
  cbv beta. intros ? s2 [-> R2]. by apply Hk.
Qed.

(** The change is logged and the buffer released. *)
Lemma put_back_ok s a n b d' :
  frep s (A_read n b a) -> n ∉ dom (a_h a) -> n ∉ a_md a -> bk_home n -> size (a_tx a) < bk_limit ->
  total (bset b d';; log_write b;; brelse b) (fun _ s' => frep s' (A_log n d' a)) s.
Proof.
  intros R Hh Hm Hb Hs. apply total_assoc. eapply total_bind; [apply (flog_ok s _ n b d' R); try done; apply lookup_insert_eq|].
  cbv beta. intros _ s1 R1. eapply total_mono; [apply (frelease_ok s1 _ n b R1); [apply lookup_insert_eq|done]|].
  cbv beta. intros _ s2 R2. change (A_release n (A_log n d' (A_read n b a))) with (A_log n d' (A_release n (A_read n b a))) in R2.
  by rewrite read_release in R2.
Qed.

Lemma put_back_then {A} s a n b d' (k : M (fs St) A) Q :
  frep s (A_read n b a) -> n ∉ dom (a_h a) -> n ∉ a_md a -> bk_home n -> size (a_tx a) < bk_limit ->
  (forall s', frep s' (A_log n d' a) -> total k Q s') ->
  total (bset b d';; log_write b;; brelse b;; k) Q s.
Proof.
  intros R Hh Hm Hb Hs Hk. pose proof (put_back_ok s a n b d' R Hh Hm Hb Hs) as H.
  apply (total_bind _ (fun _ => k) Q) in H; [|intros _; exact Hk]. revert H. unfold total, wp, mbind, M_bind.
  destruct (bset b d' s) as [? s1| |]; [|done|done]. by destruct (log_write b s1).
Qed.

Lemma bzero_ok s a n :
  frep s a -> n < length (a_V a) -> n ∉ dom (a_h a) -> n ∉ a_md a -> bk_home n -> room a -> size (a_tx a) < bk_limit ->
  total (bzero 1 (Z.of_nat n)) (fun _ s' => frep s' (A_log n zero_block a)) s.
Proof.
  intros R Hn Hh Hm Hb Hr Hs. unfold bzero. eapply total_bind; [by apply (fread_ok s a n)|].
  cbv beta. intros b s1 R1. by apply (put_back_ok s1 a n b).
Qed.

(** ** [balloc] *)

(** Room in the transaction for the bit map and for one more block. *)
Definition space (a : abs) : Prop :=
  size (bitmap (a_sb a) ∪ a_tx a) < bk_limit /\ size (bitmap (a_sb a) ∪ a_tx a ∪ dom (a_h a)) < NBUF.

Lemma size_le (X Y : gset nat) k : X ⊆ Y -> size Y < k -> size X < k.
Proof using Type. intros H%subseteq_size. lia. Qed.

Record alloc_pre (ds : nat) (a : abs) : Prop := {
  p_geo : geometry (a_sb a) ds (length (a_V a));
  p_disk : disk_ok (a_sb a) ds (a_V a);
  p_md : a_md a = ∅;
  p_bm : bitmap (a_sb a) ## dom (a_h a);
  p_held m : m ∈ dom (a_h a) -> m < fsize (a_sb a) -> allocated (a_sb a) (a_V a) m = true;
  p_space : space a
}.

Definition balloc_post (ds : nat) (a : abs) (r : Z) (s' : fs St) : Prop :=
  exists n, r = Z.of_nat n /\ ds <= n < fsize (a_sb a) /\ allocated (a_sb a) (a_V a) n = false /\
    (forall m, m < n -> allocated (a_sb a) (a_V a) m = true) /\
    frep s' (mkAbs (a_h a) (take_block (a_sb a) n (a_V a)) ({[n]} ∪ ({[bmb (a_sb a) n]} ∪ a_tx a)) ∅ (a_sb a) (a_ic a)).

Lemma balloc_take ds s a n d b :
  alloc_pre ds a -> frep s (A_read (bmb (a_sb a) n) b a) -> n < fsize (a_sb a) -> a_V a !! bmb (a_sb a) n = Some d ->
  allocated (a_sb a) (a_V a) n = false -> (forall m, m < n -> allocated (a_sb a) (a_V a) m = true) ->
  total (bset b (mark_bit d (bitpos n));; log_write b;; brelse b;; bzero 1 (Z.of_nat n);; mret (Z.of_nat n))
    (balloc_post ds a) s.
Proof.
  intros H R Hn Hd Hfree Hmin. destruct H as [Hg Hk Hmd Hbm Hheld [Hs1 Hs2]].
  assert (Hds : ds <= n). { destruct (decide (n < ds)); [|lia]. by rewrite (k_meta _ _ _ Hk) in Hfree. }
  pose proof (bmb_bitmap (a_sb a) n Hn) as Hin. destruct (g_bm _ _ _ Hg n Hn) as [Hlt Hhome].
  assert (Hnh : n ∉ dom (a_h a)) by (intros Hx%Hheld; [congruence|done]).
  eapply put_back_then; [exact R|set_solver|by rewrite Hmd|done| |].
  { eapply size_le; [|exact Hs1]. set_solver. }
  intros s1 R1. eapply total_bind; [apply (bzero_ok s1 _ n R1)|cbv beta].
  - simpl. rewrite length_insert. pose proof (g_fit _ _ _ Hg). lia.
  - done.
  - simpl. by rewrite Hmd.
  - by eapply g_data.
  - unfold room. simpl. eapply size_le; [|exact Hs2]. set_solver.
  - simpl. eapply size_le; [|exact Hs1]. set_solver.
  - intros _ s2 R2. apply total_ret. exists n. do 4 (split; [done|]). simpl in R2.
    assert (<[bmb (a_sb a) n := mark_bit d (bitpos n)]> (a_V a) = mark (a_sb a) n (a_V a)) as E.
    { unfold mark. symmetry. by apply (alter_Some (fun x => mark_bit x (bitpos n))). }
    unfold A_log, A_read in R2. simpl in R2. rewrite E, Hmd in R2. exact R2.
Qed.

Lemma balloc_loop_ok ds s a j fuel :
  alloc_pre ds a -> frep s a -> (0 <= j)%Z ->
  (exists n, n < fsize (a_sb a) /\ allocated (a_sb a) (a_V a) n = false) ->
  (forall m, m < fsize (a_sb a) -> (Z.of_nat m < BPB * j)%Z -> allocated (a_sb a) (a_V a) m = true) ->
  (sb_size (a_sb a) < BPB * (j + Z.of_nat fuel))%Z ->
  total (balloc_loop 1 (BPB * j) fuel) (balloc_post ds a) s.
Proof.
  intros H. revert s j. induction fuel as [|fuel IH]; intros s j R Hj0 (n0 & Hn0 & Hf0) Hmin Hfuel.
  { unfold fsize, BPB in *. rewrite Hmin in Hf0; [done|done|lia]. }
  pose proof (p_geo _ _ H) as Hg. destruct (g_nonneg _ _ _ Hg) as (Hsz & Hbm0 & _).
  assert (HN : sb_size (a_sb a) = Z.of_nat (fsize (a_sb a))) by (unfold fsize; lia).
  cbn [balloc_loop]. eapply sb_bind; [exact R|].
  assert (Hb : (BPB * j <= Z.of_nat n0)%Z).
  { destruct (decide (Z.of_nat n0 < BPB * j)%Z) as [Hlt|]; [|lia]. by rewrite Hmin in Hf0. }
  rewrite HN, (proj2 (Z.ltb_lt _ _)) by lia.
  set (n1 := Z.to_nat (BPB * j)). assert (Hn1 : Z.of_nat n1 = (BPB * j)%Z) by (unfold n1, BPB; lia).
  assert (Hj : n1 < fsize (a_sb a)) by lia. destruct (g_bm _ _ _ Hg _ Hj) as [Hlt Hhome].
  destruct (lookup_lt_is_Some_2 (a_V a) (bmb (a_sb a) n1)) as [d Hd]; [pose proof (g_fit _ _ _ Hg); lia|].
  assert (Hsame : forall k, (Z.of_nat k < BPB)%Z -> bmb (a_sb a) (n1 + k) = bmb (a_sb a) n1).
  { intros k Hk. unfold bmb, BBLOCK. do 2 f_equal. rewrite Nat2Z.inj_add, Hn1. unfold BPB in *. lia. }
  assert (Hpos : forall k, (Z.of_nat k < BPB)%Z -> bitpos (n1 + k) = k).
  { intros k Hk. unfold bitpos. rewrite Nat2Z.inj_add, Hn1. unfold BPB in *. lia. }
  assert (Hall : forall k, (Z.of_nat k < BPB)%Z -> allocated (a_sb a) (a_V a) (n1 + k) = bit_set d k).
  { intros k Hk. unfold allocated. by rewrite Hsame, Hd, Hpos. }
  assert (Hmin' : forall r, (forall k, k < r -> (Z.of_nat k < BPB)%Z -> n1 + k < fsize (a_sb a) -> bit_set d k = true) ->
    forall m, m < n1 + r -> m < fsize (a_sb a) -> (Z.of_nat m < BPB * (j + 1))%Z -> allocated (a_sb a) (a_V a) m = true).
  { intros r Hr m Hm Hmf Hmb. destruct (decide (m < n1)) as [|Hge]; [apply Hmin; lia|].
    replace m with (n1 + (m - n1)) by lia. rewrite Hall by lia. apply Hr; lia. }
  rewrite <- Hn1, <- bmb_spec by done. pose proof (bmb_bitmap (a_sb a) _ Hj) as Hin.
  assert (Hnh : bmb (a_sb a) n1 ∉ dom (a_h a)) by (pose proof (p_bm _ _ H); set_solver).
  apply (with_block s a _ d _ _ R Hd Hnh).
  { eapply size_le; [|apply (proj2 (p_space _ _ H))]. set_solver. }
  intros b s1 R1. destruct (first_clear _ _ _ _ _) as [bi|] eqn:E.
  - apply first_clear_Some in E as (_ & Hb1 & Hb2 & Hb3 & Hb4). rewrite <- Nat2Z.inj_add.
    rewrite <- (Hpos bi) at 1 by done. apply (balloc_take ds s1 a); try done; rewrite ?Hsame by done; try done.
    + lia.
    + by rewrite Hall.
    + intros m Hm. apply (Hmin' bi); [intros k Hk _ _; apply Hb4; lia|done|lia|lia].
  - eapply total_bind; [eapply (frelease_ok s1 _ _ b R1); [apply lookup_insert_eq|simpl; by rewrite (p_md _ _ H)]|].
    cbv beta. intros _ s2 R2. rewrite read_release in R2 by done.
    replace (Z.of_nat n1 + BPB)%Z with (BPB * (j + 1))%Z by (rewrite Hn1; lia).
    apply IH; [done|lia|by exists n0| |unfold BPB in *; lia].
    intros m Hmf Hm. apply (Hmin' (Z.to_nat BPB)); [|unfold BPB in *; lia|done|done]. intros k Hk Hkb Hks.
    eapply first_clear_None; [exact E|lia|done|lia].
Qed.

Lemma balloc_ok ds s a :
  alloc_pre ds a -> frep s a -> (exists n, n < fsize (a_sb a) /\ allocated (a_sb a) (a_V a) n = false) ->
  total (balloc 1) (balloc_post ds a) s.
Proof.
  intros H R Hex. unfold balloc. eapply sb_bind; [exact R|]. change 0%Z with (BPB * 0)%Z at 1. apply balloc_loop_ok; try done; unfold BPB; [lia|].
  destruct (g_nonneg _ _ _ (p_geo _ _ H)). lia.
Qed.

(** ** [bfree] *)

(** The super block is where [readsb] finds it. *)
Definition sb_on_disk (a : abs) : Prop := exists d, a_V a !! 1 = Some d /\ decode_sb d = a_sb a.

Lemma readsb_fs_ok s a :
  frep s a -> sb_on_disk a -> 1 ∉ dom (a_h a) -> 1 ∉ a_md a -> room a ->
  total (readsb 1) (fun _ s' => frep s' a) s.
Proof.
  intros R (d & Hd & Hsb) Hh Hm Hr. unfold readsb. change 1%Z with (Z.of_nat 1) at 2.
  apply (with_block s a 1 d _ _ R Hd Hh Hr). intros b s1 R1.
  eapply (total_bind _ _ _ (fun _ s' => frep s' (A_read 1 b a))).
  { destruct R1 as (R1 & R2 & R3). split; [exact R1|]. by split. }
  intros _ s2 R2. eapply total_mono; [apply (frelease_ok s2 _ 1 b R2); [apply lookup_insert_eq|done]|].
  cbv beta. intros _ s3 R3. by rewrite read_release in R3.
Qed.

Lemma bfree_ok ds s a n :
  alloc_pre ds a -> frep s a -> sb_on_disk a -> 1 ∉ dom (a_h a) -> ds <= n < fsize (a_sb a) ->
  allocated (a_sb a) (a_V a) n = true ->
  total (bfree 1 (Z.of_nat n)) (fun _ s' =>
    frep s' (mkAbs (a_h a) (unmark (a_sb a) n (a_V a)) ({[bmb (a_sb a) n]} ∪ a_tx a) ∅ (a_sb a) (a_ic a))) s.
Proof.
  intros H R Hsb H1 Hn Ha. destruct H as [Hg Hk Hmd Hbm Hheld [Hs1 Hs2]].
  assert (Hr : room a) by (eapply size_le; [|exact Hs2]; set_solver).
  unfold bfree. eapply total_bind; [apply (readsb_fs_ok s a); try done; by rewrite Hmd|]. cbv beta. intros _ s1 R1.
  eapply sb_bind; [exact R1|]. rewrite <- bmb_spec by apply Hg. assert (Hnf : n < fsize (a_sb a)) by lia.
  pose proof (bmb_bitmap (a_sb a) n Hnf) as Hin. destruct (g_bm _ _ _ Hg n Hnf) as [Hlt Hhome].
  destruct (lookup_lt_is_Some_2 (a_V a) (bmb (a_sb a) n)) as [d Hd]; [pose proof (g_fit _ _ _ Hg); lia|].
  assert (Hnh : bmb (a_sb a) n ∉ dom (a_h a)) by set_solver.
  apply (with_block s1 a _ d _ _ R1 Hd Hnh Hr). intros b s2 R2. fold (bitpos n).
  unfold allocated in Ha. rewrite Hd in Ha. rewrite bit_clear_set, Ha. cbn [negb].
  eapply total_mono; [apply (put_back_ok s2 a _ b _ R2 Hnh); [by rewrite Hmd|done|]|].
  { eapply size_le; [|exact Hs1]. set_solver. }
  cbv beta. intros _ s3 R3. unfold A_log in R3. rewrite Hmd in R3. unfold unmark.
  by rewrite (alter_Some (fun x => clear_bit x (bitpos n)) _ _ d).
Qed.
End Alloc.

Notation geometry := (geometry_of (home := bk_home)).
Notation disk_ok := (disk_ok_of (home := bk_home)).
