(* ===== verification/FsInode.v ===== *)
(** * Inodes on the disk and in the cache

    The on-disk format of an inode, [iupdate] and [ilock], and the inode cache. *)
From stdpp Require Import gmap.
From S2P Require Import Prelude Bytes Bio BioSpec Log Blocks Fs FsAlloc.
Local Open Scope nat_scope.

(** ** The format *)

Lemma put_addrs_length off addrs b : off + 4 * length addrs <= length b -> length (put_addrs off addrs b) = length b.
Proof.
  revert off b. induction addrs as [|a addrs IH]; intros off b Hl; simpl in *; [done|].
  rewrite IH; rewrite put32_length; lia.
Qed.

Lemma put_addrs_other off addrs b k off' :
  off + 4 * length addrs <= length b -> off' + k <= off \/ off + 4 * length addrs <= off' ->
  getle k off' (put_addrs off addrs b) = getle k off' b.
Proof.
  revert off b. induction addrs as [|a addrs IH]; intros off b Hl Hd; simpl in *; [done|].
  rewrite IH; [|rewrite put32_length; lia|lia]. apply getle_putle_other; lia.
Qed.

Lemma put_addrs_get off addrs b i x :
  off + 4 * length addrs <= length b -> addrs !! i = Some x -> get32 (off + 4 * i) (put_addrs off addrs b) = u32 x.
Proof.
  revert off b i. induction addrs as [|a addrs IH]; intros off b i Hl Hi; [done|]. simpl in Hl.
  destruct i as [|i]; simpl in Hi.
  - injection Hi as ->. cbn [put_addrs]. unfold get32. rewrite put_addrs_other; [|rewrite put32_length; lia|lia].
    replace (off + 4 * 0) with off by lia. apply get32_put32. lia.
  - cbn [put_addrs]. replace (off + 4 * S i) with (off + 4 + 4 * i) by lia. apply IH; [rewrite put32_length; lia|done].
Qed.

(** Lengths of updated blocks, and reads that an update does not affect. *)
Ltac blen := repeat first [ rewrite put_addrs_length by blen | rewrite putle_length by blen ]; lia.
Ltac other_fields :=
  repeat first [ rewrite put_addrs_other; [|blen|lia] | rewrite getle_putle_other; [|blen|lia] ].

(** The fields fit their C types. *)
Record dinode_ok (d : dinode) : Prop := {
  do_type : s16 (d_type d) = d_type d;
  do_major : s16 (d_major d) = d_major d;
  do_minor : s16 (d_minor d) = d_minor d;
  do_nlink : s16 (d_nlink d) = d_nlink d;
  do_size : u32 (d_size d) = d_size d;
  do_addrs : length (d_addrs d) = S NDIRECT;
  do_addr x : x ∈ d_addrs d -> u32 x = x
}.

Section Codec.
Context (off : nat) (d : dinode) (b : block).
Context (Hoff : off + 128 <= length b) (Haddrs : length (d_addrs d) = S NDIRECT).

Lemma encode_dinode_length : length (encode_dinode off d b) = length b.
Proof using Hoff Haddrs. unfold encode_dinode, put16, put32. unfold NDIRECT in Haddrs. blen. Qed.

(** Every other field of the block is as before. *)
Lemma encode_dinode_other k off' :
  off' + k <= off \/ off + 128 <= off' -> getle k off' (encode_dinode off d b) = getle k off' b.
Proof using Hoff Haddrs.
  intros Hd. unfold encode_dinode, put16, put32. unfold NDIRECT in Haddrs. by other_fields.
Qed.

Lemma encode_decode : dinode_ok d -> decode_dinode off (encode_dinode off d b) = d.
Proof using Hoff Haddrs.
  intros Hok. pose proof encode_dinode_length as Hlen. unfold decode_dinode, get16, get32.
  assert (H16 : forall v, (0 <= u16 v < 2 ^ (8 * Z.of_nat 2))%Z) by (intros v; unfold u16; simpl; lia).
  assert (H32 : forall v, (0 <= u32 v < 2 ^ (8 * Z.of_nat 4))%Z) by (intros v; apply u32_range).
  assert (Hs : forall v, s16 (u16 v) = s16 v) by (intros v; unfold s16, u16; lia).
  destruct d as [ty ma mi nl sz ad]. destruct Hok as [E1 E2 E3 E4 E5 E6 E7]. cbn [d_type d_major d_minor d_nlink d_size d_addrs] in *.
  f_equal; [..|apply list_eq; intros i].
  1-5: unfold encode_dinode, put16, put32; cbn [d_type d_major d_minor d_nlink d_size d_addrs]; unfold NDIRECT in *;
    other_fields; rewrite getle_putle by (done || blen); by rewrite ?Hs.
  rewrite list_lookup_fmap. destruct (decide (i < S NDIRECT)) as [Hi|Hi].
  - rewrite lookup_seq_lt by done. destruct (lookup_lt_is_Some_2 ad i) as [x Hx]; [lia|]. rewrite Hx. simpl. f_equal.
    rewrite <- (E7 x) by (by eapply list_elem_of_lookup_2). unfold encode_dinode.
    apply put_addrs_get; [|done]. unfold put16, put32. unfold NDIRECT in *. simpl in *. blen.
  - rewrite lookup_seq_ge by lia. by rewrite lookup_ge_None_2 by lia.
Qed.
End Codec.

(** The inode of number [i] in the inode block [b]. *)
Definition dinode_at (b : block) (i : nat) : dinode := decode_dinode (dinode_off (Z.of_nat i)) b.

Lemma dinode_off_bound i : dinode_off (Z.of_nat i) + 128 <= BSIZE.
Proof. unfold dinode_off, IPB, BSIZE. lia. Qed.

(** Another inode of the same block. *)
Lemma dinode_other i j d b :
  length b = BSIZE -> length (d_addrs d) = S NDIRECT -> (Z.of_nat i mod 4 <> Z.of_nat j mod 4)%Z ->
  dinode_at (encode_dinode (dinode_off (Z.of_nat i)) d b) j = dinode_at b j.
Proof.
  intros Hb Hd Hij. pose proof (dinode_off_bound i) as Hi.
  assert (Hsep : dinode_off (Z.of_nat j) + 128 <= dinode_off (Z.of_nat i) \/
                 dinode_off (Z.of_nat i) + 128 <= dinode_off (Z.of_nat j)).
  { unfold dinode_off, IPB. lia. }
  unfold dinode_at, decode_dinode, get16, get32.
  rewrite !encode_dinode_other by (rewrite ?Hb; first [done | lia]). f_equal.
  apply list_fmap_ext. intros k x Hk. apply lookup_seq in Hk as [-> Hk]. unfold NDIRECT in Hk.
  rewrite encode_dinode_other by (rewrite ?Hb; first [done | lia]). done.
Qed.
