(* ===== verification/FsFile.v ===== *)
(** * The contents of a file

    [bmap], [readi] and [writei].  The blocks of a file are found through the
    inode's addresses and an indirect block; the contents of the file, as a
    function from block numbers within the file to blocks, is what [readi]
    reads and what [writei] changes.  Blocks that belong to other files are not
    touched. *)
From stdpp Require Import gmap.
From S2P Require Import Prelude Bytes Bio BioSpec Log Blocks Fs FsAlloc FsInode.
Local Open Scope nat_scope.

(** ** The slots of an inode

    Slots 0 to 27 are the direct addresses, slot 28 is the address of the
    indirect block, slots 29 to 156 are the addresses in it; 0 is no block. *)

Definition dir_addr (A : list Z) (k : nat) : nat := Z.to_nat (default 0%Z (A !! k)).

Definition ind_entry (V : list block) (ind j : nat) : nat :=
  match V !! ind with Some d => Z.to_nat (get32 (4 * j) d) | None => 0 end.

Definition slot (V : list block) (A : list Z) (k : nat) : nat :=
  if decide (k <= NDIRECT) then dir_addr A k
  else if decide (dir_addr A NDIRECT = 0) then 0
  else ind_entry V (dir_addr A NDIRECT) (k - S NDIRECT).

Definition NSLOT : nat := S NDIRECT + NINDIRECT.

(** The slot of block [bn] of the file. *)
Definition slot_of (bn : nat) : nat := if decide (bn < NDIRECT) then bn else S bn.

Definition fblk (V : list block) (A : list Z) (bn : nat) : nat := slot V A (slot_of bn).

(** Block [bn] of the file; a block that is not there reads as zeros. *)
Definition fdata (V : list block) (A : list Z) (bn : nat) : block :=
  if decide (fblk V A bn = 0) then zero_block else default zero_block (V !! fblk V A bn).

(** The block [n] belongs to the file. *)
Definition owns (V : list block) (A : list Z) (n : nat) : Prop := n <> 0 /\ exists k, k < NSLOT /\ slot V A k = n.

Section File.
Context {St : Type} {ops : BlockOps St} {laws : BlockLaws St}.
Context (sbk : superblock) (ds : nat).

Record inode_ok (V : list block) (A : list Z) : Prop := {
  n_len : length A = S NDIRECT;
  n_addr x : x ∈ A -> (0 <= x < 2 ^ 32)%Z;
  n_entry d j : dir_addr A NDIRECT <> 0 -> V !! dir_addr A NDIRECT = Some d -> j < NINDIRECT -> (0 <= get32 (4 * j) d)%Z;
  n_inj k k' : k < NSLOT -> k' < NSLOT -> slot V A k <> 0 -> slot V A k = slot V A k' -> k = k';
  n_range k : k < NSLOT -> slot V A k <> 0 -> ds <= slot V A k < fsize sbk /\ allocated sbk V (slot V A k) = true
}.

(** A change of one slot, to a block that was free. *)
Record slot_added (V : list block) (A : list Z) (k n : nat) (V' : list block) (A' : list Z) : Prop := {
  sa_slot j : j < NSLOT -> slot V' A' j = if decide (j = k) then n else slot V A j;
  sa_free : allocated sbk V n = false;
  sa_range : ds <= n < fsize sbk;
  sa_alloc m : m < fsize sbk -> allocated sbk V' m = bool_decide (m = n) || allocated sbk V m;
  sa_empty : slot V A k = 0;
  sa_k : k < NSLOT
}.

Lemma inode_ok_add V A k n V' A' :
  inode_ok V A -> slot_added V A k n V' A' ->
  length A' = S NDIRECT -> (forall x, x ∈ A' -> (0 <= x < 2 ^ 32)%Z) ->
  (forall d j, dir_addr A' NDIRECT <> 0 -> V' !! dir_addr A' NDIRECT = Some d -> j < NINDIRECT -> (0 <= get32 (4 * j) d)%Z) ->
  inode_ok V' A'.
Proof.
  intros [_ _ _ Hinj Hr] [Hs Hf Hrg Ha He Hk] H1 H2 H3. split; try done.
  - intros i j Hi Hj. rewrite !Hs by done. intros Hnz Heq. repeat case_decide; subst; try done.
    + exfalso. destruct (Hr j Hj) as [_ Hal]; congruence.
    + exfalso. destruct (Hr i Hi) as [_ Hal]; congruence.
    + by apply Hinj.
  - intros i Hi. rewrite Hs by done. case_decide.
    + intros _. rewrite Ha by lia. by rewrite bool_decide_true.
    + intros Hnz. destruct (Hr i Hi Hnz) as [Hrr Hal]. rewrite Ha by lia. by rewrite Hal, orb_true_r.
Qed.

(** ** What mapping a block does to the disk

    The inode keeps the blocks it has; blocks in use that belong to other files
    do not change; what is allocated belongs to this file. *)
Record grown (V : list block) (A : list Z) (V' : list block) (A' : list Z) : Prop := {
  m_len : length V' = length V;
  m_disk : disk_ok sbk ds V';
  m_ok : inode_ok V' A';
  m_keep k : k < NSLOT -> slot V A k <> 0 -> slot V' A' k = slot V A k;
  m_alloc m : m < fsize sbk -> allocated sbk V m = true -> allocated sbk V' m = true;
  m_own m : owns V' A' m -> owns V A m \/ (m < fsize sbk /\ allocated sbk V m = false);
  m_new m : m < fsize sbk -> allocated sbk V' m = true -> allocated sbk V m = true \/ owns V' A' m;
  m_frame m : m ∉ bitmap sbk -> ~ owns V A m -> (m < fsize sbk -> allocated sbk V m = true) -> V' !! m = V !! m
}.

(** Mapping a block does not change the contents of the file either. *)
Definition same_data (V : list block) (A : list Z) (V' : list block) (A' : list Z) : Prop :=
  forall bn, bn < NDIRECT + NINDIRECT -> fdata V' A' bn = fdata V A bn.
Definition mapped V A V' A' : Prop := grown V A V' A' /\ same_data V A V' A'.

Lemma grown_refl V A : disk_ok sbk ds V -> inode_ok V A -> grown V A V A.
Proof. intros Hd Hi. split; auto. Qed.

Lemma mapped_refl V A : disk_ok sbk ds V -> inode_ok V A -> mapped V A V A.
Proof. intros Hd Hi. split; [by apply grown_refl|]. by intros bn. Qed.

Lemma owns_mono V A V' A' m : grown V A V' A' -> owns V A m -> owns V' A' m.
Proof. intros H (Hm & k & Hk & Hs). split; [done|]. exists k. split; [done|]. rewrite (m_keep _ _ _ _ H); congruence. Qed.

Lemma grown_trans V A V1 A1 V2 A2 : grown V A V1 A1 -> grown V1 A1 V2 A2 -> grown V A V2 A2.
Proof.
  intros H1 H2. split; [|exact (m_disk _ _ _ _ H2)|exact (m_ok _ _ _ _ H2)|..].
  - by rewrite (m_len _ _ _ _ H2), (m_len _ _ _ _ H1).
  - intros k Hk Hs. rewrite (m_keep _ _ _ _ H2), (m_keep _ _ _ _ H1); try done. by rewrite (m_keep _ _ _ _ H1).
  - intros m Hm Ha. apply (m_alloc _ _ _ _ H2); [done|]. by apply (m_alloc _ _ _ _ H1).
  - intros m [Ho|[Hm Ha]]%(m_own _ _ _ _ H2); [by apply (m_own _ _ _ _ H1)|]. destruct (allocated sbk V m) eqn:E; [|auto].
    rewrite (m_alloc _ _ _ _ H1) in Ha; done.
  - intros m Hm Ha. destruct (m_new _ _ _ _ H2 m Hm Ha) as [Ha1|?]; [|auto].
    destruct (m_new _ _ _ _ H1 m Hm Ha1) as [?|Ho]; [auto|]. right. by eapply owns_mono.
  - intros m Hb Ho Ha. rewrite (m_frame _ _ _ _ H2), (m_frame _ _ _ _ H1); try done.
    + intros [?|[Hm Hf]]%(m_own _ _ _ _ H1); [done|]. rewrite Ha in Hf; done.
    + intros Hm. apply (m_alloc _ _ _ _ H1); auto.
Qed.

Lemma mapped_trans V A V1 A1 V2 A2 : mapped V A V1 A1 -> mapped V1 A1 V2 A2 -> mapped V A V2 A2.
Proof. intros [H1 E1] [H2 E2]. split; [by eapply grown_trans|]. intros bn Hbn. by rewrite E2, E1. Qed.

Lemma slot_lt_28 : NDIRECT < NSLOT.
Proof using Type. unfold NSLOT. lia. Qed.

Lemma slot_ind V A : slot V A NDIRECT = dir_addr A NDIRECT.
Proof using Type. unfold slot. by rewrite decide_True. Qed.

Lemma slot_of_lt bn : bn < NDIRECT + NINDIRECT -> slot_of bn < NSLOT /\ slot_of bn <> NDIRECT.
Proof using Type. unfold slot_of, NSLOT. case_decide; lia. Qed.

Lemma not_bitmap len n : geometry sbk ds len -> ds <= n -> n ∉ bitmap sbk.
Proof.
  intros Hg Hn (m & -> & Hm)%elem_of_list_to_set%list_elem_of_fmap. apply elem_of_seq in Hm.
  destruct (g_bm _ _ _ Hg m); lia.
Qed.

Lemma add_slot_mapped V A k n V' A' :
  geometry sbk ds (length V) -> inode_ok V A -> slot_added V A k n V' A' -> inode_ok V' A' ->
  length V' = length V -> disk_ok sbk ds V' -> n <> 0 -> (k <> NDIRECT -> V' !! n = Some zero_block) ->
  (forall m, m ∉ bitmap sbk -> m <> n -> m <> dir_addr A NDIRECT \/ m = 0 -> V' !! m = V !! m) ->
  mapped V A V' A'.
Proof.
  intros Hg Hi Hsa Hi' Hl Hd Hn0 Hz Hfr. destruct Hsa as [Hs Hf Hrg Ha He Hk].
  assert (Hin : forall j, j < NSLOT -> slot V A j <> 0 -> slot V A j <> n).
  { intros j Hj Hnz E. destruct (n_range _ _ Hi j Hj Hnz) as [_ Hal]. congruence. }
  split; cycle 1.
  { intros bn Hbn. destruct (slot_of_lt bn Hbn) as [Hlt Hne]. unfold fdata, fblk. rewrite Hs by done.
    destruct (decide (slot_of bn = k)) as [Ek|Ek].
     + rewrite Ek, He, decide_False, decide_True by done. rewrite Hz by congruence. done.
     + destruct (decide (slot V A (slot_of bn) = 0)) as [|Hnz]; [done|]. f_equal.
      destruct (n_range _ _ Hi _ Hlt Hnz) as [Hr _]. apply Hfr; [eapply not_bitmap; [exact Hg|lia]|by apply Hin|].
      left. rewrite <- (slot_ind V A). intros E. apply Hne. by apply (n_inj _ _ Hi); [|apply slot_lt_28| |]. }
  split; try done.
  - intros j Hj Hnz. rewrite Hs by done. case_decide; [subst; done|done].
  - intros m Hm Hal. rewrite Ha by done. by rewrite Hal, orb_true_r.
  - intros m (Hm & j & Hj & E). rewrite Hs in E by done. case_decide; [subst m; right; split; [lia|done]|].
    left. split; [done|]. by exists j.
  - intros m Hm. rewrite Ha by done. case_bool_decide as Em; simpl; [|auto]. intros _. right.
    subst m. split; [done|]. exists k. split; [done|]. rewrite Hs by done. by rewrite decide_True.
  - intros m Hb Ho Hal. apply Hfr; [done| |].
    + intros ->. rewrite Hal in Hf; [done|lia].
    + destruct (decide (m = 0)); [by right|]. left. intros E. apply Ho. split; [done|]. exists NDIRECT.
      split; [apply slot_lt_28|]. by rewrite slot_ind.
Qed.

(** ** The three ways to add a block *)

Lemma zero_get j : j < NINDIRECT -> get32 (4 * j) zero_block = 0%Z.
Proof using Type.
  intros Hj. unfold get32, getle, zero_block. rewrite drop_replicate, take_replicate.
  replace (4 `min` (BSIZE - 4 * j)) with 4; [done|]. unfold BSIZE, NINDIRECT in *. lia.
Qed.

Section Add.
Context (V : list block) (A : list Z) (n : nat).
Context (Hg : geometry sbk ds (length V)) (Hd : disk_ok sbk ds V) (Hi : inode_ok V A)
  (Hn : ds <= n < fsize sbk) (Hfree : allocated sbk V n = false).

Lemma new_nonzero : n <> 0.
Proof using All. destruct (g_bm _ _ _ Hg n); lia. Qed.

Lemma new_u32 : (0 <= Z.of_nat n < 2 ^ 32)%Z.
Proof using All. pose proof (g_u32 _ _ _ Hg). destruct (g_nonneg _ _ _ Hg). unfold fsize in Hn. lia. Qed.

Lemma take_other m : m ∉ bitmap sbk -> m <> n -> take_block sbk n V !! m = V !! m.
Proof using All.
  intros Hb Hm. unfold take_block. rewrite list_lookup_insert_ne by done. apply mark_lookup.
  intros ->. apply Hb, bmb_bitmap. lia.
Qed.

Lemma take_new : take_block sbk n V !! n = Some zero_block.
Proof using All. apply list_lookup_insert_eq. rewrite mark_length. pose proof (g_fit _ _ _ Hg). lia. Qed.

(** The indirect block is not the new one, nor of the bit map. *)
Lemma take_ind : dir_addr A NDIRECT <> 0 -> take_block sbk n V !! dir_addr A NDIRECT = V !! dir_addr A NDIRECT.
Proof using All.
  intros Hz. rewrite <- (slot_ind V A) in *. destruct (n_range _ _ Hi _ slot_lt_28 Hz) as [Hr Hal].
  apply take_other; [eapply not_bitmap; [exact Hg|lia]|congruence].
Qed.

Lemma take_slot k : slot (take_block sbk n V) A k = slot V A k.
Proof using All.
  unfold slot. case_decide; [done|]. case_decide as Hz; [done|]. unfold ind_entry. by rewrite take_ind.
Qed.

Lemma take_alloc m : m < fsize sbk -> allocated sbk (take_block sbk n V) m = bool_decide (m = n) || allocated sbk V m.
Proof using All. intros Hm. rewrite (take_allocated sbk ds) by done. f_equal. apply bool_decide_ext. done. Qed.

Lemma dir_addr_insert k j : dir_addr (<[k := Z.of_nat n]> A) j = if decide (j = k /\ k < length A) then n else dir_addr A j.
Proof using All.
  unfold dir_addr. case_decide as E.
  - destruct E as [-> E]. rewrite list_lookup_insert_eq by done. simpl. lia.
  - destruct (decide (j = k)) as [->|]; [|by rewrite list_lookup_insert_ne]. rewrite list_insert_ge by lia. done.
Qed.

Lemma insert_u32 k x : x ∈ <[k := Z.of_nat n]> A -> (0 <= x < 2 ^ 32)%Z.
Proof using All.
  intros [j [[_ [<- _]]|[_ Hj]]%list_lookup_insert_Some]%list_elem_of_lookup; [apply new_u32|].
  apply (n_addr _ _ Hi). by eapply list_elem_of_lookup_2.
Qed.

Lemma add_direct k :
  k < NDIRECT -> dir_addr A k = 0 -> mapped V A (take_block sbk n V) (<[k := Z.of_nat n]> A).
Proof using All.
  intros Hk Hz. assert (Hl : length A = S NDIRECT) by apply Hi.
  assert (Hind : dir_addr (<[k := Z.of_nat n]> A) NDIRECT = dir_addr A NDIRECT).
  { rewrite dir_addr_insert, decide_False; [done|lia]. }
  assert (Hsa : slot_added V A k n (take_block sbk n V) (<[k := Z.of_nat n]> A)).
  { split; try done; [|apply take_alloc|unfold slot; by rewrite decide_True by lia|unfold NSLOT; lia].
    intros j Hj. rewrite <- take_slot. unfold slot. rewrite Hind, dir_addr_insert.
    repeat case_decide; (done || lia). }
  assert (Hok : inode_ok (take_block sbk n V) (<[k := Z.of_nat n]> A)).
  { eapply inode_ok_add; [exact Hi|exact Hsa|by rewrite length_insert|apply insert_u32|].
    rewrite Hind. intros d j H0 Hdj Hj. rewrite take_ind in Hdj by done. by eapply (n_entry _ _ Hi). }
  eapply add_slot_mapped; try done.
  - apply take_block_length.
  - by apply disk_ok_take.
  - apply new_nonzero.
  - intros _. apply take_new.
  - intros m Hb Hm _. by apply take_other.
Qed.

Lemma add_indirect :
  dir_addr A NDIRECT = 0 -> mapped V A (take_block sbk n V) (<[NDIRECT := Z.of_nat n]> A).
Proof using All.
  intros Hz. assert (Hl : length A = S NDIRECT) by apply Hi.
  assert (Hind : dir_addr (<[NDIRECT := Z.of_nat n]> A) NDIRECT = n).
  { rewrite dir_addr_insert, decide_True; [done|lia]. }
  assert (Hsa : slot_added V A NDIRECT n (take_block sbk n V) (<[NDIRECT := Z.of_nat n]> A)).
  { split; [|done|done|apply take_alloc|by rewrite slot_ind|apply slot_lt_28].
    intros j Hj. unfold slot. rewrite Hind, dir_addr_insert. pose proof new_nonzero. repeat case_decide; try (done || lia).
    unfold ind_entry. rewrite take_new, zero_get; [done|]. unfold NSLOT in Hj. lia. }
  assert (Hok : inode_ok (take_block sbk n V) (<[NDIRECT := Z.of_nat n]> A)).
  { eapply inode_ok_add; [exact Hi|exact Hsa|by rewrite length_insert|apply insert_u32|].
    rewrite Hind. intros d j H0 Hdj Hj. rewrite take_new in Hdj. injection Hdj as <-. by rewrite zero_get. }
  eapply add_slot_mapped; try done.
  - apply take_block_length.
  - by apply disk_ok_take.
  - apply new_nonzero.
  - intros m Hb Hm _. by apply take_other.
Qed.

(** A new entry in the indirect block [d]. *)
Lemma add_entry j d :
  j < NINDIRECT -> dir_addr A NDIRECT <> 0 -> V !! dir_addr A NDIRECT = Some d -> get32 (4 * j) d = 0%Z ->
  mapped V A (<[dir_addr A NDIRECT := put32 (4 * j) (Z.of_nat n) d]> (take_block sbk n V)) A.
Proof using All.
  intros Hj Hz Hind Hzero. set (ind := dir_addr A NDIRECT) in *. set (V' := <[ind := _]> _).
  unfold NINDIRECT in Hj.
  assert (Hil : ind < length (take_block sbk n V)) by (rewrite take_block_length; by eapply lookup_lt_Some).
  destruct (n_range _ _ Hi _ slot_lt_28) as [Hir Hial]; [by rewrite slot_ind|]. rewrite slot_ind in Hir, Hial. fold ind in Hir, Hial.
  assert (Hdl : length d = BSIZE) by (eapply (k_bsize _ _ _ Hd); [by eapply g_data|done]). assert (Hne : ind <> n) by congruence.
  assert (Hb : ind ∉ bitmap sbk) by (eapply not_bitmap; [exact Hg|lia]).
  assert (Hent : forall i, i < NINDIRECT -> get32 (4 * i) (put32 (4 * j) (Z.of_nat n) d) = if decide (i = j) then Z.of_nat n else get32 (4 * i) d).
  { intros i Hi'. unfold NINDIRECT in Hi'. case_decide as E.
    - subst. rewrite get32_put32 by (rewrite Hdl; unfold BSIZE; lia). apply u32_id, new_u32.
    - apply get32_put32_other; [rewrite Hdl; unfold BSIZE|]; lia. }
  assert (Hsa : slot_added V A (S NDIRECT + j) n V' A).
  { split; try done.
    - intros k Hk. unfold slot. fold ind. case_decide as Hkl; [rewrite decide_False by lia; done|].
      rewrite !(decide_False (P := ind = 0)) by done. unfold ind_entry, V'. rewrite list_lookup_insert_eq, Hind by done.
      rewrite Hent by (unfold NSLOT in Hk; lia). repeat case_decide; try (done || lia).
    - intros m Hm. unfold V'. rewrite allocated_write; [by apply take_alloc|]. intros E. apply Hb. rewrite E. by apply bmb_bitmap.
    - unfold slot. rewrite decide_False by lia. fold ind. rewrite decide_False by done. unfold ind_entry. rewrite Hind.
      replace (S NDIRECT + j - S NDIRECT) with j by lia. by rewrite Hzero.
    - unfold NSLOT, NINDIRECT. lia. }
  assert (Hok : inode_ok V' A).
  { eapply inode_ok_add; [exact Hi|exact Hsa|apply Hi|apply Hi|]. fold ind. unfold V'. intros e i _ He Hi'.
    rewrite list_lookup_insert_eq in He by done. injection He as <-. rewrite Hent by done. case_decide; [lia|].
    by eapply (n_entry _ _ Hi). }
  eapply add_slot_mapped; try done.
  - unfold V'. by rewrite length_insert, take_block_length.
  - unfold V'. apply disk_ok_write; [by rewrite take_block_length|by apply disk_ok_take|rewrite put32_length; [done|rewrite Hdl; unfold BSIZE; lia]|done].
  - apply new_nonzero.
  - intros _. unfold V'. rewrite list_lookup_insert_ne by done. apply take_new.
  - fold ind. intros m Hbm Hm [Hm'|Hm']; unfold V'; (rewrite list_lookup_insert_ne by congruence); by apply take_other.
Qed.
End Add.

(** ** Room for more blocks *)

Definition free_blocks (V : list block) : gset nat :=
  list_to_set (filter (fun n => allocated sbk V n = false) (seq 0 (fsize sbk))).

Lemma elem_of_free V n : n ∈ free_blocks V <-> n < fsize sbk /\ allocated sbk V n = false.
Proof using Type. unfold free_blocks. rewrite elem_of_list_to_set, list_elem_of_filter, elem_of_seq. naive_solver lia. Qed.

Lemma free_taken V V' n :
  n < fsize sbk -> allocated sbk V n = false ->
  (forall m, m < fsize sbk -> allocated sbk V' m = bool_decide (m = n) || allocated sbk V m) ->
  size (free_blocks V) = S (size (free_blocks V')).
Proof using Type.
  intros Hn Hf Ha. replace (free_blocks V) with ({[n]} ∪ free_blocks V').
  - rewrite size_union, size_singleton; [done|]. apply disjoint_singleton_l. rewrite elem_of_free, Ha by lia.
    rewrite bool_decide_true by done. by intros [_ ?].
  - apply set_eq. intros m. rewrite elem_of_union, elem_of_singleton, !elem_of_free. split.
    + intros [->|[Hm E]]; [done|]. rewrite Ha in E by done. apply orb_false_iff in E as [_ E]. done.
    + intros [Hm E]. destruct (decide (m = n)) as [|Hne]; [by left|right]. split; [done|]. rewrite Ha by done.
      rewrite bool_decide_false by done. done.
Qed.

(** The indirect block, and how many blocks are needed before there is one. *)
Definition ind_set (A : list Z) : gset nat := if decide (dir_addr A NDIRECT = 0) then ∅ else {[dir_addr A NDIRECT]}.
Definition ind_need (A : list Z) : nat := if decide (dir_addr A NDIRECT = 0) then 1 else 0.

Lemma ind_none A : dir_addr A NDIRECT = 0 -> ind_set A = ∅ /\ ind_need A = 1.
Proof using Type. unfold ind_set, ind_need. intros H. by rewrite !decide_True. Qed.

Lemma ind_some A n : dir_addr A NDIRECT = n -> n <> 0 -> ind_set A = {[n]} /\ ind_need A = 0.
Proof using Type. unfold ind_set, ind_need. intros -> H. by rewrite !decide_False. Qed.

(** The transaction has room for [k] more blocks of the file, next to the bit
    map, the indirect block and the blocks [X], and for one further call of
    [log_write]; and [k] blocks are free. *)
Definition budget (X tx : gset nat) (A : list Z) (k : nat) : Prop :=
  size (X ∪ bitmap sbk ∪ tx ∪ ind_set A) + ind_need A + k < bk_limit.
Definition avail (V : list block) (A : list Z) (k : nat) : Prop := ind_need A + k <= size (free_blocks V).

Record mappable (X : gset nat) (V : list block) (A : list Z) (tx : gset nat) (k : nat) : Prop := {
  mp_geo : geometry sbk ds (length V);
  mp_disk : disk_ok sbk ds V;
  mp_inode : inode_ok V A;
  mp_budget : budget X tx A k;
  mp_avail : avail V A k
}.

(** No buffer is held. *)
Definition calm (V : list block) (tx : gset nat) (ic : list inode) : abs := mkAbs ∅ V tx ∅ sbk ic.

Lemma size_add1 (X Y : gset nat) n : X ⊆ {[n]} ∪ Y -> size X <= S (size Y).
Proof using Type.
  intros H%subseteq_size. etransitivity; [exact H|]. rewrite size_union_alt, size_singleton.
  assert (size (Y ∖ {[n]}) <= size Y) by (apply subseteq_size; set_solver). lia.
Qed.

Lemma budget_add X tx tx' A n k :
  tx' ⊆ {[n]} ∪ (bitmap sbk ∪ tx) -> budget X tx A (S k) -> budget X tx' A k.
Proof using Type.
  intros H Hb. unfold budget in *.
  assert (size (X ∪ bitmap sbk ∪ tx' ∪ ind_set A) <= S (size (X ∪ bitmap sbk ∪ tx ∪ ind_set A))) by (apply (size_add1 _ _ n); set_solver).
  lia.
Qed.

Lemma addr_at_dir V A i k : inode_ok V A -> i_addrs i = A -> k <= NDIRECT -> addr_at i k = Z.of_nat (dir_addr A k).
Proof.
  intros Hi Ha Hk. unfold addr_at, dir_addr. rewrite Ha.
  destruct (lookup_lt_is_Some_2 A k) as [x Hx]; [rewrite (n_len _ _ Hi); lia|]. rewrite Hx. simpl.
  pose proof (n_addr _ _ Hi x). rewrite Z2Nat.id; [done|]. apply H. by eapply list_elem_of_lookup_2.
Qed.

Lemma of_nat_eqb0 n : (Z.of_nat n =? 0)%Z = bool_decide (n = 0).
Proof using Type. case_bool_decide; [by subst|]. apply Z.eqb_neq. lia. Qed.

Lemma with_addrs_id (ic : list inode) (ip : nat) i A : ic !! ip = Some i -> i_addrs i = A -> <[ip := with_addrs A i]> ic = ic.
Proof using Type. intros H <-. apply list_insert_id. rewrite H. by destruct i. Qed.

(** ** [bmap] *)

Section Bmap.
Context (X : gset nat) (ip : nat).

Lemma alloc_pre_calm h V A tx ic k :
  mappable X V A tx k -> (forall m, m ∈ dom h -> m ∈ ind_set A) -> 0 < ind_need A + k ->
  alloc_pre ds (mkAbs h V tx ∅ sbk ic).
Proof.
  intros [Hg Hd Hi Hb _] Hh Hk. unfold budget in Hb.
  assert (Hind : forall m, m ∈ ind_set A -> ds <= m < fsize sbk /\ allocated sbk V m = true).
  { intros m. unfold ind_set. case_decide as E; [set_solver|]. intros ->%elem_of_singleton.
    rewrite <- (slot_ind V A) in *. by apply (n_range _ _ Hi); [apply slot_lt_28|]. }
  split; simpl; try done.
  - intros m Hm Hm'. destruct (Hind m) as [Hr _]; [auto|]. by eapply not_bitmap; [exact Hg|apply Hr|].
  - intros m Hm _. apply Hind. auto.
  - pose proof law_limit as Hl. split; simpl.
    + assert (size (bitmap sbk ∪ tx) <= size (X ∪ bitmap sbk ∪ tx ∪ ind_set A)) by (apply subseteq_size; set_solver). lia.
    + assert (size (bitmap sbk ∪ tx ∪ dom h) <= size (X ∪ bitmap sbk ∪ tx ∪ ind_set A)) by (apply subseteq_size; set_solver). lia.
Qed.

Lemma some_free V A tx k : mappable X V A tx k -> 0 < ind_need A + k -> exists n, n < fsize sbk /\ allocated sbk V n = false.
Proof using Type.
  intros H Hk. pose proof (mp_avail _ _ _ _ _ H) as Ha. unfold avail in Ha.
  destruct (size_pos_elem_of (free_blocks V)) as [n Hn]; [lia|]. exists n. by apply elem_of_free.
Qed.

(** A fresh block becomes address [k] of the inode. *)
Definition fresh_at (V : list block) (tx : gset nat) (ic : list inode) (A : list Z) (i : inode) (k : nat) (r : Z) (s' : fs St) : Prop :=
  exists n, r = Z.of_nat n /\ ds <= n < fsize sbk /\ allocated sbk V n = false /\
    frep s' (calm (take_block sbk n V) ({[n]} ∪ ({[bmb sbk n]} ∪ tx)) (<[ip := with_addrs (<[k := Z.of_nat n]> A) i]> ic)).

Lemma alloc_set_ok s V A tx ic i k q :
  mappable X V A tx q -> 0 < ind_need A + q -> frep s (calm V tx ic) ->
  ic !! ip = Some i -> i_dev i = 1%Z -> i_addrs i = A ->
  total (a ← balloc (i_dev i); set_addr ip k a;; mret a) (fresh_at V tx ic A i k) s.
Proof.
  intros H Hq R Hi Hdev HA. rewrite Hdev. eapply total_bind; [apply (balloc_ok ds s (calm V tx ic))|].
  - eapply alloc_pre_calm; [exact H|set_solver|done].
  - exact R.
  - by eapply some_free.
  - cbv beta. intros r s1 (n & -> & Hn & Hf & _ & R1). eapply total_bind; [eapply (iupd_ok s1 _ ip i _ R1 Hi)|].
    cbv beta. intros _ s2 R2. apply total_ret. exists n. rewrite HA in R2. by do 3 (split; [done|]).
Qed.

(** What [bmap] returns and leaves behind. *)
Definition bmap_post (V : list block) (A : list Z) (tx : gset nat) (ic : list inode) (i : inode) (bn k : nat) (r : Z) (s' : fs St) : Prop :=
  exists n V' A' tx', r = Z.of_nat n /\ n <> 0 /\ fblk V' A' bn = n /\
    frep s' (calm V' tx' (<[ip := with_addrs A' i]> ic)) /\ mapped V A V' A' /\ tx ⊆ tx' /\
    budget X ({[n]} ∪ tx') A' k /\ avail V' A' k.

(** The block is there already: nothing changes. *)
Lemma bmap_same s V A tx ic i bn k n :
  mappable X V A tx (S k) -> frep s (calm V tx ic) -> ic !! ip = Some i -> i_addrs i = A ->
  fblk V A bn = n -> n <> 0 -> bmap_post V A tx ic i bn k (Z.of_nat n) s.
Proof.
  intros [Hg Hd Hok Hb Ha] R Hi HA Hn Hz. exists n, V, A, tx. rewrite with_addrs_id by done.
  do 4 (split; [done|]). split; [by apply mapped_refl|]. split; [done|]. split.
  - eapply (budget_add _ _ _ _ n); [|exact Hb]. set_solver.
  - unfold avail in *. lia.
Qed.

Lemma fblk_direct V A bn : bn < NDIRECT -> fblk V A bn = dir_addr A bn.
Proof using Type. intros H. unfold fblk, slot_of, slot. repeat case_decide; (done || lia). Qed.

Lemma bmap_direct_ok s V A tx ic i bn k :
  mappable X V A tx (S k) -> frep s (calm V tx ic) -> ic !! ip = Some i -> i_dev i = 1%Z -> i_addrs i = A -> bn < NDIRECT ->
  total (bmap ip (Z.of_nat bn)) (bmap_post V A tx ic i bn k) s.
Proof.
  intros H R Hi Hdev HA Hbn. destruct (H) as [Hg Hd Hok Hb Ha]. unfold bmap. eapply iat_bind; [exact R|exact Hi|].
  rewrite (proj2 (Z.ltb_lt _ _)), Nat2Z.id by lia. rewrite (addr_at_dir V A) by (done || lia). rewrite of_nat_eqb0.
  case_bool_decide as Hz; [|apply total_ret; apply bmap_same; try done; by apply fblk_direct].
  eapply total_mono; [eapply alloc_set_ok; [exact H|lia|done..]|]. cbv beta. intros r s' (n & -> & Hn & Hf & R').
  assert (Hnz : n <> 0) by (by eapply (new_nonzero V A)).
  assert (Hm : mapped V A (take_block sbk n V) (<[bn := Z.of_nat n]> A)) by (by apply add_direct).
  pose proof (n_len _ _ Hok) as Hl.
  assert (Hdir : forall j, dir_addr (<[bn := Z.of_nat n]> A) j = if decide (j = bn) then n else dir_addr A j).
  { intros j. rewrite (dir_addr_insert V A) by done. repeat case_decide; (done || lia). }
  exists n, (take_block sbk n V), (<[bn := Z.of_nat n]> A), ({[n]} ∪ ({[bmb sbk n]} ∪ tx)).
  split; [done|]. split; [done|]. split; [by rewrite fblk_direct, Hdir, decide_True by done|]. do 2 (split; [done|]).
  split; [set_solver|]. pose proof (bmb_bitmap sbk n (proj2 Hn)). unfold budget, avail, ind_set, ind_need in *.
  rewrite !Hdir, !(decide_False (P := NDIRECT = bn)) in * by lia. split.
  - eapply (budget_add _ tx _ A n); [|exact Hb]. set_solver.
  - rewrite (free_taken V (take_block sbk n V) n) in Ha; [lia|lia|done|]. intros m Hmm. by apply (take_alloc V A).
Qed.

Lemma fblk_indirect V A j :
  dir_addr A NDIRECT <> 0 -> fblk V A (NDIRECT + j) = ind_entry V (dir_addr A NDIRECT) j.
Proof using Type.
  intros Hz. unfold fblk, slot_of, slot. rewrite (decide_False (P := NDIRECT + j < NDIRECT)) by lia. repeat case_decide; try (done || lia). f_equal. lia.
Qed.

(** [bmap] makes sure that there is an indirect block... *)
Lemma bmap_ind_ok s V A tx ic i k :
  mappable X V A tx (S k) -> frep s (calm V tx ic) -> ic !! ip = Some i -> i_dev i = 1%Z -> i_addrs i = A ->
  total (let addr := addr_at i NDIRECT in
         if (addr =? 0)%Z then a ← balloc (i_dev i); set_addr ip NDIRECT a;; mret a else mret addr)
    (fun r s' => exists V1 A1 tx1, r = Z.of_nat (dir_addr A1 NDIRECT) /\ dir_addr A1 NDIRECT <> 0 /\
      frep s' (calm V1 tx1 (<[ip := with_addrs A1 i]> ic)) /\ mapped V A V1 A1 /\ tx ⊆ tx1 /\ mappable X V1 A1 tx1 (S k)) s.
Proof.
  intros H R Hi Hdev HA. destruct (H) as [Hg Hd Hok Hb Ha]. rewrite (addr_at_dir V A) by (done || lia). cbv zeta. rewrite of_nat_eqb0.
  case_bool_decide as Hz; [|apply total_ret; exists V, A, tx; rewrite with_addrs_id by done; by repeat (split; [apply mapped_refl || done|])].
  eapply total_mono; [eapply alloc_set_ok; [exact H|lia|done..]|]. cbv beta. intros r s' (n & -> & Hn & Hf & R').
  assert (Hnz : n <> 0) by (by eapply (new_nonzero V A)).
  assert (Hm : mapped V A (take_block sbk n V) (<[NDIRECT := Z.of_nat n]> A)) by (by apply add_indirect).
  pose proof (n_len _ _ Hok) as Hl.
  assert (Hdir : dir_addr (<[NDIRECT := Z.of_nat n]> A) NDIRECT = n).
  { rewrite (dir_addr_insert V A), decide_True by (done || lia). done. }
  exists (take_block sbk n V), (<[NDIRECT := Z.of_nat n]> A), ({[n]} ∪ ({[bmb sbk n]} ∪ tx)).
  rewrite Hdir. do 4 (split; [done|]). split; [set_solver|]. pose proof (bmb_bitmap sbk n (proj2 Hn)).
  split; [by rewrite take_block_length|apply Hm|apply Hm|unfold budget in *|unfold avail in *];
    destruct (ind_none A Hz) as [E1 E2], (ind_some _ n Hdir Hnz) as [E3 E4]; rewrite ?E1, ?E2, ?E3, ?E4 in *.
  - assert (size (X ∪ bitmap sbk ∪ ({[n]} ∪ ({[bmb sbk n]} ∪ tx)) ∪ {[n]}) <= S (size (X ∪ bitmap sbk ∪ tx ∪ ∅)))
      by (apply (size_add1 _ _ n); set_solver). lia.
  - rewrite (free_taken V (take_block sbk n V) n) in Ha; [lia|lia|done|]. intros m Hmm. by apply (take_alloc V A).
Qed.

(** A new entry of the indirect block. *)
Lemma bmap_new_entry s V A tx ic i j k n b d :
  let ind := dir_addr A NDIRECT in
  mappable X V A tx (S k) -> frep s (mkAbs (<[ind := b]> ∅) (take_block sbk n V) ({[n]} ∪ ({[bmb sbk n]} ∪ tx)) ∅ sbk ic) ->
  ic !! ip = Some i -> i_addrs i = A -> ind <> 0 -> j < NINDIRECT -> V !! ind = Some d -> get32 (4 * j) d = 0%Z ->
  ds <= n < fsize sbk -> allocated sbk V n = false ->
  total (r ← (d ← bdata b; bset b (put32 (4 * j) (Z.of_nat n) d);; log_write b;; mret (Z.of_nat n));
         brelse b;; mret r) (bmap_post V A tx ic i (NDIRECT + j) k) s.
Proof.
  intros ind H R Hi HA Hz Hj Hind E Hn Hf. destruct (H) as [Hg Hd Hok Hb Ha]. destruct (ind_some A ind) as [Hset Hneed]; [done|done|].
  assert (Hti : take_block sbk n V !! ind = Some d) by (rewrite <- Hind; by apply (take_ind V A n)).
  destruct (n_range _ _ Hok _ slot_lt_28) as [Hir Hial]; [by rewrite slot_ind|]. rewrite slot_ind in Hir, Hial. fold ind in Hir, Hial.
  pose proof (bmb_bitmap sbk n (proj2 Hn)) as Hbm. unfold budget in Hb. rewrite Hset, Hneed in Hb.
  apply total_assoc_rev. eapply total_bind; [eapply (fdata_ok s _ ind b d R); [apply lookup_insert_eq|exact Hti]|].
  cbv beta. intros ? s1 [-> R1]. set (d' := put32 (4 * j) (Z.of_nat n) d).
  apply (total_bind _ _ _ (fun r s' => r = Z.of_nat n /\ frep s' (A_log ind d' (mkAbs (<[ind := b]> ∅) (take_block sbk n V)
    ({[n]} ∪ ({[bmb sbk n]} ∪ tx)) ∅ sbk ic)))).
  { apply total_assoc. eapply total_bind; [eapply (flog_ok s1 _ ind b d' R1); [apply lookup_insert_eq|done|by eapply g_data|]|].
    - simpl. assert (size ({[n]} ∪ ({[bmb sbk n]} ∪ tx)) <= S (size (X ∪ bitmap sbk ∪ tx ∪ {[ind]}))) by (apply (size_add1 _ _ n); set_solver). lia.
    - cbv beta. intros _ s2 R2. by apply total_ret. }
  intros ? s2 [-> R2]. eapply total_bind; [apply (frelease_ok s2 _ ind b R2); [apply lookup_insert_eq|done]|].
  cbv beta. intros _ s3 R3. apply total_ret.
  assert (Hm : mapped V A (<[ind := d']> (take_block sbk n V)) A) by (by apply add_entry).
  exists n, (<[ind := d']> (take_block sbk n V)), A, ({[ind]} ∪ ({[n]} ∪ ({[bmb sbk n]} ∪ tx))).
  split; [done|]. split; [by eapply (new_nonzero V A)|]. split; [|split; [|split; [done|split; [set_solver|split]]]].
  - rewrite fblk_indirect by done. unfold ind_entry. fold ind. rewrite list_lookup_insert_eq by (by eapply lookup_lt_Some).
    unfold d'. assert (length d = BSIZE) by (eapply (k_bsize _ _ _ Hd); [by eapply g_data|done]). unfold NINDIRECT in Hj.
    rewrite get32_put32 by (rewrite H0; unfold BSIZE; lia). rewrite u32_id by (by eapply (new_u32 V A)). lia.
  - rewrite with_addrs_id by done. unfold A_release, A_log in R3. simpl in R3. by rewrite delete_insert_eq, delete_empty in R3.
  - unfold budget. rewrite Hset, Hneed. assert (size (X ∪ bitmap sbk ∪ ({[n]} ∪ ({[ind]} ∪ ({[n]} ∪ ({[bmb sbk n]} ∪ tx)))) ∪ {[ind]}) <= S (size (X ∪ bitmap sbk ∪ tx ∪ {[ind]}))) by (apply (size_add1 _ _ n); set_solver). lia.
  - unfold avail in *. rewrite Hneed in *. rewrite (free_taken V (<[ind := d']> (take_block sbk n V)) n) in Ha; [lia|lia|done|].
    intros m Hmm. rewrite allocated_write; [by apply (take_alloc V A)|]. intros ->. destruct (g_bm _ _ _ Hg m Hmm). lia.
Qed.

(** ... and then finds the block in it or adds it. *)
Lemma bmap_entry_ok s V A tx ic i j k :
  mappable X V A tx (S k) -> frep s (calm V tx ic) -> ic !! ip = Some i -> i_addrs i = A ->
  dir_addr A NDIRECT <> 0 -> j < NINDIRECT ->
  total (bp ← bread 1 (Z.of_nat (dir_addr A NDIRECT));
         d ← bdata bp;
         r ← (if (get32 (4 * j) d =? 0)%Z then
                a ← balloc 1; d ← bdata bp; bset bp (put32 (4 * j) a d);; log_write bp;; mret a
              else mret (get32 (4 * j) d));
         brelse bp;; mret r) (bmap_post V A tx ic i (NDIRECT + j) k) s.
Proof.
  intros H R Hi HA Hz Hj. destruct (H) as [Hg Hd Hok Hb Ha]. set (ind := dir_addr A NDIRECT) in *.
  destruct (n_range _ _ Hok _ slot_lt_28) as [Hir Hial]; [by rewrite slot_ind|]. rewrite slot_ind in Hir, Hial. fold ind in Hir, Hial.
  destruct (lookup_lt_is_Some_2 V ind) as [d Hind]; [pose proof (g_fit _ _ _ Hg); lia|].
  pose proof (law_limit) as Hlim. destruct (ind_some A ind) as [Hset Hneed]; [done|done|].
  apply (with_block s (calm V tx ic) ind d _ _ R Hind); [set_solver| |].
  { unfold room. simpl. unfold budget in Hb. assert (size (tx ∪ dom (∅ : gmap nat nat)) <= size (X ∪ bitmap sbk ∪ tx ∪ ind_set A)) by (apply subseteq_size; set_solver). lia. }
  intros b s1 R1. pose proof (n_entry _ _ Hok d j Hz Hind Hj) as Hpos.
  assert (Hent : fblk V A (NDIRECT + j) = Z.to_nat (get32 (4 * j) d)).
  { rewrite fblk_indirect by done. unfold ind_entry. fold ind. by rewrite Hind. }
  destruct (Z.eqb_spec (get32 (4 * j) d) 0) as [E|E].
  - apply total_assoc_rev. eapply total_bind; [apply (balloc_ok ds s1 (A_read ind b (calm V tx ic)))|].
    + eapply alloc_pre_calm; [exact H| |lia]. intros m. rewrite Hset, dom_insert. set_solver.
    + exact R1.
    + eapply some_free; [exact H|lia].
    + cbv beta. intros r s2 (n & -> & Hn & Hf & _ & R2). simpl in Hn, Hf, R2.
      apply (bmap_new_entry s2 V A tx ic i j k n b d); done.
  - apply (total_bind _ _ _ (fun r s' => r = get32 (4 * j) d /\ frep s' (A_read ind b (calm V tx ic)))); [by apply total_ret|].
    intros r s2 [-> R2]. eapply total_bind; [apply (frelease_ok s2 _ ind b R2); [apply lookup_insert_eq|set_solver]|].
    cbv beta. intros _ s3 R3. rewrite read_release in R3 by set_solver. apply total_ret.
    rewrite <- (Z2Nat.id (get32 (4 * j) d)) by done. apply bmap_same; try done. lia.
Qed.

Lemma bmap_post_trans V A tx ic i V1 A1 tx1 bn k r s' :
  mapped V A V1 A1 -> tx ⊆ tx1 -> bmap_post V1 A1 tx1 (<[ip := with_addrs A1 i]> ic) (with_addrs A1 i) bn k r s' ->
  bmap_post V A tx ic i bn k r s'.
Proof.
  intros Hm Ht (n & V' & A' & tx' & -> & Hn & Hf & R & Hm' & Ht' & Hb & Ha). exists n, V', A', tx'.
  do 3 (split; [done|]). split; [by rewrite list_insert_insert_eq in R|]. split; [by eapply mapped_trans|].
  split; [by etransitivity|done].
Qed.

Lemma bmap_ok s V A tx ic i bn k :
  mappable X V A tx (S k) -> frep s (calm V tx ic) -> ic !! ip = Some i -> i_dev i = 1%Z -> i_addrs i = A ->
  bn < NDIRECT + NINDIRECT -> total (bmap ip (Z.of_nat bn)) (bmap_post V A tx ic i bn k) s.
Proof.
  intros H R Hi Hdev HA Hbn. destruct (decide (bn < NDIRECT)) as [|Hge]; [by apply bmap_direct_ok|].
  unfold bmap. eapply iat_bind; [exact R|exact Hi|]. rewrite (proj2 (Z.ltb_ge _ _)) by lia. cbv zeta.
  rewrite (proj2 (Z.ltb_lt _ _)) by (unfold NINDIRECT in *; lia).
  eapply total_bind; [by eapply (bmap_ind_ok s V A)|]. cbv beta. intros r s1 (V1 & A1 & tx1 & -> & Hz & R1 & Hm & Ht & H1).
  rewrite Hdev. replace (Z.to_nat (Z.of_nat bn - Z.of_nat NDIRECT)) with (bn - NDIRECT) by lia.
  eapply total_mono; [eapply (bmap_entry_ok s1 V1 A1 tx1 _ (with_addrs A1 i) (bn - NDIRECT) k H1 R1)|].
  - apply list_lookup_insert_eq. by eapply lookup_lt_Some.
  - done.
  - done.
  - lia.
  - cbv beta. intros r s2 H2. replace (NDIRECT + (bn - NDIRECT)) with bn in H2 by lia. by eapply bmap_post_trans.
Qed.

(** When the file has the block, [bmap] changes nothing. *)
Lemma bmap_hit s V A tx ic i bn :
  geometry sbk ds (length V) -> inode_ok V A -> size tx < NBUF ->
  frep s (calm V tx ic) -> ic !! ip = Some i -> i_dev i = 1%Z -> i_addrs i = A ->
  bn < NDIRECT + NINDIRECT -> fblk V A bn <> 0 ->
  total (bmap ip (Z.of_nat bn)) (fun r s' => r = Z.of_nat (fblk V A bn) /\ frep s' (calm V tx ic)) s.
Proof.
  intros Hg Hok Hsz R Hi Hdev HA Hbn Hnz. unfold bmap. eapply iat_bind; [exact R|exact Hi|].
  destruct (decide (bn < NDIRECT)) as [Hlt|Hge].
  - rewrite fblk_direct in * by done. rewrite (proj2 (Z.ltb_lt _ _)), Nat2Z.id by lia.
    rewrite (addr_at_dir V A), of_nat_eqb0, bool_decide_false by (done || lia). by apply total_ret.
  - rewrite (proj2 (Z.ltb_ge _ _)), (proj2 (Z.ltb_lt _ _)) by (unfold NINDIRECT in *; lia). cbv zeta.
    rewrite (addr_at_dir V A), of_nat_eqb0 by (done || lia). set (j := bn - NDIRECT).
    replace (Z.to_nat (Z.of_nat bn - Z.of_nat NDIRECT)) with j by lia.
    assert (Hz : dir_addr A NDIRECT <> 0).
    { intros E. apply Hnz. unfold fblk, slot_of, slot. repeat case_decide; (done || lia). }
    rewrite bool_decide_false by done. replace bn with (NDIRECT + j) in * by lia. rewrite fblk_indirect in * by done.
    set (ind := dir_addr A NDIRECT) in *. rewrite Hdev.
    destruct (n_range _ _ Hok _ slot_lt_28) as [Hir _]; [by rewrite slot_ind|]. rewrite slot_ind in Hir. fold ind in Hir.
    destruct (lookup_lt_is_Some_2 V ind) as [d Hind]; [pose proof (g_fit _ _ _ Hg); lia|].
    unfold ind_entry in *. rewrite Hind in *. pose proof (n_entry _ _ Hok d j Hz Hind) as Hpos.
    eapply total_bind; [by apply (total_ret _ (fun r s' => r = Z.of_nat ind /\ frep s' (calm V tx ic)))|]. cbv beta. intros ? s1 [-> R1].
    apply (with_block s1 (calm V tx ic) ind d _ _ R1 Hind); [set_solver|unfold room; simpl; by rewrite dom_empty_L, union_empty_r_L|].
    intros b s2 R2. rewrite (proj2 (Z.eqb_neq _ _)) by lia.
    apply (total_bind _ _ _ (fun r s' => r = get32 (4 * j) d /\ frep s' (A_read ind b (calm V tx ic)))); [by apply total_ret|].
    intros r s3 [-> R3]. eapply total_bind; [apply (frelease_ok s3 _ ind b R3); [apply lookup_insert_eq|set_solver]|].
    cbv beta. intros _ s4 R4. rewrite read_release in R4 by set_solver. apply total_ret. split; [|done]. rewrite Z2Nat.id; [done|]. apply Hpos. lia.
Qed.
End Bmap.
End File.
