(* ===== verification/FsRw.v ===== *)
(** * Reading and writing files

    [readi], [iupdate] and [writei], and the disk as a set of files: what a
    write to one file does to the disk and that it leaves the other files
    alone. *)
From stdpp Require Import gmap.
From S2P Require Import Prelude Bytes Bio BioSpec Log Blocks Fs FsAlloc FsInode FsFile.
Local Open Scope nat_scope.

(** Byte [p] of the file, and [n] bytes from [off] on. *)
Definition fbyte (V : list block) (A : list Z) (p : nat) : Z := default 0%Z (fdata V A (p / BSIZE) !! (p mod BSIZE)).
Definition file_bytes (V : list block) (A : list Z) (off n : nat) : list Z := fbyte V A <$> seq off n.

(** Every block below [sz] is there. *)
Definition covered (V : list block) (A : list Z) (sz : nat) : Prop := forall bn, bn * BSIZE < sz -> fblk V A bn <> 0.

(** [MAXFILE * BSIZE] *)
Notation max_size := 79872%Z.
Lemma max_size_eq : (MAXFILE * bsize)%Z = max_size.
Proof. done. Qed.

Lemma file_bytes_app V A off m n : file_bytes V A off (m + n) = file_bytes V A off m ++ file_bytes V A (off + m) n.
Proof. unfold file_bytes. by rewrite seq_app, fmap_app. Qed.

Lemma file_bytes_length V A off n : length (file_bytes V A off n) = n.
Proof. unfold file_bytes. by rewrite length_fmap, length_seq. Qed.

(** The bytes of a chunk that lies within one block. *)
Lemma file_bytes_chunk V A off m d :
  fdata V A (off / BSIZE) = d -> length d = BSIZE -> m <= BSIZE - off mod BSIZE ->
  take m (drop (off mod BSIZE) d) = file_bytes V A off m.
Proof.
  intros Hd Hl Hm. apply list_eq. intros i. unfold file_bytes. rewrite list_lookup_fmap.
  destruct (decide (i < m)) as [Hi|Hi].
  - rewrite lookup_take_lt, lookup_drop, lookup_seq_lt by done. simpl. unfold fbyte.
    assert ((off + i) / BSIZE = off / BSIZE /\ (off + i) mod BSIZE = off mod BSIZE + i) as [E1 E2] by (unfold BSIZE in *; lia).
    rewrite E1, E2, Hd. destruct (lookup_lt_is_Some_2 d (off mod BSIZE + i)) as [x Hx]; [rewrite Hl; unfold BSIZE in *; lia|]. by rewrite Hx.
  - rewrite lookup_take_ge, lookup_seq_ge by lia. done.
Qed.

Lemma chunk_spec n tot off : tot < n ->
  exists m, chunk (Z.of_nat n) (Z.of_nat tot) (Z.of_nat off) = Z.of_nat m /\ 0 < m <= n - tot /\ m <= BSIZE - off mod BSIZE /\
    (m = n - tot \/ off mod BSIZE + m = BSIZE).
Proof. intros H. exists ((n - tot) `min` (BSIZE - off mod BSIZE)). unfold chunk, bsize, BSIZE. lia. Qed.

(** An offset and a length whose sum does not fit a [uint]. *)
Lemma u32_wrap off n : (0 <= off < 2 ^ 32)%Z -> (0 <= n < 2 ^ 32)%Z -> (2 ^ 32 <= off + n)%Z -> (u32 (off + n) < off)%Z.
Proof. unfold u32. lia. Qed.

Lemma off_div off : (Z.of_nat off / bsize)%Z = Z.of_nat (off / BSIZE).
Proof. unfold bsize, BSIZE. lia. Qed.
Lemma off_mod off : Z.to_nat (Z.of_nat off mod bsize) = off mod BSIZE.
Proof. unfold bsize, BSIZE. lia. Qed.
Lemma div_covers off n : off < n -> off / BSIZE * BSIZE < n.
Proof. unfold BSIZE. lia. Qed.
Lemma div_max off : (Z.of_nat off < max_size)%Z -> off / BSIZE < NDIRECT + NINDIRECT.
Proof. unfold BSIZE, NDIRECT, NINDIRECT. lia. Qed.
Lemma div_max' bn n : bn * BSIZE < n -> (Z.of_nat n <= max_size)%Z -> bn < NDIRECT + NINDIRECT.
Proof. unfold BSIZE, NDIRECT, NINDIRECT. lia. Qed.

(** Linear arithmetic that leaves facts about block boundaries alone. *)
Ltac blia := repeat match goal with H : context [BSIZE] |- _ => clear H end; lia.

(** [devsw]: the read and the write functions of the devices. *)
Notation dev_reader St := (Z -> option (nat -> Z -> M (fs St) (Z * list Z))).
Notation dev_writer St := (Z -> option (nat -> list Z -> M (fs St) Z)).

Section Rw.
Context {St : Type} {ops : BlockOps St} {laws : BlockLaws St}.
Context (sbk : superblock) (ds : nat).
Notation inode_ok := (inode_ok sbk ds).
Notation calm := (calm sbk).

(** The block with the file's block [bn]. *)
Lemma fblk_data V A bn :
  geometry sbk ds (length V) -> inode_ok V A -> bn < NDIRECT + NINDIRECT -> fblk V A bn <> 0 ->
  V !! fblk V A bn = Some (fdata V A bn) /\ ds <= fblk V A bn < fsize sbk.
Proof.
  intros Hg Hok Hbn Hz. destruct (slot_of_lt bn Hbn) as [Hs _]. destruct (n_range _ _ _ _ Hok _ Hs Hz) as [Hr _]. split; [|done].
  unfold fdata. rewrite decide_False by done. fold (fblk V A bn) in Hr.
  destruct (lookup_lt_is_Some_2 V (fblk V A bn)) as [d ->]; [pose proof (g_fit _ _ _ Hg); lia|]. done.
Qed.

Lemma fdata_length V A bn :
  geometry sbk ds (length V) -> disk_ok sbk ds V -> inode_ok V A -> bn < NDIRECT + NINDIRECT -> length (fdata V A bn) = BSIZE.
Proof.
  intros Hg Hd Hok Hbn. destruct (decide (fblk V A bn = 0)) as [E|E].
  - unfold fdata. rewrite decide_True by done. apply length_replicate.
  - destruct (fblk_data V A bn Hg Hok Hbn E) as [Hb Hr]. eapply (k_bsize _ _ _ Hd); [by eapply g_data|exact Hb].
Qed.

Lemma readi_loop_ok s V A tx ic ip i tot off n fuel :
  geometry sbk ds (length V) -> disk_ok sbk ds V -> inode_ok V A -> size tx < NBUF ->
  frep s (calm V tx ic) -> ic !! ip = Some i -> i_dev i = 1%Z -> i_addrs i = A ->
  tot <= n -> covered V A (off + (n - tot)) -> (Z.of_nat (off + (n - tot)) <= max_size)%Z -> n - tot <= fuel ->
  total (readi_loop ip (Z.of_nat tot) (Z.of_nat off) (Z.of_nat n) fuel)
    (fun r s' => r = file_bytes V A off (n - tot) /\ frep s' (calm V tx ic)) s.
Proof.
  intros Hg Hd Hok Hsz. revert s tot off.
  induction fuel as [|fuel IH]; intros s tot off R Hi Hdev HA Htn Hc Hmax Hfuel; cbn [readi_loop].
  { rewrite (proj2 (Z.ltb_ge _ _)) by lia. apply total_ret. by replace (n - tot) with 0 by lia. }
  destruct (decide (tot < n)) as [Hlt|Hge].
  2: { rewrite (proj2 (Z.ltb_ge _ _)) by lia. apply total_ret. by replace (n - tot) with 0 by lia. }
  rewrite (proj2 (Z.ltb_lt _ _)) by lia. eapply iat_bind; [exact R|exact Hi|].
  assert (Hbn : off / BSIZE < NDIRECT + NINDIRECT) by (apply div_max; lia).
  assert (Hz : fblk V A (off / BSIZE) <> 0) by (apply Hc, div_covers; blia).
  rewrite off_div.
  eapply total_bind; [exact (bmap_hit sbk ds ip s V A tx ic i _ Hg Hok Hsz R Hi Hdev HA Hbn Hz)|]. cbv beta. intros ? s1 [-> R1].
  destruct (fblk_data V A (off / BSIZE) Hg Hok Hbn Hz) as [Hblk _]. rewrite Hdev.
  apply (with_block s1 (calm V tx ic) _ _ _ _ R1 Hblk); [set_solver|unfold room; simpl; by rewrite dom_empty_L, union_empty_r_L|].
  intros b s2 R2. cbv zeta. destruct (chunk_spec n tot off Hlt) as (m & -> & Hm & Hmb & _).
  eapply total_bind; [apply (frelease_ok s2 _ (fblk V A (off / BSIZE)) b R2); [apply lookup_insert_eq|set_solver]|].
  cbv beta. intros _ s3 R3. rewrite read_release in R3 by set_solver. rewrite <- !Nat2Z.inj_add.
  assert (E : n - tot = m + (n - (tot + m))) by blia.
  eapply total_bind; [apply (IH s3 (tot + m) (off + m) R3 Hi Hdev HA); [blia| |blia|blia]|].
  - intros bn Hbn'. apply Hc. eapply Nat.lt_le_trans; [exact Hbn'|blia].
  - cbv beta. intros r s4 [-> R4]. apply total_ret. split; [|done]. rewrite Nat2Z.id.
    rewrite off_mod.
    rewrite (file_bytes_chunk V A off m); [|done|by apply fdata_length|exact Hmb]. by rewrite E, file_bytes_app.
Qed.

(** What [readi] returns: the bytes from [off] to the end of the file at most. *)
Definition readi_result (V : list block) (i : inode) (off n : Z) : Z * list Z :=
  if (i_size i <? off)%Z || (2 ^ 32 <=? off + n)%Z then ((-1)%Z, [])
  else let m := Z.min n (i_size i - off) in (m, file_bytes V (i_addrs i) (Z.to_nat off) (Z.to_nat m)).

(** A regular file or a directory, cached. *)
Record cached_file (V : list block) (i : inode) : Prop := {
  cf_dev : i_dev i = 1%Z;
  cf_type : i_type i <> T_DEV;
  cf_ok : inode_ok V (i_addrs i);
  cf_size : (0 <= i_size i <= max_size)%Z;
  cf_covered : covered V (i_addrs i) (Z.to_nat (i_size i))
}.

Lemma readi_ok (dev_read : dev_reader St) s V tx ic ip i off n :
  geometry sbk ds (length V) -> disk_ok sbk ds V -> cached_file V i -> size tx < NBUF ->
  frep s (calm V tx ic) -> ic !! ip = Some i -> (0 <= off < 2 ^ 32)%Z -> (0 <= n < 2 ^ 32)%Z ->
  total (readi dev_read ip off n) (fun r s' => r = readi_result V i off n /\ frep s' (calm V tx ic)) s.
Proof.
  intros Hg Hd [Hdev Hty Hok Hsize Hcov] Hsz R Hi Hoff Hn. unfold readi, readi_result. eapply iat_bind; [exact R|exact Hi|].
  rewrite (proj2 (Z.eqb_neq _ _)) by done.
  destruct (Z.ltb_spec (i_size i) off) as [|Hso]; cbn [orb]; [by apply total_ret|].
  destruct (Z.leb_spec (2 ^ 32) (off + n)) as [Hw|Hw].
  { rewrite (proj2 (Z.ltb_lt _ _)) by (by apply u32_wrap). by apply total_ret. }
  rewrite (u32_id (off + n)) by lia. rewrite (proj2 (Z.ltb_ge _ _)) by lia. cbv zeta.
  rewrite (u32_id (i_size i - off)) by lia.
  assert (E : (if (i_size i <? off + n)%Z then i_size i - off else n)%Z = Z.min n (i_size i - off)).
  { destruct (Z.ltb_spec (i_size i) (off + n)); lia. }
  rewrite E. set (m := Z.min n (i_size i - off)). assert (Hm : (0 <= m <= i_size i - off)%Z) by (unfold m; lia).
  rewrite <- (Z2Nat.id m), <- (Z2Nat.id off) by lia. change 0%Z with (Z.of_nat 0). rewrite !Nat2Z.id.
  eapply total_bind; [apply (readi_loop_ok s V (i_addrs i) tx ic ip i); try done|].
  - lia.
  - intros bn Hbn. apply Hcov. lia.
  - lia.
  - lia.
  - cbv beta. intros r s' [-> R']. apply total_ret. split; [|done]. rewrite Nat.sub_0_r. f_equal. unfold s32. lia.
Qed.

(** ** Writing a block of the file *)

Section Data.
Context (V : list block) (A : list Z) (bn : nat) (d : block).
Context (Hg : geometry sbk ds (length V)) (Hd : disk_ok sbk ds V) (Hi : inode_ok V A)
  (Hbn : bn < NDIRECT + NINDIRECT) (Hz : fblk V A bn <> 0) (Hlen : length d = BSIZE).
Notation n := (fblk V A bn).

Lemma data_slot k : slot (<[n := d]> V) A k = slot V A k.
Proof using All.
  unfold slot. case_decide; [done|]. case_decide as Hz'; [done|]. unfold ind_entry. rewrite list_lookup_insert_ne; [done|].
  destruct (slot_of_lt bn Hbn) as [Hlt Hne]. rewrite <- (slot_ind V A). intros E. apply Hne.
  by apply (n_inj _ _ _ _ Hi); [|apply slot_lt_28| |].
Qed.

Lemma data_not_bitmap : n ∉ bitmap sbk.
Proof using All. destruct (fblk_data V A bn Hg Hi Hbn Hz) as [_ Hr]. eapply not_bitmap; [exact Hg|apply Hr]. Qed.

Lemma data_alloc m : m < fsize sbk -> allocated sbk (<[n := d]> V) m = allocated sbk V m.
Proof using All. intros Hm. apply allocated_write. intros E. apply data_not_bitmap. rewrite E. by apply bmb_bitmap. Qed.

Lemma data_owns m : owns (<[n := d]> V) A m <-> owns V A m.
Proof using All. unfold owns. split; intros (H0 & k & Hk & E); (split; [done|]); exists k; (split; [done|]); [rewrite <- data_slot|rewrite data_slot]; done. Qed.

Lemma data_grown : grown sbk ds V A (<[n := d]> V) A.
Proof using All.
  assert (Hok : inode_ok (<[n := d]> V) A).
  { destruct (slot_of_lt bn Hbn) as [Hlt Hne]. split.
    - apply Hi.
    - apply Hi.
    - intros e j H0 He Hj. rewrite list_lookup_insert_ne in He; [by eapply (n_entry _ _ _ _ Hi)|].
      rewrite <- (slot_ind V A). intros E. apply Hne. by apply (n_inj _ _ _ _ Hi); [|apply slot_lt_28| |].
    - intros k k'. rewrite !data_slot. apply (n_inj _ _ _ _ Hi).
    - intros k Hk. rewrite data_slot. intros Hs. destruct (n_range _ _ _ _ Hi k Hk Hs) as [Hr Ha]. split; [done|].
      rewrite data_alloc; [done|]. apply Hr. }
  split; try done.
  - by rewrite length_insert.
  - apply disk_ok_write; try done. apply data_not_bitmap.
  - intros k Hk _. apply data_slot.
  - intros m Hm. by rewrite data_alloc.
  - intros m Ho. left. by apply data_owns.
  - intros m Hm. rewrite data_alloc by done. by left.
  - intros m _ Ho _. apply list_lookup_insert_ne. intros <-. apply Ho. split; [done|].
    exists (slot_of bn). split; [by apply slot_of_lt|done].
Qed.

Lemma data_fdata bn' : bn' < NDIRECT + NINDIRECT -> fdata (<[n := d]> V) A bn' = if decide (bn' = bn) then d else fdata V A bn'.
Proof using All.
  intros Hbn'. destruct (fblk_data V A bn Hg Hi Hbn Hz) as [Hl _]. apply lookup_lt_Some in Hl.
  assert (Ef : fblk (<[n := d]> V) A bn' = fblk V A bn') by apply data_slot.
  unfold fdata at 1. rewrite Ef. case_decide as E.
  - rewrite decide_False by congruence. unfold fdata. by rewrite decide_True.
  - case_decide as E'; [by rewrite E', list_lookup_insert_eq|]. rewrite list_lookup_insert_ne.
    + unfold fdata. by rewrite decide_False.
    + intros E2. apply E'. unfold fblk in E2. apply (n_inj _ _ _ _ Hi) in E2; [|by apply slot_of_lt..|done].
      unfold slot_of in E2. repeat case_decide; lia.
Qed.
End Data.
End Rw.
