(* ===== verification/FsWrite.v ===== *)
(** * Writing files

    [iupdate] and [writei]. *)
From stdpp Require Import gmap.
From S2P Require Import Prelude Bytes Bio BioSpec Log Blocks Fs FsAlloc FsInode FsFile FsRw.
Local Open Scope nat_scope.

(** The bytes [bs] replace those of the file from [off] on. *)
Definition patched (V : list block) (A : list Z) (off : nat) (bs : list Z) (V' : list block) (A' : list Z) : Prop :=
  forall p, (Z.of_nat p < max_size)%Z ->
    fbyte V' A' p = if decide (off <= p < off + length bs) then default 0%Z (bs !! (p - off)) else fbyte V A p.

Lemma patched_refl V A off : patched V A off [] V A.
Proof. intros p _. rewrite decide_False; [done|]. simpl. lia. Qed.

Lemma patched_trans V A off bs V1 A1 bs' V2 A2 :
  patched V A off bs V1 A1 -> patched V1 A1 (off + length bs) bs' V2 A2 -> patched V A off (bs ++ bs') V2 A2.
Proof.
  intros H1 H2 p Hp. rewrite H2, H1 by done. rewrite length_app.
  repeat case_decide; try lia; try done.
  - rewrite lookup_app_r by lia. do 2 f_equal. lia.
  - by rewrite lookup_app_l by lia.
Qed.

Lemma same_data_bytes V A V' A' p : same_data V A V' A' -> (Z.of_nat p < max_size)%Z -> fbyte V' A' p = fbyte V A p.
Proof. intros H Hp. unfold fbyte. by rewrite H by (by apply div_max). Qed.

Lemma same_block p off : p / BSIZE = off / BSIZE -> p mod BSIZE - off mod BSIZE = p - off /\ (off mod BSIZE <= p mod BSIZE <-> off <= p).
Proof. unfold BSIZE. lia. Qed.

Lemma other_block p off m : p / BSIZE <> off / BSIZE -> m <= BSIZE - off mod BSIZE -> ~ (off <= p < off + m).
Proof. unfold BSIZE. lia. Qed.

(** A change of a part of one block. *)
Lemma patch_block V A V' A' off bs d :
  length d = BSIZE -> length bs <= BSIZE - off mod BSIZE -> fdata V A (off / BSIZE) = d ->
  (forall bn, bn < NDIRECT + NINDIRECT ->
    fdata V' A' bn = if decide (bn = off / BSIZE) then splice (off mod BSIZE) bs d else fdata V A bn) ->
  patched V A off bs V' A'.
Proof.
  intros Hd Hm E H p Hp. unfold fbyte. rewrite H by (by apply div_max). case_decide as Hb.
  - rewrite Hb, E. destruct (same_block p off Hb) as [E1 E2]. rewrite splice_lookup by (rewrite Hd; unfold BSIZE in *; lia).
    rewrite E1. assert (E3 : p mod BSIZE < off mod BSIZE + length bs <-> p < off + length bs) by (clear -E1 E2 Hb; unfold BSIZE in *; lia).
    repeat case_decide; (done || tauto).
  - rewrite decide_False; [done|]. by apply other_block.
Qed.

Lemma chunk_block off m p : m <= BSIZE - off mod BSIZE -> off <= p < off + m -> p / BSIZE = off / BSIZE.
Proof. unfold BSIZE. lia. Qed.

Lemma nblocks_step off n m : 0 < n -> m <= n -> off mod BSIZE + m = BSIZE -> 0 < n - m ->
  S (((off + m) mod BSIZE + (n - m) + 511) / BSIZE) <= (off mod BSIZE + n + 511) / BSIZE.
Proof. unfold BSIZE. lia. Qed.

Lemma nblocks_pos off n : 0 < n -> 0 < (off mod BSIZE + n + 511) / BSIZE.
Proof. unfold BSIZE. lia. Qed.

Section Write.
Context {St : Type} {ops : BlockOps St} {laws : BlockLaws St}.
Context (sbk : superblock) (ds : nat).
Notation inode_ok := (inode_ok sbk ds).
Notation calm := (calm sbk).
Notation mappable := (mappable sbk ds).

(** One iteration of the loop of [writei]. *)
Lemma write_chunk_ok {R} (K : M (fs St) R) Q s V A tx ic ip i X k off bs :
  mappable X V A tx (S k) -> frep s (calm V tx ic) -> ic !! ip = Some i -> i_dev i = 1%Z -> i_addrs i = A ->
  (Z.of_nat off < max_size)%Z -> length bs <= BSIZE - off mod BSIZE ->
  (forall s' V' A' tx', frep s' (calm V' tx' (<[ip := with_addrs A' i]> ic)) -> mappable X V' A' tx' k ->
     grown sbk ds V A V' A' -> patched V A off bs V' A' -> fblk V' A' (off / BSIZE) <> 0 ->
     (fblk V A (off / BSIZE) <> 0 -> A' = A) -> total K Q s') ->
  total (a ← bmap ip (Z.of_nat (off / BSIZE));
         bp ← bread 1 a;
         d ← bdata bp;
         bset bp (splice (off mod BSIZE) bs d);;
         log_write bp;;
         brelse bp;; K) Q s.
Proof.
  intros H R0 Hi Hdev HA Hoff Hlen HK. destruct (H) as [Hg Hd Hok Hb Ha]. pose proof (div_max off Hoff) as Hbn.
  set (bn := off / BSIZE) in *.
  assert (Hbm : total (bmap ip (Z.of_nat bn)) (fun r s' => exists n V' A' tx', r = Z.of_nat n /\ n <> 0 /\ fblk V' A' bn = n /\
    frep s' (calm V' tx' (<[ip := with_addrs A' i]> ic)) /\ mapped sbk ds V A V' A' /\
    budget sbk X ({[n]} ∪ tx') A' k /\ avail sbk V' A' k /\ (fblk V A bn <> 0 -> A' = A)) s).
  { destruct (decide (fblk V A bn = 0)) as [E|E].
    - eapply total_mono; [by eapply (bmap_ok sbk ds X ip s V A)|]. cbv beta. intros r s' (n & V' & A' & tx' & ? & ? & ? & ? & ? & _ & ? & ?).
      exists n, V', A', tx'. by repeat (split; [done|]).
    - assert (Hsz : size tx < NBUF).
      { unfold budget in Hb. pose proof law_limit. assert (size tx <= size (X ∪ bitmap sbk ∪ tx ∪ ind_set A)) by (apply subseteq_size; set_solver). lia. }
      eapply total_mono; [exact (bmap_hit sbk ds ip s V A tx ic i _ Hg Hok Hsz R0 Hi Hdev HA Hbn E)|]. cbv beta. intros r s' [-> R'].
      exists (fblk V A bn), V, A, tx. rewrite with_addrs_id by done. do 4 (split; [done|]). split; [by apply mapped_refl|].
      split; [eapply (budget_add _ _ _ _ _ (fblk V A bn)); [|exact Hb]; set_solver|]. split; [unfold avail in *; lia|done]. }
  eapply total_bind; [exact Hbm|]. cbv beta. clear Hbm. intros r s1 (n & V1 & A1 & tx1 & -> & Hn & Hf & R1 & [Hgr Hsame] & Hb1 & Ha1 & Hhit).
  assert (Hg1 : geometry sbk ds (length V1)) by (by rewrite (m_len _ _ _ _ _ _ Hgr)).
  pose proof (m_ok _ _ _ _ _ _ Hgr) as Hok1. pose proof (m_disk _ _ _ _ _ _ Hgr) as Hd1. pose proof law_limit as Hlim.
  destruct (fblk_data sbk ds V1 A1 bn Hg1 Hok1 Hbn) as [Hblk Hr]; [by rewrite Hf|]. rewrite Hf in Hblk, Hr.
  assert (Hdl : length (fdata V1 A1 bn) = BSIZE) by (by eapply fdata_length).
  assert (Hsz : size ({[n]} ∪ tx1) < bk_limit).
  { unfold budget in Hb1. assert (size ({[n]} ∪ tx1) <= size (X ∪ bitmap sbk ∪ ({[n]} ∪ tx1) ∪ ind_set A1)) by (apply subseteq_size; set_solver). lia. }
  assert (Hsz1 : size tx1 < bk_limit) by (eapply size_le; [|exact Hsz]; set_solver).
  apply (with_block s1 (calm V1 tx1 _) n _ _ _ R1 Hblk); [set_solver|unfold room; simpl; rewrite dom_empty_L, union_empty_r_L; lia|].
  intros b s2 R2. eapply put_back_then; [exact R2|set_solver|set_solver|by eapply g_data|done|].
  intros s3 R3. set (d' := splice (off mod BSIZE) bs (fdata V1 A1 bn)) in *.
  assert (Hd'l : length d' = BSIZE) by (unfold d'; rewrite splice_length; [done|rewrite Hdl; clear -Hlen; unfold BSIZE in *; lia]).
  assert (Hgr2 : grown sbk ds V1 A1 (<[n := d']> V1) A1) by (rewrite <- Hf; apply data_grown; try done; by rewrite Hf).
  apply (HK s3 (<[n := d']> V1) A1 ({[n]} ∪ tx1)); [exact R3| |by eapply grown_trans| | |done].
  - split; [by rewrite length_insert|apply Hgr2|apply Hgr2|done|]. unfold avail in *. etransitivity; [exact Ha1|].
    apply subseteq_size. intros m. rewrite !elem_of_free. intros [Hm Hma]. split; [done|]. rewrite <- Hf, (data_alloc sbk ds); try done. by rewrite Hf.
  - eapply (patch_block V A _ _ off bs (fdata V1 A1 bn)); [done|done|by rewrite Hsame|]. intros bn' Hbn'. fold bn.
    rewrite <- Hf, (data_fdata sbk ds) by (try done; by rewrite Hf). case_decide; [done|]. by apply Hsame.
  - unfold fblk. rewrite <- Hf, (data_slot sbk ds); try done; fold (fblk V1 A1 bn); by rewrite Hf.
Qed.

Lemma mappable_le X V A tx k k' : k' <= k -> mappable X V A tx k -> mappable X V A tx k'.
Proof using Type. intros Hk [? ? ? Hb Ha]. split; try done; unfold budget, avail in *; lia. Qed.

Lemma fblk_keep V A V' A' bn : grown sbk ds V A V' A' -> bn < NDIRECT + NINDIRECT -> fblk V A bn <> 0 -> fblk V' A' bn <> 0.
Proof using Type.
  intros H Hbn Hz. unfold fblk in *. destruct (slot_of_lt bn Hbn) as [Hs _]. by rewrite (m_keep _ _ _ _ _ _ H).
Qed.

(** What the loop of [writei] has done when it has written [bs] at [off]. *)
Definition loop_post (X : gset nat) (ip : nat) (i : inode) (ic : list inode) V A off bs (r : Z) (s' : fs St) : Prop :=
  exists V' A' tx', r = Z.of_nat (off + length bs) /\ frep s' (calm V' tx' (<[ip := with_addrs A' i]> ic)) /\
    mappable X V' A' tx' 0 /\ grown sbk ds V A V' A' /\ patched V A off bs V' A' /\
    (forall p, off <= p < off + length bs -> fblk V' A' (p / BSIZE) <> 0) /\
    ((forall p, off <= p < off + length bs -> fblk V A (p / BSIZE) <> 0) -> A' = A).

Lemma writei_loop_ok s V A tx ic ip i X k src tot off n fuel :
  mappable X V A tx k -> (tot < n -> (off mod BSIZE + (n - tot) + 511) / BSIZE <= k) ->
  frep s (calm V tx ic) -> ic !! ip = Some i -> i_dev i = 1%Z -> i_addrs i = A ->
  tot <= n -> (Z.of_nat (off + (n - tot)) <= max_size)%Z -> n - tot <= fuel -> n - tot <= length src ->
  total (writei_loop ip src (Z.of_nat tot) (Z.of_nat off) (Z.of_nat n) fuel)
    (loop_post X ip i ic V A off (take (n - tot) src)) s.
Proof using Type.
  revert s V A tx ic i k src tot off.
  induction fuel as [|fuel IH]; intros s V A tx ic i k src tot off H Hk R Hi Hdev HA Htn Hmax Hfuel Hsrc; cbn [writei_loop].
  all: assert (Hend : ~ tot < n -> loop_post X ip i ic V A off (take (n - tot) src) (Z.of_nat off) s).
  1,3: intros Hge; replace (n - tot) with 0 by lia; exists V, A, tx; rewrite with_addrs_id by done; simpl; rewrite Nat.add_0_r;
    (split; [done|]); (split; [done|]); (split; [eapply mappable_le; [|exact H]; lia|]); (split; [by apply grown_refl; apply H|]);
    (split; [apply patched_refl|]); (split; [intros p Hp; lia|done]).
  { rewrite (proj2 (Z.ltb_ge _ _)) by lia. apply total_ret, Hend. lia. }
  destruct (decide (tot < n)) as [Hlt|Hge]; [|rewrite (proj2 (Z.ltb_ge _ _)) by lia; by apply total_ret, Hend].
  clear Hend. rewrite (proj2 (Z.ltb_lt _ _)) by lia. eapply iat_bind; [exact R|exact Hi|]. cbv zeta.
  specialize (Hk Hlt). pose proof (nblocks_pos off (n - tot)) as Hpos. rewrite off_div, off_mod.
  destruct (chunk_spec n tot off Hlt) as (m & -> & Hm & Hmb & Hms). rewrite Hdev, !Nat2Z.id.
  destruct k as [|k]; [exfalso; clear -Hk Hpos Hlt; specialize (Hpos ltac:(lia)); lia|].
  assert (Hlen : length (take m src) = m) by (rewrite length_take; clear -Hm Hsrc; lia).
  eapply (write_chunk_ok _ _ s V A tx ic ip i X k off (take m src) H R Hi Hdev HA);
    [clear -Hmax Hlt; lia|by rewrite Hlen|].
  intros s1 V1 A1 tx1 R1 H1 Hgr1 Hp1 Hf1 HA1. rewrite <- !Nat2Z.inj_add.
  assert (Hmx : (Z.of_nat (off + m) <= max_size)%Z) by (clear -Hmax Hm; lia).
  assert (En : n - (tot + m) = n - tot - m) by (clear; lia).
  assert (Etk : take (n - tot) src = take m src ++ take (n - (tot + m)) (drop m src)).
  { rewrite take_take_drop. f_equal. clear -Hm. lia. }
  assert (Hin : forall p, off <= p < off + m -> p / BSIZE = off / BSIZE) by (intros p; by apply chunk_block).
  eapply total_mono; [apply (IH s1 V1 A1 tx1 (<[ip := with_addrs A1 i]> ic) (with_addrs A1 i) k (drop m src) (tot + m) (off + m) H1)|].
  - intros Hlt2. destruct Hms as [->|E]; [clear -Hlt2 Htn; lia|]. rewrite En.
    apply le_S_n. etransitivity; [apply (nblocks_step off (n - tot) m); [|apply Hm|exact E|]|exact Hk]; clear -Hlt2; lia.
  - exact R1.
  - apply list_lookup_insert_eq. by eapply lookup_lt_Some.
  - done.
  - done.
  - clear -Hm Htn. lia.
  - clear -Hmax Hm. lia.
  - clear -Hfuel Hm. lia.
  - rewrite length_drop. clear -Hsrc. lia.
  - cbv beta. intros r s' (V' & A' & tx' & -> & R' & H' & Hgr' & Hp' & Hc' & HA'). rewrite Etk. exists V', A', tx'.
    rewrite length_app, Hlen, Nat.add_assoc. split; [done|]. split; [by rewrite list_insert_insert_eq in R'|].
    split; [done|]. split; [by eapply grown_trans|]. split; [eapply patched_trans; [exact Hp1|by rewrite Hlen]|].
    assert (Hl2 : length (take (n - (tot + m)) (drop m src)) = n - tot - m) by (rewrite length_take, length_drop; clear -Hsrc; lia).
    rewrite Hl2 in *. split.
    + intros p Hp. destruct (decide (p < off + m)) as [Hpm|Hpm]; [|apply Hc'; clear -Hp Hpm; lia].
      rewrite Hin by (clear -Hp Hpm; lia). eapply fblk_keep; [exact Hgr'| |exact Hf1]. apply div_max. clear -Hmx Hp Hpm. lia.
    + intros Hall. assert (A1 = A) as ->. { apply HA1. apply (Hall off). clear -Hm. lia. }
      apply HA'. intros p Hp. eapply fblk_keep; [exact Hgr1| |apply Hall; clear -Hp; lia].
      apply div_max. clear -Hmax Hp Hm. lia.
Qed.
End Write.
