(* ===== verification/FsView.v ===== *)
(** * The disk as a set of files

    The inodes on the disk, the invariant that no block belongs to two of them
    and that the blocks of every file are allocated, and what [writei] does to
    the files: it changes the contents of one and of no other. *)
From stdpp Require Import gmap.
From S2P Require Import Prelude Bytes Bio BioSpec Log Blocks Fs FsAlloc FsInode FsFile FsRw FsWrite.
Local Open Scope nat_scope.

(** The inode of number [i] on the disk. *)
Definition dinode_on (sbk : superblock) (V : list block) (i : nat) : dinode := dinode_at (default [] (V !! inb sbk i)) i.

(** The contents of a file. *)
Definition contents (V : list block) (d : dinode) : list Z := file_bytes V (d_addrs d) 0 (Z.to_nat (d_size d)).

Section View.
Context {St : Type} {ops : BlockOps St} {laws : BlockLaws St}.
Context (sbk : superblock) (ds : nat).
Notation inode_ok := (inode_ok sbk ds).
Notation calm := (calm sbk).

Definition in_range (i : nat) : Prop := (Z.of_nat i < sb_ninodes sbk)%Z.
Definition live (D : nat -> dinode) (i : nat) : Prop := in_range i /\ d_type (D i) <> 0%Z.

(** A file whose blocks are all there. *)
Record file_ok (V : list block) (d : dinode) : Prop := {
  fo_fields : dinode_ok d;
  fo_inode : inode_ok V (d_addrs d);
  fo_size : (0 <= d_size d <= max_size)%Z;
  fo_covered : covered V (d_addrs d) (Z.to_nat (d_size d))
}.

Record files_ok (V : list block) (D : nat -> dinode) : Prop := {
  fs_file i : live D i -> file_ok V (D i);
  fs_disjoint i j m : live D i -> live D j -> owns V (d_addrs (D i)) m -> owns V (d_addrs (D j)) m -> i = j
}.

Record fs_ok_of {home : nat -> Prop} (V : list block) : Prop := {
  fk_geo : geometry_of (home := home) sbk ds (length V);
  fk_disk : disk_ok_of (home := home) sbk ds V;
  fk_files : files_ok V (dinode_on sbk V)
}.
Notation fs_ok := (fs_ok_of (home := bk_home)).

(** ** Frames *)

(** A file is as it was when its own blocks are and they are still allocated. *)
Section Frame.
Context (V V' : list block) (A : list Z).
Context (Hi : inode_ok V A) (Hsame : forall m, owns V A m -> V' !! m = V !! m)
  (Halloc : forall m, m < fsize sbk -> allocated sbk V m = true -> allocated sbk V' m = true).

Lemma frame_ind : dir_addr A NDIRECT <> 0 -> V' !! dir_addr A NDIRECT = V !! dir_addr A NDIRECT.
Proof using All. intros Hz. apply Hsame. split; [done|]. exists NDIRECT. split; [apply slot_lt_28|by rewrite slot_ind]. Qed.

Lemma frame_slot k : slot V' A k = slot V A k.
Proof using All. unfold slot. case_decide; [done|]. case_decide; [done|]. unfold ind_entry. by rewrite frame_ind. Qed.

Lemma frame_fdata bn : bn < NDIRECT + NINDIRECT -> fdata V' A bn = fdata V A bn.
Proof using All.
  intros Hbn. assert (E : fblk V' A bn = fblk V A bn) by apply frame_slot. unfold fdata. rewrite E. case_decide as Hz; [done|].
  rewrite Hsame; [done|]. split; [done|]. exists (slot_of bn). split; [by apply slot_of_lt|done].
Qed.

Lemma frame_inode : inode_ok V' A.
Proof using All.
  destruct Hi as [H1 H2 H3 H4 H5]. split; try done.
  - intros d j Hz Hd. rewrite frame_ind in Hd by done. by apply H3.
  - intros k k'. rewrite !frame_slot. apply H4.
  - intros k Hk. rewrite frame_slot. intros Hz. destruct (H5 k Hk Hz) as [Hr Ha]. split; [done|]. apply Halloc; [apply Hr|done].
Qed.

Lemma frame_owns m : owns V' A m <-> owns V A m.
Proof using All. unfold owns. split; intros (H0 & k & Hk & E); (split; [done|]); exists k; (split; [done|]); by rewrite <- E, frame_slot. Qed.
End Frame.

Lemma bytes_ext V A V' A' off n :
  (forall bn, bn < NDIRECT + NINDIRECT -> fdata V' A' bn = fdata V A bn) -> (Z.of_nat (off + n) <= max_size)%Z ->
  file_bytes V' A' off n = file_bytes V A off n.
Proof using Type.
  intros H Hn. apply list_fmap_ext. intros i p Hp. apply lookup_seq in Hp as [-> Hp]. unfold fbyte. rewrite H; [done|].
  apply div_max. lia.
Qed.

Lemma frame_file V V' d :
  file_ok V d -> (forall m, owns V (d_addrs d) m -> V' !! m = V !! m) ->
  (forall m, m < fsize sbk -> allocated sbk V m = true -> allocated sbk V' m = true) ->
  file_ok V' d /\ contents V' d = contents V d.
Proof.
  intros [Hf Hi Hs Hc] Hsame Ha. split; [split; try done|].
  - by eapply frame_inode.
  - intros bn Hbn. unfold fblk. rewrite (frame_slot V V') by done. by apply Hc.
  - unfold contents. apply bytes_ext; [|lia]. intros bn Hbn. by apply (frame_fdata V V').
Qed.

(** The blocks of files are data blocks. *)
Lemma owns_range V A m : inode_ok V A -> owns V A m -> ds <= m < fsize sbk /\ allocated sbk V m = true.
Proof. intros Hi (Hz & k & Hk & <-). by apply (n_range _ _ _ _ Hi). Qed.

Lemma inb_not_bitmap len i : geometry sbk ds len -> in_range i -> inb sbk i ∉ bitmap sbk.
Proof.
  intros Hg Hi (m & E & Hm)%elem_of_list_to_set%list_elem_of_fmap. apply elem_of_seq in Hm. destruct (g_disj _ _ _ Hg i m); [done|lia|done].
Qed.

(** ** An inode is written to the disk *)

Section Meta.
Context (V : list block) (D : nat -> dinode) (m : nat) (b : block).
Context (Hg : geometry sbk ds (length V)) (Hd : disk_ok sbk ds V) (Hf : files_ok V D)
  (Hm : m < ds) (Hb : m ∉ bitmap sbk) (Hlen : length b = BSIZE).

Lemma meta_alloc x : x < fsize sbk -> allocated sbk (<[m := b]> V) x = allocated sbk V x.
Proof using All. intros Hx. apply allocated_write. intros ->. apply Hb. by apply bmb_bitmap. Qed.

Lemma meta_same i x : live D i -> owns V (d_addrs (D i)) x -> <[m := b]> V !! x = V !! x.
Proof using All.
  intros Hi Ho. destruct (owns_range _ _ _ (fo_inode _ _ (fs_file _ _ Hf i Hi)) Ho). apply list_lookup_insert_ne. lia.
Qed.

Lemma meta_file i : live D i -> file_ok (<[m := b]> V) (D i) /\ contents (<[m := b]> V) (D i) = contents V (D i).
Proof using All.
  intros Hi. apply frame_file; [by apply Hf|by intros x; apply (meta_same i)|]. intros x Hx. by rewrite meta_alloc.
Qed.

Lemma meta_files : files_ok (<[m := b]> V) D.
Proof using All.
  assert (Ho : forall i x, live D i -> owns (<[m := b]> V) (d_addrs (D i)) x <-> owns V (d_addrs (D i)) x).
  { intros i x Hi. apply frame_owns; [by apply Hf|by intros y; apply (meta_same i)|]. intros y Hy. by rewrite meta_alloc. }
  split; [intros i Hi; by apply meta_file|]. intros i j x Hi Hj. rewrite !Ho by done. by apply (fs_disjoint _ _ Hf).
Qed.
End Meta.

Lemma inb_same i j : (0 <= sb_inodestart sbk)%Z -> inb sbk i = inb sbk j -> (Z.of_nat i / 4 = Z.of_nat j / 4)%Z.
Proof using Type. unfold inb, IBLOCK, IPB. lia. Qed.

Lemma dinode_on_write V inum d b j :
  geometry sbk ds (length V) -> V !! inb sbk inum = Some b -> length b = BSIZE -> dinode_ok d ->
  dinode_on sbk (<[inb sbk inum := encode_dinode (dinode_off (Z.of_nat inum)) d b]> V) j = if decide (j = inum) then d else dinode_on sbk V j.
Proof.
  intros Hg Hb Hl Hd. unfold dinode_on. destruct (decide (inb sbk inum = inb sbk j)) as [E|E].
  - rewrite <- E, list_lookup_insert_eq, Hb by (by eapply lookup_lt_Some). cbn [default from_option id]. case_decide as Ej.
    + subst j. unfold dinode_at. apply encode_decode; [rewrite Hl; apply dinode_off_bound|apply Hd|done].
    + apply dinode_other; [done|apply Hd|]. pose proof (inb_same _ _ (proj2 (proj2 (g_nonneg _ _ _ Hg))) E). lia.
  - rewrite list_lookup_insert_ne by done. by rewrite decide_False by congruence.
Qed.

Lemma iupdate_ok s V tx ic ip i inum b :
  geometry sbk ds (length V) -> frep s (calm V tx ic) -> ic !! ip = Some i -> i_dev i = 1%Z -> i_inum i = Z.of_nat inum ->
  in_range inum -> V !! inb sbk inum = Some b -> size tx < bk_limit ->
  total (iupdate ip) (fun _ s' => frep s'
    (calm (<[inb sbk inum := encode_dinode (dinode_off (Z.of_nat inum)) (dinode_of i) b]> V) ({[inb sbk inum]} ∪ tx) ic)) s.
Proof.
  intros Hg R Hi Hdev Hin Hr Hb Hs. unfold iupdate. eapply iat_bind; [exact R|exact Hi|]. eapply sb_bind; [exact R|].
  rewrite Hdev, Hin. replace (IBLOCK (Z.of_nat inum) (a_sb (calm V tx ic))) with (Z.of_nat (inb sbk inum)).
  2: { unfold inb. rewrite Z2Nat.id; [done|]. destruct (g_nonneg _ _ _ Hg) as (_ & _ & ?). unfold IBLOCK, IPB. lia. }
  pose proof law_limit. apply (with_block s (calm V tx ic) _ b _ _ R Hb); [set_solver|unfold room; simpl; rewrite dom_empty_L, union_empty_r_L; lia|].
  intros bp s1 R1. apply (put_back_ok s1 (calm V tx ic) (inb sbk inum) bp); [exact R1|set_solver|set_solver|by apply (g_in _ _ _ Hg)|done].
Qed.

(** ** A file grows *)

Section Grow.
Context (V : list block) (D : nat -> dinode) (inum : nat) (V' : list block) (d' : dinode).
Context (Hg : geometry sbk ds (length V)) (Hd : disk_ok sbk ds V) (Hf : files_ok V D) (Hl : live D inum)
  (Hgr : grown sbk ds V (d_addrs (D inum)) V' (d_addrs d'))
  (Hfields : dinode_ok d') (Hsize : (0 <= d_size d' <= max_size)%Z) (Hcov : covered V' (d_addrs d') (Z.to_nat (d_size d'))).

Lemma other_blocks j m : live D j -> j <> inum -> owns V (d_addrs (D j)) m -> V' !! m = V !! m.
Proof using Hg Hf Hl Hgr.
  intros Hj Hne Ho. destruct (owns_range _ _ _ (fo_inode _ _ (fs_file _ _ Hf j Hj)) Ho) as [Hr Ha].
  apply (m_frame _ _ _ _ _ _ Hgr); [eapply not_bitmap; [exact Hg|apply Hr]| |done].
  intros Ho'. apply Hne. by eapply (fs_disjoint _ _ Hf).
Qed.

Lemma other_file j : live D j -> j <> inum -> file_ok V' (D j) /\ contents V' (D j) = contents V (D j).
Proof using Hg Hf Hl Hgr.
  intros Hj Hne. apply frame_file; [by apply Hf|by intros m; apply other_blocks|]. intros m Hm. by apply (m_alloc _ _ _ _ _ _ Hgr).
Qed.

Lemma other_owns j m : live D j -> j <> inum -> owns V' (d_addrs (D j)) m <-> owns V (d_addrs (D j)) m.
Proof using Hg Hf Hl Hgr. 
  intros Hj Hne. apply frame_owns; [by apply Hf|by intros m'; apply other_blocks|].
  intros m' Hm. by apply (m_alloc _ _ _ _ _ _ Hgr).
Qed.

Lemma grow_files : files_ok V' (fun j => if decide (j = inum) then d' else D j).
Proof using All.
  assert (Hlive : forall j, live (fun j => if decide (j = inum) then d' else D j) j -> live D j).
  { intros j [Hr Ht]. destruct (decide (j = inum)) as [->|]; [done|]. by split. }
  assert (Hx : forall j m, live D j -> j <> inum -> owns V' (d_addrs d') m -> owns V' (d_addrs (D j)) m -> False).
  { intros j m Hj Hne H1 H2. rewrite other_owns in H2 by done.
    destruct (m_own _ _ _ _ _ _ Hgr m H1) as [H3|[_ H3]]; [apply Hne; by eapply (fs_disjoint _ _ Hf)|].
    destruct (owns_range _ _ _ (fo_inode _ _ (fs_file _ _ Hf j Hj)) H2). congruence. }
  split.
  - intros j Hj. pose proof (Hlive j Hj). case_decide as E; [|by apply other_file].
    split; try done. apply Hgr.
  - intros j k m Hj Hk Ho Ho'. pose proof (Hlive j Hj). pose proof (Hlive k Hk). 
    destruct (decide (j = inum)) as [Ej|Nj], (decide (k = inum)) as [Ek|Nk].
    + congruence.
    + exfalso. by eapply (Hx k m).
    + exfalso. by eapply (Hx j m).
    + rewrite other_owns in Ho, Ho' by done. by eapply (fs_disjoint _ _ Hf).
Qed.

Lemma grow_dinodes j : in_range j -> dinode_on sbk V' j = dinode_on sbk V j.
Proof using Hg Hd Hf Hl Hgr.
  intros Hj. destruct (g_in _ _ _ Hg j Hj) as [Hlt _]. unfold dinode_on. do 2 f_equal. apply (m_frame _ _ _ _ _ _ Hgr).
  - by eapply inb_not_bitmap.
  - intros Ho. destruct (owns_range _ _ _ (fo_inode _ _ (fs_file _ _ Hf inum Hl)) Ho). lia.
  - intros _. by apply (k_meta _ _ _ Hd).
Qed.
End Grow.

(** ** [writei] *)

Lemma file_bytes_lookup V A off n i :
  file_bytes V A off n !! i = if decide (i < n) then Some (fbyte V A (off + i)) else None.
Proof using Type.
  unfold file_bytes. rewrite list_lookup_fmap. case_decide; [by rewrite lookup_seq_lt|by rewrite lookup_seq_ge by lia].
Qed.

Lemma patched_contents V A sz off bs V' A' :
  patched V A off bs V' A' -> off <= sz -> (Z.of_nat sz <= max_size)%Z -> (Z.of_nat (off + length bs) <= max_size)%Z ->
  file_bytes V' A' 0 (sz `max` (off + length bs)) = splice off bs (file_bytes V A 0 sz).
Proof using Type.
  intros Hp Ho Hs Hm. apply list_eq. intros i. rewrite file_bytes_lookup. unfold splice.
  assert (Hl : length (take off (file_bytes V A 0 sz)) = off) by (rewrite length_take, file_bytes_length; lia).
  destruct (decide (i < off)) as [H1|H1]; [|destruct (decide (i < off + length bs)) as [H2|H2]].
  - rewrite lookup_app_l, lookup_take_lt, file_bytes_lookup by lia. rewrite !decide_True by lia. simpl.
    rewrite Hp by lia. by rewrite decide_False by lia.
  - rewrite lookup_app_r, lookup_app_l by lia. rewrite Hl, decide_True by lia. simpl. rewrite Hp, decide_True by lia.
    by destruct (lookup_lt_is_Some_2 bs (i - off)) as [x ->]; [lia|].
  - rewrite lookup_app_r, lookup_app_r by lia. rewrite Hl, lookup_drop, file_bytes_lookup. simpl.
    replace (off + length bs + (i - off - length bs)) with i by lia. repeat case_decide; try lia; [|done].
    rewrite Hp, decide_False by lia. done.
Qed.

(** The number of blocks that [n] bytes at [off] touch, at most. *)
Definition nblocks (off n : nat) : nat := (off mod BSIZE + n + 511) / BSIZE.

(** The cached inode [i] is that of file [inum]. *)
Record cached_as (V : list block) (inum : nat) (i : inode) : Prop := {
  ca_dev : i_dev i = 1%Z;
  ca_inum : i_inum i = Z.of_nat inum;
  ca_type : i_type i <> T_DEV;
  ca_live : live (dinode_on sbk V) inum;
  ca_sync : dinode_on sbk V inum = dinode_of i
}.

(** The files after a write of [bs] at [off] to the file [inum]. *)
Record written_of {home : nat -> Prop} (V : list block) (inum : nat) (i : inode) (off : nat) (bs : list Z) (V' : list block) (i' : inode) : Prop := {
  w_ok : fs_ok_of (home := home) V';
  w_cached : cached_as V' inum i';
  w_fields : i' = with_size (Z.max (i_size i) (Z.of_nat (off + length bs))) (with_addrs (i_addrs i') i);
  w_contents : contents V' (dinode_of i') = splice off bs (contents V (dinode_of i));
  w_others j : live (dinode_on sbk V) j -> j <> inum ->
    dinode_on sbk V' j = dinode_on sbk V j /\ contents V' (dinode_on sbk V' j) = contents V (dinode_on sbk V j)
}.
Notation written := (written_of (home := bk_home)).

Lemma files_ok_ext V D1 D2 : (forall j, in_range j -> D1 j = D2 j) -> files_ok V D1 -> files_ok V D2.
Proof using Type.
  intros H [H1 H2]. assert (Hl : forall j, live D2 j -> live D1 j) by (intros j [Hr Ht]; split; [done|by rewrite H]). split.
  - intros j Hj. pose proof (Hl j Hj) as Hj'. rewrite <- H by apply Hj. by apply H1.
  - intros j k m Hj Hk. rewrite <- !H by (apply Hj || apply Hk). apply H2; auto.
Qed.

Section Written.
Context (V : list block) (inum : nat) (i : inode) (off : nat) (bs : list Z) (V' : list block) (A' : list Z) (sz' : Z).
Context (Hok : fs_ok V) (Hc : cached_as V inum i) (Hoff : (Z.of_nat off <= i_size i)%Z)
  (Hmax : (Z.of_nat (off + length bs) <= max_size)%Z)
  (Hgr : grown sbk ds V (i_addrs i) V' A') (Hp : patched V (i_addrs i) off bs V' A')
  (Hcov : forall p, off <= p < off + length bs -> fblk V' A' (p / BSIZE) <> 0)
  (Hsz : sz' = Z.max (i_size i) (Z.of_nat (off + length bs))).
Let i' := with_size sz' (with_addrs A' i).
Let D := dinode_on sbk V.
Let D' := fun j => if decide (j = inum) then dinode_of i' else D j.

Lemma w_file : file_ok V (dinode_of i).
Proof using Hok Hc. rewrite <- (ca_sync _ _ _ Hc). apply (fs_file _ _ (fk_files _ Hok)), Hc. Qed.

Lemma w_size : (0 <= sz' <= max_size)%Z.
Proof using All. destruct (fo_size _ _ w_file) as [H1 H2]. simpl in H1, H2. lia. Qed.

Lemma w_covered : covered V' A' (Z.to_nat sz').
Proof using All.
  intros bn Hbn. assert (Hb : bn < NDIRECT + NINDIRECT).
  { pose proof w_size. apply div_max' in Hbn; [done|]. lia. }
  destruct (decide (bn * BSIZE < Z.to_nat (i_size i))) as [Hlt|Hge].
  - eapply fblk_keep; [exact Hgr|done|]. by apply (fo_covered _ _ w_file).
  - rewrite <- (Nat.div_mul bn BSIZE) by done. apply Hcov. clear -Hbn Hge Hsz Hoff. lia.
Qed.

Lemma w_dinode_ok : dinode_ok (dinode_of i').
Proof using All.
  pose proof w_size as Hs. destruct (fo_fields _ _ w_file) as [H1 H2 H3 H4 H5 H6 H7]. pose proof (m_ok _ _ _ _ _ _ Hgr) as Hi'.
  split; try done; simpl.
  - apply u32_id. lia.
  - apply Hi'.
  - intros x Hx. apply u32_id. by apply (n_addr _ _ _ _ Hi').
Qed.

Lemma w_files : files_ok V' D'.
Proof using All.
  unfold D'. apply (grow_files V D inum V' (dinode_of i')); try apply Hok.
  - apply Hc.
  - unfold D. by rewrite (ca_sync _ _ _ Hc).
  - apply w_dinode_ok.
  - apply w_size.
  - apply w_covered.
Qed.

Lemma w_other_file j : live D j -> j <> inum -> contents V' (D j) = contents V (D j).
Proof using All.
  intros Hj Hne. apply (other_file V D inum V' (dinode_of i')); try done; try apply Hok; [apply Hc|].
  unfold D. by rewrite (ca_sync _ _ _ Hc).
Qed.

Lemma w_new_contents : contents V' (dinode_of i') = splice off bs (contents V (dinode_of i)).
Proof using All.
  destruct (fo_size _ _ w_file) as [H1 H2]. simpl in H1, H2. unfold contents. simpl.
  rewrite <- (patched_contents V (i_addrs i) (Z.to_nat (i_size i)) off bs V' A'); [f_equal; lia|done|lia|lia|lia].
Qed.

(** The inode is written back. *)
Lemma written_back b :
  V' !! inb sbk inum = Some b ->
  written V inum i off bs (<[inb sbk inum := encode_dinode (dinode_off (Z.of_nat inum)) (dinode_of i') b]> V') i'.
Proof using All.
  intros Hb. set (V'' := <[inb sbk inum := _]> V').
  assert (Hg' : geometry sbk ds (length V')) by (rewrite (m_len _ _ _ _ _ _ Hgr); apply Hok).
  pose proof (m_disk _ _ _ _ _ _ Hgr) as Hd'. pose proof (ca_live _ _ _ Hc) as Hl.
  destruct (g_in _ _ _ Hg' inum) as [Hlt Hhome]; [apply Hl|]. assert (Hbl : length b = BSIZE) by (by eapply (k_bsize _ _ _ Hd')).
  assert (Hnb : inb sbk inum ∉ bitmap sbk) by (eapply inb_not_bitmap; [exact Hg'|apply Hl]).
  assert (Hel : length (encode_dinode (dinode_off (Z.of_nat inum)) (dinode_of i') b) = BSIZE).
  { rewrite encode_dinode_length; [done|rewrite Hbl; apply dinode_off_bound|apply w_dinode_ok]. }
  assert (HD : forall j, in_range j -> dinode_on sbk V'' j = D' j).
  { intros j Hj. unfold V''. rewrite dinode_on_write by (done || apply w_dinode_ok). unfold D'. case_decide; [done|].
    apply (grow_dinodes V D inum V' (dinode_of i')); try done; try apply Hok. unfold D. by rewrite (ca_sync _ _ _ Hc). }
  assert (Hlive : forall j, live D j <-> live D' j).
  { intros j. unfold live, D'. case_decide as E; [|done]. subst j. unfold D. rewrite (ca_sync _ _ _ Hc). done. }
  assert (Hfile : forall j, live D' j -> file_ok V'' (D' j) /\ contents V'' (D' j) = contents V' (D' j)).
  { intros j Hj. apply meta_file; try done. apply w_files. }
  assert (HDi : D' inum = dinode_of i') by (unfold D'; by rewrite decide_True).
  split.
  - split; [unfold V''; by rewrite length_insert|by apply disk_ok_write|]. apply (files_ok_ext _ D'); [|apply meta_files; try done; apply w_files].
    intros j Hj. by rewrite HD.
  - split; try apply Hc.
    + split; [apply Hl|]. rewrite HD by apply Hl. apply Hlive in Hl. apply Hl.
    + rewrite HD by apply Hl. done.
  - unfold i'. by rewrite Hsz.
  - rewrite <- HDi. rewrite (proj2 (Hfile inum (proj1 (Hlive _) Hl))), HDi. apply w_new_contents.
  - intros j Hj Hne. fold D in Hj. rewrite HD by apply Hj. assert (E : D' j = D j) by (unfold D'; by rewrite decide_False).
    split; [done|]. rewrite (proj2 (Hfile j (proj1 (Hlive _) Hj))), E. by apply w_other_file.
Qed.

(** The inode did not change. *)
Lemma written_same : i' = i -> written V inum i off bs V' i'.
Proof using All.
  intros Ei. assert (HD : forall j, in_range j -> dinode_on sbk V' j = D j).
  { intros j Hj. apply (grow_dinodes V D inum V' (dinode_of i')); try done; try apply Hok; [apply Hc|]. unfold D. by rewrite (ca_sync _ _ _ Hc). }
  assert (HD' : forall j, D' j = D j).
  { intros j. unfold D'. case_decide as E; [|done]. subst j. unfold D. by rewrite Ei, (ca_sync _ _ _ Hc). }
  pose proof (ca_live _ _ _ Hc) as Hl. split.
  - split; [rewrite (m_len _ _ _ _ _ _ Hgr); apply Hok|apply Hgr|]. apply (files_ok_ext _ D'); [|apply w_files].
    intros j Hj. by rewrite HD, HD'.
  - rewrite Ei. split; try apply Hc; [|rewrite HD by apply Hl; apply Hc].
    split; [apply Hl|]. rewrite HD by apply Hl. apply Hl.
  - unfold i'. by rewrite Hsz.
  - apply w_new_contents.
  - intros j Hj Hne. rewrite HD by apply Hj. split; [done|]. by apply w_other_file.
Qed.
End Written.

(** [writei] refuses a hole, an overflow and a file that is too large. *)
Definition writei_rejects (i : inode) (off n : Z) : bool :=
  (i_size i <? off)%Z || (2 ^ 32 <=? off + n)%Z || (max_size <? off + n)%Z.

Definition writei_post (V : list block) (tx : gset nat) (ic : list inode) (ip inum : nat) (i : inode) (src : list Z) (off n : nat)
    (r : Z) (s' : fs St) : Prop :=
  if writei_rejects i (Z.of_nat off) (Z.of_nat n) then r = (-1)%Z /\ frep s' (calm V tx ic)
  else r = Z.of_nat n /\ exists V' tx' i', frep s' (calm V' tx' (<[ip := i']> ic)) /\ written V inum i off (take n src) V' i'.

Lemma writei_test i off n :
  (0 <= off < 2 ^ 32)%Z -> (0 <= n < 2 ^ 32)%Z ->
  (i_size i <? off)%Z || (u32 (off + n) <? off)%Z = (i_size i <? off)%Z || (2 ^ 32 <=? off + n)%Z /\
  ((2 ^ 32 <=? off + n)%Z = false -> u32 (off + n) = (off + n)%Z).
Proof using Type.
  intros Hoff Hn. destruct (Z.leb_spec (2 ^ 32) (off + n)) as [Hw|Hw].
  - split; [|done]. rewrite (proj2 (Z.ltb_lt (u32 (off + n)) off)) by (by apply u32_wrap). done.
  - rewrite u32_id by lia. split; [|done]. rewrite (proj2 (Z.ltb_ge (off + n) off)) by lia. done.
Qed.

(** What is left of [writei] after its loop. *)
Lemma writei_finish s V ic ip inum i src off n :
  fs_ok V -> cached_as V inum i -> (Z.of_nat off <= i_size i)%Z -> (Z.of_nat (off + n) <= max_size)%Z -> n <= length src -> ic !! ip = Some i ->
  forall r, loop_post sbk ds {[inb sbk inum]} ip i ic V (i_addrs i) off (take n src) r s ->
  total (j ← iat ip;
         when ((0 <? Z.of_nat n)%Z && (i_size j <? r)%Z) (iupd ip (with_size r);; iupdate ip);;
         mret (s32 (Z.of_nat n)))
    (fun r s' => r = Z.of_nat n /\ exists V' tx' i', frep s' (calm V' tx' (<[ip := i']> ic)) /\ written V inum i off (take n src) V' i') s.
Proof.
  intros Hok Hc Hoff Hmax Hsrc Hi r (V' & A' & tx' & -> & R & Hm & Hgr & Hp & Hcov & HA).
  assert (Hlen : length (take n src) = n) by (rewrite length_take; lia). rewrite Hlen in *.
  assert (Hs32 : s32 (Z.of_nat n) = Z.of_nat n) by (clear -Hmax; unfold s32; lia).
  set (i1 := with_addrs A' i). assert (Hi1 : <[ip := i1]> ic !! ip = Some i1) by (apply list_lookup_insert_eq; by eapply lookup_lt_Some).
  eapply iat_bind; [exact R|exact Hi1|]. rewrite Hs32. change (i_size i1) with (i_size i).
  destruct (Z.ltb_spec (i_size i) (Z.of_nat (off + n))) as [Hgt|Hle]; [rewrite (proj2 (Z.ltb_lt 0 _)) by lia|rewrite andb_false_r].
  - set (i' := with_size (Z.of_nat (off + n)) i1). cbn [andb when].
    pose proof (mp_geo _ _ _ _ _ _ _ Hm) as Hg'. pose proof (ca_live _ _ _ Hc) as Hl.
    destruct (g_in _ _ _ Hg' inum) as [Hlt _]; [apply Hl|].
    destruct (lookup_lt_is_Some_2 V' (inb sbk inum)) as [b Hb]; [pose proof (g_fit _ _ _ Hg'); lia|].
    eapply total_bind with (R := fun _ s' => frep s' (calm (<[inb sbk inum := encode_dinode (dinode_off (Z.of_nat inum)) (dinode_of i') b]> V')
      ({[inb sbk inum]} ∪ tx') (<[ip := i']> ic))).
    { eapply total_bind; [eapply (iupd_ok s _ ip i1 _ R Hi1)|]. cbv beta. intros _ s1 R1. simpl in R1. rewrite list_insert_insert_eq in R1. fold i' in R1.
      apply iupdate_ok; [done|exact R1|apply list_lookup_insert_eq; by eapply lookup_lt_Some|apply Hc|apply Hc|apply Hl|done|].
      pose proof (mp_budget _ _ _ _ _ _ _ Hm) as Hbu. unfold budget in Hbu.
      assert (size tx' <= size ({[inb sbk inum]} ∪ bitmap sbk ∪ tx' ∪ ind_set A')) by (apply subseteq_size; set_solver). lia. }
    cbv beta. intros _ s1 R1. apply total_ret. split; [done|]. eexists _, _, i'. split; [exact R1|].
    unfold i', i1. apply written_back; try done; rewrite ?Hlen; (done || lia).
  - cbn [when]. eapply total_bind with (R := fun _ s' => s' = s); [by apply total_ret|]. intros _ ? ->. apply total_ret. split; [done|].
    exists V', tx', i1. split; [exact R|]. assert (EA : A' = i_addrs i).
    { apply HA. intros p Hpp. apply (fo_covered _ _ (w_file V inum i Hok Hc)). apply div_covers. simpl. clear -Hpp Hle. lia. }
    assert (Ei : with_size (i_size i) (with_addrs A' i) = i) by (rewrite EA; by destruct i).
    assert (E1 : i1 = with_size (i_size i) (with_addrs A' i)) by (unfold i1; by destruct i).
    rewrite E1. apply written_same; try done; rewrite ?Hlen; try (done || lia).
Qed.

Lemma writei_ok (dev_write : dev_writer St) s V tx ic ip inum i src off n :
  fs_ok V -> cached_as V inum i -> frep s (calm V tx ic) -> ic !! ip = Some i ->
  (Z.of_nat off < 2 ^ 32)%Z -> (Z.of_nat n < 2 ^ 32)%Z -> n <= length src ->
  budget sbk {[inb sbk inum]} tx (i_addrs i) (nblocks off n) -> avail sbk V (i_addrs i) (nblocks off n) ->
  total (writei dev_write ip src (Z.of_nat off) (Z.of_nat n)) (writei_post V tx ic ip inum i src off n) s.
Proof.
  intros Hok Hc R Hi Hoff Hn Hsrc Hb Ha. unfold writei, writei_post, writei_rejects. eapply iat_bind; [exact R|exact Hi|].
  rewrite (proj2 (Z.eqb_neq _ _)) by apply Hc. destruct (writei_test i (Z.of_nat off) (Z.of_nat n)) as [-> Hu]; [lia|lia|].
  destruct ((i_size i <? Z.of_nat off)%Z || (2 ^ 32 <=? Z.of_nat off + Z.of_nat n)%Z) eqn:E; cbn [orb]; [by apply total_ret|].
  apply orb_false_iff in E as [E1 E2]. rewrite (Hu E2), max_size_eq. apply Z.ltb_ge in E1.
  destruct (Z.ltb_spec max_size (Z.of_nat off + Z.of_nat n)) as [|Hmax]; [by apply total_ret|]. clear E2 Hu.
  change 0%Z with (Z.of_nat 0) at 1. rewrite Nat2Z.id. pose proof (w_file V inum i Hok Hc) as Hf.
  eapply total_bind; [apply (writei_loop_ok sbk ds s V (i_addrs i) tx ic ip i {[inb sbk inum]} (nblocks off n) src 0 off n n)|].
  - split; try done; [apply Hok|apply Hok|apply Hf].
  - intros _. by rewrite Nat.sub_0_r.
  - done.
  - done.
  - apply Hc.
  - done.
  - lia.
  - lia.
  - lia.
  - lia.
  - cbv beta. intros r s1 Hl. rewrite Nat.sub_0_r in Hl. eapply writei_finish; try done. lia.
Qed.
End View.
