(* ===== verification/FsCall.v ===== *)
(** * File system calls as transactions

    A file system call brackets its work by [begin_op] and [end_op].  What is
    proved of the work against the interface of [Blocks] holds for the log on
    the buffer cache, and the call as a whole is atomic with respect to
    crashes. *)
From stdpp Require Import gmap.
From S2P Require Import Prelude Bytes Bio BioSpec Log LogCopy LogCrash LogClaims Blocks Fs FsAlloc FsInode FsFile FsRw FsWrite FsView.
Local Open Scope nat_scope.

(** ** Blocks outside the file system's part of the disk do not matter *)

Section Home.
Context {home : nat -> Prop} (sbk : superblock) (ds : nat) (V V' : list block).
Context (Hlen : length V' = length V) (Hsame : forall n, home n -> V' !! n = V !! n)
  (Hok : fs_ok_of (home := home) sbk ds V).

Lemma home_alloc n : n < fsize sbk -> allocated sbk V' n = allocated sbk V n.
Proof using All. intros Hn. unfold allocated. rewrite Hsame; [done|]. by apply (g_bm _ _ _ (fk_geo _ _ _ Hok)). Qed.

Lemma home_dinode j : in_range sbk j -> dinode_on sbk V' j = dinode_on sbk V j.
Proof using All. intros Hj. unfold dinode_on. rewrite Hsame; [done|]. by apply (g_in _ _ _ (fk_geo _ _ _ Hok)). Qed.

Lemma home_owned j m : live sbk (dinode_on sbk V) j -> owns V (d_addrs (dinode_on sbk V j)) m -> V' !! m = V !! m.
Proof using All.
  intros Hj Ho. apply Hsame. apply (g_data _ _ _ (fk_geo _ _ _ Hok)).
  by apply (owns_range sbk ds V _ m (fo_inode _ _ _ _ (fs_file _ _ _ _ (fk_files _ _ _ Hok) j Hj)) Ho).
Qed.

Lemma home_file j : live sbk (dinode_on sbk V) j ->
  file_ok sbk ds V' (dinode_on sbk V j) /\ contents V' (dinode_on sbk V j) = contents V (dinode_on sbk V j).
Proof using All.
  intros Hj. apply frame_file; [by apply Hok|by intros m; apply home_owned|]. intros m Hm. by rewrite home_alloc.
Qed.

Lemma home_live j : live sbk (dinode_on sbk V') j <-> live sbk (dinode_on sbk V) j.
Proof using All. split; intros [Hr Ht]; (split; [done|]); [rewrite <- home_dinode|rewrite home_dinode]; done. Qed.

Lemma fs_ok_home : fs_ok_of (home := home) sbk ds V'.
Proof using All.
  assert (Ho : forall j m, live sbk (dinode_on sbk V) j -> owns V' (d_addrs (dinode_on sbk V j)) m <-> owns V (d_addrs (dinode_on sbk V j)) m).
  { intros j m Hj. apply (frame_owns sbk ds); [by apply Hok|by intros x; apply home_owned|]. intros x Hx. by rewrite home_alloc. }
  destruct (Hok) as [Hg Hd Hf]. split.
  - by rewrite Hlen.
  - split; [intros n d Hn; rewrite Hsame by done; by apply (k_bsize _ _ _ Hd)|]. intros n Hn.
    rewrite home_alloc; [by apply (k_meta _ _ _ Hd)|]. pose proof (g_fit _ _ _ Hg). lia.
  - apply (files_ok_ext sbk ds V' (dinode_on sbk V)); [intros j Hj; by rewrite home_dinode|]. split.
    + intros j Hj. by apply home_file.
    + intros i j m Hi Hj. rewrite !Ho by done. by apply (fs_disjoint _ _ _ _ Hf).
Qed.
End Home.

(** ** Entering and leaving a transaction *)

Section Call.
Context (st sz : nat).

(** The transaction has begun and nothing has been written yet. *)
Lemma linv_log_state s p :
  linv st sz s p -> sp_tx p = [] -> sp_open p = 1 ->
  exists D, log_open sz D (l_log s) /\ D = disk (l_bio s) /\
    same_home st sz D (sp_cur p) /\ log_state st sz D (hist (l_bio s)) (l_log s) s ∅ D ∅ ∅.
Proof.
  intros H Htx Hop. destruct (i_ex _ _ _ _ H) as (a & Hd & Hdy & He & Hrec & Hs1 & Hs2). rewrite Htx in *.
  destruct (k_rep _ _ _ _ _ _ Hd) as [R Hg]. exists (c_disk a).
  assert (Hv : c_view a = c_disk a).
  { apply list_eq. intros n. eapply r_clean; [exact R|rewrite (k_idle _ _ _ _ _ _ Hd); set_solver|]. rewrite Hdy. set_solver. }
  split; [|split; [apply R|split; [by rewrite <- Hv|]]].
  - split; [apply H|rewrite (i_open _ _ _ _ H), Hop; lia|apply Hd].
  - exists a, (lh_block (l_log s)), []. split; try done.
    + split; [exact R|]. rewrite <- (k_n _ _ _ _ _ _ Hd). by destruct (l_log s).
    + split; [done|]. split; [done|]. apply R.
    + set_solver.
    + apply H.
    + apply Hd.
    + simpl. intros n Hn. by apply elem_of_nil in Hn.
    + simpl. lia.
Qed.

Lemma log_state_linv s p D s' V tx :
  linv st sz s p -> sp_tx p = [] -> sp_open p = 1 -> D = disk (l_bio s) ->
  log_state st sz D (hist (l_bio s)) (l_log s) s' ∅ V tx ∅ ->
  exists es, linv st sz s' (mkSpec (sp_disk p) V 1 es) /\ hist (l_bio s') = hist (l_bio s) /\ length V = length D /\ V !! 1 = D !! 1.
Proof.
  intros H Htx Hop HD (a' & bl & es & Hc). destruct (i_ex _ _ _ _ H) as (a & Hd & Hdy & He & Hrec & Hs1 & Hs2). rewrite Htx in *.
  destruct (k_rep _ _ _ _ _ _ Hd) as [R Hg]. destruct (c_rep _ _ _ _ _ _ _ _ _ _ _ _ _ Hc) as [R' Hg'].
  destruct (c_cache _ _ _ _ _ _ _ _ _ _ _ _ _ Hc) as (HV & HD' & HH'). assert (HDa : c_disk a = D) by (rewrite HD; apply R).
  pose proof (c_tx _ _ _ _ _ _ _ _ _ _ _ _ _ Hc) as Ht. exists es.
  assert (Hv : c_view a = c_disk a).
  { apply list_eq. intros n. eapply r_clean; [exact R|rewrite (k_idle _ _ _ _ _ _ Hd); set_solver|]. rewrite Hdy. set_solver. }
  assert (Hst : st ∉ es).
  { intros Hin. destruct (t_home _ _ _ Ht st Hin); [lia|]. pose proof (t_fits _ _ _ Ht). lia. }
  split; [|split; [by rewrite <- (r_hist _ _ _ R')|split]].
  2: { rewrite <- HV, <- HD'. exact (r_len _ _ _ R'). }
  2: { apply (c_clean _ _ _ _ _ _ _ _ _ _ _ _ _ Hc); [apply Ht|set_solver]. }
  split; simpl.
  - exists a'. split; [split; try (rewrite Hg'; simpl; apply Hd); try done|].
    + by rewrite (r_dom _ _ _ R'), dom_empty_L.
    + rewrite HD', <- HDa. apply Hd.
    + rewrite HD', <- HDa. apply Hd.
    + by rewrite Hg'.
    + rewrite Hg'. apply Hc.
    + intros n Hn. rewrite HD'. by apply (c_range _ _ _ _ _ _ _ _ _ _ _ _ _ Hc).
    + intros n Hn. apply (t_home _ _ _ Ht). by apply (c_dirtyes _ _ _ _ _ _ _ _ _ _ _ _ _ Hc).
    + apply (dirty_room _ es); [intros n Hn; by apply (c_dirtyes _ _ _ _ _ _ _ _ _ _ _ _ _ Hc)|].
      pose proof (c_max _ _ _ _ _ _ _ _ _ _ _ _ _ Hc). lia.
    + destruct (k_head _ _ _ _ _ _ Hd) as (b & Hb & Hl). exists b. split; [|done].
      rewrite HV, (c_clean _ _ _ _ _ _ _ _ _ _ _ _ _ Hc), <- HDa, <- Hv by (done || set_solver). done.
    + split; [apply Hc|]. rewrite HD', HV, <- HDa. split; [done|]. split; [done|]. split; [done|]. by split.
  - rewrite Hg'. simpl. rewrite (i_open _ _ _ _ H), Hop. done.
  - rewrite Hg'. simpl. apply H.
  - rewrite Hg'. simpl. apply H.
  - rewrite Hg'. simpl. apply Hc.
  - done.
Qed.
End Call.
