(* ===== verification/FsClaims.v ===== *)
(** * What the file system promises

    The claims about [fs.c]: reads and writes of files, the block allocator,
    the on-disk inode, paths; and the claim about a whole file system call on
    top of the log. *)
From stdpp Require Import gmap.
From S2P Require Import Prelude Bytes Bio BioSpec Log LogCopy LogCrash LogClaims Blocks Fs FsAlloc FsInode FsFile FsRw FsWrite FsView FsCall.
Local Open Scope nat_scope.

(** ** A call is a transaction *)

Lemma crash_safe_trans st sz s s1 s2 p p1 p2 :
  crash_safe st sz s s1 p p1 -> sp_disk p1 = sp_disk p -> crash_safe st sz s1 s2 p1 p2 -> crash_safe st sz s s2 p p2.
Proof.
  intros (n1 & H1 & Hc1) E (n2 & H2 & Hc2). exists (n2 ++ n1). rewrite H2, H1. split; [apply app_assoc|].
  intros D [HD|HD]%elem_of_app; [rewrite <- E; by apply Hc2|]. destruct (Hc1 D HD) as [Hr [Hs|Hs]]; (split; [done|]); left; [done|].
  by rewrite <- E.
Qed.

Section Atomic.
Context (st sz : nat) (sbk : superblock) (ds : nat) (D : list block) (inum : nat) (i : inode).
Context (Hok : fs_ok_of (home := log_home st sz) sbk ds D) (Hc : cached_as sbk D inum i).

(** The blocks of the log may be different. *)
Lemma cached_home D0 : same_home st sz D0 D -> fs_ok_of (home := log_home st sz) sbk ds D0 /\ cached_as sbk D0 inum i.
Proof using All.
  intros [Hl Hs]. assert (Hs' : forall n, log_home st sz n -> D0 !! n = D !! n) by (intros n [Hn _]; by apply Hs).
  split; [exact (fs_ok_home sbk ds D D0 Hl Hs' Hok)|]. split; try apply Hc.
  - apply (home_live sbk ds D D0 Hl Hs' Hok). apply Hc.
  - rewrite (home_dinode sbk ds D D0 Hl Hs' Hok); apply Hc.
Qed.

Lemma written_home D0 off bs V' i' :
  same_home st sz D0 D -> written_of (home := log_home st sz) sbk ds D0 inum i off bs V' i' ->
  written_of (home := log_home st sz) sbk ds D inum i off bs V' i'.
Proof using All.
  intros [Hl Hs] [H1 H2 H3 H4 H5]. assert (Hs' : forall n, log_home st sz n -> D0 !! n = D !! n) by (intros n [Hn _]; by apply Hs).
  assert (Hcont : forall j, live sbk (dinode_on sbk D) j -> contents D0 (dinode_on sbk D j) = contents D (dinode_on sbk D j)).
  { intros j Hj. by apply (home_file sbk ds D D0 Hl Hs' Hok). }
  split; try done.
  - rewrite H4, <- (ca_sync _ _ _ _ Hc). f_equal. apply Hcont, Hc.
  - intros j Hj Hne. rewrite <- (Hcont j Hj), <- (home_dinode sbk ds D D0 Hl Hs' Hok j) by apply Hj.
    apply H5; [|done]. by apply (home_live sbk ds D D0 Hl Hs' Hok).
Qed.
End Atomic.

Lemma free_home st sz sbk ds D D0 :
  fs_ok_of (home := log_home st sz) sbk ds D -> same_home st sz D0 D -> free_blocks sbk D0 = free_blocks sbk D.
Proof.
  intros Hok [Hl Hs]. assert (Hs' : forall n, log_home st sz n -> D0 !! n = D !! n) by (intros n [Hn _]; by apply Hs).
  apply set_eq. intros m. rewrite !elem_of_free. split; intros [Hm Ha]; (split; [done|]);
    pose proof (home_alloc sbk ds D D0 Hl Hs' Hok m Hm); congruence.
Qed.

(** [filewrite]'s transaction: the inode is locked for the write. *)
Definition write_call (dev_write : dev_writer lstate) (ip : nat) (src : list Z) (off n : Z) : M (fs lstate) Z :=
  blk begin_op;;
  ilock (Some ip);;
  r ← writei dev_write ip src off n;
  iunlock (Some ip);;
  blk end_op;;
  mret r.

(** [ilock] and [iunlock] of an inode that is in memory. *)
Definition in_memory (i : inode) : Prop := i_locked i = false /\ (1 <= i_ref i)%Z /\ i_valid i <> 0%Z.

Lemma ilock_cached (f : fs lstate) ip i : icache f !! ip = Some i -> in_memory i ->
  ilock (Some ip) f = Ret tt (mkFs (f_blk f) (f_sb f) (<[ip := with_locked true i]> (icache f))).
Proof.
  intros Hi (Hl & Hr & Hv). unfold ilock, mbind, M_bind, iat, acquire_inode. rewrite Hi.
  rewrite (proj2 (Z.ltb_ge (i_ref i) 1)) by done. unfold mbind, M_bind, iat. rewrite Hi, Hl.
  unfold iupd, modify. cbn [icache f_blk f_sb]. rewrite (alter_Some _ _ _ i Hi).
  rewrite list_lookup_insert_eq by (by eapply lookup_lt_Some). cbn [with_locked i_valid].
  by rewrite (proj2 (Z.eqb_neq _ _) Hv).
Qed.

Lemma iunlock_cached (f : fs lstate) ip i : icache f !! ip = Some i -> i_locked i = true -> (1 <= i_ref i)%Z ->
  iunlock (Some ip) f = Ret tt (mkFs (f_blk f) (f_sb f) (<[ip := with_locked false i]> (icache f))).
Proof.
  intros Hi Hl Hr. unfold iunlock, mbind, M_bind, iat. rewrite Hi, Hl.
  rewrite (proj2 (Z.ltb_ge (i_ref i) 1)) by done. unfold iupd, modify. cbn [negb orb]. by rewrite (alter_Some _ _ _ i Hi).
Qed.

Lemma cached_locked b sbk D inum i : cached_as sbk D inum i -> cached_as sbk D inum (with_locked b i).
Proof. by intros [? ? ? ? ?]. Qed.

(** What was written under the lock. *)
Lemma written_locked {home : nat -> Prop} sbk ds D inum i off bs D' i' : i_locked i = false ->
  written_of (home := home) sbk ds D inum (with_locked true i) off bs D' i' ->
  written_of (home := home) sbk ds D inum i off bs D' (with_locked false i').
Proof.
  intros Hl [H1 H2 H3 H4 H5]. split; [done|by apply cached_locked| |exact H4|exact H5].
  rewrite H3. destruct i. simpl in *. by subst.
Qed.

Lemma write_call_ok st sz sbk ds dev_write (f : fs lstate) D ip inum i src off n :
  linv st sz (f_blk f) (mkSpec D D 0 []) -> f_sb f = sbk -> icache f !! ip = Some i ->
  fs_ok_of (home := log_home st sz) sbk ds D -> cached_as sbk D inum i -> in_memory i ->
  writei_rejects i (Z.of_nat off) (Z.of_nat n) = false -> (Z.of_nat off < 2 ^ 32)%Z -> (Z.of_nat n < 2 ^ 32)%Z -> n <= length src ->
  size ({[inb sbk inum]} ∪ bitmap sbk ∪ ind_set (i_addrs i)) + ind_need (i_addrs i) + nblocks off n < log_limit sz ->
  ind_need (i_addrs i) + nblocks off n <= size (free_blocks sbk D) ->
  total (write_call dev_write ip src (Z.of_nat off) (Z.of_nat n)) (fun r f' => r = Z.of_nat n /\
    exists D' i', icache f' = <[ip := i']> (icache f) /\
      written_of (home := log_home st sz) sbk ds D inum i off (take n src) D' i' /\
      linv st sz (f_blk f') (mkSpec D' D' 0 []) /\ length D' = length D /\ (1 < st -> D' !! 1 = D !! 1) /\
      crash_safe st sz (f_blk f) (f_blk f') (mkSpec D D 0 []) (mkSpec D' D' 0 [])) f.
Proof.
  intros H Hsb Hip Hok Hc Hmem Hrej Hoff Hn Hsrc Hbud Hav. unfold write_call. set (p0 := mkSpec D D 0 []).
  set (p1 := mkSpec D D 1 []).
  apply (total_bind _ _ _ (fun _ f1 => linv st sz (f_blk f1) p1 /\ crash_safe st sz (f_blk f) (f_blk f1) p0 p1 /\
    f_sb f1 = sbk /\ icache f1 = icache f)).
  { eapply blk_total; [by apply (begin_ok st sz (f_blk f) p0 p1)|]. cbv beta. intros _ b [Hb1 Hb2]. done. }
  intros _ f1 (Hi1 & Hcs1 & Hsb1 & Hic1). rewrite <- Hic1 in Hip.
  set (il := with_locked true i). set (fl := mkFs (f_blk f1) (f_sb f1) (<[ip := il]> (icache f1))).
  apply (total_bind _ _ _ (fun _ f' => f' = fl)).
  { apply total_iff. exists tt, fl. split; [exact (ilock_cached f1 ip i Hip Hmem)|done]. }
  intros _ ? ->. apply (cached_locked true) in Hc. fold il in Hc. change (i_addrs i) with (i_addrs il) in *.
  assert (Hipl : icache fl !! ip = Some il) by (apply list_lookup_insert_eq; by eapply lookup_lt_Some).
  destruct (linv_log_state st sz (f_blk f1) p1 Hi1) as (D0 & Ho & HD0 & Hh & Hst); [done|done|].
  destruct (cached_home st sz sbk ds D inum il Hok Hc D0 Hh) as [Hok0 Hc0]. simpl in Hh.
  set (lw := log_laws st sz D0 (hist (l_bio (f_blk f1))) (l_log (f_blk f1)) Ho).
  assert (Hw : total (writei dev_write ip src (Z.of_nat off) (Z.of_nat n))
    (writei_post (laws := lw) sbk ds D0 ∅ (icache fl) ip inum il src off n) fl).
  { apply writei_ok; try done.
    - unfold budget. change bk_limit with (log_limit sz). by rewrite union_empty_r_L.
    - unfold avail. by rewrite (free_home st sz sbk ds D D0 Hok Hh). }
  eapply total_bind; [exact Hw|]. clear Hw. intros r f2. unfold writei_post. rewrite (Hrej : writei_rejects il _ _ = false).
  intros [-> (V' & tx' & i' & (R2 & Hsb2 & Hic2) & Hwr)].
  destruct (log_state_linv st sz (f_blk f1) p1 D0 (f_blk f2) V' tx' Hi1) as (es & Hi2 & Hh2 & Hl2 & H12); try done.
  assert (Hi' : i_locked i' = true /\ i_ref i' = i_ref i) by (by rewrite (w_fields _ _ _ _ _ _ _ _ _ Hwr)).
  set (f2u := mkFs (f_blk f2) (f_sb f2) (<[ip := with_locked false i']> (icache f2))).
  apply (total_bind _ _ _ (fun _ f' => f' = f2u)).
  { apply total_iff. exists tt, f2u. split; [|done]. destruct Hi' as [Hl1 Hr1], Hmem as (_ & Hr2 & _).
    apply iunlock_cached; [|done|by rewrite Hr1]. rewrite Hic2. apply list_lookup_insert_eq. exact (lookup_lt_Some _ _ _ Hipl). }
  intros _ ? ->. set (p3 := mkSpec V' V' 0 []).
  apply (total_bind _ _ _ (fun _ f3 => linv st sz (f_blk f3) p3 /\ crash_safe st sz (f_blk f2) (f_blk f3) (mkSpec D V' 1 es) p3 /\
    icache f3 = icache f2u)).
  { eapply blk_total; [by apply (end_ok st sz (f_blk f2) (mkSpec D V' 1 es) p3)|]. cbv beta. intros _ b [Hb1 Hb2]. done. }
  intros _ f3 (Hi3 & Hcs3 & Hic3). apply total_ret. split; [done|]. exists V', (with_locked false i').
  split; [rewrite Hic3; unfold f2u; cbn [icache]; rewrite Hic2; unfold fl, calm; cbn [icache a_ic]; by rewrite !list_insert_insert_eq, Hic1|].
  split; [apply written_locked; [apply Hmem|]; by apply (written_home st sz sbk ds D inum il Hok Hc D0)|]. split; [done|]. destruct Hh as [Hh1 Hh2'].
  split; [congruence|]. split; [intros Hst1; rewrite H12; apply Hh2'; by left|].
  eapply crash_safe_trans; [exact Hcs1|done|]. destruct Hcs3 as (new & E & Hall). exists new. rewrite E, Hh2. done.
Qed.

(** ** A small disk

    16 blocks: boot block, super block, a log of 8 blocks from block 2 on,
    inodes in block 10, bit map in block 11, data from block 12 on.  File 1 has
    five bytes in block 12, file 2 is empty. *)
Definition zeros : block := replicate BSIZE 0%Z.
Definition demo_sb : superblock := mkSb 16 4 3 8 2 10 11.
Definition demo_sb_block : block :=
  put32 0 16 (put32 4 4 (put32 8 3 (put32 12 8 (put32 16 2 (put32 20 10 (put32 24 11 zeros)))))).
Definition demo_file1 : dinode := mkDinode T_FILE 0 0 1 5 (12%Z :: replicate 28 0%Z).
Definition demo_file2 : dinode := mkDinode T_FILE 0 0 1 0 (replicate 29 0%Z).
Definition demo_inodes : block := encode_dinode (dinode_off 1) demo_file1 (encode_dinode (dinode_off 2) demo_file2 zeros).
Definition demo_fs : list block :=
  [zeros; demo_sb_block; zeros; zeros; zeros; zeros; zeros; zeros; zeros; zeros;
   demo_inodes; splice 0 [255; 31]%Z zeros; splice 0 [104; 101; 108; 108; 111]%Z zeros; zeros; zeros; zeros].

(** The cached inode of file 1. *)
Definition demo_inode (d : dinode) (inum : Z) : inode :=
  mkInode 1 inum 1 false 1 (d_type d) (d_major d) (d_minor d) (d_nlink d) (d_size d) (d_addrs d).

Lemma demo_inb j : in_range demo_sb j -> inb demo_sb j = 10.
Proof. unfold in_range, inb, IBLOCK, IPB. simpl. lia. Qed.

Lemma demo_bmb n : n < 16 -> bmb demo_sb n = 11.
Proof. unfold bmb, BBLOCK, BPB. simpl. lia. Qed.

Lemma demo_geometry (home : nat -> Prop) : (forall n, 10 <= n -> home n) -> geometry_of (home := home) demo_sb 12 (length demo_fs).
Proof.
  intros Hh. change (length demo_fs) with 16. split; simpl; try (change (fsize demo_sb) with 16); try lia.
  - intros n Hn. rewrite demo_bmb by done. split; [lia|]. apply Hh. lia.
  - intros j Hj. rewrite demo_inb by done. split; [lia|]. apply Hh. lia.
  - intros j n Hj Hn. rewrite demo_inb, demo_bmb by done. lia.
  - intros n Hn. apply Hh. lia.
Qed.

Lemma demo_disk_ok (home : nat -> Prop) : disk_ok_of (home := home) demo_sb 12 demo_fs.
Proof.
  assert (Hl : Forall (fun d => length d = BSIZE) demo_fs) by (apply (bool_decide_eq_true_1 _); vm_compute; reflexivity).
  assert (Hm : Forall (fun n => allocated demo_sb demo_fs n = true) (seq 0 12)) by (apply (bool_decide_eq_true_1 _); vm_compute; reflexivity).
  split.
  - intros n d _ Hd. by eapply (Forall_lookup_1 _ _ _ _ Hl).
  - intros n Hn. apply (Forall_lookup_1 _ _ n n Hm). by apply lookup_seq_lt.
Qed.

Lemma demo_slots : Forall (fun k => slot demo_fs (d_addrs demo_file1) k = (if decide (k = 0) then 12 else 0) /\
  slot demo_fs (d_addrs demo_file2) k = 0) (seq 0 NSLOT).
Proof. apply (bool_decide_eq_true_1 _). vm_compute. reflexivity. Qed.

Lemma demo_slot1 k : k < NSLOT -> slot demo_fs (d_addrs demo_file1) k = if decide (k = 0) then 12 else 0.
Proof. intros Hk. apply (Forall_lookup_1 _ _ k k demo_slots). by apply lookup_seq_lt. Qed.
Lemma demo_slot2 k : k < NSLOT -> slot demo_fs (d_addrs demo_file2) k = 0.
Proof. intros Hk. apply (Forall_lookup_1 _ _ k k demo_slots). by apply lookup_seq_lt. Qed.

Lemma demo_live j : live demo_sb (dinode_on demo_sb demo_fs) j -> j = 1 \/ j = 2.
Proof.
  intros [Hr Ht]. unfold in_range in Hr. simpl in Hr. destruct j as [|[|[|j]]]; [|auto|auto|lia]. exfalso. apply Ht. vm_compute. reflexivity.
Qed.

Lemma demo_dinode1 : dinode_on demo_sb demo_fs 1 = demo_file1.
Proof. vm_compute. reflexivity. Qed.
Lemma demo_dinode2 : dinode_on demo_sb demo_fs 2 = demo_file2.
Proof. vm_compute. reflexivity. Qed.

Lemma demo_file1_ok : file_ok demo_sb 12 demo_fs demo_file1.
Proof.
  split.
  - split; try done. intros x Hx. simpl in Hx. apply elem_of_cons in Hx as [->|Hx]; [done|].
    rewrite ?elem_of_cons in Hx. set_solver.
  - split.
    + done.
    + intros x Hx. apply elem_of_cons in Hx as [->|Hx]; [lia|]. apply elem_of_replicate in Hx as [-> _]. lia.
    + intros d j Hz. by destruct Hz.
    + intros k k' Hk Hk'. rewrite !demo_slot1 by done. repeat case_decide; congruence.
    + intros k Hk. rewrite demo_slot1 by done. case_decide; [|done]. intros _. split; [change (fsize demo_sb) with 16; lia|]. vm_compute. reflexivity.
  - simpl. lia.
  - intros bn Hbn. simpl in Hbn. assert (bn = 0) as -> by (unfold BSIZE in Hbn; lia). unfold fblk. rewrite demo_slot1; [done|]. vm_compute. lia.
Qed.

Lemma demo_file2_ok : file_ok demo_sb 12 demo_fs demo_file2.
Proof.
  split.
  - split; try done. intros x [-> _]%elem_of_replicate. done.
  - split.
    + done.
    + intros x [-> _]%elem_of_replicate. lia.
    + intros d j Hz. by destruct Hz.
    + intros k k' Hk Hk'. by rewrite demo_slot2.
    + intros k Hk. by rewrite demo_slot2.
  - simpl. lia.
  - intros bn Hbn. simpl in Hbn. lia.
Qed.

Lemma demo_fs_ok (home : nat -> Prop) : (forall n, 10 <= n -> home n) -> fs_ok_of (home := home) demo_sb 12 demo_fs.
Proof.
  intros Hh. split; [by apply demo_geometry|apply demo_disk_ok|]. split.
  - intros j [->| ->]%demo_live; rewrite ?demo_dinode1, ?demo_dinode2; [apply demo_file1_ok|apply demo_file2_ok].
  - assert (Hno : forall m, ~ owns demo_fs (d_addrs demo_file2) m) by (intros m (Hm & k & Hk & E); rewrite demo_slot2 in E by done; congruence).
    intros j k m [->| ->]%demo_live [->| ->]%demo_live; rewrite ?demo_dinode1, ?demo_dinode2; try done; intros H1 H2; exfalso; by eapply Hno.
Qed.

(** ** Claims *)

#[local] Opaque initlog write_call.

(** C3: a write to a file is atomic across crashes.  Mount a disk [D0] that a
    crash left behind, whose recovered contents are a consistent file system,
    and run a transaction of [filewrite], with the lock of the inode, for [n] bytes of [src] at [off] on a
    file that is in the inode cache.  If the blocks fit into the log and are
    free, the call returns [n]; the file then has exactly these bytes spliced
    into its contents, its inode is updated, every other file is as before and
    the file system is consistent again.  And if the machine crashes at any
    disk write of the call, or after it, and again any number of times during
    recovery, the next recovery completes with all of the change or with none
    of it. *)
Theorem write_call_atomic (st sz : nat) (D0 : list block) (sbk : superblock) (ds : nat) (dev_write : dev_writer lstate)
    (ic : list inode) (ip inum : nat) (i : inode) (src : list Z) (off n : nat)
  (Hst : 1 < st) (Hfit : st + sz <= length D0) (Hlen : (Z.of_nat (length D0) <= 2 ^ 31)%Z)
  (Hsb : sb_ok st sz D0) (Hrec : recoverable st sz D0) (Hip : ic !! ip = Some i)
  (Hok : fs_ok_of (home := log_home st sz) sbk ds (recovered st D0)) (Hc : cached_as sbk (recovered st D0) inum i) (Hmem : in_memory i)
  (Hrej : writei_rejects i (Z.of_nat off) (Z.of_nat n) = false)
  (Hoff : (Z.of_nat off < 2 ^ 32)%Z) (Hn : (Z.of_nat n < 2 ^ 32)%Z) (Hsrc : n <= length src)
  (Hlog : size ({[inb sbk inum]} ∪ bitmap sbk ∪ ind_set (i_addrs i)) + ind_need (i_addrs i) + nblocks off n < log_limit sz)
  (Hfree : ind_need (i_addrs i) + nblocks off n <= size (free_blocks sbk (recovered st D0))) :
  exists s f' D' i' new,
    initlog 1 (booted D0) = Ret tt s /\
    write_call dev_write ip src (Z.of_nat off) (Z.of_nat n) (mkFs s sbk ic) = Ret (Z.of_nat n) f' /\
    icache f' = <[ip := i']> ic /\
    written_of (home := log_home st sz) sbk ds (recovered st D0) inum i off (take n src) D' i' /\
    hist (l_bio (f_blk f')) = new ++ hist (l_bio s) /\
    forall Dc Dc', Dc ∈ disk (l_bio (f_blk f')) :: new -> crashes Dc Dc' ->
      exists s'', initlog 1 (booted Dc') = Ret tt s'' /\
        (same_home st sz (disk (l_bio s'')) (recovered st D0) \/ same_home st sz (disk (l_bio s'')) D').
Proof.
  pose proof (mount_ok st sz D0 Hst Hfit Hlen Hsb Hrec) as Hm.
  destruct (proj1 (total_iff _ _ _) Hm) as ([] & s & Hrun & Hi & _). clear Hm. set (D := recovered st D0) in *.
  pose proof (write_call_ok st sz sbk ds dev_write (mkFs s sbk ic) D ip inum i src off n Hi eq_refl Hip Hok Hc Hmem Hrej Hoff Hn Hsrc Hlog Hfree) as Hw.
  destruct (proj1 (total_iff _ _ _) Hw) as (r & f' & Hret & -> & D' & i' & Hic & Hwr & Hi' & Hl' & H1 & new & Hnew & Hall). clear Hw.
  exists s, f', D', i', new. split; [exact Hrun|]. split; [exact Hret|]. split; [exact Hic|]. split; [exact Hwr|]. split; [exact Hnew|].
  pose proof (recovered_mounts st sz D0 Hrec) as HmD. fold D in HmD.
  assert (HmD' : mounts (mkSpec D' D' 0 []) D0).
  { destruct HmD as (E1 & E2 & E3 & E4). simpl in *. specialize (H1 Hst). split; [exact (eq_trans Hl' E1)|].
    split; [exact (eq_trans Hl' E1)|]. split; exact (eq_trans H1 E3). }
  destruct (mounts_geometry st sz _ D0 HmD Hsb Hlen Hfit) as (X1 & X2 & X3).
  destruct (mounts_geometry st sz _ D0 HmD' Hsb Hlen Hfit) as (Y1 & Y2 & Y3).
  pose proof (linv_crash st sz (f_blk f') (mkSpec D D 0 []) (mkSpec D' D' 0 []) Hi') as Hfinal. simpl in Hfinal, X1, X2, X3, Y1, Y2, Y3.
  intros Dc Dc' HD HDD'. assert (Hcr : crash_ok st sz D D' Dc).
  { apply elem_of_cons in HD as [->|HD]; [exact Hfinal|exact (Hall Dc HD)]. }
  destruct Hcr as [Hr [Hs|Hs]].
  - destruct (remount_ok st sz Dc Dc' D Hst X1 X2 X3 Hr Hs HDD') as (s'' & Hm1 & Hm2). exists s''. exact (conj Hm1 (or_introl Hm2)).
  - destruct (remount_ok st sz Dc Dc' D' Hst Y1 Y2 Y3 Hr Hs HDD') as (s'' & Hm1 & Hm2). exists s''. exact (conj Hm1 (or_intror Hm2)).
Qed.

(** No devices. *)
Definition no_write {St} : dev_writer St := fun _ => None.
Definition no_read {St} : dev_reader St := fun _ => None.

Lemma demo_recovered : recovered 2 demo_fs = demo_fs.
Proof. vm_compute. reflexivity. Qed.

Lemma demo_fs_recoverable : recoverable 2 8 demo_fs.
Proof.
  assert (He : entries 2 demo_fs = []) by (vm_compute; reflexivity).
  split; rewrite ?He.
  - exists zeros. split; [done|]. split; [done|]. split; [vm_compute; reflexivity|]. simpl. lia.
  - apply no_transaction. lia.
  - set_solver.
Qed.

Lemma demo_cached : cached_as demo_sb demo_fs 1 (demo_inode demo_file1 1).
Proof. by split. Qed.

Lemma write_call_atomic_witness :
  exists s f' D' i' new,
    initlog 1 (booted demo_fs) = Ret tt s /\
    write_call no_write 0 [33; 10]%Z 5 2 (mkFs s demo_sb [demo_inode demo_file1 1]) = Ret 2%Z f' /\
    icache f' = [i'] /\
    written_of (home := log_home 2 8) demo_sb 12 (recovered 2 demo_fs) 1 (demo_inode demo_file1 1) 5 [33; 10]%Z D' i' /\
    hist (l_bio (f_blk f')) = new ++ hist (l_bio s) /\
    forall Dc Dc', Dc ∈ disk (l_bio (f_blk f')) :: new -> crashes Dc Dc' ->
      exists s'', initlog 1 (booted Dc') = Ret tt s'' /\
        (same_home 2 8 (disk (l_bio s'')) (recovered 2 demo_fs) \/ same_home 2 8 (disk (l_bio s'')) D').
Proof.
  apply (write_call_atomic 2 8 demo_fs demo_sb 12 no_write [demo_inode demo_file1 1] 0 1 (demo_inode demo_file1 1) [33; 10]%Z 5 2).
  - lia.
  - vm_compute. lia.
  - vm_compute. done.
  - exists demo_sb_block. split; [done|]. split; vm_compute; reflexivity.
  - apply demo_fs_recoverable.
  - done.
  - rewrite demo_recovered. apply demo_fs_ok. intros n Hn. split; [right|]; lia.
  - rewrite demo_recovered. apply demo_cached.
  - done.
  - done.
  - lia.
  - lia.
  - simpl. lia.
  - vm_compute. lia.
  - rewrite demo_recovered. vm_compute. lia.
Defined.



Lemma file_bytes_slice V A off m sz : off + m <= sz -> file_bytes V A off m = take m (drop off (file_bytes V A 0 sz)).
Proof.
  intros H. replace sz with (off + (m + (sz - off - m))) by lia. rewrite !file_bytes_app.
  rewrite drop_app_length' by (by rewrite file_bytes_length). simpl.
  by rewrite take_app_length' by (by rewrite file_bytes_length).
Qed.

(** C28: [readi] returns the bytes of the file from [off] on, [n] of them or as
    many as there are, and changes nothing; it returns -1 if the offset is
    beyond the end of the file or if offset and length overflow. *)
Theorem readi_reads {St : Type} {ops : BlockOps St} {laws : BlockLaws St} (sbk : superblock) (ds : nat) (dev_read : dev_reader St)
    (s : fs St) (V : list block) (tx : gset nat) (ic : list inode) (ip inum : nat) (i : inode) (off n : nat)
  (Hok : fs_ok_of (home := bk_home) sbk ds V) (Hc : cached_as sbk V inum i) (R : frep s (calm sbk V tx ic)) (Hip : ic !! ip = Some i)
  (Htx : size tx < NBUF) (Hoff : (Z.of_nat off < 2 ^ 32)%Z) (Hn : (Z.of_nat n < 2 ^ 32)%Z) :
  exists r s', readi dev_read ip (Z.of_nat off) (Z.of_nat n) s = Ret r s' /\ frep s' (calm sbk V tx ic) /\
    if (i_size i <? Z.of_nat off)%Z || (2 ^ 32 <=? Z.of_nat off + Z.of_nat n)%Z then r = ((-1)%Z, [])
    else let bytes := take n (drop off (contents V (dinode_of i))) in r = (Z.of_nat (length bytes), bytes).
Proof.
  pose proof (w_file sbk ds V inum i Hok Hc) as [Hf Hi Hs Hcov].
  assert (Hcf : cached_file sbk ds V i) by (split; [apply Hc|apply Hc|done|done|done]).
  pose proof (readi_ok sbk ds dev_read s V tx ic ip i (Z.of_nat off) (Z.of_nat n) (fk_geo _ _ _ Hok) (fk_disk _ _ _ Hok) Hcf Htx R Hip) as H.
  destruct (proj1 (total_iff _ _ _) (H ltac:(lia) ltac:(lia))) as (r & s' & Hrun & -> & R'). exists (readi_result V i (Z.of_nat off) (Z.of_nat n)), s'.
  split; [done|]. split; [done|]. unfold readi_result. destruct (_ || _) eqn:E; [done|]. apply orb_false_iff in E as [E1 E2].
  apply Z.ltb_ge in E1. apply Z.leb_gt in E2. simpl in Hs. cbv zeta. unfold contents. simpl. set (sz := Z.to_nat (i_size i)).
  set (m := Z.to_nat (Z.min (Z.of_nat n) (i_size i - Z.of_nat off))). rewrite Nat2Z.id.
  assert (Hm : take n (drop off (file_bytes V (i_addrs i) 0 sz)) = file_bytes V (i_addrs i) off m).
  { rewrite (file_bytes_slice _ _ off m sz) by lia. destruct (decide (n <= sz - off)).
    - by replace m with n by lia.
    - rewrite !take_ge by (rewrite length_drop, file_bytes_length; lia). done. }
  rewrite Hm, file_bytes_length. f_equal. lia.
Qed.

Lemma readi_reads_witness :
  exists r s', readi no_read 0 1 10 (mkFs demo_fs demo_sb [demo_inode demo_file1 1]) = Ret r s' /\
    frep s' (calm demo_sb demo_fs ∅ [demo_inode demo_file1 1]) /\ r = (4%Z, [101; 108; 108; 111]%Z).
Proof.
  apply (readi_reads demo_sb 12 no_read (mkFs demo_fs demo_sb [demo_inode demo_file1 1]) demo_fs ∅ [demo_inode demo_file1 1]
    0 1 (demo_inode demo_file1 1) 1 10).
  - by apply demo_fs_ok.
  - apply demo_cached.
  - by split.
  - done.
  - vm_compute. lia.
  - lia.
  - lia.
Defined.

(** [balloc] hands out blocks that nobody has.  If a block is free, [balloc]
    returns the lowest free one; it was not allocated before, it is a data
    block, it is all zeros now and marked as allocated; no other block's mark
    and, but for the bit map, no other block's contents change. *)
Lemma balloc_takes_free {St : Type} {ops : BlockOps St} {laws : BlockLaws St} (ds : nat) (s : fs St) (a : abs)
  (Hpre : alloc_pre ds a) (R : frep s a) (Hfree : exists n, n < fsize (a_sb a) /\ allocated (a_sb a) (a_V a) n = false) :
  exists n s' a', balloc 1 s = Ret (Z.of_nat n) s' /\ frep s' a' /\ a_sb a' = a_sb a /\ a_ic a' = a_ic a /\ a_h a' = a_h a /\
    ds <= n < fsize (a_sb a) /\ allocated (a_sb a) (a_V a) n = false /\
    (forall m, m < n -> allocated (a_sb a) (a_V a) m = true) /\ a_V a' !! n = Some zero_block /\
    (forall m, m < fsize (a_sb a) -> allocated (a_sb a) (a_V a') m = bool_decide (n = m) || allocated (a_sb a) (a_V a) m) /\
    (forall m, m <> n -> m <> bmb (a_sb a) n -> a_V a' !! m = a_V a !! m).
Proof.
  destruct (proj1 (total_iff _ _ _) (balloc_ok ds s a Hpre R Hfree)) as (r & s' & Hrun & n & -> & Hn & Hf & Hmin & R').
  destruct Hpre as [Hg Hd _ _ _ _]. exists n, s'. eexists. split; [done|]. split; [exact R'|]. simpl. do 6 (split; [done|]).
  split; [apply list_lookup_insert_eq; rewrite mark_length; pose proof (g_fit _ _ _ Hg); lia|].
  split; [intros m Hm; by apply (take_allocated _ ds)|]. intros m Hm1 Hm2. unfold take_block.
  rewrite list_lookup_insert_ne by done. by apply mark_lookup.
Qed.

Lemma demo_alloc_pre : alloc_pre 12 (calm demo_sb demo_fs ∅ []).
Proof.
  split; simpl; try done.
  - by apply demo_geometry.
  - apply demo_disk_ok.
  - split; vm_compute; lia.
Qed.

(** The on-disk inode is read back as it was written, and writing one inode
    leaves the other inodes of the block as they are. *)
Lemma dinode_roundtrip (i j : nat) (d : dinode) (b : block)
  (Hb : length b = BSIZE) (Hd : dinode_ok d) (Hij : (Z.of_nat i mod IPB <> Z.of_nat j mod IPB)%Z) :
  let b' := encode_dinode (dinode_off (Z.of_nat i)) d b in
  length b' = BSIZE /\ decode_dinode (dinode_off (Z.of_nat i)) b' = d /\
  decode_dinode (dinode_off (Z.of_nat j)) b' = decode_dinode (dinode_off (Z.of_nat j)) b.
Proof.
  cbv zeta. pose proof (dinode_off_bound i) as Hi. split; [|split].
  - rewrite encode_dinode_length; [done|by rewrite Hb|apply Hd].
  - apply encode_decode; [by rewrite Hb|apply Hd|done].
  - by apply dinode_other; [|apply Hd|].
Qed.

