(* ===== verification/Shell.v ===== *)
(** * The shell

    [sh.c]: tokens, the recursive-descent parser, [nulterminate] and [runcmd].
    A command line is a list of bytes without a NUL; pointers into it are
    offsets, and reading at its end gives the terminating NUL.  The parser may
    panic (the shell prints a message and exits).  Its functions call each
    other; they get a fuel, and running out of it is a result of its own that
    the theorems exclude.  [malloc] is taken to succeed, as the code does. *)
From S2P Require Import Prelude.
Local Open Scope Z_scope.

Inductive presult (A : Type) : Type :=
| POk (a : A)
| PPanic (msg : string)
| PFuel.
Arguments POk {A} a.
Arguments PPanic {A} msg.
Arguments PFuel {A}.

#[export] Instance presult_ret : MRet presult := fun A a => POk a.
#[export] Instance presult_bind : MBind presult := fun A B k m =>
  match m with POk a => k a | PPanic msg => PPanic msg | PFuel => PFuel end.

Definition MAXARGS : nat := 10.
Definition O_RDONLY : Z := 0.
Definition O_WRONLY : Z := 1.
Definition O_RDWR : Z := 2.
Definition O_CREATE : Z := 512.

(** A counted string: the pointers [q] and [eq]. *)
Record token := mkTok { t_q : nat; t_eq : nat }.

(** [struct cmd] and the structs it stands for; [T] is the type of strings,
    counted ones while parsing. *)
Inductive gcmd (T : Type) : Type :=
| EXEC (argv : list T)
| REDIR (c : gcmd T) (file : T) (mode fd : Z)
| PIPE (left right : gcmd T)
| LIST (left right : gcmd T)
| BACK (c : gcmd T).
Arguments EXEC {T} argv.
Arguments REDIR {T} c file mode fd.
Arguments PIPE {T} left right.
Arguments LIST {T} left right.
Arguments BACK {T} c.
Notation cmd := (gcmd token).

(** [char whitespace\[\]], [char symbols\[\]] *)
Definition whitespace : list Z := [32; 9; 13; 10; 11].
Definition symbols : list Z := [60; 124; 62; 38; 59; 40; 41].

(** [strchr(set, c)] as a truth value; [strchr] in [ulib.c] does not find the NUL. *)
Definition in_set (set : list Z) (c : Z) : bool := bool_decide (c ∈ set).

Section Parse.
Context (buf : list Z).

Definition es : nat := length buf.
Definition char_at (s : nat) : Z := default 0 (buf !! s).

(** [while(s < es && strchr(whitespace, *s)) s++;] *)
Fixpoint skip_space (s : nat) (fuel : nat) : nat :=
  match fuel with
  | O => s
  | S fuel' => if (s <? es)%nat && in_set whitespace (char_at s) then skip_space (S s) fuel' else s
  end.
Definition skip_ws (s : nat) : nat := skip_space s (es - s).

(** [while(s < es && !strchr(whitespace, *s) && !strchr(symbols, *s)) s++;] *)
Fixpoint skip_word (s : nat) (fuel : nat) : nat :=
  match fuel with
  | O => s
  | S fuel' =>
      if (s <? es)%nat && negb (in_set whitespace (char_at s)) && negb (in_set symbols (char_at s))
      then skip_word (S s) fuel' else s
  end.

(** The token's kind, its text and the position after it. *)
Definition gettoken (s : nat) : Z * token * nat :=
  let s := skip_ws s in
  let q := s in
  let c := char_at s in
  let '(ret, s) :=
    if c =? 0 then (0, s)
    else if in_set [124; 40; 41; 59; 38; 60] c then (c, S s)
    else if c =? 62 then
      let s := S s in if char_at s =? 62 then (43, S s) else (62, s)
    else (97, skip_word s (es - s)) in
  (ret, mkTok q s, skip_ws s).

(** [peek] also moves the position past white space. *)
Definition peek (s : nat) (toks : list Z) : bool * nat :=
  let s := skip_ws s in
  (negb (char_at s =? 0) && in_set toks (char_at s), s).

(** [redircmd] for the three tokens. *)
Definition redir_of (tok : Z) (file : token) (c : cmd) : cmd :=
  if tok =? 60 then REDIR c file O_RDONLY 0
  else if tok =? 62 then REDIR c file (Z.lor O_WRONLY O_CREATE) 1
  else if tok =? 43 then REDIR c file (Z.lor O_WRONLY O_CREATE) 1
  else c.

(** [parseredirs] wraps the command; [parseexec] goes on to fill in the [argv] of
    the command inside, so the result is the wrapping. *)
Fixpoint parseredirs (wrap : cmd -> cmd) (s : nat) (fuel : nat) : presult ((cmd -> cmd) * nat) :=
  match fuel with
  | O => PFuel
  | S fuel' =>
      let '(b, s) := peek s [60; 62] in
      if b then
        let '(tok, _, s) := gettoken s in
        let '(tok2, file, s) := gettoken s in
        if negb (tok2 =? 97) then PPanic "missing file for redirection"
        else parseredirs (fun c => redir_of tok file (wrap c)) s fuel'
      else POk (wrap, s)
  end.

(** The loop of [parseexec]; [argv] has the arguments so far. *)
Fixpoint parseargs (wrap : cmd -> cmd) (argv : list token) (s : nat) (fuel : nat) : presult (cmd * nat) :=
  match fuel with
  | O => PFuel
  | S fuel' =>
      let '(b, s) := peek s [124; 41; 38; 59] in
      if b then POk (wrap (EXEC argv), s)
      else
        let '(tok, t, s) := gettoken s in
        if tok =? 0 then POk (wrap (EXEC argv), s)
        else if negb (tok =? 97) then PPanic "syntax"
        else
          let argv := argv ++ [t] in
          if (MAXARGS <=? length argv)%nat then PPanic "too many args"
          else
            r ← parseredirs wrap s fuel';
            parseargs r.1 argv r.2 fuel'
  end.

(** [while(peek(ps, es, "&")){ gettoken; cmd = backcmd(cmd); }] *)
Fixpoint parseback (c : cmd) (s : nat) (fuel : nat) : presult (cmd * nat) :=
  match fuel with
  | O => PFuel
  | S fuel' =>
      let '(b, s) := peek s [38] in
      if b then let '(_, _, s) := gettoken s in parseback (BACK c) s fuel'
      else POk (c, s)
  end.

Fixpoint parseline (s : nat) (fuel : nat) : presult (cmd * nat) :=
  match fuel with
  | O => PFuel
  | S fuel' =>
      r ← parsepipe s fuel';
      r ← parseback r.1 r.2 fuel';
      let '(c, s) := (r : cmd * nat) in
      let '(b, s) := peek s [59] in
      if b then
        let '(_, _, s) := gettoken s in
        r ← parseline s fuel';
        POk (LIST c r.1, r.2)
      else POk (c, s)
  end
with parsepipe (s : nat) (fuel : nat) : presult (cmd * nat) :=
  match fuel with
  | O => PFuel
  | S fuel' =>
      r ← parseexec s fuel';
      let '(c, s) := (r : cmd * nat) in
      let '(b, s) := peek s [124] in
      if b then
        let '(_, _, s) := gettoken s in
        r ← parsepipe s fuel';
        POk (PIPE c r.1, r.2)
      else POk (c, s)
  end
with parseblock (s : nat) (fuel : nat) : presult (cmd * nat) :=
  match fuel with
  | O => PFuel
  | S fuel' =>
      let '(b, s) := peek s [40] in
      if negb b then PPanic "parseblock"
      else
        let '(_, _, s) := gettoken s in
        r ← parseline s fuel';
        let '(c, s) := (r : cmd * nat) in
        let '(b, s) := peek s [41] in
        if negb b then PPanic "syntax - missing )"
        else
          let '(_, _, s) := gettoken s in
          r ← parseredirs (fun c => c) s fuel';
          POk (r.1 c, r.2)
  end
with parseexec (s : nat) (fuel : nat) : presult (cmd * nat) :=
  match fuel with
  | O => PFuel
  | S fuel' =>
      let '(b, s) := peek s [40] in
      if b then parseblock s fuel'
      else
        r ← parseredirs (fun c => c) s fuel';
        parseargs r.1 [] r.2 fuel'
  end.
End Parse.

#[global] Arguments peek : simpl never.
#[global] Arguments gettoken : simpl never.

(** A fuel that is enough for every line. *)
Definition parse_fuel (buf : list Z) : nat := 5 * length buf + 6.

Definition parse (buf : list Z) : presult cmd :=
  r ← parseline buf 0 (parse_fuel buf);
  let '(_, s) := peek buf r.2 [] in
  if negb (s =? es buf)%nat then PPanic "syntax" else POk r.1.

(** [nulterminate]: the byte after each counted string becomes NUL.  The buffer
    has the terminating NUL at its end. *)
Fixpoint nulterminate (c : cmd) (mem : list Z) : list Z :=
  match c with
  | EXEC argv => foldl (fun mem t => <[t_eq t := 0]> mem) mem argv
  | REDIR c file _ _ => <[t_eq file := 0]> (nulterminate c mem)
  | PIPE l r => nulterminate r (nulterminate l mem)
  | LIST l r => nulterminate r (nulterminate l mem)
  | BACK c => nulterminate c mem
  end.

(** The command and the memory that its strings are in. *)
Definition parsecmd (buf : list Z) : presult (cmd * list Z) :=
  c ← parse buf; POk (c, nulterminate c (buf ++ [0])).
