(* ===== verification/ShellParse.v ===== *)
(** * The shell's parser

    Every line is parsed in bounded time; what is parsed consists of the words
    of the line, which [nulterminate] turns into C strings; and every command
    tree can be written as a line that parses to it. *)
From S2P Require Import Prelude Shell.
Local Open Scope nat_scope.

(** A character of a word. *)
Definition wordch (c : Z) : bool := negb (c =? 0)%Z && negb (in_set whitespace c) && negb (in_set symbols c).

(** The counted strings of a command. *)
Fixpoint tokens {T} (c : gcmd T) : list T :=
  match c with
  | EXEC argv => argv
  | REDIR c file _ _ => tokens c ++ [file]
  | PIPE l r | LIST l r => tokens l ++ tokens r
  | BACK c => tokens c
  end.

(** At most nine arguments, so that [argv] with its null fits into ten entries. *)
Fixpoint argc_ok {T} (c : gcmd T) : Prop :=
  match c with
  | EXEC argv => length argv < MAXARGS
  | REDIR c _ _ _ | BACK c => argc_ok c
  | PIPE l r | LIST l r => argc_ok l /\ argc_ok r
  end.

Fixpoint gcmd_map {T U} (f : T -> U) (c : gcmd T) : gcmd U :=
  match c with
  | EXEC argv => EXEC (f <$> argv)
  | REDIR c file mode fd => REDIR (gcmd_map f c) (f file) mode fd
  | PIPE l r => PIPE (gcmd_map f l) (gcmd_map f r)
  | LIST l r => LIST (gcmd_map f l) (gcmd_map f r)
  | BACK c => BACK (gcmd_map f c)
  end.

(** The text of a counted string, and the C string at an address. *)
Definition text (buf : list Z) (t : token) : list Z := take (t_eq t - t_q t) (drop (t_q t) buf).
Fixpoint cstring (l : list Z) : list Z :=
  match l with [] => [] | c :: l' => if (c =? 0)%Z then [] else c :: cstring l' end.
Definition cstr (mem : list Z) (q : nat) : list Z := cstring (drop q mem).

(** A nonempty string of word characters. *)
Definition word (w : list Z) : Prop := w <> [] /\ Forall (fun c => wordch c = true) w.

Lemma cstring_take l n : (forall i, i < n -> exists x, l !! i = Some x /\ x <> 0%Z) -> l !! n = Some 0%Z -> cstring l = take n l.
Proof.
  revert n. induction l as [|c l IH]; intros n Hn H0; [done|]. destruct n as [|n]; simpl in *; [injection H0 as ->; done|].
  destruct (Hn 0) as (x & [= ->] & Hx); [lia|]. rewrite (proj2 (Z.eqb_neq _ _)) by done. f_equal. apply IH; [|done].
  intros i Hi. apply (Hn (S i)). lia.
Qed.

Lemma foldl_nul (ts : list token) mem i :
  foldl (fun mem t => <[t_eq t := 0%Z]> mem) mem ts !! i = if decide (i ∈ t_eq <$> ts /\ i < length mem) then Some 0%Z else mem !! i.
Proof.
  revert mem. induction ts as [|t ts IH]; intros mem.
  { rewrite decide_False; [done|]. intros [H _]. by apply elem_of_nil in H. }
  cbn [foldl]. rewrite fmap_cons. rewrite IH, length_insert. destruct (decide (i = t_eq t)) as [->|Hne].
  - destruct (decide (t_eq t < length mem)); [|by rewrite !decide_False, list_insert_ge by (lia || tauto)].
    rewrite (decide_True (P := t_eq t ∈ t_eq t :: (t_eq <$> ts) /\ _)) by (split; [set_solver|done]).
    destruct (decide (t_eq t ∈ t_eq <$> ts /\ t_eq t < length mem)); [done|]. by rewrite list_lookup_insert_eq.
  - rewrite list_lookup_insert_ne by done. repeat case_decide; set_solver.
Qed.

Lemma nulterminate_length c mem : length (nulterminate c mem) = length mem.
Proof.
  revert mem. induction c as [argv|c IH file m fd|l IHl r IHr|l IHl r IHr|c IH]; intros mem; simpl; rewrite ?length_insert; auto.
  - revert mem. induction argv as [|t argv IH]; intros mem; simpl; [done|]. by rewrite IH, length_insert.
  - by rewrite IHr.
  - by rewrite IHr.
Qed.

Lemma nulterminate_lookup c mem i :
  nulterminate c mem !! i = if decide (i ∈ t_eq <$> tokens c /\ i < length mem) then Some 0%Z else mem !! i.
Proof.
  revert mem. induction c as [argv|c IH file m fd|l IHl r IHr|l IHl r IHr|c IH]; intros mem; simpl.
  - apply foldl_nul.
  - rewrite fmap_app. simpl. destruct (decide (i = t_eq file)) as [->|Hne].
    + destruct (decide (t_eq file < length mem)) as [Hlt|Hge].
      * rewrite decide_True by (split; [set_solver|done]). apply list_lookup_insert_eq. by rewrite nulterminate_length.
      * rewrite list_insert_ge, IH, !decide_False by (rewrite ?nulterminate_length; lia || tauto). done.
    + rewrite list_lookup_insert_ne, IH by done. repeat case_decide; set_solver.
  - rewrite IHr, nulterminate_length, IHl, fmap_app. repeat case_decide; set_solver.
  - rewrite IHr, nulterminate_length, IHl, fmap_app. repeat case_decide; set_solver.
  - apply IH.
Qed.

(** The parser returns a result that satisfies [P], or it panics. *)
Definition pgood {A} (P : A -> Prop) (r : presult A) : Prop :=
  match r with POk a => P a | PPanic _ => True | PFuel => False end.

Lemma pgood_bind {A B} (P : A -> Prop) (Q : B -> Prop) (m : presult A) (k : A -> presult B) :
  pgood P m -> (forall a, P a -> pgood Q (k a)) -> pgood Q (m ≫= k).
Proof. destruct m; simpl; auto. Qed.

Lemma pgood_mono {A} (P Q : A -> Prop) (m : presult A) : pgood P m -> (forall a, P a -> Q a) -> pgood Q m.
Proof. destruct m; simpl; auto. Qed.

Section Line.
Context (buf : list Z) (Hnz : 0%Z ∉ buf).
Notation es := (es buf).
Notation char_at := (char_at buf).
Notation skip_ws := (skip_ws buf).
Notation gettoken := (gettoken buf).
Notation peek := (peek buf).

Lemma char_nonzero s : char_at s <> 0%Z -> s < es.
Proof. unfold char_at, es. intros H. destruct (buf !! s) eqn:E; [by eapply lookup_lt_Some|done]. Qed.

Lemma char_in s : s < es -> char_at s <> 0%Z.
Proof using Hnz.
  intros H. unfold Shell.char_at. destruct (lookup_lt_is_Some_2 buf s H) as [x Hx]. rewrite Hx. simpl. intros ->.
  apply Hnz. by eapply list_elem_of_lookup_2.
Qed.

Lemma skip_space_bound s fuel : s <= es -> s <= skip_space buf s fuel <= es.
Proof.
  revert s. induction fuel as [|fuel IH]; intros s Hs; simpl; [lia|].
  destruct (Nat.ltb_spec s es); simpl; [|lia]. destruct (in_set _ _); [|lia]. pose proof (IH (S s)). lia.
Qed.

Lemma skip_ws_bound s : s <= es -> s <= skip_ws s <= es.
Proof. apply skip_space_bound. Qed.

Lemma skip_space_end s fuel : s <= es -> es - s <= fuel -> in_set whitespace (char_at (skip_space buf s fuel)) = false.
Proof.
  revert s. induction fuel as [|fuel IH]; intros s Hs Hf; simpl.
  - unfold char_at, es in *. by rewrite lookup_ge_None_2 by lia.
  - destruct (Nat.ltb_spec s es); simpl.
    + destruct (in_set whitespace (char_at s)) eqn:E; [apply IH; lia|done].
    + unfold char_at, es in *. by rewrite lookup_ge_None_2 by lia.
Qed.

Lemma skip_ws_end s : s <= es -> in_set whitespace (char_at (skip_ws s)) = false.
Proof. intros H. by apply skip_space_end. Qed.

Lemma skip_word_spec s fuel : s <= es -> es - s <= fuel ->
  let e := skip_word buf s fuel in
  s <= e <= es /\ (forall i, s <= i < e -> in_set whitespace (char_at i) = false /\ in_set symbols (char_at i) = false) /\
  (e < es -> in_set whitespace (char_at e) || in_set symbols (char_at e) = true).
Proof.
  revert s. induction fuel as [|fuel IH]; intros s Hs Hf; simpl.
  - repeat split; try lia.
  - destruct (Nat.ltb_spec s es); simpl; [|repeat split; lia].
    destruct (in_set whitespace (char_at s)) eqn:E1; simpl; [repeat split; try lia; by rewrite ?E1|].
    destruct (in_set symbols (char_at s)) eqn:E2; simpl; [repeat split; try lia; by rewrite ?E1, ?E2|].
    destruct (IH (S s)) as (H1 & H2 & H3); [lia|lia|]. repeat split; try lia; [..|done]; destruct (decide (i = s)) as [->|]; try done; apply H2; lia.
Qed.

(** ** Tokens *)

(** The token is a word of the line, and a longest one. *)
Record tok_ok (t : token) : Prop := {
  to_bound : t_q t < t_eq t <= es;
  to_word i : t_q t <= i < t_eq t -> wordch (char_at i) = true;
  to_end : wordch (char_at (t_eq t)) = false
}.

Lemma symbol_cases c : in_set symbols c = true -> in_set [124; 40; 41; 59; 38; 60]%Z c = true \/ c = 62%Z.
Proof. unfold in_set. rewrite !bool_decide_eq_true. set_solver. Qed.

Lemma gettoken_spec s tok t s' : s <= es -> gettoken s = (tok, t, s') ->
  s <= s' <= es /\ (tok <> 0%Z -> s < s') /\ (tok = 97%Z -> tok_ok t).
Proof.
  intros Hs. unfold Shell.gettoken. pose proof (skip_ws_bound s Hs) as Hb. pose proof (skip_ws_end s Hs) as Hw.
  set (q := skip_ws s) in *. destruct (Z.eqb_spec (char_at q) 0) as [E0|E0].
  { intros [= <- <- <-]. pose proof (skip_ws_bound q). split; [lia|]. split; [done|]. lia. }
  pose proof (char_nonzero q E0) as Hlt.
  destruct (in_set [124; 40; 41; 59; 38; 60]%Z (char_at q)) eqn:E1.
  { intros [= <- <- <-]. pose proof (skip_ws_bound (S q)). split; [lia|]. split; [lia|].
    intros Ec. rewrite Ec in E1. done. }
  destruct (Z.eqb_spec (char_at q) 62) as [E2|E2].
  { destruct (Z.eqb_spec (char_at (S q)) 62) as [E3|E3]; intros [= <- <- <-]; (split; [|split; [|done]]).
    - assert (S q < es) by (apply char_nonzero; by rewrite E3). pose proof (skip_ws_bound (S (S q))). lia.
    - assert (S q < es) by (apply char_nonzero; by rewrite E3). pose proof (skip_ws_bound (S (S q))). lia.
    - pose proof (skip_ws_bound (S q)). lia.
    - pose proof (skip_ws_bound (S q)). lia. }
  intros [= <- <- <-]. destruct (skip_word_spec q (es - q)) as (H1 & H2 & H3); [lia|lia|]. set (e := skip_word buf q (es - q)) in *.
  assert (Hsym : in_set symbols (char_at q) = false).
  { destruct (in_set symbols (char_at q)) eqn:E; [|done]. destruct (symbol_cases _ E); congruence. }
  assert (Hqe : q < e).
  { destruct (decide (q < e)); [done|]. assert (e = q) as Heq by lia. rewrite Heq, Hw, Hsym in H3. by specialize (H3 Hlt). }
  pose proof (skip_ws_bound e). split; [lia|]. split; [lia|]. intros _. split; simpl; [lia| |].
  - intros i Hi. destruct (H2 i Hi) as [W1 W2]. unfold wordch. rewrite W1, W2, !andb_true_r. apply negb_true_iff, Z.eqb_neq.
    apply char_in. lia.
  - unfold wordch. destruct (decide (e < es)) as [He|He].
    + specialize (H3 He). destruct (negb (char_at e =? 0)%Z), (in_set whitespace (char_at e)), (in_set symbols (char_at e)); done.
    + unfold Shell.char_at. rewrite lookup_ge_None_2 by (unfold Shell.es in *; lia). done.
Qed.

Lemma peek_spec s toks b s' : s <= es -> peek s toks = (b, s') ->
  s <= s' <= es /\ in_set whitespace (char_at s') = false /\ b = negb (char_at s' =? 0)%Z && in_set toks (char_at s').
Proof.
  intros Hs [= <- <-]. pose proof (skip_ws_bound s Hs). split; [lia|]. split; [by apply skip_ws_end|done].
Qed.

(** After a successful [peek] there is a token that takes some room. *)
Lemma peek_token s toks s' tok t s'' :
  s <= es -> peek s toks = (true, s') -> gettoken s' = (tok, t, s'') -> toks ⊆ symbols -> s < s'' <= es.
Proof.
  intros Hs Hp Hg Hsub. destruct (peek_spec _ _ _ _ Hs Hp) as (H1 & H2 & H3). symmetry in H3. apply andb_true_iff in H3 as [H3 H4].
  destruct (gettoken_spec s' tok t s'') as (G1 & G2 & _); [lia|done|].
  enough (tok <> 0%Z) by (specialize (G2 ltac:(done)); lia). unfold Shell.gettoken in Hg.
  assert (Hskip : skip_ws s' = s').
  { unfold Shell.skip_ws. destruct (es - s') eqn:E; [done|]. simpl. by rewrite H2, andb_false_r. }
  rewrite Hskip in Hg. destruct (Z.eqb_spec (char_at s') 0) as [E0|E0]; [done|].
  destruct (in_set [124; 40; 41; 59; 38; 60]%Z (char_at s')) eqn:E1; [injection Hg as <- _ _; done|].
  destruct (Z.eqb_spec (char_at s') 62) as [E2|E2]; [destruct (_ =? _)%Z; by injection Hg as <- _ _|].
  by injection Hg as <- _ _.
Qed.

(** ** The parser *)

Definition rem (s : nat) : nat := es - s.

(** What has been parsed from [s] on, and the position reached. *)
Definition parsed (s : nat) (r : cmd * nat) : Prop :=
  s <= r.2 <= es /\ Forall tok_ok (tokens r.1) /\ argc_ok r.1.

Definition wrap_ok (w : cmd -> cmd) : Prop :=
  forall c, Forall tok_ok (tokens c) -> argc_ok c -> Forall tok_ok (tokens (w c)) /\ argc_ok (w c).

Lemma redir_of_ok tok file : tok_ok file -> wrap_ok (redir_of tok file).
Proof using Type.
  intros Hf c Hc Ha. assert (Hcf : Forall tok_ok (tokens c ++ [file])) by (apply Forall_app; split; [done|by apply Forall_singleton]).
  unfold redir_of. by repeat case_match.
Qed.

Lemma parseredirs_good wrap s fuel :
  s <= es -> rem s < fuel -> wrap_ok wrap ->
  pgood (fun r => s <= r.2 <= es /\ wrap_ok r.1) (parseredirs buf wrap s fuel).
Proof using Hnz.
  revert wrap s. induction fuel as [|fuel IH]; intros wrap s Hs Hr Hw; [lia|]. cbn [parseredirs].
  destruct (peek s [60; 62]%Z) as [b s1] eqn:E1. destruct (peek_spec _ _ _ _ Hs E1) as (B1 & _ & _). destruct b; [|simpl; split; [lia|done]].
  destruct (gettoken s1) as [[tok t1] s2] eqn:E2. destruct (gettoken s2) as [[tok2 t2] s3] eqn:E3.
  pose proof (peek_token _ _ _ _ _ _ Hs E1 E2 ltac:(set_solver)) as B2.
  destruct (gettoken_spec s2 tok2 t2 s3) as (B3 & _ & B4); [lia|done|].
  destruct (Z.eqb_spec tok2 97) as [->|]; simpl; [|done].
  eapply pgood_mono; [apply IH; [lia|unfold rem in *; lia|]|].
  - intros c Hc Ha. destruct (Hw c Hc Ha). by apply redir_of_ok; auto.
  - intros r [G1 G2]. split; [lia|done].
Qed.

Lemma parseargs_good wrap argv s fuel :
  s <= es -> rem s < fuel -> wrap_ok wrap -> Forall tok_ok argv -> length argv < MAXARGS ->
  pgood (parsed s) (parseargs buf wrap argv s fuel).
Proof using Hnz.
  revert wrap argv s. induction fuel as [|fuel IH]; intros wrap argv s Hs Hr Hw Ha Hl; [lia|]. cbn [parseargs].
  destruct (peek s [124; 41; 38; 59]%Z) as [b s1] eqn:E1. destruct (peek_spec _ _ _ _ Hs E1) as (B1 & _ & _).
  destruct (Hw (EXEC argv)) as [W1 W2]; [done|done|].
  destruct b; [by repeat split; simpl; try lia|].
  destruct (gettoken s1) as [[tok t] s2] eqn:E2. destruct (gettoken_spec s1 tok t s2) as (B2 & B3 & B4); [lia|done|].
  destruct (Z.eqb_spec tok 0) as [->|Ht]; [by repeat split; simpl; try lia|].
  destruct (Z.eqb_spec tok 97) as [->|]; cbn [negb]; [|done]. destruct (Nat.leb_spec MAXARGS (length (argv ++ [t]))); [done|].
  specialize (B3 Ht). eapply pgood_bind; [apply parseredirs_good; [lia|unfold rem in *; lia|done]|].
  intros [w s3] [B5 B6]. simpl in *.
  eapply pgood_mono; [apply IH; [lia|unfold rem in *; lia|done|apply Forall_app; split; [done|by apply Forall_singleton; auto]|lia]|].
  intros r [G1 G2]. split; [lia|done].
Qed.

Lemma parseback_good c s fuel :
  s <= es -> rem s < fuel -> Forall tok_ok (tokens c) -> argc_ok c -> pgood (parsed s) (parseback buf c s fuel).
Proof using Hnz.
  revert c s. induction fuel as [|fuel IH]; intros c s Hs Hr Hc Ha; [lia|]. cbn [parseback].
  destruct (peek s [38]%Z) as [b s1] eqn:E1. destruct (peek_spec _ _ _ _ Hs E1) as (B1 & _ & _). destruct b; [|by repeat split; simpl; try lia].
  destruct (gettoken s1) as [[tok t] s2] eqn:E2. pose proof (peek_token _ _ _ _ _ _ Hs E1 E2 ltac:(set_solver)) as B2.
  eapply pgood_mono; [apply IH; [lia|unfold rem in *; lia|done|done]|]. intros r [G1 G2]. split; [lia|done].
Qed.

Lemma id_wrap_ok : wrap_ok (fun c => c).
Proof using Type. by intros c. Qed.

Lemma parser_good fuel s : s <= es ->
  (4 * rem s + 4 < fuel -> pgood (parsed s) (parseline buf s fuel)) /\
  (4 * rem s + 3 < fuel -> pgood (parsed s) (parsepipe buf s fuel)) /\
  (4 * rem s + 1 < fuel -> pgood (parsed s) (parseblock buf s fuel)) /\
  (4 * rem s + 2 < fuel -> pgood (parsed s) (parseexec buf s fuel)).
Proof using Hnz.
  revert s. induction fuel as [|fuel IH]; intros s Hs; [repeat split; lia|].
  assert (Hrem : forall s', s < s' <= es -> rem s' < rem s) by (unfold rem; lia).
  assert (Hrem' : forall s', s <= s' <= es -> rem s' <= rem s) by (unfold rem; lia).
  split; [|split; [|split]]; intros Hf; cbn [parseline parsepipe parseblock parseexec].
  - eapply pgood_bind; [apply IH; [done|lia]|]. intros [c1 s1] (B1 & T1 & A1). simpl in B1, T1, A1. cbn [fst snd].
    eapply pgood_bind; [apply parseback_good; [lia|pose proof (Hrem' s1); lia|done|done]|]. intros [c2 s2] (B2 & T2 & A2). simpl in B2, T2, A2.
    destruct (peek s2 [59]%Z) as [b s3] eqn:E3. destruct (peek_spec s2 _ _ _ ltac:(lia) E3) as (B3 & _ & _).
    destruct b; [|by repeat split; simpl; try lia]. destruct (gettoken s3) as [[tok t] s4] eqn:E4.
    pose proof (peek_token s2 _ _ _ _ _ ltac:(lia) E3 E4 ltac:(set_solver)) as B4.
    eapply pgood_bind; [apply IH; [lia|pose proof (Hrem s4); lia]|]. intros [c5 s5] (B5 & T5 & A5). simpl in B5, T5, A5.
    repeat split; simpl; try lia; try done. by apply Forall_app.
  - eapply pgood_bind; [apply IH; [done|lia]|]. intros [c1 s1] (B1 & T1 & A1). simpl in B1, T1, A1.
    destruct (peek s1 [124]%Z) as [b s3] eqn:E3. destruct (peek_spec s1 _ _ _ ltac:(lia) E3) as (B3 & _ & _).
    destruct b; [|by repeat split; simpl; try lia]. destruct (gettoken s3) as [[tok t] s4] eqn:E4.
    pose proof (peek_token s1 _ _ _ _ _ ltac:(lia) E3 E4 ltac:(set_solver)) as B4.
    eapply pgood_bind; [apply IH; [lia|pose proof (Hrem s4); lia]|]. intros [c5 s5] (B5 & T5 & A5). simpl in B5, T5, A5.
    repeat split; simpl; try lia; try done. by apply Forall_app.
  - destruct (peek s [40]%Z) as [b s1] eqn:E1. destruct (peek_spec s _ _ _ Hs E1) as (B1 & _ & _). destruct b; [|done]. cbn [negb].
    destruct (gettoken s1) as [[tok t] s2] eqn:E2. pose proof (peek_token s _ _ _ _ _ Hs E1 E2 ltac:(set_solver)) as B2.
    eapply pgood_bind; [apply IH; [lia|pose proof (Hrem s2); lia]|]. intros [c3 s3] (B3 & T3 & A3). simpl in B3, T3, A3.
    destruct (peek s3 [41]%Z) as [b s4] eqn:E4. destruct (peek_spec s3 _ _ _ ltac:(lia) E4) as (B4 & _ & _). destruct b; [|done]. cbn [negb].
    destruct (gettoken s4) as [[tok' t'] s5] eqn:E5. pose proof (peek_token s3 _ _ _ _ _ ltac:(lia) E4 E5 ltac:(set_solver)) as B5.
    eapply pgood_bind; [apply parseredirs_good; [lia|pose proof (Hrem' s5); lia|apply id_wrap_ok]|]. intros [w s6] [B6 W6]. simpl in B6, W6.
    destruct (W6 c3 T3 A3). repeat split; simpl; try lia; done.
  - destruct (peek s [40]%Z) as [b s1] eqn:E1. destruct (peek_spec s _ _ _ Hs E1) as (B1 & _ & _). pose proof (Hrem' s1) as R1. destruct b.
    + eapply pgood_mono; [apply IH; lia|]. intros r (B2 & T2 & A2). by repeat split; try lia.
    + eapply pgood_bind; [apply parseredirs_good; [lia|lia|apply id_wrap_ok]|]. intros [w s2] [B2 W2]. simpl in B2, W2.
      eapply pgood_mono; [apply parseargs_good; [simpl; lia|simpl; pose proof (Hrem' s2); lia|done|done|unfold MAXARGS; simpl; lia]|].
      intros r (B3 & T3 & A3). simpl in B3. by repeat split; try lia.
Qed.

Lemma parse_good : pgood (fun c => Forall tok_ok (tokens c) /\ argc_ok c) (parse buf).
Proof using Hnz.
  unfold parse. eapply pgood_bind; [apply (proj1 (parser_good (parse_fuel buf) 0 ltac:(lia))); unfold parse_fuel, rem, Shell.es; lia|].
  intros [c s] (B & T & A). simpl. destruct (negb _); done.
Qed.

(** ** The strings after [nulterminate] *)

Lemma wordch_nonzero c : wordch c = true -> c <> 0%Z.
Proof using Type. unfold wordch. destruct (Z.eqb_spec c 0); done. Qed.

Lemma tok_text_word t : tok_ok t -> word (text buf t).
Proof using Type.
  intros [Hb Hw _]. unfold Shell.es in Hb. split.
  - intros E. apply (f_equal length) in E. unfold text in E. rewrite length_take, length_drop in E. simpl in E. lia.
  - apply Forall_lookup. intros i x. unfold text. intros [Hx Hi]%lookup_take_Some. rewrite lookup_drop in Hx.
    specialize (Hw (t_q t + i) ltac:(lia)). unfold Shell.char_at in Hw. by rewrite Hx in Hw.
Qed.

Lemma nulterminate_cstr c t :
  Forall tok_ok (tokens c) -> t ∈ tokens c -> cstr (nulterminate c (buf ++ [0%Z])) (t_q t) = text buf t.
Proof using Type.
  intros Hall Ht. pose proof (proj1 (Forall_forall _ _) Hall t Ht) as Hok. destruct Hok as [Hb Hw He]. unfold Shell.es in Hb.
  assert (Hin : forall i, t_q t <= i < t_eq t -> nulterminate c (buf ++ [0%Z]) !! i = buf !! i).
  { intros i Hi. rewrite nulterminate_lookup, decide_False; [by rewrite lookup_app_l by lia|].
    intros [(t' & Et & Ht')%list_elem_of_fmap _]. pose proof (proj1 (Forall_forall _ _) Hall t' Ht') as Hok'.
    pose proof (to_end _ Hok') as He'. rewrite <- Et, Hw in He'; done. }
  unfold cstr. rewrite (cstring_take _ (t_eq t - t_q t)).
  - unfold text. apply list_eq. intros i. destruct (decide (i < t_eq t - t_q t)).
    + rewrite !lookup_take_lt, !lookup_drop by done. apply Hin. lia.
    + rewrite !lookup_take_ge by lia. done.
  - intros i Hi. rewrite lookup_drop, Hin by lia. destruct (lookup_lt_is_Some_2 buf (t_q t + i)) as [x Hx]; [lia|].
    exists x. split; [done|]. specialize (Hw (t_q t + i) ltac:(lia)). unfold Shell.char_at in Hw. rewrite Hx in Hw. by apply wordch_nonzero.
  - rewrite lookup_drop, nulterminate_lookup. replace (t_q t + (t_eq t - t_q t)) with (t_eq t) by lia.
    rewrite decide_True; [done|]. split; [by apply list_elem_of_fmap_2|]. rewrite length_app. simpl. lia.
Qed.
End Line.
