(* ===== verification/ShellPrint.v ===== *)
(** * Writing command lines

    Every command tree can be written as a line that the shell parses to just
    this tree. *)
From S2P Require Import Prelude Shell ShellParse.
Local Open Scope nat_scope.

Notation tcmd := (gcmd (list Z)).

Definition lpar : Z := 40%Z.
Definition rpar : Z := 41%Z.

(** Words separated by a blank. *)
Fixpoint print_args (ws : list (list Z)) : list Z :=
  match ws with
  | [] => []
  | [w] => w
  | w :: ws' => w ++ 32%Z :: print_args ws'
  end.

(** Subcommands are put in parentheses. *)
Fixpoint print (c : tcmd) : list Z :=
  match c with
  | EXEC argv => print_args argv
  | REDIR c file mode fd => lpar :: print c ++ rpar :: (if (fd =? 0)%Z then 60%Z else 62%Z) :: file
  | PIPE l r => lpar :: print l ++ rpar :: 124%Z :: lpar :: print r ++ [rpar]
  | LIST l r => lpar :: print l ++ rpar :: 59%Z :: lpar :: print r ++ [rpar]
  | BACK c => lpar :: print c ++ [rpar; 38%Z]
  end.

(** The commands of the shell: arguments are words, at most nine of them, and a
    redirection is of the input or of the output. *)
Fixpoint cmd_ok (c : tcmd) : Prop :=
  match c with
  | EXEC argv => Forall word argv /\ length argv < MAXARGS
  | REDIR c file mode fd => cmd_ok c /\ word file /\
      ((mode = O_RDONLY /\ fd = 0%Z) \/ (mode = Z.lor O_WRONLY O_CREATE /\ fd = 1%Z))
  | PIPE l r | LIST l r => cmd_ok l /\ cmd_ok r
  | BACK c => cmd_ok c
  end.

Lemma wordch_facts c : wordch c = true -> c <> 0%Z /\ in_set whitespace c = false /\ in_set symbols c = false.
Proof. unfold wordch. rewrite !andb_true_iff, !negb_true_iff, Z.eqb_neq. tauto. Qed.

Section Line.
Context (buf : list Z).
Notation es := (es buf).
Notation char_at := (char_at buf).
Notation skip_ws := (skip_ws buf).
Notation gettoken := (gettoken buf).
Notation peek := (peek buf).

(** ** Where the parser stands *)

Lemma at_char s c r : drop s buf = c :: r -> char_at s = c /\ s < es /\ drop (S s) buf = r.
Proof.
  intros H. assert (Hs : buf !! s = Some c) by (rewrite <- (Nat.add_0_r s), <- lookup_drop, H; done).
  unfold Shell.char_at. rewrite Hs. split; [done|]. split; [by eapply lookup_lt_Some|].
  rewrite <- Nat.add_1_r, <- drop_drop, H. done.
Qed.

Lemma at_end s : drop s buf = [] -> char_at s = 0%Z.
Proof.
  intros H. unfold Shell.char_at. rewrite lookup_ge_None_2; [done|]. apply (f_equal length) in H. rewrite length_drop in H. simpl in H. lia.
Qed.

Lemma at_app s w r : drop s buf = w ++ r -> drop (s + length w) buf = r.
Proof. intros H. by rewrite <- drop_drop, H, drop_app_length. Qed.

Lemma text_at s w r : drop s buf = w ++ r -> text buf (mkTok s (s + length w)) = w.
Proof. intros H. unfold text. cbn [t_eq t_q]. rewrite H. replace (s + length w - s) with (length w) by lia. apply take_app_length. Qed.

Lemma skip_ws_id s : in_set whitespace (char_at s) = false -> skip_ws s = s.
Proof. intros H. unfold Shell.skip_ws. destruct (es - s) eqn:E; [done|]. simpl. by rewrite H, andb_false_r. Qed.

(** The text at [s] does not begin with white space. *)
Definition dark (post : list Z) : Prop := match post with [] => True | c :: _ => in_set whitespace c = false end.

Lemma skip_ws_dark s post : drop s buf = post -> dark post -> skip_ws s = s.
Proof.
  intros H Hd. apply skip_ws_id. destruct post as [|c r]; [by rewrite at_end|]. by destruct (at_char s c r H) as [-> _].
Qed.

Lemma skip_ws_blank s r : drop s buf = 32%Z :: r -> dark r -> skip_ws s = S s.
Proof.
  intros H Hd. destruct (at_char s _ r H) as (Hc & Hlt & Hr). unfold Shell.skip_ws.
  destruct (es - s) eqn:E; [lia|]. cbn [skip_space]. rewrite (proj2 (Nat.ltb_lt _ _)), Hc by done. cbn [andb in_set].
  replace (in_set whitespace 32) with true by done. cbn [andb]. replace n with (es - S s) by lia. by eapply skip_ws_dark.
Qed.

Definition starts (toks post : list Z) : bool := match post with [] => false | c :: _ => negb (c =? 0)%Z && in_set toks c end.

Lemma peek_at s post toks : drop s buf = post -> dark post -> peek s toks = (starts toks post, s).
Proof.
  intros H Hd. unfold Shell.peek. rewrite (skip_ws_dark s post H Hd). f_equal. destruct post as [|c r]; [by rewrite at_end|].
  by destruct (at_char s c r H) as [-> _].
Qed.

Lemma gettoken_symbol s c r :
  drop s buf = c :: r -> in_set [124; 40; 41; 59; 38; 60]%Z c = true -> dark r -> gettoken s = (c, mkTok s (S s), S s).
Proof.
  intros H Hc Hd. destruct (at_char s c r H) as (E & Hlt & Hr).
  assert (Hw : in_set whitespace c = false /\ c <> 0%Z).
  { apply bool_decide_eq_true in Hc. rewrite !elem_of_cons, elem_of_nil in Hc. destruct_or! Hc; by subst. }
  unfold Shell.gettoken. rewrite (skip_ws_dark s (c :: r) H) by apply Hw. rewrite E, Hc. rewrite (proj2 (Z.eqb_neq _ _)) by apply Hw.
  by rewrite (skip_ws_dark (S s) r).
Qed.

Lemma gettoken_gt s r : drop s buf = 62%Z :: r -> head r <> Some 62%Z -> dark r -> gettoken s = (62%Z, mkTok s (S s), S s).
Proof.
  intros H Hh Hd. destruct (at_char s _ r H) as (E & Hlt & Hr). unfold Shell.gettoken.
  rewrite (skip_ws_dark s (62%Z :: r) H) by done. rewrite E.
  change (62 =? 0)%Z with false. change (in_set [124; 40; 41; 59; 38; 60]%Z 62) with false. change (62 =? 62)%Z with true. cbv iota zeta.
  assert (Hn : (char_at (S s) =? 62)%Z = false).
  { apply Z.eqb_neq. destruct r as [|c r]; [by rewrite at_end|]. destruct (at_char (S s) c r Hr) as (-> & _). intros ->. by apply Hh. }
  rewrite Hn. by rewrite (skip_ws_dark (S s) r).
Qed.

Lemma skip_word_at s w post fuel :
  drop s buf = w ++ post -> Forall (fun c => wordch c = true) w -> length w <= fuel ->
  match post with [] => True | c :: _ => wordch c = false /\ c <> 0%Z end -> skip_word buf s fuel = s + length w.
Proof.
  revert s fuel. induction w as [|c w IH]; intros s fuel H Hw Hf Hp; simpl in *.
  - rewrite Nat.add_0_r. destruct fuel as [|fuel]; [done|]. simpl. destruct post as [|c r].
    + assert (Hge : es <= s) by (apply (f_equal length) in H; rewrite length_drop in H; simpl in H; unfold Shell.es; lia).
      by rewrite (proj2 (Nat.ltb_ge _ _)).
    + destruct (at_char s c r H) as (-> & _). destruct Hp as [Hp Hz]. unfold wordch in Hp. rewrite (proj2 (Z.eqb_neq _ _)) in Hp by done.
      destruct (s <? es), (in_set whitespace c), (in_set symbols c); done.
  - destruct fuel as [|fuel]; [lia|]. simpl. destruct (at_char s c _ H) as (-> & Hlt & Hr). apply Forall_cons in Hw as [Hc Hw].
    destruct (wordch_facts c Hc) as (_ & -> & ->). rewrite (proj2 (Nat.ltb_lt _ _)) by done. simpl.
    rewrite IH; [lia|done|done|lia|done].
Qed.

Lemma gettoken_word s w post :
  drop s buf = w ++ post -> word w -> match post with [] => True | c :: _ => wordch c = false /\ c <> 0%Z end ->
  gettoken s = (97%Z, mkTok s (s + length w), skip_ws (s + length w)).
Proof.
  intros H [Hne Hw] Hp. destruct w as [|c w]; [done|]. destruct (at_char s c _ H) as (E & Hlt & Hr).
  destruct (wordch_facts c) as (F1 & F2 & F3); [by inversion Hw|]. unfold Shell.gettoken.
  rewrite (skip_ws_dark s _ H) by done. rewrite E. rewrite (proj2 (Z.eqb_neq c 0)) by done.
  assert (Hsym : in_set [124; 40; 41; 59; 38; 60]%Z c = false /\ c <> 62%Z).
  { unfold in_set, symbols in *. apply bool_decide_eq_false in F3. rewrite bool_decide_eq_false. set_solver. }
  rewrite (proj1 Hsym), (proj2 (Z.eqb_neq c 62)) by apply Hsym. rewrite (skip_word_at s (c :: w) post); try done.
  apply (f_equal length) in H. rewrite length_drop, length_app in H. unfold Shell.es. lia.
Qed.

Lemma gettoken_end s : drop s buf = [] -> gettoken s = (0%Z, mkTok s s, s).
Proof.
  intros H. unfold Shell.gettoken. rewrite (skip_ws_dark s [] H) by done. rewrite at_end by done. cbn. by rewrite (skip_ws_dark s [] H).
Qed.

(** What may follow a command: the end of the line or a closing parenthesis. *)
Definition closes (post : list Z) : Prop := match post with [] => True | c :: _ => c = rpar end.

Lemma closes_dark post : closes post -> dark post.
Proof. destruct post; [done|]. intros ->. done. Qed.

Lemma closes_starts post toks : closes post -> rpar ∉ toks -> starts toks post = false.
Proof. destruct post as [|c post]; [done|]. intros -> H. simpl. unfold in_set. by rewrite bool_decide_eq_false_2. Qed.

Lemma closes_stop post : closes post -> match post with [] => True | c :: _ => wordch c = false /\ c <> 0%Z end.
Proof. destruct post; [done|]. intros ->. done. Qed.

(** ** Redirections and arguments *)

Lemma no_redir wrap s post fuel :
  drop s buf = post -> dark post -> starts [60; 62]%Z post = false -> parseredirs buf wrap s (S fuel) = POk (wrap, s).
Proof. intros H Hd Hs. cbn [parseredirs]. by rewrite (peek_at s post _ H Hd), Hs. Qed.

Lemma word_dark w post : word w -> dark (w ++ post) /\ forall toks, toks ⊆ symbols -> starts toks (w ++ post) = false.
Proof.
  intros [Hne Hw]. destruct w as [|c w]; [done|]. destruct (wordch_facts c) as (F1 & F2 & F3); [by inversion Hw|].
  split; [done|]. intros toks Ht. simpl. apply andb_false_iff. right. unfold in_set, symbols in *. apply bool_decide_eq_false in F3.
  apply bool_decide_eq_false. set_solver.
Qed.

Lemma one_redir wrap s op file post fuel :
  drop s buf = op :: file ++ post -> op = 60%Z \/ op = 62%Z -> word file -> closes post ->
  parseredirs buf wrap s (S (S fuel)) =
    POk (fun c => redir_of op (mkTok (S s) (S s + length file)) (wrap c), S s + length file).
Proof.
  intros H Hop Hf Hp. destruct (at_char s op _ H) as (_ & _ & Hr). destruct (word_dark file post Hf) as [Hd Hst].
  assert (Hg : gettoken s = (op, mkTok s (S s), S s)).
  { destruct Hop as [->| ->].
    - eapply gettoken_symbol; [exact H|done|done].
    - eapply gettoken_gt; [exact H| |done]. specialize (Hst [62%Z]). destruct (file ++ post) as [|c r]; [done|]. simpl in *.
      intros [= ->]. unfold symbols in Hst. specialize (Hst ltac:(set_solver)). done. }
  cbn [parseredirs]. rewrite (peek_at s _ _ H) by (by destruct Hop as [->| ->]).
  replace (starts [60; 62]%Z (op :: file ++ post)) with true by (by destruct Hop as [->| ->]). rewrite Hg.
  rewrite (gettoken_word (S s) file post Hr Hf (closes_stop _ Hp)). cbn [Z.eqb negb Pos.eqb].
  pose proof (at_app (S s) file post Hr) as He. rewrite (skip_ws_dark _ post He) by (by apply closes_dark).
  apply (no_redir _ _ post); [done|by apply closes_dark|]. apply closes_starts; [done|]. unfold rpar. set_solver.
Qed.

(** The words after the first, and what follows. *)
Definition more_args (ws : list (list Z)) (post : list Z) : list Z :=
  match ws with [] => post | _ => 32%Z :: print_args ws ++ post end.

Lemma print_args_cons w ws post : print_args (w :: ws) ++ post = w ++ more_args ws post.
Proof. destruct ws; simpl; [done|]. by rewrite <- app_assoc. Qed.

Lemma args_start ws post : Forall word ws -> closes post -> dark (print_args ws ++ post) /\ starts [60; 62]%Z (print_args ws ++ post) = false.
Proof.
  intros Hw Hp. destruct ws as [|w ws].
  - split; [by apply closes_dark|]. apply closes_starts; [done|]. unfold rpar. set_solver.
  - rewrite print_args_cons. apply Forall_cons in Hw as [Hw _]. destruct (word_dark w (more_args ws post) Hw) as [H1 H2].
    split; [done|]. apply H2. unfold symbols. set_solver.
Qed.

Lemma args_ok wrap ws s argv post fuel :
  drop s buf = print_args ws ++ post -> Forall word ws -> closes post -> length argv + length ws < MAXARGS -> length ws < fuel ->
  exists ts, parseargs buf wrap argv s fuel = POk (wrap (EXEC (argv ++ ts)), s + length (print_args ws)) /\ text buf <$> ts = ws.
Proof.
  revert s argv fuel. induction ws as [|w ws IH]; intros s argv fuel H Hw Hp Hl Hf; (destruct fuel as [|fuel]; [simpl in Hf; lia|]); cbn [parseargs].
  - exists []. rewrite app_nil_r, Nat.add_0_r. split; [|done]. simpl in H. rewrite (peek_at s post _ H) by (by apply closes_dark).
    destruct post as [|c post]; [|by simpl in Hp; subst c]. simpl starts. cbv iota. by rewrite gettoken_end.
  - rewrite print_args_cons in H. apply Forall_cons in Hw as [Hw Hws]. simpl in Hl, Hf.
    destruct (word_dark w (more_args ws post) Hw) as [Hd Hst]. rewrite (peek_at s _ _ H Hd), Hst by (unfold symbols; set_solver).
    assert (Hstop : match more_args ws post with [] => True | c :: _ => wordch c = false /\ c <> 0%Z end).
    { destruct ws; [by apply closes_stop|done]. }
    rewrite (gettoken_word s w _ H Hw Hstop). cbn [Z.eqb negb Pos.eqb]. rewrite length_app. cbn [length].
    rewrite (proj2 (Nat.leb_gt _ _)) by (unfold MAXARGS in *; lia).
    pose proof (at_app s w _ H) as He. destruct (args_start ws post Hws Hp) as [D1 D2].
    set (s' := skip_ws (s + length w)).
    assert (Hs' : drop s' buf = print_args ws ++ post /\ s' + length (print_args ws) = s + length (print_args (w :: ws))).
    { unfold s'. destruct ws as [|w' ws]; unfold more_args in He.
      - rewrite (skip_ws_dark _ post He) by (by apply closes_dark). simpl. split; [done|lia].
      - rewrite (skip_ws_blank _ _ He D1). split; [by destruct (at_char _ _ _ He) as (_ & _ & ->)|].
        change (print_args (w :: w' :: ws)) with (w ++ 32%Z :: print_args (w' :: ws)). rewrite length_app. cbn [length]. lia. }
    destruct Hs' as [Hs1 Hs2]. destruct fuel as [|fuel]; [lia|].
    rewrite (no_redir wrap s' _ fuel Hs1 D1 D2). cbn [mbind presult_bind fst snd].
    destruct (IH s' (argv ++ [mkTok s (s + length w)]) (S fuel)) as (ts & E & Ht); [done|done|done|rewrite length_app; simpl; lia|lia|].
    exists (mkTok s (s + length w) :: ts). split.
    + unfold mbind, presult_bind. cbn [fst snd]. rewrite E, Hs2. by rewrite <- app_assoc.
    + rewrite fmap_cons, Ht. f_equal. by eapply text_at.
Qed.

(** ** Commands *)

Lemma print_dark c post : cmd_ok c -> dark post -> dark (print c ++ post).
Proof.
  destruct c as [argv| | | |]; try done. intros [Hw _] Hp. destruct argv as [|w ws]; [done|]. change (print (EXEC (w :: ws))) with (print_args (w :: ws)).
  rewrite print_args_cons. apply Forall_cons in Hw as [Hw _]. by apply word_dark.
Qed.

Lemma line_step s fuel :
  parseline buf s (S fuel) =
    (r ← parsepipe buf s fuel;
     r ← parseback buf r.1 r.2 fuel;
     let '(c, s) := (r : cmd * nat) in
     let '(b, s) := peek s [59]%Z in
     if b then let '(_, _, s) := gettoken s in r ← parseline buf s fuel; POk (LIST c r.1, r.2)
     else POk (c, s)).
Proof. done. Qed.

Lemma pipe_end s c s' post fuel :
  parseexec buf s fuel = POk (c, s') -> drop s' buf = post -> dark post -> starts [124]%Z post = false ->
  parsepipe buf s (S fuel) = POk (c, s').
Proof.
  intros E H Hd Hs. cbn [parsepipe]. rewrite E. unfold mbind, presult_bind. by rewrite (peek_at s' post _ H Hd), Hs.
Qed.

Lemma no_back c s post fuel :
  drop s buf = post -> dark post -> starts [38]%Z post = false -> parseback buf c s (S fuel) = POk (c, s).
Proof. intros H Hd Hs. cbn [parseback]. by rewrite (peek_at s post _ H Hd), Hs. Qed.

Lemma one_back c s post fuel :
  drop s buf = 38%Z :: post -> dark post -> starts [38]%Z post = false -> parseback buf c s (S (S fuel)) = POk (BACK c, S s).
Proof.
  intros H Hd Hs. destruct (at_char _ _ _ H) as (_ & _ & Hr). pose proof (no_back (BACK c) (S s) post fuel Hr Hd Hs) as E.
  remember (S fuel) as f. cbn [parseback]. rewrite (peek_at s _ _ H) by done. simpl starts. cbv iota.
  by rewrite (gettoken_symbol s _ _ H).
Qed.

Lemma line_end s c s' post fuel :
  parsepipe buf s (S fuel) = POk (c, s') -> drop s' buf = post -> closes post -> parseline buf s (S (S fuel)) = POk (c, s').
Proof.
  intros E H Hp. pose proof (closes_dark _ Hp) as Hd. cbn [parseline]. cbn [parseline] in E. rewrite E. unfold mbind, presult_bind. cbn [fst snd].
  rewrite (no_back c s' post fuel H Hd) by (apply closes_starts; [done|unfold rpar; set_solver]).
  rewrite (peek_at s' post _ H Hd). rewrite closes_starts; [done|done|unfold rpar; set_solver].
Qed.

Lemma block_ok s c s3 r rest fuel :
  drop s buf = lpar :: r -> dark r -> parseline buf (S s) fuel = POk (c, s3) -> drop s3 buf = rpar :: rest -> dark rest ->
  parseexec buf s (S (S fuel)) = (r ← parseredirs buf (fun c => c) (S s3) fuel; POk (r.1 c, r.2)).
Proof.
  intros H Hd E H3 Hd3. cbn [parseexec]. rewrite (peek_at s _ _ H) by done. simpl starts. cbv iota. cbn [parseblock].
  rewrite (peek_at s _ _ H) by done. simpl starts. cbn [negb]. rewrite (gettoken_symbol s lpar r H) by done.
  unfold mbind, presult_bind. rewrite E. rewrite (peek_at s3 _ _ H3) by done. simpl starts. cbn [negb].
  by rewrite (gettoken_symbol s3 rpar rest H3) by done.
Qed.

Lemma block_plain s c s3 r rest fuel :
  drop s buf = lpar :: r -> dark r -> parseline buf (S s) (S fuel) = POk (c, s3) -> drop s3 buf = rpar :: rest -> dark rest ->
  starts [60; 62]%Z rest = false -> parseexec buf s (S (S (S fuel))) = POk (c, S s3).
Proof.
  intros H Hd E H3 Hd3 Hs. rewrite (block_ok s c s3 r rest (S fuel)) by done. destruct (at_char s3 _ _ H3) as (_ & _ & Hr).
  by rewrite (no_redir _ _ rest fuel Hr).
Qed.

Lemma print_args_length ws : Forall word ws -> length ws <= length (print_args ws).
Proof.
  induction ws as [|w ws IH]; intros Hw; [done|]. apply Forall_cons in Hw as [[Hne _] Hw]. specialize (IH Hw).
  assert (0 < length w) by (destruct w; [done|simpl; lia]). destruct ws as [|w' ws]; simpl in *; [lia|]. rewrite length_app. simpl. lia.
Qed.

(** The parser at the text of [c]. *)
Definition parses (c : tcmd) : Prop := forall s post fuel,
  drop s buf = print c ++ post -> closes post -> 4 * length (print c) + 4 < fuel ->
  exists c', parseline buf s fuel = POk (c', s + length (print c)) /\ gcmd_map (text buf) c' = c.

(** A subcommand in parentheses. *)
Lemma sub_ok c s rest fuel :
  parses c -> cmd_ok c -> drop s buf = lpar :: print c ++ rpar :: rest -> dark rest -> starts [60; 62]%Z rest = false ->
  4 * length (print c) + 7 < fuel ->
  exists c', parseexec buf s fuel = POk (c', s + length (print c) + 2) /\ gcmd_map (text buf) c' = c /\
    drop (s + length (print c) + 2) buf = rest.
Proof.
  intros Hp Hok H Hd Hs Hf. destruct (at_char s _ _ H) as (_ & _ & H1).
  destruct (Hp (S s) (rpar :: rest) (fuel - 2)) as (c' & E & Hc); [done|done|lia|]. exists c'.
  pose proof (at_app (S s) (print c) _ H1) as H3. destruct (at_char _ _ _ H3) as (_ & _ & Hr).
  replace (s + length (print c) + 2) with (S (S s + length (print c))) by lia. split; [|done].
  destruct fuel as [|[|[|fuel]]]; [lia|lia|lia|]. simpl Nat.sub in E.
  by eapply block_plain; [exact H|apply print_dark| | | |].
Qed.

Lemma exec_parses argv : cmd_ok (EXEC argv) -> parses (EXEC argv).
Proof.
  intros [Hw Hl] s post fuel. change (print (EXEC argv)) with (print_args argv). intros H Hp Hf. destruct fuel as [|[|[|fuel]]]; [lia|lia|lia|].
  destruct (args_start argv post Hw Hp) as [D1 D2]. pose proof (print_args_length argv Hw).
  destruct (args_ok (fun c => c) argv s [] post fuel H Hw Hp) as (ts & E & Ht); [done|lia|]. exists (EXEC ts).
  pose proof (at_app _ _ _ H) as He. pose proof (closes_dark _ Hp). split; [|by rewrite <- Ht].
  eapply line_end; [|exact He|done]. eapply pipe_end; [|exact He|done|apply closes_starts; [done|unfold rpar; set_solver]].
  cbn [parseexec]. rewrite (peek_at s _ _ H D1).
  assert (Hst : starts [40]%Z (print_args argv ++ post) = false).
  { destruct argv as [|w ws]; [apply closes_starts; [done|unfold rpar; set_solver]|]. rewrite print_args_cons.
    apply Forall_cons in Hw as [Hw _]. apply word_dark; [done|]. unfold symbols. set_solver. }
  rewrite Hst. destruct fuel as [|fuel]; [lia|]. rewrite (no_redir _ s _ fuel H D1 D2). unfold mbind, presult_bind. cbn [fst snd]. exact E.
Qed.

Lemma redir_parses c file mode fd : parses c -> cmd_ok (REDIR c file mode fd) -> parses (REDIR c file mode fd).
Proof.
  intros Hc (Hok & Hf & Hm) s post fuel H Hp Hfu. set (op := if (fd =? 0)%Z then 60%Z else 62%Z).
  assert (Hop : op = 60%Z \/ op = 62%Z) by (unfold op; destruct (fd =? 0)%Z; auto).
  assert (Hpr : print (REDIR c file mode fd) = lpar :: print c ++ rpar :: op :: file) by done.
  rewrite Hpr in *. cbn [length] in *. rewrite length_app in *. cbn [length] in *.
  assert (H1 : drop s buf = lpar :: print c ++ rpar :: op :: file ++ post) by (rewrite H; simpl; by rewrite <- app_assoc).
  destruct (at_char s _ _ H1) as (_ & _ & H2). destruct fuel as [|[|[|[|[|[|fuel]]]]]]; try lia.
  destruct (Hc (S s) (rpar :: op :: file ++ post) (S (S fuel)) H2) as (c' & E & Hcc); [done|lia|].
  pose proof (at_app (S s) (print c) _ H2) as H3. set (s3 := S s + length (print c)) in *. destruct (at_char _ _ _ H3) as (_ & _ & H4).
  set (t := mkTok (S (S s3)) (S (S s3) + length file)).
  assert (Hexec : parseexec buf s (S (S (S (S fuel)))) = POk (redir_of op t c', S (S s3) + length file)).
  { rewrite (block_ok s c' s3 _ (op :: file ++ post) (S (S fuel)) H1); [|by apply print_dark|done|exact H3|by destruct Hop as [->| ->]].
    by rewrite (one_redir _ (S s3) op file post fuel H4). }
  pose proof (at_app (S (S s3)) file post) as H5. destruct (at_char _ _ _ H4) as (_ & _ & H6). specialize (H5 H6).
  exists (redir_of op t c'). pose proof (closes_dark _ Hp). split.
  - replace (s + S (length (print c) + S (S (length file)))) with (S (S s3) + length file) by lia.
    eapply line_end; [|exact H5|done]. eapply pipe_end; [exact Hexec|exact H5|done|].
    apply closes_starts; [done|unfold rpar; set_solver].
  - assert (Ht : text buf t = file) by (by eapply text_at).
    unfold op, redir_of. destruct Hm as [[-> ->]|[-> ->]]; simpl; by rewrite Hcc, Ht.
Qed.

Lemma pipe_parses l r : parses l -> parses r -> cmd_ok (PIPE l r) -> parses (PIPE l r).
Proof.
  intros Hl Hr (Ol & Or) s post fuel H Hp Hf.
  assert (Hlen : length (print (PIPE l r)) = length (print l) + length (print r) + 5) by (simpl; rewrite length_app; simpl; rewrite length_app; simpl; lia).
  assert (H1 : drop s buf = lpar :: print l ++ rpar :: 124%Z :: lpar :: print r ++ rpar :: post).
  { rewrite H. simpl. by rewrite <- app_assoc; simpl; rewrite <- app_assoc. }
  destruct fuel as [|[|[|fuel]]]; try lia. pose proof (closes_dark _ Hp) as Hd.
  destruct (sub_ok l s (124%Z :: lpar :: print r ++ rpar :: post) (S fuel) Hl Ol H1) as (l' & El & Hl' & H2); [done|done|lia|].
  set (s2 := s + length (print l) + 2) in *. destruct (at_char _ _ _ H2) as (_ & _ & H3).
  destruct (sub_ok r (S s2) post fuel Hr Or H3) as (r' & Er & Hr' & H4); [done|apply closes_starts; [done|unfold rpar; set_solver]|lia|].
  set (s3 := S s2 + length (print r) + 2) in *. exists (PIPE l' r'). split; [|simpl; congruence].
  replace (s + length (print (PIPE l r))) with s3 by lia. eapply line_end; [|exact H4|done].
  cbn [parsepipe] in *. rewrite El. unfold mbind, presult_bind. rewrite (peek_at s2 _ _ H2) by done. simpl starts. cbv iota.
  rewrite (gettoken_symbol s2 _ _ H2) by done. fold (parsepipe buf). rewrite Er.
  rewrite (peek_at s3 post _ H4 Hd), closes_starts; [done|done|unfold rpar; set_solver].
Qed.

Lemma list_parses l r : parses l -> parses r -> cmd_ok (LIST l r) -> parses (LIST l r).
Proof.
  intros Hl Hr (Ol & Or) s post fuel H Hp Hf.
  assert (Hlen : length (print (LIST l r)) = length (print l) + length (print r) + 5) by (simpl; rewrite length_app; simpl; rewrite length_app; simpl; lia).
  assert (H1 : drop s buf = lpar :: print l ++ rpar :: 59%Z :: lpar :: print r ++ rpar :: post).
  { rewrite H. simpl. by rewrite <- app_assoc; simpl; rewrite <- app_assoc. }
  destruct fuel as [|[|[|[|fuel]]]]; try lia. pose proof (closes_dark _ Hp) as Hd.
  destruct (sub_ok l s (59%Z :: lpar :: print r ++ rpar :: post) (S (S fuel)) Hl Ol H1) as (l' & El & Hl' & H2); [done|done|lia|].
  set (s2 := s + length (print l) + 2) in *. destruct (at_char _ _ _ H2) as (_ & _ & H3).
  destruct (sub_ok r (S s2) post (S fuel) Hr Or H3) as (r' & Er & Hr' & H4); [done|apply closes_starts; [done|unfold rpar; set_solver]|lia|].
  set (s3 := S s2 + length (print r) + 2) in *. exists (LIST l' r'). split; [|simpl; congruence].
  replace (s + length (print (LIST l r))) with s3 by lia.
  assert (Epl : parsepipe buf s (S (S (S fuel))) = POk (l', s2)) by (by eapply pipe_end; [exact El|exact H2| |]).
  assert (Epr : parsepipe buf (S s2) (S (S fuel)) = POk (r', s3)).
  { eapply pipe_end; [exact Er|exact H4|done|]. apply closes_starts; [done|unfold rpar; set_solver]. }
  pose proof (line_end _ _ _ _ _ Epr H4 Hp) as Elr.
  rewrite (line_step s (S (S (S fuel)))). rewrite Epl. unfold mbind, presult_bind. cbn [fst snd].
  rewrite (no_back l' s2 _ (S (S fuel)) H2) by done. rewrite (peek_at s2 _ _ H2) by done. simpl starts. cbv iota.
  rewrite (gettoken_symbol s2 _ _ H2) by done. by rewrite Elr.
Qed.

Lemma back_parses c : parses c -> cmd_ok (BACK c) -> parses (BACK c).
Proof.
  intros Hc Oc s post fuel H Hp Hf.
  assert (Hlen : length (print (BACK c)) = length (print c) + 3) by (simpl; rewrite length_app; simpl; lia).
  assert (H1 : drop s buf = lpar :: print c ++ rpar :: 38%Z :: post).
  { rewrite H. simpl. by rewrite <- app_assoc. }
  destruct fuel as [|[|[|[|fuel]]]]; try lia. pose proof (closes_dark _ Hp) as Hd.
  destruct (sub_ok c s (38%Z :: post) (S (S fuel)) Hc Oc H1) as (c' & Ec & Hc' & H2); [done|done|lia|].
  set (s2 := s + length (print c) + 2) in *. destruct (at_char _ _ _ H2) as (_ & _ & H3). exists (BACK c'). split; [|simpl; congruence].
  replace (s + length (print (BACK c))) with (S s2) by lia.
  assert (Ep : parsepipe buf s (S (S (S fuel))) = POk (c', s2)) by (by eapply pipe_end; [exact Ec|exact H2| |]).
  rewrite (line_step s (S (S (S fuel)))). rewrite Ep. unfold mbind, presult_bind. cbn [fst snd].
  rewrite (one_back c' s2 post (S fuel) H2 Hd) by (apply closes_starts; [done|unfold rpar; set_solver]).
  rewrite (peek_at (S s2) post _ H3 Hd). rewrite closes_starts; [done|done|unfold rpar; set_solver].
Qed.

Lemma all_parse c : cmd_ok c -> parses c.
Proof.
  induction c as [argv|c IH file m fd|l IHl r IHr|l IHl r IHr|c IH]; intros Hok.
  - by apply exec_parses.
  - apply redir_parses; [apply IH, Hok|done].
  - apply pipe_parses; [apply IHl, Hok|apply IHr, Hok|done].
  - apply list_parses; [apply IHl, Hok|apply IHr, Hok|done].
  - apply back_parses; [by apply IH|done].
Qed.
End Line.

(** Parsing the text of a command gives the command. *)
Lemma parse_print_ok c : cmd_ok c -> exists c', parse (print c) = POk c' /\ gcmd_map (text (print c)) c' = c.
Proof.
  intros Hok. destruct (all_parse (print c) c Hok 0 [] (parse_fuel (print c))) as (c' & E & Hc).
  - simpl. by rewrite app_nil_r.
  - done.
  - unfold parse_fuel. lia.
  - exists c'. split; [|done]. unfold parse. rewrite E. unfold mbind, presult_bind. cbn [fst snd].
    rewrite (peek_at _ _ [] []); [|simpl; by rewrite drop_all|done]. cbn [negb]. unfold es. simpl. by rewrite Nat.eqb_refl.
Qed.
