(* ===== verification/ShellRun.v ===== *)
(** * Running commands

    [runcmd] of [sh.c] as the system calls that a process makes, and what they
    do to file descriptors when they succeed: which programs are executed, with
    which descriptors. *)
From S2P Require Import Prelude Shell ShellParse ShellPrint.
Local Open Scope Z_scope.

(** What a process does next.  The functions go on with the result of the call;
    [fork] returns 0 in the child, and [exec] returns only when it fails. *)
Inductive prog : Type :=
| Exit
| Exec (path : list Z) (argv : list (list Z)) (failed : prog)
| Close (fd : Z) (k : prog)
| Dup (fd : Z) (k : Z -> prog)
| Open (path : list Z) (mode : Z) (k : Z -> prog)
| Fork (k : Z -> prog)
| Wait (k : prog)
| Pipe (k : option (Z * Z) -> prog)
| Unlink (path : list Z) (k : Z -> prog)
| Chdir (path : list Z) (k : Z -> prog)
| Print (fd : Z) (k : prog).

(** [panic]: print and exit. *)
Definition sh_panic : prog := Print 2 Exit.

Definition fork1 (k : Z -> prog) : prog := Fork (fun pid => if pid =? -1 then sh_panic else k pid).

Fixpoint runcmd (c : tcmd) : prog :=
  match c with
  | EXEC [] => Exit
  | EXEC (path :: args) => Exec path (path :: args) (Print 2 Exit)
  | REDIR c file mode fd =>
      Close fd (Open file mode (fun r => if r <? 0 then Print 2 Exit else runcmd c))
  | LIST l r => fork1 (fun pid => if pid =? 0 then runcmd l else Wait (runcmd r))
  | PIPE l r =>
      Pipe (fun p =>
        match p with
        | None => sh_panic
        | Some (p0, p1) =>
            fork1 (fun pid =>
              if pid =? 0 then Close 1 (Dup p1 (fun _ => Close p0 (Close p1 (runcmd l))))
              else fork1 (fun pid =>
                if pid =? 0 then Close 0 (Dup p0 (fun _ => Close p0 (Close p1 (runcmd r))))
                else Close p0 (Close p1 (Wait (Wait Exit)))))
        end)
  | BACK c => fork1 (fun pid => if pid =? 0 then runcmd c else Exit)
  end.

(** ** Descriptors *)

Inductive desc : Type :=
| DFile (path : list Z) (mode : Z)
| DPipeR (n : nat)
| DPipeW (n : nat)
| DOther (n : nat).

Notation fdtab := (list (option desc)).

(** The lowest free descriptor. *)
Fixpoint lowest (t : fdtab) : option nat :=
  match t with
  | [] => None
  | None :: _ => Some 0%nat
  | Some _ :: t' => S <$> lowest t'
  end.

Definition alloc (d : desc) (t : fdtab) : option (nat * fdtab) :=
  match lowest t with Some fd => Some (fd, <[fd := Some d]> t) | None => None end.

Definition close_fd (fd : Z) (t : fdtab) : fdtab := <[Z.to_nat fd := None]> t.

(** The programs that are executed, with their descriptors, when no call fails
    for another reason than a full table; [n] numbers the pipes. *)
Fixpoint run (p : prog) (t : fdtab) (n : nat) : list (list (list Z) * fdtab) * nat :=
  match p with
  | Exit => ([], n)
  | Exec _ argv _ => ([(argv, t)], n)
  | Close fd k => run k (close_fd fd t) n
  | Dup fd k =>
      match t !! Z.to_nat fd with
      | Some (Some d) =>
          match alloc d t with Some (fd', t') => run (k (Z.of_nat fd')) t' n | None => run (k (-1)) t n end
      | _ => run (k (-1)) t n
      end
  | Open path mode k =>
      match alloc (DFile path mode) t with Some (fd, t') => run (k (Z.of_nat fd)) t' n | None => run (k (-1)) t n end
  | Fork k =>
      let (l1, n1) := run (k 0) t n in
      let (l2, n2) := run (k 1) t n1 in (l1 ++ l2, n2)
  | Wait k => run k t n
  | Pipe k =>
      match alloc (DPipeR n) t with
      | None => run (k None) t n
      | Some (p0, t1) =>
          match alloc (DPipeW n) t1 with
          | None => run (k None) t n
          | Some (p1, t2) => run (k (Some (Z.of_nat p0, Z.of_nat p1))) t2 (S n)
          end
      end
  | Unlink _ k | Chdir _ k => run (k 0) t n
  | Print _ k => run k t n
  end.

(** What a command line means. *)
Fixpoint meaning (c : tcmd) (t : fdtab) (n : nat) : list (list (list Z) * fdtab) * nat :=
  match c with
  | EXEC [] => ([], n)
  | EXEC argv => ([(argv, t)], n)
  | REDIR c file mode fd => meaning c (<[Z.to_nat fd := Some (DFile file mode)]> t) n
  | PIPE l r =>
      let (l1, n1) := meaning l (<[1%nat := Some (DPipeW n)]> t) (S n) in
      let (l2, n2) := meaning r (<[0%nat := Some (DPipeR n)]> t) n1 in (l1 ++ l2, n2)
  | LIST l r =>
      let (l1, n1) := meaning l t n in
      let (l2, n2) := meaning r t n1 in (l1 ++ l2, n2)
  | BACK c => meaning c t n
  end.

(** The standard descriptors are open and two more can be opened. *)
Definition opened (t : fdtab) (i : nat) : Prop := exists d, t !! i = Some (Some d).
Definition nfree (t : fdtab) : nat := length (filter (fun x : option desc => x = None) t).
Record std_ok (t : fdtab) : Prop := {
  so_open i : (i < 3)%nat -> opened t i;
  so_free : (2 <= nfree t)%nat
}.

Lemma lowest_Some t fd : lowest t = Some fd -> t !! fd = Some None /\ forall i, (i < fd)%nat -> exists d, t !! i = Some (Some d).
Proof.
  revert fd. induction t as [|[d|] t IH]; intros fd H; simpl in H; [done| |].
  - destruct (lowest t) as [fd'|] eqn:E; [|done]. injection H as <-. destruct (IH fd' eq_refl) as [H1 H2]. split; [done|].
    intros [|i] Hi; [by exists d|]. apply H2. lia.
  - injection H as <-. split; [done|]. lia.
Qed.

Lemma lowest_unique t fd : t !! fd = Some None -> (forall i, (i < fd)%nat -> exists d, t !! i = Some (Some d)) -> lowest t = Some fd.
Proof.
  revert fd. induction t as [|x t IH]; intros fd H1 H2; [done|]. destruct fd as [|fd]; [by injection H1 as ->|].
  destruct (H2 0%nat) as [d [= ->]]; [lia|]. simpl. rewrite (IH fd); [done|done|]. intros i Hi. apply (H2 (S i)). lia.
Qed.

Lemma nfree_lowest t : (0 < nfree t)%nat -> exists fd, lowest t = Some fd.
Proof.
  unfold nfree. induction t as [|[d|] t IH]; simpl; [lia| |].
  - rewrite filter_cons_False by done. intros H. destruct (IH H) as [fd ->]. by eexists.
  - intros _. by eexists.
Qed.

Lemma nfree_insert t fd x : t !! fd = Some x -> x <> None -> forall d, nfree (<[fd := Some d]> t) = nfree t.
Proof.
  intros H Hx d. unfold nfree. rewrite insert_take_drop by (by eapply lookup_lt_Some). rewrite <- (take_drop_middle t fd x H) at 3.
  rewrite !filter_app, !length_app, !filter_cons_False by done. done.
Qed.

Lemma nfree_alloc t fd : t !! fd = Some None -> forall d, nfree t = S (nfree (<[fd := Some d]> t)).
Proof.
  intros H d. unfold nfree. rewrite insert_take_drop by (by eapply lookup_lt_Some). rewrite <- (take_drop_middle t fd None H) at 1.
  rewrite !filter_app, !length_app, filter_cons_True, filter_cons_False by done. simpl. lia.
Qed.

Lemma opened_insert t fd d i : opened t i -> opened (<[fd := Some d]> t) i.
Proof.
  intros [e He]. destruct (decide (fd = i)) as [->|]; [exists d; apply list_lookup_insert_eq; by eapply lookup_lt_Some|].
  exists e. by rewrite list_lookup_insert_ne.
Qed.

Lemma std_insert t fd d : std_ok t -> (fd < 3)%nat -> std_ok (<[fd := Some d]> t).
Proof.
  intros [Ho Hf] Hfd. split; [intros i Hi; by apply opened_insert, Ho|]. destruct (Ho fd Hfd) as [e He].
  rewrite (nfree_insert t fd (Some e)); done.
Qed.

(** A descriptor that was closed is the next to be opened if the lower ones are
    in use. *)
Lemma alloc_closed t fd d : (forall i, (i < 3)%nat -> opened t i) -> (fd < 3)%nat -> alloc d (close_fd (Z.of_nat fd) t) = Some (fd, <[fd := Some d]> t).
Proof.
  intros Ho Hfd. unfold alloc, close_fd. rewrite Nat2Z.id. destruct (Ho fd Hfd) as [e He]. rewrite (lowest_unique _ fd).
  - by rewrite list_insert_insert_eq.
  - apply list_lookup_insert_eq. by eapply lookup_lt_Some.
  - intros i Hi. rewrite list_lookup_insert_ne by lia. apply Ho. lia.
Qed.

Lemma alloc_high t d : std_ok t -> exists fd, alloc d t = Some (fd, <[fd := Some d]> t) /\ (3 <= fd)%nat /\ t !! fd = Some None.
Proof.
  intros [Ho Hf]. destruct (nfree_lowest t) as [fd E]; [lia|]. exists fd. unfold alloc. rewrite E. split; [done|].
  destruct (lowest_Some _ _ E) as [H1 _]. split; [|done]. destruct (decide (fd < 3)%nat) as [Hlt|]; [|lia].
  destruct (Ho fd Hlt) as [e He]. congruence.
Qed.

(** The pipe's own descriptors are gone; one end is in place of [fd]. *)
Lemma plumb t a b fd d x y :
  t !! a = Some None -> t !! b = Some None -> a <> b -> (3 <= a)%nat -> (3 <= b)%nat -> (fd < 3)%nat ->
  close_fd (Z.of_nat b) (close_fd (Z.of_nat a) (<[fd := Some d]> (<[b := Some y]> (<[a := Some x]> t)))) = <[fd := Some d]> t.
Proof.
  intros Ha Hb Hab Ha3 Hb3 Hfd. unfold close_fd. rewrite !Nat2Z.id. apply list_eq. intros i.
  destruct (decide (i = b)) as [->|Hib].
  { rewrite list_lookup_insert_eq, list_lookup_insert_ne by (lia || rewrite !length_insert; by eapply lookup_lt_Some). done. }
  rewrite list_lookup_insert_ne by done. destruct (decide (i = a)) as [->|Hia].
  { rewrite list_lookup_insert_eq, list_lookup_insert_ne by (lia || rewrite !length_insert; by eapply lookup_lt_Some). done. }
  rewrite list_lookup_insert_ne by done. destruct (decide (i = fd)) as [->|Hif].
  { destruct (decide (fd < length t)%nat); [by rewrite !list_lookup_insert_eq by (rewrite ?length_insert; done)|].
    rewrite !list_insert_ge by (rewrite ?length_insert; lia). apply lookup_lt_Some in Ha. lia. }
  by rewrite !list_lookup_insert_ne.
Qed.

(** [dup] of the descriptor [src] after closing [fd]. *)
Lemma dup_closed t fd src d k n :
  (forall i, (i < 3)%nat -> opened t i) -> (fd < 3)%nat -> (3 <= src)%nat -> t !! src = Some (Some d) ->
  run (Dup (Z.of_nat src) k) (close_fd (Z.of_nat fd) t) n = run (k (Z.of_nat fd)) (<[fd := Some d]> t) n.
Proof.
  intros Ht Hfd Hs Hsrc. cbn [run]. rewrite Nat2Z.id. assert (E : close_fd (Z.of_nat fd) t !! src = Some (Some d)).
  { unfold close_fd. rewrite Nat2Z.id, list_lookup_insert_ne by lia. done. }
  by rewrite E, alloc_closed.
Qed.

(** The descriptors of a new pipe. *)
Lemma pipe_descs t n : std_ok t ->
  exists a b, let t1 := <[a := Some (DPipeR n)]> t in let t2 := <[b := Some (DPipeW n)]> t1 in
    (forall k, run (Pipe k) t n = run (k (Some (Z.of_nat a, Z.of_nat b))) t2 (S n)) /\
    (3 <= a)%nat /\ (3 <= b)%nat /\ a <> b /\ t !! a = Some None /\ t !! b = Some None /\
    (forall i, (i < 3)%nat -> opened t2 i) /\ t2 !! a = Some (Some (DPipeR n)) /\ t2 !! b = Some (Some (DPipeW n)).
Proof.
  intros Ht. destruct (alloc_high t (DPipeR n) Ht) as (a & Ea & Ha & Ha'). exists a.
  set (t1 := <[a := Some (DPipeR n)]> t).
  assert (Ho1 : forall i, (i < 3)%nat -> opened t1 i) by (intros i Hi; apply opened_insert; by apply Ht).
  assert (Hb : exists b, alloc (DPipeW n) t1 = Some (b, <[b := Some (DPipeW n)]> t1) /\ (3 <= b)%nat /\ t1 !! b = Some None).
  { destruct (nfree_lowest t1) as [b E]; [pose proof (so_free _ Ht); pose proof (nfree_alloc t a Ha' (DPipeR n)) as Hn; fold t1 in Hn; lia|].
    exists b. unfold alloc. rewrite E. split; [done|]. destruct (lowest_Some _ _ E) as [H1 _]. split; [|done].
    destruct (decide (b < 3)%nat) as [Hlt|]; [|lia]. destruct (Ho1 b Hlt) as [e He]. congruence. }
  destruct Hb as (b & Eb & Hb & Hb'). exists b. intros t1' t2. subst t1'. fold t1 in t2.
  assert (Hab : a <> b) by (intros ->; unfold t1 in Hb'; rewrite list_lookup_insert_eq in Hb' by (by eapply lookup_lt_Some); done).
  assert (Hbt : t !! b = Some None) by (unfold t1 in Hb'; by rewrite list_lookup_insert_ne in Hb').
  split_and!; try done.
  - intros k. cbn [run]. rewrite Ea. fold t1. by rewrite Eb.
  - intros i Hi. by apply opened_insert, Ho1.
  - unfold t2, t1. rewrite list_lookup_insert_ne by done. apply list_lookup_insert_eq. by eapply lookup_lt_Some.
  - apply list_lookup_insert_eq. by eapply lookup_lt_Some.
Qed.

(** The two processes of a pipe. *)
Lemma run_pipe (L R : prog) t n :
  std_ok t ->
  run (Pipe (fun p =>
    match p with
    | None => sh_panic
    | Some (p0, p1) =>
        fork1 (fun pid =>
          if pid =? 0 then Close 1 (Dup p1 (fun _ => Close p0 (Close p1 L)))
          else fork1 (fun pid =>
            if pid =? 0 then Close 0 (Dup p0 (fun _ => Close p0 (Close p1 R)))
            else Close p0 (Close p1 (Wait (Wait Exit)))))
    end)) t n =
  let (l1, n1) := run L (<[1%nat := Some (DPipeW n)]> t) (S n) in
  let (l2, n2) := run R (<[0%nat := Some (DPipeR n)]> t) n1 in (l1 ++ l2, n2).
Proof.
  intros Ht. destruct (pipe_descs t n Ht) as (a & b & H). cbv zeta in H. set (t1 := <[a := Some (DPipeR n)]> t) in H.
  set (t2 := <[b := Some (DPipeW n)]> t1) in H. destruct H as (E & Ha & Hb & Hab & Ha' & Hbt & Ho2 & La & Lb). rewrite E.
  assert (HL : forall m, run (Close 1 (Dup (Z.of_nat b) (fun _ => Close (Z.of_nat a) (Close (Z.of_nat b) L)))) t2 m =
    run L (<[1%nat := Some (DPipeW n)]> t) m).
  { intros m. change (run (Dup (Z.of_nat b) (fun _ => Close (Z.of_nat a) (Close (Z.of_nat b) L))) (close_fd (Z.of_nat 1) t2) m =
      run L (<[1%nat := Some (DPipeW n)]> t) m).
    rewrite (dup_closed t2 1 b (DPipeW n)) by (done || lia). cbn [run]. unfold t2, t1. rewrite plumb by (done || lia). done. }
  assert (HR : forall m, run (Close 0 (Dup (Z.of_nat a) (fun _ => Close (Z.of_nat a) (Close (Z.of_nat b) R)))) t2 m =
    run R (<[0%nat := Some (DPipeR n)]> t) m).
  { intros m. change (run (Dup (Z.of_nat a) (fun _ => Close (Z.of_nat a) (Close (Z.of_nat b) R))) (close_fd (Z.of_nat 0) t2) m =
      run R (<[0%nat := Some (DPipeR n)]> t) m).
    rewrite (dup_closed t2 0 a (DPipeR n)) by (done || lia). cbn [run]. unfold t2, t1. rewrite plumb by (done || lia). done. }
  unfold fork1. cbn [run Z.eqb Pos.eqb]. cbn [run] in HL, HR. rewrite HL. destruct (run L _ (S n)) as [l1 n1].
  rewrite HR. destruct (run R _ n1) as [l2 n2]. by rewrite app_nil_r.
Qed.

(** [runcmd] implements the meaning of command lines. *)
Lemma run_meaning c t n : cmd_ok c -> std_ok t -> run (runcmd c) t n = meaning c t n.
Proof.
  revert t n. induction c as [argv|c IH file m fd|l IHl r IHr|l IHl r IHr|c IH]; intros t n Hok Ht; cbn [runcmd meaning].
  - by destruct argv.
  - destruct Hok as (Hc & _ & Hm). cbn [run].
    assert (Hfd : exists i, fd = Z.of_nat i /\ (i < 3)%nat) by (destruct Hm as [[_ ->]|[_ ->]]; [exists 0%nat|exists 1%nat]; lia).
    destruct Hfd as (i & -> & Hi). rewrite alloc_closed by (done || apply Ht). rewrite (proj2 (Z.ltb_ge _ _)), Nat2Z.id by lia.
    apply IH; [done|]. by apply std_insert.
  - destruct Hok as [Hl Hr]. rewrite run_pipe by done. rewrite IHl by (done || apply std_insert; (done || lia)).
    destruct (meaning l _ _) as [l1 n1]. by rewrite IHr by (done || apply std_insert; (done || lia)).
  - destruct Hok as [Hl Hr]. unfold fork1. cbn [run Z.eqb]. rewrite IHl by done. destruct (meaning l t n) as [l1 n1]. by rewrite IHr.
  - unfold fork1. cbn [run Z.eqb]. rewrite IH by done. destruct (meaning c t n) as [l1 n1]. by rewrite app_nil_r.
Qed.

(** ** Claims *)

Lemma gcmd_map_ext {T U} (f g : T -> U) (c : gcmd T) : (forall t, t ∈ tokens c -> f t = g t) -> gcmd_map f c = gcmd_map g c.
Proof.
  induction c as [argv|c IH file m fd|l IHl r IHr|l IHl r IHr|c IH]; simpl; intros H.
  - f_equal. apply list_fmap_ext. intros i t Hi. apply H. by eapply list_elem_of_lookup_2.
  - rewrite IH, H by set_solver. done.
  - rewrite IHl, IHr by set_solver. done.
  - rewrite IHl, IHr by set_solver. done.
  - by rewrite IH.
Qed.

Lemma word_nonzero w : word w -> 0 ∉ w.
Proof. intros [_ Hw] H. apply (proj1 (Forall_forall _ _) Hw) in H. done. Qed.

Lemma print_args_nonzero ws : Forall word ws -> 0 ∉ print_args ws.
Proof.
  induction ws as [|w ws IH]; intros H; [apply not_elem_of_nil|]. apply Forall_cons in H as [Hw Hws].
  pose proof (word_nonzero w Hw). pose proof (IH Hws). destruct ws; [done|].
  change (print_args (w :: l :: ws)) with (w ++ 32 :: print_args (l :: ws)). rewrite not_elem_of_app, not_elem_of_cons. done.
Qed.

Lemma print_nonzero c : cmd_ok c -> 0 ∉ print c.
Proof.
  induction c as [argv|c IH file m fd|l IHl r IHr|l IHl r IHr|c IH]; intros Hok.
  - by apply print_args_nonzero, Hok.
  - destruct Hok as (Hc & Hf & _). specialize (IH Hc). pose proof (word_nonzero _ Hf). unfold lpar, rpar in *. cbn [print]. destruct (fd =? 0); set_solver.
  - destruct Hok as [Hl Hr]. specialize (IHl Hl). specialize (IHr Hr). cbn [print]. unfold lpar, rpar. set_solver.
  - destruct Hok as [Hl Hr]. specialize (IHl Hl). specialize (IHr Hr). cbn [print]. unfold lpar, rpar. set_solver.
  - specialize (IH Hok). cbn [print]. unfold lpar, rpar. set_solver.
Qed.

(** C25: the shell's parser terminates on every line, either with a message or
    with a command; the fuel that bounds the depth of its recursion is never
    used up.  If there is a command, then every [argv] has room for its null
    pointer, and after [nulterminate] every argument and file name of the
    command is the C string of a word of the line: nonempty, without blanks and
    symbols, and not cut off or run together with its neighbours. *)
Theorem shell_parse_total (buf : list Z) (Hbuf : 0 ∉ buf) :
  parsecmd buf <> PFuel /\
  forall c mem, parsecmd buf = POk (c, mem) -> argc_ok c /\ length mem = S (length buf) /\
    forall t, t ∈ tokens c -> (t_q t < t_eq t <= length buf)%nat /\ cstr mem (t_q t) = text buf t /\ word (text buf t).
Proof.
  pose proof (parse_good buf Hbuf) as Hg. unfold parsecmd. destruct (parse buf) as [c| |]; simpl in *; [|done|done]. split; [done|].
  intros c' mem [= <- <-]. destruct Hg as [Ht Ha]. split; [done|]. split; [rewrite nulterminate_length, length_app; simpl; lia|].
  intros t Hin. pose proof (proj1 (Forall_forall _ _) Ht t Hin) as Hok. split; [apply Hok|].
  split; [by apply nulterminate_cstr|by apply tok_text_word].
Qed.

(** The line [ls -l|wc>x;y&] *)
Definition demo_line : list Z := [108; 115; 32; 45; 108; 124; 119; 99; 62; 120; 59; 121; 38].

Lemma shell_parse_total_witness :
  parsecmd demo_line <> PFuel /\
  forall c mem, parsecmd demo_line = POk (c, mem) -> argc_ok c /\ length mem = 14%nat /\
    forall t, t ∈ tokens c -> (t_q t < t_eq t <= 13)%nat /\ cstr mem (t_q t) = text demo_line t /\ word (text demo_line t).
Proof. apply (shell_parse_total demo_line). apply (bool_decide_eq_true_1 _). vm_compute. reflexivity. Defined.

(** C10: the shell's grammar expresses every command tree: written with its
    subcommands in parentheses, a tree is parsed to itself, and the C strings
    that [parsecmd] leaves in memory are its words. *)
Theorem shell_print_parse (c : tcmd) (Hok : cmd_ok c) :
  exists c' mem, parsecmd (print c) = POk (c', mem) /\ gcmd_map (fun t => cstr mem (t_q t)) c' = c.
Proof.
  destruct (parse_print_ok c Hok) as (c' & E & Hc). pose proof (parse_good (print c) (print_nonzero c Hok)) as Hg.
  unfold parsecmd. rewrite E in *. simpl in *. eexists _, _. split; [done|]. etransitivity; [|exact Hc]. apply gcmd_map_ext.
  intros t Ht. by apply nulterminate_cstr; [apply Hg|].
Qed.

(** [a|((b c)>d)] in the background, then [e]. *)
Definition demo_cmd : tcmd :=
  LIST (BACK (PIPE (EXEC [[97]]) (REDIR (EXEC [[98]; [99]]) [100] 513 1))) (EXEC [[101]]).

Lemma shell_print_parse_witness :
  exists c' mem, parsecmd (print demo_cmd) = POk (c', mem) /\ gcmd_map (fun t => cstr mem (t_q t)) c' = demo_cmd.
Proof.
  assert (Hw : forall x, wordch x = true -> word [x]) by (intros x Hx; split; [done|by apply Forall_singleton]).
  apply (shell_print_parse demo_cmd). repeat split; repeat (apply Forall_cons; split); try apply Forall_nil; try (by apply Hw); try (vm_compute; lia).
Defined.


