(* ===== verification/Grep.v ===== *)
(** * grep

    [grep.c]: the regular expression matcher of Kernighan and Pike against the
    language of the expression, and the loop that cuts the input into lines.
    Strings are lists of bytes without a NUL. *)
From S2P Require Import Prelude Cstring.
Local Open Scope Z_scope.

(** ** The matcher *)

(** [matchstar(c, re, text)]; [here] is [matchhere] for [re]. *)
Definition matchstar (c : Z) (here : list Z -> bool) : list Z -> bool :=
  fix star (text : list Z) : bool :=
    here text ||
    match text with
    | [] => false
    | x :: text' => ((x =? c) || (c =? 46)) && star text'
    end.

Fixpoint matchhere (re : list Z) (text : list Z) : bool :=
  match re with
  | [] => true
  | c :: re' =>
      match re' with
      | 42 :: re'' => matchstar c (matchhere re'') text
      | _ =>
          if (c =? 36) && bool_decide (re' = []) then bool_decide (text = [])
          else match text with
               | [] => false
               | x :: text' => if (c =? 46) || (c =? x) then matchhere re' text' else false
               end
      end
  end.

(** [do ... while( *text++ != 0)] *)
Fixpoint match_any (re text : list Z) : bool :=
  matchhere re text || match text with [] => false | _ :: text' => match_any re text' end.

Definition match_ (re text : list Z) : bool :=
  match re with
  | 94 :: re' => matchhere re' text
  | _ => match_any re text
  end.

(** ** The language of an expression *)

Inductive atom := Lit (c : Z) | Dot.
Inductive item := One (a : atom) | Many (a : atom).

Definition atom_of (c : Z) : atom := if c =? 46 then Dot else Lit c.

(** The items of an expression, and whether it ends in [$]. *)
Fixpoint items (re : list Z) : list item * bool :=
  match re with
  | [] => ([], false)
  | c :: re' =>
      match re' with
      | 42 :: re'' => let (l, e) := items re'' in (Many (atom_of c) :: l, e)
      | [] => if c =? 36 then ([], true) else ([One (atom_of c)], false)
      | _ => let (l, e) := items re' in (One (atom_of c) :: l, e)
      end
  end.

(** The strings that an atom, an item and a sequence of items stand for. *)
Definition atom_lang (a : atom) (x : Z) : Prop := match a with Lit c => x = c | Dot => True end.
Definition item_lang (i : item) (w : list Z) : Prop :=
  match i with
  | One a => exists x, w = [x] /\ atom_lang a x
  | Many a => Forall (atom_lang a) w
  end.
Fixpoint lang (l : list item) (w : list Z) : Prop :=
  match l with
  | [] => w = []
  | i :: l' => exists u v, w = u ++ v /\ item_lang i u /\ lang l' v
  end.

(** The expression matches at the beginning of [text]. *)
Definition matches_here (re text : list Z) : Prop :=
  exists w rest, text = w ++ rest /\ lang (items re).1 w /\ ((items re).2 = true -> rest = []).

Lemma atom_test c x : atom_lang (atom_of c) x <-> ((c =? 46) || (c =? x)) = true.
Proof.
  unfold atom_of. destruct (Z.eqb_spec c 46); simpl; [done|]. rewrite Z.eqb_eq. split; congruence.
Qed.

Lemma matchstar_spec c here text :
  matchstar c here text = true <-> exists u v, text = u ++ v /\ Forall (atom_lang (atom_of c)) u /\ here v = true.
Proof.
  induction text as [|x text IH]; simpl.
  - rewrite orb_false_r. split; [intros H; exists [], []; by repeat constructor|].
    intros (u & v & E & _ & H). symmetry in E. apply app_eq_nil in E as [-> ->]. done.
  - rewrite orb_true_iff, andb_true_iff, IH. clear IH. split.
    + intros [H|[Hx (u & v & -> & Hu & Hv)]]; [exists [], (x :: text); by repeat constructor|].
      exists (x :: u), v. split; [done|]. split; [|done]. constructor; [|done]. apply atom_test.
      rewrite orb_comm. by rewrite Z.eqb_sym.
    + intros (u & v & E & Hu & Hv). destruct u as [|y u]; [left; by rewrite E|]. injection E as <- ->. right.
      apply Forall_cons in Hu as [Hx Hu]. split; [|by exists u, v]. apply atom_test in Hx. by rewrite orb_comm, Z.eqb_sym in Hx.
Qed.

(** A character that is not followed by a star. *)
Lemma items_one c re' :
  (forall re'', re' <> 42 :: re'') -> (c =? 36) && bool_decide (re' = []) = false ->
  items (c :: re') = (One (atom_of c) :: (items re').1, (items re').2).
Proof.
  intros Hs He. simpl. destruct re' as [|d re']; [by rewrite bool_decide_true, andb_true_r in He; [rewrite He|]|].
  destruct (items (d :: re')) as [l e] eqn:E. destruct (decide (d = 42)) as [->|Hd]; [by destruct (Hs re')|].
  destruct d as [|[]|]; try done; repeat (destruct p as [p|p|]; try done).
Qed.

Lemma matchhere_one c re' text :
  (forall re'', re' <> 42 :: re'') -> (c =? 36) && bool_decide (re' = []) = false ->
  matchhere (c :: re') text = match text with [] => false | x :: text' => if (c =? 46) || (c =? x) then matchhere re' text' else false end.
Proof.
  intros Hs He. simpl. rewrite He. destruct re' as [|d re']; [done|]. destruct (decide (d = 42)) as [->|Hd]; [by destruct (Hs re')|].
  destruct d as [|[]|]; try done; repeat (destruct p as [p|p|]; try done).
Qed.

Lemma matches_one c re' text :
  (forall re'', re' <> 42 :: re'') -> (c =? 36) && bool_decide (re' = []) = false ->
  matches_here (c :: re') text <->
  exists x text', text = x :: text' /\ ((c =? 46) || (c =? x)) = true /\ matches_here re' text'.
Proof.
  intros Hs He. unfold matches_here. rewrite (items_one c re' Hs He). simpl. split.
  - intros (w & rest & -> & (u & v & -> & (x & -> & Hx) & Hv) & Hr). exists x, (v ++ rest).
    split; [done|]. split; [by apply atom_test|]. by exists v, rest.
  - intros (x & text' & -> & Hx & w & rest & -> & Hw & Hr). exists (x :: w), rest. split; [done|].
    split; [|done]. exists [x], w. split; [done|]. split; [|done]. exists x. split; [done|]. by apply atom_test.
Qed.

Lemma matches_star c re text :
  matches_here (c :: 42 :: re) text <->
  exists u v, text = u ++ v /\ Forall (atom_lang (atom_of c)) u /\ matches_here re v.
Proof.
  unfold matches_here. simpl. destruct (items re) as [l e]. simpl. split.
  - intros (w & rest & -> & (u & v & -> & Hu & Hv) & Hr). exists u, (v ++ rest).
    split; [by rewrite app_assoc|]. split; [done|]. by exists v, rest.
  - intros (u & v & -> & Hu & w & rest & -> & Hw & Hr). exists (u ++ w), rest.
    split; [by rewrite app_assoc|]. split; [by exists u, w|done].
Qed.

Lemma matchhere_spec n : forall re text, (length re <= n)%nat ->
  matchhere re text = true <-> matches_here re text.
Proof.
  induction n as [|n IH]; intros re text Hn.
  { destruct re; [|simpl in Hn; lia]. split; [|done]. intros _. by exists [], text. }
  destruct re as [|c re']; [split; [|done]; intros _; by exists [], text|].
  destruct (decide (head re' = Some 42)) as [Hs|Hs].
  { destruct re' as [|d re'']; [done|]. injection Hs as ->. rewrite matches_star. change (matchhere (c :: 42 :: re'') text) with (matchstar c (matchhere re'') text).
    rewrite matchstar_spec. simpl in Hn.
    split; intros (u & v & ? & ? & H); exists u, v; (split; [done|]); (split; [done|]); apply IH; (done || lia). }
  assert (Hs' : forall re'', re' <> 42 :: re'') by (intros re'' ->; by apply Hs).
  destruct ((c =? 36) && bool_decide (re' = [])) eqn:He.
  { apply andb_true_iff in He as [Hc Hr]. apply Z.eqb_eq in Hc as ->. apply bool_decide_eq_true in Hr as ->. simpl.
    rewrite bool_decide_eq_true. unfold matches_here. simpl. split; [intros ->; by exists [], []|].
    intros (w & rest & -> & -> & Hr). by rewrite Hr. }
  rewrite (matchhere_one c re' text Hs' He), (matches_one c re' text Hs' He). simpl in Hn. split.
  - intros H. destruct text as [|x text]; [done|]. destruct ((c =? 46) || (c =? x)) eqn:Hx; [|done].
    exists x, text. split; [done|]. split; [done|]. apply IH; [lia|done].
  - intros (x & text' & -> & -> & H). apply IH; [lia|done].
Qed.

Lemma match_any_spec re text :
  match_any re text = true <-> exists pre post, text = pre ++ post /\ matches_here re post.
Proof.
  induction text as [|x text IH]; simpl.
  - rewrite orb_false_r, (matchhere_spec (length re)) by lia. split; [intros H; by exists [], []|].
    intros (pre & post & E & H). symmetry in E. by apply app_eq_nil in E as [-> ->].
  - rewrite orb_true_iff, IH, (matchhere_spec (length re)) by lia. split.
    + intros [H|(pre & post & -> & H)]; [by exists [], (x :: text)|by exists (x :: pre), post].
    + intros (pre & post & E & H). destruct pre as [|y pre]; [left; by rewrite E|].
      injection E as <- ->. right. by exists pre, post.
Qed.

(** ** Lines *)

(** The inner loop of [grep]: the lines of the buffer from [p] on that match,
    with their newlines, and the last [p]. *)
Fixpoint grep_scan (fuel : nat) (pattern p : list Z) : list (list Z) * list Z :=
  match fuel, strchr p 10 with
  | S f, Some q =>
      let '(out, r) := grep_scan f pattern (drop (S q) p) in
      ((if match_ pattern (take q p) then [take (S q) p] else []) ++ out, r)
  | _, _ => ([], p)
  end.

Section grep.
(** [read(fd, _, n)]: the bytes read, none of them at the end of the file or
    on an error, and the file after it. *)
Context {F : Type} (read : F -> nat -> list Z * F).

(** [grep], with [buf] the first [m] bytes of the buffer: what it writes. *)
Fixpoint grep_loop (fuel : nat) (pattern : list Z) (fd : F) (buf : list Z) : option (list (list Z)) :=
  match fuel with
  | O => None
  | S f =>
      let '(chunk, fd') := read fd (1024 - length buf - 1)%nat in
      if bool_decide (chunk = []) then Some []
      else
        let data := buf ++ chunk in
        let '(out, p) := grep_scan (length data) pattern data in
        let buf' := if bool_decide (length p = length data) then [] else p in
        (fun o => out ++ o) <$> grep_loop f pattern fd' buf'
  end.
Definition grep (fuel : nat) (pattern : list Z) (fd : F) : option (list (list Z)) := grep_loop fuel pattern fd [].
End grep.

(** A file on disk: [read] returns all that is asked for, up to its end. *)
Definition file_read (s : list Z) (n : nat) : list Z * list Z := (take n s, drop n s).

(** The complete lines of a text, and what follows the last newline. *)
Fixpoint split_lines (s : list Z) : list (list Z) * list Z :=
  match s with
  | [] => ([], [])
  | x :: s' =>
      match split_lines s' with
      | (ls, r) =>
          if x =? 10 then ([] :: ls, r)
          else match ls with [] => ([], x :: r) | l :: ls' => ((x :: l) :: ls', r) end
      end
  end.
Definition wanted (pattern : list Z) (ls : list (list Z)) : list (list Z) :=
  (fun l => l ++ [10]) <$> filter (fun l => match_ pattern l = true) ls.

Lemma split_app a b :
  split_lines (a ++ b) =
  ((split_lines a).1 ++ (split_lines ((split_lines a).2 ++ b)).1, (split_lines ((split_lines a).2 ++ b)).2).
Proof.
  induction a as [|x a IH]; cbn [split_lines app fst snd]; [by destruct (split_lines b)|].
  rewrite IH. destruct (split_lines a) as [ls r] eqn:E. cbn [fst snd].
  destruct (x =? 10) eqn:Ex; [done|]. destruct ls as [|l ls]; [|done].
  cbn [fst snd app split_lines]. rewrite Ex. by destruct (split_lines (r ++ b)) as [[|l2 ls2] r2].
Qed.

(** What follows the last newline has none, so it splits into nothing. *)
Lemma split_rest s : split_lines (split_lines s).2 = ([], (split_lines s).2).
Proof.
  induction s as [|x s IH]; [done|]. cbn [split_lines]. destruct (split_lines s) as [ls r]. cbn [snd] in IH.
  destruct (x =? 10) eqn:Ex; [done|]. destruct ls; [|done]. cbn [snd split_lines]. by rewrite IH, Ex.
Qed.

Lemma split_none s : (split_lines s).1 = [] -> split_lines s = ([], s).
Proof.
  induction s as [|x s IH]; [done|]. cbn [split_lines]. destruct (split_lines s) as [ls r]. cbn [fst] in *.
  destruct (x =? 10); [done|]. destruct ls; [|done]. intros _. by injection (IH eq_refl) as ->.
Qed.

Lemma strchr_none s : 0 ∉ s -> strchr s 10 = None -> (split_lines s).1 = [].
Proof.
  induction s as [|x s IH]; [done|]. rewrite not_elem_of_cons. intros [Hx Hs]. cbn [strchr split_lines].
  destruct (Z.eqb_spec x 0); [done|]. destruct (x =? 10); [done|]. intros E. rewrite fmap_None in E.
  specialize (IH Hs E). destruct (split_lines s) as [ls r]. cbn [fst] in IH. by subst ls.
Qed.

Lemma strchr_some s q : strchr s 10 = Some q ->
  split_lines s = (take q s :: (split_lines (drop (S q) s)).1, (split_lines (drop (S q) s)).2) /\
  take (S q) s = take q s ++ [10] /\ (q < length s)%nat.
Proof.
  revert q. induction s as [|x s IH]; intros q; [done|]. cbn [strchr].
  destruct (x =? 0); [done|]. destruct (Z.eqb_spec x 10) as [->|Hx].
  { intros [= <-]. simpl. rewrite drop_0, take_0. split; [by destruct (split_lines s)|]. split; [done|lia]. }
  intros E. apply fmap_Some in E as (k & E & ->). destruct (IH k E) as (H1 & H2 & H3).
  cbn [split_lines]. rewrite H1. cbn [length take drop]. apply Z.eqb_neq in Hx. rewrite Hx.
  split; [done|]. cbn [take] in H2. split; [|lia]. cbn [app]. by rewrite <- H2.
Qed.

Lemma grep_scan_spec pattern fuel p : 0 ∉ p -> (length p <= fuel)%nat ->
  grep_scan fuel pattern p = (wanted pattern (split_lines p).1, (split_lines p).2).
Proof.
  revert p. induction fuel as [|fuel IH]; intros p H0 Hf.
  { destruct p; [done|simpl in Hf; lia]. }
  cbn [grep_scan]. destruct (strchr p 10) as [q|] eqn:E.
  - destruct (strchr_some p q E) as (Hs & Ht & Hq). rewrite IH, Hs, Ht.
    + unfold wanted. cbn [fst snd]. rewrite filter_cons. case_decide as Hm; [by rewrite Hm|].
      by destruct (match_ pattern (take q p)).
    + intros Hin. apply H0. rewrite <- (take_drop (S q) p). apply elem_of_app. by right.
    + rewrite length_drop. lia.
  - by rewrite (split_none p (strchr_none p H0 E)).
Qed.

Lemma split_short s : (length (split_lines s).2 <= length s)%nat /\
  (length (split_lines s).2 = length s <-> (split_lines s).1 = []).
Proof.
  induction s as [|x s [IH1 IH2]]; [done|]. cbn [split_lines]. destruct (split_lines s) as [ls r]. cbn [fst snd length] in *.
  destruct (x =? 10); [cbn [fst snd]; split; [lia|split; [lia|done]]|].
  destruct ls as [|l ls]; cbn [fst snd length]; (split; [lia|]); [|split; [lia|done]].
  split; [done|]. intros _. f_equal. by apply IH2.
Qed.

(** A window that is longer than the first line holds it. *)
Lemma split_window n s l ls : (split_lines s).1 = l :: ls -> (length l < n)%nat -> (split_lines (take n s)).1 <> [].
Proof.
  revert n l. induction s as [|x s IH]; intros n l E Hn; [done|]. destruct n as [|n]; [lia|]. cbn [take split_lines] in *.
  destruct (split_lines s) as [ls' r]. specialize (IH n). destruct (split_lines (take n s)) as [ls'' r''].
  destruct (x =? 10); [done|]. destruct ls' as [|l' ls']; [done|]. injection E as <- ->. simpl in Hn.
  specialize (IH l' eq_refl ltac:(lia)). cbn [fst] in IH. by destruct ls''.
Qed.

Lemma split_suffix a b : (split_lines (a ++ b)).1 = [] -> (split_lines b).1 = [].
Proof.
  induction a as [|x a IH]; [done|]. cbn [app split_lines]. destruct (split_lines (a ++ b)) as [ls r].
  destruct (x =? 10); [done|]. destruct ls; [|done]. intros _. by apply IH.
Qed.

(** One round of the loop: what is in the buffer and in the file is the
    lines that are printed, and what is kept and the rest of the file, unless
    there is nothing to print any more. *)
Lemma grep_round buf fd :
  (length buf <= 1022)%nat -> Forall (fun l => length l <= 1022)%nat (split_lines (buf ++ fd)).1 ->
  let chunk := take (1024 - length buf - 1) fd in
  let fd' := drop (1024 - length buf - 1) fd in
  let data := buf ++ chunk in
  let p := (split_lines data).2 in
  let buf' := if bool_decide (length p = length data) then [] else p in
  (split_lines (buf ++ fd)).1 = (split_lines data).1 ++ (split_lines (buf' ++ fd')).1 /\
  (length buf' <= 1022)%nat /\ (chunk <> [] -> length fd' < length fd)%nat.
Proof.
  intros Hb Hl chunk fd' data p buf'.
  assert (Hdata : data = take 1023 (buf ++ fd)).
  { subst data chunk. rewrite take_app_ge by lia. do 2 f_equal. lia. }
  assert (Hs : buf ++ fd = data ++ fd') by (subst data fd' chunk; by rewrite <- app_assoc, take_drop).
  assert (Hlen : (length data <= 1023)%nat) by (rewrite Hdata, length_take; lia).
  destruct (split_short data) as [Hp1 Hp2]. fold p in Hp1, Hp2. split; [|split].
  - subst buf'. case_bool_decide as Hp; [|by rewrite Hs, split_app].
    apply Hp2 in Hp. rewrite Hp. cbn [app].
    destruct (split_lines (buf ++ fd)).1 as [|l ls] eqn:E.
    + symmetry. rewrite Hs in E. by apply split_suffix in E.
    + apply Forall_cons in Hl as [Hl _]. destruct (split_window 1023 _ l ls E); [lia|]. by rewrite <- Hdata.
  - subst buf'. case_bool_decide; simpl; lia.
  - intros Hc. subst fd' chunk. rewrite length_drop. destruct fd; [by rewrite take_nil in Hc|simpl; lia].
Qed.

Lemma grep_loop_file pattern fuel : forall fd buf,
  (length fd < fuel)%nat -> (length buf <= 1022)%nat -> split_lines buf = ([], buf) -> 0 ∉ buf ++ fd ->
  Forall (fun l => length l <= 1022)%nat (split_lines (buf ++ fd)).1 ->
  grep_loop file_read fuel pattern fd buf = Some (wanted pattern (split_lines (buf ++ fd)).1).
Proof.
  induction fuel as [|fuel IH]; intros fd buf Hf Hb Hsb H0 Hl; [lia|].
  destruct (grep_round buf fd Hb Hl) as (Hr & Hb' & Hfd).
  cbn [grep_loop]. unfold file_read at 1. set (n := (1024 - length buf - 1)%nat) in *. cbv zeta.
  destruct (bool_decide_reflect (take n fd = [])) as [Hc|Hc].
  { assert (n <> 0)%nat by (unfold n; lia).
    assert (fd = []) as -> by (destruct fd; [done|]; clearbody n; by destruct n). by rewrite app_nil_r, Hsb. }
  assert (Hin : forall x, x ∈ buf ++ take n fd \/ x ∈ drop n fd -> x ∈ buf ++ fd).
  { intros x Hx. rewrite <- (take_drop n fd), app_assoc. by apply elem_of_app. }
  rewrite grep_scan_spec; [|intros Hx; apply H0, Hin; by left|done].
  rewrite Hr in Hl |- *. apply Forall_app in Hl as [_ Hl]. rewrite IH; [|by specialize (Hfd Hc); lia|done| | |done].
  - cbn [fmap option_fmap option_map]. unfold wanted. by rewrite filter_app, fmap_app.
  - case_bool_decide; [done|]. apply split_rest.
  - intros Hx. apply H0, Hin. apply elem_of_app in Hx as [Hx|Hx]; [left|by right].
    case_bool_decide; [by apply elem_of_nil in Hx|]. revert Hx. generalize (buf ++ take n fd). clear.
    intros s. induction s as [|x s IH]; [done|]. cbn [split_lines]. destruct (split_lines s) as [ls r]. cbn [snd] in *.
    rewrite elem_of_cons. destruct (x =? 10); [by right; apply IH|]. destruct ls; cbn [snd]; [|by right; apply IH].
    rewrite elem_of_cons. naive_solver.
Qed.

(** C26: [match] decides the regular language: with a leading [^] the
    expression has to match at the start of the text, otherwise anywhere in
    it; a match is a prefix in the concatenation of the languages of the items
    (a character, any character, or a Kleene star of one of them), and reaches
    the end of the text when the expression ends in [$]. *)
Theorem match_regular re text :
  match_ re text = true <->
  if bool_decide (head re = Some 94) then matches_here (tail re) text
  else exists pre post, text = pre ++ post /\ matches_here re post.
Proof.
  case_bool_decide as H.
  - destruct re as [|c re]; [done|]. injection H as ->. exact (matchhere_spec (length re) re text (le_n _)).
  - rewrite <- match_any_spec. destruct re as [|c re]; [done|]. assert (c <> 94) by (intros ->; by apply H).
    unfold match_. destruct c as [|p|p]; [done| |done]. do 7 (destruct p as [p|p|]; try done).
Qed.

(** C27: on a file without NUL bytes whose lines have at most 1022 characters,
    [grep] stops and prints the lines that match, all of them, in order and
    nothing else; a last line without a newline is not printed. *)
Theorem grep_prints_matching pattern s :
  0 ∉ s -> Forall (fun l => length l <= 1022)%nat (split_lines s).1 ->
  grep file_read (S (length s)) pattern s = Some (wanted pattern (split_lines s).1).
Proof. intros H0 Hl. apply (grep_loop_file pattern (S (length s)) s []); [lia|simpl; lia|done|done|done]. Qed.

Lemma grep_prints_matching_witness :
  grep file_read 9 [97; 42; 98] [97; 98; 10; 99; 10; 98; 10; 97] = Some [[97; 98; 10]; [98; 10]].
Proof.
  etransitivity; [apply (grep_prints_matching [97; 42; 98] [97; 98; 10; 99; 10; 98; 10; 97])|reflexivity].
  - by apply (bool_decide_unpack _).
  - repeat constructor; simpl; lia.
Defined.

(** A line that arrives in two parts, as it may from a pipe, is lost or cut:
    the part without a newline is thrown away. *)
Lemma grep_drops_part :
  let read := fun (reads : list (list Z)) (_ : nat) => (default [] (head reads), tail reads) in
  grep read 5 [97] [[97]; [98; 10]] = Some [] /\ grep read 5 [97] [[97; 98; 10]] = Some [[97; 98; 10]].
Proof. split; reflexivity. Qed.
