(* ===== verification/Args.v ===== *)
(** * System call arguments

    [syscall.c]: fetching integers, pointers and strings from the memory of
    the current process, and the dispatch on the system call number.  The
    kernel runs on the page table of the process, so an access outside its
    memory is a page fault in the kernel, which is the panic [trap]. *)
From S2P Require Import Prelude Bytes Kalloc.
Local Open Scope Z_scope.

(** The part of [struct proc] that the file system calls use: [u_mem] is the
    memory mapped at the addresses from 0 on, [u_esp] and [u_eax] are fields of
    the trap frame, [ofile] has indices into the file table. *)
Record uproc := mkUproc {
  u_mem : list Z; u_sz : Z; u_esp : Z; u_eax : Z; u_killed : bool;
  ofile : list (option nat); cwd : nat
}.

Definition set_umem m p := mkUproc m (u_sz p) (u_esp p) (u_eax p) (u_killed p) (ofile p) (cwd p).
Definition set_eax r p := mkUproc (u_mem p) (u_sz p) (u_esp p) r (u_killed p) (ofile p) (cwd p).
Definition set_ofile fs p := mkUproc (u_mem p) (u_sz p) (u_esp p) (u_eax p) (u_killed p) fs (cwd p).
Definition set_cwd c p := mkUproc (u_mem p) (u_sz p) (u_esp p) (u_eax p) (u_killed p) (ofile p) c.

Notation U := (M uproc).

(** Loads and stores of the kernel at user addresses. *)
Definition mapped (p : uproc) (a n : Z) : bool := (0 <=? a) && (a + n <=? Z.of_nat (length (u_mem p))).
Definition load (a n : Z) : U (list Z) := fun p =>
  if mapped p a n then Ret (take (Z.to_nat n) (drop (Z.to_nat a) (u_mem p))) p else Panic "trap".
Definition store (a : Z) (bytes : list Z) : U unit := fun p =>
  if mapped p a (Z.of_nat (length bytes)) then Ret tt (set_umem (splice (Z.to_nat a) bytes (u_mem p)) p) else Panic "trap".

(** [None] is the return value -1. *)
Definition fetchint (addr : Z) : U (option Z) :=
  p ← get;
  if (u_sz p <=? addr) || (u_sz p <? u32 (addr + 4)) then mret None
  else bs ← load addr 4; mret (Some (s32 (le_val bs))).

(** [for(s = *pp; s < ep; s++)]: the bytes from [s] up to the first NUL. *)
Fixpoint fetchstr_loop (s ep : Z) (fuel : nat) : U (option (list Z)) :=
  if s <? ep then
    match fuel with
    | O => panic "diverges"
    | S fuel' =>
        b ← load s 1;
        if default 0 (head b) =? 0 then mret (Some [])
        else r ← fetchstr_loop (s + 1) ep fuel'; mret ((fun str => default 0 (head b) :: str) <$> r)
    end
  else mret None.

(** The string; its length is the return value. *)
Definition fetchstr (addr : Z) : U (option (list Z)) :=
  p ← get;
  if u_sz p <=? addr then mret None
  else fetchstr_loop addr (u_sz p) (Z.to_nat (u_sz p - addr)).

Definition argint (n : Z) : U (option Z) :=
  p ← get; fetchint (u32 (u_esp p + 4 + 4 * n)).

Definition argptr (n size : Z) : U (option Z) :=
  r ← argint n;
  match r with
  | None => mret None
  | Some i =>
      p ← get;
      if (size <? 0) || (u_sz p <=? u32 i) || (u_sz p <? u32 (u32 i + size)) then mret None
      else mret (Some (u32 i))
  end.

Definition argstr (n : Z) : U (option (list Z)) :=
  r ← argint n;
  match r with
  | None => mret None
  | Some addr => fetchstr (u32 addr)
  end.

(** ** The system call table *)

Inductive sysno :=
| SYS_fork | SYS_exit | SYS_wait | SYS_pipe | SYS_read | SYS_kill | SYS_exec | SYS_fstat | SYS_chdir | SYS_dup
| SYS_getpid | SYS_sbrk | SYS_sleep | SYS_uptime | SYS_open | SYS_write | SYS_mknod | SYS_unlink | SYS_link
| SYS_mkdir | SYS_close | SYS_getptable | SYS_getppid | SYS_setpriority | SYS_sem_init | SYS_sem_destroy
| SYS_sem_wait | SYS_sem_signal | SYS_clone | SYS_join | SYS_getscheduler | SYS_setscheduler | SYS_wait2 | SYS_yield.

(** [syscalls\[\]], indexed by the numbers of [syscall.h]. *)
Definition syscalls : list (option sysno) :=
  None :: (Some <$>
  [SYS_fork; SYS_exit; SYS_wait; SYS_pipe; SYS_read; SYS_kill; SYS_exec; SYS_fstat; SYS_chdir; SYS_dup;
   SYS_getpid; SYS_sbrk; SYS_sleep; SYS_uptime; SYS_open; SYS_write; SYS_mknod; SYS_unlink; SYS_link;
   SYS_mkdir; SYS_close; SYS_getptable; SYS_getppid; SYS_setpriority; SYS_sem_init; SYS_sem_destroy;
   SYS_sem_wait; SYS_sem_signal; SYS_clone; SYS_join; SYS_getscheduler; SYS_setscheduler; SYS_wait2; SYS_yield]).

(** The handler that [syscall] calls for the number in [eax]. *)
Definition syscall_no (num : Z) : option sysno :=
  if (0 <? num) && (num <? Z.of_nat (length syscalls)) then mjoin (syscalls !! Z.to_nat num) else None.

(** ** Arguments lie in the memory of the process *)

(** The memory below [sz] is mapped, and all of it is user memory. *)
Record uproc_ok (p : uproc) : Prop := {
  u_size : Z.of_nat (length (u_mem p)) = u_sz p;
  u_top : u_sz p <= KERNBASE;
  u_stack : is_u32 (u_esp p)
}.

Section args.
Context (p : uproc) (Hp : uproc_ok p).

Lemma sz_range : 0 <= u_sz p <= 2 ^ 31.
Proof using All. destruct Hp as [H1 H2 _]. change KERNBASE with (2 ^ 31) in H2. lia. Qed.

Lemma load_ok a n : 0 <= a -> a + n <= u_sz p ->
  load a n p = Ret (take (Z.to_nat n) (drop (Z.to_nat a) (u_mem p))) p.
Proof using All.
  intros Ha Hn. unfold load, mapped. destruct Hp as [H1 _ _].
  by rewrite (proj2 (Z.leb_le 0 a) Ha), (proj2 (Z.leb_le _ _)) by lia.
Qed.

Lemma fetchint_ok addr : is_u32 addr -> exists r, fetchint addr p = Ret r p /\ forall v, r = Some v -> is_s32 v.
Proof using All.
  intros Ha. pose proof sz_range as Hsz. unfold fetchint, mbind, M_bind, get.
  destruct (Z.leb_spec (u_sz p) addr) as [H1|H1]; [by exists None|]. cbn [orb].
  destruct (Z.ltb_spec (u_sz p) (u32 (addr + 4))) as [H2|H2]; [by exists None|].
  unfold is_u32 in Ha. rewrite u32_id in H2 by lia. rewrite load_ok by lia.
  eexists. split; [done|]. intros v [= <-]. apply s32_range.
Qed.

Lemma fetchstr_loop_ok fuel : forall s, 0 <= s -> u_sz p - s <= Z.of_nat fuel ->
  exists r, fetchstr_loop s (u_sz p) fuel p = Ret r p /\
  forall str, r = Some str -> s + Z.of_nat (length str) < u_sz p /\ 0 ∉ str /\
    take (S (length str)) (drop (Z.to_nat s) (u_mem p)) = str ++ [0].
Proof using All.
  induction fuel as [|fuel IH]; intros s Hs Hf; cbn [fetchstr_loop].
  all: destruct (Z.ltb_spec s (u_sz p)) as [H1|H1]; [|by exists None].
  { lia. }
  unfold mbind at 1, M_bind at 1. rewrite load_ok by lia.
  destruct (lookup_lt_is_Some_2 (u_mem p) (Z.to_nat s)) as [c Hc]; [destruct Hp; lia|].
  change (Z.to_nat 1) with 1%nat. rewrite (drop_S _ c _ Hc). cbn [take]. rewrite take_0. cbn [default head from_option id].
  destruct (Z.eqb_spec c 0) as [->|Hc0].
  { exists (Some []). split; [done|]. intros str [= <-]. simpl. rewrite take_0. split; [lia|]. by split; [apply not_elem_of_nil|]. }
  destruct (IH (s + 1)) as (r & Hr & Hspec); [lia|lia|]. rewrite (bind_Ret _ _ _ _ _ Hr).
  exists ((fun str => c :: str) <$> r). split; [done|]. intros str Hstr. apply fmap_Some in Hstr as (str' & -> & ->).
  destruct (Hspec str' eq_refl) as (H2 & H3 & H4). cbn [length]. split; [lia|]. split; [by apply not_elem_of_cons|].
  cbn [app]. rewrite <- H4. replace (Z.to_nat (s + 1)) with (S (Z.to_nat s)) by lia. done.
Qed.

Lemma argint_ok n : exists r, argint n p = Ret r p /\ forall v, r = Some v -> is_s32 v.
Proof using All. apply fetchint_ok, u32_range. Qed.

Lemma argptr_ok n size : is_s32 size ->
  exists r, argptr n size p = Ret r p /\ forall a, r = Some a -> 0 <= size /\ 0 <= a < u_sz p /\ a + size <= u_sz p.
Proof using All.
  intros Hsize. unfold argptr. destruct (argint_ok n) as ([i|] & E & Hi); rewrite (bind_Ret _ _ _ _ _ E); [|by exists None].
  unfold mbind, M_bind, get. pose proof sz_range as Hsz. pose proof (u32_range i) as Hr.
  destruct (Z.ltb_spec size 0) as [H1|H1]; [by exists None|]. cbn [orb].
  destruct (Z.leb_spec (u_sz p) (u32 i)) as [H2|H2]; [by exists None|]. cbn [orb].
  destruct (Z.ltb_spec (u_sz p) (u32 (u32 i + size))) as [H3|H3]; [by exists None|].
  unfold is_s32 in Hsize. rewrite u32_id in H3 by lia. exists (Some (u32 i)). split; [done|]. intros a [= <-]. lia.
Qed.

Lemma argstr_ok n :
  exists r, argstr n p = Ret r p /\
  forall str, r = Some str -> 0 ∉ str /\ exists a, 0 <= a /\ a + Z.of_nat (length str) < u_sz p /\
    take (S (length str)) (drop (Z.to_nat a) (u_mem p)) = str ++ [0].
Proof using All.
  unfold argstr. destruct (argint_ok n) as ([i|] & E & Hi); rewrite (bind_Ret _ _ _ _ _ E); [|by exists None].
  unfold fetchstr, mbind, M_bind, get. pose proof (u32_range i) as Hr.
  destruct (Z.leb_spec (u_sz p) (u32 i)) as [H2|H2]; [by exists None|].
  destruct (fetchstr_loop_ok (Z.to_nat (u_sz p - u32 i)) (u32 i)) as (r & -> & Hs); [lia|lia|].
  exists r. split; [done|]. intros str Hstr. destruct (Hs str Hstr) as (? & ? & ?). split; [done|]. exists (u32 i). split; [lia|done].
Qed.
End args.
