(* ===== verification/File.v ===== *)
(** * Open files and file system calls

    [file.c], [sysfile.c] and [pipealloc]: the file table, the descriptors of
    the current process and the file system calls, over the interface [FsOps]
    to inodes and the log.  A pointer to a [struct file] is an index into
    [ftable.file\[\]], a null pointer is [None]; a pipe is known by the address
    of its page, and the memory of a pipe whose page has been freed is gone. *)
From stdpp Require Import gmap.
From S2P Require Import Prelude Bytes Cstring Kalloc Pipe Log Blocks Fs Args.
Local Open Scope Z_scope.

Definition NFILE : nat := 100.
Definition NOFILE : nat := 16.
Definition MAXARG : nat := 32.
Definition O_RDONLY : Z := 0x000.
Definition O_WRONLY : Z := 0x001.
Definition O_RDWR : Z := 0x002.
Definition O_CREATE : Z := 0x200.

(** ** What the file layer uses of [fs.c] and [log.c] *)
Class FsOps (S : Type) := {
  x_begin_op : M S unit;
  x_end_op : M S unit;
  x_ilock : nat -> M S unit;
  x_iunlock : nat -> M S unit;
  x_iput : nat -> M S unit;
  x_iunlockput : nat -> M S unit;
  x_iat : nat -> M S inode;
  x_iupd : nat -> (inode -> inode) -> M S unit;
  x_iupdate : nat -> M S unit;
  x_stati : nat -> M S stat;
  x_readi : nat -> Z -> Z -> M S (Z * list Z);
  x_writei : nat -> list Z -> Z -> Z -> M S Z;
  x_ialloc : Z -> Z -> M S nat;
  x_dirlookup : nat -> list Z -> M S (option (nat * Z));
  x_dirlink : nat -> list Z -> Z -> M S Z;
  x_namei : nat -> list Z -> M S (option nat);
  x_nameiparent : nat -> list Z -> list Z -> M S (option nat * list Z)
}.

Inductive ftype := FD_NONE | FD_PIPE | FD_INODE.
#[export] Instance ftype_eq_dec : EqDecision ftype.
Proof. solve_decision. Defined.

(** [struct file] *)
Record file := mkFile {
  fl_type : ftype; fl_ref : Z; fl_readable : Z; fl_writable : Z;
  fl_pipe : Z; fl_ip : nat; fl_off : Z
}.
Definition set_fl_ref r f := mkFile (fl_type f) r (fl_readable f) (fl_writable f) (fl_pipe f) (fl_ip f) (fl_off f).
Definition set_fl_off o f := mkFile (fl_type f) (fl_ref f) (fl_readable f) (fl_writable f) (fl_pipe f) (fl_ip f) o.
Definition set_fl_type t f := mkFile t (fl_ref f) (fl_readable f) (fl_writable f) (fl_pipe f) (fl_ip f) (fl_off f).

Record kstate (S : Type) := mkKstate {
  k_fs : S; ftable : list file; pipes : gmap Z pipe; k_mem : kmem; curproc : uproc
}.
Arguments mkKstate {S} _ _ _ _ _.
Arguments k_fs {S} _.
Arguments ftable {S} _.
Arguments pipes {S} _.
Arguments k_mem {S} _.
Arguments curproc {S} _.

Section File.
Context {S : Type} {ops : FsOps S} (kernel_end : Z).
Notation K := (M (kstate S)).

(** ** Access to the parts of the state *)

Definition inodes {A} (m : M S A) : K A := fun k =>
  match m (k_fs k) with
  | Ret a x => Ret a (mkKstate x (ftable k) (pipes k) (k_mem k) (curproc k))
  | Panic msg => Panic msg
  | Asleep x => Asleep (mkKstate x (ftable k) (pipes k) (k_mem k) (curproc k))
  end.
Definition pages {A} (m : M kmem A) : K A := fun k =>
  match m (k_mem k) with
  | Ret a x => Ret a (mkKstate (k_fs k) (ftable k) (pipes k) x (curproc k))
  | Panic msg => Panic msg
  | Asleep x => Asleep (mkKstate (k_fs k) (ftable k) (pipes k) x (curproc k))
  end.
Definition user {A} (m : M uproc A) : K A := fun k =>
  match m (curproc k) with
  | Ret a x => Ret a (mkKstate (k_fs k) (ftable k) (pipes k) (k_mem k) x)
  | Panic msg => Panic msg
  | Asleep x => Asleep (mkKstate (k_fs k) (ftable k) (pipes k) (k_mem k) x)
  end.

Definition fat (f : nat) : K file := fun k =>
  match ftable k !! f with Some x => Ret x k | None => Panic "not a file" end.
Definition fupd (f : nat) (g : file -> file) : K unit :=
  modify (fun k => mkKstate (k_fs k) (alter g f (ftable k)) (pipes k) (k_mem k) (curproc k)).
Definition set_pipes (g : gmap Z pipe -> gmap Z pipe) : K unit :=
  modify (fun k => mkKstate (k_fs k) (ftable k) (g (pipes k)) (k_mem k) (curproc k)).
(** A pipe that is not there has been freed. *)
Definition pat (p : Z) : K pipe := fun k =>
  match pipes k !! p with Some x => Ret x k | None => Panic "use of a freed pipe" end.

Definition begin_op : K unit := inodes x_begin_op.
Definition end_op : K unit := inodes x_end_op.
Definition ilock (ip : nat) : K unit := inodes (x_ilock ip).
Definition iunlock (ip : nat) : K unit := inodes (x_iunlock ip).
Definition iput (ip : nat) : K unit := inodes (x_iput ip).
Definition iunlockput (ip : nat) : K unit := inodes (x_iunlockput ip).
Definition iat (ip : nat) : K inode := inodes (x_iat ip).
Definition iupd (ip : nat) (g : inode -> inode) : K unit := inodes (x_iupd ip g).
Definition iupdate (ip : nat) : K unit := inodes (x_iupdate ip).
Definition readi (ip : nat) (off n : Z) : K (Z * list Z) := inodes (x_readi ip off n).
Definition writei (ip : nat) (src : list Z) (off n : Z) : K Z := inodes (x_writei ip src off n).
Definition dirlookup (dp : nat) (name : list Z) : K (option (nat * Z)) := inodes (x_dirlookup dp name).
Definition dirlink (dp : nat) (name : list Z) (inum : Z) : K Z := inodes (x_dirlink dp name inum).
Definition namei (path : list Z) : K (option nat) :=
  c ← user (gets cwd); inodes (x_namei c path).
Definition nameiparent (path : list Z) : K (option nat * list Z) :=
  c ← user (gets cwd); inodes (x_nameiparent c path (replicate DIRSIZ 0)).

(** ** [pipe.c]: pipes as files use them *)

Definition pipe_close (p writable : Z) : K unit :=
  x ← pat p;
  match (pipeclose (negb (writable =? 0)) x).1 with
  | Some x' => set_pipes <[p := x']>
  | None => set_pipes (delete p);; pages (kfree kernel_end p)
  end.

Definition pipe_read (p addr n : Z) : K Z :=
  x ← pat p;
  killed ← user (gets u_killed);
  let e := piperead n killed x in
  set_pipes <[p := after e]>;;
  match out e with
  | Returns r bytes => user (store addr bytes);; mret r
  | _ => suspend
  end.

Definition pipe_write (p addr n : Z) : K Z :=
  x ← pat p;
  killed ← user (gets u_killed);
  bytes ← user (load addr n);
  let e := pipewrite n bytes killed x in
  set_pipes <[p := after e]>;;
  match out e with
  | Returns r _ => mret r
  | _ => suspend
  end.

(** ** [file.c] *)

Definition filealloc : K (option nat) :=
  k ← get;
  match find_index (fun f => fl_ref f =? 0) (ftable k) with
  | Some f => fupd f (set_fl_ref 1);; mret (Some f)
  | None => mret None
  end.

Definition filedup (f : nat) : K nat :=
  x ← fat f;
  if fl_ref x <? 1 then panic "filedup"
  else fupd f (fun y => set_fl_ref (fl_ref y + 1) y);; mret f.

Definition fileclose (f : nat) : K unit :=
  x ← fat f;
  if fl_ref x <? 1 then panic "fileclose"
  else if 0 <? fl_ref x - 1 then fupd f (set_fl_ref (fl_ref x - 1))
  else
    fupd f (fun y => set_fl_type FD_NONE (set_fl_ref 0 y));;
    match fl_type x with
    | FD_PIPE => pipe_close (fl_pipe x) (fl_writable x)
    | FD_INODE => begin_op;; iput (fl_ip x);; end_op
    | FD_NONE => mret tt
    end.

(** The fields of [struct stat] at their offsets. *)
Definition put_stat (a : Z) (st : stat) : K unit :=
  user (store a (le_bytes 2 (u16 (st_type st))));;
  user (store (a + 4) (le_bytes 4 (u32 (st_dev st))));;
  user (store (a + 8) (le_bytes 4 (u32 (st_ino st))));;
  user (store (a + 12) (le_bytes 2 (u16 (st_nlink st))));;
  user (store (a + 16) (le_bytes 4 (u32 (st_size st)))).

Definition filestat (f : nat) (st : Z) : K Z :=
  x ← fat f;
  match fl_type x with
  | FD_INODE =>
      ilock (fl_ip x);;
      t ← inodes (x_stati (fl_ip x));
      put_stat st t;;
      iunlock (fl_ip x);;
      mret 0
  | _ => mret (-1)
  end.

Definition fileread (f : nat) (addr n : Z) : K Z :=
  x ← fat f;
  if fl_readable x =? 0 then mret (-1)
  else match fl_type x with
  | FD_PIPE => pipe_read (fl_pipe x) addr n
  | FD_INODE =>
      ilock (fl_ip x);;
      r ← readi (fl_ip x) (u32 (fl_off x)) (u32 n);
      user (store addr r.2);;
      when (0 <? r.1) (fupd f (fun y => set_fl_off (u32 (fl_off y + r.1)) y));;
      iunlock (fl_ip x);;
      mret r.1
  | FD_NONE => panic "fileread"
  end.

(** [((LOGSIZE-1-1-2) / 2) * 512] *)
Definition write_max : Z := ((LOGSIZE - 1 - 1 - 2) / 2) * 512.

(** The transaction for the [n1] bytes at [addr]. *)
Definition filewrite_op (f ip : nat) (addr n1 : Z) : K Z :=
  begin_op;;
  ilock ip;;
  src ← user (load addr n1);
  x ← fat f;
  r ← writei ip src (u32 (fl_off x)) (u32 n1);
  when (0 <? r) (fupd f (fun y => set_fl_off (u32 (fl_off y + r)) y));;
  iunlock ip;;
  end_op;;
  mret r.

(** The loop of [filewrite] from [i] on; an iteration writes at least a byte. *)
Fixpoint filewrite_loop (f ip : nat) (addr i n : Z) (fuel : nat) : K Z :=
  if i <? n then
    match fuel with
    | O => panic "diverges"
    | Datatypes.S fuel' =>
        let n1 := Z.min (n - i) write_max in
        r ← filewrite_op f ip (addr + i) n1;
        if r <? 0 then mret i
        else if negb (r =? n1) then panic "short filewrite"
        else filewrite_loop f ip addr (i + r) n fuel'
    end
  else mret i.

Definition filewrite (f : nat) (addr n : Z) : K Z :=
  x ← fat f;
  if fl_writable x =? 0 then mret (-1)
  else match fl_type x with
  | FD_PIPE => pipe_write (fl_pipe x) addr n
  | FD_INODE =>
      i ← filewrite_loop f (fl_ip x) addr 0 n (Z.to_nat n);
      mret (if i =? n then n else -1)
  | FD_NONE => panic "filewrite"
  end.

(** ** [pipealloc] *)

(** The data of a new pipe is what the page held. *)
Definition page_data (m : mem) (p : Z) : list Z := (fun i : nat => m (p + 52 + Z.of_nat i)) <$> seq 0 (Z.to_nat PIPESIZE).

Definition pipealloc_bad (f0 f1 : option nat) : K (option (nat * nat)) :=
  (match f0 with Some f => fileclose f | None => mret tt end);;
  (match f1 with Some f => fileclose f | None => mret tt end);;
  mret None.

Definition pipealloc : K (option (nat * nat)) :=
  f0 ← filealloc;
  match f0 with
  | None => pipealloc_bad None None
  | Some r =>
      f1 ← filealloc;
      match f1 with
      | None => pipealloc_bad f0 None
      | Some w =>
          k ← get;
          p ← pages kalloc;
          if p =? 0 then pipealloc_bad f0 f1
          else
            set_pipes <[p := new_pipe (page_data (kmem_mem (k_mem k)) p)]>;;
            fupd r (fun x => mkFile FD_PIPE (fl_ref x) 1 0 p (fl_ip x) (fl_off x));;
            fupd w (fun x => mkFile FD_PIPE (fl_ref x) 0 1 p (fl_ip x) (fl_off x));;
            mret (Some (r, w))
      end
  end.

(** ** [sysfile.c] *)

(** A failing argument makes the call return -1. *)
Definition orfail {A} (m : K (option A)) (k : A -> K Z) : K Z :=
  r ← m; match r with Some a => k a | None => mret (-1) end.
Local Notation "x ←? m ; k" := (orfail m (fun x => k)) (at level 100, m at next level, k at level 200, right associativity).

(** The descriptor and the file. *)
Definition argfd (n : Z) : K (option (Z * nat)) :=
  r ← user (argint n);
  match r with
  | None => mret None
  | Some fd =>
      p ← user get;
      if (fd <? 0) || (Z.of_nat NOFILE <=? fd) then mret None
      else mret (pair fd <$> mjoin (ofile p !! Z.to_nat fd))
  end.

Definition set_fd (fd : nat) (f : option nat) : K unit :=
  user (modify (fun p => set_ofile (<[fd := f]> (ofile p)) p)).

Definition fdalloc (f : nat) : K Z :=
  p ← user get;
  match find_index (fun o => bool_decide (o = None)) (ofile p) with
  | Some fd => set_fd fd (Some f);; mret (Z.of_nat fd)
  | None => mret (-1)
  end.

Definition sys_dup : K Z :=
  a ←? argfd 0;
  fd ← fdalloc a.2;
  if fd <? 0 then mret (-1) else filedup a.2;; mret fd.

Definition sys_read : K Z :=
  a ←? argfd 0;
  n ←? user (argint 2);
  p ←? user (argptr 1 n);
  fileread a.2 p n.

Definition sys_write : K Z :=
  a ←? argfd 0;
  n ←? user (argint 2);
  p ←? user (argptr 1 n);
  filewrite a.2 p n.

Definition sys_close : K Z :=
  a ←? argfd 0;
  set_fd (Z.to_nat a.1) None;;
  fileclose a.2;;
  mret 0.

(** [sizeof(struct stat)] is 20. *)
Definition sys_fstat : K Z :=
  a ←? argfd 0;
  st ←? user (argptr 1 20);
  filestat a.2 st.

Definition end_fail : K Z := end_op;; mret (-1).

Definition sys_link_bad (ip : nat) : K Z :=
  ilock ip;;
  iupd ip (fun i => with_nlink (s16 (i_nlink i - 1)) i);;
  iupdate ip;;
  iunlockput ip;;
  end_fail.

Definition sys_link : K Z :=
  old ←? user (argstr 0);
  new ←? user (argstr 1);
  begin_op;;
  r ← namei old;
  match r with
  | None => end_fail
  | Some ip =>
      ilock ip;;
      i ← iat ip;
      if i_type i =? T_DIR then iunlockput ip;; end_fail
      else
        iupd ip (fun i => with_nlink (s16 (i_nlink i + 1)) i);;
        iupdate ip;;
        iunlock ip;;
        d ← nameiparent new;
        match d with
        | (None, _) => sys_link_bad ip
        | (Some dp, name) =>
            ilock dp;;
            di ← iat dp;
            i ← iat ip;
            (if negb (i_dev di =? i_dev i) then iunlockput dp;; sys_link_bad ip
             else
               e ← dirlink dp name (i_inum i);
               if e <? 0 then iunlockput dp;; sys_link_bad ip
               else
                 iunlockput dp;;
                 iput ip;;
                 end_op;;
                 mret 0)
        end
  end.

(** The loop of [isdirempty] from [off] on. *)
Fixpoint isdirempty_loop (dp : nat) (off : Z) (fuel : nat) : K bool :=
  i ← iat dp;
  if off <? i_size i then
    match fuel with
    | O => panic "diverges"
    | Datatypes.S fuel' =>
        r ← readi dp off DIRENT;
        if negb (r.1 =? DIRENT) then panic "isdirempty: readi"
        else if negb (dirent_inum r.2 =? 0) then mret false
        else isdirempty_loop dp (off + DIRENT) fuel'
    end
  else mret true.
Definition isdirempty (dp : nat) : K bool :=
  i ← iat dp; isdirempty_loop dp (2 * DIRENT) (Z.to_nat (i_size i)).

Definition sys_unlink_bad (dp : nat) : K Z := iunlockput dp;; end_fail.

(** [sys_unlink] once the entry of [ip] at [off] is to go. *)
Definition sys_unlink_entry (dp ip : nat) (off : Z) : K Z :=
  w ← writei dp (replicate 16 0) off DIRENT;
  if negb (w =? DIRENT) then panic "unlink: writei"
  else
    i ← iat ip;
    when (i_type i =? T_DIR)
      (iupd dp (fun d => with_nlink (s16 (i_nlink d - 1)) d);; iupdate dp);;
    iunlockput dp;;
    iupd ip (fun i => with_nlink (s16 (i_nlink i - 1)) i);;
    iupdate ip;;
    iunlockput ip;;
    end_op;;
    mret 0.

Definition sys_unlink : K Z :=
  path ←? user (argstr 0);
  begin_op;;
  d ← nameiparent path;
  match d with
  | (None, _) => end_fail
  | (Some dp, name) =>
      ilock dp;;
      if (namecmp name [46] =? 0) || (namecmp name [46; 46] =? 0) then sys_unlink_bad dp
      else
        r ← dirlookup dp name;
        match r with
        | None => sys_unlink_bad dp
        | Some (ip, off) =>
            ilock ip;;
            i ← iat ip;
            (if i_nlink i <? 1 then panic "unlink: nlink < 1"
             else
               busy ← (if i_type i =? T_DIR then e ← isdirempty ip; mret (negb e) else mret false);
               if busy : bool then iunlockput ip;; sys_unlink_bad dp
               else sys_unlink_entry dp ip off)
        end
  end.

(** The part of [create] for a new name. *)
Definition create_new (dp : nat) (name : list Z) (type major minor : Z) : K nat :=
  d ← iat dp;
  ip ← inodes (x_ialloc (i_dev d) type);
  ilock ip;;
  iupd ip (fun i => with_nlink 1 (with_dev_nos major minor i));;
  iupdate ip;;
  i ← iat ip;
  when (type =? T_DIR)
    (iupd dp (fun d => with_nlink (s16 (i_nlink d + 1)) d);;
     iupdate dp;;
     e1 ← dirlink ip [46] (i_inum i);
     if e1 <? 0 then panic "create dots"
     else
       e2 ← dirlink ip [46; 46] (i_inum d);
       if e2 <? 0 then panic "create dots" else mret tt);;
  e ← dirlink dp name (i_inum i);
  if e <? 0 then panic "create: dirlink"
  else iunlockput dp;; mret ip.

(** [major] and [minor] are [short]s. *)
Definition create (path : list Z) (type major minor : Z) : K (option nat) :=
  d ← nameiparent path;
  match d with
  | (None, _) => mret None
  | (Some dp, name) =>
      ilock dp;;
      r ← dirlookup dp name;
      match r with
      | Some (ip, _) =>
          iunlockput dp;;
          ilock ip;;
          i ← iat ip;
          if (type =? T_FILE) && (i_type i =? T_FILE) then mret (Some ip)
          else iunlockput ip;; mret None
      | None => ip ← create_new dp name type major minor; mret (Some ip)
      end
  end.

(** The inode to open, locked. *)
Definition open_inode (path : list Z) (omode : Z) : K (option nat) :=
  if negb (Z.land omode O_CREATE =? 0) then create path T_FILE 0 0
  else
    r ← namei path;
    match r with
    | None => mret None
    | Some ip =>
        ilock ip;;
        i ← iat ip;
        if (i_type i =? T_DIR) && negb (omode =? O_RDONLY) then iunlockput ip;; mret None
        else mret (Some ip)
    end.

Definition is_set (b : bool) : Z := if b then 1 else 0.

Definition sys_open : K Z :=
  path ←? user (argstr 0);
  omode ←? user (argint 1);
  begin_op;;
  r ← open_inode path omode;
  match r with
  | None => end_fail
  | Some ip =>
      r ← filealloc;
      match r with
      | None => iunlockput ip;; end_fail
      | Some f =>
          fd ← fdalloc f;
          if fd <? 0 then fileclose f;; iunlockput ip;; end_fail
          else
            iunlock ip;;
            end_op;;
            fupd f (fun x => mkFile FD_INODE (fl_ref x)
              (is_set (Z.land omode O_WRONLY =? 0))
              (is_set (negb (Z.land omode O_WRONLY =? 0) || negb (Z.land omode O_RDWR =? 0)))
              (fl_pipe x) ip 0);;
            mret fd
      end
  end.

Definition finish_create (r : option nat) : K Z :=
  match r with
  | None => end_fail
  | Some ip => iunlockput ip;; end_op;; mret 0
  end.

Definition sys_mkdir : K Z :=
  begin_op;;
  a ← user (argstr 0);
  match a with
  | None => end_fail
  | Some path => r ← create path T_DIR 0 0; finish_create r
  end.

Definition sys_mknod : K Z :=
  begin_op;;
  a ← user (argstr 0);
  b ← user (argint 1);
  c ← user (argint 2);
  match a, b, c with
  | Some path, Some major, Some minor => r ← create path T_DEV (s16 major) (s16 minor); finish_create r
  | _, _, _ => end_fail
  end.

Definition sys_chdir : K Z :=
  begin_op;;
  a ← user (argstr 0);
  match a with
  | None => end_fail
  | Some path =>
      r ← namei path;
      match r with
      | None => end_fail
      | Some ip =>
          ilock ip;;
          i ← iat ip;
          if negb (i_type i =? T_DIR) then iunlockput ip;; end_fail
          else
            iunlock ip;;
            old ← user (gets cwd);
            iput old;;
            end_op;;
            user (modify (set_cwd ip));;
            mret 0
      end
  end.

(** The loop of [sys_exec] from [i] on. *)
Fixpoint exec_args (uargv : Z) (i : nat) (fuel : nat) : M uproc (option (list (list Z))) :=
  match fuel with
  | O => mret None
  | Datatypes.S fuel' =>
      a ← fetchint (u32 (uargv + 4 * Z.of_nat i));
      match a with
      | None => mret None
      | Some uarg =>
          if uarg =? 0 then mret (Some [])
          else
            s ← fetchstr (u32 uarg);
            match s with
            | None => mret None
            | Some str => r ← exec_args uargv (Datatypes.S i) fuel'; mret (cons str <$> r)
            end
      end
  end.

(** [exec] of [exec.c] is an argument; [argv\[\]] has [MAXARG] entries. *)
Definition sys_exec (exec : list Z -> list (list Z) -> K Z) : K Z :=
  path ←? user (argstr 0);
  uargv ←? user (argint 1);
  argv ←? user (exec_args (u32 uargv) 0 MAXARG);
  exec path argv.

Definition sys_pipe : K Z :=
  fd ←? user (argptr 0 8);
  rw ←? pipealloc;
  fd0 ← fdalloc rw.1;
  if fd0 <? 0 then fileclose rw.1;; fileclose rw.2;; mret (-1)
  else
    fd1 ← fdalloc rw.2;
    if fd1 <? 0 then
      set_fd (Z.to_nat fd0) None;; fileclose rw.1;; fileclose rw.2;; mret (-1)
    else
      user (store fd (le_bytes 4 (u32 fd0)));;
      user (store (fd + 4) (le_bytes 4 (u32 fd1)));;
      mret 0.

(** ** Dispatch *)

(** [exec] and the calls of [sysproc.c] are arguments. *)
Definition handler (exec : list Z -> list (list Z) -> K Z) (sysproc : sysno -> K Z) (n : sysno) : K Z :=
  match n with
  | SYS_pipe => sys_pipe
  | SYS_read => sys_read
  | SYS_exec => sys_exec exec
  | SYS_fstat => sys_fstat
  | SYS_chdir => sys_chdir
  | SYS_dup => sys_dup
  | SYS_open => sys_open
  | SYS_write => sys_write
  | SYS_mknod => sys_mknod
  | SYS_unlink => sys_unlink
  | SYS_link => sys_link
  | SYS_mkdir => sys_mkdir
  | SYS_close => sys_close
  | n => sysproc n
  end.

Definition syscall (exec : list Z -> list (list Z) -> K Z) (sysproc : sysno -> K Z) : K unit :=
  num ← user (gets u_eax);
  match syscall_no (s32 num) with
  | Some n => r ← handler exec sysproc n; user (modify (set_eax (u32 r)))
  | None => user (modify (set_eax (u32 (-1))))
  end.
End File.
