(* ===== verification/FileInv.v ===== *)
(** * The file table

    The invariant of the file table: the reference count of a file is the
    number of descriptors that hold it, a free entry has no type, and every
    open end of a pipe has its pipe, each end in one file.  The operations of
    [file.c] and [pipealloc] on it. *)
From stdpp Require Import gmap.
From S2P Require Import Prelude Bytes Cstring Kalloc Pipe Log Blocks Fs Args File.
Local Open Scope Z_scope.

(** ** Tables *)

(** The flag of the end of the pipe that the file is. *)
Definition end_open (x : file) (p : pipe) : Z := if fl_writable x =? 0 then readopen p else writeopen p.

(** [held f] references to the file [f] exist. *)
Record table_ok (held : nat -> nat) (ft : list file) (ps : gmap Z pipe) : Prop := {
  t_len : length ft = NFILE;
  t_held f : held f <> 0%nat -> (f < NFILE)%nat;
  t_ref f x : ft !! f = Some x -> fl_ref x = Z.of_nat (held f);
  t_free f x : ft !! f = Some x -> fl_ref x = 0 -> fl_type x = FD_NONE;
  t_pipe f x : ft !! f = Some x -> fl_type x = FD_PIPE ->
    exists p, ps !! fl_pipe x = Some p /\ end_open x p <> 0;
  t_ends f g x y : ft !! f = Some x -> ft !! g = Some y -> f <> g -> fl_type x = FD_PIPE -> fl_type y = FD_PIPE ->
    fl_pipe x = fl_pipe y -> (fl_writable x =? 0) = negb (fl_writable y =? 0)
}.

Definition upd (held : nat -> nat) (f n : nat) : nat -> nat := fun g => if decide (g = f) then n else held g.

Lemma table_ext held held' ft ps : (forall f, held f = held' f) -> table_ok held ft ps -> table_ok held' ft ps.
Proof. intros E [H1 H2 H3 H4 H5 H6]. constructor; try done; intros f; rewrite <- E; [apply H2|apply H3]. Qed.

(** A change of one entry. *)
Lemma table_alter held ft ps f x h n :
  table_ok held ft ps -> ft !! f = Some x -> fl_ref (h x) = Z.of_nat n ->
  (fl_ref (h x) = 0 -> fl_type (h x) = FD_NONE) ->
  (fl_type (h x) = FD_PIPE -> fl_type x = FD_PIPE /\ fl_pipe (h x) = fl_pipe x /\ fl_writable (h x) = fl_writable x) ->
  table_ok (upd held f n) (alter h f ft) ps.
Proof.
  intros [H1 H2 H3 H4 H5 H6] Hf Hn Hfree Hp. constructor.
  - by rewrite length_alter.
  - intros g. unfold upd. case_decide as E; [|apply H2]. subst g. intros _. rewrite <- H1. by eapply lookup_lt_Some.
  - intros g y. unfold upd. rewrite lookup_alter_cases. repeat case_decide; subst; try done; [|apply H3].
    rewrite Hf. by intros [= <-].
  - intros g y. rewrite lookup_alter_cases. case_decide; subst; [|apply H4]. rewrite Hf. by intros [= <-].
  - intros g y. rewrite lookup_alter_cases. case_decide; subst; [|apply H5]. rewrite Hf. intros [= <-] Ht.
    destruct (Hp Ht) as (Ht' & Ep & Ew). destruct (H5 _ _ Hf Ht') as (p & Hps & He).
    exists p. rewrite Ep. split; [done|]. unfold end_open in *. by rewrite Ew.
  - intros a b xa xb. rewrite !lookup_alter_cases. intros Ha Hb Hab Ta Tb Eab.
    destruct (decide (f = a)) as [<-|Na], (decide (f = b)) as [<-|Nb]; [done| | |by eapply H6].
    + rewrite Hf in Ha. injection Ha as <-. destruct (Hp Ta) as (Ta' & Ep & Ew). rewrite Ew.
      eapply (H6 f b); (done || congruence).
    + rewrite Hf in Hb. injection Hb as <-. destruct (Hp Tb) as (Tb' & Ep & Ew). rewrite Ew.
      eapply (H6 a f); (done || congruence).
Qed.

(** A change of one pipe that keeps the ends open that files have. *)
Lemma table_pipes held ft ps ps' :
  table_ok held ft ps ->
  (forall f x p, ft !! f = Some x -> fl_type x = FD_PIPE -> ps !! fl_pipe x = Some p -> end_open x p <> 0 ->
     exists p', ps' !! fl_pipe x = Some p' /\ end_open x p' <> 0) ->
  table_ok held ft ps'.
Proof.
  intros [H1 H2 H3 H4 H5 H6] H. constructor; try done.
  intros f x Hf Ht. destruct (H5 f x Hf Ht) as (p & Hp & He). by eapply H.
Qed.

Lemma table_pipe held ft ps q p p' :
  table_ok held ft ps -> ps !! q = Some p -> readopen p' = readopen p -> writeopen p' = writeopen p ->
  table_ok held ft (<[q := p']> ps).
Proof.
  intros H Hq Hr Hw. apply (table_pipes _ _ _ _ H). intros f x p0 Hf Ht Hp He.
  destruct (decide (fl_pipe x = q)) as [E|Hne]; [|exists p0; by rewrite lookup_insert_ne by done].
  exists p'. rewrite E, lookup_insert_eq. split; [done|]. rewrite E, Hq in Hp. injection Hp as <-.
  unfold end_open in *. by rewrite Hr, Hw.
Qed.

(** The last reference to an end of a pipe goes away. *)
Definition closed_pipes (q : Z) (r : option pipe) (ps : gmap Z pipe) : gmap Z pipe :=
  match r with Some p' => <[q := p']> ps | None => delete q ps end.

Lemma table_close_pipe held ft ps f x p :
  table_ok held ft ps -> ft !! f = Some x -> fl_type x = FD_PIPE -> ps !! fl_pipe x = Some p ->
  table_ok (upd held f 0) (alter (fun y => set_fl_type FD_NONE (set_fl_ref 0 y)) f ft)
    (closed_pipes (fl_pipe x) (pipeclose (negb (fl_writable x =? 0)) p).1 ps).
Proof.
  intros H Hf Ht Hp. eapply table_pipes; [by apply (table_alter _ _ _ f x)|].
  intros g y p0. rewrite lookup_alter_cases. case_decide as E; [subst g; rewrite Hf; by intros [= <-]|].
  intros Hg Tg Hp0 He. destruct (decide (fl_pipe y = fl_pipe x)) as [Eq|Hne].
  - rewrite Eq, Hp in Hp0. injection Hp0 as <-.
    pose proof (t_ends _ _ _ H f g x y Hf Hg ltac:(done) Ht Tg (eq_sym Eq)) as Hends.
    unfold pipeclose, end_open in *. rewrite Eq. destruct (fl_writable x =? 0), (fl_writable y =? 0); try done; simpl in *.
    + destruct (writeopen p =? 0) eqn:Ew; [by apply Z.eqb_eq in Ew|]. simpl. rewrite lookup_insert_eq. eauto.
    + destruct (readopen p =? 0) eqn:Er; [by apply Z.eqb_eq in Er|]. simpl. rewrite lookup_insert_eq. eauto.
  - exists p0. split; [|done]. unfold closed_pipes. destruct (pipeclose _ _).1.
    + by rewrite lookup_insert_ne by done.
    + by rewrite lookup_delete_ne by done.
Qed.

Definition as_pipe (readable writable p : Z) (x : file) : file :=
  mkFile FD_PIPE (fl_ref x) readable writable p (fl_ip x) (fl_off x).

(** Two files become the ends of a new pipe. *)
Lemma table_new_pipe held ft ps r w p junk :
  table_ok held ft ps -> held r <> 0%nat -> held w <> 0%nat -> r <> w -> ps !! p = None ->
  table_ok held (alter (as_pipe 0 1 p) w (alter (as_pipe 1 0 p) r ft)) (<[p := new_pipe junk]> ps).
Proof.
  intros H Hr Hw Hrw Hp. pose proof H as [H1 H2 H3 H4 H5 H6].
  assert (Hl : forall g y, alter (as_pipe 0 1 p) w (alter (as_pipe 1 0 p) r ft) !! g = Some y ->
    exists x, ft !! g = Some x /\ fl_ref y = fl_ref x /\
      (y = as_pipe 1 0 p x /\ g = r \/ y = as_pipe 0 1 p x /\ g = w \/ y = x /\ g <> r /\ g <> w)).
  { intros g y. rewrite !lookup_alter_cases. destruct (decide (w = g)) as [Ew|], (decide (r = g)) as [Er|]; [congruence| | |].
    1,2: intros E; apply fmap_Some in E as (x & Ex & ->); exists x; subst g; split; [done|]; split; [done|auto].
    intros E. exists y. split; [done|]. split; [done|]. right. by right. }
  assert (Hold : forall g x, ft !! g = Some x -> fl_type x = FD_PIPE -> fl_pipe x <> p).
  { intros g x Hg Ht E. destruct (H5 g x Hg Ht) as (q & Hq & _). congruence. }
  constructor.
  - by rewrite !length_alter.
  - done.
  - intros g y Hy. destruct (Hl g y Hy) as (x & Hx & -> & _). by apply H3.
  - intros g y Hy Er. destruct (Hl g y Hy) as (x & Hx & Eref & Hc). rewrite Eref, (H3 g x Hx) in Er.
    destruct Hc as [[-> ->]|[[-> ->]|[-> _]]]; [lia|lia|]. apply (H4 g x Hx). rewrite (H3 g x Hx). done.
  - intros g y Hy Ht. destruct (Hl g y Hy) as (x & Hx & _ & Hc).
    destruct Hc as [[-> ->]|[[-> ->]|[-> _]]]; [by exists (new_pipe junk); rewrite lookup_insert_eq..|].
    rewrite lookup_insert_ne by (intros E; by eapply Hold). by eapply H5.
  - intros a b xa xb Ha Hb Hab Ta Tb E. destruct (Hl a xa Ha) as (ya & Hya & _ & Ca), (Hl b xb Hb) as (yb & Hyb & _ & Cb).
    destruct Ca as [[-> ->]|[[-> ->]|[-> [Na1 Na2]]]], Cb as [[-> ->]|[[-> ->]|[-> [Nb1 Nb2]]]]; try done.
    1,2: symmetry in E; by destruct (Hold b yb Hyb Tb). 1,2: by destruct (Hold a ya Hya Ta). by eapply H6.
Qed.

(** ** The state *)

Section Inv.
Context {S : Type} {ops : FsOps S} (kernel_end : Z).
Notation K := (M (kstate S)).

Definition count_fd (f : nat) (fds : list (option nat)) : nat := length (filter (fun o => o = Some f) fds).
Definition count_in (f : nat) (l : list nat) : nat := length (filter (fun g => g = f) l).

(** The references to [f]: the descriptors of the current process, [ext f] of
    other processes, and those in the list [own], which the kernel has while it
    executes a call. *)
Definition holders (ext : nat -> nat) (own : list nat) (p : uproc) (f : nat) : nat :=
  (count_fd f (ofile p) + ext f + count_in f own)%nat.

(** The pages of the pipes are not free. *)
Definition pages_ok (k : kmem) (ps : gmap Z pipe) : Prop :=
  exists l, kmem_ok kernel_end k l /\ forall p, is_Some (ps !! p) -> good_page kernel_end p /\ p ∉ l.

Record files_ok (ext : nat -> nat) (own : list nat) (k : kstate S) : Prop := {
  fo_table : table_ok (holders ext own (curproc k)) (ftable k) (pipes k);
  fo_fds : length (ofile (curproc k)) = NOFILE;
  fo_pages : pages_ok (k_mem k) (pipes k);
  fo_user : uproc_ok (curproc k)
}.

(** All files in use, but those of [own], have a type. *)
Definition typed (own : list nat) (k : kstate S) : Prop :=
  forall f x, ftable k !! f = Some x -> fl_ref x <> 0 -> f ∉ own -> fl_type x <> FD_NONE.

Definition set_fs (x : S) (k : kstate S) : kstate S := mkKstate x (ftable k) (pipes k) (k_mem k) (curproc k).

Lemma files_fs ext own k x : files_ok ext own k -> files_ok ext own (set_fs x k).
Proof. by intros [? ? ? ?]. Qed.

Lemma count_fd_cons f o fds : count_fd f (o :: fds) = ((if decide (o = Some f) then 1 else 0) + count_fd f fds)%nat.
Proof. unfold count_fd. rewrite filter_cons. by case_decide. Qed.

(** A descriptor that changes from [o] to [o']. *)
Lemma count_fd_insert f fd o o' fds : fds !! fd = Some o ->
  (count_fd f (<[fd := o']> fds) + (if decide (o = Some f) then 1 else 0) =
   count_fd f fds + (if decide (o' = Some f) then 1 else 0))%nat.
Proof.
  revert fd. induction fds as [|x fds IH]; intros fd; [done|]. destruct fd as [|fd]; simpl.
  - intros [= ->]. rewrite !count_fd_cons. lia.
  - intros H. rewrite !count_fd_cons. specialize (IH fd H). lia.
Qed.

Lemma count_in_cons f g l : count_in f (g :: l) = ((if decide (g = f) then 1 else 0) + count_in f l)%nat.
Proof. unfold count_in. rewrite filter_cons. by case_decide. Qed.

Lemma holders_cons ext own p g :
  forall f, holders ext (g :: own) p f = upd (holders ext own p) g (Datatypes.S (holders ext own p g)) f.
Proof. intros f. unfold holders, upd. rewrite count_in_cons. repeat case_decide; subst; (done || lia). Qed.

Lemma held_fd ext own p fd f : ofile p !! fd = Some (Some f) -> holders ext own p f <> 0%nat.
Proof.
  intros H. pose proof (count_fd_insert f fd _ None _ H) as E. rewrite decide_True, decide_False in E by done.
  unfold holders. lia.
Qed.

Lemma held_own ext own p f : f ∈ own -> holders ext own p f <> 0%nat.
Proof.
  intros H. unfold holders. enough (count_in f own <> 0%nat) by lia.
  induction own as [|g l IH]; [by apply elem_of_nil in H|]. rewrite count_in_cons.
  apply elem_of_cons in H as [->|H]; [rewrite decide_True by done|specialize (IH H)]; lia.
Qed.

(** A held file is in the table, with the count of its holders. *)
Lemma held_file ext own k f : files_ok ext own k -> holders ext own (curproc k) f <> 0%nat ->
  exists x, ftable k !! f = Some x /\ fl_ref x = Z.of_nat (holders ext own (curproc k) f).
Proof.
  intros [Ht _ _ _] Hf. destruct (lookup_lt_is_Some_2 (ftable k) f) as [x Hx].
  { rewrite (t_len _ _ _ Ht). by apply (t_held _ _ _ Ht). }
  exists x. split; [done|]. by apply (t_ref _ _ _ Ht).
Qed.

(** ** Steps *)

Section steps.
Context (QA : kstate S -> Prop) (E : string -> Prop).

Definition set_ft (ft : list file) (k : kstate S) : kstate S := mkKstate (k_fs k) ft (pipes k) (k_mem k) (curproc k).
Definition set_ps (ps : gmap Z pipe) (k : kstate S) : kstate S := mkKstate (k_fs k) (ftable k) ps (k_mem k) (curproc k).
Definition set_km (m : kmem) (k : kstate S) : kstate S := mkKstate (k_fs k) (ftable k) (pipes k) m (curproc k).
Definition set_cur (p : uproc) (k : kstate S) : kstate S := mkKstate (k_fs k) (ftable k) (pipes k) (k_mem k) p.

Lemma wp_fat f x (Q : file -> kstate S -> Prop) k :
  ftable k !! f = Some x -> Q x k -> wp (fat f) Q QA E k.
Proof. intros Hf HQ. unfold wp, fat. by rewrite Hf. Qed.

Lemma wp_pat p x (Q : pipe -> kstate S -> Prop) k :
  pipes k !! p = Some x -> Q x k -> wp (pat p) Q QA E k.
Proof. intros Hf HQ. unfold wp, pat. by rewrite Hf. Qed.

Lemma wp_inodes {A} (m : M S A) (R : A -> Prop) (Q : A -> kstate S -> Prop) k :
  wp m (fun a _ => R a) (fun _ => True) E (k_fs k) ->
  (forall a x, R a -> Q a (set_fs x k)) -> (forall x, QA (set_fs x k)) -> wp (inodes m) Q QA E k.
Proof. unfold wp, inodes. destruct (m (k_fs k)); intros Hm HQ HA; [by apply HQ|done|apply HA]. Qed.

Lemma wp_user {A} (m : M uproc A) r p (Q : A -> kstate S -> Prop) k :
  m (curproc k) = Ret r p -> Q r (set_cur p k) -> wp (user m) Q QA E k.
Proof. intros H HQ. unfold wp, user. by rewrite H. Qed.

Lemma wp_user_pure {A} (m : M uproc A) r (Q : A -> kstate S -> Prop) k :
  m (curproc k) = Ret r (curproc k) -> Q r k -> wp (user m) Q QA E k.
Proof. intros H HQ. apply (wp_user m r (curproc k)); [done|]. by destruct k. Qed.

Lemma wp_pages {A} (m : M kmem A) r x (Q : A -> kstate S -> Prop) k :
  m (k_mem k) = Ret r x -> Q r (set_km x k) -> wp (pages m) Q QA E k.
Proof. intros H HQ. unfold wp, pages. by rewrite H. Qed.
End steps.

(** Every file in use in [k'] is in use in [k], with the same type. *)
Definition same_types (k k' : kstate S) : Prop :=
  forall g y, ftable k' !! g = Some y -> fl_ref y <> 0 ->
  exists x, ftable k !! g = Some x /\ fl_ref x <> 0 /\ fl_type x = fl_type y.

Lemma same_types_refl k : same_types k k.
Proof. intros g y Hg Hr. by exists y. Qed.

Lemma typed_same own k k' : same_types k k' -> typed own k -> typed own k'.
Proof. intros H Ht g y Hg Hr Hn. destruct (H g y Hg Hr) as (x & Hx & Hrx & <-). by eapply Ht. Qed.

(** What [fs.c] and [log.c] promise: their panics are those of [E], no more
    bytes are read than asked for, and a write is done completely or not. *)
Definition quiet (E : string -> Prop) {A} (m : M S A) : Prop := forall s, wp m (fun _ _ => True) (fun _ => True) E s.

Class FsLaws (E : string -> Prop) := {
  q_begin_op : quiet E x_begin_op;
  q_end_op : quiet E x_end_op;
  q_ilock ip : quiet E (x_ilock ip);
  q_iunlock ip : quiet E (x_iunlock ip);
  q_iput ip : quiet E (x_iput ip);
  q_iunlockput ip : quiet E (x_iunlockput ip);
  q_iat ip : quiet E (x_iat ip);
  q_iupd ip g : quiet E (x_iupd ip g);
  q_iupdate ip : quiet E (x_iupdate ip);
  q_stati ip : quiet E (x_stati ip);
  q_readi ip off n s : 0 <= off -> 0 <= n ->
    wp (x_readi ip off n) (fun r _ => Z.of_nat (length r.2) <= n) (fun _ => True) E s;
  q_writei ip src off n s : (Z.to_nat n <= length src)%nat -> 0 <= n < 2 ^ 31 ->
    wp (x_writei ip src off n) (fun r _ => r < 0 \/ r = n) (fun _ => True) E s;
  q_ialloc d t : quiet E (x_ialloc d t);
  q_dirlookup dp name : quiet E (x_dirlookup dp name);
  q_dirlink dp name inum : quiet E (x_dirlink dp name inum);
  q_namei c path : quiet E (x_namei c path);
  q_nameiparent c path name : quiet E (x_nameiparent c path name);
  q_file msg : msg ∈ ["isdirempty: readi"; "unlink: writei"; "unlink: nlink < 1"; "create dots"; "create: dirlink"; "diverges"]%string -> E msg
}.

(** ** Operations *)

Section ops.
Context (E : string -> Prop) {laws : FsLaws E} (ext : nat -> nat).

Lemma wp_quiet {A} (m : M S A) (Q : A -> kstate S -> Prop) QA k :
  quiet E m -> (forall a x, Q a (set_fs x k)) -> (forall x, QA (set_fs x k)) -> wp (inodes m) Q QA E k.
Proof. intros Hm HQ HA. by apply (wp_inodes _ _ m (fun _ => True)). Qed.

Lemma filealloc_ok own QA k (Q : option nat -> kstate S -> Prop) :
  files_ok ext own k -> Q None k ->
  (forall f k', files_ok ext (f :: own) k' -> holders ext own (curproc k) f = 0%nat -> k' = set_ft (alter (set_fl_ref 1) f (ftable k)) k ->
     (exists x, ftable k' !! f = Some x /\ fl_type x = FD_NONE) -> Q (Some f) k') ->
  wp filealloc Q QA E k.
Proof.
  intros H HN HS. unfold filealloc. apply wp_bind. unfold wp at 1, get.
  destruct (find_index _ _) as [f|] eqn:Ef; [|done]. apply find_index_Some in Ef as [(x & Hx & Hr) _].
  apply Z.eqb_eq in Hr. destruct H as [Ht Hfds Hpg Hu].
  assert (Hh : holders ext own (curproc k) f = 0%nat) by (pose proof (t_ref _ _ _ Ht f x Hx); lia).
  assert (Hty : fl_type x = FD_NONE) by exact (t_free _ _ _ Ht f x Hx Hr).
  apply (HS f); [|done|done|].
  - constructor; [|done..]. cbn [ftable pipes curproc set_ft]. eapply table_ext; [intros g; symmetry; apply holders_cons|].
    rewrite Hh. by apply (table_alter _ _ _ f x).
  - exists (set_fl_ref 1 x). cbn [ftable]. rewrite lookup_alter_cases, decide_True, Hx by done. done.
Qed.

(** Giving up a reference that is not the last one. *)
Lemma fileclose_shared own k f x :
  files_ok ext (f :: own) k -> ftable k !! f = Some x -> 1 < fl_ref x ->
  files_ok ext own (set_ft (alter (set_fl_ref (fl_ref x - 1)) f (ftable k)) k).
Proof.
  intros [Ht Hfds Hpg Hu] Hx Hr. pose proof (t_ref _ _ _ Ht f x Hx) as Href.
  rewrite holders_cons in Href. unfold upd in Href. rewrite decide_True in Href by done.
  constructor; [|done..]. cbn [ftable pipes curproc set_ft].
  eapply table_ext; [|apply (table_alter _ _ _ f x _ (holders ext own (curproc k) f) Ht Hx); simpl; (done || lia)].
  intros g. unfold upd at 1. case_decide as Eg; [by subst g|]. rewrite holders_cons. unfold upd. by rewrite decide_False.
Qed.

(** The file of the last reference is free afterwards, its pipe aside. *)
Lemma fileclose_last own k f x ps :
  files_ok ext (f :: own) k -> ftable k !! f = Some x -> fl_ref x = 1 ->
  table_ok (upd (holders ext (f :: own) (curproc k)) f 0) (alter (fun y => set_fl_type FD_NONE (set_fl_ref 0 y)) f (ftable k)) ps ->
  table_ok (holders ext own (curproc k)) (alter (fun y => set_fl_type FD_NONE (set_fl_ref 0 y)) f (ftable k)) ps.
Proof.
  intros [Ht Hfds Hpg Hu] Hx Hr. pose proof (t_ref _ _ _ Ht f x Hx) as Href.
  rewrite holders_cons in Href. unfold upd in Href. rewrite decide_True in Href by done.
  apply table_ext. intros g. unfold upd at 1. case_decide as Eg; [subst g; lia|].
  rewrite holders_cons. unfold upd. by rewrite decide_False.
Qed.

Lemma same_types_alter k f x h fs ps km p :
  ftable k !! f = Some x -> (fl_ref (h x) <> 0 -> fl_ref x <> 0 /\ fl_type x = fl_type (h x)) ->
  same_types k (mkKstate fs (alter h f (ftable k)) ps km p).
Proof.
  intros Hx Hh g y. cbn [ftable]. rewrite lookup_alter_cases. case_decide; subst; [|intros Hg Hr; by exists y].
  rewrite Hx. intros [= <-] Hr. exists x. split; [done|]. by apply Hh.
Qed.

(** [pipeclose] on an end that is open; its page is free when it was the last
    of the two. *)
Lemma pipe_close_ok q w p (Q : unit -> kstate S -> Prop) QA k :
  pages_ok (k_mem k) (pipes k) -> pipes k !! q = Some p ->
  (forall km, pages_ok km (closed_pipes q (pipeclose (negb (w =? 0)) p).1 (pipes k)) ->
     Q tt (mkKstate (k_fs k) (ftable k) (closed_pipes q (pipeclose (negb (w =? 0)) p).1 (pipes k)) km (curproc k))) ->
  wp (pipe_close kernel_end q w) Q QA E k.
Proof.
  intros (l & Hk & Hpg) Hq HQ. unfold pipe_close. apply wp_bind, (wp_pat _ _ _ p); [done|].
  destruct (pipeclose _ _).1 as [p'|]; cbn [closed_pipes] in HQ.
  - apply (HQ (k_mem k)). exists l. split; [done|]. intros a Ha. apply Hpg.
    destruct (decide (a = q)) as [->|Hne]; [done|]. by rewrite lookup_insert_ne in Ha by done.
  - destruct (Hpg q ltac:(by eexists)) as [Hg Hl].
    destruct (kfree_ok kernel_end q (k_mem k) l Hk Hg Hl) as (km & Ekm & Hkm & _).
    apply wp_bind. unfold wp at 1, set_pipes, modify. apply (wp_pages _ _ _ tt km); [done|]. apply HQ.
    exists (q :: l). split; [done|]. intros a Ha. destruct (decide (a = q)) as [->|Hne].
    + rewrite lookup_delete_eq in Ha. by destruct Ha.
    + rewrite lookup_delete_ne in Ha by done. destruct (Hpg a Ha) as [Ha1 Ha2]. split; [done|].
      by apply not_elem_of_cons.
Qed.

Lemma fileclose_ok own f x (Q : unit -> kstate S -> Prop) (QA : kstate S -> Prop) k :
  files_ok ext (f :: own) k -> ftable k !! f = Some x ->
  (fl_type x = FD_INODE -> forall k', files_ok ext own k' -> QA k') ->
  (forall k', files_ok ext own k' -> same_types k k' -> curproc k' = curproc k ->
     (forall g, g <> f -> ftable k' !! g = ftable k !! g) -> Q tt k') ->
  wp (fileclose kernel_end f) Q QA E k.
Proof using laws.
  intros H Hx HA HQ. unfold fileclose. apply wp_bind, (wp_fat _ _ _ x); [done|]. cbv beta.
  pose proof (t_ref _ _ _ (fo_table _ _ _ H) f x Hx) as Href.
  rewrite holders_cons in Href. unfold upd in Href. rewrite decide_True in Href by done.
  destruct (Z.ltb_spec (fl_ref x) 1); [lia|].
  assert (Hoth : forall h g, g <> f -> alter h f (ftable k) !! g = ftable k !! g).
  { intros h g Hg. by apply list_lookup_alter_ne. }
  destruct (Z.ltb_spec 0 (fl_ref x - 1)).
  { apply HQ; [apply (fileclose_shared own k f x H Hx); lia| |done|by apply Hoth].
    apply (same_types_alter k f x); [done|]. simpl. split; [lia|done]. }
  assert (Hr : fl_ref x = 1) by lia. apply wp_bind. unfold wp at 1, fupd, modify.
  pose proof (fileclose_last own k f x) as Hlast. specialize (fun ps => Hlast ps H Hx Hr).
  pose proof H as [Ht Hfds Hpg Hu].
  set (k1 := mkKstate (k_fs k) (alter (fun y => set_fl_type FD_NONE (set_fl_ref 0 y)) f (ftable k)) (pipes k) (k_mem k) (curproc k)).
  assert (Hty : forall fs ps km p, same_types k (mkKstate fs (ftable k1) ps km p)).
  { intros. apply (same_types_alter k f x); [done|]. done. }
  assert (Hk1 : fl_type x <> FD_PIPE -> files_ok ext own k1).
  { intros Hne. constructor; [|done..]. apply Hlast. by apply (table_alter _ _ _ f x). }
  destruct (fl_type x) eqn:Ety.
  - apply HQ; [by apply Hk1|apply Hty|done|apply Hoth].
  - destruct (t_pipe _ _ _ Ht f x Hx Ety) as (p & Hp & He).
    apply (pipe_close_ok _ _ p); [done|done|]. intros km Hkm.
    apply HQ; [|apply Hty|done|apply Hoth]. constructor; [|done..].
    apply Hlast. by apply (table_close_pipe _ _ _ f x).
  - specialize (Hk1 ltac:(done)). assert (HA' : forall z, QA (set_fs z k1)) by (intros z; apply HA; [done|by apply files_fs]).
    assert (HQ' : forall z, Q tt (set_fs z k1)).
    { intros z. apply HQ; [by apply files_fs|apply Hty|done|apply Hoth]. }
    apply wp_bind, wp_quiet; [apply q_begin_op| |apply HA']. intros _ z.
    apply wp_bind, wp_quiet; [apply q_iput| |apply HA']. intros _ z'.
    apply wp_quiet; [apply q_end_op| |apply HA']. intros [] z2. apply HQ'.
Qed.

(** A new reference. *)
Lemma filedup_ok own f (Q : nat -> kstate S -> Prop) (QA : kstate S -> Prop) k :
  files_ok ext own k -> holders ext own (curproc k) f <> 0%nat ->
  (forall k', files_ok ext (f :: own) k' -> same_types k k' -> curproc k' = curproc k -> Q f k') ->
  wp (filedup f) Q QA E k.
Proof.
  intros H Hf HQ. destruct (held_file ext own k f H Hf) as (x & Hx & Hr). unfold filedup.
  apply wp_bind, (wp_fat _ _ _ x); [done|]. destruct (Z.ltb_spec (fl_ref x) 1); [lia|].
  apply wp_bind. unfold wp at 1, fupd, modify. apply HQ; [|apply (same_types_alter k f x); [done|simpl; split; [lia|done]]|done].
  destruct H as [Ht Hfds Hpg Hu]. constructor; [|done..]. cbn [ftable pipes curproc].
  eapply table_ext; [intros g; symmetry; apply holders_cons|].
  apply (table_alter _ _ _ f x); [done|done|simpl; lia|simpl; lia|done].
Qed.

(** A descriptor for the reference of the kernel. *)
Lemma fdalloc_ok own f (Q : Z -> kstate S -> Prop) (QA : kstate S -> Prop) k :
  files_ok ext (f :: own) k -> Q (-1) k ->
  (forall fd k', (fd < NOFILE)%nat -> ofile (curproc k) !! fd = Some None ->
     k' = set_cur (set_ofile (<[fd := Some f]> (ofile (curproc k))) (curproc k)) k -> files_ok ext own k' -> Q (Z.of_nat fd) k') ->
  wp (fdalloc f) Q QA E k.
Proof.
  intros H HN HS. unfold fdalloc. apply wp_bind, (wp_user_pure _ _ _ (curproc k)); [done|].
  destruct (find_index _ _) as [fd|] eqn:Ef; [|done]. apply find_index_Some in Ef as [(o & Ho & Hn) _].
  apply bool_decide_eq_true in Hn. subst o. apply wp_bind. unfold set_fd. eapply wp_user; [done|].
  apply (HS fd); [rewrite <- (fo_fds _ _ _ H); by eapply lookup_lt_Some|done|done|].
  destruct H as [Ht Hfds Hpg Hu]. constructor; [| |done|by destruct Hu].
  - cbn [ftable pipes curproc set_cur]. eapply table_ext; [|exact Ht]. intros g.
    unfold holders. cbn [ofile set_ofile]. pose proof (count_fd_insert g fd None (Some f) _ Ho) as Ec.
    rewrite count_in_cons. rewrite (decide_False (P := None = Some g)) in Ec by done.
    destruct (decide (f = g)) as [->|Hne]; [rewrite decide_True in Ec by done; lia|].
    rewrite decide_False in Ec by congruence. lia.
  - cbn [curproc set_cur ofile set_ofile]. by rewrite length_insert.
Qed.

(** A descriptor is cleared: its reference is the kernel's. *)
Lemma clear_fd_ok own fd f k :
  files_ok ext own k -> ofile (curproc k) !! fd = Some (Some f) ->
  files_ok ext (f :: own) (set_cur (set_ofile (<[fd := None]> (ofile (curproc k))) (curproc k)) k).
Proof.
  intros [Ht Hfds Hpg Hu] Ho. constructor; [| |done|by destruct Hu].
  - cbn [ftable pipes curproc set_cur]. eapply table_ext; [|exact Ht]. intros g.
    unfold holders. cbn [ofile set_ofile]. pose proof (count_fd_insert g fd (Some f) None _ Ho) as Ec.
    rewrite count_in_cons. rewrite (decide_False (P := None = Some g)) in Ec by done.
    destruct (decide (f = g)) as [->|Hne]; [rewrite decide_True in Ec by done; lia|].
    rewrite decide_False in Ec by congruence. lia.
  - cbn [curproc set_cur ofile set_ofile]. by rewrite length_insert.
Qed.

Lemma files_perm own own' k : own ≡ₚ own' -> files_ok ext own k -> files_ok ext own' k.
Proof.
  intros Hp [Ht Hfds Hpg Hu]. constructor; [|done..]. eapply table_ext; [|exact Ht].
  intros f. unfold holders, count_in. by rewrite Hp.
Qed.

Lemma typed_weaken own k f : typed own k -> typed (f :: own) k.
Proof. intros H g x Hg Hr Hn. apply (H g x Hg Hr). intros Hin. apply Hn. by right. Qed.

(** What [pipealloc] leaves: two files for the ends, or nothing. *)
Definition pipe_ends (own : list nat) (k k' : kstate S) (r w : nat) : Prop :=
  files_ok ext (w :: r :: own) k' /\ r <> w /\ curproc k' = curproc k /\
  (forall f x, f = r \/ f = w -> ftable k' !! f = Some x -> fl_type x = FD_PIPE) /\
  forall f, f <> r -> f <> w -> ftable k' !! f = ftable k !! f.

Lemma ends_typed own k k' r w o : pipe_ends own k k' r w -> typed o k -> typed o k'.
Proof.
  intros (_ & _ & _ & Hp & Ho) Ht f x Hf Hr Hn. destruct (decide (f = r \/ f = w)) as [Hd|Hd].
  - by rewrite (Hp f x Hd Hf).
  - rewrite Ho in Hf by (intros ->; apply Hd; by auto). by eapply Ht.
Qed.

Lemma same_types_after own k f k' k'' :
  holders ext own (curproc k) f = 0%nat -> files_ok ext own k'' ->
  (forall g, g <> f -> ftable k' !! g = ftable k !! g) -> curproc k'' = curproc k -> same_types k' k'' -> same_types k k''.
Proof.
  intros Hf H Ho Hc Hs g y Hg Hr. destruct (Hs g y Hg Hr) as (x & Hx & Hrx & Hty).
  destruct (decide (g = f)) as [->|Hne].
  - pose proof (t_ref _ _ _ (fo_table _ _ _ H) f y Hg) as Hry. rewrite Hc, Hf in Hry. done.
  - exists x. by rewrite <- Ho.
Qed.

Lemma pipealloc_ok own (Q : option (nat * nat) -> kstate S -> Prop) (QA : kstate S -> Prop) k :
  files_ok ext own k ->
  (forall k', files_ok ext own k' -> same_types k k' -> curproc k' = curproc k -> Q None k') ->
  (forall r w k', pipe_ends own k k' r w -> Q (Some (r, w)) k') ->
  wp (pipealloc kernel_end) Q QA E k.
Proof using laws.
  intros H HN HS. unfold pipealloc. apply wp_bind, (filealloc_ok own); [done| |].
  { apply HN; [done|apply same_types_refl|done]. }
  intros r k1 H1 Hr Ek1 (xr & Hxr & Tr).
  assert (Ho1 : forall g, g <> r -> ftable k1 !! g = ftable k !! g).
  { intros g Hg. rewrite Ek1. by apply list_lookup_alter_ne. }
  assert (Hc1 : curproc k1 = curproc k) by by rewrite Ek1.
  apply wp_bind, (filealloc_ok (r :: own)); [done| |].
  { unfold pipealloc_bad. apply wp_bind, (fileclose_ok own r xr); [done|done|by rewrite Tr|].
    intros k2 H2 Hs2 Hc2 _. apply HN; [done| |congruence].
    apply (same_types_after own k r k1 k2); (done || congruence). }
  intros w k2 H2 Hw Ek2 (xw & Hxw & Tw).
  assert (Ho2 : forall g, g <> w -> ftable k2 !! g = ftable k1 !! g).
  { intros g Hg. rewrite Ek2. by apply list_lookup_alter_ne. }
  assert (Hc2 : curproc k2 = curproc k1) by by rewrite Ek2.
  assert (Hrw : r <> w) by (intros ->; apply (held_own ext (w :: own) (curproc k1) w) in Hw; [done|left]).
  apply wp_bind. unfold wp at 1, get. pose proof H2 as [Ht Hfds (l & Hl & Hpg) Hu].
  destruct (kalloc_ok kernel_end (k_mem k2) l Hl) as (km & Ekm & Hkm & _ & Hmem).
  apply wp_bind. eapply wp_pages; [exact Ekm|]. destruct l as [|p l].
  { rewrite Z.eqb_refl. unfold pipealloc_bad. set (k3 := set_km km k2).
    assert (H3 : files_ok ext (r :: w :: own) k3).
    { apply (files_perm (w :: r :: own)); [constructor|]. constructor; [done|done|by exists []|done]. }
    apply wp_bind, (fileclose_ok (w :: own) r xr); [done|by rewrite <- Hxr, <- Ho2|by rewrite Tr|].
    intros k4 H4 Hs4 Hc4 Ho4.
    apply wp_bind, (fileclose_ok own w xw); [done|by rewrite Ho4|by rewrite Tw|].
    intros k5 H5 Hs5 Hc5 Ho5. apply HN; [done| |cbn in Hc4; congruence].
    intros g y Hg Hry. pose proof (t_ref _ _ _ (fo_table _ _ _ H5) g y Hg) as Hry'.
    assert (Ec : curproc k5 = curproc k) by (cbn in Hc4; congruence). rewrite Ec in Hry'.
    assert (Hgr : g <> r) by (intros ->; rewrite Hr in Hry'; done).
    assert (Hgw : g <> w).
    { intros ->. unfold holders in Hw. rewrite count_in_cons, decide_False in Hw by done. unfold holders in Hry'.
      rewrite <- Hc1 in Hry'. lia. }
    exists y. split; [|done]. rewrite <- Ho1, <- Ho2, <- Hg, Ho5 by done. symmetry. apply Ho4. done. }
  assert (Hpn : (p =? 0) = false) by (apply Z.eqb_neq; apply (good_page_bounds kernel_end); apply (ok_pages _ _ _ Hl); left).
  rewrite Hpn. apply (HS r w). split; [|split; [done|split; [by cbn; congruence|split]]].
  - constructor; [|done| |done]; cbn [ftable pipes curproc k_mem].
    + apply table_new_pipe; [exact Ht|apply held_own; right; left|apply held_own; left|done|].
      destruct (pipes k2 !! p) eqn:Ep; [|done]. destruct (Hpg p) as [_ Hn]; [by eexists|]. by destruct Hn; left.
    + exists l. split; [done|]. intros a Ha. destruct (decide (a = p)) as [->|Hne].
      * split; [apply (ok_pages _ _ _ Hl); left|]. pose proof (ok_nodup _ _ _ Hl) as Hnd. by apply NoDup_cons in Hnd as [? _].
      * cbn [k_mem pipes] in Ha. rewrite lookup_insert_ne in Ha by done. destruct (Hpg a Ha) as [Hga Hna]. split; [done|].
        intros Hin. apply Hna. by right.
  - intros f x Hf. cbn [ftable]. rewrite !lookup_alter_cases.
    destruct (decide (w = f)), (decide (r = f)); try (intros Ex; apply fmap_Some in Ex as (y & _ & ->); done).
    by destruct Hf as [->| ->].
  - intros f Hfr Hfw. cbn [ftable]. rewrite !list_lookup_alter_ne by congruence. cbn. by rewrite <- Ho1, <- Ho2.
Qed.

(** ** Reading and writing *)

Section data.
Context (sz : Z).

(** Between system calls: all references are descriptors, all files in use
    have a type, and the process has [sz] bytes of memory. *)
Record settled (k : kstate S) : Prop := {
  st_files : files_ok ext [] k;
  st_typed : typed [] k;
  st_sz : u_sz (curproc k) = sz
}.

Notation asleep := (files_ok ext []).
Definition safe {A} (m : K A) : Prop := forall k, settled k -> wp m (fun _ => settled) asleep E k.

Lemma settled_fs x k : settled k -> settled (set_fs x k).
Proof. intros [H1 H2 H3]. constructor; [by apply files_fs|done|done]. Qed.

Lemma settled_cur p k : settled k -> ofile p = ofile (curproc k) -> uproc_ok p -> u_sz p = sz -> settled (set_cur p k).
Proof.
  intros [[Ht Hfds Hpg Hu] H2 H3] Ho Hp Hs. constructor; [|done|done]. constructor; [|by rewrite <- Hfds, <- Ho|done|done].
  cbn [curproc set_cur ftable pipes]. eapply table_ext; [|exact Ht]. intros f. unfold holders. by rewrite Ho.
Qed.

Lemma settled_pipe q p p' k :
  settled k -> pipes k !! q = Some p -> readopen p' = readopen p -> writeopen p' = writeopen p ->
  settled (set_ps (<[q := p']> (pipes k)) k).
Proof.
  intros [[Ht Hfds (l & Hl & Hpg) Hu] H2 H3] Hq Hr Hw. constructor; [|done|done]. constructor; [|done| |done].
  - by apply (table_pipe _ _ _ q p).
  - exists l. split; [done|]. intros a. cbn [pipes set_ps k_mem]. destruct (decide (a = q)) as [->|Hne].
    + intros _. apply Hpg. by eexists.
    + rewrite lookup_insert_ne by done. apply Hpg.
Qed.

Lemma settled_off f g k : settled k -> settled (set_ft (alter (fun y => set_fl_off (g y) y) f (ftable k)) k).
Proof.
  intros [[Ht Hfds Hpg Hu] H2 H3]. destruct (ftable k !! f) as [x|] eqn:Hx.
  - constructor; [constructor; [|done..]| |done].
    + cbn [ftable set_ft pipes curproc]. eapply table_ext; [|apply (table_alter _ _ _ f x _ (holders ext [] (curproc k) f) Ht Hx)].
      * intros h. unfold upd. by case_decide; subst.
      * exact (t_ref _ _ _ Ht f x Hx).
      * exact (t_free _ _ _ Ht f x Hx).
      * done.
    + apply (typed_same [] k); [|done]. by apply (same_types_alter k f x).
  - replace (alter _ f (ftable k)) with (ftable k); [destruct k; by constructor|].
    apply list_eq. intros i. rewrite lookup_alter_cases. case_decide; subst; [by rewrite Hx|done].
Qed.

Lemma safe_bind {A B} (m : K A) (g : A -> K B) : safe m -> (forall a, safe (g a)) -> safe (m ≫= g).
Proof. intros Hm Hg k Hk. apply wp_bind. eapply wp_mono; [by apply Hm|]. intros a k'. apply Hg. Qed.

Lemma safe_ret {A} (a : A) : safe (mret a).
Proof. by intros k Hk. Qed.

Lemma safe_inodes {A} (m : M S A) : quiet E m -> safe (inodes m).
Proof. intros Hm k Hk. apply wp_quiet; [done| |]; intros; [|apply st_files]; by apply settled_fs. Qed.

Lemma safe_store a bytes k : settled k -> 0 <= a -> a + Z.of_nat (length bytes) <= sz ->
  wp (user (store a bytes)) (fun _ => settled) asleep E k.
Proof.
  intros Hk Ha Hb. pose proof Hk as [[Ht Hfds Hpg Hu] H2 H3]. pose proof Hu as [Hu1 Hu2 Hu3].
  eapply wp_user.
  - unfold store, mapped. rewrite (proj2 (Z.leb_le 0 a) Ha), (proj2 (Z.leb_le _ _)) by lia. done.
  - apply settled_cur; [done|done| |done]. constructor; cbn [u_mem u_sz set_umem u_esp]; [|done|done].
    rewrite splice_length by lia. done.
Qed.

Lemma read_bytes_keeps n p :
  readopen (read_bytes n p).2 = readopen p /\ writeopen (read_bytes n p).2 = writeopen p /\
  (length (read_bytes n p).1 <= n)%nat.
Proof.
  revert p. induction n as [|n IH]; intros p; cbn [read_bytes]; [done|]. destruct (pipe_empty p); [simpl; lia|].
  destruct (get_byte p) as [b p1] eqn:Eg. specialize (IH p1). destruct (read_bytes n p1) as [bs p2].
  unfold get_byte in Eg. injection Eg as _ <-. simpl in *. destruct IH as (-> & -> & ?). split; [done|]. split; [done|lia].
Qed.

Lemma write_bytes_keeps bytes p :
  readopen (write_bytes bytes p).1 = readopen p /\ writeopen (write_bytes bytes p).1 = writeopen p.
Proof.
  revert p. induction bytes as [|b bytes IH]; intros p; cbn [write_bytes]; [done|].
  destruct (pipe_full p); [done|]. by destruct (IH (put_byte b p)) as [-> ->].
Qed.

Lemma wp_settled {A} (m : M S A) (R : A -> Prop) (Q : A -> kstate S -> Prop) k :
  settled k -> wp m (fun a _ => R a) (fun _ => True) E (k_fs k) ->
  (forall a k', R a -> settled k' -> ftable k' = ftable k -> curproc k' = curproc k -> Q a k') ->
  wp (inodes m) Q asleep E k.
Proof.
  intros Hk Hm HQ. apply (wp_inodes _ _ m R); [done| |].
  - intros a x Ha. apply HQ; [done|by apply settled_fs|done|done].
  - intros x. by apply st_files, settled_fs.
Qed.

Lemma pipe_read_safe q p a n k :
  settled k -> pipes k !! q = Some p -> 0 <= n -> 0 <= a -> a + n <= sz ->
  wp (pipe_read q a n) (fun _ => settled) asleep E k.
Proof.
  intros Hk Hq Hn Ha Hb. unfold pipe_read. apply wp_bind, (wp_pat _ _ _ p); [done|].
  apply wp_bind. eapply wp_user_pure; [done|]. cbv zeta. apply wp_bind. unfold wp at 1, set_pipes, modify.
  destruct (read_bytes_keeps (Z.to_nat n) p) as (Hr & Hw & Hlen).
  set (e := piperead n (u_killed (curproc k)) p).
  assert (He : readopen (after e) = readopen p /\ writeopen (after e) = writeopen p /\
    forall r bytes, out e = Returns r bytes -> (length bytes <= Z.to_nat n)%nat).
  { unfold e, piperead. destruct (pipe_empty p && _); [destruct (u_killed _); split; try done; split; try done; intros ? ? [= _ <-]; simpl; lia|].
    destruct (read_bytes _ _) as [bs p']. cbn in *. split; [done|]. split; [done|]. by intros ? ? [= _ <-]. }
  destruct He as (He1 & He2 & He3). pose proof (settled_pipe q p (after e) k Hk Hq He1 He2) as Hk'.
  destruct (out e) as [r bytes| |rest]; [|by apply st_files..].
  apply wp_bind. eapply (wp_mono _ (fun _ => settled)); [apply safe_store; [exact Hk'|done|specialize (He3 r bytes eq_refl); lia]|]. done.
Qed.

Lemma pipe_write_safe q p a n k :
  settled k -> pipes k !! q = Some p -> 0 <= n -> 0 <= a -> a + n <= sz ->
  wp (pipe_write q a n) (fun _ => settled) asleep E k.
Proof.
  intros Hk Hq Hn Ha Hb. unfold pipe_write. apply wp_bind, (wp_pat _ _ _ p); [done|].
  apply wp_bind. eapply wp_user_pure; [done|].
  apply wp_bind. eapply wp_user_pure; [apply load_ok; [exact (fo_user _ _ _ (st_files _ Hk))|done|by rewrite (st_sz k Hk)]|].
  cbv zeta. apply wp_bind. unfold wp at 1, set_pipes, modify.
  match goal with |- context [pipewrite n ?b ?kk p] => set (bytes := b); set (kl := kk) end.
  destruct (write_bytes_keeps bytes p) as (Hr & Hw).
  assert (Hk' : settled (set_ps (<[q := after (pipewrite n bytes kl p)]> (pipes k)) k)).
  { apply (settled_pipe q p); [done|done|by rewrite pipewrite_after..]. }
  destruct (out _); [done|by apply st_files..].
Qed.

(** The file of a descriptor. *)
Lemma fd_file k fd f : settled k -> ofile (curproc k) !! fd = Some (Some f) ->
  exists x, ftable k !! f = Some x /\ fl_type x <> FD_NONE /\
    (fl_type x = FD_PIPE -> exists p, pipes k !! fl_pipe x = Some p).
Proof.
  intros [H1 H2 _] Ho. pose proof (held_fd ext [] _ fd f Ho) as Hh.
  destruct (held_file ext [] k f H1 Hh) as (x & Hx & Hr). exists x. split; [done|]. split.
  - apply (H2 f x Hx); [lia|by apply not_elem_of_nil].
  - intros Ht. destruct (t_pipe _ _ _ (fo_table _ _ _ H1) f x Hx Ht) as (p & Hp & _). by exists p.
Qed.

Lemma filestat_safe fd f a k :
  settled k -> ofile (curproc k) !! fd = Some (Some f) -> 0 <= a -> a + 20 <= sz ->
  wp (filestat f a) (fun _ => settled) asleep E k.
Proof using laws.
  intros Hk Ho Ha Hb. destruct (fd_file k fd f Hk Ho) as (x & Hx & Hn & _). unfold filestat.
  apply wp_bind, (wp_fat _ _ _ x); [done|]. destruct (fl_type x); [done|done|].
  apply wp_bind, (wp_settled _ (fun _ => True)); [done|apply q_ilock|]. intros _ k1 _ Hk1 _ _.
  apply wp_bind, (wp_settled _ (fun _ => True)); [done|apply q_stati|]. intros t k2 _ Hk2 _ _.
  apply wp_bind. eapply (wp_mono _ (fun _ => settled)); [|intros _ k3 Hk3; apply wp_bind, (wp_settled _ (fun _ => True)); [exact Hk3|apply q_iunlock|done]].
  unfold put_stat.
  do 4 (apply wp_bind; eapply (wp_mono _ (fun _ => settled)); [apply safe_store; [done|lia|rewrite le_bytes_length; lia]|];
    clear k2 Hk2; intros _ k2 Hk2).
  apply safe_store; [done|lia|rewrite le_bytes_length; lia].
Qed.

Lemma fileread_safe fd f a n k :
  settled k -> ofile (curproc k) !! fd = Some (Some f) -> 0 <= n < 2 ^ 31 -> 0 <= a -> a + n <= sz ->
  wp (fileread f a n) (fun _ => settled) asleep E k.
Proof using laws.
  intros Hk Ho Hn Ha Hb. destruct (fd_file k fd f Hk Ho) as (x & Hx & Hne & Hp). unfold fileread.
  apply wp_bind, (wp_fat _ _ _ x); [done|]. destruct (fl_readable x =? 0); [done|].
  destruct (fl_type x); [done|destruct (Hp eq_refl) as (p & Hq); apply (pipe_read_safe _ p); (done || lia)|].
  apply wp_bind, (wp_settled _ (fun _ => True)); [done|apply q_ilock|]. intros _ k1 _ Hk1 _ _. rewrite (u32_id n) by lia.
  apply wp_bind, (wp_settled _ (fun r => Z.of_nat (length r.2) <= n)); [done|apply q_readi; [apply u32_range|lia]|]. intros r k2 Hr Hk2 _ _.
  apply wp_bind. eapply (wp_mono _ (fun _ => settled)); [apply safe_store; [done|lia|lia]|]. intros _ k3 Hk3.
  apply wp_bind. eapply (wp_mono _ (fun _ => settled)); [|intros _ k4 Hk4; apply wp_bind, (wp_settled _ (fun _ => True)); [exact Hk4|apply q_iunlock|done]].
  destruct (0 <? r.1); [|done]. exact (settled_off f _ k3 Hk3).
Qed.

Lemma filewrite_op_safe f ip a n1 k :
  settled k -> (f < NFILE)%nat -> 0 <= n1 < 2 ^ 31 -> 0 <= a -> a + n1 <= sz ->
  wp (filewrite_op f ip a n1) (fun r k' => settled k' /\ (r < 0 \/ r = n1)) asleep E k.
Proof using laws.
  intros Hk Hf Hn Ha Hb. unfold filewrite_op.
  apply wp_bind, (wp_settled _ (fun _ => True)); [done|apply q_begin_op|]. intros _ k1 _ Hk1 _ _.
  apply wp_bind, (wp_settled _ (fun _ => True)); [done|apply q_ilock|]. intros _ k2 _ Hk2 _ _.
  apply wp_bind. eapply wp_user_pure; [apply load_ok; [exact (fo_user _ _ _ (st_files _ Hk2))|done|by rewrite (st_sz k2 Hk2)]|].
  destruct (lookup_lt_is_Some_2 (ftable k2) f) as [x Hx].
  { by rewrite (t_len _ _ _ (fo_table _ _ _ (st_files _ Hk2))). }
  apply wp_bind, (wp_fat _ _ _ x); [done|]. rewrite (u32_id n1) by lia.
  apply wp_bind, (wp_settled _ (fun r => r < 0 \/ r = n1)); [done|apply q_writei; [|lia]|].
  { rewrite length_take, length_drop. destruct (fo_user _ _ _ (st_files _ Hk2)) as [Hlen _ _]. rewrite (st_sz k2 Hk2) in Hlen. lia. }
  intros r k3 Hr Hk3 _ _.
  apply wp_bind. eapply (wp_mono _ (fun _ => settled)).
  { destruct (0 <? r); [|done]. exact (settled_off f _ k3 Hk3). }
  intros _ k4 Hk4. apply wp_bind, (wp_settled _ (fun _ => True)); [done|apply q_iunlock|]. intros _ k5 _ Hk5 _ _.
  apply wp_bind, (wp_settled _ (fun _ => True)); [done|apply q_end_op|]. done.
Qed.

Lemma filewrite_loop_safe f ip a n fuel : forall i k,
  settled k -> (f < NFILE)%nat -> 0 <= i <= n -> n < 2 ^ 31 -> 0 <= a -> a + n <= sz -> n - i <= Z.of_nat fuel ->
  wp (filewrite_loop f ip a i n fuel) (fun _ => settled) asleep E k.
Proof using laws.
  induction fuel as [|fuel IH]; intros i k Hk Hf Hi Hn Ha Hb Hfuel; cbn [filewrite_loop].
  all: destruct (Z.ltb_spec i n); [|done].
  { lia. }
  assert (Hmax : write_max = 6656) by reflexivity.
  apply wp_bind. eapply wp_mono; [apply filewrite_op_safe; [done|done|lia|lia|lia]|].
  intros r k' [Hk' Hr]. cbv zeta. destruct (Z.ltb_spec r 0); [done|]. destruct Hr as [Hr|Hr]; [lia|].
  rewrite <- Hr, Z.eqb_refl. apply IH; try done; lia.
Qed.

Lemma filewrite_safe fd f a n k :
  settled k -> ofile (curproc k) !! fd = Some (Some f) -> 0 <= n < 2 ^ 31 -> 0 <= a -> a + n <= sz ->
  wp (filewrite f a n) (fun _ => settled) asleep E k.
Proof using laws.
  intros Hk Ho Hn Ha Hb. destruct (fd_file k fd f Hk Ho) as (x & Hx & Hne & Hp). unfold filewrite.
  apply wp_bind, (wp_fat _ _ _ x); [done|]. destruct (fl_writable x =? 0); [done|].
  destruct (fl_type x); [done|destruct (Hp eq_refl) as (p & Hq); apply (pipe_write_safe _ p); (done || lia)|].
  apply wp_bind. eapply wp_mono; [apply filewrite_loop_safe; try done; try lia|done].
  rewrite <- (t_len _ _ _ (fo_table _ _ _ (st_files _ Hk))). by eapply lookup_lt_Some.
Qed.
End data.
End ops.
End Inv.
