(* ===== verification/FileCalls.v ===== *)
(** * File system calls are safe

    Every system call of [sysfile.c] keeps the invariant of the file table, on
    every path, and reaches none of the panics of [file.c]; the laws of
    [FsLaws] for [fs.c] over any block layer. *)
From stdpp Require Import gmap.
From S2P Require Import Prelude Bytes Cstring Kalloc Pipe Log Blocks Fs Args File FileInv.
Local Open Scope Z_scope.

(** The calls of [sysfile.c], without [exec]. *)
Definition file_calls : list sysno :=
  [SYS_pipe; SYS_read; SYS_fstat; SYS_chdir; SYS_dup; SYS_open; SYS_write; SYS_mknod; SYS_unlink; SYS_link; SYS_mkdir; SYS_close].

#[export] Instance sysno_eq_dec : EqDecision sysno.
Proof. solve_decision. Defined.

Section Calls.
Context {S : Type} {ops : FsOps S} (kernel_end : Z) (E : string -> Prop) {laws : FsLaws E} (ext : nat -> nat) (sz : Z).
Notation K := (M (kstate S)).
Notation settled := (settled (S := S) kernel_end ext sz).
Notation asleep := (files_ok (S := S) kernel_end ext []).
Notation safe := (safe (S := S) kernel_end E ext sz).

(** ** Arguments *)

Lemma settled_user k : settled k -> uproc_ok (curproc k).
Proof. intros H. exact (fo_user _ _ _ _ (st_files _ _ _ _ H)). Qed.

Lemma wp_argint n (Q : option Z -> kstate S -> Prop) QA k :
  settled k -> Q None k -> (forall v, is_s32 v -> Q (Some v) k) -> wp (user (argint n)) Q QA E k.
Proof.
  intros Hk HN HS. destruct (argint_ok (curproc k) (settled_user k Hk) n) as (r & Er & Hr).
  eapply wp_user_pure; [exact Er|]. destruct r as [v|]; [|done]. by apply HS, Hr.
Qed.

Lemma wp_argptr n size (Q : option Z -> kstate S -> Prop) QA k :
  settled k -> is_s32 size -> Q None k -> (forall a, 0 <= size -> 0 <= a -> a + size <= sz -> Q (Some a) k) ->
  wp (user (argptr n size)) Q QA E k.
Proof.
  intros Hk Hs HN HS. destruct (argptr_ok (curproc k) (settled_user k Hk) n size Hs) as (r & Er & Hr).
  eapply wp_user_pure; [exact Er|]. destruct r as [v|]; [|done]. destruct (Hr v eq_refl) as (? & ? & Hle).
  rewrite (st_sz _ _ _ _ Hk) in Hle. apply HS; lia.
Qed.

Lemma wp_argstr n (Q : option (list Z) -> kstate S -> Prop) QA k :
  settled k -> (forall r, Q r k) -> wp (user (argstr n)) Q QA E k.
Proof.
  intros Hk HQ. destruct (argstr_ok (curproc k) (settled_user k Hk) n) as (r & Er & _).
  eapply wp_user_pure; [exact Er|]. apply HQ.
Qed.

Lemma wp_argfd n (Q : option (Z * nat) -> kstate S -> Prop) QA k :
  settled k -> Q None k ->
  (forall fd f, 0 <= fd -> ofile (curproc k) !! Z.to_nat fd = Some (Some f) -> Q (Some (fd, f)) k) ->
  wp (argfd n) Q QA E k.
Proof.
  intros Hk HN HS. unfold argfd. apply wp_bind, wp_argint; [done|done|]. intros fd _.
  apply wp_bind. eapply wp_user_pure; [done|].
  destruct (Z.ltb_spec fd 0); [done|]. destruct (_ <=? fd); [done|]. cbn [orb].
  destruct (ofile (curproc k) !! Z.to_nat fd) as [[f|]|] eqn:Ef; [|done|done]. by apply HS.
Qed.

Lemma wp_orfail {A} (m : K (option A)) (g : A -> K Z) (Q : Z -> kstate S -> Prop) QA k :
  wp m (fun r k' => match r with Some a => wp (g a) Q QA E k' | None => Q (-1) k' end) QA E k -> wp (orfail m g) Q QA E k.
Proof. intros H. unfold orfail. apply wp_bind. eapply wp_mono; [exact H|]. by intros [a|] k'. Qed.

Lemma safe_arg n : safe (user (argint n)).
Proof. intros k Hk. by apply wp_argint. Qed.
Lemma safe_argstr n : safe (user (argstr n)).
Proof. intros k Hk. by apply wp_argstr. Qed.
Lemma safe_orfail {A} (m : K (option A)) g : safe m -> (forall a, safe (g a)) -> safe (orfail m g).
Proof. intros Hm Hg. apply safe_bind; [done|]. intros [a|]; [apply Hg|]. apply safe_ret. Qed.
Lemma safe_panic {A} msg : E msg -> safe (panic (A := A) msg).
Proof. by intros HE k Hk. Qed.
Lemma safe_when b m : safe m -> safe (when b m).
Proof. intros Hm. destruct b; [done|]. apply safe_ret. Qed.
Lemma safe_cwd : safe (user (gets cwd)).
Proof. intros k Hk. by eapply wp_user_pure. Qed.

(** Routines that only use inodes keep the file table. *)
Ltac safe_step :=
  match goal with
  | |- safe (_ ≫= _) => apply safe_bind; [|intros ?]
  | |- safe (orfail _ _) => apply safe_orfail; [|intros ?]
  | |- safe (mret _) => apply safe_ret
  | |- safe (when _ _) => apply safe_when
  | |- safe (panic _) => apply safe_panic, q_file; set_solver
  | |- safe (user (argstr _)) => apply safe_argstr
  | |- safe (user (argint _)) => apply safe_arg
  | |- safe (user (gets cwd)) => apply safe_cwd
  | |- safe (match ?x with _ => _ end) => destruct x
  end.
Ltac safe_inode :=
  apply safe_inodes;
  first [apply q_begin_op|apply q_end_op|apply q_ilock|apply q_iunlock|apply q_iput|apply q_iunlockput|apply q_iat
        |apply q_iupd|apply q_iupdate|apply q_stati|apply q_ialloc|apply q_dirlookup|apply q_dirlink|apply q_namei|apply q_nameiparent].
Ltac safe_go := repeat first [safe_step|safe_inode].

Lemma readi_quiet ip off n : 0 <= off -> 0 <= n -> quiet E (x_readi ip off n).
Proof using laws. intros Ho Hn s. eapply wp_mono; [by apply q_readi|done]. Qed.
Lemma writei_quiet ip src off n : (Z.to_nat n <= length src)%nat -> 0 <= n < 2 ^ 31 -> quiet E (x_writei ip src off n).
Proof using laws. intros Hs Hn s. eapply wp_mono; [by apply q_writei|done]. Qed.

Lemma isdirempty_loop_safe dp fuel : forall off, 0 <= off -> safe (isdirempty_loop dp off fuel).
Proof using laws.
  induction fuel as [|fuel IH]; intros off Ho; cbn [isdirempty_loop]; unfold iat, readi; safe_go.
  - by apply safe_inodes, readi_quiet.
  - apply IH. unfold DIRENT. lia.
Qed.

Lemma sys_link_safe : safe sys_link.
Proof using laws.
  unfold sys_link, sys_link_bad, end_fail, begin_op, end_op, namei, nameiparent, ilock, iunlock, iput, iunlockput, iat, iupd, iupdate, dirlink.
  safe_go.
Qed.

Lemma sys_unlink_safe : safe sys_unlink.
Proof using laws.
  unfold sys_unlink, sys_unlink_bad, sys_unlink_entry, isdirempty, end_fail, begin_op, end_op, nameiparent, ilock, iunlockput, iat, iupd, iupdate, writei, dirlookup.
  safe_go; [apply isdirempty_loop_safe|apply safe_inodes, writei_quiet..]; done.
Qed.

Lemma create_safe path t ma mi : safe (create path t ma mi).
Proof using laws.
  unfold create, create_new, nameiparent, ilock, iunlockput, iat, iupd, iupdate, dirlookup, dirlink. safe_go.
Qed.

(** ** Descriptors *)

Lemma settled_intro k k' :
  settled k -> files_ok kernel_end ext [] k' -> same_types k k' -> u_sz (curproc k') = u_sz (curproc k) -> settled k'.
Proof.
  intros [H1 H2 H3] Hf Hs Hz. constructor; [done|by eapply typed_same|]. by rewrite Hz.
Qed.

Lemma sys_dup_safe : safe sys_dup.
Proof using laws.
  intros k Hk. unfold sys_dup. apply wp_orfail, wp_argfd; [done|done|]. intros fd f Hfd Hf. cbn [snd].
  pose proof Hk as [[Ht Hfds Hpg Hu] Hty Hsz]. apply wp_bind. unfold fdalloc.
  apply wp_bind. eapply wp_user_pure; [done|]. destruct (find_index _ _) as [nfd|] eqn:En; [|done].
  apply find_index_Some in En as [(o & Ho & Hn) _]. apply bool_decide_eq_true in Hn. subst o.
  apply wp_bind. unfold set_fd. eapply wp_user; [done|]. apply wp_ret.
  rewrite (proj2 (Z.ltb_ge _ _)) by lia.
  set (p := set_ofile _ _). destruct (lookup_lt_is_Some_2 (ftable k) f) as [x Hx].
  { rewrite (t_len _ _ _ Ht). apply (t_held _ _ _ Ht). by eapply held_fd. }
  assert (Hr : fl_ref x = Z.of_nat (holders ext [] (curproc k) f)) by exact (t_ref _ _ _ Ht f x Hx).
  pose proof (held_fd ext [] (curproc k) _ f Hf) as Hheld.
  unfold filedup. apply wp_bind, wp_bind. apply (wp_fat _ _ _ x); [done|]. destruct (Z.ltb_spec (fl_ref x) 1); [lia|].
  apply wp_bind. unfold wp at 1, fupd, modify. apply wp_ret, wp_ret.
  assert (Hh : forall g, holders ext [] p g = upd (holders ext [] (curproc k)) f (Datatypes.S (holders ext [] (curproc k) f)) g).
  { intros g. unfold holders, upd, p. cbn [ofile set_ofile]. pose proof (count_fd_insert g nfd None (Some f) _ Ho) as Ec.
    rewrite (decide_False (P := None = Some g)) in Ec by done. destruct (decide (g = f)) as [->|Hne].
    - rewrite decide_True in Ec by done. lia.
    - rewrite decide_False in Ec by congruence. lia. }
  apply (settled_intro k); [done| |apply (same_types_alter k f x); [done|simpl; split; [lia|done]]|done].
  constructor; [|cbn; by rewrite length_insert|done|by destruct Hu].
  cbn [ftable pipes curproc set_cur]. eapply table_ext; [intros g; symmetry; apply Hh|].
  apply (table_alter _ _ _ f x); [done|done|simpl; lia|simpl; lia|done].
Qed.

Lemma sys_read_safe : safe sys_read.
Proof using laws.
  intros k Hk. unfold sys_read. apply wp_orfail, wp_argfd; [done|done|]. intros fd f Hfd Hf.
  apply wp_orfail, wp_argint; [done|done|]. intros n Hn. apply wp_orfail, wp_argptr; [done|done|done|].
  intros a Hn0 Ha Hb. unfold is_s32 in Hn. by apply (fileread_safe kernel_end E ext sz (Z.to_nat fd)); [| |lia| |].
Qed.

Lemma sys_write_safe : safe sys_write.
Proof using laws.
  intros k Hk. unfold sys_write. apply wp_orfail, wp_argfd; [done|done|]. intros fd f Hfd Hf.
  apply wp_orfail, wp_argint; [done|done|]. intros n Hn. apply wp_orfail, wp_argptr; [done|done|done|].
  intros a Hn0 Ha Hb. unfold is_s32 in Hn. by apply (filewrite_safe kernel_end E ext sz (Z.to_nat fd)); [| |lia| |].
Qed.

Lemma sys_fstat_safe : safe sys_fstat.
Proof using laws.
  intros k Hk. unfold sys_fstat. apply wp_orfail, wp_argfd; [done|done|]. intros fd f Hfd Hf.
  apply wp_orfail, wp_argptr; [done|unfold is_s32; lia|done|].
  intros a _ Ha Hb. by apply (filestat_safe kernel_end E ext sz (Z.to_nat fd)).
Qed.

Lemma sys_close_safe : safe (sys_close kernel_end).
Proof using laws.
  intros k Hk. unfold sys_close. apply wp_orfail, wp_argfd; [done|done|]. intros fd f Hfd Hf. cbn [fst snd].
  destruct (fd_file kernel_end ext sz k _ f Hk Hf) as (x & Hx & _).
  apply wp_bind. unfold set_fd. eapply wp_user; [done|].
  apply wp_bind, (fileclose_ok kernel_end E ext [] f x).
  - apply (clear_fd_ok kernel_end ext [] (Z.to_nat fd) f); [exact (st_files _ _ _ _ Hk)|done].
  - done.
  - by intros _ k' Hk'.
  - intros k' H1 H2 H3 _. apply wp_ret. apply (settled_intro k); [done|done|done|by rewrite H3].
Qed.

Lemma open_inode_safe path omode : safe (open_inode path omode).
Proof using laws.
  unfold open_inode, namei, ilock, iunlockput, iat. safe_go. apply create_safe.
Qed.

Lemma end_fail_safe : safe end_fail.
Proof using laws. unfold end_fail, end_op. safe_go. Qed.

(** The allocated file gets its type last. *)
Lemma open_file_safe f ip r w k :
  (f < NFILE)%nat -> files_ok kernel_end ext [] k -> holders ext [] (curproc k) f <> 0%nat -> typed [f] k -> u_sz (curproc k) = sz ->
  settled (set_ft (alter (fun x => mkFile FD_INODE (fl_ref x) r w (fl_pipe x) ip 0) f (ftable k)) k).
Proof.
  intros Hf [Ht Hfds Hpg Hu] Hh Hty Hsz. destruct (lookup_lt_is_Some_2 (ftable k) f) as [x Hx]; [by rewrite (t_len _ _ _ Ht)|].
  pose proof (t_ref _ _ _ Ht f x Hx) as Hr. constructor; [|cbn [ftable set_ft]|done].
  - constructor; [|done..]. cbn [ftable pipes curproc set_ft].
    eapply table_ext; [|apply (table_alter _ _ _ f x _ (holders ext [] (curproc k) f) Ht Hx)]; simpl; [|done|lia|done].
    intros g. unfold upd. by case_decide; subst.
  - intros g y. cbn [ftable set_ft]. rewrite lookup_alter_cases. case_decide as Eg; [subst g; rewrite Hx; by intros [= <-]|].
    intros Hg Hry _. apply (Hty g y Hg Hry). rewrite list_elem_of_singleton. congruence.
Qed.

(** [sys_open] once the inode is open. *)
Lemma sys_open_safe : safe (sys_open kernel_end).
Proof using laws.
  unfold sys_open. apply safe_orfail; [apply safe_argstr|]. intros path. apply safe_orfail; [apply safe_arg|].
  intros omode. apply safe_bind; [unfold begin_op; safe_go|]. intros _. apply safe_bind; [apply open_inode_safe|].
  intros [ip|]; [|apply end_fail_safe]. intros k Hk. pose proof Hk as [Hf Hty Hsz].
  apply wp_bind, (filealloc_ok kernel_end E ext []); [done| |].
  { apply (safe_bind kernel_end E ext sz (iunlockput ip) (fun _ => end_fail)); [unfold iunlockput; safe_go|intros; apply end_fail_safe|done]. }
  intros f k1 H1 Hh Ek1 (x & Hx & Tx).
  assert (Ho : forall g, g <> f -> ftable k1 !! g = ftable k !! g).
  { intros g Hg. rewrite Ek1. by apply list_lookup_alter_ne. }
  assert (Hc1 : curproc k1 = curproc k) by by rewrite Ek1.
  assert (Hf1 : (f < NFILE)%nat).
  { apply (t_held _ _ _ (fo_table _ _ _ _ H1)). apply held_own. left. }
  assert (Ht1 : typed [f] k1).
  { intros g y Hg Hr Hn. assert (g <> f) by (intros ->; apply Hn; left). rewrite Ho in Hg by done.
    apply (Hty g y Hg Hr). apply not_elem_of_nil. }
  apply wp_bind, (fdalloc_ok kernel_end E ext [] f); [done| |].
  { rewrite (proj2 (Z.ltb_lt (-1) 0)) by lia. apply wp_bind, (fileclose_ok kernel_end E ext [] f x); [done|done|by rewrite Tx|].
    intros k2 H2 Hs2 Hc2 _.
    apply (safe_bind kernel_end E ext sz (iunlockput ip) (fun _ => end_fail)); [unfold iunlockput; safe_go|intros; apply end_fail_safe|].
    apply (settled_intro k); [done|done| |by rewrite Hc2, Hc1].
    apply (same_types_after kernel_end ext [] k f k1 k2); (done || congruence). }
  intros fd k2 Hfd Hnone Ek2 H2. rewrite (proj2 (Z.ltb_ge _ _)) by lia.
  assert (Hft : ftable k2 = ftable k1 /\ u_sz (curproc k2) = sz) by (rewrite Ek2; cbn; by rewrite Hc1).
  destruct Hft as [Hft Hsz2].
  assert (Hheld : holders ext [] (curproc k2) f <> 0%nat).
  { apply (held_fd ext [] _ fd). rewrite Ek2. cbn. apply list_lookup_insert_eq. by eapply lookup_lt_Some. }
  assert (Ht2 : typed [f] k2) by (intros g y; rewrite Hft; apply Ht1).
  apply wp_bind, wp_quiet; [apply q_iunlock| |intros z; by apply files_fs]. intros _ z1.
  apply wp_bind, wp_quiet; [apply q_end_op| |intros z; by apply files_fs, files_fs]. intros _ z2.
  apply wp_bind. unfold wp at 1, fupd, modify. apply wp_ret.
  apply (open_file_safe f ip _ _ (set_fs z2 (set_fs z1 k2))); [done|by apply files_fs, files_fs|done|done|done].
Qed.

Lemma finish_create_safe r : safe (finish_create r).
Proof using laws. destruct r; [unfold finish_create, iunlockput, end_op; safe_go|apply end_fail_safe]. Qed.

Lemma sys_mkdir_safe : safe sys_mkdir.
Proof using laws.
  unfold sys_mkdir, begin_op. safe_go; [apply create_safe|apply finish_create_safe|apply end_fail_safe].
Qed.

Lemma sys_mknod_safe : safe sys_mknod.
Proof using laws.
  unfold sys_mknod, begin_op. safe_go; first [apply create_safe|apply finish_create_safe|apply end_fail_safe].
Qed.

Lemma sys_chdir_safe : safe sys_chdir.
Proof using laws.
  unfold sys_chdir, begin_op, end_op, namei, ilock, iunlock, iput, iunlockput, iat. safe_go; try apply end_fail_safe.
  intros k Hk. eapply wp_user; [done|]. pose proof (settled_user k Hk) as [H1 H2 H3].
  apply settled_cur; [done|done| |exact (st_sz _ _ _ _ Hk)]. by constructor.
Qed.

Lemma fetchstr_ok p addr : uproc_ok p -> is_u32 addr -> exists r, fetchstr addr p = Ret r p.
Proof.
  intros Hp Ha. unfold fetchstr, mbind, M_bind, get. unfold is_u32 in Ha.
  destruct (Z.leb_spec (u_sz p) addr) as [H2|H2]; [by exists None|].
  destruct (fetchstr_loop_ok p Hp (Z.to_nat (u_sz p - addr)) addr) as (r & -> & _); [lia|lia|]. by exists r.
Qed.

Lemma exec_args_ok uargv fuel : forall i p, uproc_ok p -> exists r, exec_args uargv i fuel p = Ret r p.
Proof.
  induction fuel as [|fuel IH]; intros i p Hp; cbn [exec_args]; [by exists None|].
  destruct (fetchint_ok p Hp (u32 (uargv + 4 * Z.of_nat i)) (u32_range _)) as ([a|] & Ea & _);
    rewrite (bind_Ret _ _ _ _ _ Ea); [|by exists None].
  destruct (a =? 0); [by exists (Some [])|].
  destruct (fetchstr_ok p (u32 a) Hp (u32_range _)) as ([str|] & Es); rewrite (bind_Ret _ _ _ _ _ Es); [|by exists None].
  destruct (IH (Datatypes.S i) p Hp) as (r & Er). rewrite (bind_Ret _ _ _ _ _ Er). by eexists.
Qed.

Lemma sys_exec_safe exec : (forall path argv, safe (exec path argv)) -> safe (sys_exec exec).
Proof using laws.
  intros Hexec. unfold sys_exec. apply safe_orfail; [apply safe_argstr|]. intros path.
  apply safe_orfail; [apply safe_arg|]. intros uargv. apply safe_orfail; [|intros argv; apply Hexec].
  intros k Hk. destruct (exec_args_ok (u32 uargv) MAXARG 0 (curproc k) (settled_user k Hk)) as (r & Er).
  by apply (wp_user_pure _ _ _ r).
Qed.

(** Both ends are closed again: they are pipes, so this does not sleep. *)
Lemma close_ends_ok r w k :
  files_ok kernel_end ext [r; w] k -> r <> w ->
  (forall f x, f = r \/ f = w -> ftable k !! f = Some x -> fl_type x = FD_PIPE) ->
  forall Q : Z -> kstate S -> Prop,
  (forall k', files_ok kernel_end ext [] k' -> (forall own, typed own k -> typed own k') -> curproc k' = curproc k -> Q (-1) k') ->
  wp (fileclose kernel_end r;; fileclose kernel_end w;; mret (-1)) Q asleep E k.
Proof using laws.
  intros H Hrw Hty Q HQ.
  destruct (held_file kernel_end ext [r; w] k r H) as (xr & Hxr & _); [apply held_own; left|].
  destruct (held_file kernel_end ext [r; w] k w H) as (xw & Hxw & _); [apply held_own; right; left|].
  apply wp_bind, (fileclose_ok kernel_end E ext [w] r xr); [done|done|by rewrite (Hty r xr (or_introl eq_refl) Hxr)|].
  intros k1 H1 Hs1 Hc1 Ho1.
  apply wp_bind, (fileclose_ok kernel_end E ext [] w xw); [done|by rewrite Ho1|by rewrite (Hty w xw (or_intror eq_refl) Hxw)|].
  intros k2 H2 Hs2 Hc2 _. apply wp_ret, HQ; [done| |congruence].
  intros own Ht. eapply typed_same; [done|]. by eapply typed_same.
Qed.

Lemma sys_pipe_safe : safe (sys_pipe kernel_end).
Proof using laws.
  intros k Hk. unfold sys_pipe. apply wp_orfail, wp_argptr; [done|unfold is_s32; lia|done|]. intros a _ Ha Hb.
  pose proof Hk as [Hf Hty Hsz]. apply wp_orfail, (pipealloc_ok kernel_end E ext []); [done| |].
  { intros k' H1 H2 H3. apply (settled_intro k); [done|done|done|by rewrite H3]. }
  intros r w k1 Hends. pose proof Hends as (H1 & Hrw & Hc1 & Hp1 & _). cbn [fst snd].
  pose proof (ends_typed kernel_end ext [] k k1 r w [] Hends Hty) as Ht1.
  assert (H1' : files_ok kernel_end ext [r; w] k1) by (apply (files_perm kernel_end ext [w; r]); [constructor|done]).
  apply wp_bind, (fdalloc_ok kernel_end E ext [w] r); [done| |].
  { rewrite (proj2 (Z.ltb_lt (-1) 0)) by lia. apply close_ends_ok; [done|done|done|].
    intros k2 H2 Ht2 Hc2. constructor; [done|by apply Ht2|by rewrite Hc2, Hc1]. }
  intros fd0 k2 Hfd0 Hn0 Ek2 H2. rewrite (proj2 (Z.ltb_ge _ _)) by lia.
  assert (Hsz2 : u_sz (curproc k2) = sz) by (rewrite Ek2; cbn; by rewrite Hc1).
  assert (Ht2 : typed [] k2) by by rewrite Ek2.
  apply wp_bind, (fdalloc_ok kernel_end E ext [] w); [done| |].
  - rewrite (proj2 (Z.ltb_lt (-1) 0)) by lia. apply wp_bind. unfold set_fd. eapply wp_user; [done|].
    assert (H3 : files_ok kernel_end ext [r; w] (set_cur (set_ofile (<[Z.to_nat (Z.of_nat fd0) := None]> (ofile (curproc k2))) (curproc k2)) k2)).
    { apply clear_fd_ok; [done|]. rewrite Ek2, Nat2Z.id. cbn. apply list_lookup_insert_eq. by eapply lookup_lt_Some. }
    apply close_ends_ok; [exact H3|done|by rewrite Ek2|]. intros k3 H4 Ht3 Hc3. constructor; [done|by apply Ht3|by rewrite Hc3].
  - intros fd1 k3 Hfd1 Hn1 Ek3 H3. rewrite (proj2 (Z.ltb_ge _ _)) by lia.
    assert (Hk3 : settled k3) by (constructor; [done|by rewrite Ek3|by rewrite Ek3]).
    apply wp_bind. eapply (wp_mono _ (fun _ => settled)).
    { apply safe_store; [done|done|rewrite le_bytes_length; lia]. }
    intros _ k4 Hk4. apply wp_bind. eapply (wp_mono _ (fun _ => settled)); [|done].
    apply safe_store; [done|lia|rewrite le_bytes_length; lia].
Qed.

Lemma file_call_safe exec sysproc n : n ∈ file_calls -> safe (handler kernel_end exec sysproc n).
Proof using laws.
  unfold file_calls. rewrite !elem_of_cons, elem_of_nil. intros Hn.
  repeat destruct Hn as [->|Hn]; [..|done]; cbn [handler].
  - apply sys_pipe_safe.
  - apply sys_read_safe.
  - apply sys_fstat_safe.
  - apply sys_chdir_safe.
  - apply sys_dup_safe.
  - apply sys_open_safe.
  - apply sys_write_safe.
  - apply sys_mknod_safe.
  - apply sys_unlink_safe.
  - apply sys_link_safe.
  - apply sys_mkdir_safe.
  - apply sys_close_safe.
Qed.

Lemma handler_safe exec sysproc n :
  (forall path argv, safe (exec path argv)) -> (forall n, safe (sysproc n)) -> safe (handler kernel_end exec sysproc n).
Proof using laws.
  intros He Hs. destruct (decide (n ∈ file_calls)) as [Hn|Hn]; [by apply file_call_safe|].
  destruct (decide (n = SYS_exec)) as [->|Hne]; [by apply sys_exec_safe|].
  destruct n; try apply Hs; try done; destruct Hn; by apply (bool_decide_unpack _).
Qed.

Lemma syscall_safe exec sysproc :
  (forall path argv, safe (exec path argv)) -> (forall n, safe (sysproc n)) -> safe (syscall kernel_end exec sysproc).
Proof using laws.
  intros He Hs. unfold syscall. apply safe_bind; [intros k Hk; by eapply wp_user_pure|]. intros num.
  assert (Hset : forall r, safe (user (modify (set_eax r)))).
  { intros r k Hk. eapply wp_user; [done|]. pose proof (settled_user k Hk) as [H1 H2 H3].
    apply settled_cur; [done|done|by constructor|exact (st_sz _ _ _ _ Hk)]. }
  destruct (syscall_no (s32 num)); [|apply Hset]. apply safe_bind; [by apply handler_safe|]. intros r. apply Hset.
Qed.
End Calls.
