(* ===== verification/FileFs.v ===== *)
(** * The file system below the file layer

    [fs.c] over the log as the implementation of [FsOps], and that it keeps
    the laws of [FsLaws]: the panics of [fs.c], [log.c], [bio.c] and
    [memide.c] are their own.  Then the theorem on the file system calls. *)
From stdpp Require Import gmap.
From S2P Require Import Prelude Bytes Cstring Kalloc Pipe Bio Log Blocks Fs Args File FileInv FileCalls.
Local Open Scope Z_scope.

(** The panics of [file.c], of the allocator and of the processor, and the
    undefined behaviour of the model. *)
Definition file_panics : list string :=
  ["filedup"; "fileclose"; "fileread"; "filewrite"; "short filewrite"; "kfree"; "acquire"; "release"; "trap";
   "not a file"; "use of a freed pipe"]%string.
Definition below (msg : string) : Prop := msg ∉ file_panics.

(** ** Routines that do not reach those panics *)

Section quiet.
Context {S : Type}.
Notation quiet := (quiet (S := S) below).

Lemma quiet_bind {A B} (m : M S A) (g : A -> M S B) : quiet m -> (forall a, quiet (g a)) -> quiet (m ≫= g).
Proof. intros Hm Hg s. apply wp_bind. eapply wp_mono; [apply Hm|]. intros a s' _. apply Hg. Qed.
Lemma quiet_ret {A} (a : A) : quiet (mret a).
Proof. done. Qed.
Lemma quiet_when b m : quiet m -> quiet (when b m).
Proof. intros Hm. by destruct b. Qed.
Lemma quiet_for_each {X} (l : list X) body : (forall x, quiet (body x)) -> quiet (for_each l body).
Proof. intros H. induction l as [|x l IH]; [done|]. by apply quiet_bind. Qed.
Lemma quiet_panic {A} msg : below msg -> quiet (panic (A := A) msg).
Proof. by intros H s. Qed.
Lemma quiet_gets {A} (f : S -> A) : quiet (gets f).
Proof. done. Qed.
Lemma quiet_modify (f : S -> S) : quiet (modify f).
Proof. done. Qed.
Lemma quiet_get : quiet get.
Proof. done. Qed.
Lemma quiet_suspend {A} : quiet (suspend (A := A)).
Proof. done. Qed.
End quiet.

Ltac quiet_step :=
  match goal with
  | |- quiet _ (_ ≫= _) => apply quiet_bind; [|intros ?]
  | |- quiet _ (mret _) => apply quiet_ret
  | |- quiet _ (when _ _) => apply quiet_when
  | |- quiet _ (for_each _ _) => apply quiet_for_each; intros ?
  | |- quiet _ (panic _) => apply quiet_panic, (bool_decide_unpack _); reflexivity
  | |- quiet _ (gets _) => apply quiet_gets
  | |- quiet _ (modify _) => apply quiet_modify
  | |- quiet _ get => apply quiet_get
  | |- quiet _ suspend => apply quiet_suspend
  | |- quiet _ (match ?x with _ => _ end) => destruct x
  end.
Create HintDb quiet.
Ltac quiet_go := repeat first [quiet_step | progress (auto with quiet nocore)].

(** ** The buffer cache and the log *)

Lemma quiet_cached {A} (m : M bio A) : quiet below m -> quiet below (cached m).
Proof. intros Hm s. specialize (Hm (l_bio s)). unfold wp, cached in *. by destruct (m (l_bio s)). Qed.

Lemma bufat_quiet b : quiet below (bufat b).
Proof. intros s. unfold wp, bufat. destruct (bufs s !! b); [done|]. by apply (bool_decide_unpack _). Qed.
#[export] Hint Resolve quiet_cached bufat_quiet : quiet.

Lemma bufupd_quiet b f : quiet below (bufupd b f).
Proof. done. Qed.
#[export] Hint Resolve bufupd_quiet : quiet.
Lemma iderw_quiet b : quiet below (iderw b).
Proof. unfold iderw. quiet_go. Qed.
#[export] Hint Resolve iderw_quiet : quiet.
Lemma bread_quiet d n : quiet below (Bio.bread d n).
Proof. unfold Bio.bread, bget, acquiresleep. quiet_go. Qed.
Lemma bwrite_quiet b : quiet below (bwrite b).
Proof. unfold bwrite. quiet_go. Qed.
Lemma brelse_quiet b : quiet below (Bio.brelse b).
Proof. unfold Bio.brelse, releasesleep. quiet_go. Qed.
#[export] Hint Resolve bread_quiet bwrite_quiet brelse_quiet : quiet.

Lemma data_quiet b : quiet below (data b).
Proof. unfold data. quiet_go. Qed.
Lemma set_bytes_quiet b d : quiet below (set_bytes b d).
Proof. unfold set_bytes. quiet_go. Qed.
Lemma getlog_quiet : quiet below getlog.
Proof. done. Qed.
Lemma updlog_quiet f : quiet below (updlog f).
Proof. done. Qed.
#[export] Hint Resolve data_quiet set_bytes_quiet getlog_quiet updlog_quiet : quiet.
Lemma block_at_quiet i : quiet below (block_at i).
Proof. unfold block_at. quiet_go. Qed.
Lemma set_block_at_quiet i v : quiet below (set_block_at i v).
Proof. unfold set_block_at. quiet_go. Qed.
#[export] Hint Resolve block_at_quiet set_block_at_quiet : quiet.
Lemma commit_quiet : quiet below commit.
Proof. unfold commit, write_log, log_block, write_head, write_entry, install_trans, install_block. quiet_go. Qed.
#[export] Hint Resolve commit_quiet : quiet.
Lemma log_begin_op_quiet : quiet below Log.begin_op.
Proof. unfold Log.begin_op, sleep_log. quiet_go. Qed.
Lemma log_end_op_quiet : quiet below Log.end_op.
Proof. unfold Log.end_op, end_op_enter, end_op_leave, wakeup_log. quiet_go. Qed.
Lemma log_write_quiet b : quiet below (Log.log_write b).
Proof. unfold Log.log_write. cbv zeta. quiet_go. Qed.

(** ** [fs.c] *)

Class QuietBlocks (St : Type) {ops : BlockOps St} := {
  qb_read d n : quiet below (bk_read d n);
  qb_data b : quiet below (bk_data b);
  qb_set b d : quiet below (bk_set b d);
  qb_log b : quiet below (bk_log b);
  qb_release b : quiet below (bk_release b)
}.

#[export] Instance log_quiet : QuietBlocks lstate.
Proof.
  constructor; intros; simpl; auto with quiet nocore. apply log_write_quiet.
Qed.

Section FsQuiet.
Context {St : Type} {bops : BlockOps St} {qb : QuietBlocks St}.
Notation F := (M (fs St)).
Notation quiet := (quiet (S := fs St) below).
Context (dev_read : Z -> option (nat -> Z -> F (Z * list Z))) (dev_write : Z -> option (nat -> list Z -> F Z)).

(** A device reads at most as many bytes as asked for, and writes all or none. *)
Context (Hdev_read : forall ma f ip n s, dev_read ma = Some f -> 0 <= n ->
  wp (f ip n) (fun r _ => Z.of_nat (length r.2) <= n) (fun _ => True) below s).
Context (Hdev_write : forall ma f ip src s, dev_write ma = Some f ->
  wp (f ip src) (fun r _ => r < 0 \/ r = Z.of_nat (length src)) (fun _ => True) below s).

Lemma quiet_blk {A} (m : M St A) : FileInv.quiet below m -> quiet (blk m).
Proof. intros Hm s. specialize (Hm (f_blk s)). unfold wp, blk in *. by destruct (m (f_blk s)). Qed.

Lemma fread_quiet d n : quiet (Fs.bread d n).
Proof using qb. apply quiet_blk, qb_read. Qed.
Lemma fdata_quiet b : quiet (bdata b).
Proof using qb. apply quiet_blk, qb_data. Qed.
Lemma fset_quiet b d : quiet (bset b d).
Proof using qb. apply quiet_blk, qb_set. Qed.
Lemma flog_quiet b : quiet (Fs.log_write b).
Proof using qb. apply quiet_blk, qb_log. Qed.
Lemma frelse_quiet b : quiet (Fs.brelse b).
Proof using qb. apply quiet_blk, qb_release. Qed.
Lemma iat_quiet ip : quiet (Fs.iat ip).
Proof. intros s. unfold wp, Fs.iat. destruct (icache s !! ip); [done|]. by apply (bool_decide_unpack _). Qed.
Lemma iupd_quiet ip g : quiet (Fs.iupd ip g).
Proof. done. Qed.
Lemma sb_quiet : quiet sb.
Proof. done. Qed.
Hint Resolve fread_quiet fdata_quiet fset_quiet flog_quiet frelse_quiet iat_quiet iupd_quiet sb_quiet : quiet.

Lemma bzero_quiet d b : quiet (bzero d b).
Proof using qb. unfold bzero. quiet_go. Qed.
Hint Resolve bzero_quiet : quiet.
Lemma balloc_quiet d : quiet (balloc d).
Proof using qb.
  unfold balloc. apply quiet_bind; [apply sb_quiet|]. intros s0. generalize 0. generalize (S (Z.to_nat (sb_size s0 / BPB + 1))).
  intros fuel. induction fuel as [|fuel IH]; intros b; cbn [balloc_loop]; quiet_go.
Qed.
Lemma freadsb_quiet d : quiet (Fs.readsb d).
Proof using qb. unfold Fs.readsb. quiet_go. Qed.
Hint Resolve balloc_quiet freadsb_quiet : quiet.
Lemma bfree_quiet d b : quiet (bfree d b).
Proof using qb. unfold bfree. cbv zeta. quiet_go. Qed.
Lemma iget_quiet d n : quiet (iget d n).
Proof. unfold iget. quiet_go. Qed.
Lemma iupdate_quiet ip : quiet (Fs.iupdate ip).
Proof using qb. unfold Fs.iupdate. quiet_go. Qed.
Hint Resolve bfree_quiet iget_quiet iupdate_quiet : quiet.
Lemma ialloc_quiet d t : quiet (ialloc d t).
Proof using qb.
  unfold ialloc. apply quiet_bind; [apply sb_quiet|]. intros s0. generalize 1. generalize (S (Z.to_nat (sb_ninodes s0))).
  intros fuel. induction fuel as [|fuel IH]; intros i; cbn [ialloc_loop]; cbv zeta; quiet_go.
Qed.
Lemma ilock_quiet p : quiet (Fs.ilock p).
Proof using qb. unfold Fs.ilock, acquire_inode. quiet_go. Qed.
Lemma iunlock_quiet p : quiet (Fs.iunlock p).
Proof. unfold Fs.iunlock. quiet_go. Qed.
Hint Resolve ilock_quiet iunlock_quiet : quiet.
Lemma bmap_quiet ip bn : quiet (bmap ip bn).
Proof using qb. unfold bmap, set_addr. cbv zeta. quiet_go. Qed.
Hint Resolve bmap_quiet : quiet.
Lemma iput_quiet ip : quiet (Fs.iput ip).
Proof using qb.
  unfold Fs.iput, acquire_inode, itrunc, trunc_direct, trunc_indirect, set_addr. cbv zeta. quiet_go.
Qed.
Hint Resolve iput_quiet : quiet.
Lemma iunlockput_quiet ip : quiet (Fs.iunlockput ip).
Proof using qb. unfold Fs.iunlockput. quiet_go. Qed.
Hint Resolve iunlockput_quiet : quiet.

Lemma chunk_range n tot off : tot < n -> 0 < chunk n tot off <= n - tot.
Proof. intros H. unfold chunk. pose proof (Z.mod_pos_bound off bsize ltac:(done)). lia. Qed.

Lemma wp_quiet_bind {A B} (m : F A) (g : A -> F B) Q s :
  quiet m -> (forall a s', wp (g a) Q (fun _ => True) below s') -> wp (m ≫= g) Q (fun _ => True) below s.
Proof. intros Hm Hg. apply wp_bind. eapply wp_mono; [apply Hm|]. intros a s' _. apply Hg. Qed.

Lemma readi_loop_length ip n fuel : forall tot off s, tot <= n ->
  wp (readi_loop ip tot off n fuel) (fun r _ => Z.of_nat (length r) <= n - tot) (fun _ => True) below s.
Proof using qb.
  induction fuel as [|fuel IH]; intros tot off s Ht; cbn [readi_loop].
  all: destruct (Z.ltb_spec tot n) as [Hlt|Hge]; [|apply wp_ret; simpl; lia].
  { apply (bool_decide_unpack _). reflexivity. }
  apply wp_quiet_bind; [auto with quiet nocore|]. intros i s1. apply wp_quiet_bind; [auto with quiet nocore|]. intros a s2.
  apply wp_quiet_bind; [auto with quiet nocore|]. intros bp s3. apply wp_quiet_bind; [auto with quiet nocore|]. intros d s4.
  cbv zeta. apply wp_quiet_bind; [auto with quiet nocore|]. intros _ s5.
  pose proof (chunk_range n tot off Hlt) as Hm. set (m := chunk n tot off) in *. clearbody m.
  apply wp_bind. eapply wp_mono; [apply IH; lia|]. intros rest s6 Hr. apply wp_ret. cbv beta in Hr.
  rewrite length_app, length_take. lia.
Qed.

Lemma readi_law ip off n s : 0 <= off -> 0 <= n ->
  wp (Fs.readi dev_read ip off n) (fun r _ => Z.of_nat (length r.2) <= n) (fun _ => True) below s.
Proof using qb Hdev_read.
  intros Ho Hn. unfold Fs.readi. apply wp_quiet_bind; [auto with quiet nocore|]. intros i s1.
  destruct (i_type i =? T_DEV).
  { destruct (_ || _); [done|]. destruct (dev_read (i_major i)) eqn:Ed; [by eapply Hdev_read|done]. }
  destruct (Z.ltb_spec (i_size i) off) as [H1|H1]; [done|]. cbn [orb].
  destruct (Z.ltb_spec (u32 (off + n)) off) as [H2|H2]; [done|]. cbv zeta.
  set (n' := if i_size i <? u32 (off + n) then u32 (i_size i - off) else n).
  assert (Hn' : 0 <= n' <= n).
  { unfold n'. destruct (Z.ltb_spec (i_size i) (u32 (off + n))); [|lia].
    assert (u32 (off + n) <= off + n) by (apply Z.mod_le; lia).
    assert (u32 (i_size i - off) <= i_size i - off) by (apply Z.mod_le; lia). pose proof (u32_range (i_size i - off)). lia. }
  clearbody n'. apply wp_bind. eapply wp_mono; [apply readi_loop_length; lia|]. intros r s2 Hr. apply wp_ret. cbv beta in Hr. simpl. lia.
Qed.

Lemma readi_quiet' ip off n : 0 <= off -> 0 <= n -> quiet (Fs.readi dev_read ip off n).
Proof using qb Hdev_read. intros Ho Hn s. eapply wp_mono; [by apply readi_law|done]. Qed.

Lemma writei_loop_quiet ip fuel : forall src tot off n, quiet (writei_loop ip src tot off n fuel).
Proof using qb.
  induction fuel as [|fuel IH]; intros src tot off n; cbn [writei_loop]; cbv zeta; quiet_go.
Qed.

Lemma writei_law ip src off n s : (Z.to_nat n <= length src)%nat -> 0 <= n < 2 ^ 31 ->
  wp (Fs.writei dev_write ip src off n) (fun r _ => r < 0 \/ r = n) (fun _ => True) below s.
Proof using qb Hdev_write.
  intros Hsrc Hn. unfold Fs.writei. apply wp_quiet_bind; [auto with quiet nocore|]. intros i s1.
  destruct (i_type i =? T_DEV).
  { destruct (_ || _); [apply wp_ret; lia|]. destruct (dev_write (i_major i)) eqn:Ed; [|apply wp_ret; lia].
    eapply wp_mono; [by eapply Hdev_write|]. intros r s2. cbv beta. rewrite length_take. lia. }
  destruct (_ || _); [apply wp_ret; lia|]. destruct (_ <? _); [apply wp_ret; lia|].
  apply wp_quiet_bind; [apply writei_loop_quiet|]. intros off' s2. apply wp_quiet_bind; [auto with quiet nocore|]. intros j s3.
  apply wp_quiet_bind; [quiet_go|]. intros _ s4. apply wp_ret. right. apply s32_id. lia.
Qed.

Lemma dirlookup_loop_quiet dp name fuel : forall off, 0 <= off -> quiet (dirlookup_loop dev_read dp name off fuel).
Proof using qb Hdev_read.
  induction fuel as [|fuel IH]; intros off Ho; cbn [dirlookup_loop]; quiet_go; try (by apply readi_quiet'); apply IH; unfold DIRENT; lia.
Qed.
Lemma dirlookup_quiet dp name : quiet (Fs.dirlookup dev_read dp name).
Proof using qb Hdev_read. unfold Fs.dirlookup. quiet_go. by apply dirlookup_loop_quiet. Qed.
Hint Resolve dirlookup_quiet : quiet.

Lemma dirlink_loop_quiet dp fuel : forall off, 0 <= off -> quiet (dirlink_loop dev_read dp off fuel).
Proof using qb Hdev_read.
  induction fuel as [|fuel IH]; intros off Ho; cbn [dirlink_loop]; quiet_go; try (by apply readi_quiet'); apply IH; unfold DIRENT; lia.
Qed.

Lemma dirlink_quiet dp name inum : quiet (Fs.dirlink dev_read dev_write dp name inum).
Proof using qb Hdev_read Hdev_write.
  unfold Fs.dirlink. cbv zeta. quiet_go; [by apply dirlink_loop_quiet|].
  intros s. eapply wp_mono; [apply writei_law; [|unfold DIRENT; lia]|done].
  unfold make_dirent. rewrite length_app, le_bytes_length, strncpy_length; rewrite length_replicate; unfold DIRSIZ, DIRENT; lia.
Qed.

Lemma namex_loop_quiet parent fuel : forall ip path name, quiet (namex_loop dev_read ip path parent name fuel).
Proof using qb Hdev_read.
  induction fuel as [|fuel IH]; intros ip path name; cbn [namex_loop]; quiet_go.
Qed.
Hint Resolve namex_loop_quiet : quiet.
Lemma namex_quiet c path parent name : quiet (namex dev_read c path parent name).
Proof using qb Hdev_read. unfold namex, idup. quiet_go. Qed.
End FsQuiet.

(** ** The file system calls *)

#[export] Instance fs_ops (dev_read : Z -> option (nat -> Z -> M (fs lstate) (Z * list Z)))
    (dev_write : Z -> option (nat -> list Z -> M (fs lstate) Z)) : FsOps (fs lstate) := {
  x_begin_op := blk Log.begin_op;
  x_end_op := blk Log.end_op;
  x_ilock ip := Fs.ilock (Some ip);
  x_iunlock ip := Fs.iunlock (Some ip);
  x_iput := Fs.iput;
  x_iunlockput := Fs.iunlockput;
  x_iat := Fs.iat;
  x_iupd := Fs.iupd;
  x_iupdate := Fs.iupdate;
  x_stati := stati;
  x_readi := Fs.readi dev_read;
  x_writei := Fs.writei dev_write;
  x_ialloc := ialloc;
  x_dirlookup := Fs.dirlookup dev_read;
  x_dirlink := Fs.dirlink dev_read dev_write;
  x_namei := Fs.namei dev_read;
  x_nameiparent := Fs.nameiparent dev_read
}.

(** The promises of a device driver. *)
Definition reader_ok (dev_read : Z -> option (nat -> Z -> M (fs lstate) (Z * list Z))) : Prop :=
  forall ma f ip n s, dev_read ma = Some f -> 0 <= n ->
  wp (f ip n) (fun r _ => Z.of_nat (length r.2) <= n) (fun _ => True) below s.
Definition writer_ok (dev_write : Z -> option (nat -> list Z -> M (fs lstate) Z)) : Prop :=
  forall ma f ip src s, dev_write ma = Some f ->
  wp (f ip src) (fun r _ => r < 0 \/ r = Z.of_nat (length src)) (fun _ => True) below s.

Lemma fs_laws dev_read dev_write : reader_ok dev_read -> writer_ok dev_write ->
  FsLaws (ops := fs_ops dev_read dev_write) below.
Proof.
  intros Hr Hw. constructor; intros.
  - exact (quiet_blk _ log_begin_op_quiet).
  - exact (quiet_blk _ log_end_op_quiet).
  - exact (ilock_quiet (Some ip)).
  - exact (iunlock_quiet (Some ip)).
  - exact (iput_quiet ip).
  - exact (iunlockput_quiet ip).
  - exact (iat_quiet ip).
  - exact (iupd_quiet ip g).
  - exact (iupdate_quiet ip).
  - apply (quiet_bind (Fs.iat ip)); [apply iat_quiet|done].
  - by apply (readi_law dev_read Hr).
  - by apply (writei_law dev_write Hw).
  - exact (ialloc_quiet d t).
  - exact (dirlookup_quiet dev_read Hr dp name).
  - exact (dirlink_quiet dev_read dev_write Hr Hw dp name inum).
  - apply (quiet_bind (namex dev_read c path false (replicate DIRSIZ 0))); [by apply namex_quiet|done].
  - exact (namex_quiet dev_read Hr c path true name).
  - revert H. rewrite !elem_of_cons, elem_of_nil. intros H.
    repeat destruct H as [->|H]; try done; by apply (bool_decide_unpack _).
Qed.

(** C4: a file system call, on any state of the file system and whatever its
    arguments, keeps the file table in order: the reference count of each file
    is the number of descriptors for it, a free entry has no type, an open end
    of a pipe has its pipe, and the page of a pipe is not free.  When the call
    returns, each descriptor is of a file with a type; the call touches no
    memory outside the process, and none of the panics of [file.c] nor the use
    of a freed pipe is reached. *)
Theorem file_calls_safe (kernel_end : Z) (dev_read : Z -> option (nat -> Z -> M (fs lstate) (Z * list Z)))
    (dev_write : Z -> option (nat -> list Z -> M (fs lstate) Z)) (ext : nat -> nat) (sz : Z) (n : sysno)
    (exec : list Z -> list (list Z) -> M (kstate (fs lstate)) Z) (sysproc : sysno -> M (kstate (fs lstate)) Z) (k : kstate (fs lstate)) :
  reader_ok dev_read -> writer_ok dev_write -> n ∈ file_calls -> settled kernel_end ext sz k ->
  wp (handler (ops := fs_ops dev_read dev_write) kernel_end exec sysproc n)
    (fun _ k' => settled kernel_end ext sz k') (files_ok kernel_end ext []) (fun msg => msg ∉ file_panics) k.
Proof.
  intros Hr Hw Hn Hk.
  exact (file_call_safe (ops := fs_ops dev_read dev_write) kernel_end below (laws := fs_laws dev_read dev_write Hr Hw) ext sz exec sysproc n Hn k Hk).
Qed.

(** A process with the file 0 open as its descriptor 0, and a stack with the
    arguments 0 and 0. *)
Definition no_dev_read : Z -> option (nat -> Z -> M (fs lstate) (Z * list Z)) := fun _ => None.
Definition no_dev_write : Z -> option (nat -> list Z -> M (fs lstate) Z) := fun _ => None.
Definition free_file : file := mkFile FD_NONE 0 0 0 0 0 0.
Definition demo_k : kstate (fs lstate) :=
  mkKstate (mkFs (mkL (binit []) (mkLog 0 0 0 0 0 0 [] 0)) (mkSb 0 0 0 0 0 0 0) [])
    (mkFile FD_INODE 1 1 0 0 0 0 :: replicate 99 free_file) ∅ (mkKmem (fun _ => 0) 0 false false)
    (mkUproc (replicate 64 0) 64 0 10 false (Some 0%nat :: replicate 15 None) 0).

Lemma demo_settled : settled (KERNBASE + 0x100000) (fun _ => 0%nat) 64 demo_k.
Proof.
  assert (Hft : forall f x, ftable demo_k !! f = Some x -> f = 0%nat /\ x = mkFile FD_INODE 1 1 0 0 0 0 \/ f <> 0%nat /\ x = free_file).
  { intros [|f] x; cbn -[replicate]; [intros [= <-]; by left|]. intros Hx. right. split; [done|].
    by apply lookup_replicate in Hx as [-> _]. }
  assert (Hheld : forall f, holders (fun _ => 0%nat) [] (curproc demo_k) f = if decide (f = 0%nat) then 1%nat else 0%nat).
  { intros f. unfold holders. cbn [demo_k curproc ofile]. rewrite count_fd_cons.
    change (count_fd f (replicate 15 None)) with 0%nat. repeat case_decide; (done || congruence). }
  constructor; [constructor| |done].
  - constructor; [done| | | | |].
    + intros f. rewrite Hheld. case_decide; [subst f; intros _; unfold NFILE; lia|done].
    + intros f x Hx. rewrite Hheld. destruct (Hft f x Hx) as [[-> ->]|[Hf ->]]; [done|]. by rewrite decide_False.
    + intros f x Hx. by destruct (Hft f x Hx) as [[-> ->]|[_ ->]].
    + intros f x Hx. by destruct (Hft f x Hx) as [[-> ->]|[_ ->]].
    + intros f g x y Hx. by destruct (Hft f x Hx) as [[-> ->]|[_ ->]].
  - done.
  - exists []. split; [|intros p Hp; by destruct Hp]. constructor; [done|constructor|intros v Hv; by apply elem_of_nil in Hv|done].
  - constructor; [done|unfold KERNBASE; simpl; lia|unfold is_u32; simpl; lia].
  - intros f x Hx. by destruct (Hft f x Hx) as [[-> ->]|[_ ->]].
Qed.

Lemma file_calls_safe_witness :
  wp (handler (ops := fs_ops no_dev_read no_dev_write) (KERNBASE + 0x100000) (fun _ _ => mret 0) (fun _ => mret 0) SYS_dup)
    (fun _ k' => settled (KERNBASE + 0x100000) (fun _ => 0%nat) 64 k') (files_ok (KERNBASE + 0x100000) (fun _ => 0%nat) [])
    (fun msg => msg ∉ file_panics) demo_k.
Proof.
  apply (file_calls_safe (KERNBASE + 0x100000) no_dev_read no_dev_write (fun _ => 0%nat) 64 SYS_dup).
  - by intros ma f ip n s E.
  - by intros ma f ip n s E.
  - apply (bool_decide_unpack _). reflexivity.
  - exact demo_settled.
Defined.

(** C14: the arguments of a system call are fetched without a page fault,
    whatever the user's stack pointer and memory are; an accepted pointer has
    all its bytes, and an accepted string all its bytes and its NUL, in the
    memory of the process. *)
Theorem args_in_memory (p : uproc) (n size : Z) (Hp : uproc_ok p) (Hsize : is_s32 size) :
  (exists r, argint n p = Ret r p /\ forall v, r = Some v -> is_s32 v) /\
  (exists r, argptr n size p = Ret r p /\
     forall a, r = Some a -> 0 <= size /\ 0 <= a < u_sz p /\ a + size <= u_sz p) /\
  (exists r, argstr n p = Ret r p /\
     forall str, r = Some str -> 0 ∉ str /\ exists a, 0 <= a /\ a + Z.of_nat (length str) < u_sz p /\
       take (S (length str)) (drop (Z.to_nat a) (u_mem p)) = str ++ [0]).
Proof.
  split; [by apply argint_ok|]. split; [by apply argptr_ok|by apply argstr_ok].
Qed.

Definition demo_u : uproc := mkUproc [0; 0; 0; 0; 12; 0; 0; 0; 255; 255; 255; 255; 104; 105; 0; 33] 16 0 0 false [] 0.
Lemma args_in_memory_witness :
  (argstr 0 demo_u = Ret (Some [104; 105]) demo_u /\ argptr 0 5 demo_u = Ret None demo_u /\ argptr 1 1 demo_u = Ret None demo_u) /\
  exists r, argptr 0 4 demo_u = Ret r demo_u /\ forall a, r = Some a -> a + 4 <= 16.
Proof.
  split; [by vm_compute|].
  destruct (args_in_memory demo_u 0 4) as (_ & (r & Hr & Ha) & _);
    [constructor; [reflexivity|vm_compute; discriminate|unfold is_u32; simpl; lia]|unfold is_s32; lia|].
  exists r. split; [exact Hr|]. intros a E. apply (Ha a E).
Defined.
