(* ===== verification/Vm.v ===== *)
(** * Page tables

    [vm.c]: the two-level page tables of the i386, stored in physical pages, and
    the user memory they map.  The state is that of the page allocator: byte
    memory and free list; a page directory is the (kernel) address of its page.
    [data] and [kernel_end] are the linker's symbols [data] and [end].  Segment
    descriptors and the registers [cr3] and [tr] are hardware state and not part
    of it. *)
From S2P Require Import Prelude Cstring Kalloc.
Local Open Scope Z_scope.

(** ** [mmu.h], [memlayout.h] *)

Definition EXTMEM : Z := 0x100000.
Definition DEVSPACE : Z := 0xFE000000.
Definition KERNLINK : Z := KERNBASE + EXTMEM.
Definition PDX (va : Z) : Z := Z.land (Z.shiftr va 22) 0x3FF.
Definition PTX (va : Z) : Z := Z.land (Z.shiftr va 12) 0x3FF.
Definition PGADDR (d t o : Z) : Z := u32 (Z.lor (Z.lor (Z.shiftl d 22) (Z.shiftl t 12)) o).
Definition PGROUNDDOWN (a : Z) : Z := Z.land a (u32 (Z.lnot (PGSIZE - 1))).
Definition PTE_P : Z := 1.
Definition PTE_W : Z := 2.
Definition PTE_U : Z := 4.
Definition PTE_ADDR (pte : Z) : Z := Z.land pte (u32 (Z.lnot 0xFFF)).
Definition PTE_FLAGS (pte : Z) : Z := Z.land pte 0xFFF.
Definition present (pte : Z) : bool := negb (Z.land pte PTE_P =? 0).

(** [memmove(dst, src, n)] where the [n] bytes [bs] at [src] are outside of the
    memory that is modelled. *)
Fixpoint copy_in (dst : Z) (bs : list Z) (m : mem) : mem :=
  match bs with
  | [] => m
  | b :: bs' => copy_in (dst + 1) bs' (mset dst b m)
  end.

Section Vm.
Context (kernel_end data : Z).
Notation V := (M kmem).

(** Loads and stores of 32-bit words. *)
Definition lw (a : Z) : V Z := gets (fun k => mget32 (kmem_mem k) a).
Definition sw (a v : Z) : V unit := set_mem (mset32 a v).

(** The address of the entry, 0 for the null pointer. *)
Definition walkpgdir (pgdir va : Z) (alloc : bool) : V Z :=
  let pde := pgdir + 4 * PDX va in
  e ← lw pde;
  if present e then mret (P2V (PTE_ADDR e) + 4 * PTX va)
  else if negb alloc then mret 0
  else
    pgtab ← kalloc;
    if pgtab =? 0 then mret 0
    else
      set_mem (memset pgtab 0 PGSIZE);;
      sw pde (Z.lor (Z.lor (Z.lor (V2P pgtab) PTE_P) PTE_W) PTE_U);;
      mret (pgtab + 4 * PTX va).

(** The loop of [mappages]; [fuel] is the number of pages. *)
Fixpoint mappages_loop (pgdir a last pa perm : Z) (fuel : nat) : V Z :=
  match fuel with
  | O => panic "diverges"
  | S fuel' =>
      pte ← walkpgdir pgdir a true;
      if pte =? 0 then mret (-1)
      else
        e ← lw pte;
        if present e then panic "remap"
        else
          sw pte (Z.lor (Z.lor pa perm) PTE_P);;
          if a =? last then mret 0
          else mappages_loop pgdir (u32 (a + PGSIZE)) last (u32 (pa + PGSIZE)) perm fuel'
  end.

Definition mappages (pgdir va size pa perm : Z) : V Z :=
  let a := PGROUNDDOWN va in
  let last := PGROUNDDOWN (u32 (va + size - 1)) in
  mappages_loop pgdir a last pa perm (S (Z.to_nat (u32 (last - a) / PGSIZE))).

(** The loop of [deallocuvm] from [a] on. *)
Fixpoint deallocuvm_loop (pgdir a oldsz : Z) (fuel : nat) : V unit :=
  if a <? oldsz then
    match fuel with
    | O => panic "diverges"
    | S fuel' =>
        pte ← walkpgdir pgdir a false;
        if pte =? 0 then deallocuvm_loop pgdir (u32 (u32 (PGADDR (PDX a + 1) 0 0 - PGSIZE) + PGSIZE)) oldsz fuel'
        else
          e ← lw pte;
          when (present e)
            (let pa := PTE_ADDR e in
             if pa =? 0 then panic "kfree"
             else kfree kernel_end (P2V pa);; sw pte 0);;
          deallocuvm_loop pgdir (u32 (a + PGSIZE)) oldsz fuel'
    end
  else mret tt.

Definition deallocuvm (pgdir oldsz newsz : Z) : V Z :=
  if oldsz <=? newsz then mret oldsz
  else
    let a := PGROUNDUP newsz in
    deallocuvm_loop pgdir a oldsz (Z.to_nat ((oldsz - a) / PGSIZE + 1));;
    mret newsz.

(** The loop of [allocuvm] from [a] on. *)
Fixpoint allocuvm_loop (pgdir oldsz newsz a : Z) (fuel : nat) : V Z :=
  if a <? newsz then
    match fuel with
    | O => panic "diverges"
    | S fuel' =>
        mem ← kalloc;
        if mem =? 0 then deallocuvm pgdir newsz oldsz;; mret 0
        else
          set_mem (memset mem 0 PGSIZE);;
          r ← mappages pgdir a PGSIZE (V2P mem) (Z.lor PTE_W PTE_U);
          if r <? 0 then deallocuvm pgdir newsz oldsz;; kfree kernel_end mem;; mret 0
          else allocuvm_loop pgdir oldsz newsz (u32 (a + PGSIZE)) fuel'
    end
  else mret newsz.

Definition allocuvm (pgdir oldsz newsz : Z) : V Z :=
  if KERNBASE <=? newsz then mret 0
  else if newsz <? oldsz then mret oldsz
  else
    let a := PGROUNDUP oldsz in
    allocuvm_loop pgdir oldsz newsz a (Z.to_nat ((newsz - a) / PGSIZE + 1)).

(** Entry [i] of the loop of [freevm]. *)
Definition freevm_entry (pgdir : Z) (i : nat) : V unit :=
  e ← lw (pgdir + 4 * Z.of_nat i);
  when (present e) (kfree kernel_end (P2V (PTE_ADDR e))).

Definition freevm (pgdir : Z) : V unit :=
  if pgdir =? 0 then panic "freevm: no pgdir"
  else
    deallocuvm pgdir KERNBASE 0;;
    for_each (seq 0 1024) (freevm_entry pgdir);;
    kfree kernel_end pgdir.

(** [kmap\[\]]: virtual address, physical start and end, permissions. *)
Definition kmap : list (Z * Z * Z * Z) :=
  [(KERNBASE, 0, EXTMEM, PTE_W); (KERNLINK, V2P KERNLINK, V2P data, 0);
   (data, V2P data, PHYSTOP, PTE_W); (DEVSPACE, DEVSPACE, 0, PTE_W)].

(** The loop of [setupkvm] over the rest [ks] of [kmap\[\]]. *)
Fixpoint setupkvm_loop (pgdir : Z) (ks : list (Z * Z * Z * Z)) : V Z :=
  match ks with
  | [] => mret pgdir
  | (virt, phys_start, phys_end, perm) :: ks' =>
      r ← mappages pgdir virt (u32 (phys_end - phys_start)) phys_start perm;
      if r <? 0 then freevm pgdir;; mret 0 else setupkvm_loop pgdir ks'
  end.

Definition setupkvm : V Z :=
  pgdir ← kalloc;
  if pgdir =? 0 then mret 0
  else
    set_mem (memset pgdir 0 PGSIZE);;
    if DEVSPACE <? P2V PHYSTOP then panic "PHYSTOP too high"
    else setupkvm_loop pgdir kmap.

Definition inituvm (pgdir init sz : Z) : V unit :=
  if PGSIZE <=? sz then panic "inituvm: more than a page"
  else
    mem ← kalloc;
    set_mem (memset mem 0 PGSIZE);;
    mappages pgdir 0 PGSIZE (V2P mem) (Z.lor PTE_W PTE_U);;
    set_mem (memmove mem init sz).

Definition clearpteu (pgdir uva : Z) : V unit :=
  pte ← walkpgdir pgdir uva false;
  if pte =? 0 then panic "clearpteu"
  else e ← lw pte; sw pte (Z.land e (u32 (Z.lnot PTE_U))).

(** The loop of [copyuvm] from [i] on; [fuel] is the number of pages. *)
Fixpoint copyuvm_loop (pgdir d sz i : Z) (fuel : nat) : V Z :=
  if i <? sz then
    match fuel with
    | O => panic "diverges"
    | S fuel' =>
        pte ← walkpgdir pgdir i false;
        if pte =? 0 then panic "copyuvm: pte should exist"
        else
          e ← lw pte;
          if negb (present e) then panic "copyuvm: page not present"
          else
            let pa := PTE_ADDR e in
            let flags := PTE_FLAGS e in
            mem ← kalloc;
            if mem =? 0 then freevm d;; mret 0
            else
              set_mem (memmove mem (P2V pa) PGSIZE);;
              r ← mappages d i PGSIZE (V2P mem) flags;
              if r <? 0 then freevm d;; mret 0
              else copyuvm_loop pgdir d sz (u32 (i + PGSIZE)) fuel'
    end
  else mret d.

Definition copyuvm (pgdir sz : Z) : V Z :=
  d ← setupkvm;
  if d =? 0 then mret 0 else copyuvm_loop pgdir d sz 0 (Z.to_nat ((sz + PGSIZE - 1) / PGSIZE)).

(** The code dereferences the pointer from [walkpgdir] also if it is null: that is
    undefined, and a panic here. *)
Definition uva2ka (pgdir uva : Z) : V Z :=
  pte ← walkpgdir pgdir uva false;
  if pte =? 0 then panic "uva2ka: null pointer"
  else
    e ← lw pte;
    if negb (present e) then mret 0
    else if Z.land e PTE_U =? 0 then mret 0
    else mret (P2V (PTE_ADDR e)).

(** The loop of [copyout]; it copies at least a byte.  [buf] is the bytes still to
    be copied: the source is on the kernel stack or in the old image, not in the
    pages of [pgdir]. *)
Fixpoint copyout_loop (pgdir va : Z) (buf : list Z) (fuel : nat) : V Z :=
  let len := Z.of_nat (length buf) in
  if 0 <? len then
    match fuel with
    | O => panic "diverges"
    | S fuel' =>
        let va0 := PGROUNDDOWN va in
        pa0 ← uva2ka pgdir va0;
        if pa0 =? 0 then mret (-1)
        else
          let n := Z.min (PGSIZE - (va - va0)) len in
          set_mem (copy_in (pa0 + (va - va0)) (take (Z.to_nat n) buf));;
          copyout_loop pgdir (u32 (va0 + PGSIZE)) (drop (Z.to_nat n) buf) fuel'
    end
  else mret 0.
Definition copyout (pgdir va : Z) (p : list Z) : V Z := copyout_loop pgdir va p (length p).
End Vm.
