(* ===== verification/VmSpace.v ===== *)
(** * Address spaces

    The invariant of a page table in memory, as the map from virtual pages to
    page table entries that the processor sees, and what [walkpgdir] and
    [mappages] do to it. *)
From stdpp Require Import gmap.
From S2P Require Import Prelude Cstring Kalloc Vm.
Local Open Scope Z_scope.

#[local] Opaque memset memmove.

(** ** Bit fields *)

Lemma PDX_eq a : 0 <= a < 2 ^ 32 -> PDX a = a / 2 ^ 22.
Proof.
  intros H. unfold PDX. rewrite Z.shiftr_div_pow2 by lia. change 0x3FF with (Z.ones 10). rewrite Z.land_ones by lia.
  apply Z.mod_small. lia.
Qed.

Lemma PTX_eq a : 0 <= a -> PTX a = a / 2 ^ 12 mod 2 ^ 10.
Proof. intros H. unfold PTX. rewrite Z.shiftr_div_pow2 by lia. change 0x3FF with (Z.ones 10). by rewrite Z.land_ones by lia. Qed.

Lemma PDX_range a : 0 <= a < 2 ^ 32 -> 0 <= PDX a < 1024.
Proof. intros H. rewrite PDX_eq by done. lia. Qed.

Lemma PTX_range a : 0 <= a -> 0 <= PTX a < 1024.
Proof. intros H. rewrite PTX_eq by done. lia. Qed.

Lemma PGROUNDDOWN_eq a : is_u32 a -> PGROUNDDOWN a = a / PGSIZE * PGSIZE.
Proof. apply land_page_mask. Qed.

(** A page address with flags. *)
Lemma lor_flags p fl : 0 <= p -> p mod 4096 = 0 -> 0 <= fl < 4096 -> Z.lor p fl = p + fl.
Proof.
  intros Hp Hal Hf. assert (Hl : Z.land p fl = 0).
  { apply Z.bits_inj'. intros i Hi. rewrite Z.land_spec, Z.bits_0. destruct (decide (i < 12)).
    - rewrite <- (Z.mod_pow2_bits_low p 12) by lia. change (2 ^ 12) with 4096. by rewrite Hal, Z.bits_0.
    - rewrite <- (Z.mod_small fl (2 ^ 12)) by (change (2 ^ 12) with 4096; lia).
      by rewrite (Z.mod_pow2_bits_high fl 12 i), andb_false_r by lia. }
  rewrite <- Z.lxor_lor by done. symmetry. by apply Z.add_nocarry_lxor.
Qed.

Lemma PTE_ADDR_eq e : is_u32 e -> PTE_ADDR e = e / PGSIZE * PGSIZE.
Proof. apply land_page_mask. Qed.
Lemma PTE_FLAGS_eq e : PTE_FLAGS e = e mod 4096.
Proof. unfold PTE_FLAGS. change 0xFFF with (Z.ones 12). by rewrite Z.land_ones by lia. Qed.
Lemma present_eq e : present e = negb (e mod 2 =? 0).
Proof. unfold present, PTE_P. change 1 with (Z.ones 1) at 1. by rewrite Z.land_ones by lia. Qed.

(** A page table entry. *)
Definition pte_of (v fl : Z) : Z := Z.lor (V2P v) fl.

Section Space.
Context (kernel_end : Z).
Notation good_page := (good_page kernel_end).

Lemma V2P_good v : good_page v -> V2P v = v - KERNBASE /\ 0 <= V2P v < PHYSTOP /\ V2P v mod 4096 = 0.
Proof.
  unfold Kalloc.good_page, V2P, KERNBASE, PHYSTOP, PGSIZE. intros H. rewrite u32_id by lia. lia.
Qed.

Lemma P2V_V2P v : good_page v -> P2V (V2P v) = v.
Proof.
  intros H. destruct (V2P_good v H) as (-> & _ & _). unfold P2V. rewrite u32_id; [lia|].
  unfold Kalloc.good_page, KERNBASE, PHYSTOP in *. lia.
Qed.

Lemma pte_of_fields v fl : good_page v -> 0 <= fl < 4096 ->
  PTE_ADDR (pte_of v fl) = V2P v /\ PTE_FLAGS (pte_of v fl) = fl /\ present (pte_of v fl) = Z.odd fl /\ is_u32 (pte_of v fl).
Proof.
  intros Hv Hf. destruct (V2P_good v Hv) as (_ & H1 & H2). unfold pte_of. rewrite lor_flags by lia.
  unfold PHYSTOP in H1. assert (Hu : is_u32 (V2P v + fl)) by (unfold is_u32; lia).
  rewrite PTE_ADDR_eq, PTE_FLAGS_eq, present_eq by done. unfold PGSIZE.
  split; [lia|]. split; [lia|]. split; [|done]. rewrite Zmod_odd, Z.odd_add.
  assert (Z.odd (V2P v) = false) as -> by (apply not_true_iff_false; rewrite Zodd_bool_iff, Zodd_ex_iff; intros [k Hk]; lia).
  by destruct (Z.odd fl).
Qed.

(** ** Words *)

Lemma mget32_ext m m' a : (forall x, a <= x < a + 4 -> m' x = m x) -> mget32 m' a = mget32 m a.
Proof. intros H. unfold mget32. by rewrite !H by lia. Qed.

Lemma mset32_ne a v m x : 0 <= a -> a + 4 <= 2 ^ 32 -> x < a \/ a + 4 <= x -> mset32 a v m x = m x.
Proof. intros H0 H1 Hx. unfold mset32. rewrite !u32_id by lia. by rewrite !mset_ne by lia. Qed.

Lemma mget32_other a v m b : 0 <= a -> a + 4 <= 2 ^ 32 -> b + 4 <= a \/ a + 4 <= b -> mget32 (mset32 a v m) b = mget32 m b.
Proof. intros H0 H1 Hb. apply mget32_ext. intros x Hx. apply mset32_ne; lia. Qed.

Definition in_page (p x : Z) : Prop := p <= x < p + PGSIZE.
(** The memory outside the pages [ps] is the same. *)
Definition same_but (ps : list Z) (m m' : mem) : Prop := forall x, (forall p, p ∈ ps -> ~ in_page p x) -> m' x = m x.

Lemma same_but_refl ps m : same_but ps m m.
Proof. done. Qed.
Lemma same_but_trans ps m1 m2 m3 : same_but ps m1 m2 -> same_but ps m2 m3 -> same_but ps m1 m3.
Proof. intros H1 H2 x Hx. by rewrite H2, H1. Qed.
Lemma same_but_weaken ps ps' m m' : ps ⊆ ps' -> same_but ps m m' -> same_but ps' m m'.
Proof. intros Hs H x Hx. apply H. intros p Hp. apply Hx, Hs, Hp. Qed.

Lemma same_but_word p i v m : good_page p -> 0 <= i < 1024 -> same_but [p] m (mset32 (p + 4 * i) v m).
Proof.
  intros Hp Hi x Hx. destruct (good_page_bounds _ p Hp) as (H0 & H1 & _). specialize (Hx p ltac:(left)).
  unfold in_page, PGSIZE in *. apply mset32_ne; lia.
Qed.

(** A word of a page is in that page, so it keeps its value when others change. *)
Lemma word_same p i ps m m' : good_page p -> 0 <= i < 1024 -> (forall q, q ∈ ps -> good_page q) -> p ∉ ps -> same_but ps m m' ->
  mget32 m' (p + 4 * i) = mget32 m (p + 4 * i).
Proof.
  intros Hp Hi Hg Hn Hs. apply mget32_ext. intros x Hx. apply Hs. intros q Hq Hin.
  destruct (pages_disjoint _ p q Hp (Hg q Hq)) as [H|H]; [by intros ->| |]; unfold in_page, PGSIZE in *; lia.
Qed.

(** ** Address spaces *)

Definition page_addr (a : Z) : Prop := 0 <= a < 2 ^ 32 /\ a mod 4096 = 0.

(** The entry for the page [a] when the directory has the tables [D]. *)
Definition entry (m : mem) (D : gmap Z Z) (a : Z) : Z :=
  match D !! PDX a with Some t => mget32 m (t + 4 * PTX a) | None => 0 end.

Definition pde_of (t : Z) : Z := Z.lor (Z.lor (Z.lor (V2P t) PTE_P) PTE_W) PTE_U.

(** The page directory [pgdir] with the tables [D] has the entries [E]; its
    pages are not free. *)
Record space (m : mem) (l : list Z) (pgdir : Z) (D : gmap Z Z) (E : Z -> Z) : Prop := {
  sp_good : good_page pgdir;
  sp_used : pgdir ∉ l;
  sp_table i t : D !! i = Some t -> 0 <= i < 1024 /\ good_page t /\ t <> pgdir /\ t ∉ l;
  sp_inj i j t : D !! i = Some t -> D !! j = Some t -> i = j;
  sp_dir i : 0 <= i < 1024 -> mget32 m (pgdir + 4 * i) = match D !! i with Some t => pde_of t | None => 0 end;
  sp_entry a : page_addr a -> entry m D a = E a
}.

(** The pages of the directory and its tables. *)
Definition table_pages (pgdir : Z) (D : gmap Z Z) : list Z := pgdir :: (map_to_list D).*2.

Lemma elem_table_pages pgdir D p : p ∈ table_pages pgdir D <-> p = pgdir \/ exists i, D !! i = Some p.
Proof.
  unfold table_pages. rewrite elem_of_cons, list_elem_of_fmap. split.
  - intros [->|([i t] & -> & Hi)]; [by left|]. right. exists i. by apply elem_of_map_to_list.
  - intros [->|[i Hi]]; [by left|]. right. exists (i, p). split; [done|]. by apply elem_of_map_to_list.
Qed.

Lemma table_pages_good m l pgdir D E p : space m l pgdir D E -> p ∈ table_pages pgdir D -> good_page p /\ p ∉ l.
Proof.
  intros H Hp. apply elem_table_pages in Hp as [->|[i Hi]]; [split; apply H|].
  destruct (sp_table _ _ _ _ _ H i p Hi) as (_ & ? & _ & ?). done.
Qed.

(** A space depends on the pages of its tables only. *)
Lemma space_frame m m' l l' pgdir D E ps :
  space m l pgdir D E -> same_but ps m m' -> (forall p, p ∈ ps -> good_page p) ->
  (forall p, p ∈ table_pages pgdir D -> p ∉ ps /\ p ∉ l') -> space m' l' pgdir D E.
Proof.
  intros H Hs Hg Hd. pose proof H as [H1 H2 H3 H4 H5 H6].
  assert (Hpd : pgdir ∉ ps /\ pgdir ∉ l') by (apply Hd, elem_table_pages; by left).
  assert (Ht : forall i t, D !! i = Some t -> t ∉ ps /\ t ∉ l') by (intros i t Hi; apply Hd, elem_table_pages; right; by exists i).
  constructor; [done|apply Hpd| |done| |].
  - intros i t Hi. destruct (H3 i t Hi) as (? & ? & ? & _). destruct (Ht i t Hi). done.
  - intros i Hi. rewrite <- H5 by done. apply (word_same _ _ ps); (done || apply Hpd).
  - intros a Ha. rewrite <- H6 by done. unfold entry. destruct (D !! PDX a) as [t|] eqn:Et; [|done].
    destruct (H3 _ t Et) as (_ & Hgt & _ & _). apply (word_same _ _ ps); [done|apply PTX_range, Ha|done|by apply (Ht _ t Et)|done].
Qed.

Definition upd_entry (E : Z -> Z) (a w : Z) : Z -> Z := fun b => if decide (b = a) then w else E b.

Lemma same_page a b : page_addr a -> page_addr b -> PDX a = PDX b -> PTX a = PTX b -> a = b.
Proof. intros [Ha Ha'] [Hb Hb']. rewrite !PDX_eq, !PTX_eq by lia. lia. Qed.

(** Storing an entry. *)
Lemma space_store m l pgdir D E a t w :
  space m l pgdir D E -> page_addr a -> D !! PDX a = Some t -> is_u32 w ->
  space (mset32 (t + 4 * PTX a) w m) l pgdir D (upd_entry E a w).
Proof.
  intros H Ha Ht Hw. pose proof H as [H1 H2 H3 H4 H5 H6]. destruct (H3 _ _ Ht) as (Hi & Hgt & Hne & Hl).
  pose proof (PTX_range a ltac:(apply Ha)) as Hx. destruct (good_page_bounds _ t Hgt) as (Ht0 & Ht1 & _).
  constructor; [done..| |].
  - intros i Hir. rewrite <- H5 by done. apply (word_same _ _ [t]); [done|done|by intros q ->%list_elem_of_singleton| |by apply same_but_word].
    rewrite list_elem_of_singleton. congruence.
  - intros b Hb. unfold upd_entry. case_decide as Eb; [subst b; unfold entry; rewrite Ht; apply mget32_mset32; unfold PGSIZE in *; (done || lia)|].
    rewrite <- H6 by done. unfold entry. destruct (D !! PDX b) as [t'|] eqn:Et'; [|done].
    pose proof (PTX_range b ltac:(apply Hb)) as Hxb. destruct (decide (t' = t)) as [->|Hnt].
    + assert (PTX b <> PTX a) by (intros Exb; apply Eb, same_page; try done; by apply (H4 _ _ t)).
      apply mget32_other; unfold PGSIZE in *; lia.
    + apply (word_same _ _ [t]); [by apply (H3 _ t' Et')|done|by intros q ->%list_elem_of_singleton|by rewrite list_elem_of_singleton|by apply same_but_word].
Qed.

Lemma space_ext m l pgdir D E E' : (forall a, page_addr a -> E a = E' a) -> space m l pgdir D E -> space m l pgdir D E'.
Proof. intros HE [H1 H2 H3 H4 H5 H6]. constructor; try done. intros a Ha. rewrite <- HE by done. by apply H6. Qed.

(** ** [walkpgdir] *)

Lemma pde_of_fields t : good_page t -> present (pde_of t) = true /\ P2V (PTE_ADDR (pde_of t)) = t /\ is_u32 (pde_of t).
Proof.
  intros Ht. assert (pde_of t = pte_of t 7) as -> by (unfold pde_of, pte_of; by rewrite <- !Z.lor_assoc).
  destruct (pte_of_fields t 7 Ht) as (-> & _ & -> & ?); [lia|]. split; [done|]. split; [by apply P2V_V2P|done].
Qed.

Lemma page_PDX a : page_addr a -> 0 <= PDX a < 1024.
Proof. intros [H _]. by apply PDX_range. Qed.

Lemma walk_lookup k l pgdir D E a :
  space (kmem_mem k) l pgdir D E -> page_addr a ->
  walkpgdir pgdir a false k = Ret (match D !! PDX a with Some t => t + 4 * PTX a | None => 0 end) k.
Proof.
  intros H Ha. unfold walkpgdir, lw, gets, mbind, M_bind. rewrite (sp_dir _ _ _ _ _ H) by (by apply page_PDX).
  destruct (D !! PDX a) as [t|] eqn:Et; [|done]. destruct (sp_table _ _ _ _ _ H _ t Et) as (_ & Hg & _).
  destruct (pde_of_fields t Hg) as (-> & -> & _). done.
Qed.

(** The directory [D'] has the tables of [D] and the pages [new] from the free
    list. *)
Definition grown (pgdir : Z) (l : list Z) (D : gmap Z Z) (l' : list Z) (D' : gmap Z Z) : Prop :=
  exists new, l = new ++ l' /\ table_pages pgdir D' ≡ₚ new ++ table_pages pgdir D /\ D ⊆ D'.

Lemma tables_grown_refl pgdir l D : grown pgdir l D l D.
Proof. by exists []. Qed.
Lemma tables_grown_trans pgdir l1 D1 l2 D2 l3 D3 :
  grown pgdir l1 D1 l2 D2 -> grown pgdir l2 D2 l3 D3 -> grown pgdir l1 D1 l3 D3.
Proof.
  intros (n1 & -> & P1 & S1) (n2 & -> & P2 & S2). exists (n1 ++ n2). split; [by rewrite app_assoc|].
  split; [|by etrans]. rewrite P2, P1, !app_assoc. f_equiv. apply Permutation_app_comm.
Qed.
Lemma grown_pages pgdir l D l' D' p : grown pgdir l D l' D' -> p ∈ table_pages pgdir D -> p ∈ table_pages pgdir D'.
Proof. intros (n & _ & P & _) Hp. rewrite P. apply elem_of_app. by right. Qed.

(** A new table. *)
Lemma space_table m l v pgdir D E a :
  space m (v :: l) pgdir D E -> good_page v -> v ∉ l -> page_addr a -> D !! PDX a = None ->
  let m' := mset32 (pgdir + 4 * PDX a) (pde_of v) (memset v 0 PGSIZE m) in
  space m' l pgdir (<[PDX a := v]> D) E /\ same_but [pgdir; v] m m'.
Proof.
  intros H Hv Hvl Ha HD m'. pose proof H as [H1 H2 H3 H4 H5 H6]. apply not_elem_of_cons in H2 as [Hpv Hpl].
  pose proof (page_PDX a Ha) as Hi. destruct (good_page_bounds _ v Hv) as (Hv0 & Hv1 & _), (good_page_bounds _ pgdir H1) as (Hp0 & Hp1 & _).
  assert (Hm1 : same_but [v] m (memset v 0 PGSIZE m)).
  { intros x Hx. rewrite memset_spec by (unfold PGSIZE in *; lia). specialize (Hx v ltac:(left)). unfold in_page in Hx. by rewrite decide_False. }
  assert (Hm2 : same_but [pgdir] (memset v 0 PGSIZE m) m') by (by apply same_but_word).
  assert (Hsame : same_but [pgdir; v] m m').
  { eapply same_but_trans; [eapply same_but_weaken; [|exact Hm1]|eapply same_but_weaken; [|exact Hm2]];
      intros q ->%list_elem_of_singleton; [right|]; left. }
  assert (Hg2 : forall q, q ∈ [pgdir; v] -> good_page q) by (intros q; rewrite !elem_of_cons, elem_of_nil; intros [->|[->|[]]]; done).
  assert (HD' : forall i t, <[PDX a := v]> D !! i = Some t -> i = PDX a /\ t = v \/ i <> PDX a /\ D !! i = Some t).
  { intros i t. destruct (decide (i = PDX a)) as [->|Hne]; [rewrite lookup_insert_eq; intros [= <-]; by left|].
    rewrite lookup_insert_ne by done. by right. }
  assert (Hold : forall i t, D !! i = Some t -> 0 <= i < 1024 /\ good_page t /\ t <> pgdir /\ t <> v /\ t ∉ l).
  { intros i t Hit. destruct (H3 i t Hit) as (? & ? & ? & Hn). apply not_elem_of_cons in Hn as [??]. done. }
  split; [|done]. constructor; [done|done| | | |].
  - intros i t [[-> ->]|[_ Hit]]%HD'; [done|]. destruct (Hold i t Hit) as (? & ? & ? & ? & ?). done.
  - intros i j t [[-> ->]|[_ Hit]]%HD' [[-> Ht]|[_ Hjt]]%HD'; [done| | |by apply (H4 i j t)].
    + destruct (Hold j v Hjt) as (_ & _ & _ & ? & _). done.
    + subst t. destruct (Hold i v Hit) as (_ & _ & _ & ? & _). done.
  - intros i Hir. destruct (decide (i = PDX a)) as [->|Hne].
    + rewrite lookup_insert_eq. apply mget32_mset32; [lia|unfold PGSIZE in *; lia|by apply pde_of_fields].
    + rewrite lookup_insert_ne by done. rewrite <- H5 by done. unfold m'. rewrite mget32_other by (unfold PGSIZE in *; lia).
      apply (word_same _ _ [v]); [done|done|intros q ->%list_elem_of_singleton; done|by rewrite list_elem_of_singleton|done].
  - intros b Hb. rewrite <- H6 by done. pose proof (PTX_range b ltac:(apply Hb)) as Hxb. unfold entry.
    destruct (decide (PDX b = PDX a)) as [->|Hne].
    + rewrite lookup_insert_eq, HD. unfold m'. rewrite (word_same _ _ [pgdir] (memset v 0 PGSIZE m)); try done.
      * unfold mget32. rewrite !memset_spec by (unfold PGSIZE in *; lia).
        rewrite !decide_True by (unfold PGSIZE in *; lia). done.
      * intros q ->%list_elem_of_singleton. done.
      * rewrite list_elem_of_singleton. congruence.
    + rewrite lookup_insert_ne by done. destruct (D !! PDX b) as [t|] eqn:Et; [|done].
      destruct (Hold _ t Et) as (_ & Hgt & ? & ? & _).
      apply (word_same _ _ [pgdir; v]); [done|done|done|by rewrite !elem_of_cons, elem_of_nil; intros [->|[->|[]]]|done].
Qed.

Notation kmem_ok := (kmem_ok kernel_end).
Definition with_mem (m : mem) (k : kmem) : kmem := mkKmem m (freelist k) (use_lock k) (kmem_locked k).

(** The free list is stored in the free pages. *)
Lemma kmem_frame k l ps m' :
  kmem_ok k l -> same_but ps (kmem_mem k) m' -> (forall p, p ∈ ps -> good_page p /\ p ∉ l) -> kmem_ok (with_mem m' k) l.
Proof.
  intros [H1 H2 H3 H4] Hs Hps. constructor; [|done..]. eapply chain_ext; [|exact H1].
  intros v x Hv Hx. apply Hs. intros p Hp Hin. destruct (Hps p Hp) as [Hg Hn].
  destruct (pages_disjoint _ v p (H3 v Hv) Hg) as [H|H]; [by intros ->| |]; unfold in_page, PGSIZE in *; lia.
Qed.

Lemma walk_alloc k l pgdir D E a :
  kmem_ok k l -> space (kmem_mem k) l pgdir D E -> page_addr a ->
  exists k' l' D' r, walkpgdir pgdir a true k = Ret r k' /\ kmem_ok k' l' /\ space (kmem_mem k') l' pgdir D' E /\
    grown pgdir l D l' D' /\ same_but (table_pages pgdir D') (kmem_mem k) (kmem_mem k') /\
    (r = 0 /\ l' = [] \/ exists t, D' !! PDX a = Some t /\ r = t + 4 * PTX a).
Proof.
  intros Hk H Ha. unfold walkpgdir, lw, gets, mbind at 1, M_bind at 1. rewrite (sp_dir _ _ _ _ _ H) by (by apply page_PDX).
  destruct (D !! PDX a) as [t|] eqn:Et.
  { destruct (sp_table _ _ _ _ _ H _ t Et) as (_ & Hg & _). destruct (pde_of_fields t Hg) as (-> & -> & _).
    exists k, l, D, (t + 4 * PTX a). split; [done|]. split; [done|]. split; [done|]. split; [apply tables_grown_refl|].
    split; [apply same_but_refl|]. right. by exists t. }
  cbn [present negb]. change (present 0) with false. cbv iota.
  destruct (kalloc_ok kernel_end k l Hk) as (k1 & E1 & Hk1 & _ & Hm1). unfold mbind at 1, M_bind at 1. rewrite E1.
  destruct l as [|v l].
  { exists k1, [], D, 0. split; [done|]. split; [done|]. split; [by rewrite Hm1|]. split; [apply tables_grown_refl|].
    rewrite Hm1. split; [apply same_but_refl|]. by left. }
  assert (Hv : good_page v) by (apply (ok_pages _ _ _ Hk); left).
  assert (Hvl : v ∉ l) by (pose proof (ok_nodup _ _ _ Hk) as Hn; by apply NoDup_cons in Hn as [? _]).
  destruct (good_page_bounds _ v Hv) as (Hv0 & _ & Hvn). apply Z.eqb_neq in Hvn. rewrite Hvn.
  destruct (space_table (kmem_mem k) l v pgdir D E a H Hv Hvl Ha Et) as [Hsp Hsame].
  set (m' := mset32 _ _ _) in *. exists (with_mem m' k1), l, (<[PDX a := v]> D), (v + 4 * PTX a).
  split; [unfold m'; rewrite <- Hm1; reflexivity|]. cbn [tail] in Hk1.
  assert (Hnew : table_pages pgdir (<[PDX a := v]> D) ≡ₚ [v] ++ table_pages pgdir D).
  { unfold table_pages. rewrite (map_to_list_insert D (PDX a) v Et). cbn [fmap list_fmap]. constructor. }
  split.
  { apply (kmem_frame k1 l [pgdir; v]); [done|by rewrite Hm1|]. intros p. rewrite !elem_of_cons, elem_of_nil.
    intros [->|[->|[]]]; [split; [apply H|]|done]. pose proof (sp_used _ _ _ _ _ H) as Hu. by apply not_elem_of_cons in Hu as [_ ?]. }
  split; [done|]. split.
  { exists [v]. split; [done|]. split; [done|]. by apply insert_subseteq. }
  split; [|right; exists v; by rewrite lookup_insert_eq].
  eapply same_but_weaken; [|exact Hsame]. intros p. rewrite !elem_of_cons, elem_of_nil, Hnew.
  intros [->|[->|[]]]; [right|]; left.
Qed.

(** ** [mappages] *)

Lemma flags_lor a b : 0 <= a < 4096 -> 0 <= b < 4096 -> 0 <= Z.lor a b < 4096.
Proof.
  intros Ha Hb. assert (0 <= Z.lor a b) by (apply Z.lor_nonneg; lia). split; [done|].
  destruct (decide (Z.lor a b = 0)) as [->|Hne]; [lia|]. change 4096 with (2 ^ 12). apply Z.log2_lt_pow2; [lia|].
  rewrite Z.log2_lor by lia. apply Z.max_lub_lt.
  - destruct (decide (a = 0)) as [->|]; [done|]. apply Z.log2_lt_pow2; [lia|]. change (2 ^ 12) with 4096. lia.
  - destruct (decide (b = 0)) as [->|]; [done|]. apply Z.log2_lt_pow2; [lia|]. change (2 ^ 12) with 4096. lia.
Qed.

Lemma entry_word pa perm : 0 <= pa -> pa mod 4096 = 0 -> pa + 4096 <= 2 ^ 32 -> 0 <= perm < 4096 ->
  is_u32 (Z.lor (Z.lor pa perm) PTE_P).
Proof.
  intros H0 H1 H2 Hp. rewrite <- Z.lor_assoc. pose proof (flags_lor perm PTE_P Hp ltac:(unfold PTE_P; lia)) as Hf.
  rewrite lor_flags by lia. unfold is_u32. lia.
Qed.

(** The [n] pages from [a] on mapped to the physical pages from [pa] on. *)
Definition map_range (E : Z -> Z) (a pa perm : Z) (n : nat) : Z -> Z := fun b =>
  if decide (a <= b < a + 4096 * Z.of_nat n) then Z.lor (Z.lor (pa + (b - a)) perm) PTE_P else E b.

Lemma map_range_S E a pa perm n b : page_addr a -> page_addr b ->
  map_range (upd_entry E a (Z.lor (Z.lor pa perm) PTE_P)) (a + 4096) (pa + 4096) perm n b = map_range E a pa perm (S n) b.
Proof.
  intros [Ha Ha'] [Hb Hb']. unfold map_range, upd_entry. destruct (decide (b = a)) as [->|Hne].
  - rewrite decide_False, decide_True by lia. by rewrite Z.sub_diag, Z.add_0_r.
  - destruct (decide (a + 4096 <= b < _)) as [H|H].
    + rewrite decide_True by lia. do 2 f_equal. lia.
    + rewrite decide_False by lia. done.
Qed.

Lemma mappages_loop_ok pgdir perm n : forall k l D E a pa last fuel,
  kmem_ok k l -> space (kmem_mem k) l pgdir D E -> page_addr a -> a + 4096 * Z.of_nat (S n) <= 2 ^ 32 ->
  0 <= pa -> pa mod 4096 = 0 -> pa + 4096 * Z.of_nat (S n) <= 2 ^ 32 -> 0 <= perm < 4096 ->
  (forall b, page_addr b -> a <= b < a + 4096 * Z.of_nat (S n) -> present (E b) = false) ->
  last = a + 4096 * Z.of_nat n -> (n < fuel)%nat ->
  exists k' l' D' r j, mappages_loop pgdir a last pa perm fuel k = Ret r k' /\ kmem_ok k' l' /\
    space (kmem_mem k') l' pgdir D' (map_range E a pa perm j) /\ grown pgdir l D l' D' /\
    same_but (table_pages pgdir D') (kmem_mem k) (kmem_mem k') /\ (r = 0 /\ j = S n \/ r = -1 /\ (j <= n)%nat /\ l' = []).
Proof.
  induction n as [|n IH]; intros k l D E a pa last fuel Hk H Ha Hend Hpa Hal Hpend Hperm Hfree Hlast Hfuel;
    (destruct fuel as [|fuel]; [lia|]); cbn [mappages_loop].
  all: destruct (walk_alloc k l pgdir D E a Hk H Ha) as (k1 & l1 & D1 & r1 & E1 & Hk1 & H1 & Hg1 & Hs1 & Hr1).
  all: unfold mbind at 1, M_bind at 1; rewrite E1.
  all: destruct Hr1 as [[-> Hl1]|(t & Ht & ->)];
    [exists k1, l1, D1, (-1), 0%nat; split; [done|]; split; [done|]; split; [eapply space_ext; [|exact H1]; intros b Hb; unfold map_range; by rewrite decide_False by lia|];
     split; [done|]; split; [done|]; right; split; [done|]; split; [lia|done]|].
  all: destruct (sp_table _ _ _ _ _ H1 _ t Ht) as (Hi & Hgt & Htp & Htl); pose proof (PTX_range a ltac:(apply Ha)) as Hx;
    destruct (good_page_bounds _ t Hgt) as (Ht0 & Ht1 & _).
  all: rewrite (proj2 (Z.eqb_neq (t + 4 * PTX a) 0)) by (unfold Kalloc.good_page, KERNBASE in Hgt; lia).
  all: unfold lw, gets, mbind at 1, M_bind at 1.
  all: assert (He : mget32 (kmem_mem k1) (t + 4 * PTX a) = E a) by (rewrite <- (sp_entry _ _ _ _ _ H1 a Ha); unfold entry; by rewrite Ht).
  all: rewrite He, (Hfree a Ha) by lia.
  all: assert (Hw : is_u32 (Z.lor (Z.lor pa perm) PTE_P)) by (apply entry_word; (done || lia)).
  all: pose proof (space_store _ _ _ _ _ a t _ H1 Ha Ht Hw) as H2.
  all: set (m2 := mset32 _ _ _) in *.
  all: assert (Hs2 : same_but [t] (kmem_mem k1) m2) by (by apply same_but_word).
  all: assert (Hk2 : kmem_ok (with_mem m2 k1) l1) by (apply (kmem_frame k1 l1 [t]); [done|done|by intros p ->%list_elem_of_singleton]).
  all: assert (Hs12 : same_but (table_pages pgdir D1) (kmem_mem k) m2) by
    (eapply same_but_trans; [exact Hs1|eapply same_but_weaken; [|exact Hs2]]; intros p ->%list_elem_of_singleton; apply elem_table_pages; right; by exists (PDX a)).
  all: unfold mbind at 1, M_bind at 1, sw, set_mem, modify; fold m2; change (mkKmem m2 _ _ _) with (with_mem m2 k1).
  - rewrite (proj2 (Z.eqb_eq a last)) by lia. exists (with_mem m2 k1), l1, D1, 0, 1%nat. split; [done|]. split; [done|].
    split; [|split; [done|split; [done|by left]]]. eapply space_ext; [|exact H2]. intros b Hb.
    rewrite <- map_range_S by done. unfold map_range. by rewrite decide_False by lia.
  - pose proof Ha as [Ha0 _]. rewrite (proj2 (Z.eqb_neq a last)) by lia. assert (Ha4 : page_addr (a + 4096)) by (destruct Ha; split; lia).
    rewrite (u32_id (a + PGSIZE)), (u32_id (pa + PGSIZE)) by (unfold PGSIZE; lia).
    destruct (IH (with_mem m2 k1) l1 D1 _ (a + 4096) (pa + 4096) last fuel Hk2 H2 Ha4) as (k3 & l3 & D3 & r3 & j & E3 & Hk3 & H3 & Hg3 & Hs3 & Hr3); try lia.
    + intros b Hb Hr. unfold upd_entry. rewrite decide_False by lia. apply Hfree; [done|lia].
    + exists k3, l3, D3, r3, (S j). split; [done|]. split; [done|]. split.
      { eapply space_ext; [|exact H3]. intros b Hb. by apply map_range_S. }
      split; [by eapply tables_grown_trans|]. split; [|destruct Hr3 as [[-> ->]|(-> & ? & ->)]; [by left|right; split; [done|]; split; [lia|done]]].
      eapply same_but_trans; [eapply same_but_weaken; [|exact Hs12]|exact Hs3]. intros p Hp. by eapply grown_pages.
Qed.
End Space.
