(* ===== verification/VmUser.v ===== *)
(** * User memory

    The user part of an address space: which page holds which user address,
    that no page is used twice, and what [allocuvm], [deallocuvm] and [freevm]
    do to it.  No page is lost: free pages, tables and user pages together
    always are the same pages. *)
From stdpp Require Import gmap.
From S2P Require Import Prelude Cstring Kalloc Vm VmSpace.
Local Open Scope Z_scope.

#[local] Opaque memset memmove kfree kalloc.

(** User pages by their address: the page and the flags. *)
Notation umap := (gmap Z (Z * Z)).

Definition user_pages (U : umap) : list Z := (fun p => p.2.1) <$> map_to_list U.

Lemma elem_user_pages U v : v ∈ user_pages U <-> exists a fl, U !! a = Some (v, fl).
Proof.
  unfold user_pages. rewrite list_elem_of_fmap. split.
  - intros ([a [w fl]] & -> & H). apply elem_of_map_to_list in H. by exists a, fl.
  - intros (a & fl & H). exists (a, (v, fl)). split; [done|]. by apply elem_of_map_to_list.
Qed.

Lemma user_pages_insert U a v fl : U !! a = None -> user_pages (<[a := (v, fl)]> U) ≡ₚ v :: user_pages U.
Proof. intros H. unfold user_pages. by rewrite (map_to_list_insert U a (v, fl) H). Qed.

Lemma user_pages_delete U a v fl : U !! a = Some (v, fl) -> user_pages U ≡ₚ v :: user_pages (delete a U).
Proof. intros H. unfold user_pages. by rewrite <- (map_to_list_delete U a (v, fl) H). Qed.

(** The part of [U] in the range, and the rest. *)
Definition part (lo hi : Z) (U : umap) : umap := filter (fun p => lo <= p.1 < hi) U.
Definition cut (lo hi : Z) (U : umap) : umap := filter (fun p => ~ (lo <= p.1 < hi)) U.

Lemma part_lookup lo hi U a : part lo hi U !! a = if decide (lo <= a < hi) then U !! a else None.
Proof.
  unfold part. destruct (U !! a) as [x|] eqn:E.
  - case_decide; [by apply map_lookup_filter_Some|]. apply map_lookup_filter_None. right. intros y Hy. done.
  - rewrite map_lookup_filter_None_2 by (by left). by case_decide.
Qed.

Lemma cut_lookup lo hi U a : cut lo hi U !! a = if decide (lo <= a < hi) then None else U !! a.
Proof.
  unfold cut. destruct (U !! a) as [x|] eqn:E.
  - case_decide; [|by apply map_lookup_filter_Some]. apply map_lookup_filter_None. right. intros y Hy Hn. by apply Hn.
  - rewrite map_lookup_filter_None_2 by (by left). by case_decide.
Qed.

(** Permutations of appended lists. *)
Ltac solve_Permutation :=
  apply (Permutation_count_occ Z.eq_dec); intros; repeat (rewrite ?count_occ_app; cbn [app count_occ]); repeat case_match; lia.

Lemma user_pages_split lo hi U : user_pages U ≡ₚ user_pages (part lo hi U) ++ user_pages (cut lo hi U).
Proof.
  unfold user_pages. rewrite <- fmap_app. apply fmap_Permutation. apply NoDup_Permutation.
  - apply NoDup_map_to_list.
  - apply NoDup_app. split; [apply NoDup_map_to_list|]. split; [|apply NoDup_map_to_list].
    intros [a x] H1 H2. apply elem_of_map_to_list in H1, H2. rewrite part_lookup in H1. rewrite cut_lookup in H2. by case_decide.
  - intros [a x]. rewrite elem_of_app, !elem_of_map_to_list, part_lookup, cut_lookup. case_decide; naive_solver.
Qed.

Section User.
Context (kernel_end : Z) (Hend : KERNBASE < kernel_end).
Notation good_page := (good_page kernel_end).
Notation kmem_ok := (kmem_ok kernel_end).
Notation space := (space kernel_end).

Definition user_addr (a : Z) : Prop := page_addr a /\ a < KERNBASE.

(** The address space [pgdir] has the user memory [U], in a memory with the
    free pages [l]. *)
Record uspace (m : mem) (l : list Z) (pgdir : Z) (D : gmap Z Z) (E : Z -> Z) (U : umap) : Prop := {
  us_space : space m l pgdir D E;
  us_entry a : user_addr a -> match U !! a with Some (v, fl) => E a = pte_of v fl | None => present (E a) = false end;
  us_page a v fl : U !! a = Some (v, fl) ->
    user_addr a /\ good_page v /\ 0 <= fl < 4096 /\ Z.odd fl = true /\ v ∉ l /\ v ∉ table_pages pgdir D;
  us_inj a b v fl fl' : U !! a = Some (v, fl) -> U !! b = Some (v, fl') -> a = b
}.

(** The pages of a space. *)
Definition space_pages (pgdir : Z) (D : gmap Z Z) (U : umap) : list Z := table_pages pgdir D ++ user_pages U.

Lemma space_pages_good m l pgdir D E U p : uspace m l pgdir D E U -> p ∈ space_pages pgdir D U -> good_page p /\ p ∉ l.
Proof.
  intros H. unfold space_pages. rewrite elem_of_app, elem_user_pages. intros [Hp|(a & fl & Ha)].
  - by apply (table_pages_good kernel_end m l pgdir D E); [apply H|].
  - destruct (us_page _ _ _ _ _ _ H a p fl Ha) as (_ & ? & _ & _ & ? & _). done.
Qed.

(** A space depends on the pages of its tables only. *)
Lemma uspace_frame m m' l l' pgdir D E U ps :
  uspace m l pgdir D E U -> same_but ps m m' -> (forall p, p ∈ ps -> good_page p) ->
  (forall p, p ∈ table_pages pgdir D -> p ∉ ps) -> (forall p, p ∈ space_pages pgdir D U -> p ∉ l') -> uspace m' l' pgdir D E U.
Proof.
  intros [H1 H2 H3 H4] Hs Hg Ht Hd. constructor; [|done| |done].
  - apply (space_frame kernel_end m m' l l' pgdir D E ps); [done..|]. intros p Hp. split; [by apply Ht|].
    apply Hd. unfold space_pages. apply elem_of_app. by left.
  - intros a v fl Ha. destruct (H3 a v fl Ha) as (? & ? & ? & ? & _ & ?). repeat (split; [done|]). split; [|done].
    apply Hd. unfold space_pages. apply elem_of_app. right. apply elem_user_pages. by exists a, fl.
Qed.

Lemma uspace_cut_none m l pgdir D E U a hi : uspace m l pgdir D E U -> U !! a = None -> page_addr a ->
  cut a hi U = cut (a + 4096) hi U /\ part a hi U = part (a + 4096) hi U.
Proof.
  intros H Ha Hpa. split; apply map_eq; intros b; [rewrite !cut_lookup|rewrite !part_lookup]; repeat case_decide; try done; try lia.
  all: destruct (U !! b) as [[v fl]|] eqn:Eb; [|done]; destruct (us_page _ _ _ _ _ _ H b v fl Eb) as ([[Hb Hb'] _] & _).
  all: destruct (decide (b = a)) as [->|]; [congruence|]; destruct Hpa; lia.
Qed.

Lemma uspace_cut_some m l pgdir D E U a v fl hi : uspace m l pgdir D E U -> U !! a = Some (v, fl) -> page_addr a -> a < hi ->
  cut a hi U = cut (a + 4096) hi (delete a U) /\
  user_pages (part a hi U) ≡ₚ v :: user_pages (part (a + 4096) hi (delete a U)).
Proof.
  intros H EU Ha Hlt. assert (Hnext : forall b w fw, U !! b = Some (w, fw) -> b <> a -> a <= b -> a + 4096 <= b).
  { intros b w fw Hb Hne Hle. destruct (us_page _ _ _ _ _ _ H b w fw Hb) as ([[? ?] _] & _). destruct Ha. lia. }
  split.
  - apply map_eq. intros b. rewrite !cut_lookup. destruct (decide (b = a)) as [->|Hne].
    { rewrite lookup_delete_eq, decide_True by lia. by case_decide. }
    rewrite lookup_delete_ne by done. destruct (U !! b) as [[w fw]|] eqn:Eb; [|by repeat case_decide].
    specialize (Hnext b w fw Eb Hne). repeat case_decide; (done || lia).
  - rewrite (user_pages_delete (part a hi U) a v fl) by (rewrite part_lookup, decide_True by lia; done).
    apply Permutation_skip. replace (delete a (part a hi U)) with (part (a + 4096) hi (delete a U)); [done|].
    apply map_eq. intros b. destruct (decide (b = a)) as [->|Hne]; [by rewrite lookup_delete_eq, part_lookup, decide_False by lia|].
    rewrite lookup_delete_ne, !part_lookup, lookup_delete_ne by done. destruct (U !! b) as [[w fw]|] eqn:Eb; [|by repeat case_decide].
    specialize (Hnext b w fw Eb Hne). repeat case_decide; (done || lia).
Qed.

(** ** [deallocuvm] *)

Lemma free_user_page k l pgdir D E U a v fl t :
  kmem_ok k l -> uspace (kmem_mem k) l pgdir D E U -> U !! a = Some (v, fl) -> D !! PDX a = Some t ->
  exists k1, kfree kernel_end v k = Ret tt k1 /\
    let m2 := mset32 (t + 4 * PTX a) 0 (kmem_mem k1) in
    kmem_ok (with_mem m2 k1) (v :: l) /\ uspace m2 (v :: l) pgdir D (upd_entry E a 0) (delete a U) /\
    same_but (v :: table_pages pgdir D) (kmem_mem k) m2.
Proof.
  intros Hk H Ha Ht. pose proof H as [Hs He Hp Hi]. destruct (Hp a v fl Ha) as ([Hpa Hku] & Hgv & Hfl & Hodd & Hvl & Hvt).
  destruct (sp_table _ _ _ _ _ _ Hs _ t Ht) as (Hix & Hgt & Htp & Htl).
  assert (Htt : t ∈ table_pages pgdir D) by (apply elem_table_pages; right; by exists (PDX a)).
  destruct (kfree_ok kernel_end v k l Hk Hgv Hvl) as (k1 & E1 & Hk1 & _ & Hm1). exists k1. split; [done|]. intros m2.
  assert (Hs1 : same_but [v] (kmem_mem k) (kmem_mem k1)).
  { intros x Hx. apply Hm1. specialize (Hx v ltac:(left)). unfold in_page in Hx. lia. }
  assert (Hs2 : same_but [t] (kmem_mem k1) m2) by (apply same_but_word with kernel_end; [done|apply PTX_range, Hpa]).
  assert (Hgood : forall p, p ∈ [v] -> good_page p) by (by intros p ->%list_elem_of_singleton).
  assert (Hsp1 : space (kmem_mem k1) (v :: l) pgdir D E).
  { apply (space_frame kernel_end (kmem_mem k) _ l _ _ _ _ [v]); [done..|]. intros p Hpt.
    destruct (table_pages_good kernel_end _ _ _ _ _ p Hs Hpt) as [_ Hpl].
    assert (p <> v) by (intros ->; done). split; [by rewrite list_elem_of_singleton|by apply not_elem_of_cons]. }
  split; [|split].
  - apply (kmem_frame kernel_end k1 (v :: l) [t]); [done|done|]. intros p ->%list_elem_of_singleton. split; [done|].
    apply not_elem_of_cons. split; [by intros ->|done].
  - constructor.
    + apply space_store; [done|done|done|unfold is_u32; lia].
    + intros b Hb. unfold upd_entry. destruct (decide (b = a)) as [->|Hne]; [by rewrite lookup_delete_eq|].
      rewrite lookup_delete_ne by done. by apply He.
    + intros b w fb Hb. apply lookup_delete_Some in Hb as [Hne Hb]. destruct (Hp b w fb Hb) as (? & ? & ? & ? & ? & ?).
      repeat (split; [done|]). split; [|done]. apply not_elem_of_cons. split; [|done]. intros ->. apply Hne. by eapply Hi.
    + intros b c w f1 f2 Hb Hc. apply lookup_delete_Some in Hb as [_ Hb], Hc as [_ Hc]. by eapply Hi.
  - eapply same_but_trans; [eapply same_but_weaken; [|exact Hs1]|eapply same_but_weaken; [|exact Hs2]];
      intros p ->%list_elem_of_singleton; [left|by right].
Qed.

Lemma next_dir a : 0 <= a < KERNBASE ->
  u32 (u32 (PGADDR (PDX a + 1) 0 0 - PGSIZE) + PGSIZE) = (PDX a + 1) * 2 ^ 22.
Proof.
  intros Ha. change KERNBASE with (2 ^ 31) in Ha. assert (HP : 0 <= PDX a < 512) by (rewrite PDX_eq by lia; lia).
  unfold PGADDR. rewrite Z.shiftl_0_l, Z.lor_0_r, Z.lor_0_r, Z.shiftl_mul_pow2 by lia.
  rewrite (u32_id ((PDX a + 1) * 2 ^ 22)) by lia. unfold PGSIZE.
  rewrite (u32_id ((PDX a + 1) * 2 ^ 22 - 4096)) by lia. rewrite Z.sub_add. apply u32_id. lia.
Qed.

(** Below a directory entry without a table nothing is mapped. *)
Lemma uspace_no_table m l pgdir D E U a b : uspace m l pgdir D E U -> user_addr a -> user_addr b -> D !! PDX a = None ->
  a <= b < (PDX a + 1) * 2 ^ 22 -> U !! b = None.
Proof.
  intros H [[Ha _] _] Hb HD Hab. destruct (U !! b) as [[v fl]|] eqn:Eb; [|done]. exfalso.
  pose proof (us_entry _ _ _ _ _ _ H b Hb) as He. rewrite Eb in He. destruct (us_page _ _ _ _ _ _ H b v fl Eb) as (_ & Hg & Hf & Ho & _).
  pose proof (sp_entry _ _ _ _ _ _ (us_space _ _ _ _ _ _ H) b (proj1 Hb)) as Hen. unfold entry in Hen.
  assert (Hpb : PDX b = PDX a) by (destruct Hb as [[Hb _] _]; rewrite PDX_eq in Hab by lia; rewrite !PDX_eq by lia; lia).
  rewrite Hpb, HD, He in Hen. destruct (pte_of_fields kernel_end v fl Hg Hf) as (_ & _ & Hpr & _). rewrite <- Hen, Ho in Hpr. done.
Qed.

(** The loop steps over such an entry. *)
Lemma uspace_skip m l pgdir D E U a hi : uspace m l pgdir D E U -> user_addr a -> D !! PDX a = None -> hi <= KERNBASE ->
  let a' := (PDX a + 1) * 2 ^ 22 in
  page_addr a' /\ a < a' /\ cut a hi U = cut a' hi U /\ part a hi U = part a' hi U.
Proof.
  intros H Hua HD Hhi a'. assert (Ha' : page_addr a' /\ a < a').
  { destruct Hua as [[H1 H2] H3]. unfold page_addr, a'. rewrite PDX_eq by lia. change KERNBASE with (2 ^ 31) in H3. lia. }
  destruct Ha' as [Hpa' Hlt']. split; [done|]. split; [done|].
  assert (Hnone : forall b, a <= b < a' -> U !! b = None).
  { intros b Hb. destruct (U !! b) as [[v fl]|] eqn:Eb; [|done]. destruct (us_page _ _ _ _ _ _ H b v fl Eb) as (Hub & _).
    rewrite <- Eb. by apply (uspace_no_table _ _ _ _ _ _ a b H). }
  split; apply map_eq; intros b; [rewrite !cut_lookup|rewrite !part_lookup]; repeat case_decide; try done; try lia;
    rewrite Hnone; (done || lia).
Qed.

Lemma deallocuvm_loop_ok pgdir D oldsz fuel : forall k l E U a,
  kmem_ok k l -> uspace (kmem_mem k) l pgdir D E U -> page_addr a -> 0 <= oldsz <= KERNBASE -> oldsz - a <= 4096 * Z.of_nat fuel ->
  exists k' l' E', deallocuvm_loop kernel_end pgdir a oldsz fuel k = Ret tt k' /\ kmem_ok k' l' /\
    uspace (kmem_mem k') l' pgdir D E' (cut a oldsz U) /\ l' ≡ₚ user_pages (part a oldsz U) ++ l /\
    (forall b, KERNBASE <= b -> E' b = E b) /\
    same_but (table_pages pgdir D ++ user_pages (part a oldsz U)) (kmem_mem k) (kmem_mem k').
Proof using Hend.
  induction fuel as [|fuel IH]; intros k l E U a Hk H Ha Hsz Hfuel; cbn [deallocuvm_loop].
  all: destruct (Z.ltb_spec a oldsz) as [Hlt|Hge]; [|
    assert (Hcut : cut a oldsz U = U) by (apply map_eq; intros b; rewrite cut_lookup; by rewrite decide_False by lia);
    assert (Hpart : part a oldsz U = ∅) by (apply map_eq; intros b; rewrite part_lookup, lookup_empty; by rewrite decide_False by lia);
    exists k, l, E; rewrite Hcut, Hpart; split; [done|]; split; [done|]; split; [done|]; split; [done|]; split; [done|apply same_but_refl]].
  { lia. }
  assert (Hua : user_addr a) by (split; [done|lia]).
  unfold mbind at 1, M_bind at 1. rewrite (walk_lookup kernel_end k l pgdir D E a (us_space _ _ _ _ _ _ H) Ha).
  destruct (D !! PDX a) as [t|] eqn:Et.
  2: { rewrite Z.eqb_refl, next_dir by (destruct Ha; lia).
       destruct (uspace_skip _ _ _ _ _ _ a oldsz H Hua Et ltac:(lia)) as (Hpa' & Hlt' & -> & ->).
       apply (IH k l E U _ Hk H Hpa' Hsz). destruct Ha, Hpa'. lia. }
  destruct (sp_table _ _ _ _ _ _ (us_space _ _ _ _ _ _ H) _ t Et) as (_ & Hgt & _).
  rewrite (proj2 (Z.eqb_neq (t + 4 * PTX a) 0)) by (pose proof (PTX_range a ltac:(apply Ha)); unfold Kalloc.good_page, KERNBASE in Hgt; lia).
  unfold lw, gets, mbind at 1, M_bind at 1.
  assert (He : mget32 (kmem_mem k) (t + 4 * PTX a) = E a).
  { rewrite <- (sp_entry _ _ _ _ _ _ (us_space _ _ _ _ _ _ H) a Ha). unfold entry. by rewrite Et. }
  rewrite He. pose proof (us_entry _ _ _ _ _ _ H a Hua) as Hen.
  assert (Hnext : page_addr (a + 4096)) by (destruct Ha; split; [unfold KERNBASE in *; lia|lia]).
  rewrite (u32_id (a + PGSIZE)) by (destruct Hnext; unfold PGSIZE; lia). change PGSIZE with 4096.
  destruct (U !! a) as [[v fl]|] eqn:EU.
  - destruct (us_page _ _ _ _ _ _ H a v fl EU) as (_ & Hgv & Hfl & Hodd & Hvl & Hvt).
    destruct (pte_of_fields kernel_end v fl Hgv Hfl) as (Hadd & _ & Hpres & _). rewrite Hen, Hpres, Hodd, Hadd. cbv zeta.
    destruct (V2P_good kernel_end v Hgv) as (HV & HV2 & _). unfold when.
    rewrite (proj2 (Z.eqb_neq (V2P v) 0)) by (rewrite HV; unfold Kalloc.good_page in Hgv; lia). rewrite (P2V_V2P kernel_end v Hgv).
    destruct (free_user_page k l pgdir D E U a v fl t Hk H EU Et) as (k1 & E1 & Hk2 & H2 & Hs2). set (m2 := mset32 _ _ _) in *.
    unfold mbind at 1, M_bind at 1. unfold mbind at 1, M_bind at 1. rewrite E1. unfold sw, set_mem, modify. fold m2. change (mkKmem m2 _ _ _) with (with_mem m2 k1).
    destruct (IH (with_mem m2 k1) (v :: l) (upd_entry E a 0) (delete a U) (a + 4096) Hk2 H2 Hnext Hsz) as (k' & l' & E' & Hrun & Hk' & H' & Hl' & HE' & Hs'); [lia|].
    destruct (uspace_cut_some _ _ _ _ _ _ a v fl oldsz H EU Ha Hlt) as [Hdel Hpart].
    exists k', l', E'. rewrite Hdel. split; [exact Hrun|]. split; [done|]. split; [done|].
    split; [rewrite Hl', Hpart; cbn [app]; by rewrite Permutation_middle|]. split.
    { intros b Hb. rewrite HE' by done. unfold upd_entry. rewrite decide_False by lia. done. }
    eapply same_but_trans; [eapply same_but_weaken; [|exact Hs2]|eapply same_but_weaken; [|exact Hs']]; intros p; rewrite !elem_of_app, Hpart, !elem_of_cons; tauto.
  - rewrite Hen. destruct (uspace_cut_none _ _ _ _ _ _ a oldsz H EU Ha) as [-> ->].
    apply (IH k l E U (a + 4096) Hk H Hnext Hsz). lia.
Qed.

Lemma PGROUNDUP_page sz : 0 <= sz <= KERNBASE -> page_addr (PGROUNDUP sz) /\ sz <= PGROUNDUP sz < sz + 4096.
Proof.
  intros H. unfold KERNBASE in H. rewrite PGROUNDUP_spec by (unfold PGSIZE; lia). unfold page_addr, PGSIZE. lia.
Qed.

Lemma deallocuvm_ok pgdir D k l E U oldsz newsz :
  kmem_ok k l -> uspace (kmem_mem k) l pgdir D E U -> 0 <= newsz < oldsz -> oldsz <= KERNBASE ->
  let a := PGROUNDUP newsz in
  exists k' l' E', deallocuvm kernel_end pgdir oldsz newsz k = Ret newsz k' /\ kmem_ok k' l' /\
    uspace (kmem_mem k') l' pgdir D E' (cut a oldsz U) /\ l' ≡ₚ user_pages (part a oldsz U) ++ l /\
    (forall b, KERNBASE <= b -> E' b = E b) /\
    same_but (table_pages pgdir D ++ user_pages (part a oldsz U)) (kmem_mem k) (kmem_mem k').
Proof using Hend.
  intros Hk H Hn Ho a. unfold deallocuvm. rewrite (proj2 (Z.leb_gt oldsz newsz)) by lia. fold a.
  destruct (PGROUNDUP_page newsz) as [Hpa _]; [lia|]. fold a in Hpa.
  destruct (deallocuvm_loop_ok pgdir D oldsz (Z.to_nat ((oldsz - a) / PGSIZE + 1)) k l E U a Hk H Hpa) as (k' & l' & E' & Hrun & Hrest);
    [lia|unfold PGSIZE; lia|]. exists k', l', E'. unfold mbind, M_bind. by rewrite Hrun.
Qed.

(** ** Mapping a page *)

Lemma mappages_page pgdir D k l E a pa perm :
  kmem_ok k l -> space (kmem_mem k) l pgdir D E -> page_addr a -> 0 <= pa -> pa mod 4096 = 0 -> pa + 4096 <= 2 ^ 32 ->
  0 <= perm < 4096 -> present (E a) = false ->
  exists k' l' D' r, mappages pgdir a PGSIZE pa perm k = Ret r k' /\ kmem_ok k' l' /\ grown pgdir l D l' D' /\
    same_but (table_pages pgdir D') (kmem_mem k) (kmem_mem k') /\
    (r = 0 /\ space (kmem_mem k') l' pgdir D' (upd_entry E a (Z.lor (Z.lor pa perm) PTE_P)) \/
     r = -1 /\ l' = [] /\ space (kmem_mem k') l' pgdir D' E).
Proof.
  intros Hk H Ha Hpa Hal Hpe Hperm Hpres. pose proof Ha as [Ha1 Ha2]. unfold mappages.
  assert (PGROUNDDOWN a = a) as -> by (rewrite PGROUNDDOWN_eq by done; unfold PGSIZE; lia).
  assert (PGROUNDDOWN (u32 (a + PGSIZE - 1)) = a) as ->.
  { rewrite u32_id by (unfold PGSIZE; lia). rewrite PGROUNDDOWN_eq by (unfold is_u32, PGSIZE; lia). unfold PGSIZE. lia. }
  rewrite Z.sub_diag. change (Z.to_nat (u32 0 / PGSIZE)) with 0%nat.
  destruct (mappages_loop_ok kernel_end pgdir perm 0 k l D E a pa a 1 Hk H Ha) as (k' & l' & D' & r & j & Hrun & Hk' & H' & Hg & Hs & Hr); try (done || lia).
  { intros b [Hb Hb'] Hr. assert (b = a) as -> by lia. done. }
  exists k', l', D', r. split; [done|]. split; [done|]. split; [done|]. split; [done|]. destruct Hr as [[-> ->]|(-> & Hj & Hl)].
  - left. split; [done|]. eapply space_ext; [|exact H']. intros b [Hb Hb']. unfold map_range, upd_entry.
    destruct (decide (b = a)) as [->|Hne]; [by rewrite decide_True, Z.sub_diag, Z.add_0_r by lia|]. by rewrite decide_False by lia.
  - right. split; [done|]. split; [done|]. assert (j = 0)%nat as -> by lia.
    eapply space_ext; [|exact H']. intros b Hb. unfold map_range. by rewrite decide_False by lia.
Qed.

Lemma grown_elem pgdir l D l' D' p : grown pgdir l D l' D' -> p ∈ table_pages pgdir D' -> p ∈ table_pages pgdir D \/ p ∈ l.
Proof. intros (new & -> & P & _) Hp. rewrite P, elem_of_app in Hp. rewrite elem_of_app. tauto. Qed.
Lemma grown_free pgdir l D l' D' p : grown pgdir l D l' D' -> p ∈ l' -> p ∈ l.
Proof. intros (new & -> & _) Hp. apply elem_of_app. by right. Qed.

(** The user memory is not concerned when tables are added. *)
Lemma uspace_grown m m' l l' pgdir D D' E U :
  uspace m l pgdir D E U -> space m' l' pgdir D' E -> grown pgdir l D l' D' -> uspace m' l' pgdir D' E U.
Proof.
  intros [H1 H2 H3 H4] H' Hg. constructor; [done|done| |done]. intros a v fl Ha.
  destruct (H3 a v fl Ha) as (? & ? & ? & ? & Hn & Ht). repeat (split; [done|]). split.
  - intros Hin. apply Hn. by eapply grown_free.
  - intros Hin. destruct (grown_elem _ _ _ _ _ _ Hg Hin); done.
Qed.

(** The entry that the user's page has in its table. *)
Lemma user_table k l pgdir D E U a v fl :
  uspace (kmem_mem k) l pgdir D E U -> U !! a = Some (v, fl) ->
  exists t, D !! PDX a = Some t /\ walkpgdir pgdir a false k = Ret (t + 4 * PTX a) k /\ (t + 4 * PTX a =? 0) = false /\
    mget32 (kmem_mem k) (t + 4 * PTX a) = pte_of v fl.
Proof.
  intros H HU. destruct (us_page _ _ _ _ _ _ H a v fl HU) as (Hua & Hv & Hfl & Hodd & _). pose proof (us_space _ _ _ _ _ _ H) as Hsp.
  pose proof Hua as [Ha _]. pose proof (us_entry _ _ _ _ _ _ H a Hua) as He. rewrite HU in He.
  pose proof (sp_entry _ _ _ _ _ _ Hsp a Ha) as Hen. rewrite He in Hen. unfold entry in Hen.
  rewrite (walk_lookup kernel_end k l pgdir D E a Hsp Ha). destruct (D !! PDX a) as [t|] eqn:Et.
  - exists t. split; [done|]. split; [done|]. split; [|done].
    destruct (sp_table _ _ _ _ _ _ Hsp _ t Et) as (_ & Hg & _). destruct (good_page_bounds _ t Hg) as (? & _ & ?).
    pose proof (PTX_range a ltac:(destruct Ha; lia)). apply Z.eqb_neq. lia.
  - exfalso. destruct (pte_of_fields kernel_end v fl Hv Hfl) as (_ & _ & F3 & _). rewrite <- Hen, Hodd in F3. done.
Qed.

(** One more page. *)
Lemma uspace_map m m' l l' pgdir D D' E U a v fl :
  uspace m l pgdir D E U -> grown pgdir l D l' D' -> user_addr a -> U !! a = None -> good_page v -> v ∉ l -> v ∉ space_pages pgdir D U ->
  0 <= fl < 4096 -> Z.odd fl = true -> space m' l' pgdir D' (upd_entry E a (pte_of v fl)) ->
  uspace m' l' pgdir D' (upd_entry E a (pte_of v fl)) (<[a := (v, fl)]> U).
Proof.
  intros [H1 H2 H3 H4] Hg Ha HU Hv Hvl Hvp Hfl Hodd H'. unfold space_pages in Hvp. rewrite elem_of_app, elem_user_pages in Hvp.
  constructor; [done| | |].
  - intros b Hb. unfold upd_entry. case_decide as Eb; [subst b; by rewrite lookup_insert_eq|].
    rewrite lookup_insert_ne by done. by apply H2.
  - intros b w fw. destruct (decide (b = a)) as [->|Hne].
    + rewrite lookup_insert_eq. intros [= <- <-]. repeat (split; [done|]). split; [intros Hin; apply Hvl; by eapply grown_free|].
      intros Hin. destruct (grown_elem _ _ _ _ _ _ Hg Hin); tauto.
    + rewrite lookup_insert_ne by done. intros Hb. destruct (H3 b w fw Hb) as (? & ? & ? & ? & Hn & Ht). repeat (split; [done|]). split.
      * intros Hin. apply Hn. by eapply grown_free.
      * intros Hin. destruct (grown_elem _ _ _ _ _ _ Hg Hin); done.
  - intros b c w f1 f2. destruct (decide (b = a)) as [->|Hb], (decide (c = a)) as [->|Hc]; [done| | |];
      rewrite ?lookup_insert_eq, ?lookup_insert_ne by done.
    + intros [= <- <-] Hc'. exfalso. apply Hvp. right. by exists c, f2.
    + intros Hb' [= <- <-]. exfalso. apply Hvp. right. by exists b, f1.
    + apply H4.
Qed.

(** ** [allocuvm] *)

Section Alloc.
(** The space before the call, with no pages between [lo] and [top]. *)
Context (m0 : mem) (l0 : list Z) (pgdir : Z) (D0 : gmap Z Z) (E0 : Z -> Z) (U0 : umap) (lo : Z).

Definition zero_page (m : mem) (v : Z) : Prop := forall x, in_page v x -> m x = 0.

(** New zeroed pages from [lo] up to [hi]. *)
Record allocated (hi : Z) (m : mem) (l : list Z) (D : gmap Z Z) (E : Z -> Z) (U : umap) : Prop := {
  al_user : uspace m l pgdir D E U;
  al_pages : l ++ space_pages pgdir D U ≡ₚ l0 ++ space_pages pgdir D0 U0;
  al_frame : same_but (l0 ++ table_pages pgdir D0) m0 m;
  al_tables : D0 ⊆ D;
  al_table p : p ∈ table_pages pgdir D -> p ∈ l0 ++ table_pages pgdir D0;
  al_free p : p ∈ l -> p ∈ l0;
  al_kern b : KERNBASE <= b -> E b = E0 b;
  al_old b : ~ (lo <= b < hi) -> U !! b = U0 !! b;
  al_new b : page_addr b -> lo <= b < hi -> exists v, U !! b = Some (v, 7) /\ v ∈ l0 /\ zero_page m v
}.

(** The tables grow. *)
Lemma allocated_grow hi m l D E U m' l' D' :
  allocated hi m l D E U -> space m' l' pgdir D' E -> grown pgdir l D l' D' -> same_but (table_pages pgdir D') m m' ->
  allocated hi m' l' D' E U.
Proof.
  intros [H1 H2 H3 H4 H5 H6 H7 H8 H9] Hsp Hg Hs. pose proof Hg as (new & El & Hp & Hsub). subst l.
  assert (Htab : forall p, p ∈ table_pages pgdir D' -> p ∈ l0 ++ table_pages pgdir D0).
  { intros p Hpt. destruct (grown_elem _ _ _ _ _ _ Hg Hpt) as [Hq|Hq]; [by apply H5|]. apply elem_of_app. left. by apply H6. }
  constructor.
  - by eapply uspace_grown.
  - rewrite <- H2. unfold space_pages. rewrite Hp. clear. rewrite !app_assoc. f_equiv. f_equiv. apply Permutation_app_comm.
  - eapply same_but_trans; [done|]. eapply same_but_weaken; [|done]. done.
  - by etrans.
  - done.
  - intros p Hpl. apply H6. apply elem_of_app. by right.
  - done.
  - done.
  - intros b Hb Hr. destruct (H9 b Hb Hr) as (v & Hv & Hv0 & Hz). exists v. split; [done|]. split; [done|].
    intros x Hx. rewrite <- (Hz x Hx). apply Hs. intros q Hq Hqx.
    destruct (us_page _ _ _ _ _ _ H1 b v 7 Hv) as (_ & Hgv & _ & _ & Hvl & Hvt).
    assert (Hqv : q <> v) by (intros ->; destruct (grown_elem _ _ _ _ _ _ Hg Hq); done).
    destruct (table_pages_good kernel_end _ _ _ _ _ q Hsp Hq) as [Hgq _].
    destruct (pages_disjoint _ q v Hgq Hgv Hqv); unfold in_page in *; lia.
Qed.

(** A page is taken from the free list and filled with zeros. *)
Lemma allocated_take hi m l D E U v :
  allocated hi m (v :: l) D E U -> good_page v -> v ∉ l ->
  let m1 := memset v 0 PGSIZE m in
  space m1 l pgdir D E /\ uspace m1 l pgdir D E U /\ same_but [v] m m1 /\ zero_page m1 v /\
  v ∉ space_pages pgdir D U /\ v ∈ l0 /\
  (forall b w, U !! b = Some (w, 7) -> zero_page m w -> zero_page m1 w).
Proof.
  intros H Hv Hvl m1. destruct (good_page_bounds _ v Hv) as (Hv0 & Hv1 & _).
  assert (Hs : same_but [v] m m1).
  { intros x Hx. unfold m1. rewrite memset_spec by (unfold PGSIZE in *; lia). specialize (Hx v ltac:(left)). unfold in_page in Hx. by rewrite decide_False. }
  assert (Hn : v ∉ space_pages pgdir D U).
  { intros Hin. destruct (space_pages_good _ _ _ _ _ _ v (al_user _ _ _ _ _ _ H) Hin) as [_ Hl]. apply Hl. left. }
  assert (Hu : uspace m1 l pgdir D E U).
  { apply (uspace_frame m m1 (v :: l) l pgdir D E U [v]); [apply H|done|by intros p ->%list_elem_of_singleton| |].
    - intros p Hp. rewrite list_elem_of_singleton. intros ->. apply Hn. apply elem_of_app. by left.
    - intros p Hp. destruct (space_pages_good _ _ _ _ _ _ p (al_user _ _ _ _ _ _ H) Hp) as [_ Hl]. by apply not_elem_of_cons in Hl as [_ ?]. }
  split; [apply Hu|]. split; [done|]. split; [done|]. split; [|split; [done|split; [apply (al_free _ _ _ _ _ _ H); left|]]].
  - intros x Hx. unfold m1. rewrite memset_spec by (unfold PGSIZE in *; lia). by rewrite decide_True.
  - intros b w Hb Hz x Hx. rewrite <- (Hz x Hx). apply Hs. intros p ->%list_elem_of_singleton Hpx.
    destruct (us_page _ _ _ _ _ _ (al_user _ _ _ _ _ _ H) b w 7 Hb) as (_ & Hgw & _).
    assert (v <> w) by (intros ->; apply Hn, elem_of_app; right; apply elem_user_pages; by exists b, 7).
    destruct (pages_disjoint _ v w Hv Hgw); [done| |]; unfold in_page in *; lia.
Qed.

Lemma allocated_map hi m l D E U v m1 m2 l2 D2 :
  allocated hi m (v :: l) D E U -> good_page v -> v ∉ l -> user_addr hi -> lo <= hi -> U !! hi = None -> m1 = memset v 0 PGSIZE m ->
  grown pgdir l D l2 D2 -> same_but (table_pages pgdir D2) m1 m2 -> space m2 l2 pgdir D2 (upd_entry E hi (pte_of v 7)) ->
  allocated (hi + 4096) m2 l2 D2 (upd_entry E hi (pte_of v 7)) (<[hi := (v, 7)]> U).
Proof.
  intros H Hv Hvl Hhi Hlo HU -> Hg Hs Hsp. destruct (allocated_take _ _ _ _ _ _ _ H Hv Hvl) as (_ & Hu1 & Hsv & Hzv & Hvn & Hv0 & Hzw).
  set (m1 := memset v 0 PGSIZE m) in *. pose proof H as [H1 H2 H3 H4 H5 H6 H7 H8 H9].
  assert (Htab : forall p, p ∈ table_pages pgdir D2 -> p ∈ l0 ++ table_pages pgdir D0).
  { intros p Hpt. destruct (grown_elem _ _ _ _ _ _ Hg Hpt) as [Hq|Hq]; [by apply H5|]. apply elem_of_app. left. apply H6. by right. }
  assert (Hkeep : forall w, w ∉ table_pages pgdir D2 -> good_page w -> zero_page m1 w -> zero_page m2 w).
  { intros w Hw Hgw Hz x Hx. rewrite <- (Hz x Hx). apply Hs. intros q Hq Hqx. assert (q <> w) by (intros ->; done).
    destruct (table_pages_good kernel_end _ _ _ _ _ q Hsp Hq) as [Hgq _].
    destruct (pages_disjoint _ q w Hgq Hgw); [done| |]; unfold in_page in *; lia. }
  assert (HU2 : uspace m2 l2 pgdir D2 (upd_entry E hi (pte_of v 7)) (<[hi := (v, 7)]> U)).
  { apply (uspace_map m1 m2 l l2 pgdir D D2 E U hi v 7); (done || lia). }
  constructor.
  - done.
  - rewrite <- H2. pose proof Hg as (new & -> & Hp & _). unfold space_pages. rewrite Hp, user_pages_insert by done. clear. solve_Permutation.
  - eapply same_but_trans; [exact H3|]. eapply same_but_trans; [eapply same_but_weaken; [|exact Hsv]|eapply same_but_weaken; [|exact Hs]].
    + intros p ->%list_elem_of_singleton. apply elem_of_app. by left.
    + done.
  - destruct Hg as (_ & _ & _ & ?). by etrans.
  - done.
  - intros p Hpl. apply H6. right. by eapply grown_free.
  - intros b Hb. unfold upd_entry. rewrite decide_False by (destruct Hhi; lia). by apply H7.
  - intros b Hb. rewrite lookup_insert_ne by lia. apply H8. lia.
  - intros b Hb Hr. destruct (decide (b = hi)) as [->|Hne].
    + exists v. rewrite lookup_insert_eq. split; [done|]. split; [done|].
      apply Hkeep; [|done|done]. by apply (us_page _ _ _ _ _ _ HU2 hi v 7), lookup_insert_eq.
    + rewrite lookup_insert_ne by done. destruct (H9 b Hb) as (w & Hw & Hw0 & Hz); [destruct Hb, Hhi as [[? ?] ?]; lia|].
      exists w. split; [done|]. split; [done|]. destruct (us_page _ _ _ _ _ _ H1 b w 7 Hw) as (_ & Hgw & _).
      apply Hkeep; [|done|by eapply Hzw]. apply (us_page _ _ _ _ _ _ HU2 b w 7). by rewrite lookup_insert_ne.
Qed.
End Alloc.
End User.
