(* ===== verification/VmOps.v ===== *)
(** * Growing, freeing and building address spaces

    [allocuvm], [freevm] and [setupkvm] of [vm.c]. *)
From stdpp Require Import gmap.
From S2P Require Import Prelude Cstring Kalloc Vm VmSpace VmUser.
Local Open Scope Z_scope.

#[local] Opaque memset memmove kfree kalloc.

Section Ops.
Context (kernel_end : Z) (Hend : KERNBASE < kernel_end).
Notation good_page := (good_page kernel_end).
Notation kmem_ok := (kmem_ok kernel_end).
Notation space := (space kernel_end).
Notation uspace := (uspace kernel_end).

Section Alloc.
Context (m0 : mem) (l0 : list Z) (pgdir : Z) (D0 : gmap Z Z) (E0 : Z -> Z) (U0 : umap) (oldsz newsz : Z).
Context (Hsz : 0 <= oldsz <= newsz) (Htop : newsz < KERNBASE).
Notation lo := (PGROUNDUP oldsz).
Notation allocated := (allocated kernel_end m0 l0 pgdir D0 E0 U0 lo).
(** Nothing is mapped beyond the old size. *)
Context (HU0 : forall b, lo <= b < newsz -> U0 !! b = None).

Lemma cut_back hi m l D E U : allocated hi m l D E U -> hi <= newsz -> cut lo newsz U = U0.
Proof using HU0.
  intros H Hhi. apply map_eq. intros b. rewrite cut_lookup. case_decide as Hb; [symmetry; by apply HU0|].
  apply (al_old _ _ _ _ _ _ _ _ _ _ _ _ _ _ H). lia.
Qed.

(** The new pages among those that are given back come from the free list. *)
Lemma part_new hi m l D E U p : allocated hi m l D E U -> p ∈ user_pages (part lo newsz U) -> p ∈ l0.
Proof using HU0.
  intros H Hp. apply elem_user_pages in Hp as (b & fl & Hb). rewrite part_lookup in Hb. case_decide as Hr; [|done].
  destruct (decide (lo <= b < hi)) as [Hr'|Hr'].
  - destruct (us_page _ _ _ _ _ _ _ (al_user _ _ _ _ _ _ _ _ _ _ _ _ _ _ H) b p fl Hb) as ([Hpb _] & _).
    destruct (al_new _ _ _ _ _ _ _ _ _ _ _ _ _ _ H b Hpb Hr') as (v & Hv & Hv0 & _). congruence.
  - rewrite (al_old _ _ _ _ _ _ _ _ _ _ _ _ _ _ H b Hr'), HU0 in Hb by lia. done.
Qed.

(** [deallocuvm] after a failure undoes everything but the new tables. *)
Lemma alloc_undo hi k l D E U :
  kmem_ok k l -> allocated hi (kmem_mem k) l D E U -> oldsz < newsz -> hi <= newsz ->
  exists k' l' E', deallocuvm kernel_end pgdir newsz oldsz k = Ret oldsz k' /\ kmem_ok k' l' /\ allocated lo (kmem_mem k') l' D E' U0.
Proof using All.
  intros Hk H Hlt Hhi. pose proof H as [H1 H2 H3 H4 H5 H6 H7 H8 H9].
  destruct (deallocuvm_ok kernel_end Hend pgdir D k l E U newsz oldsz Hk H1) as (k' & l' & E' & Hrun & Hk' & Hu & Hl & HE & Hs); [lia|lia|].
  rewrite (cut_back hi _ _ _ _ _ H Hhi) in Hu. exists k', l', E'. split; [done|]. split; [done|]. constructor.
  - done.
  - rewrite <- H2, Hl. unfold space_pages. rewrite (user_pages_split lo newsz U), (cut_back hi _ _ _ _ _ H Hhi). clear. solve_Permutation.
  - eapply same_but_trans; [exact H3|]. eapply same_but_weaken; [|exact Hs]. intros p. rewrite elem_of_app.
    intros [Hp|Hp]; [by apply H5|]. apply elem_of_app. left. by eapply part_new.
  - done.
  - done.
  - intros p. rewrite Hl, elem_of_app. intros [Hp|Hp]; [by eapply part_new|by apply H6].
  - intros b Hb. rewrite HE by done. by apply H7.
  - done.
  - intros b _ Hb. lia.
Qed.

(** So it does when a page was taken and could not be mapped. *)
Lemma alloc_undo_page hi m v k l D E U D2 l2 :
  kmem_ok k l2 -> allocated hi m (v :: l) D E U -> good_page v -> v ∉ l -> grown pgdir l D l2 D2 ->
  same_but (table_pages pgdir D2) (memset v 0 PGSIZE m) (kmem_mem k) -> space (kmem_mem k) l2 pgdir D2 E -> oldsz < newsz -> hi <= newsz ->
  exists k' l' E', (deallocuvm kernel_end pgdir newsz oldsz;; kfree kernel_end v;; mret 0) k = Ret 0 k' /\ kmem_ok k' l' /\
    allocated lo (kmem_mem k') l' D2 E' U0.
Proof using All.
  intros Hk H Hv Hvl Hg Hs Hsp Hlt Hhi. destruct (allocated_take _ _ _ _ _ _ _ _ _ _ _ _ _ _ _ H Hv Hvl) as (_ & Hu1 & Hsv & _ & Hvn & Hv0 & _).
  pose proof H as [H1 H2 H3 H4 H5 H6 H7 H8 H9]. pose proof Hg as (new & El & Hperm & Hsub).
  pose proof (uspace_grown kernel_end _ _ _ _ _ _ _ _ _ Hu1 Hsp Hg) as Hu2.
  destruct (deallocuvm_ok kernel_end Hend pgdir D2 k l2 E U newsz oldsz Hk Hu2) as (k3 & l3 & E3 & Hrun & Hk3 & Hu3 & Hl3 & HE3 & Hs3); [lia|lia|].
  rewrite (cut_back hi _ _ _ _ _ H Hhi) in Hu3.
  assert (Hvl3 : v ∉ l3).
  { rewrite Hl3, elem_of_app, elem_user_pages. intros [(b & fl & Hb)|Hin]; [|apply Hvl; by eapply grown_free].
    rewrite part_lookup in Hb. case_decide; [|done]. apply Hvn, elem_of_app. right. apply elem_user_pages. by exists b, fl. }
  assert (Hvsp : v ∉ space_pages pgdir D2 U0).
  { unfold space_pages. rewrite elem_of_app, elem_user_pages, <- (cut_back hi _ _ _ _ _ H Hhi).
    intros [Hin|(b & fl & Hb)]; [destruct (grown_elem _ _ _ _ _ _ Hg Hin); [apply Hvn, elem_of_app; by left|done]|].
    rewrite cut_lookup in Hb. case_decide; [done|]. apply Hvn, elem_of_app. right. apply elem_user_pages. by exists b, fl. }
  destruct (kfree_ok kernel_end v k3 l3 Hk3 Hv Hvl3) as (k4 & E4 & Hk4 & _ & Hm4).
  assert (Hs4 : same_but [v] (kmem_mem k3) (kmem_mem k4)).
  { intros x Hx. apply Hm4. specialize (Hx v ltac:(left)). unfold in_page in Hx. lia. }
  assert (Htab : forall p, p ∈ table_pages pgdir D2 -> p ∈ l0 ++ table_pages pgdir D0).
  { intros p Hpt. destruct (grown_elem _ _ _ _ _ _ Hg Hpt) as [Hq|Hq]; [by apply H5|]. apply elem_of_app. left. apply H6. by right. }
  exists k4, (v :: l3), E3. split; [unfold mbind, M_bind; by rewrite Hrun, E4|]. split; [done|]. constructor.
  - apply (uspace_frame kernel_end (kmem_mem k3) _ l3 _ pgdir D2 E3 U0 [v]); [done|done|by intros p ->%list_elem_of_singleton| |].
    + intros p Hp. rewrite list_elem_of_singleton. intros ->. apply Hvsp, elem_of_app. by left.
    + intros p Hp. apply not_elem_of_cons. split; [by intros ->|]. by apply (space_pages_good kernel_end _ _ _ _ _ _ p Hu3).
  - rewrite <- H2, Hl3. subst l. unfold space_pages. rewrite Hperm, (user_pages_split lo newsz U), (cut_back hi _ _ _ _ _ H Hhi). clear. solve_Permutation.
  - eapply same_but_trans; [exact H3|]. eapply same_but_trans; [eapply same_but_weaken; [|exact Hsv]|
      eapply same_but_trans; [eapply same_but_weaken; [|exact Hs]|eapply same_but_trans; [eapply same_but_weaken; [|exact Hs3]|eapply same_but_weaken; [|exact Hs4]]]];
      [intros p ->%list_elem_of_singleton; apply elem_of_app; by left|exact Htab| |intros p ->%list_elem_of_singleton; apply elem_of_app; by left].
    intros p. rewrite elem_of_app. intros [Hp|Hp]; [by apply Htab|]. apply elem_of_app. left. by eapply part_new.
  - by etrans.
  - done.
  - intros p. rewrite elem_of_cons, Hl3, elem_of_app. intros [->|[Hp|Hp]]; [done|by eapply part_new|]. apply H6. right. by eapply grown_free.
  - intros b Hb. rewrite HE3 by done. by apply H7.
  - done.
  - intros b _ Hb. lia.
Qed.

(** The new pages up to [newsz], or the old ones. *)
Definition alloc_result (r : Z) (m : mem) (l : list Z) (D : gmap Z Z) (E : Z -> Z) (U : umap) : Prop :=
  r = newsz /\ allocated (PGROUNDUP newsz) m l D E U \/ r = 0 /\ U = U0 /\ allocated lo m l D E U.

Lemma allocuvm_loop_ok fuel : forall k l D E U a,
  kmem_ok k l -> allocated a (kmem_mem k) l D E U -> page_addr a -> lo <= a <= PGROUNDUP newsz -> newsz - a <= 4096 * Z.of_nat fuel ->
  exists k' l' D' E' U' r, allocuvm_loop kernel_end pgdir oldsz newsz a fuel k = Ret r k' /\ kmem_ok k' l' /\
    alloc_result r (kmem_mem k') l' D' E' U'.
Proof using All.
  destruct (PGROUNDUP_page newsz) as [[Hn1 Hn2] Hn3]; [lia|].
  induction fuel as [|fuel IH]; intros k l D E U a Hk H Ha Hlo Hfuel; cbn [allocuvm_loop].
  all: destruct (Z.ltb_spec a newsz) as [Hlt|Hge]; [|
    assert (a = PGROUNDUP newsz) as -> by (destruct Ha; lia); exists k, l, D, E, U, newsz; split; [done|]; split; [done|by left]].
  { lia. }
  assert (Hold : oldsz < newsz) by (destruct (PGROUNDUP_page oldsz); lia).
  destruct (kalloc_ok kernel_end k l Hk) as (k1 & E1 & Hk1 & _ & Hm1). unfold mbind at 1, M_bind at 1. rewrite E1.
  destruct l as [|v l].
  { rewrite Z.eqb_refl. rewrite <- Hm1 in H. destruct (alloc_undo a k1 [] D E U Hk1 H Hold) as (k' & l' & E' & Hrun & Hk' & H'); [lia|].
    unfold mbind, M_bind. rewrite Hrun. exists k', l', D, E', U0, 0. split; [done|]. split; [done|]. by right. }
  assert (Hv : good_page v) by (apply (ok_pages _ _ _ Hk); left).
  assert (Hvl : v ∉ l) by (pose proof (ok_nodup _ _ _ Hk) as Hn; by apply NoDup_cons in Hn as [? _]).
  destruct (good_page_bounds _ v Hv) as (Hv0 & _ & Hvn). apply Z.eqb_neq in Hvn. rewrite Hvn.
  cbn [tail] in Hk1. unfold mbind at 1, M_bind at 1, set_mem, modify. rewrite Hm1. set (m1 := memset v 0 PGSIZE (kmem_mem k)).
  destruct (allocated_take _ _ _ _ _ _ _ _ _ _ _ _ _ _ _ H Hv Hvl) as (Hsp1 & Hu1 & Hsv & _ & Hvsp & _). fold m1 in Hsp1, Hu1, Hsv.
  assert (Hk1' : kmem_ok (with_mem m1 k1) l).
  { apply (kmem_frame kernel_end k1 l [v]); [done|by rewrite Hm1|by intros p ->%list_elem_of_singleton]. }
  change (mkKmem m1 _ _ _) with (with_mem m1 k1).
  assert (HUa : U !! a = None) by (rewrite (al_old _ _ _ _ _ _ _ _ _ _ _ _ _ _ H) by lia; apply HU0; lia).
  assert (Hua : user_addr a) by (split; [done|lia]).
  destruct (V2P_good kernel_end v Hv) as (_ & HV & HVal). unfold PHYSTOP in HV.
  pose proof (us_entry _ _ _ _ _ _ _ Hu1 a Hua) as Hpres. rewrite HUa in Hpres.
  destruct (mappages_page kernel_end pgdir D (with_mem m1 k1) l E a (V2P v) (Z.lor PTE_W PTE_U) Hk1' Hsp1 Ha) as (k2 & l2 & D2 & r & Hrun & Hk2 & Hg & Hs2 & Hr);
    [lia|done|lia|done|done|].
  unfold mbind at 1, M_bind at 1. rewrite Hrun. cbn [kmem_mem with_mem] in Hs2. destruct Hr as [[-> Hsp2]|(-> & -> & Hsp2)].
  - change (0 <? 0) with false. cbv iota. rewrite <- Z.lor_assoc in Hsp2.
    pose proof (allocated_map _ _ _ _ _ _ _ _ _ _ _ _ _ _ _ m1 (kmem_mem k2) l2 D2 H Hv Hvl Hua ltac:(lia) HUa eq_refl Hg Hs2 Hsp2) as H2.
    rewrite u32_id by (destruct Ha; unfold PGSIZE, KERNBASE in *; lia). change PGSIZE with 4096.
    apply (IH k2 l2 D2 _ _ (a + 4096) Hk2 H2); [destruct Ha; split; unfold KERNBASE in *; lia|destruct Ha; lia|lia].
  - change (-1 <? 0) with true. cbv iota.
    destruct (alloc_undo_page a (kmem_mem k) v k2 l D E U D2 [] Hk2 H Hv Hvl Hg Hs2 Hsp2 Hold) as (k' & l' & E' & Hrun' & Hk' & H'); [lia|].
    rewrite Hrun'. exists k', l', D2, E', U0, 0. split; [done|]. split; [done|]. by right.
Qed.
End Alloc.

(** ** [allocuvm] *)

Lemma allocated_refl m l pgdir D E U lo : uspace m l pgdir D E U -> allocated kernel_end m l pgdir D E U lo lo m l D E U.
Proof.
  intros H. constructor; try done.
  - intros p Hp. apply elem_of_app. by right.
  - intros b _ Hb. lia.
Qed.

Lemma allocuvm_ok k l pgdir D E U oldsz newsz :
  kmem_ok k l -> uspace (kmem_mem k) l pgdir D E U -> 0 <= oldsz <= newsz -> newsz < KERNBASE ->
  (forall b, PGROUNDUP oldsz <= b < newsz -> U !! b = None) ->
  exists k' l' D' E' U' r, allocuvm kernel_end pgdir oldsz newsz k = Ret r k' /\ kmem_ok k' l' /\
    alloc_result (kmem_mem k) l pgdir D E U oldsz newsz r (kmem_mem k') l' D' E' U'.
Proof using Hend.
  intros Hk H Hsz Htop HU. unfold allocuvm. rewrite (proj2 (Z.leb_gt KERNBASE newsz)), (proj2 (Z.ltb_ge newsz oldsz)) by lia.
  destruct (PGROUNDUP_page oldsz) as [Hp1 Hp2]; [lia|]. destruct (PGROUNDUP_page newsz) as [[Hn1 Hn2] Hn3]; [lia|].
  apply (allocuvm_loop_ok (kmem_mem k) l pgdir D E U oldsz newsz Hsz Htop HU _ k l D E U (PGROUNDUP oldsz) Hk (allocated_refl _ _ _ _ _ _ _ H) Hp1);
    [destruct Hp1; lia|unfold PGSIZE; lia].
Qed.

(** ** [freevm] *)

(** The tables from directory entry [i] on. *)
Definition tables_from (i : Z) (D : gmap Z Z) : list Z := (map_to_list (filter (fun p => i <= p.1) D)).*2.

Lemma tables_from_step i D :
  tables_from i D ≡ₚ match D !! i with Some t => t :: tables_from (i + 1) D | None => tables_from (i + 1) D end.
Proof.
  unfold tables_from. destruct (D !! i) as [t|] eqn:Ei.
  - replace (filter (fun p => i <= p.1) D) with (<[i := t]> (filter (fun p => i + 1 <= p.1) D)).
    + rewrite map_to_list_insert; [done|]. apply map_lookup_filter_None. right. intros x _ Hx. cbn [fst] in Hx. lia.
    + apply map_eq. intros j. apply option_eq. intros x. rewrite lookup_insert_Some, !map_lookup_filter_Some. simpl.
      destruct (decide (i = j)) as [<-|]; [rewrite Ei; naive_solver lia|]. naive_solver lia.
  - replace (filter (fun p => i <= p.1) D) with (filter (fun p => i + 1 <= p.1) D); [done|].
    apply map_eq. intros j. apply option_eq. intros x. rewrite !map_lookup_filter_Some. simpl.
    destruct (decide (i = j)) as [<-|]; [rewrite Ei; naive_solver lia|]. naive_solver lia.
Qed.

Lemma elem_tables_from i D t : t ∈ tables_from i D <-> exists j, i <= j /\ D !! j = Some t.
Proof.
  unfold tables_from. rewrite list_elem_of_fmap. split.
  - intros ([j t'] & -> & Hj). apply elem_of_map_to_list, map_lookup_filter_Some in Hj as [? ?]. by exists j.
  - intros (j & Hij & Hj). exists (j, t). split; [done|]. apply elem_of_map_to_list, map_lookup_filter_Some. done.
Qed.

Lemma freevm_entries_ok pgdir D n : forall i k l,
  Z.of_nat i + Z.of_nat n = 1024 -> kmem_ok k l -> good_page pgdir -> pgdir ∉ l ->
  (forall j t, D !! j = Some t -> 0 <= j < 1024 /\ good_page t /\ t <> pgdir) -> (forall j j' t, D !! j = Some t -> D !! j' = Some t -> j = j') ->
  (forall j t, Z.of_nat i <= j -> D !! j = Some t -> t ∉ l) ->
  (forall j, Z.of_nat i <= j < 1024 -> mget32 (kmem_mem k) (pgdir + 4 * j) = match D !! j with Some t => pde_of t | None => 0 end) ->
  exists k' l', for_each (seq i n) (freevm_entry kernel_end pgdir) k = Ret tt k' /\ kmem_ok k' l' /\
    l' ≡ₚ tables_from (Z.of_nat i) D ++ l /\ same_but (tables_from (Z.of_nat i) D) (kmem_mem k) (kmem_mem k').
Proof.
  induction n as [|n IH]; intros i k l Hin Hk Hp Hpl HD Hinj Hfree Hdir; cbn [seq for_each].
  { exists k, l. split; [done|]. split; [done|]. split; [|apply same_but_refl].
    assert (tables_from (Z.of_nat i) D = []) as ->; [|done]. destruct (tables_from (Z.of_nat i) D) as [|t ts] eqn:Et; [done|].
    assert (Hin' : t ∈ tables_from (Z.of_nat i) D) by (rewrite Et; left). apply elem_tables_from in Hin' as (j & Hj & HDj).
    destruct (HD j t HDj) as [? _]. lia. }
  unfold mbind at 1, M_bind at 1. unfold freevm_entry, lw, gets, mbind at 1, M_bind at 1. rewrite (Hdir (Z.of_nat i)) by lia.
  pose proof (tables_from_step (Z.of_nat i) D) as Hstep. replace (Z.of_nat i + 1) with (Z.of_nat (S i)) in Hstep by lia.
  destruct (D !! Z.of_nat i) as [t|] eqn:Et.
  - destruct (HD _ t Et) as (_ & Hgt & Htp). destruct (pde_of_fields kernel_end t Hgt) as (-> & -> & _). unfold when.
    destruct (kfree_ok kernel_end t k l Hk Hgt (Hfree (Z.of_nat i) t (Z.le_refl _) Et)) as (k1 & -> & Hk1 & _ & Hm1).
    assert (Hs1 : same_but [t] (kmem_mem k) (kmem_mem k1)).
    { intros x Hx. apply Hm1. specialize (Hx t ltac:(left)). unfold in_page in Hx. lia. }
    destruct (IH (S i) k1 (t :: l)) as (k' & l' & Hrun & Hk' & Hl' & Hs'); [lia|done|done|by apply not_elem_of_cons|done|done| | |].
    + intros j t' Hj HDj. apply not_elem_of_cons. split; [|apply (Hfree j t'); [lia|done]].
      intros ->. pose proof (Hinj _ _ _ HDj Et). lia.
    + intros j Hj. rewrite <- Hdir by lia. apply (word_same kernel_end _ _ [t]); [done|lia|by intros q ->%list_elem_of_singleton| |done].
      rewrite list_elem_of_singleton. congruence.
    + exists k', l'. split; [exact Hrun|]. split; [done|]. split; [rewrite Hl', Hstep; clear; solve_Permutation|].
      eapply same_but_trans; [eapply same_but_weaken; [|exact Hs1]|eapply same_but_weaken; [|exact Hs']]; intros p; rewrite Hstep.
      * intros ->%list_elem_of_singleton. left.
      * by right.
  - change (present 0) with false. cbn [when]. unfold mret at 1, M_ret at 1. cbv iota beta.
    destruct (IH (S i) k l) as (k' & l' & Hrun & Hk' & Hl' & Hs'); [lia|done|done|done|done|done| | |].
    + intros j t' Hj. apply Hfree. lia.
    + intros j Hj. apply Hdir. lia.
    + exists k', l'. split; [exact Hrun|]. split; [done|]. split; [by rewrite Hl', Hstep|].
      eapply same_but_weaken; [|exact Hs']. intros p. by rewrite Hstep.
Qed.

Lemma freevm_ok k l pgdir D E U :
  kmem_ok k l -> uspace (kmem_mem k) l pgdir D E U ->
  exists k' l', freevm kernel_end pgdir k = Ret tt k' /\ kmem_ok k' l' /\ l' ≡ₚ space_pages pgdir D U ++ l /\
    same_but (space_pages pgdir D U) (kmem_mem k) (kmem_mem k').
Proof using Hend.
  intros Hk H. pose proof (us_space _ _ _ _ _ _ _ H) as Hsp. pose proof (sp_good _ _ _ _ _ _ Hsp) as Hp.
  destruct (good_page_bounds _ pgdir Hp) as (_ & _ & Hp0). unfold freevm. rewrite (proj2 (Z.eqb_neq pgdir 0)) by done.
  destruct (deallocuvm_ok kernel_end Hend pgdir D k l E U KERNBASE 0 Hk H) as (k1 & l1 & E1 & Hrun1 & Hk1 & H1 & Hl1 & _ & Hs1);
    [unfold KERNBASE; lia|lia|]. change (PGROUNDUP 0) with 0 in *.
  assert (Hpart : part 0 KERNBASE U = U).
  { apply map_eq. intros b. rewrite part_lookup. case_decide as Hb; [done|]. destruct (U !! b) as [[v fl]|] eqn:Eb; [|done].
    destruct (us_page _ _ _ _ _ _ _ H b v fl Eb) as ([[? _] ?] & _). lia. }
  rewrite Hpart in *. pose proof (us_space _ _ _ _ _ _ _ H1) as Hsp1.
  destruct (freevm_entries_ok pgdir D 1024 0 k1 l1) as (k2 & l2 & Hrun2 & Hk2 & Hl2 & Hs2); try done.
  - apply Hsp1.
  - intros j t Hj. destruct (sp_table _ _ _ _ _ _ Hsp1 j t Hj) as (? & ? & ? & _). done.
  - apply Hsp1.
  - intros j t _ Hj. by apply (sp_table _ _ _ _ _ _ Hsp1 j t Hj).
  - apply Hsp1.
  - assert (Htabs : pgdir :: tables_from (Z.of_nat 0) D ≡ₚ table_pages pgdir D).
    { unfold table_pages, tables_from. apply Permutation_skip. replace (filter _ D) with D; [done|]. symmetry. apply map_filter_id.
      intros i t Hi. destruct (sp_table _ _ _ _ _ _ Hsp i t Hi) as (? & _). simpl. lia. }
    assert (Hpl2 : pgdir ∉ l2).
    { rewrite Hl2, elem_of_app, elem_tables_from. intros [(j & _ & Hj)|Hin]; [|by apply (sp_used _ _ _ _ _ _ Hsp1)].
      by destruct (sp_table _ _ _ _ _ _ Hsp1 j pgdir Hj) as (_ & _ & ? & _). }
    destruct (kfree_ok kernel_end pgdir k2 l2 Hk2 Hp Hpl2) as (k3 & Hrun3 & Hk3 & _ & Hm3).
    exists k3, (pgdir :: l2). split; [unfold mbind, M_bind; by rewrite Hrun1, Hrun2, Hrun3|]. split; [done|]. split.
    + rewrite Hl2, Hl1. unfold space_pages. rewrite <- Htabs. clear. solve_Permutation.
    + unfold space_pages. eapply same_but_trans; [exact Hs1|]. eapply same_but_trans; [eapply same_but_weaken; [|exact Hs2]|].
      * intros p Hpin. rewrite <- Htabs. apply elem_of_app. left. by right.
      * intros x Hx. apply Hm3. assert (Hnp : ~ in_page pgdir x) by (apply Hx, elem_of_app; left; apply elem_table_pages; by left).
        unfold in_page in Hnp. lia.
Qed.

(** ** [setupkvm] *)

(** A range of whole pages that [mappages] can map. *)
Record map_ok (E : Z -> Z) (virt size pa perm : Z) : Prop := {
  mo_virt : page_addr virt;
  mo_size : 0 < size /\ size mod 4096 = 0 /\ virt + size <= 2 ^ 32;
  mo_pa : 0 <= pa /\ pa mod 4096 = 0 /\ pa + size <= 2 ^ 32;
  mo_perm : 0 <= perm < 4096;
  mo_free b : page_addr b -> virt <= b < virt + size -> present (E b) = false
}.
Definition npages (size : Z) : nat := Z.to_nat (size / 4096).

Lemma mappages_ok pgdir D k l E virt size pa perm :
  kmem_ok k l -> space (kmem_mem k) l pgdir D E -> map_ok E virt size pa perm ->
  exists k' l' D' r j, mappages pgdir virt size pa perm k = Ret r k' /\ kmem_ok k' l' /\
    space (kmem_mem k') l' pgdir D' (map_range E virt pa perm j) /\ grown pgdir l D l' D' /\
    same_but (table_pages pgdir D') (kmem_mem k) (kmem_mem k') /\
    (r = 0 /\ j = npages size \/ r = -1 /\ (j <= npages size)%nat).
Proof.
  intros Hk H [[Hv1 Hv2] Hs Hpa Hperm Hfree]. unfold mappages.
  assert (PGROUNDDOWN virt = virt) as -> by (rewrite PGROUNDDOWN_eq by done; unfold PGSIZE; lia).
  assert (PGROUNDDOWN (u32 (virt + size - 1)) = virt + size - 4096) as ->.
  { rewrite u32_id by lia. rewrite PGROUNDDOWN_eq by (unfold is_u32; lia). unfold PGSIZE. lia. }
  set (n := (npages size - 1)%nat). assert (Hn : Z.of_nat (npages size) = size / 4096) by (unfold npages; lia).
  assert (HSn : S n = npages size) by (unfold n; lia). assert (Hn4 : 4096 * Z.of_nat (S n) = size) by lia.
  replace (Z.to_nat (u32 (virt + size - 4096 - virt) / PGSIZE)) with n by (rewrite u32_id by lia; unfold PGSIZE; lia).
  destruct (mappages_loop_ok kernel_end pgdir perm n k l D E virt pa (virt + size - 4096) (S n) Hk H) as (k' & l' & D' & r & j & Hrun & Hk' & H' & Hg & Hsm & Hr); try (done || lia).
  { intros b Hb Hr. apply Hfree; [done|lia]. }
  exists k', l', D', r, j. split; [done|]. split; [done|]. split; [done|]. split; [done|]. split; [done|].
  destruct Hr as [[-> ->]|(-> & Hj & _)]; [left|right]; (split; [done|lia]).
Qed.

(** The entries after the mappings [ks], when they can be made. *)
Fixpoint kmap_entries (E : Z -> Z) (ks : list (Z * Z * Z * Z)) : Z -> Z :=
  match ks with
  | [] => E
  | (virt, ps, pe, perm) :: ks' => kmap_entries (map_range E virt ps perm (npages (u32 (pe - ps)))) ks'
  end.
Fixpoint kmap_ok (E : Z -> Z) (ks : list (Z * Z * Z * Z)) : Prop :=
  match ks with
  | [] => True
  | (virt, ps, pe, perm) :: ks' =>
      KERNBASE <= virt /\ map_ok E virt (u32 (pe - ps)) ps perm /\
      kmap_ok (map_range E virt ps perm (npages (u32 (pe - ps)))) ks'
  end.

(** A space without user memory. *)
Lemma uspace_kernel m l pgdir D E : space m l pgdir D E -> (forall a, user_addr a -> present (E a) = false) -> uspace m l pgdir D E ∅.
Proof.
  intros H HE. constructor; [done| | |].
  - intros a Ha. rewrite lookup_empty. by apply HE.
  - intros a v fl. by rewrite lookup_empty.
  - intros a b v fl fl'. by rewrite lookup_empty.
Qed.

Lemma map_range_user E virt pa perm j a : KERNBASE <= virt -> user_addr a -> map_range E virt pa perm j a = E a.
Proof. intros Hv [_ Ha]. unfold map_range. by rewrite decide_False by lia. Qed.

(** The new directory, or 0 and all pages back. *)
Definition setup_result (m : mem) (l : list Z) (E : Z -> Z) (r : Z) (m' : mem) (l' : list Z) : Prop :=
  same_but l m m' /\
  (r = 0 /\ l' ≡ₚ l \/
   exists D, uspace m' l' r D E ∅ /\ l' ++ space_pages r D ∅ ≡ₚ l).

Lemma setupkvm_loop_ok pgdir l0 m0 ks : forall k l D E,
  kmem_ok k l -> space (kmem_mem k) l pgdir D E -> (forall a, user_addr a -> present (E a) = false) -> kmap_ok E ks ->
  l ++ table_pages pgdir D ≡ₚ l0 -> same_but l0 m0 (kmem_mem k) ->
  exists k' l' r, setupkvm_loop kernel_end pgdir ks k = Ret r k' /\ kmem_ok k' l' /\
    setup_result m0 l0 (kmap_entries E ks) r (kmem_mem k') l'.
Proof using Hend.
  induction ks as [|[[[virt ps] pe] perm] ks IH]; intros k l D E Hk H HE Hks Hl Hs; cbn [setupkvm_loop kmap_entries].
  { exists k, l, pgdir. split; [done|]. split; [done|]. split; [done|]. right. exists D. split; [by apply uspace_kernel|].
    unfold space_pages, user_pages. rewrite map_to_list_empty, app_nil_r. done. }
  destruct Hks as (Hv & Hmap & Hks).
  destruct (mappages_ok pgdir D k l E virt (u32 (pe - ps)) ps perm Hk H Hmap) as (k1 & l1 & D1 & r1 & j & Hrun & Hk1 & H1 & Hg & Hs1 & Hr1).
  pose proof Hg as (new & El & Hperm & _). unfold mbind at 1, M_bind at 1. rewrite Hrun.
  assert (Hl1 : l1 ++ table_pages pgdir D1 ≡ₚ l0) by (rewrite <- Hl, El, Hperm; clear; solve_Permutation).
  assert (Hs01 : same_but l0 m0 (kmem_mem k1)).
  { eapply same_but_trans; [exact Hs|]. eapply same_but_weaken; [|exact Hs1]. intros p Hp. rewrite <- Hl1. apply elem_of_app. by right. }
  assert (HE1 : forall a, user_addr a -> present (map_range E virt ps perm j a) = false) by (intros a Ha; rewrite map_range_user by done; by apply HE).
  destruct Hr1 as [[-> ->]|[-> _]].
  - change (0 <? 0) with false. cbv iota. by apply (IH k1 l1 D1).
  - change (-1 <? 0) with true. cbv iota. unfold mbind at 1, M_bind at 1.
    destruct (freevm_ok k1 l1 pgdir D1 _ ∅ Hk1 (uspace_kernel _ _ _ _ _ H1 HE1)) as (k2 & l2 & Hrun2 & Hk2 & Hl2 & Hs2). rewrite Hrun2.
    unfold space_pages, user_pages in Hl2, Hs2. rewrite map_to_list_empty in Hl2, Hs2. rewrite app_nil_r in Hl2, Hs2.
    exists k2, l2, 0. split; [done|]. split; [done|]. split; [|left; split; [done|rewrite Hl2, <- Hl1; apply Permutation_app_comm]].
    eapply same_but_trans; [exact Hs01|]. eapply same_but_weaken; [|exact Hs2]. intros p Hp. rewrite <- Hl1. apply elem_of_app. by right.
Qed.
End Ops.
