(* ===== verification/VmCopy.v ===== *)
(** * Building and copying address spaces

    [setupkvm] and [copyuvm] of [vm.c]: the kernel part of a fresh directory, and
    the copy that [fork] makes of the user memory. *)
From stdpp Require Import gmap.
From S2P Require Import Prelude Cstring Kalloc Vm VmSpace VmUser VmOps.
Local Open Scope Z_scope.

#[local] Opaque memset memmove kfree kalloc.

Section Copy.
(** [kernel.ld] puts [data] on a page boundary after the text of the kernel. *)
Context (kernel_end data : Z) (Hend : KERNBASE < kernel_end).
Context (Hdata : data mod 4096 = 0) (Hdata_range : KERNLINK < data < KERNBASE + PHYSTOP).
Notation good_page := (good_page kernel_end).
Notation kmem_ok := (kmem_ok kernel_end).
Notation space := (space kernel_end).
Notation uspace := (uspace kernel_end).

(** ** [setupkvm] *)

(** The entries of the kernel part. *)
Definition kernel_entries : Z -> Z := kmap_entries (fun _ => 0) (kmap data).

Lemma map_range_other E virt pa perm n b :
  ~ (virt <= b < virt + 4096 * Z.of_nat n) -> map_range E virt pa perm n b = E b.
Proof. intros H. unfold map_range. by rewrite decide_False. Qed.

Lemma kmap_sizes :
  u32 (EXTMEM - 0) = 0x100000 /\ u32 (V2P data - V2P KERNLINK) = data - KERNLINK /\
  u32 (PHYSTOP - V2P data) = KERNBASE + PHYSTOP - data /\ u32 (0 - DEVSPACE) = 0x2000000 /\
  V2P KERNLINK = 0x100000 /\ V2P data = data - KERNBASE.
Proof using Hdata_range.
  assert (HV : V2P data = data - KERNBASE) by (unfold V2P; apply u32_id; unfold KERNLINK, EXTMEM, KERNBASE, PHYSTOP in *; lia).
  split; [done|]. rewrite HV. change (V2P KERNLINK) with 0x100000. unfold KERNLINK, EXTMEM, KERNBASE, PHYSTOP in *.
  split; [rewrite u32_id; lia|]. split; [rewrite u32_id; lia|]. done.
Qed.

Lemma npages_size size : 0 <= size -> size mod 4096 = 0 -> 4096 * Z.of_nat (npages size) = size.
Proof. unfold npages. lia. Qed.

Lemma kmap_fits : kmap_ok (fun _ => 0) (kmap data).
Proof using Hdata Hdata_range.
  destruct kmap_sizes as (E1 & E2 & E3 & E4 & E5 & E6). unfold kmap. cbn [kmap_ok]. rewrite E1, E2, E3, E4, E5, E6.
  unfold KERNLINK, EXTMEM, KERNBASE, PHYSTOP, DEVSPACE, PTE_W in *.
  split; [lia|]. split; [by constructor; [split|..|]; try lia|].
  split; [lia|]. split.
  { constructor; [split; lia|lia..|]. intros b _ Hb. rewrite map_range_other; [done|]. rewrite npages_size; lia. }
  split; [lia|]. split.
  { constructor; [split; lia|lia..|]. intros b _ Hb. rewrite !map_range_other; [done|rewrite npages_size; lia..]. }
  split; [lia|]. split; [|done].
  constructor; [split; lia|lia..|]. intros b _ Hb. rewrite !map_range_other; [done|rewrite npages_size; lia..].
Qed.

(** A fresh directory. *)
Lemma space_fresh m l p : good_page p -> p ∉ l -> space (memset p 0 PGSIZE m) l p ∅ (fun _ => 0).
Proof.
  intros Hp Hl. destruct (good_page_bounds _ p Hp) as (H0 & H1 & _). constructor; [done|done|by intros ? ?; rewrite lookup_empty..| |].
  - intros i Hi. rewrite lookup_empty. unfold mget32.
    rewrite !memset_spec by (unfold PGSIZE in *; lia). unfold PGSIZE. by rewrite !decide_True by lia.
  - intros a Ha. unfold entry. by rewrite lookup_empty.
Qed.

Lemma same_but_memset p c m : good_page p -> same_but [p] m (memset p c PGSIZE m).
Proof.
  intros Hp x Hx. destruct (good_page_bounds _ p Hp) as (H0 & H1 & _). rewrite memset_spec by (unfold PGSIZE in *; lia).
  specialize (Hx p ltac:(left)). unfold in_page in Hx. by rewrite decide_False.
Qed.

Lemma setupkvm_ok k l :
  kmem_ok k l ->
  exists k' l' r, setupkvm kernel_end data k = Ret r k' /\ kmem_ok k' l' /\
    setup_result kernel_end (kmem_mem k) l kernel_entries r (kmem_mem k') l'.
Proof using All.
  intros Hk. unfold setupkvm. destruct (kalloc_ok kernel_end k l Hk) as (k1 & E1 & Hk1 & _ & Hm1).
  unfold mbind at 1, M_bind at 1. rewrite E1. destruct l as [|p l].
  { rewrite Z.eqb_refl. exists k1, [], 0. split; [done|]. split; [done|]. split; [rewrite Hm1; apply same_but_refl|by left]. }
  assert (Hp : good_page p) by (apply (ok_pages _ _ _ Hk); left).
  assert (Hpl : p ∉ l) by (pose proof (ok_nodup _ _ _ Hk) as Hn; by apply NoDup_cons in Hn as [? _]).
  destruct (good_page_bounds _ p Hp) as (_ & _ & Hp0). apply Z.eqb_neq in Hp0. rewrite Hp0. cbn [tail] in Hk1.
  unfold mbind at 1, M_bind at 1, set_mem, modify. rewrite Hm1. set (m1 := memset p 0 PGSIZE (kmem_mem k)).
  change (DEVSPACE <? P2V PHYSTOP) with false. cbv iota. change (mkKmem m1 _ _ _) with (with_mem m1 k1).
  pose proof (same_but_memset p 0 (kmem_mem k) Hp) as Hs1. fold m1 in Hs1.
  apply (setupkvm_loop_ok kernel_end Hend p (p :: l) (kmem_mem k) (kmap data) _ l ∅ (fun _ => 0)).
  - apply (kmem_frame kernel_end k1 l [p]); [done|by rewrite Hm1|by intros q ->%list_elem_of_singleton].
  - by apply space_fresh.
  - done.
  - apply kmap_fits.
  - unfold table_pages. rewrite map_to_list_empty. symmetry. apply Permutation_cons_append.
  - eapply same_but_weaken; [|exact Hs1]. intros q ->%list_elem_of_singleton. left.
Qed.

(** ** [copyuvm] *)

(** The page [w] of [m'] has the bytes of the page [v] of [m]. *)
Definition page_copy (m : mem) (v : Z) (m' : mem) (w : Z) : Prop := forall x, 0 <= x < PGSIZE -> m' (w + x) = m (v + x).

(** The user memory below [sz] is mapped. *)
Definition mapped_below (sz : Z) (U : umap) : Prop := forall a, page_addr a -> a < sz -> is_Some (U !! a).

(** [U'] in [m'] is a copy of the part of [U] below [hi] in [m]. *)
Record copy_of (m : mem) (U : umap) (hi : Z) (m' : mem) (U' : umap) : Prop := {
  cp_page a v fl : a < hi -> U !! a = Some (v, fl) -> exists w, U' !! a = Some (w, fl) /\ page_copy m v m' w;
  cp_none a : hi <= a -> U' !! a = None
}.

Section Loop.
Context (m0 : mem) (l0 : list Z) (pgdir d : Z) (D0 : gmap Z Z) (E0 : Z -> Z) (U0 : umap) (sz : Z).
Context (H0 : uspace m0 l0 pgdir D0 E0 U0) (Hl0 : forall p, p ∈ l0 -> good_page p).
Context (Hsz : sz <= KERNBASE) (Hmapped : mapped_below sz U0).

(** The copy below [hi], in pages that were free. *)
Record copied (hi : Z) (m : mem) (l : list Z) (D : gmap Z Z) (E : Z -> Z) (U : umap) : Prop := {
  co_user : uspace m l d D E U;
  co_pages : l ++ space_pages d D U ≡ₚ l0;
  co_frame : same_but l0 m0 m;
  co_kern b : KERNBASE <= b -> E b = kernel_entries b;
  co_copy : copy_of m0 U0 hi m U
}.

Lemma parent_kept m (l : list Z) : same_but l0 m0 m -> (forall p, p ∈ l -> p ∈ l0) -> uspace m l pgdir D0 E0 U0.
Proof using All.
  intros Hs Hl. apply (uspace_frame kernel_end m0 m l0 l pgdir D0 E0 U0 l0 H0 Hs Hl0).
  - intros p Hp. apply (space_pages_good _ _ _ _ _ _ _ p H0). unfold space_pages. apply elem_of_app. by left.
  - intros p Hp Hin. by apply (space_pages_good _ _ _ _ _ _ _ p H0 Hp), Hl.
Qed.

Lemma parent_page m a v fl : same_but l0 m0 m -> U0 !! a = Some (v, fl) -> page_copy m0 v m v.
Proof using All.
  intros Hs Ha x Hx. apply Hs. intros q Hq Hin. destruct (us_page _ _ _ _ _ _ _ H0 a v fl Ha) as (_ & Hv & _ & _ & Hvl & _).
  destruct (pages_disjoint _ q v (Hl0 q Hq) Hv) as [?|?]; [by intros ->| |]; unfold in_page in Hin; lia.
Qed.

(** The page and the flags that the loop reads. *)
Lemma parent_entry k (l : list Z) a :
  same_but l0 m0 (kmem_mem k) -> (forall p, p ∈ l -> p ∈ l0) -> page_addr a -> a < sz ->
  exists v fl t, U0 !! a = Some (v, fl) /\ D0 !! PDX a = Some t /\ walkpgdir pgdir a false k = Ret (t + 4 * PTX a) k /\
    (t + 4 * PTX a =? 0) = false /\ mget32 (kmem_mem k) (t + 4 * PTX a) = pte_of v fl.
Proof using All.
  intros Hs Hl Ha Hlt. pose proof (parent_kept _ l Hs Hl) as Hu.
  destruct (Hmapped a Ha Hlt) as [[v fl] Eu]. destruct (user_table kernel_end k l pgdir D0 E0 U0 a v fl Hu Eu) as (t & ?). by exists v, fl, t.
Qed.

(** A page taken from the free list and filled. *)
Lemma copied_take hi m l D E U w m1 :
  copied hi m (w :: l) D E U -> good_page w -> w ∉ l -> same_but [w] m m1 -> uspace m1 l d D E U /\ copy_of m0 U0 hi m1 U /\ w ∉ space_pages d D U.
Proof using All.
  intros [H1 H2 H3 H4 [H5 H6]] Hw Hwl Hs.
  assert (Hn : forall p, p ∈ space_pages d D U -> p ∉ w :: l) by (intros p Hp; by apply (space_pages_good _ _ _ _ _ _ _ p H1 Hp)).
  split; [|split; [|intros Hin; apply (Hn w Hin); left]].
  - apply (uspace_frame kernel_end m m1 (w :: l) l d D E U [w] H1 Hs); [by intros p ->%list_elem_of_singleton| |].
    + intros p Hp ->%list_elem_of_singleton. apply (Hn w); [|left]. unfold space_pages. apply elem_of_app. by left.
    + intros p Hp Hin. apply (Hn p Hp). by right.
  - split; [|done]. intros a v fl Ha HU. destruct (H5 a v fl Ha HU) as (w' & HU' & Hc). exists w'. split; [done|].
    intros x Hx. rewrite <- (Hc x Hx). apply Hs. intros q ->%list_elem_of_singleton Hin.
    destruct (us_page _ _ _ _ _ _ _ H1 a w' fl HU') as (_ & Hg & _ & _ & Hwn & _).
    destruct (pages_disjoint _ w w' Hw Hg) as [?|?]; [intros ->; apply Hwn; left| |]; unfold in_page in Hin; lia.
Qed.

Lemma lor_present fl : Z.odd fl = true -> Z.lor fl PTE_P = fl.
Proof.
  intros Hodd. apply Z.bits_inj_iff'. intros i Hi. rewrite Z.lor_spec. destruct (decide (i = 0)) as [->|Hne].
  - rewrite !Z.bit0_odd, Hodd. done.
  - replace (Z.testbit PTE_P i) with false; [apply orb_false_r|]. symmetry. unfold PTE_P. apply Z.testbit_false; [done|].
    rewrite Z.div_small; [done|]. split; [lia|]. apply Z.pow_gt_1; lia.
Qed.

(** [same_but] on tables of [d] does not concern its user pages. *)
Lemma copy_of_tables hi m l D E U m' l' D' E' :
  uspace m l d D E U -> copy_of m0 U0 hi m U -> grown d l D l' D' -> space m' l' d D' E' -> same_but (table_pages d D') m m' -> copy_of m0 U0 hi m' U.
Proof using All.
  intros Hu [H5 H6] Hg Hsp Hs. split; [|done]. intros a v fl Ha HU. destruct (H5 a v fl Ha HU) as (w & HU' & Hc). exists w. split; [done|].
  intros x Hx. rewrite <- (Hc x Hx). apply Hs. intros q Hq Hin.
  destruct (us_page _ _ _ _ _ _ _ Hu a w fl HU') as (_ & Hgw & _ & _ & Hwl & Hwt).
  destruct (table_pages_good _ _ _ _ _ _ q Hsp Hq) as [Hgq _].
  destruct (pages_disjoint _ q w Hgq Hgw) as [?|?]; [|unfold in_page in Hin; lia..].
  intros ->. destruct (grown_elem _ _ _ _ _ _ Hg Hq); done.
Qed.

(** One more page copied. *)
Lemma copied_map hi m l D E U v w fl m1 m2 l2 D2 :
  copied hi m (w :: l) D E U -> good_page w -> w ∉ l -> user_addr hi -> U0 !! hi = Some (v, fl) ->
  same_but [w] m m1 -> page_copy m0 v m1 w ->
  grown d l D l2 D2 -> same_but (table_pages d D2) m1 m2 -> space m2 l2 d D2 (upd_entry E hi (pte_of w fl)) ->
  copied (hi + 4096) m2 l2 D2 (upd_entry E hi (pte_of w fl)) (<[hi := (w, fl)]> U).
Proof using All.
  intros H Hw Hwl Hhi HU0 Hs1 Hc1 Hg Hs2 Hsp2. destruct (copied_take _ _ _ _ _ _ _ _ H Hw Hwl Hs1) as (Hu1 & Hcp1 & Hwn).
  destruct (us_page _ _ _ _ _ _ _ H0 hi v fl HU0) as (_ & _ & Hfl & Hodd & _).
  pose proof (copy_of_tables _ _ _ _ _ _ _ _ _ _ Hu1 Hcp1 Hg Hsp2 Hs2) as [C1 C2].
  assert (HUn : U !! hi = None) by (by apply C2). destruct H as [H1 H2 H3 H4 _]. pose proof Hg as (new & El & Hp & _).
  assert (Hwt : w ∉ table_pages d D2).
  { intros Hin. destruct (grown_elem _ _ _ _ _ _ Hg Hin) as [Hin'|]; [|done]. apply Hwn. unfold space_pages. apply elem_of_app. by left. }
  assert (Hpg : l2 ++ space_pages d D2 (<[hi := (w, fl)]> U) ≡ₚ l0).
  { rewrite <- H2, El. unfold space_pages, user_pages. rewrite map_to_list_insert by done. rewrite Hp. cbn [fmap list_fmap fst snd]. clear. solve_Permutation. }
  constructor.
  - by eapply uspace_map.
  - done.
  - eapply same_but_trans; [exact H3|]. eapply same_but_trans; eapply same_but_weaken; [|exact Hs1| |exact Hs2].
    + intros p ->%list_elem_of_singleton. rewrite <- H2. left.
    + intros p Hin. rewrite <- Hpg. unfold space_pages. rewrite !elem_of_app. tauto.
  - intros b Hb. unfold upd_entry. destruct Hhi as [_ ?]. rewrite decide_False by lia. by apply H4.
  - split.
    + intros a v' fl' Ha HUa. destruct (decide (a = hi)) as [->|Hne].
      * rewrite HU0 in HUa. injection HUa as <- <-. exists w. split; [by rewrite lookup_insert_eq|].
        intros x Hx. rewrite <- (Hc1 x Hx). apply Hs2. intros q Hq Hin. destruct (table_pages_good _ _ _ _ _ _ q Hsp2 Hq) as [Hgq _].
        destruct (pages_disjoint _ q w Hgq Hw) as [?|?]; [by intros ->|unfold in_page in Hin; lia..].
      * rewrite lookup_insert_ne by done. apply (C1 a v'); [|done].
        destruct (us_page _ _ _ _ _ _ _ H0 a v' fl' HUa) as ([[_ Ha4] _] & _). destruct Hhi as [[_ Hh4] _]. lia.
    + intros a Ha. rewrite lookup_insert_ne by lia. apply C2. lia.
Qed.

(** The copy, or 0: then all pages are free again but the one that was to be
    mapped when a table could not be had. *)
Definition copy_result (r : Z) (m : mem) (l : list Z) : Prop :=
  same_but l0 m0 m /\
  (r = d /\ (exists D E U, copied (PGROUNDUP sz) m l D E U) \/
   r = 0 /\ exists lost, (length lost <= 1)%nat /\ lost ++ l ≡ₚ l0).

(** [goto bad]. *)
Lemma copy_bad m lost k l D E U :
  kmem_ok k l -> uspace (kmem_mem k) l d D E U -> same_but l0 m0 m -> same_but l0 m (kmem_mem k) ->
  lost ++ l ++ space_pages d D U ≡ₚ l0 -> (length lost <= 1)%nat ->
  exists k' l' r, (freevm kernel_end d;; mret 0) k = Ret r k' /\ kmem_ok k' l' /\ copy_result r (kmem_mem k') l'.
Proof using All.
  intros Hk Hu Hs1 Hs2 Hl Hlen. destruct (freevm_ok kernel_end Hend k l d D E U Hk Hu) as (k' & l' & Hrun & Hk' & Hl' & Hs').
  exists k', l', 0. unfold mbind, M_bind. rewrite Hrun. split; [done|]. split; [done|]. split.
  - eapply same_but_trans; [exact Hs1|]. eapply same_but_trans; [exact Hs2|]. eapply same_but_weaken; [|exact Hs'].
    intros p Hp. rewrite <- Hl, !elem_of_app. tauto.
  - right. split; [done|]. exists lost. split; [done|]. rewrite Hl', <- Hl. clear. solve_Permutation.
Qed.

Lemma memmove_page v w m : good_page v -> good_page w ->
  same_but [w] m (memmove w v PGSIZE m) /\ page_copy m v (memmove w v PGSIZE m) w.
Proof.
  intros [_ [_ Hv]] [_ [_ Hw]]. unfold KERNBASE, PHYSTOP in *.
  split; intros x Hx; rewrite memmove_spec by (unfold PGSIZE; lia).
  - specialize (Hx w ltac:(left)). unfold in_page in Hx. by rewrite decide_False.
  - rewrite decide_True by lia. f_equal. lia.
Qed.

Lemma copyuvm_loop_ok fuel : forall k l D E U a,
  kmem_ok k l -> copied a (kmem_mem k) l D E U -> page_addr a -> a <= PGROUNDUP sz -> sz - a <= 4096 * Z.of_nat fuel -> 0 <= sz ->
  exists k' l' r, copyuvm_loop kernel_end pgdir d sz a fuel k = Ret r k' /\ kmem_ok k' l' /\ copy_result r (kmem_mem k') l'.
Proof using All.
  induction fuel as [|fuel IH]; intros k l D E U a Hk H Ha Hhi Hfuel Hsz0; cbn [copyuvm_loop].
  all: destruct (PGROUNDUP_page sz) as [[Hn1 Hn2] Hn3]; [unfold KERNBASE in *; lia|].
  all: destruct (Z.ltb_spec a sz) as [Hlt|Hge]; [|
    assert (a = PGROUNDUP sz) as -> by (destruct Ha; lia); exists k, l, d; split; [done|]; split; [done|]; split; [apply H|left; eauto]].
  { lia. }
  pose proof (co_frame _ _ _ _ _ _ H) as Hs.
  assert (Hl : forall p, p ∈ l -> p ∈ l0) by (intros p Hp; rewrite <- (co_pages _ _ _ _ _ _ H), elem_of_app; by left).
  destruct (parent_entry k l a Hs Hl Ha Hlt) as (v & fl & t & HU0 & Et & Hwalk & Hnz & Hword).
  destruct (us_page _ _ _ _ _ _ _ H0 a v fl HU0) as (Hua & Hv & Hfl & Hodd & _).
  destruct (pte_of_fields kernel_end v fl Hv Hfl) as (F1 & F2 & F3 & _).
  unfold mbind at 1, M_bind at 1. rewrite Hwalk, Hnz. unfold mbind at 1, M_bind at 1, lw, gets. rewrite Hword, F1, F2, F3, Hodd.
  cbn [negb]. cbv zeta. rewrite (P2V_V2P kernel_end) by done.
  destruct (kalloc_ok kernel_end k l Hk) as (k1 & E1 & Hk1 & _ & Hm1). unfold mbind at 1, M_bind at 1. rewrite E1. destruct l as [|w l].
  { rewrite Z.eqb_refl. apply (copy_bad (kmem_mem k) [] k1 [] D E U Hk1).
    - rewrite Hm1. apply H.
    - done.
    - rewrite Hm1. apply same_but_refl.
    - apply (co_pages _ _ _ _ _ _ H).
    - simpl. lia. }
  assert (Hw : good_page w) by (apply (ok_pages _ _ _ Hk); left).
  assert (Hwl : w ∉ l) by (pose proof (ok_nodup _ _ _ Hk) as Hn; by apply NoDup_cons in Hn as [? _]).
  destruct (good_page_bounds _ w Hw) as (_ & _ & Hw0). apply Z.eqb_neq in Hw0. rewrite Hw0. cbn [tail] in Hk1.
  unfold mbind at 1, M_bind at 1, set_mem, modify. rewrite Hm1. set (m1 := memmove w v PGSIZE (kmem_mem k)).
  destruct (memmove_page v w (kmem_mem k) Hv Hw) as [Hs1 Hc1]. fold m1 in Hs1, Hc1. change (mkKmem m1 _ _ _) with (with_mem m1 k1).
  assert (Hk1' : kmem_ok (with_mem m1 k1) l).
  { apply (kmem_frame kernel_end k1 l [w]); [done|by rewrite Hm1|by intros p ->%list_elem_of_singleton]. }
  destruct (copied_take _ _ _ _ _ _ _ _ H Hw Hwl Hs1) as (Hu1 & Hcp1 & _).
  pose proof (us_entry _ _ _ _ _ _ _ Hu1 a Hua) as Hpres. rewrite (cp_none _ _ _ _ _ Hcp1) in Hpres by lia.
  destruct (V2P_good kernel_end w Hw) as (_ & HV & HVal). unfold PHYSTOP in HV.
  destruct (mappages_page kernel_end d D (with_mem m1 k1) l E a (V2P w) fl Hk1' (us_space _ _ _ _ _ _ _ Hu1) Ha) as (k2 & l2 & D2 & r & Hrun & Hk2 & Hg & Hs2 & Hr);
    [lia|done|lia|done|done|].
  unfold mbind at 1, M_bind at 1. rewrite Hrun. cbn [kmem_mem with_mem] in Hs2. destruct Hr as [[-> Hsp2]|(-> & -> & Hsp2)].
  - change (0 <? 0) with false. cbv iota.
    assert (Hc : page_copy m0 v m1 w) by (intros x Hx; rewrite (Hc1 x Hx); by apply (parent_page (kmem_mem k) a v fl)).
    assert (Hlor : Z.lor (Z.lor (V2P w) fl) PTE_P = pte_of w fl) by (unfold pte_of; rewrite <- Z.lor_assoc; f_equal; by apply lor_present).
    rewrite Hlor in Hsp2.
    pose proof (copied_map _ _ _ _ _ _ _ _ _ _ _ _ _ H Hw Hwl Hua HU0 Hs1 Hc Hg Hs2 Hsp2) as H2.
    rewrite u32_id by (destruct Ha; unfold PGSIZE, KERNBASE in *; lia). change PGSIZE with 4096.
    apply (IH k2 l2 D2 _ _ (a + 4096) Hk2 H2); [destruct Ha; split; unfold KERNBASE in *; lia|destruct Ha; lia|lia|done].
  - change (-1 <? 0) with true. cbv iota. pose proof Hg as (new & El & Hp & _). pose proof (co_pages _ _ _ _ _ _ H) as Hpg.
    assert (Hpg2 : [w] ++ [] ++ space_pages d D2 U ≡ₚ l0).
    { rewrite <- Hpg, El. unfold space_pages. rewrite Hp. clear. solve_Permutation. }
    apply (copy_bad (kmem_mem k) [w] k2 [] D2 E U Hk2 (uspace_grown _ _ _ _ _ _ _ _ _ _ Hu1 Hsp2 Hg) Hs); [|done|done].
    eapply same_but_trans; eapply same_but_weaken; [|exact Hs1| |exact Hs2]; intros p Hin; rewrite <- Hpg2.
    + apply list_elem_of_singleton in Hin as ->. left.
    + unfold space_pages. rewrite !elem_of_app. tauto.
Qed.
End Loop.

Lemma copyuvm_ok k l pgdir D E U sz :
  kmem_ok k l -> uspace (kmem_mem k) l pgdir D E U -> 0 <= sz <= KERNBASE -> mapped_below sz U ->
  exists k' l' r d, copyuvm kernel_end data pgdir sz k = Ret r k' /\ kmem_ok k' l' /\
    copy_result (kmem_mem k) l d U sz r (kmem_mem k') l' /\ uspace (kmem_mem k') l' pgdir D E U.
Proof using All.
  intros Hk Hu Hsz Hm. unfold copyuvm. destruct (setupkvm_ok k l Hk) as (k1 & l1 & d & Hrun & Hk1 & Hs1 & Hr).
  unfold mbind at 1, M_bind at 1. rewrite Hrun.
  pose proof (ok_pages _ _ _ Hk) as Hgood.
  destruct Hr as [[-> Hl1]|(D1 & Hu1 & Hl1)].
  { rewrite Z.eqb_refl. exists k1, l1, 0, 0. split; [done|]. split; [done|]. split.
    - split; [done|]. right. split; [done|]. exists []. split; [simpl; lia|done].
    - apply (parent_kept (kmem_mem k) l pgdir 0 D E U sz Hu Hgood); try done; try lia. intros p Hp. by rewrite <- Hl1. }
  destruct (good_page_bounds _ d (sp_good _ _ _ _ _ _ (us_space _ _ _ _ _ _ _ Hu1))) as (_ & _ & Hd). rewrite (proj2 (Z.eqb_neq d 0)) by done.
  destruct (copyuvm_loop_ok (kmem_mem k) l pgdir d D E U sz Hu Hgood ltac:(lia) Hm (Z.to_nat ((sz + PGSIZE - 1) / PGSIZE)) k1 l1 D1 kernel_entries ∅ 0 Hk1)
    as (k' & l' & r & Hrun' & Hk' & Hr').
  - constructor; try done. split; [|by intros; rewrite lookup_empty].
    intros a v fl Ha HU. destruct (us_page _ _ _ _ _ _ _ Hu a v fl HU) as ([[? _] _] & _). lia.
  - done.
  - destruct (PGROUNDUP_page sz) as [[? _] _]; [unfold KERNBASE in *; lia|]. lia.
  - unfold PGSIZE. lia.
  - lia.
  - exists k', l', r, d. split; [done|]. split; [done|]. split; [done|]. destruct Hr' as [Hs' Hr'].
    apply (parent_kept (kmem_mem k) l pgdir d D E U sz Hu Hgood); try done; try lia. intros p Hp.
    destruct Hr' as [(_ & D' & E' & U' & Hco)|(_ & lost & _ & Hl')].
    + rewrite <- (co_pages _ _ _ _ _ _ _ _ _ _ Hco), elem_of_app. by left.
    + rewrite <- Hl', elem_of_app. by right.
Qed.
End Copy.
