(* ===== verification/VmAccess.v ===== *)
(** * Access to user memory through the page tables

    [uva2ka], [copyout], [clearpteu] and [inituvm] of [vm.c]. *)
From stdpp Require Import gmap.
From S2P Require Import Prelude Cstring Kalloc Vm VmSpace VmUser VmOps VmCopy.
Local Open Scope Z_scope.

#[local] Opaque memset memmove kfree kalloc.

(** The kernel address of the byte at user address [a], if the page is mapped for
    the user. *)
Definition translate (U : umap) (a : Z) : option Z :=
  match U !! (a / PGSIZE * PGSIZE) with
  | Some (v, fl) => if Z.land fl PTE_U =? 0 then None else Some (v + a mod PGSIZE)
  | None => None
  end.

(** The byte that a user program reads at [a]. *)
Definition user_byte (m : mem) (U : umap) (a : Z) : option Z := m <$> translate U a.

Section Access.
Context (kernel_end : Z).
Notation good_page := (good_page kernel_end).
Notation kmem_ok := (kmem_ok kernel_end).
Notation space := (space kernel_end).
Notation uspace := (uspace kernel_end).

Lemma page_bit v i : good_page v -> 0 <= i < 12 -> Z.testbit (V2P v) i = false.
Proof.
  intros Hv Hi. destruct (V2P_good kernel_end v Hv) as (_ & _ & Hm).
  rewrite <- (Z.mod_pow2_bits_low (V2P v) 12) by lia. change (2 ^ 12) with 4096. by rewrite Hm, Z.bits_0.
Qed.

Lemma flag_of_pte v fl : good_page v -> Z.land (pte_of v fl) PTE_U = Z.land fl PTE_U.
Proof.
  intros Hv. unfold pte_of. apply Z.bits_inj_iff'. intros i Hi. rewrite !Z.land_spec, Z.lor_spec. destruct (decide (i < 12)).
  - by rewrite page_bit by (done || lia).
  - replace (Z.testbit PTE_U i) with false; [by rewrite !andb_false_r|]. symmetry. unfold PTE_U. apply Z.bits_above_log2; [lia|]. change (Z.log2 4) with 2. lia.
Qed.

(** [clearpteu] on an entry and its flags. *)
Definition no_user (fl : Z) : Z := Z.land fl (u32 (Z.lnot PTE_U)).

Lemma no_user_pte v fl : good_page v -> no_user (pte_of v fl) = pte_of v (no_user fl).
Proof.
  intros Hv. destruct (V2P_good kernel_end v Hv) as (_ & Hr & _). unfold PHYSTOP in Hr. unfold no_user, pte_of.
  rewrite Z.land_lor_distr_l. f_equal. change (u32 (Z.lnot PTE_U)) with (Z.ldiff (Z.ones 32) PTE_U).
  apply Z.bits_inj_iff'. intros i Hi. rewrite Z.land_spec, Z.ldiff_spec, Z.testbit_ones_nonneg by lia. destruct (decide (i < 12)).
  - by rewrite page_bit by (done || lia).
  - replace (Z.testbit PTE_U i) with false; [|symmetry; unfold PTE_U; apply Z.bits_above_log2; [lia|change (Z.log2 4) with 2; lia]].
    destruct (Z.ltb_spec i 32) as [|Hge]; [by rewrite andb_true_r|]. rewrite andb_false_r. symmetry.
    destruct (decide (V2P v = 0)) as [->|]; [apply Z.bits_0|]. apply Z.bits_above_log2; [lia|]. apply Z.log2_lt_pow2; [lia|].
    apply Z.lt_le_trans with (2 ^ 32); [lia|]. apply Z.pow_le_mono_r; lia.
Qed.

Lemma no_user_flags fl : 0 <= fl < 4096 -> 0 <= no_user fl < 4096 /\ Z.odd (no_user fl) = Z.odd fl /\ Z.land (no_user fl) PTE_U = 0.
Proof.
  intros Hf. unfold no_user. split; [|split].
  - split; [apply Z.land_nonneg; lia|]. apply Z.le_lt_trans with fl; [|lia].
    apply Z.ldiff_le; [lia|]. apply Z.bits_inj_iff'. intros i Hi. rewrite Z.ldiff_spec, Z.land_spec, Z.bits_0. by destruct (Z.testbit fl i), (Z.testbit _ i).
  - rewrite <- !Z.bit0_odd, Z.land_spec. apply andb_true_r.
  - rewrite <- Z.land_assoc. apply Z.land_0_r.
Qed.

(** [uva2ka] of a mapped page: the page, or 0 without the user's right to it. *)
Lemma uva2ka_ok k l pgdir D E U a v fl :
  uspace (kmem_mem k) l pgdir D E U -> U !! a = Some (v, fl) ->
  uva2ka pgdir a k = Ret (if Z.land fl PTE_U =? 0 then 0 else v) k.
Proof.
  intros H HU. destruct (user_table kernel_end k _ _ _ _ _ _ _ _ H HU) as (t & _ & Hwalk & Hnz & Hword).
  destruct (us_page _ _ _ _ _ _ _ H a v fl HU) as (_ & Hv & Hfl & Hodd & _). destruct (pte_of_fields kernel_end v fl Hv Hfl) as (F1 & _ & F3 & _).
  unfold uva2ka, mbind at 1, M_bind at 1. rewrite Hwalk, Hnz. unfold mbind, M_bind, lw, gets.
  rewrite Hword, F1, F3, Hodd, flag_of_pte, (P2V_V2P kernel_end) by done. cbn [negb]. by destruct (Z.land fl PTE_U =? 0).
Qed.

(** Where there is no page table, [copyout] does not return an error: it follows
    the null pointer. *)
Lemma copyout_null k l pgdir D E va b buf :
  space (kmem_mem k) l pgdir D E -> is_u32 va -> D !! PDX (PGROUNDDOWN va) = None ->
  copyout pgdir va (b :: buf) k = Panic "uva2ka: null pointer".
Proof.
  intros H Hva HD. unfold copyout. cbn [length copyout_loop]. rewrite (proj2 (Z.ltb_lt 0 _)) by lia. cbv zeta.
  unfold mbind at 1, M_bind at 1, uva2ka. unfold mbind at 1, M_bind at 1.
  rewrite (walk_lookup kernel_end k l pgdir D E) by (done || (rewrite PGROUNDDOWN_eq by done; unfold is_u32, PGSIZE in *; split; lia)). by rewrite HD.
Qed.

(** Two addresses do not share a byte. *)
Lemma translate_page m l pgdir D E U a x :
  uspace m l pgdir D E U -> translate U a = Some x -> exists v fl, U !! (a / PGSIZE * PGSIZE) = Some (v, fl) /\ x = v + a mod PGSIZE /\ good_page v.
Proof.
  intros H. unfold translate. destruct (U !! _) as [[v fl]|] eqn:HU; [|done]. destruct (_ =? 0); [done|]. intros [= <-].
  exists v, fl. split; [done|]. split; [done|]. by apply (us_page _ _ _ _ _ _ _ H _ v fl HU).
Qed.
Lemma translate_inj m l pgdir D E U a b x :
  uspace m l pgdir D E U -> translate U a = Some x -> translate U b = Some x -> a = b.
Proof.
  intros H Ha Hb. destruct (translate_page _ _ _ _ _ _ _ _ H Ha) as (v & fl & HU & -> & Hv).
  destruct (translate_page _ _ _ _ _ _ _ _ H Hb) as (w & fw & HW & Ex & Hw).
  assert (w = v) as ->.
  { destruct (decide (w = v)); [done|]. destruct (pages_disjoint _ v w Hv Hw); [done| |]; unfold PGSIZE in *; lia. }
  pose proof (us_inj _ _ _ _ _ _ _ H _ _ _ _ _ HU HW). unfold PGSIZE in *. lia.
Qed.

Lemma copy_in_spec bs : forall dst m x,
  copy_in dst bs m x = if decide (dst <= x < dst + Z.of_nat (length bs)) then byte_at bs (Z.to_nat (x - dst)) else m x.
Proof.
  induction bs as [|b bs IH]; intros dst m x; cbn [copy_in length]; [by rewrite decide_False by lia|].
  rewrite IH. unfold mset. destruct (decide (x = dst)) as [->|Hne].
  - rewrite decide_False, Z.eqb_refl, decide_True by lia. by rewrite Z.sub_diag.
  - rewrite (proj2 (Z.eqb_neq x dst)) by done. destruct (decide (dst + 1 <= x < dst + 1 + Z.of_nat (length bs))).
    + rewrite decide_True by lia. replace (Z.to_nat (x - dst)) with (S (Z.to_nat (x - (dst + 1)))) by lia. done.
    + by rewrite decide_False by lia.
Qed.

(** The effect of one [memmove] of [copyout]. *)
Lemma copy_chunk m l pgdir D E U va bs v fl :
  uspace m l pgdir D E U -> U !! (va / PGSIZE * PGSIZE) = Some (v, fl) -> Z.land fl PTE_U <> 0 ->
  let n := Z.of_nat (length bs) in
  0 < n <= PGSIZE - va mod PGSIZE ->
  let m1 := copy_in (v + va mod PGSIZE) bs m in
  same_but [v] m m1 /\
  (forall a, user_byte m1 U a = if decide (va <= a < va + n) then Some (byte_at bs (Z.to_nat (a - va))) else user_byte m U a).
Proof.
  intros H HU Hfl n Hn m1. destruct (us_page _ _ _ _ _ _ _ H _ v fl HU) as (_ & Hv & _).
  pose proof (copy_in_spec bs (v + va mod PGSIZE) m : forall x, m1 x = _) as Hm. fold n in Hm.
  assert (Htr : forall a, va <= a < va + n -> translate U a = Some (v + a mod PGSIZE)).
  { intros a Ha. unfold translate. replace (a / PGSIZE * PGSIZE) with (va / PGSIZE * PGSIZE) by (unfold PGSIZE in *; lia).
    rewrite HU. by rewrite (proj2 (Z.eqb_neq _ 0)). }
  split.
  - intros x Hx. specialize (Hx v ltac:(left)). rewrite Hm. apply decide_False. unfold in_page, PGSIZE in *. lia.
  - intros a. unfold user_byte. case_decide as Ha.
    + rewrite Htr by done. simpl. rewrite Hm, decide_True by (unfold PGSIZE in *; lia). do 3 f_equal. unfold PGSIZE in *. lia.
    + destruct (translate U a) as [x|] eqn:Ex; [|done]. simpl. rewrite Hm. case_decide as Hx; [|done]. exfalso. apply Ha.
      set (b := va + (x - (v + va mod PGSIZE))). assert (Hb : va <= b < va + n) by (unfold b; lia).
      assert (Eb : translate U b = Some x) by (rewrite Htr by done; f_equal; unfold b, PGSIZE in *; lia).
      by rewrite (translate_inj _ _ _ _ _ _ _ _ _ H Ex Eb).
Qed.

(** Writing to a user page leaves the tables and the free list alone. *)
Lemma user_write k l pgdir D E U a v fl m1 :
  kmem_ok k l -> uspace (kmem_mem k) l pgdir D E U -> U !! a = Some (v, fl) -> same_but [v] (kmem_mem k) m1 ->
  kmem_ok (with_mem m1 k) l /\ uspace m1 l pgdir D E U /\ same_but (user_pages U) (kmem_mem k) m1.
Proof.
  intros Hk H HU Hs. destruct (us_page _ _ _ _ _ _ _ H a v fl HU) as (_ & Hv & _ & _ & Hvl & Hvt).
  split; [|split].
  - by apply (kmem_frame kernel_end k l [v]); [..|intros q ->%list_elem_of_singleton].
  - apply (uspace_frame kernel_end (kmem_mem k) m1 l l pgdir D E U [v] H Hs); [by intros q ->%list_elem_of_singleton| |].
    + by intros q Hq ->%list_elem_of_singleton.
    + intros q Hq. by apply (space_pages_good _ _ _ _ _ _ _ q H).
  - eapply same_but_weaken; [|exact Hs]. intros q ->%list_elem_of_singleton. apply elem_user_pages. by exists a, fl.
Qed.

(** The result of [copyout]: the user reads the bytes of the buffer, or a page of
    the range is not the user's. *)
Definition copyout_result (m : mem) (U : umap) (va : Z) (buf : list Z) (r : Z) (m' : mem) : Prop :=
  let len := Z.of_nat (length buf) in
  same_but (user_pages U) m m' /\
  (r = 0 /\ (forall a, user_byte m' U a = if decide (va <= a < va + len) then Some (byte_at buf (Z.to_nat (a - va))) else user_byte m U a) \/
   r = -1 /\ exists a, va <= a < va + len /\ translate U a = None).

Lemma copyout_loop_ok pgdir l D E U fuel : forall k va buf,
  let len := Z.of_nat (length buf) in
  kmem_ok k l -> uspace (kmem_mem k) l pgdir D E U -> 0 <= va -> (length buf <= fuel)%nat -> va + len <= KERNBASE ->
  (forall a, va <= a < va + len -> is_Some (U !! (a / PGSIZE * PGSIZE))) ->
  exists k' r, copyout_loop pgdir va buf fuel k = Ret r k' /\ kmem_ok k' l /\ uspace (kmem_mem k') l pgdir D E U /\
    copyout_result (kmem_mem k) U va buf r (kmem_mem k').
Proof.
  induction fuel as [|fuel IH]; intros k va buf len Hk H Hva Hlen Htop Hmap; cbn [copyout_loop]; fold len; unfold copyout_result; fold len.
  all: destruct (Z.ltb_spec 0 len) as [Hpos|Hz]; [|
    exists k, 0; split; [done|]; split; [done|]; split; [done|]; split; [apply same_but_refl|left; split; [done|]; intros a; by rewrite decide_False by lia]].
  { lia. }
  destruct (Hmap va ltac:(lia)) as [[v fl] HU].
  assert (Epg : PGROUNDDOWN va = va / PGSIZE * PGSIZE) by (apply PGROUNDDOWN_eq; unfold is_u32, KERNBASE in *; lia).
  assert (Eoff : va - va / PGSIZE * PGSIZE = va mod PGSIZE) by (unfold PGSIZE; lia).
  rewrite Epg. unfold mbind at 1, M_bind at 1. rewrite (uva2ka_ok k l pgdir D E U _ v fl H HU).
  destruct (us_page _ _ _ _ _ _ _ H _ v fl HU) as (_ & Hv & _). destruct (good_page_bounds _ v Hv) as (_ & _ & Hv0).
  destruct (Z.eqb_spec (Z.land fl PTE_U) 0) as [Hfl|Hfl].
  { rewrite Z.eqb_refl. exists k, (-1). split; [done|]. split; [done|]. split; [done|]. split; [apply same_but_refl|]. right. split; [done|].
    exists va. split; [lia|]. unfold translate. by rewrite HU, Hfl. }
  rewrite (proj2 (Z.eqb_neq v 0)) by done. rewrite Eoff. set (n := Z.min (PGSIZE - va mod PGSIZE) len).
  assert (Hn : 0 < n <= PGSIZE - va mod PGSIZE) by (unfold n, PGSIZE; lia). assert (Hnl : n <= len) by (unfold n; lia).
  set (b1 := take (Z.to_nat n) buf). set (b2 := drop (Z.to_nat n) buf).
  assert (L1 : Z.of_nat (length b1) = n) by (unfold b1; rewrite length_take; lia).
  assert (L2 : Z.of_nat (length b2) = len - n) by (unfold b2; rewrite length_drop; lia).
  destruct (copy_chunk _ _ _ _ _ _ va b1 v fl H HU Hfl ltac:(lia)) as [Hs1 Hb1]. rewrite L1 in Hb1. unfold mbind at 1, M_bind at 1, set_mem, modify.
  set (m1 := copy_in _ b1 (kmem_mem k)) in *. change (mkKmem m1 _ _ _) with (with_mem m1 k).
  destruct (user_write k l pgdir D E U _ v fl m1 Hk H HU Hs1) as (Hk1 & H1 & Hsu).
  assert (Hnext : u32 (va / PGSIZE * PGSIZE + PGSIZE) = va / PGSIZE * PGSIZE + PGSIZE) by (apply u32_id; unfold KERNBASE, PGSIZE in *; lia).
  rewrite Hnext. set (va1 := va / PGSIZE * PGSIZE + PGSIZE).
  assert (Hva1 : n < len -> va1 = va + n) by (unfold va1, n, PGSIZE; lia).
  destruct (IH (with_mem m1 k) va1 b2 Hk1 H1) as (k' & r & Hrun & Hk' & H' & Hs' & Hr); [unfold va1, PGSIZE; lia|lia|..].
  { rewrite L2. destruct (decide (n = len)); [|lia]. unfold va1, KERNBASE, PGSIZE in *. lia. }
  { rewrite L2. intros a Ha. apply Hmap. lia. }
  exists k', r. split; [exact Hrun|]. split; [done|]. split; [done|]. cbn [with_mem kmem_mem] in Hs', Hr. rewrite L2 in Hr. split; [by eapply same_but_trans|].
  destruct Hr as [[-> Hr]|(-> & a & Ha & Htr)]; [left|right; split; [done|]; exists a; split; [lia|done]]. split; [done|].
  intros a. rewrite Hr. destruct (decide (va1 <= a < va1 + (len - n))) as [Ha|Ha].
  - rewrite decide_True by lia. f_equal. unfold b2, byte_at. rewrite lookup_drop. do 2 f_equal. lia.
  - rewrite Hb1. destruct (decide (va <= a < va + n)).
    + rewrite decide_True by lia. f_equal. unfold b1, byte_at. by rewrite lookup_take_lt by lia.
    + by rewrite decide_False by lia.
Qed.

(** The space after [clearpteu]. *)
Lemma clearpteu_ok k l pgdir D E U a v fl :
  kmem_ok k l -> uspace (kmem_mem k) l pgdir D E U -> U !! a = Some (v, fl) ->
  exists k', clearpteu pgdir a k = Ret tt k' /\ kmem_ok k' l /\
    uspace (kmem_mem k') l pgdir D (upd_entry E a (pte_of v (no_user fl))) (<[a := (v, no_user fl)]> U) /\
    same_but (table_pages pgdir D) (kmem_mem k) (kmem_mem k').
Proof.
  intros Hk H HU. destruct (user_table kernel_end k _ _ _ _ _ _ _ _ H HU) as (t & Ht & Hwalk & Hnz & Hword). pose proof H as [Hsp H2 H3 H4].
  destruct (H3 a v fl HU) as (Hua & Hv & Hfl & Hodd & Hvl & Hvt). destruct (no_user_flags fl Hfl) as (Hnf & Hno & _). pose proof Hua as [Ha _].
  destruct (sp_table _ _ _ _ _ _ Hsp _ t Ht) as (_ & Hgt & _ & Htl). pose proof (PTX_range a ltac:(destruct Ha; lia)) as Hx.
  set (w := pte_of v (no_user fl)). set (m1 := mset32 (t + 4 * PTX a) w (kmem_mem k)).
  assert (Hs : same_but [t] (kmem_mem k) m1) by (by apply (same_but_word kernel_end)).
  exists (with_mem m1 k). split; [|split; [|split]].
  - unfold clearpteu, mbind at 1, M_bind at 1. rewrite Hwalk, Hnz. unfold mbind, M_bind, lw, gets. rewrite Hword.
    fold (no_user (pte_of v fl)). by rewrite no_user_pte.
  - by apply (kmem_frame kernel_end k l [t]); [..|intros q ->%list_elem_of_singleton].
  - constructor.
    + apply space_store; [done|done|done|]. by apply (pte_of_fields kernel_end v (no_user fl)).
    + intros b Hb. unfold upd_entry. destruct (decide (b = a)) as [->|Hne]; [by rewrite lookup_insert_eq|]. rewrite lookup_insert_ne by done. by apply H2.
    + intros b v' fl'. destruct (decide (b = a)) as [->|Hne]; [|rewrite lookup_insert_ne by done; apply H3].
      rewrite lookup_insert_eq. intros [= <- <-]. by rewrite Hno.
    + intros b c v' f1 f2 Hb Hc.
      assert (Hold : forall b f, <[a := (v, no_user fl)]> U !! b = Some (v', f) -> exists f', U !! b = Some (v', f')).
      { intros b' f. destruct (decide (b' = a)) as [->|Hne]; [rewrite lookup_insert_eq; intros [= <- _]; eauto|rewrite lookup_insert_ne by done; eauto]. }
      destruct (Hold b f1 Hb) as [? ?], (Hold c f2 Hc) as [? ?]. by eapply H4.
  - eapply same_but_weaken; [|exact Hs]. intros q ->%list_elem_of_singleton. apply elem_table_pages. right. eauto.
Qed.
End Access.
