(* ===== verification/VmClaims.v ===== *)
(** * Address spaces

    The operations of [vm.c] on whole address spaces. *)
From stdpp Require Import gmap.
From S2P Require Import Prelude Cstring Kalloc Vm VmSpace VmUser VmOps VmCopy.
Local Open Scope Z_scope.

#[local] Opaque memset memmove kfree kalloc.

(** C21: [allocuvm] on a well-formed address space returns the new size after
    mapping a fresh zeroed page at every page address from [PGROUNDUP(oldsz)] up to
    it, writable and for the user; or it returns 0 and the user memory is what it
    was.  In both cases the pages of the space and the free pages are together
    those from before, all other mappings and all bytes outside of the free pages
    and the page tables are unchanged. *)
Theorem allocuvm_grows kernel_end k l pgdir D E U oldsz newsz
    (Hend : KERNBASE < kernel_end) (Hk : kmem_ok kernel_end k l) (Hu : uspace kernel_end (kmem_mem k) l pgdir D E U)
    (Hsz : 0 <= oldsz <= newsz) (Htop : newsz < KERNBASE)
    (Habove : forall b, PGROUNDUP oldsz <= b < newsz -> U !! b = None) :
  exists k' l' D' E' U' r, allocuvm kernel_end pgdir oldsz newsz k = Ret r k' /\
    kmem_ok kernel_end k' l' /\ uspace kernel_end (kmem_mem k') l' pgdir D' E' U' /\
    l' ++ space_pages pgdir D' U' ≡ₚ l ++ space_pages pgdir D U /\
    same_but (l ++ table_pages pgdir D) (kmem_mem k) (kmem_mem k') /\
    (forall b, KERNBASE <= b -> E' b = E b) /\
    (r = newsz /\ (forall b, ~ (PGROUNDUP oldsz <= b < PGROUNDUP newsz) -> U' !! b = U !! b) /\
       (forall b, page_addr b -> PGROUNDUP oldsz <= b < PGROUNDUP newsz ->
          exists v, U' !! b = Some (v, 7) /\ v ∈ l /\ zero_page (kmem_mem k') v) \/
     r = 0 /\ U' = U).
Proof.
  destruct (allocuvm_ok kernel_end Hend k l pgdir D E U oldsz newsz Hk Hu Hsz Htop Habove) as (k' & l' & D' & E' & U' & r & Hrun & Hk' & Hr).
  exists k', l', D', E', U', r. split; [done|]. split; [done|].
  destruct Hr as [[-> [A1 A2 A3 A4 A5 A6 A7 A8 A9]]|(-> & -> & [A1 A2 A3 A4 A5 A6 A7 A8 A9])];
    (split; [done|]; split; [done|]; split; [done|]; split; [done|]); [left|right; done].
  split; [done|]. split; [done|]. exact A9.
Qed.

(** C20: [copyuvm], which [fork] uses, gives the child a directory of its own: the
    kernel part of [kmap\[\]], and for every page of the parent below [sz] a page
    that was free, with the same permissions and the same bytes.  The parent's
    space is as before.  When memory runs out it returns 0 and frees what it took
    with the exception of at most one page. *)
Theorem copyuvm_copies kernel_end data k l pgdir D E U sz
    (Hend : KERNBASE < kernel_end) (Hdata : data mod 4096 = 0) (Hrange : KERNLINK < data < KERNBASE + PHYSTOP)
    (Hk : kmem_ok kernel_end k l) (Hu : uspace kernel_end (kmem_mem k) l pgdir D E U)
    (Hsz : 0 <= sz <= KERNBASE) (Hmapped : mapped_below sz U) :
  exists k' l' r, copyuvm kernel_end data pgdir sz k = Ret r k' /\ kmem_ok kernel_end k' l' /\
    uspace kernel_end (kmem_mem k') l' pgdir D E U /\ same_but l (kmem_mem k) (kmem_mem k') /\
    ((exists D' E' U', uspace kernel_end (kmem_mem k') l' r D' E' U' /\ l' ++ space_pages r D' U' ≡ₚ l /\
        (forall b, KERNBASE <= b -> E' b = kernel_entries data b) /\
        copy_of (kmem_mem k) U (PGROUNDUP sz) (kmem_mem k') U') \/
     r = 0 /\ exists lost, (length lost <= 1)%nat /\ lost ++ l' ≡ₚ l).
Proof.
  destruct (copyuvm_ok kernel_end data Hend Hdata Hrange k l pgdir D E U sz Hk Hu Hsz Hmapped) as (k' & l' & r & d & Hrun & Hk' & [Hs Hr] & Hu').
  exists k', l', r. split; [done|]. split; [done|]. split; [done|]. split; [done|].
  destruct Hr as [(-> & D' & E' & U' & [C1 C2 C3 C4 C5])|Hr]; [left|by right]. by exists D', E', U'.
Qed.

(** C22: [freevm] gives every page of an address space back to the allocator, its
    user memory, page tables and directory, each exactly once, and writes to no
    other page. *)
Theorem freevm_returns_all kernel_end k l pgdir D E U
    (Hend : KERNBASE < kernel_end) (Hk : kmem_ok kernel_end k l) (Hu : uspace kernel_end (kmem_mem k) l pgdir D E U) :
  exists k' l', freevm kernel_end pgdir k = Ret tt k' /\ kmem_ok kernel_end k' l' /\ NoDup (space_pages pgdir D U ++ l) /\
    l' ≡ₚ space_pages pgdir D U ++ l /\ same_but (space_pages pgdir D U) (kmem_mem k) (kmem_mem k').
Proof.
  destruct (freevm_ok kernel_end Hend k l pgdir D E U Hk Hu) as (k' & l' & Hrun & Hk' & Hl & Hs).
  exists k', l'. split; [done|]. split; [done|]. split; [|done]. rewrite <- Hl. apply (ok_nodup _ _ _ Hk').
Qed.

(** ** An example: one page of user memory at address 0, and a free page *)

Definition demo_end : Z := KERNBASE + 0x400000.
Definition demo_dir : Z := demo_end.
Definition demo_table : Z := demo_end + 0x1000.
Definition demo_page : Z := demo_end + 0x2000.
Definition demo_free : Z := demo_end + 0x3000.
Definition demo_mem : mem :=
  mset32 (demo_table + 4 * PTX 0) (pte_of demo_page 7) (mset32 (demo_dir + 4 * PDX 0) (pde_of demo_table) (memset demo_table 0 PGSIZE (fun _ => 0))).
Definition demo_kmem : kmem := mkKmem demo_mem demo_free false false.
Definition demo_tables : gmap Z Z := <[PDX 0 := demo_table]> ∅.
Definition demo_entries : Z -> Z := upd_entry (fun _ => 0) 0 (pte_of demo_page 7).
Definition demo_user : umap := <[0 := (demo_page, 7)]> ∅.

Lemma demo_good v : v ∈ [demo_dir; demo_table; demo_page; demo_free] -> good_page demo_end v.
Proof. rewrite !elem_of_cons, elem_of_nil. intros H. repeat destruct H as [->|H]; try done; (split; [done|]; split; [done|]; split; done). Qed.

Lemma demo_space : uspace demo_end demo_mem [demo_free] demo_dir demo_tables demo_entries demo_user.
Proof.
  assert (Hdir : good_page demo_end demo_dir) by (apply demo_good; left).
  assert (H1 : space demo_end (fun _ => 0) [demo_table; demo_free] demo_dir ∅ (fun _ => 0)).
  { constructor; [done|by apply (bool_decide_unpack _)|by intros ? ?; rewrite lookup_empty..|by intros; rewrite lookup_empty|].
    intros a _. unfold entry. by rewrite lookup_empty. }
  assert (Ha : page_addr 0) by (split; lia). assert (Htab : good_page demo_end demo_table) by (apply demo_good; right; left).
  destruct (space_table demo_end (fun _ => 0) [demo_free] demo_table demo_dir ∅ (fun _ => 0) 0 H1 Htab) as [H2 _];
    [by apply (bool_decide_unpack _)|done|by rewrite lookup_empty|].
  pose proof (space_store demo_end _ _ _ _ _ 0 demo_table (pte_of demo_page 7) H2 Ha (lookup_insert_eq _ _ _) ltac:(done)) as H3.
  apply (uspace_map demo_end (mset32 (demo_dir + 4 * PDX 0) (pde_of demo_table) (memset demo_table 0 PGSIZE (fun _ => 0))) demo_mem [demo_free] [demo_free] demo_dir demo_tables demo_tables (fun _ => 0) ∅ 0 demo_page 7).
  - apply uspace_kernel; [exact H2|done].
  - apply tables_grown_refl.
  - split; [done|]. unfold KERNBASE. lia.
  - apply lookup_empty.
  - apply demo_good. do 2 right. left.
  - by apply (bool_decide_unpack _).
  - by apply (bool_decide_unpack _).
  - lia.
  - done.
  - exact H3.
Qed.

Lemma demo_kmem_ok : kmem_ok demo_end demo_kmem [demo_free].
Proof.
  constructor.
  - split; [done|]. by vm_compute.
  - by apply NoDup_singleton.
  - intros v ->%list_elem_of_singleton. apply demo_good. do 3 right. left.
  - done.
Qed.

Lemma demo_mapped : mapped_below PGSIZE demo_user.
Proof. intros a [Ha Hal] Hlt. unfold PGSIZE in Hlt. replace a with 0 by lia. unfold demo_user. by rewrite lookup_insert_eq. Qed.

Lemma allocuvm_grows_witness :
  exists k' l' D' E' U' r, allocuvm demo_end demo_dir 4096 5000 demo_kmem = Ret r k' /\
    kmem_ok demo_end k' l' /\ uspace demo_end (kmem_mem k') l' demo_dir D' E' U' /\
    l' ++ space_pages demo_dir D' U' ≡ₚ [demo_free] ++ space_pages demo_dir demo_tables demo_user /\
    same_but ([demo_free] ++ table_pages demo_dir demo_tables) demo_mem (kmem_mem k') /\
    (forall b, KERNBASE <= b -> E' b = demo_entries b) /\
    (r = 5000 /\ (forall b, ~ (PGROUNDUP 4096 <= b < PGROUNDUP 5000) -> U' !! b = demo_user !! b) /\
       (forall b, page_addr b -> PGROUNDUP 4096 <= b < PGROUNDUP 5000 ->
          exists v, U' !! b = Some (v, 7) /\ v ∈ [demo_free] /\ zero_page (kmem_mem k') v) \/
     r = 0 /\ U' = demo_user).
Proof.
  apply (allocuvm_grows demo_end demo_kmem [demo_free] demo_dir demo_tables demo_entries demo_user 4096 5000).
  - reflexivity.
  - exact demo_kmem_ok.
  - exact demo_space.
  - lia.
  - reflexivity.
  - intros b Hb. change (PGROUNDUP 4096) with 4096 in Hb. unfold demo_user. rewrite lookup_insert_ne by lia. apply lookup_empty.
Defined.

Lemma copyuvm_copies_witness :
  exists k' l' r, copyuvm demo_end (KERNLINK + 4096) demo_dir PGSIZE demo_kmem = Ret r k' /\ kmem_ok demo_end k' l' /\
    uspace demo_end (kmem_mem k') l' demo_dir demo_tables demo_entries demo_user /\ same_but [demo_free] demo_mem (kmem_mem k') /\
    ((exists D' E' U', uspace demo_end (kmem_mem k') l' r D' E' U' /\ l' ++ space_pages r D' U' ≡ₚ [demo_free] /\
        (forall b, KERNBASE <= b -> E' b = kernel_entries (KERNLINK + 4096) b) /\
        copy_of demo_mem demo_user (PGROUNDUP PGSIZE) (kmem_mem k') U') \/
     r = 0 /\ exists lost, (length lost <= 1)%nat /\ lost ++ l' ≡ₚ [demo_free]).
Proof.
  apply (copyuvm_copies demo_end (KERNLINK + 4096) demo_kmem [demo_free] demo_dir demo_tables demo_entries demo_user PGSIZE).
  - reflexivity.
  - reflexivity.
  - split; reflexivity.
  - exact demo_kmem_ok.
  - exact demo_space.
  - split; [discriminate|]. discriminate.
  - exact demo_mapped.
Defined.

Lemma freevm_returns_all_witness :
  exists k' l', freevm demo_end demo_dir demo_kmem = Ret tt k' /\ kmem_ok demo_end k' l' /\ NoDup (space_pages demo_dir demo_tables demo_user ++ [demo_free]) /\
    l' ≡ₚ space_pages demo_dir demo_tables demo_user ++ [demo_free] /\ same_but (space_pages demo_dir demo_tables demo_user) demo_mem (kmem_mem k').
Proof.
  apply (freevm_returns_all demo_end demo_kmem [demo_free] demo_dir demo_tables demo_entries demo_user).
  - reflexivity.
  - exact demo_kmem_ok.
  - exact demo_space.
Defined.
