(* ===== verification/Exec.v ===== *)
(** * Replacing the image of a process

    [exec.c] and [loaduvm] of [vm.c], over the page tables of [Vm] and the inode
    operations [FsOps].  The state is that of the file system, of the page
    allocator, and the fields of the current process that [exec] uses; the
    argument strings are read from the old image, which is not written before
    [exec] commits.  [switchuvm] loads the new directory into [cr3]: only its
    check of the directory is state of the model. *)
From S2P Require Import Prelude Cstring Kalloc Bytes Args File Vm.
Local Open Scope Z_scope.

(** ** [elf.h] *)

Definition ELF_MAGIC : Z := 0x464C457F.
Definition ELF_PROG_LOAD : Z := 1.
Definition sizeof_elfhdr : Z := 52.
Definition sizeof_proghdr : Z := 32.

Record elfhdr := mkElfhdr { elf_magic : Z; elf_entry : Z; elf_phoff : Z; elf_phnum : Z }.
Definition elfhdr_of (b : list Z) : elfhdr :=
  mkElfhdr (u32 (getle 4 0 b)) (u32 (getle 4 24 b)) (u32 (getle 4 28 b)) (u16 (getle 2 44 b)).

Record proghdr := mkProghdr { ph_type : Z; ph_off : Z; ph_vaddr : Z; ph_filesz : Z; ph_memsz : Z }.
Definition proghdr_of (b : list Z) : proghdr :=
  mkProghdr (u32 (getle 4 0 b)) (u32 (getle 4 4 b)) (u32 (getle 4 8 b)) (u32 (getle 4 16 b)) (u32 (getle 4 20 b)).

(** The fields of [struct proc] that [exec] reads or writes. *)
Record image := mkImage { im_pgdir : Z; im_sz : Z; im_eip : Z; im_esp : Z; im_name : list Z; im_cwd : nat }.

Record xstate (S : Type) := mkX { e_fs : S; e_mem : kmem; e_img : image }.
Arguments mkX {S} _ _ _.
Arguments e_fs {S} _.
Arguments e_mem {S} _.
Arguments e_img {S} _.

Section Exec.
Context {S : Type} {ops : FsOps S} (kernel_end data : Z).
Notation X := (M (xstate S)).

Definition on_fs {A} (m : M S A) : X A := fun x =>
  match m (e_fs x) with
  | Ret a s => Ret a (mkX s (e_mem x) (e_img x))
  | Panic msg => Panic msg
  | Asleep s => Asleep (mkX s (e_mem x) (e_img x))
  end.
Definition on_mem {A} (m : M kmem A) : X A := fun x =>
  match m (e_mem x) with
  | Ret a k => Ret a (mkX (e_fs x) k (e_img x))
  | Panic msg => Panic msg
  | Asleep k => Asleep (mkX (e_fs x) k (e_img x))
  end.

(** ** [loaduvm] *)

(** The loop from [i] on; [fuel] is the number of pages. *)
Fixpoint loaduvm_loop (pgdir addr : Z) (ip : nat) (offset sz i : Z) (fuel : nat) : X Z :=
  if i <? sz then
    match fuel with
    | O => panic "diverges"
    | Datatypes.S fuel' =>
        pte ← on_mem (walkpgdir pgdir (u32 (addr + i)) false);
        if pte =? 0 then panic "loaduvm: address should exist"
        else
          e ← on_mem (lw pte);
          let pa := PTE_ADDR e in
          let n := if sz - i <? PGSIZE then sz - i else PGSIZE in
          r ← on_fs (x_readi ip (u32 (offset + i)) n);
          on_mem (set_mem (copy_in (P2V pa) r.2));;
          if negb (u32 r.1 =? n) then mret (-1)
          else loaduvm_loop pgdir addr ip offset sz (u32 (i + PGSIZE)) fuel'
    end
  else mret 0.

Definition loaduvm (pgdir addr : Z) (ip : nat) (offset sz : Z) : X Z :=
  if negb (addr mod PGSIZE =? 0) then panic "loaduvm: addr must be page aligned"
  else loaduvm_loop pgdir addr ip offset sz 0 (Z.to_nat ((sz + PGSIZE - 1) / PGSIZE)).

(** ** [exec] *)

(** [bad:] *)
Definition exec_bad (pgdir : Z) (ip : option nat) : X Z :=
  when (negb (pgdir =? 0)) (on_mem (freevm kernel_end pgdir));;
  match ip with
  | Some ip => on_fs (x_iunlockput ip);; on_fs x_end_op
  | None => mret tt
  end;;
  mret (-1).

(** The loop over the [n] program headers from offset [off] on; [None] for
    [goto bad]. *)
Fixpoint exec_segments (pgdir : Z) (ip : nat) (off sz : Z) (n : nat) : X (option Z) :=
  match n with
  | O => mret (Some sz)
  | Datatypes.S n' =>
      r ← on_fs (x_readi ip off sizeof_proghdr);
      if negb (u32 r.1 =? sizeof_proghdr) then mret None
      else
        let ph := proghdr_of r.2 in
        if negb (ph_type ph =? ELF_PROG_LOAD) then exec_segments pgdir ip (u32 (off + sizeof_proghdr)) sz n'
        else if ph_memsz ph <? ph_filesz ph then mret None
        else if u32 (ph_vaddr ph + ph_memsz ph) <? ph_vaddr ph then mret None
        else
          sz' ← on_mem (allocuvm kernel_end pgdir sz (u32 (ph_vaddr ph + ph_memsz ph)));
          if sz' =? 0 then mret None
          else if negb (ph_vaddr ph mod PGSIZE =? 0) then mret None
          else
            r ← loaduvm pgdir (ph_vaddr ph) ip (ph_off ph) (ph_filesz ph);
            if r <? 0 then mret None
            else exec_segments pgdir ip (u32 (off + sizeof_proghdr)) sz' n'
  end.

(** The bytes of a string and its terminator. *)
Definition cbytes (s : list Z) : list Z := take (Z.to_nat (strlen s + 1)) (s ++ [0]).

(** The loop over [argv], from argument [argc] on: the stack pointer and the
    entries of [ustack\[3...\]]. *)
Fixpoint push_args (pgdir sp : Z) (argv : list (list Z)) (argc : nat) : X (option (Z * list Z)) :=
  match argv with
  | [] => mret (Some (sp, []))
  | s :: argv' =>
      if (MAXARG <=? argc)%nat then mret None
      else
        let sp' := Z.land (u32 (sp - (strlen s + 1))) (u32 (Z.lnot 3)) in
        r ← on_mem (copyout pgdir sp' (cbytes s));
        if r <? 0 then mret None
        else
          o ← push_args pgdir sp' argv' (Datatypes.S argc);
          mret (prod_map id (cons sp') <$> o)
  end.

(** [ustack], with the return address, [argc] and [argv] in front. *)
Definition ustack_of (sp : Z) (ptrs : list Z) : list Z :=
  let argc := Z.of_nat (length ptrs) in
  [0xffffffff; argc; u32 (sp - (argc + 1) * 4)] ++ ptrs ++ [0].

(** The two pages above [sz] and the stack: the new size and the stack pointer. *)
Definition exec_stack (pgdir sz : Z) (argv : list (list Z)) : X (option (Z * Z)) :=
  sz' ← on_mem (allocuvm kernel_end pgdir sz (u32 (sz + 2 * PGSIZE)));
  if sz' =? 0 then mret None
  else
    on_mem (clearpteu pgdir (u32 (sz' - 2 * PGSIZE)));;
    o ← push_args pgdir sz' argv 0;
    match o with
    | None => mret None
    | Some (sp, ptrs) =>
        let sp' := u32 (sp - (3 + Z.of_nat (length ptrs) + 1) * 4) in
        r ← on_mem (copyout pgdir sp' (concat (le_bytes 4 <$> ustack_of sp ptrs)));
        if r <? 0 then mret None else mret (Some (sz', sp'))
    end.

(** The part of the path after the last slash. *)
Fixpoint last_of (last s : list Z) : list Z :=
  match s with
  | [] => last
  | c :: s' => if c =? 0 then last else if c =? 47 then last_of s' s' else last_of last s'
  end.

Definition exec_commit (path : list Z) (pgdir sz eip sp : Z) : X Z :=
  img ← gets e_img;
  let oldpgdir := im_pgdir img in
  modify (fun x => mkX (e_fs x) (e_mem x) (mkImage pgdir sz eip sp (safestrcpy (im_name img) (last_of path path) 16) (im_cwd img)));;
  (if pgdir =? 0 then panic "switchuvm: no pgdir" else mret tt);;
  on_mem (freevm kernel_end oldpgdir);;
  mret 0.

Definition exec (path : list Z) (argv : list (list Z)) : X Z :=
  on_fs x_begin_op;;
  img ← gets e_img;
  o ← on_fs (x_namei (im_cwd img) path);
  match o with
  | None => on_fs x_end_op;; mret (-1)
  | Some ip =>
      on_fs (x_ilock ip);;
      r ← on_fs (x_readi ip 0 sizeof_elfhdr);
      if negb (u32 r.1 =? sizeof_elfhdr) then exec_bad 0 (Some ip)
      else
        let elf := elfhdr_of r.2 in
        if negb (elf_magic elf =? ELF_MAGIC) then exec_bad 0 (Some ip)
        else
          pgdir ← on_mem (setupkvm kernel_end data);
          if pgdir =? 0 then exec_bad 0 (Some ip)
          else
            o ← exec_segments pgdir ip (elf_phoff elf) 0 (Z.to_nat (elf_phnum elf));
            match o with
            | None => exec_bad pgdir (Some ip)
            | Some sz =>
                on_fs (x_iunlockput ip);;
                on_fs x_end_op;;
                o ← exec_stack pgdir (PGROUNDUP sz) argv;
                match o with
                | None => exec_bad pgdir None
                | Some (sz, sp) => exec_commit path pgdir sz (elf_entry elf) sp
                end
            end
  end.
End Exec.
