(* ===== verification/ExecInv.v ===== *)
(** * [exec]: the image under construction

    Until [exec] commits it works on pages that were free when it was called: the
    old image is intact, and the new directory owns all pages that were taken. *)
From stdpp Require Import gmap.
From S2P Require Import Prelude Cstring Kalloc Bytes Args File FileInv Vm VmSpace VmUser VmOps VmCopy VmAccess Exec.
Local Open Scope Z_scope.

#[local] Opaque memset memmove kfree kalloc.

Section Build.
Context {S : Type} {ops : FsOps S} (kernel_end data : Z) (Hend : KERNBASE < kernel_end).
Context (P : string -> Prop) {laws : FsLaws P}.
Notation good_page := (good_page kernel_end).
Notation kmem_ok := (kmem_ok kernel_end).
Notation uspace := (uspace kernel_end).

(** The state at the call: memory, free pages, and the process. *)
Context (m0 : mem) (l0 : list Z) (img0 : image).

(** The new directory maps the user memory below [sz], as [U]. *)
Record building (pgdir sz : Z) (U : umap) (k : kmem) : Prop := {
  bu_space : exists l D E, kmem_ok k l /\ uspace (kmem_mem k) l pgdir D E U /\ l ++ space_pages pgdir D U ≡ₚ l0 /\
    (forall b, KERNBASE <= b -> E b = kernel_entries data b);
  bu_frame : same_but l0 m0 (kmem_mem k);
  bu_size : 0 <= sz <= KERNBASE;
  bu_mapped : mapped_below sz U;
  bu_above b : sz <= b -> U !! b = None
}.

(** The old image is as it was. *)
Definition intact (x : xstate S) : Prop := e_img x = img0 /\ same_but l0 m0 (kmem_mem (e_mem x)).
(** It is, and no page is in use. *)
Definition undone (x : xstate S) : Prop := intact x /\ exists l, kmem_ok (e_mem x) l /\ l ≡ₚ l0.

(** ** Parts of the state *)

Lemma wp_on_fs {A} (m : M S A) (R : A -> Prop) (Q : A -> xstate S -> Prop) QA x :
  wp m (fun a _ => R a) (fun _ => True) P (e_fs x) ->
  (forall a s, R a -> Q a (mkX s (e_mem x) (e_img x))) -> (forall s, QA (mkX s (e_mem x) (e_img x))) -> wp (on_fs m) Q QA P x.
Proof. unfold wp, on_fs. destruct (m (e_fs x)); intros Hm HQ HA; [by apply HQ|done|apply HA]. Qed.

Lemma wp_fs_quiet {A} (m : M S A) (Q : A -> xstate S -> Prop) x :
  quiet P m -> intact x -> (forall a s, Q a (mkX s (e_mem x) (e_img x))) -> wp (on_fs m) Q intact P x.
Proof. intros Hm Hi HQ. apply (wp_on_fs m (fun _ => True)); [apply Hm|by intros|intros s; apply Hi]. Qed.

Lemma wp_on_mem {A} (m : M kmem A) r k (Q : A -> xstate S -> Prop) QA x :
  m (e_mem x) = Ret r k -> Q r (mkX (e_fs x) k (e_img x)) -> wp (on_mem m) Q QA P x.
Proof. intros H HQ. unfold wp, on_mem. by rewrite H. Qed.

(** ** Growing the new image *)

Lemma building_allocated pgdir sz U k l D E newsz k' l' D' E' U' :
  building pgdir sz U k -> uspace (kmem_mem k) l pgdir D E U -> l ++ space_pages pgdir D U ≡ₚ l0 ->
  (forall b, KERNBASE <= b -> E b = kernel_entries data b) -> sz <= newsz <= KERNBASE -> kmem_ok k' l' ->
  allocated kernel_end (kmem_mem k) l pgdir D E U (PGROUNDUP sz) (PGROUNDUP newsz) (kmem_mem k') l' D' E' U' ->
  building pgdir newsz U' k'.
Proof using All.
  intros H Hu Hl HE Hsz Hk' [A1 A2 A3 A4 A5 A6 A7 A8 A9]. pose proof (bu_size _ _ _ _ H) as H0.
  destruct (PGROUNDUP_page sz) as [[Hp1 Hp2] Hp3]; [unfold KERNBASE in *; lia|]. destruct (PGROUNDUP_page newsz) as [[Hn1 Hn2] Hn3]; [unfold KERNBASE in *; lia|].
  constructor.
  - exists l', D', E'. split; [done|]. split; [done|]. split; [by rewrite A2|]. intros b Hb. rewrite A7 by done. by apply HE.
  - eapply same_but_trans; [apply H|]. eapply same_but_weaken; [|exact A3]. intros q Hq. rewrite <- Hl. unfold space_pages.
    rewrite !elem_of_app in *. tauto.
  - lia.
  - intros a Ha Hlt. pose proof Ha as [? ?]. destruct (decide (a < sz)) as [Hin|Hout].
    + rewrite A8 by lia. by apply (bu_mapped _ _ _ _ H).
    + destruct (A9 a Ha) as (v & -> & _); [lia|done].
  - intros b Hb. destruct (decide (PGROUNDUP sz <= b < PGROUNDUP newsz)) as [Hin|Hout]; [|rewrite A8 by done; apply (bu_above _ _ _ _ H); lia].
    destruct (U' !! b) as [[v fl]|] eqn:Eb; [|done]. exfalso. destruct (us_page _ _ _ _ _ _ _ A1 b v fl Eb) as ([[_ ?] _] & _). lia.
Qed.

Lemma building_alloc pgdir sz U k newsz :
  building pgdir sz U k -> 0 <= newsz ->
  exists k' r, allocuvm kernel_end pgdir sz newsz k = Ret r k' /\
    (r = 0 /\ building pgdir sz U k' \/
     0 < r /\ newsz <= r /\ r <= Z.max sz newsz /\ exists U', building pgdir r U' k' /\
       forall b, page_addr b -> PGROUNDUP sz <= b < newsz -> exists v, U' !! b = Some (v, 7)).
Proof using All.
  intros H Hn. pose proof (bu_size _ _ _ _ H) as H0. destruct (PGROUNDUP_page sz) as [[Hp1 Hp2] Hp3]; [unfold KERNBASE in *; lia|].
  destruct (Z.leb_spec KERNBASE newsz) as [Hbig|Hlow].
  { exists k, 0. split; [|by left]. unfold allocuvm. by rewrite (proj2 (Z.leb_le KERNBASE newsz)). }
  destruct (Z.ltb_spec newsz sz) as [Hless|Hmore].
  { exists k, sz. split; [|right; split; [lia|]; split; [lia|]; split; [lia|]; exists U; split; [done|intros b _ ?; lia]].
    unfold allocuvm. by rewrite (proj2 (Z.leb_gt KERNBASE newsz)), (proj2 (Z.ltb_lt newsz sz)). }
  destruct (bu_space _ _ _ _ H) as (l & D & E & Hk & Hu & Hl & HE).
  destruct (allocuvm_ok kernel_end Hend k l pgdir D E U sz newsz Hk Hu) as (k' & l' & D' & E' & U' & r & Hrun & Hk' & Hr); [lia|lia|..].
  { intros b Hb. apply (bu_above _ _ _ _ H). lia. }
  exists k', r. split; [done|]. destruct Hr as [[-> Ha]|(-> & -> & Ha)].
  - assert (Hb : building pgdir newsz U' k') by (eapply building_allocated; try done; lia).
    destruct (decide (newsz = 0)) as [->|Hpos].
    + left. split; [done|]. replace sz with 0 in * by lia. replace U with U'; [done|]. apply map_eq. intros b.
      apply (al_old _ _ _ _ _ _ _ _ _ _ _ _ _ _ Ha). lia.
    + right. split; [lia|]. split; [lia|]. split; [lia|]. exists U'. split; [done|]. intros b Hpb Hb1.
      destruct (PGROUNDUP_page newsz) as [[? ?] ?]; [unfold KERNBASE in *; lia|].
      destruct (al_new _ _ _ _ _ _ _ _ _ _ _ _ _ _ Ha b Hpb) as (v & ? & _); [lia|]. by exists v.
  - left. split; [done|]. eapply building_allocated; try done; lia.
Qed.

(** Writing into a page of the new image. *)
Lemma building_write pgdir sz U k a v fl m1 :
  building pgdir sz U k -> U !! a = Some (v, fl) -> same_but [v] (kmem_mem k) m1 -> building pgdir sz U (with_mem m1 k).
Proof using All.
  intros [(l & D & E & Hk & Hu & Hl & HE) H2 H3 H4 H5] HU Hs.
  destruct (user_write kernel_end k l pgdir D E U a v fl m1 Hk Hu HU Hs) as (Hk1 & Hu1 & Hs1).
  constructor; [|..|done|done|done].
  - exists l, D, E. done.
  - eapply same_but_trans; [exact H2|]. eapply same_but_weaken; [|exact Hs1]. intros q Hq. rewrite <- Hl. unfold space_pages. rewrite !elem_of_app. tauto.
Qed.

Lemma same_but_copy_in v bs m : Z.of_nat (length bs) <= PGSIZE -> same_but [v] m (copy_in v bs m).
Proof. intros Hl x Hx. specialize (Hx v ltac:(left)). rewrite copy_in_spec. apply decide_False. unfold in_page in Hx. lia. Qed.

Definition under_construction (pgdir sz : Z) (U : umap) (x : xstate S) : Prop := e_img x = img0 /\ building pgdir sz U (e_mem x).

Lemma construction_intact pgdir sz U x : under_construction pgdir sz U x -> intact x.
Proof. intros [? H]. split; [done|]. apply H. Qed.

Lemma construction_fs pgdir sz U x s : under_construction pgdir sz U x -> under_construction pgdir sz U (mkX s (e_mem x) (e_img x)).
Proof. done. Qed.

(** ** [loaduvm] *)

Lemma loaduvm_loop_ok pgdir sz U addr ip offset fsz fuel : forall i x,
  under_construction pgdir sz U x -> page_addr addr -> addr + fsz <= sz -> 0 <= i -> i mod 4096 = 0 -> fsz - i <= 4096 * Z.of_nat fuel ->
  wp (loaduvm_loop pgdir addr ip offset fsz i fuel) (fun _ => under_construction pgdir sz U) intact P x.
Proof using All.
  induction fuel as [|fuel IH]; intros i x Hx Ha Hsz Hi Hal Hfuel; cbn [loaduvm_loop].
  all: destruct (Z.ltb_spec i fsz) as [Hlt|Hge]; [|done].
  { lia. }
  pose proof Hx as [_ Hb]. pose proof (bu_size _ _ _ _ Hb) as Hk. pose proof Ha as [? ?].
  rewrite (u32_id (addr + i)) by (unfold KERNBASE in *; lia). assert (Hai : page_addr (addr + i)) by (split; unfold KERNBASE in *; lia).
  destruct (bu_mapped _ _ _ _ Hb (addr + i) Hai) as [[v fl] HU]; [lia|].
  destruct (bu_space _ _ _ _ Hb) as (l & D & E & _ & Hu & _ & _).
  destruct (user_table kernel_end (e_mem x) l pgdir D E U (addr + i) v fl Hu HU) as (t & _ & Hwalk & Hnz & Hword).
  destruct (us_page _ _ _ _ _ _ _ Hu _ v fl HU) as (_ & Hv & Hfl & _). destruct (pte_of_fields kernel_end v fl Hv Hfl) as (F1 & _).
  apply wp_bind. eapply wp_on_mem; [exact Hwalk|]. rewrite Hnz. apply wp_bind. eapply wp_on_mem; [unfold lw, gets; cbn [e_mem]; rewrite Hword; reflexivity|].
  cbn [e_fs e_mem e_img]. rewrite F1, (P2V_V2P kernel_end) by done. set (n := if fsz - i <? PGSIZE then fsz - i else PGSIZE).
  assert (Hn : 0 <= n <= PGSIZE) by (unfold n, PGSIZE; destruct (Z.ltb_spec (fsz - i) 4096); lia).
  apply wp_bind. eapply wp_on_fs.
  { apply q_readi; [|lia]. unfold u32. lia. }
  2: { intros s. by apply construction_intact with pgdir sz U, construction_fs. }
  cbn [e_fs e_mem e_img]. intros [r bs] s Hlen. cbn [snd fst] in *. apply wp_bind. eapply wp_on_mem; [reflexivity|]. cbn [e_fs e_mem e_img].
  assert (Hx' : under_construction pgdir sz U (mkX s (with_mem (copy_in v bs (kmem_mem (e_mem x))) (e_mem x)) (e_img x))).
  { split; [apply Hx|]. apply (building_write _ _ _ _ (addr + i) v fl); [done|done|]. apply same_but_copy_in. lia. }
  destruct (u32 r =? n); cbn [negb]; [|exact Hx'].
  rewrite u32_id by (unfold PGSIZE, KERNBASE in *; lia). apply IH; [exact Hx'|done|done|unfold PGSIZE; lia..].
Qed.

Lemma loaduvm_ok pgdir sz U addr ip offset fsz x :
  under_construction pgdir sz U x -> page_addr addr -> 0 <= fsz -> addr + fsz <= sz ->
  wp (loaduvm pgdir addr ip offset fsz) (fun _ => under_construction pgdir sz U) intact P x.
Proof using All.
  intros Hx Ha Hf Hsz. unfold loaduvm. change PGSIZE with 4096. pose proof Ha as [_ ->]. cbn [negb Z.eqb]. apply loaduvm_loop_ok; try done. lia.
Qed.

(** ** The program headers *)

Lemma exec_segments_ok pgdir ip n : forall off sz U x,
  under_construction pgdir sz U x -> 0 <= off ->
  wp (exec_segments kernel_end pgdir ip off sz n)
    (fun o x' => exists sz' U', under_construction pgdir sz' U' x' /\ forall v, o = Some v -> v = sz') intact P x.
Proof using All.
  induction n as [|n IH]; intros off sz U x Hx Hoff; cbn [exec_segments].
  { exists sz, U. split; [done|]. by intros v [= <-]. }
  assert (Hstop : forall sz U x, under_construction pgdir sz U x -> exists sz' U', under_construction pgdir sz' U' x /\ forall v, None = Some v -> v = sz')
    by (intros sz1 U1 x1 ?; exists sz1, U1; done).
  apply wp_bind. eapply wp_on_fs; [by apply q_readi| |intros s; by apply construction_intact with pgdir sz U, construction_fs].
  intros [r b] s _. cbn [fst snd]. set (x1 := mkX s (e_mem x) (e_img x)). pose proof (construction_fs _ _ _ _ s Hx : under_construction pgdir sz U x1) as Hx1.
  destruct (u32 r =? sizeof_proghdr); cbn [negb]; [|by eapply Hstop].
  assert (Hoff' : 0 <= u32 (off + sizeof_proghdr)) by (unfold u32; lia). cbv zeta.
  destruct (ph_type _ =? ELF_PROG_LOAD); cbn [negb]; [|by eapply IH].
  set (ph := proghdr_of b). assert (Hf : is_u32 (ph_vaddr ph) /\ is_u32 (ph_filesz ph) /\ is_u32 (ph_memsz ph)) by (unfold is_u32; repeat split; cbn; unfold u32; lia).
  destruct Hf as (Hv & Hfs & Hms). unfold is_u32 in *.
  destruct (Z.ltb_spec (ph_memsz ph) (ph_filesz ph)); [by eapply Hstop|]. destruct (Z.ltb_spec (u32 (ph_vaddr ph + ph_memsz ph)) (ph_vaddr ph)); [by eapply Hstop|].
  assert (Hsum : u32 (ph_vaddr ph + ph_memsz ph) = ph_vaddr ph + ph_memsz ph) by (unfold u32 in *; lia). rewrite Hsum.
  destruct (building_alloc pgdir sz U (e_mem x1) (ph_vaddr ph + ph_memsz ph) (proj2 Hx1)) as (k' & r' & Hrun & Hr'); [lia|].
  apply wp_bind. eapply wp_on_mem; [exact Hrun|]. destruct Hr' as [[-> Hb]|(Hpos & Hge & _ & U' & Hb & _)].
  { apply (Hstop sz U). split; [apply Hx|done]. }
  rewrite (proj2 (Z.eqb_neq r' 0)) by lia. set (x2 := mkX _ k' _). assert (Hx2 : under_construction pgdir r' U' x2) by (split; [apply Hx|done]).
  destruct (Z.eqb_spec (ph_vaddr ph mod PGSIZE) 0) as [Hal|]; cbn [negb]; [|by eapply Hstop].
  apply wp_bind. eapply wp_mono; [apply (loaduvm_ok pgdir r' U'); [done|by split|lia|lia]|]. intros q x3 Hx3. destruct (q <? 0); [exact (Hstop _ _ _ Hx3)|]. exact (IH _ _ _ _ Hx3 Hoff').
Qed.
End Build.
