(* ===== verification/ExecClaims.v ===== *)
(** * [exec] replaces the image or leaves it

    The argument stack, the commit, and the theorem about the whole call. *)
From stdpp Require Import gmap.
From S2P Require Import Prelude Cstring Kalloc Bytes Args File FileInv Vm VmSpace VmUser VmOps VmCopy VmAccess VmClaims Exec ExecInv FileFs Fs Log Bio.
Local Open Scope Z_scope.

#[local] Opaque memset memmove kfree kalloc.

(** ** What the new program finds on its stack *)

(** The user reads the bytes [bs] at [a]. *)
Definition holds (m : mem) (U : umap) (a : Z) (bs : list Z) : Prop :=
  forall j, 0 <= j < Z.of_nat (length bs) -> user_byte m U (a + j) = Some (byte_at bs (Z.to_nat j)).

(** The argument strings are at [ptrs], in memory between [lo] and [hi]. *)
Definition args_at (m : mem) (U : umap) (lo hi : Z) (argv : list (list Z)) (ptrs : list Z) : Prop :=
  Forall2 (fun s p => lo <= p /\ p + Z.of_nat (length (cbytes s)) <= hi /\ holds m U p (cbytes s)) argv ptrs.

(** [main(argc, argv)] can be called: the return address, [argc] and [argv] at
    [esp], [argv] with its terminator right above them, and the strings. *)
Definition stack_ok (m : mem) (U : umap) (esp : Z) (argv : list (list Z)) : Prop :=
  exists ptrs top,
    let argc := Z.of_nat (length argv) in
    args_at m U (esp + 4 * (3 + argc + 1)) top argv ptrs /\
    holds m U esp (concat (le_bytes 4 <$> [0xffffffff; argc; esp + 12] ++ ptrs ++ [0])).

(** The room that [exec] needs for the strings. *)
Definition args_size (argv : list (list Z)) : Z := foldr (fun s n => strlen s + 4 + n) 0 argv.

Lemma cbytes_length s : Z.of_nat (length (cbytes s)) = strlen s + 1.
Proof. pose proof (strlen_bounds s). unfold cbytes. rewrite length_take, length_app. simpl. lia. Qed.

Lemma args_size_nonneg argv : 0 <= args_size argv.
Proof. induction argv as [|s argv IH]; cbn [args_size foldr]; [lia|]. fold (args_size argv). pose proof (strlen_bounds s). lia. Qed.

Lemma land_word_mask x : is_u32 x -> Z.land x (u32 (Z.lnot 3)) = x / 4 * 4.
Proof.
  intros Hx. change (u32 (Z.lnot 3)) with (Z.ldiff (Z.ones 32) (Z.ones 2)). 
  replace (Z.land x _) with (Z.ldiff (Z.land x (Z.ones 32)) (Z.ones 2))
    by (apply Z.bits_inj_iff'; intros i _; by rewrite Z.land_spec, !Z.ldiff_spec, Z.land_spec, andb_assoc).
  rewrite Z.land_ones by lia.
  rewrite Z.mod_small by (unfold is_u32 in Hx; lia). rewrite Z.ldiff_ones_r, Z.shiftl_mul_pow2, Z.shiftr_div_pow2 by lia. done.
Qed.

Lemma holds_ext m m' U a bs : (forall b, a <= b < a + Z.of_nat (length bs) -> user_byte m' U b = user_byte m U b) -> holds m U a bs -> holds m' U a bs.
Proof. intros He H j Hj. rewrite He by lia. by apply H. Qed.

Lemma args_at_ext m m' U lo hi argv ptrs :
  (forall b, lo <= b < hi -> user_byte m' U b = user_byte m U b) -> args_at m U lo hi argv ptrs -> args_at m' U lo hi argv ptrs.
Proof.
  intros He H. eapply Forall2_impl; [exact H|]. cbn. intros s p (H1 & H2 & H3). split; [done|]. split; [done|].
  eapply holds_ext; [|exact H3]. intros b Hb. apply He. lia.
Qed.

Lemma args_at_weaken m U lo hi lo' hi' argv ptrs : lo' <= lo -> hi <= hi' -> args_at m U lo hi argv ptrs -> args_at m U lo' hi' argv ptrs.
Proof. intros H1 H2 H. eapply Forall2_impl; [exact H|]. cbn. intros s p (? & ? & ?). split; [lia|]. split; [lia|done]. Qed.

Lemma words_length ws : length (concat (le_bytes 4 <$> ws)) = (4 * length ws)%nat.
Proof. induction ws as [|w ws IH]; [done|]. rewrite fmap_cons. cbn [concat length]. rewrite length_app, IH, le_bytes_length. lia. Qed.

Section Exec.
Context {S : Type} {ops : FsOps S} (kernel_end data : Z) (Hend : KERNBASE < kernel_end).
Context (P : string -> Prop) {laws : FsLaws P}.
Context (m0 : mem) (l0 : list Z) (img0 : image).
Notation kmem_ok := (kmem_ok kernel_end).
Notation uspace := (uspace kernel_end).
Notation building := (building kernel_end data m0 l0).
Notation intact := (intact (S := S) m0 l0 img0).
Notation under_construction := (under_construction (S := S) kernel_end data m0 l0 img0).

(** ** Copying to the new stack *)

Lemma building_copyout pgdir sz U k va buf :
  building pgdir sz U k -> 0 <= va -> va + Z.of_nat (length buf) <= sz ->
  exists k' r, copyout pgdir va buf k = Ret r k' /\ building pgdir sz U k' /\ copyout_result (kmem_mem k) U va buf r (kmem_mem k').
Proof using Hend laws.
  intros [(l & D & E & Hk & Hu & Hl & HE) H2 H3 H4 H5] Hva Hlen.
  destruct (copyout_loop_ok kernel_end pgdir l D E U (length buf) k va buf Hk Hu Hva) as (k' & r & Hrun & Hk' & Hu' & Hr); [lia|lia|..].
  { intros a Ha. apply H4; [split; unfold PGSIZE, KERNBASE in *; lia|unfold PGSIZE; lia]. }
  exists k', r. split; [done|]. split; [|done]. constructor; [by exists l, D, E| |done..].
  eapply same_but_trans; [exact H2|]. eapply same_but_weaken; [|apply Hr]. intros q Hq. rewrite <- Hl. unfold space_pages. rewrite !elem_of_app. tauto.
Qed.

Lemma copyout_holds m U va buf r m' : copyout_result m U va buf r m' -> (r <? 0) = false ->
  holds m' U va buf /\ forall b, va + Z.of_nat (length buf) <= b -> user_byte m' U b = user_byte m U b.
Proof.
  intros [_ [[-> H]|[-> _]]] Hr; [|done]. split.
  - intros j Hj. rewrite H, decide_True by lia. do 2 f_equal. lia.
  - intros b Hb. by rewrite H, decide_False by lia.
Qed.

Lemma push_args_ok pgdir sz U argv : forall sp argc x,
  under_construction pgdir sz U x -> args_size argv <= sp <= sz ->
  wp (push_args pgdir sp argv argc)
    (fun o x' => under_construction pgdir sz U x' /\
       forall sp' ptrs, o = Some (sp', ptrs) -> sp - args_size argv <= sp' <= sp /\
         args_at (kmem_mem (e_mem x')) U sp' sp argv ptrs /\
         forall b, sp <= b -> user_byte (kmem_mem (e_mem x')) U b = user_byte (kmem_mem (e_mem x)) U b)
    intact P x.
Proof using Hend laws.
  induction argv as [|s argv IH]; intros sp argc x Hx Hsp; cbn [push_args].
  { split; [done|]. intros sp' ptrs [= <- <-]. split; [simpl; lia|]. split; [constructor|done]. }
  destruct (MAXARG <=? argc)%nat; [done|]. cbv zeta. cbn [args_size foldr] in Hsp. fold (args_size argv) in Hsp.
  pose proof (strlen_bounds s) as Hs. pose proof (args_size_nonneg argv) as Hn. pose proof (bu_size _ _ _ _ _ _ _ _ (proj2 Hx)) as Hk.
  rewrite u32_id by (unfold KERNBASE in *; lia). rewrite land_word_mask by (unfold is_u32, KERNBASE in *; lia).
  set (sp1 := (sp - (strlen s + 1)) / 4 * 4). assert (Hsp1 : sp - (strlen s + 4) <= sp1 <= sp - (strlen s + 1)) by (unfold sp1; lia).
  pose proof (cbytes_length s) as Hc.
  destruct (building_copyout pgdir sz U (e_mem x) sp1 (cbytes s) (proj2 Hx)) as (k1 & r & Hrun & Hb1 & Hr); [lia|lia|].
  apply wp_bind. eapply wp_on_mem; [exact Hrun|]. set (x1 := mkX _ k1 _). assert (Hx1 : under_construction pgdir sz U x1) by (split; [apply Hx|done]).
  destruct (r <? 0) eqn:Er; [done|]. destruct (copyout_holds _ _ _ _ _ _ Hr Er) as [Hh Hkeep].
  apply wp_bind. eapply wp_mono; [apply (IH sp1 (Datatypes.S argc) x1 Hx1); lia|]. intros [[sp' ptrs]|] x' [Hx' Ho]; cbn; [|done].
  split; [done|]. intros ? ? [= <- <-]. destruct (Ho sp' ptrs eq_refl) as (Hb & Hargs & Hup). fold (args_size argv). split; [lia|]. split.
  - constructor.
    + split; [lia|]. split; [lia|]. eapply holds_ext; [|exact Hh]. intros b Hb'. apply Hup. lia.
    + eapply args_at_weaken; [| |exact Hargs]; lia.
  - intros b Hb'. rewrite Hup by lia. apply Hkeep. lia.
Qed.

(** ** The stack *)

Lemma building_round pgdir sz U k : building pgdir sz U k -> building pgdir (PGROUNDUP sz) U k.
Proof using All.
  intros [H1 H2 H3 H4 H5]. destruct (PGROUNDUP_page sz) as [[? ?] ?]; [unfold KERNBASE in *; lia|].
  constructor; [done|done|unfold KERNBASE in *; lia|..].
  - intros a Ha Hlt. apply H4; [done|]. destruct Ha. lia.
  - intros b Hb. apply H5. lia.
Qed.

Lemma user_pages_flags (U : umap) a v fl fl' : U !! a = Some (v, fl) -> user_pages (<[a := (v, fl')]> U) ≡ₚ user_pages U.
Proof.
  intros HU. unfold user_pages. rewrite <- (insert_delete_id U a (v, fl) HU) at 2. rewrite <- insert_delete_eq.
  rewrite !map_to_list_insert by apply lookup_delete_eq. done.
Qed.

Lemma building_guard pgdir sz U k a v fl : building pgdir sz U k -> U !! a = Some (v, fl) ->
  exists k', clearpteu pgdir a k = Ret tt k' /\ building pgdir sz (<[a := (v, no_user fl)]> U) k'.
Proof using All.
  intros [(l & D & E & Hk & Hu & Hl & HE) H2 H3 H4 H5] HU.
  destruct (clearpteu_ok kernel_end k l pgdir D E U a v fl Hk Hu HU) as (k' & Hrun & Hk' & Hu' & Hs).
  destruct (us_page _ _ _ _ _ _ _ Hu a v fl HU) as ([_ Ha] & _).
  exists k'. split; [done|]. constructor.
  - exists l, D, (upd_entry E a (pte_of v (no_user fl))). split; [done|]. split; [done|]. split.
    + rewrite <- Hl. unfold space_pages. by rewrite (user_pages_flags U a v fl).
    + intros b Hb. unfold upd_entry. rewrite decide_False by lia. by apply HE.
  - eapply same_but_trans; [exact H2|]. eapply same_but_weaken; [|exact Hs]. intros q Hq. rewrite <- Hl. unfold space_pages. rewrite !elem_of_app. tauto.
  - done.
  - intros b Hb Hlt. destruct (decide (a = b)) as [->|Hne]; [by rewrite lookup_insert_eq|]. rewrite lookup_insert_ne by done. by apply H4.
  - intros b Hb. destruct (decide (a = b)) as [->|Hne]; [by rewrite H5 in HU|]. rewrite lookup_insert_ne by done. by apply H5.
Qed.

(** The page below the stack is not accessible to the user. *)
Definition guarded (U : umap) (sz : Z) : Prop := exists v fl, U !! (sz - 2 * PGSIZE) = Some (v, fl) /\ Z.land fl PTE_U = 0.

Lemma exec_stack_ok pgdir sz U argv x :
  under_construction pgdir sz U x -> sz mod PGSIZE = 0 -> args_size argv + 4 * (Z.of_nat (length argv) + 4) <= 2 * PGSIZE ->
  wp (exec_stack kernel_end pgdir sz argv)
    (fun o x' => exists sz1 U', under_construction pgdir sz1 U' x' /\
       forall sz' sp, o = Some (sz', sp) -> sz' = sz1 /\ guarded U' sz' /\ stack_ok (kmem_mem (e_mem x')) U' sp argv)
    intact P x.
Proof using All.
  intros Hx Hal Hfit. unfold exec_stack. pose proof (bu_size _ _ _ _ _ _ _ _ (proj2 Hx)) as Hsz. unfold PGSIZE in Hal.
  rewrite u32_id by (unfold PGSIZE, KERNBASE in *; lia).
  assert (Hstop : forall sz1 U1 x1, under_construction pgdir sz1 U1 x1 -> exists sz2 U', under_construction pgdir sz2 U' x1 /\
    forall sz' sp, None = Some (sz', sp) -> sz' = sz2 /\ guarded U' sz' /\ stack_ok (kmem_mem (e_mem x1)) U' sp argv)
    by (intros sz1 U1 x1 ?; by exists sz1, U1).
  destruct (building_alloc kernel_end data Hend P m0 l0 img0 pgdir sz U (e_mem x) (sz + 2 * PGSIZE) (proj2 Hx)) as (k1 & r & Hrun & Hr); [unfold PGSIZE; lia|].
  apply wp_bind. eapply wp_on_mem; [exact Hrun|]. destruct Hr as [[-> Hb]|(Hpos & Hge & Hle & U1 & Hb & Hnew)].
  { apply (Hstop sz U). split; [apply Hx|done]. }
  assert (r = sz + 2 * PGSIZE) as -> by (unfold PGSIZE in *; lia). rewrite (proj2 (Z.eqb_neq _ 0)) by lia.
  replace (u32 (sz + 2 * PGSIZE - 2 * PGSIZE)) with sz by (rewrite u32_id; unfold PGSIZE, KERNBASE in *; lia).
  destruct (PGROUNDUP_page sz) as [[? ?] ?]; [unfold KERNBASE in *; lia|].
  destruct (Hnew sz) as [v HU]; [split; unfold KERNBASE in *; lia|unfold PGSIZE; lia|].
  destruct (building_guard pgdir _ U1 k1 sz v 7 Hb HU) as (k2 & Hrun2 & Hb2). set (U2 := <[sz := (v, no_user 7)]> U1) in *.
  apply wp_bind. eapply wp_on_mem; [exact Hrun2|]. set (x2 := mkX _ k2 _). set (sz1 := sz + 2 * PGSIZE) in *.
  assert (Hx2 : under_construction pgdir sz1 U2 x2) by (split; [apply Hx|done]).
  assert (Hg : guarded U2 sz1).
  { exists v, (no_user 7). unfold sz1, U2. replace (sz + 2 * PGSIZE - 2 * PGSIZE) with sz by lia. by rewrite lookup_insert_eq. }
  apply wp_bind. eapply wp_mono; [apply (push_args_ok pgdir sz1 U2 argv sz1 0 x2 Hx2); unfold sz1, PGSIZE in *; lia|].
  intros [[sp ptrs]|] x3 [Hx3 Ho]; [|by eapply Hstop]. destruct (Ho sp ptrs eq_refl) as (Hsp & Hargs & _). pose proof (Forall2_length _ _ _ Hargs) as Hlen.
  pose proof (bu_size _ _ _ _ _ _ _ _ (proj2 Hx3)) as Hsz1. pose proof (args_size_nonneg argv) as Hnn.
  cbv zeta. rewrite <- Hlen. rewrite u32_id by (unfold sz1, KERNBASE, PGSIZE in *; lia). set (esp := sp - (3 + Z.of_nat (length argv) + 1) * 4).
  assert (Hust : ustack_of sp ptrs = [0xffffffff; Z.of_nat (length argv); esp + 12] ++ ptrs ++ [0]).
  { unfold ustack_of. rewrite <- Hlen, u32_id by (unfold sz1, KERNBASE, PGSIZE in *; lia). do 3 f_equal. unfold esp. f_equal. lia. }
  rewrite Hust. set (bytes := concat _). assert (Hbl : Z.of_nat (length bytes) = 4 * (3 + Z.of_nat (length argv) + 1)).
  { unfold bytes. rewrite words_length, !length_app. simpl. lia. }
  destruct (building_copyout pgdir sz1 U2 (e_mem x3) esp bytes (proj2 Hx3)) as (k4 & q & Hrun4 & Hb4 & Hq); [unfold esp, sz1, PGSIZE in *; lia|unfold esp; lia|].
  apply wp_bind. eapply wp_on_mem; [exact Hrun4|]. set (x4 := mkX _ k4 _). assert (Hx4 : under_construction pgdir sz1 U2 x4) by (split; [apply Hx3|done]).
  destruct (q <? 0) eqn:Eq; [by eapply Hstop|]. destruct (copyout_holds _ _ _ _ _ _ Hq Eq) as [Hh Hkeep].
  exists sz1, U2. split; [done|]. intros ? ? [= <- <-]. split; [done|]. split; [done|]. exists ptrs, sz1. split; [|exact Hh].
  replace (esp + 4 * _) with sp by (unfold esp; lia). eapply args_at_ext; [|exact Hargs]. intros b Hb'. apply Hkeep. unfold esp. lia.
Qed.

(** ** [bad:] *)

Notation undone := (undone (S := S) kernel_end m0 l0 img0).

Lemma undone_fs x s : undone x -> undone (mkX s (e_mem x) (e_img x)).
Proof. done. Qed.
Lemma intact_fs x s : intact x -> intact (mkX s (e_mem x) (e_img x)).
Proof. done. Qed.

Lemma bad_inode_ok ip x : undone x -> wp ((match ip with Some ip => on_fs (x_iunlockput ip);; on_fs x_end_op | None => mret tt end);; mret (-1))
  (fun r x' => r = -1 /\ undone x') intact P x.
Proof using laws.
  intros Hx. apply wp_bind. destruct ip as [ip|]; [|done]. apply wp_bind.
  apply (wp_fs_quiet P m0 l0 img0); [apply q_iunlockput|apply Hx|]. intros _ s. apply (wp_fs_quiet P m0 l0 img0); [apply q_end_op|apply Hx|]. done.
Qed.

Lemma exec_bad_none ip x : undone x -> wp (exec_bad kernel_end 0 ip) (fun r x' => r = -1 /\ undone x') intact P x.
Proof using laws. intros Hx. unfold exec_bad. change (negb (0 =? 0)) with false. apply wp_bind. cbn [when]. by apply bad_inode_ok. Qed.

Lemma exec_bad_ok pgdir sz U ip x : under_construction pgdir sz U x -> wp (exec_bad kernel_end pgdir ip) (fun r x' => r = -1 /\ undone x') intact P x.
Proof using Hend laws.
  intros [Himg Hb]. destruct (bu_space _ _ _ _ _ _ _ _ Hb) as (l & D & E & Hk & Hu & Hl & _).
  destruct (good_page_bounds _ pgdir (sp_good _ _ _ _ _ _ (us_space _ _ _ _ _ _ _ Hu))) as (_ & _ & Hp). unfold exec_bad.
  rewrite (proj2 (Z.eqb_neq pgdir 0)) by done. cbn [negb when].
  destruct (freevm_ok kernel_end Hend (e_mem x) l pgdir D E U Hk Hu) as (k' & l' & Hrun & Hk' & Hl' & Hs).
  apply wp_bind. eapply wp_on_mem; [exact Hrun|]. apply bad_inode_ok. split.
  - split; [done|]. eapply same_but_trans; [apply Hb|]. eapply same_but_weaken; [|exact Hs]. intros q Hq. rewrite <- Hl, elem_of_app. by right.
  - exists l'. split; [done|]. rewrite Hl', <- Hl. apply Permutation_app_comm.
Qed.

(** ** The commit *)

Section Old.
Context (D0 : gmap Z Z) (E0 : Z -> Z) (U0 : umap).
Context (H0 : uspace m0 l0 (im_pgdir img0) D0 E0 U0) (Hl0 : forall p, p ∈ l0 -> good_page kernel_end p).

(** The new image is in place, and the pages of the old one are free. *)
Definition replaced (path : list Z) (argv : list (list Z)) (x : xstate S) : Prop :=
  let img := e_img x in
  let m := kmem_mem (e_mem x) in
  exists l D E U, kmem_ok (e_mem x) l /\ uspace m l (im_pgdir img) D E U /\
    l ++ space_pages (im_pgdir img) D U ≡ₚ l0 ++ space_pages (im_pgdir img0) D0 U0 /\
    (forall b, KERNBASE <= b -> E b = kernel_entries data b) /\
    mapped_below (im_sz img) U /\ (forall b, im_sz img <= b -> U !! b = None) /\
    guarded U (im_sz img) /\ stack_ok m U (im_esp img) argv /\
    im_name img = safestrcpy (im_name img0) (last_of path path) 16 /\ im_cwd img = im_cwd img0.

Lemma user_byte_frame m m' l pgdir D E U ps : uspace m l pgdir D E U -> same_but ps m m' -> (forall q, q ∈ ps -> good_page kernel_end q) ->
  (forall q, q ∈ user_pages U -> q ∉ ps) -> forall a, user_byte m' U a = user_byte m U a.
Proof.
  intros Hu Hs Hg Hd a. unfold user_byte. destruct (translate U a) as [y|] eqn:Ey; [|done]. simpl. f_equal. apply Hs. intros q Hq Hin.
  destruct (translate_page kernel_end _ _ _ _ _ _ _ _ Hu Ey) as (v & fl & HU & -> & Hv).
  assert (q <> v) by (intros ->; apply (Hd v); [apply elem_user_pages; eauto|done]).
  destruct (pages_disjoint _ q v (Hg q Hq) Hv); [done| |]; unfold in_page, PGSIZE in *; lia.
Qed.

Lemma stack_ok_ext m m' U esp argv : (forall a, user_byte m' U a = user_byte m U a) -> stack_ok m U esp argv -> stack_ok m' U esp argv.
Proof.
  intros He (ptrs & top & H1 & H2). exists ptrs, top. split; [eapply args_at_ext; [|exact H1]; intros; apply He|].
  eapply holds_ext; [|exact H2]. intros; apply He.
Qed.

Lemma exec_commit_ok path pgdir sz U eip sp argv x :
  under_construction pgdir sz U x -> guarded U sz -> stack_ok (kmem_mem (e_mem x)) U sp argv ->
  wp (exec_commit kernel_end path pgdir sz eip sp) (fun r x' => r = 0 /\ replaced path argv x' /\ im_eip (e_img x') = eip) intact P x.
Proof using All.
  intros [Himg [(l & D & E & Hk & Hu & Hl & HE) Hfr Hsz Hmap Habove]] Hg Hst. unfold exec_commit.
  destruct (good_page_bounds _ pgdir (sp_good _ _ _ _ _ _ (us_space _ _ _ _ _ _ _ Hu))) as (_ & _ & Hp).
  apply wp_bind. unfold wp at 1, gets. rewrite Himg. apply wp_bind. unfold wp at 1, modify. apply wp_bind.
  rewrite (proj2 (Z.eqb_neq pgdir 0)) by done. unfold wp at 1, mret, M_ret.
  assert (Hin : forall q, q ∈ l -> q ∈ l0) by (intros q Hq; rewrite <- Hl, elem_of_app; by left).
  assert (Hold : forall q, q ∈ space_pages (im_pgdir img0) D0 U0 -> good_page kernel_end q /\ q ∉ l0) by (intros q Hq; by apply (space_pages_good _ _ _ _ _ _ _ q H0)).
  assert (H1 : uspace (kmem_mem (e_mem x)) l (im_pgdir img0) D0 E0 U0).
  { apply (uspace_frame kernel_end m0 _ l0 l _ D0 E0 U0 l0 H0 Hfr Hl0).
    - intros q Hq. apply Hold. unfold space_pages. apply elem_of_app. by left.
    - intros q Hq Hql. by apply (Hold q Hq), Hin. }
  destruct (freevm_ok kernel_end Hend (e_mem x) l _ D0 E0 U0 Hk H1) as (k' & l' & Hrun & Hk' & Hl' & Hs).
  apply wp_bind. eapply wp_on_mem; [exact Hrun|]. apply wp_ret. split; [done|]. split; [|done].
  assert (Hnew : forall q, q ∈ space_pages pgdir D U -> q ∉ space_pages (im_pgdir img0) D0 U0).
  { intros q Hq Hqo. apply (Hold q Hqo). rewrite <- Hl, elem_of_app. by right. }
  exists l', D, E, U. cbn [e_img e_mem im_pgdir im_sz im_esp im_name im_cwd]. split; [done|]. split.
  { apply (uspace_frame kernel_end _ _ l l' pgdir D E U _ Hu Hs); [by apply Hold| |].
    - intros q Hq. apply Hnew. unfold space_pages. apply elem_of_app. by left.
    - intros q Hq. rewrite Hl', elem_of_app. intros [Hqo|Hql]; [by apply (Hnew q)|by apply (space_pages_good _ _ _ _ _ _ _ q Hu)]. }
  split; [rewrite Hl', <- Hl; clear; solve_Permutation|]. split; [done|]. split; [done|]. split; [done|]. split; [done|].
  split; [|done]. eapply stack_ok_ext; [|exact Hst]. apply (user_byte_frame _ _ _ _ _ _ _ _ Hu Hs); [by apply Hold|].
  intros q Hq. apply Hnew. unfold space_pages. apply elem_of_app. by right.
Qed.

(** The two ways to fail lead to the first outcome. *)
Lemma bad_outcome (R : Z -> xstate S -> Prop) pgdir sz U ip x : under_construction pgdir sz U x ->
  wp (exec_bad kernel_end pgdir ip) (fun r x' => r = -1 /\ undone x' \/ R r x') intact P x.
Proof using Hend laws. intros Hx. eapply wp_mono; [by eapply exec_bad_ok|]. by left. Qed.
Lemma bad0_outcome (R : Z -> xstate S -> Prop) ip x : undone x ->
  wp (exec_bad kernel_end 0 ip) (fun r x' => r = -1 /\ undone x' \/ R r x') intact P x.
Proof using laws. intros Hx. eapply wp_mono; [by eapply exec_bad_none|]. by left. Qed.
End Old.
End Exec.


(** The program [echo hi], on the file system of [FileFs] and the address space of
    [VmClaims]. *)
Definition demo_x : xstate (fs lstate) :=
  mkX (k_fs demo_k) demo_kmem (mkImage demo_dir PGSIZE 0 PGSIZE (replicate 16 0) 0).
Definition demo_path : list Z := [101; 99; 104; 111].
Definition demo_argv : list (list Z) := [demo_path; [104; 105]].

