(* ===== verification/Printf.v ===== *)
(** * Formatted output

    [printint] and [printf] of [printf.c], and their counterparts [printint] and
    [cprintf] of [console.c].  The result is the list of characters given to
    [putc] or [consputc], in order.  The digits are an argument: the two files
    differ in the case of the hexadecimal ones.  The words of memory above [fmt],
    from which the arguments are taken, are a function of their index, and
    [str_at] is the string at an address. *)
From S2P Require Import Prelude Cstring.
Local Open Scope Z_scope.

(** ["0123456789ABCDEF"] and ["0123456789abcdef"] *)
Definition digits : list Z := [48; 49; 50; 51; 52; 53; 54; 55; 56; 57; 65; 66; 67; 68; 69; 70].
Definition k_digits : list Z := [48; 49; 50; 51; 52; 53; 54; 55; 56; 57; 97; 98; 99; 100; 101; 102].

Section Printf.
Context (dg : list Z) (str_at : Z -> list Z) (ap : nat -> Z).

(** The [do ... while] loop: the characters in the order they are put into [buf];
    32 divisions exhaust a [uint]. *)
Fixpoint print_digits (x base : Z) (fuel : nat) : list Z :=
  byte_at dg (Z.to_nat (x mod base)) ::
  match fuel with
  | O => []
  | S fuel' => if x / base =? 0 then [] else print_digits (x / base) base fuel'
  end.

Definition printint (xx base : Z) (sgn : bool) : list Z :=
  let neg := sgn && (xx <? 0) in
  let x := if neg then u32 (- xx) else u32 xx in
  let buf := print_digits x base 31 ++ (if neg then [45] else []) in
  reverse buf.

(** The characters of a string before its NUL. *)
Definition string_at (s : Z) : list Z :=
  if s =? 0 then [40; 110; 117; 108; 108; 41] (* (null) *) else take (Z.to_nat (strlen (str_at s))) (str_at s).

(** ** [printf.c] *)

(** The loop over [fmt], in state ['%'] or not, with [k] arguments consumed. *)
Fixpoint printf_loop (fmt : list Z) (pct : bool) (k : nat) : list Z :=
  match fmt with
  | [] => []
  | c :: fmt' =>
      if c =? 0 then []
      else if negb pct then
        if c =? 37 then printf_loop fmt' true k else c :: printf_loop fmt' false k
      else if c =? 100 then printint (s32 (ap k)) 10 true ++ printf_loop fmt' false (S k)
      else if (c =? 120) || (c =? 112) then printint (s32 (ap k)) 16 false ++ printf_loop fmt' false (S k)
      else if c =? 115 then string_at (ap k) ++ printf_loop fmt' false (S k)
      else if c =? 99 then u8 (ap k) :: printf_loop fmt' false (S k)
      else if c =? 37 then c :: printf_loop fmt' false k
      else 37 :: c :: printf_loop fmt' false k
  end.
Definition printf (fmt : list Z) : list Z := printf_loop fmt false 0.

(** ** [console.c] *)

(** [printint] of [console.c]: [sign] becomes the result of [xx < 0]. *)
Definition cons_printint (xx base : Z) (sign : bool) : list Z :=
  let '(x, sign) :=
    if sign then if xx <? 0 then (u32 (- xx), true) else (u32 xx, false)
    else (u32 xx, false) in
  reverse (print_digits x base 31 ++ (if sign then [45] else [])).

Fixpoint cprintf_loop (fmt : list Z) (k : nat) : list Z :=
  match fmt with
  | [] => []
  | c :: fmt' =>
      if c =? 0 then []
      else if negb (c =? 37) then c :: cprintf_loop fmt' k
      else
        match fmt' with
        | [] => []
        | c :: fmt'' =>
            if c =? 0 then []
            else if c =? 100 then cons_printint (s32 (ap k)) 10 true ++ cprintf_loop fmt'' (S k)
            else if (c =? 120) || (c =? 112) then cons_printint (s32 (ap k)) 16 false ++ cprintf_loop fmt'' (S k)
            else if c =? 115 then string_at (ap k) ++ cprintf_loop fmt'' (S k)
            else if c =? 37 then 37 :: cprintf_loop fmt'' k
            else 37 :: c :: cprintf_loop fmt'' k
        end
  end.
Definition cprintf (fmt : list Z) : list Z := cprintf_loop fmt 0.
End Printf.

(** ** Reading numbers back *)

Definition digit_of (dg : list Z) (c : Z) : option Z := Z.of_nat <$> find_index (fun d => d =? c) dg.

Definition read_nat (dg : list Z) (base : Z) (s : list Z) : option Z :=
  foldl (fun v c => n ← v; d ← digit_of dg c; Some (n * base + d)) (Some 0) s.

(** An optional sign and digits. *)
Definition read_int (dg : list Z) (base : Z) (s : list Z) : option Z :=
  match s with
  | [] => None
  | c :: s' => if c =? 45 then Z.opp <$> read_nat dg base s' else read_nat dg base s
  end.

(** A table of 16 different digits without the sign. *)
Definition digits_ok (dg : list Z) : Prop := length dg = 16%nat /\ NoDup dg /\ 45 ∉ dg.

Lemma digits_are_ok dg : dg ∈ [digits; k_digits] -> digits_ok dg.
Proof. rewrite !elem_of_cons, elem_of_nil. intros [->|[->|[]]]; repeat split; by apply (bool_decide_unpack _). Qed.

Section Read.
Context (dg : list Z) (Hdg : digits_ok dg) (base : Z) (Hbase : 2 <= base <= 16).

Lemma digit_lookup d : 0 <= d < 16 -> dg !! Z.to_nat d = Some (byte_at dg (Z.to_nat d)).
Proof using Hdg.
  destruct Hdg as (Hl & _). intros Hd. unfold byte_at. destruct (lookup_lt_is_Some_2 dg (Z.to_nat d)) as [c ->]; [lia|done].
Qed.

Lemma digit_back d : 0 <= d < 16 -> digit_of dg (byte_at dg (Z.to_nat d)) = Some d.
Proof using Hdg.
  intros Hd. pose proof (digit_lookup d Hd) as Hc. destruct Hdg as (_ & Hnd & _). unfold digit_of.
  assert (find_index (fun y => y =? byte_at dg (Z.to_nat d)) dg = Some (Z.to_nat d)) as ->; [|simpl; f_equal; lia].
  apply find_index_Some. split; [eexists; split; [exact Hc|apply Z.eqb_refl]|]. intros j y Hj Hy. apply Z.eqb_neq. intros ->.
  pose proof (NoDup_lookup _ _ _ _ Hnd Hy Hc). lia.
Qed.

Lemma read_print_digits fuel : forall x, 0 <= x < base ^ Z.of_nat (S fuel) ->
  read_nat dg base (reverse (print_digits dg x base fuel)) = Some x.
Proof using All.
  induction fuel as [|fuel IH]; intros x Hx; cbn [print_digits]; rewrite reverse_cons; unfold read_nat; rewrite foldl_app; cbn [foldl];
    fold (read_nat dg base); assert (Hm : 0 <= x mod base < 16) by (pose proof (Z.mod_pos_bound x base); lia).
  - rewrite reverse_nil. cbn. rewrite digit_back by done. cbn. f_equal. rewrite Z.pow_1_r in Hx. rewrite Z.mod_small; lia.
  - destruct (Z.eqb_spec (x / base) 0) as [E|E].
    + rewrite reverse_nil. cbn. rewrite digit_back by done. cbn. f_equal. pose proof (Z.div_mod x base). lia.
    + fold (read_nat dg base (reverse (print_digits dg (x / base) base fuel))). rewrite IH.
      * cbn. rewrite digit_back by done. cbn. f_equal. pose proof (Z.div_mod x base). lia.
      * split; [apply Z.div_pos; lia|]. apply Z.div_lt_upper_bound; [lia|]. rewrite <- Z.pow_succ_r by lia.
        replace (Z.succ (Z.of_nat (S fuel))) with (Z.of_nat (S (S fuel))) by lia. lia.
Qed.

Lemma print_digits_length n : forall fuel x, 0 <= x < base ^ Z.of_nat (S n) -> (length (print_digits dg x base fuel) <= S n)%nat.
Proof using Hbase.
  induction n as [|n IH]; intros [|fuel] x Hx; cbn [print_digits length]; try lia.
  - rewrite Z.pow_1_r in Hx. rewrite Z.div_small by lia. simpl. lia.
  - destruct (x / base =? 0); [simpl; lia|]. apply le_n_S, IH.
    split; [apply Z.div_pos; lia|]. apply Z.div_lt_upper_bound; [lia|]. rewrite <- Z.pow_succ_r by lia.
    replace (Z.succ (Z.of_nat (S n))) with (Z.of_nat (S (S n))) by lia. lia.
Qed.

Lemma print_digits_in fuel : forall x, 0 <= x -> Forall (fun c => c ∈ take (Z.to_nat base) dg) (print_digits dg x base fuel).
Proof using All.
  induction fuel as [|fuel IH]; intros x Hx; cbn [print_digits].
  all: constructor; [|try constructor].
  all: try (assert (Hm : 0 <= x mod base < base) by (apply Z.mod_pos_bound; lia);
    apply list_elem_of_lookup; exists (Z.to_nat (x mod base)); rewrite lookup_take_lt by lia; apply digit_lookup; lia).
  destruct (x / base =? 0); [constructor|]. apply IH. apply Z.div_pos; lia.
Qed.

Lemma print_digits_nonempty (x : Z) (fuel : nat) : exists (c : Z) (s : list Z), reverse (print_digits dg x base fuel) = c :: s.
Proof.
  destruct (reverse _) as [|c s] eqn:E; [|eauto]. apply (f_equal length) in E. rewrite length_reverse in E. by destruct fuel.
Qed.

Lemma printint_read (xx : Z) (sgn : bool) : (if sgn then is_s32 xx else is_u32 xx) ->
  read_int dg base (printint dg xx base sgn) = Some xx.
Proof using All.
  intros Hx. unfold printint. set (neg := sgn && (xx <? 0)). set (x := if neg then u32 (- xx) else u32 xx).
  assert (Hv : 0 <= x < 2 ^ 32 /\ xx = if neg then - x else x).
  { unfold x, neg, is_s32, is_u32 in *. destruct sgn; cbn [andb]; [destruct (Z.ltb_spec xx 0)|]; rewrite u32_id by lia; lia. }
  destruct Hv as [Hv Exx].
  assert (Hrd : read_nat dg base (reverse (print_digits dg x base 31)) = Some x).
  { apply read_print_digits. split; [lia|]. apply Z.lt_le_trans with (2 ^ 32); [lia|]. apply Z.pow_le_mono_l. lia. }
  destruct neg.
  - rewrite reverse_app. cbn [reverse rev_append app read_int]. rewrite Z.eqb_refl, Hrd. simpl. f_equal. lia.
  - rewrite app_nil_r. destruct (print_digits_nonempty x 31) as (c & s & E). rewrite E. cbn [read_int]. rewrite <- E.
    destruct (Z.eqb_spec c 45) as [->|]; [exfalso|by rewrite Hrd, Exx].
    pose proof (print_digits_in 31 x (proj1 Hv)) as Hin. rewrite <- (reverse_involutive (print_digits _ _ _ _)), E in Hin.
    rewrite Forall_reverse in Hin. apply Forall_cons in Hin as [Hin _]. destruct Hdg as (_ & _ & Hn). apply Hn. rewrite <- (take_drop (Z.to_nat base) dg), elem_of_app. by left.
Qed.
End Read.

(** ** [atoi] *)

Definition horner (n : Z) (s : list Z) : Z := foldl (fun v c => v * 10 + (c - 48)) n s.

Lemma horner_mono s : forall n, 0 <= n -> Forall (fun c => 48 <= c <= 57) s -> n <= horner n s.
Proof.
  induction s as [|c s IH]; intros n Hn Hs; [cbn; lia|]. apply Forall_cons in Hs as [Hc Hs]. cbn [horner foldl]. fold (horner (n * 10 + (c - 48)) s).
  pose proof (IH (n * 10 + (c - 48)) ltac:(lia) Hs). lia.
Qed.

Lemma atoi_horner s : forall n, 0 <= n -> Forall (fun c => 48 <= c <= 57) s -> horner n s < 2 ^ 31 -> atoi_loop n s = horner n s.
Proof.
  induction s as [|c s IH]; intros n Hn Hs Hb; [done|]. apply Forall_cons in Hs as [Hc Hs]. cbn [atoi_loop].
  rewrite (proj2 (Z.leb_le 48 c)), (proj2 (Z.leb_le c 57)) by lia. cbn [andb horner foldl] in *. fold (horner (n * 10 + (c - 48)) s) in *.
  pose proof (horner_mono s (n * 10 + (c - 48)) ltac:(lia) Hs). replace (s32 (n * 10 + c - 48)) with (n * 10 + (c - 48)) by (rewrite s32_id; lia).
  by apply IH; [lia|..].
Qed.

Lemma decimal_digit dg c : dg ∈ [digits; k_digits] -> c ∈ take 10 dg -> 48 <= c <= 57 /\ digit_of dg c = Some (c - 48).
Proof.
  rewrite !elem_of_cons, elem_of_nil. intros [->|[->|[]]]; cbn [take digits k_digits]; rewrite !elem_of_cons, elem_of_nil;
    intros H; repeat destruct H as [->|H]; try done; (split; [lia|reflexivity]).
Qed.

Lemma read_nat_horner dg s : dg ∈ [digits; k_digits] -> Forall (fun c => c ∈ take 10 dg) s -> read_nat dg 10 s = Some (horner 0 s).
Proof.
  intros Hdg Hs. unfold read_nat, horner. generalize 0. induction Hs as [|c s Hc Hs IH]; intros n; [done|]. cbn [foldl].
  destruct (decimal_digit dg c Hdg Hc) as [_ ->]. cbn. apply IH.
Qed.

(** C38: a number printed by [printint], with the digits of [printf.c] or those of
    [console.c], is read back: [%d] prints an [int], the smallest one included,
    [%x] a [uint], and [atoi] inverts [%d] on non-negative numbers.  At most 11
    of the 16 bytes of [buf] are used. *)
Theorem printint_roundtrip (dg : list Z) (x : Z) (Hdg : dg ∈ [digits; k_digits]) (Hx : is_u32 x) :
  read_int dg 10 (printint dg (s32 x) 10 true) = Some (s32 x) /\ (length (printint dg (s32 x) 10 true) <= 11)%nat /\
  read_int dg 16 (printint dg (s32 x) 16 false) = Some x /\ (length (printint dg (s32 x) 16 false) <= 8)%nat /\
  (x < 2 ^ 31 -> atoi (printint dg (s32 x) 10 true) = x).
Proof.
  pose proof (digits_are_ok dg Hdg) as Hok. unfold is_u32 in Hx.
  assert (Hs : is_s32 (s32 x)) by (unfold is_s32, s32; lia).
  assert (Hhex : printint dg (s32 x) 16 false = printint dg x 16 false) by (unfold printint; cbn [andb]; do 3 f_equal; unfold u32, s32; lia).
  split; [by apply (printint_read dg Hok 10 ltac:(lia))|]. split.
  { unfold printint. rewrite length_reverse, length_app. set (y := if true && (s32 x <? 0) then u32 (- s32 x) else u32 (s32 x)).
    assert (Hy : 0 <= y < 10 ^ Z.of_nat 10) by (change (10 ^ Z.of_nat 10) with 10000000000; unfold y, u32; destruct (_ && _); lia).
    pose proof (print_digits_length dg 10 ltac:(lia) 9 31 y Hy). clearbody y. destruct (_ && _); cbn [length]; lia. }
  rewrite Hhex. split; [by apply (printint_read dg Hok 16 ltac:(lia))|]. split.
  { unfold printint. rewrite length_reverse, length_app. cbn [andb].
    pose proof (print_digits_length dg 16 ltac:(lia) 7 31 (u32 x) ltac:(change (16 ^ Z.of_nat 8) with 4294967296; unfold u32; lia)). cbn [length]. lia. }
  intros Hlt. rewrite s32_id by lia. unfold printint. rewrite (proj2 (Z.ltb_ge x 0)) by lia. cbn [andb]. rewrite app_nil_r, u32_id by lia.
  pose proof (print_digits_in dg Hok 10 ltac:(lia) 31 x ltac:(lia)) as Hin. apply Forall_reverse in Hin.
  assert (Hr : read_nat dg 10 (reverse (print_digits dg x 10 31)) = Some x).
  { apply (read_print_digits dg Hok 10 ltac:(lia)). split; [lia|]. apply Z.lt_le_trans with (2 ^ 32); [lia|]. by vm_compute. }
  change (Z.to_nat 10) with 10%nat in Hin. revert Hin Hr. generalize (reverse (print_digits dg x 10 31)). intros s Hin Hr.
  rewrite (read_nat_horner dg s Hdg Hin) in Hr. injection Hr as Hr. unfold atoi. rewrite atoi_horner; [done|lia| |lia].
  eapply Forall_impl; [exact Hin|]. intros c Hc. by apply (decimal_digit dg c Hdg).
Qed.

Lemma printint_roundtrip_witness :
  read_int digits 10 (printint digits (s32 4294967254) 10 true) = Some (s32 4294967254) /\ (length (printint digits (s32 4294967254) 10 true) <= 11)%nat /\
  read_int digits 16 (printint digits (s32 4294967254) 16 false) = Some 4294967254 /\ (length (printint digits (s32 4294967254) 16 false) <= 8)%nat /\
  (4294967254 < 2 ^ 31 -> atoi (printint digits (s32 4294967254) 10 true) = 4294967254).
Proof. apply (printint_roundtrip digits 4294967254); [left|by split]. Defined.

Lemma cons_printint_eq dg xx base sgn : cons_printint dg xx base sgn = printint dg xx base sgn.
Proof. unfold cons_printint, printint. by destruct sgn, (xx <? 0). Qed.

(** A format without the directive [%c], which only [printf.c] knows. *)
Fixpoint no_char (fmt : list Z) : bool :=
  match fmt with
  | [] => true
  | c :: fmt' =>
      if c =? 37 then match fmt' with [] => true | d :: fmt'' => negb (d =? 99) && no_char fmt'' end
      else no_char fmt'
  end.

(** [cprintf] of the kernel and [printf] of the user library, two loops of
    different shape, print the same characters for every format without [%c], up
    to the case of hexadecimal digits; a lone [%] at the end prints nothing in
    both. *)
Lemma cprintf_printf dg str_at ap fmt (Hfmt : no_char fmt = true) : cprintf dg str_at ap fmt = printf dg str_at ap fmt.
Proof.
  unfold cprintf, printf. generalize 0%nat. remember (length fmt) as n eqn:En. revert fmt Hfmt En.
  induction (lt_wf n) as [n _ IH]. intros [|c fmt] Hfmt En k; [done|]. cbn [cprintf_loop printf_loop negb]. cbn [length] in En.
  destruct (Z.eqb_spec c 0) as [|_]; [done|]. destruct (Z.eqb_spec c 37) as [->|Hc]; cbn [negb].
  - destruct fmt as [|d fmt]; [done|]. cbn [printf_loop negb]. cbn [length] in En. cbn in Hfmt. apply andb_prop in Hfmt as [Hd Hfmt].
    assert (IH' : forall k, cprintf_loop dg str_at ap fmt k = printf_loop dg str_at ap fmt false k) by (intros k'; by apply (IH (length fmt)); [lia|..]).
    apply negb_true_iff in Hd. rewrite Hd, !IH', !cons_printint_eq. destruct (Z.eqb_spec d 37) as [->|]; done.
  - f_equal. apply (IH (length fmt)); [lia| |done]. cbn [no_char] in Hfmt. by rewrite (proj2 (Z.eqb_neq c 37) Hc) in Hfmt.
Qed.

