(* ===== verification/Console.v ===== *)
(** * The console

    [console.c]: the line editor [consoleintr] behind the keyboard and serial
    interrupts, [consoleread] and [consolewrite], and the screen [cgaputc].  A
    step of the input side is the handling of one batch of characters or one
    attempt of a reader; the reader that has to sleep keeps what it has read. *)
From S2P Require Import Prelude Cstring.
Local Open Scope Z_scope.

(** ** Input *)

Definition INPUT_BUF : Z := 128.
Definition BACKSPACE : Z := 0x100.
(** [C(x)] *)
Definition C (x : Z) : Z := x - 64.

(** [input] *)
Record input := mkInput { in_buf : list Z; in_r : Z; in_w : Z; in_e : Z }.

Definition in_at (s : input) (i : Z) : Z := byte_at (in_buf s) (Z.to_nat (i mod INPUT_BUF)).
Definition in_set (i c : Z) (s : input) : input :=
  mkInput (<[Z.to_nat (i mod INPUT_BUF) := u8 c]> (in_buf s)) (in_r s) (in_w s) (in_e s).
Definition set_r (r : Z) (s : input) : input := mkInput (in_buf s) r (in_w s) (in_e s).
Definition set_w (w : Z) (s : input) : input := mkInput (in_buf s) (in_r s) w (in_e s).
Definition set_e (e : Z) (s : input) : input := mkInput (in_buf s) (in_r s) (in_w s) e.

(** The loop of [C('U')]; it passes over at most [INPUT_BUF] characters.  The
    second result is what is given to [consputc]. *)
Fixpoint kill_line (s : input) (fuel : nat) : input * list Z :=
  match fuel with
  | O => (s, [])
  | S fuel' =>
      if negb (in_e s =? in_w s) && negb (in_at s (u32 (in_e s - 1)) =? 10) then
        let '(s', out) := kill_line (set_e (u32 (in_e s - 1)) s) fuel' in (s', BACKSPACE :: out)
      else (s, [])
  end.

(** One turn of the loop of [consoleintr]: the echo, and whether the readers are
    woken. *)
Definition intr_char (c : Z) (s : input) : input * list Z * bool :=
  if c =? C 80 then (s, [], false)
  else if c =? C 85 then (kill_line s (S (Z.to_nat INPUT_BUF)), false)
  else if (c =? C 72) || (c =? 0x7f) then
    if negb (in_e s =? in_w s) then (set_e (u32 (in_e s - 1)) s, [BACKSPACE], false) else (s, [], false)
  else if negb (c =? 0) && (u32 (in_e s - in_r s) <? INPUT_BUF) then
    let c := if c =? 13 then 10 else c in
    let s1 := set_e (u32 (in_e s + 1)) (in_set (in_e s) c s) in
    if (c =? 10) || (c =? C 68) || (in_e s1 =? u32 (in_r s1 + INPUT_BUF)) then (set_w (in_e s1) s1, [c], true)
    else (s1, [c], false)
  else (s, [], false).

(** [consoleintr], for the characters that [getc] returns before it fails; the
    last result is [doprocdump]. *)
Fixpoint consoleintr (cs : list Z) (s : input) : input * list Z * bool * bool :=
  match cs with
  | [] => (s, [], false, false)
  | c :: cs' =>
      let '(s1, out1, wake1) := intr_char c s in
      let '(s2, out2, wake2, dump) := consoleintr cs' s1 in
      (s2, out1 ++ out2, wake1 || wake2, (c =? C 80) || dump)
  end.

(** The ways out of [consoleread]: it returns the bytes, or -1, or it sleeps with
    [n] bytes to go. *)
Inductive attempt := RDone (bytes : list Z) | RKilled | RSleep (n : nat) (bytes : list Z).

(** The loop of [consoleread] with [n] bytes to go. *)
Fixpoint consoleread_loop (target n : nat) (killed : bool) (bytes : list Z) (s : input) : attempt * input :=
  match n with
  | O => (RDone bytes, s)
  | S n' =>
      if in_r s =? in_w s then (if killed then RKilled else RSleep n bytes, s)
      else
        let c := in_at s (in_r s) in
        let s1 := set_r (u32 (in_r s + 1)) s in
        if c =? C 68 then
          (RDone bytes, if (n <? target)%nat then set_r (u32 (in_r s1 - 1)) s1 else s1)
        else if c =? 10 then (RDone (bytes ++ [c]), s1)
        else consoleread_loop target n' killed (bytes ++ [c]) s1
  end.
Definition consoleread (n : Z) (killed : bool) (s : input) : attempt * input :=
  consoleread_loop (Z.to_nat n) (Z.to_nat n) killed [] s.

(** ** Output *)

(** The screen: the cells of the CGA memory, and the cursor in its registers. *)
Record screen := mkScreen { crt : list Z; cursor : Z }.

(** [cgaputc]; [None] if it panics. *)
Definition cgaputc (c : Z) (s : screen) : option screen :=
  let pos := cursor s in
  let '(crt1, pos1) :=
    if c =? 10 then (crt s, pos + (80 - pos mod 80))
    else if c =? BACKSPACE then (crt s, if 0 <? pos then pos - 1 else pos)
    else (<[Z.to_nat pos := Z.lor (Z.land c 0xff) 0x0700]> (crt s), pos + 1) in
  if (pos1 <? 0) || (25 * 80 <? pos1) then None
  else
    let '(crt2, pos2) :=
      if 24 <=? pos1 / 80 then
        let up := take (23 * 80) (drop 80 crt1) ++ drop (23 * 80) crt1 in
        let p := pos1 - 80 in
        (take (Z.to_nat p) up ++ replicate (Z.to_nat (24 * 80 - p)) 0 ++ drop (24 * 80) up, p)
      else (crt1, pos1) in
    Some (mkScreen (<[Z.to_nat pos2 := Z.lor 32 0x0700]> crt2) pos2).

(** [consputc]: the bytes for the serial line, and the screen. *)
Definition consputc (c : Z) (s : screen) : list Z * option screen :=
  (if c =? BACKSPACE then [8; 32; 8] else [u8 c], cgaputc c s).

(** [consolewrite]: the bytes for the serial line, and the screen. *)
Fixpoint consolewrite (buf : list Z) (s : screen) : list Z * option screen :=
  match buf with
  | [] => ([], Some s)
  | c :: buf' =>
      let '(u, o) := consputc (Z.land c 0xff) s in
      match o with
      | None => (u, None)
      | Some s1 => let '(u2, o2) := consolewrite buf' s1 in (u ++ u2, o2)
      end
  end.

(** ** What the input side promises

    The committed text [q], which readers take from, and the line [ed] under
    edition. *)
Record lines := mkLines { committed : list Z; editing : list Z }.

Definition room (l : lines) : bool := (length (committed l) + length (editing l) <? 128)%nat.
Definition full (l : lines) : bool := (length (committed l) + length (editing l) =? 128)%nat.

Definition spec_char (c : Z) (l : lines) : lines * list Z * bool :=
  if c =? C 80 then (l, [], false)
  else if c =? C 85 then (mkLines (committed l) [], replicate (length (editing l)) BACKSPACE, false)
  else if (c =? C 72) || (c =? 0x7f) then
    (mkLines (committed l) (take (length (editing l) - 1) (editing l)), replicate (Nat.min 1 (length (editing l))) BACKSPACE, false)
  else if (c =? 0) || negb (room l) then (l, [], false)
  else
    let c := if c =? 13 then 10 else c in
    let l1 := mkLines (committed l) (editing l ++ [c]) in
    if (c =? 10) || (c =? C 68) || full l1 then (mkLines (committed l ++ editing l ++ [c]) [], [c], true) else (l1, [c], false).

(** A read ends after a newline, before an end of file, or with the bytes asked
    for; an end of file in front of everything is taken. *)
Fixpoint spec_read (first : bool) (n : nat) (killed : bool) (bytes q : list Z) : attempt * list Z :=
  match n, q with
  | O, _ => (RDone bytes, q)
  | S _, [] => (if killed then RKilled else RSleep n bytes, [])
  | S n', c :: q' =>
      if c =? C 68 then (RDone bytes, if first then q' else q)
      else if c =? 10 then (RDone (bytes ++ [c]), q')
      else spec_read false n' killed (bytes ++ [c]) q'
  end.

(** ** Refinement *)

Record ring (s : input) (l : lines) : Prop := {
  re_len : length (in_buf s) = 128%nat;
  re_r : is_u32 (in_r s);
  re_w : in_w s = u32 (in_r s + Z.of_nat (length (committed l)));
  re_e : in_e s = u32 (in_r s + Z.of_nat (length (committed l ++ editing l)));
  re_room : (length (committed l ++ editing l) <= 128)%nat;
  re_chars i c : (committed l ++ editing l) !! i = Some c -> in_at s (u32 (in_r s + Z.of_nat i)) = c
}.

(** Between characters, the line has no newline. *)
Definition repr (s : input) (l : lines) : Prop := ring s l /\ 10 ∉ editing l.

Lemma index_inj r i j : is_u32 r -> 0 <= i < 128 -> 0 <= j < 128 -> u32 (r + i) mod 128 = u32 (r + j) mod 128 -> i = j.
Proof. unfold is_u32, u32. intros. lia. Qed.

Lemma u32_back r i : is_u32 r -> 0 < i <= 128 -> u32 (u32 (r + i) - 1) = u32 (r + (i - 1)).
Proof. unfold is_u32, u32. intros. lia. Qed.

Lemma u32_next r i : u32 (u32 (r + i) + 1) = u32 (r + (i + 1)).
Proof. unfold u32. lia. Qed.

Lemma repr_empty_edit s l : ring s l -> (in_e s =? in_w s) = bool_decide (editing l = []).
Proof.
  intros H. rewrite (re_e _ _ H), (re_w _ _ H). pose proof (re_room _ _ H) as Hr. pose proof (re_r _ _ H) as Hu. rewrite length_app in *.
  destruct (editing l) as [|c ed]; cbn [length] in *.
  - rewrite Nat.add_0_r, Z.eqb_refl. by rewrite bool_decide_eq_true_2.
  - rewrite bool_decide_eq_false_2 by done. apply Z.eqb_neq. unfold u32, is_u32 in *. lia.
Qed.

(** The last character of the line is given up. *)
Lemma repr_back s q ed c : ring s (mkLines q (ed ++ [c])) -> ring (set_e (u32 (in_e s - 1)) s) (mkLines q ed).
Proof.
  intros [H1 H2 H3 H4 H5 H6]. cbn in *. rewrite !length_app in *. cbn [length] in *. constructor; cbn; try done.
  - rewrite H4, u32_back by (done || lia). f_equal. rewrite length_app. lia.
  - rewrite length_app. lia.
  - intros i x Hx. apply (H6 i x). rewrite app_assoc. by apply lookup_app_l_Some.
Qed.

Lemma repr_last s q ed c : ring s (mkLines q (ed ++ [c])) -> in_at s (u32 (in_e s - 1)) = c.
Proof.
  intros [H1 H2 H3 H4 H5 H6]. cbn in *. rewrite !length_app in *. cbn [length] in *. rewrite H4, u32_back by (done || lia).
  replace (Z.of_nat (length q + (length ed + 1)) - 1) with (Z.of_nat (length (q ++ ed))) by (rewrite length_app; lia).
  apply (H6 _ c). rewrite app_assoc. by apply list_lookup_middle.
Qed.

Lemma kill_line_ok q ed : forall s fuel, ring s (mkLines q ed) -> 10 ∉ ed -> (length ed <= fuel)%nat ->
  exists s', kill_line s (S fuel) = (s', replicate (length ed) BACKSPACE) /\ ring s' (mkLines q []).
Proof.
  induction ed as [|c ed IH] using rev_ind; intros s fuel H Hnl Hf; cbn [kill_line].
  - rewrite (repr_empty_edit _ _ H). cbn. by exists s.
  - rewrite (repr_empty_edit _ _ H), (repr_last _ _ _ _ H). cbn [editing]. rewrite bool_decide_eq_false_2 by (by destruct ed). cbn [negb andb].
    rewrite (proj2 (Z.eqb_neq c 10)) by (intros ->; apply Hnl, elem_of_app; right; left). cbn [negb].
    rewrite length_app in *. cbn [length] in *. destruct fuel as [|fuel]; [lia|].
    destruct (IH _ fuel (repr_back _ _ _ _ H)) as (s' & -> & H'); [intros ?; apply Hnl, elem_of_app; by left|lia|]. exists s'. split; [|done].
    rewrite Nat.add_comm. done.
Qed.

Lemma repr_total s l : ring s l -> u32 (in_e s - in_r s) = Z.of_nat (length (committed l) + length (editing l)).
Proof.
  intros H. rewrite (re_e _ _ H), length_app. pose proof (re_room _ _ H) as Hr. rewrite length_app in Hr.
  pose proof (re_r _ _ H). unfold u32, is_u32 in *. lia.
Qed.

(** A character is put at the end of the line. *)
Lemma repr_type s q ed c : ring s (mkLines q ed) -> (length q + length ed < 128)%nat -> 0 <= c < 256 ->
  ring (set_e (u32 (in_e s + 1)) (in_set (in_e s) c s)) (mkLines q (ed ++ [c])).
Proof.
  intros [H1 H2 H3 H4 H5 H6] Hroom Hc. cbn in *. rewrite length_app in H4. constructor; cbn; try done.
  - by rewrite length_insert.
  - rewrite H4, u32_next. f_equal. rewrite !length_app. cbn [length]. lia.
  - rewrite !length_app. cbn [length]. lia.
  - intros i x Hx. pose proof (lookup_lt_Some _ _ _ Hx) as Hi. rewrite !length_app in Hi. cbn [length] in Hi.
    unfold in_at, in_set, set_e, byte_at. cbn. rewrite H4. change INPUT_BUF with 128.
    destruct (decide (i = length q + length ed)%nat) as [->|Hne].
    + rewrite list_lookup_insert_eq by (rewrite H1; lia). rewrite app_assoc, <- length_app, list_lookup_middle in Hx by done.
      injection Hx as <-. simpl. unfold u8. lia.
    + rewrite list_lookup_insert_ne.
      * apply (H6 i x). rewrite app_assoc in Hx. rewrite lookup_app_l in Hx by (rewrite length_app; lia). done.
      * intros E. assert (Z.of_nat i = Z.of_nat (length q + length ed)); [|lia]. apply (index_inj (in_r s)); [done|lia|lia|]. lia.
Qed.

(** The line is committed. *)
Lemma repr_commit s q ed : ring s (mkLines q ed) -> repr (set_w (in_e s) s) (mkLines (q ++ ed) []).
Proof. intros [H1 H2 H3 H4 H5 H6]. split; [|by intros ?%elem_of_nil]. constructor; cbn in *; rewrite ?app_nil_r; done. Qed.

Lemma full_ring s q ed : ring s (mkLines q ed) -> (in_e s =? u32 (in_r s + INPUT_BUF)) = full (mkLines q ed).
Proof.
  intros H. rewrite (re_e _ _ H). pose proof (re_room _ _ H) as Hr. pose proof (re_r _ _ H) as Hu. unfold full. cbn [committed editing] in *. rewrite length_app in *.
  destruct (Nat.eqb_spec (length q + length ed) 128) as [->|Hne]; [apply Z.eqb_refl|]. apply Z.eqb_neq. unfold u32, is_u32, INPUT_BUF in *. lia.
Qed.

(** One character. *)
Lemma intr_char_ok s l c : repr s l -> 0 <= c < 256 ->
  exists s', intr_char c s = (s', (spec_char c l).1.2, (spec_char c l).2) /\ repr s' (spec_char c l).1.1.
Proof.
  destruct l as [q ed]. intros [H Hnl] Hc. unfold intr_char, spec_char. cbn [committed editing] in *.
  destruct (c =? C 80); [by exists s|]. destruct (c =? C 85).
  { pose proof (re_room _ _ H) as Hr. cbn in Hr. rewrite length_app in Hr.
    destruct (kill_line_ok q ed s 128 H Hnl) as (s' & E & H'); [lia|]. change (S (Z.to_nat INPUT_BUF)) with 129%nat. rewrite E. exists s'. split; [done|].
    split; [done|]. by intros ?%elem_of_nil. }
  destruct ((c =? C 72) || (c =? 127)).
  { rewrite (repr_empty_edit _ _ H). cbn [editing]. destruct ed as [|x ed] using rev_ind; [by exists s|]. clear IHed.
    rewrite bool_decide_eq_false_2 by (by destruct ed). cbn [negb]. rewrite length_app. cbn [length].
    replace (length ed + 1 - 1)%nat with (length ed) by lia. replace (Nat.min 1 (length ed + 1)) with 1%nat by lia. rewrite take_app_length.
    eexists. split; [reflexivity|]. split; [by eapply repr_back|]. cbn. intros Hin. apply Hnl, elem_of_app. by left. }
  rewrite (repr_total _ _ H). unfold room. cbn [committed editing]. destruct (c =? 0); [by exists s|]. cbn [negb orb andb].
  destruct (Nat.ltb_spec (length q + length ed) 128) as [Hlt|Hge]; cbn [negb]; [|rewrite (proj2 (Z.ltb_ge _ _)) by (unfold INPUT_BUF; lia); by exists s].
  rewrite (proj2 (Z.ltb_lt _ _)) by (unfold INPUT_BUF; lia). set (c' := if c =? 13 then 10 else c).
  assert (Hc' : 0 <= c' < 256) by (unfold c'; destruct (c =? 13); lia). pose proof (repr_type s q ed c' H Hlt Hc') as H1.
  set (s1 := set_e _ _) in *. cbv zeta. rewrite (full_ring _ _ _ H1).
  destruct ((c' =? 10) || (c' =? C 68) || full _) eqn:Ecom.
  - eexists. split; [reflexivity|]. by apply repr_commit.
  - eexists. split; [reflexivity|]. split; [exact H1|]. cbn. rewrite elem_of_app, list_elem_of_singleton. intros [|E]; [done|]. by rewrite <- E in Ecom.
Qed.

(** One reader. *)
Lemma repr_pop s c q ed : repr s (mkLines (c :: q) ed) ->
  in_at s (in_r s) = c /\ (in_r s =? in_w s) = false /\ repr (set_r (u32 (in_r s + 1)) s) (mkLines q ed).
Proof.
  intros [[H1 H2 H3 H4 H5 H6] Hnl]. cbn in *. unfold is_u32 in *. split; [|split].
  - rewrite <- (H6 0%nat c eq_refl). f_equal. rewrite u32_id; lia.
  - rewrite H3. apply Z.eqb_neq. rewrite length_app in H5. unfold u32. lia.
  - split; [|done]. constructor; cbn; try done.
    + unfold is_u32, u32. lia.
    + rewrite H3. unfold u32. lia.
    + rewrite H4. unfold u32. lia.
    + lia.
    + intros i x Hx. rewrite <- (H6 (S i) x Hx). unfold in_at. cbn. do 3 f_equal. unfold u32. lia.
Qed.

Lemma repr_no_text s ed : repr s (mkLines [] ed) -> (in_r s =? in_w s) = true.
Proof. intros [[H1 H2 H3 H4 H5 H6] _]. cbn in *. rewrite H3. apply Z.eqb_eq. rewrite Z.add_0_r. symmetry. by apply u32_id. Qed.

Lemma consoleread_loop_ok target killed ed n : forall bytes s q, repr s (mkLines q ed) -> (n <= target)%nat ->
  exists s', consoleread_loop target n killed bytes s = ((spec_read (negb (n <? target)%nat) n killed bytes q).1, s') /\
    repr s' (mkLines (spec_read (negb (n <? target)%nat) n killed bytes q).2 ed).
Proof.
  induction n as [|n IH]; intros bytes s q H Hn; cbn [consoleread_loop spec_read]; [by exists s|].
  destruct q as [|c q]; [rewrite (repr_no_text _ _ H); by exists s|]. destruct (repr_pop _ _ _ _ H) as (-> & -> & H').
  destruct (c =? C 68).
  - destruct (Nat.ltb_spec (S n) target); cbn [negb]; eexists; (split; [reflexivity|]); cbn [fst snd]; [|done].
    replace (set_r _ _) with s; [done|]. destruct s as [b r w e]. unfold set_r. cbn. f_equal. destruct H as [[_ Hr _ _ _ _] _]. cbn in Hr. unfold u32, is_u32 in *. lia.
  - destruct (c =? 10); [eexists; split; [reflexivity|done]|].
    destruct (IH (bytes ++ [c]) _ q H') as (s' & E & Hs'); [lia|]. rewrite (proj2 (Nat.ltb_lt n target)) in E, Hs' by lia. cbn [negb] in E, Hs'. by exists s'.
Qed.

(** *** Histories *)

(** A batch of characters from an interrupt; a reader that wants [target] bytes,
    has [bytes], and needs [n] more. *)
Inductive cevent := Interrupt (cs : list Z) | Attempt (target n : nat) (killed : bool) (bytes : list Z).
Inductive cobs := Echo (out : list Z) (wake dump : bool) | Read (a : attempt).

Definition cstep (e : cevent) (s : input) : cobs * input :=
  match e with
  | Interrupt cs => let '(s', out, wake, dump) := consoleintr cs s in (Echo out wake dump, s')
  | Attempt target n killed bytes => let '(a, s') := consoleread_loop target n killed bytes s in (Read a, s')
  end.
Fixpoint crun (es : list cevent) (s : input) : list cobs * input :=
  match es with
  | [] => ([], s)
  | e :: es' => let '(o, s1) := cstep e s in let '(os, s2) := crun es' s1 in (o :: os, s2)
  end.

Fixpoint spec_intr (cs : list Z) (l : lines) : lines * list Z * bool * bool :=
  match cs with
  | [] => (l, [], false, false)
  | c :: cs' =>
      let '(l1, out1, wake1) := spec_char c l in
      let '(l2, out2, wake2, dump) := spec_intr cs' l1 in
      (l2, out1 ++ out2, wake1 || wake2, (c =? C 80) || dump)
  end.
Definition sstep (e : cevent) (l : lines) : cobs * lines :=
  match e with
  | Interrupt cs => let '(l', out, wake, dump) := spec_intr cs l in (Echo out wake dump, l')
  | Attempt target n killed bytes =>
      let '(a, q) := spec_read (n =? target)%nat n killed bytes (committed l) in (Read a, mkLines q (editing l))
  end.
Fixpoint srun (es : list cevent) (l : lines) : list cobs * lines :=
  match es with
  | [] => ([], l)
  | e :: es' => let '(o, l1) := sstep e l in let '(os, l2) := srun es' l1 in (o :: os, l2)
  end.

Definition event_ok (e : cevent) : Prop :=
  match e with
  | Interrupt cs => Forall (fun c => 0 <= c < 256) cs
  | Attempt target n _ _ => (n <= target)%nat
  end.

Lemma consoleintr_ok cs : forall s l, repr s l -> Forall (fun c => 0 <= c < 256) cs ->
  exists s' l' out wake dump, consoleintr cs s = (s', out, wake, dump) /\ spec_intr cs l = (l', out, wake, dump) /\ repr s' l'.
Proof.
  induction cs as [|c cs IH]; intros s l H Hcs; cbn [consoleintr spec_intr]; [by exists s, l, [], false, false|].
  apply Forall_cons in Hcs as [Hc Hcs]. destruct (intr_char_ok s l c H Hc) as (s1 & -> & H1). destruct (spec_char c l) as [[l1 o1] w1]. cbn [fst snd] in *.
  destruct (IH s1 l1 H1 Hcs) as (s2 & l2 & o2 & w2 & d & -> & -> & H2). by exists s2, l2, (o1 ++ o2), (w1 || w2), ((c =? C 80) || d).
Qed.

Lemma cstep_ok e s l : repr s l -> event_ok e -> exists o s' l', cstep e s = (o, s') /\ sstep e l = (o, l') /\ repr s' l'.
Proof.
  intros H He. destruct e as [cs|target n killed bytes]; cbn [cstep sstep].
  - destruct (consoleintr_ok cs s l H He) as (s' & l' & o & w & d & -> & -> & H'). by exists (Echo o w d), s', l'.
  - destruct l as [q ed]. cbn [committed editing]. destruct (consoleread_loop_ok target killed ed n bytes s q H He) as (s' & -> & H').
    replace (n =? target)%nat with (negb (n <? target)%nat) by (cbn in He; destruct (Nat.ltb_spec n target), (Nat.eqb_spec n target); (done || lia)).
    destruct (spec_read _ n killed bytes q) as [a q']. by exists (Read a), s', (mkLines q' ed).
Qed.

Definition no_input : input := mkInput (replicate 128 0) 0 0 0.
Lemma repr_init : repr no_input (mkLines [] []).
Proof. split; [|by intros ?%elem_of_nil]. constructor; cbn; try done; lia. Qed.

(** C24: the console's input ring, with its three wrapping indices, implements two
    lists, the text committed to readers and the line under edition.  From boot
    on, for every history of interrupts and readers, echo, wakeups and results
    are those of the lists: a line can be edited until its newline, end of file
    or the filling of the buffer commits it; a read returns at most the rest of
    one line, in order; an end of file ends it and is kept for the next read when
    bytes came before it; a reader sleeps only when nothing is committed. *)
Theorem console_refines (es : list cevent) (Hes : Forall event_ok es) :
  exists os s l, crun es no_input = (os, s) /\ srun es (mkLines [] []) = (os, l) /\ repr s l.
Proof.
  assert (Hrun : forall s l, repr s l -> exists os s' l', crun es s = (os, s') /\ srun es l = (os, l') /\ repr s' l').
  { induction Hes as [|e es He Hes' IH]; intros s l H; cbn [crun srun]; [by exists [], s, l|].
    destruct (cstep_ok e s l H He) as (o & s1 & l1 & -> & -> & H1). destruct (IH s1 l1 H1) as (os & s2 & l2 & -> & -> & H2). by exists (o :: os), s2, l2. }
  apply Hrun, repr_init.
Qed.

(** A line with a correction, read in two parts. *)
Lemma console_refines_witness :
  exists os s l, crun [Interrupt [104; 120; 8; 105; 13]; Attempt 2 2 false []; Attempt 8 8 false []] no_input = (os, s) /\
    srun [Interrupt [104; 120; 8; 105; 13]; Attempt 2 2 false []; Attempt 8 8 false []] (mkLines [] []) = (os, l) /\ repr s l.
Proof.
  apply (console_refines [Interrupt [104; 120; 8; 105; 13]; Attempt 2 2 false []; Attempt 8 8 false []]).
  repeat constructor; discriminate.
Defined.

(** ** The screen *)

(** The memory has 25 rows, the cursor stays in the first 24. *)
Definition screen_ok (s : screen) : Prop := length (crt s) = 2000%nat /\ 0 <= cursor s < 24 * 80.

Lemma cgaputc_ok c s : screen_ok s -> exists s', cgaputc c s = Some s' /\ screen_ok s' /\ drop 1920 (crt s') = drop 1920 (crt s).
Proof.
  destruct s as [cells pos]. intros [Hl Hp]. cbn [crt cursor] in *. unfold cgaputc. cbn [crt cursor].
  set (p := if c =? 10 then _ else _).
  assert (H1 : length p.1 = 2000%nat /\ 0 <= p.2 <= 1920 /\ drop 1920 p.1 = drop 1920 cells).
  { unfold p. destruct (c =? 10); [cbn [fst snd]; split; [done|]; split; [lia|done]|].
    destruct (c =? BACKSPACE); cbn [fst snd]; [split; [done|]; split; [|done]; destruct (Z.ltb_spec 0 pos); lia|].
    split; [by rewrite length_insert|]. split; [lia|]. apply drop_insert_lt. lia. }
  destruct p as [cells1 pos1]. cbn [fst snd] in H1. destruct H1 as (Hl1 & Hp1 & Hd1).
  rewrite (proj2 (Z.ltb_ge pos1 0)), (proj2 (Z.ltb_ge (25 * 80) pos1)) by lia. cbn [orb].
  set (p := if 24 <=? pos1 / 80 then _ else _).
  assert (H2 : length p.1 = 2000%nat /\ 0 <= p.2 < 1920 /\ drop 1920 p.1 = drop 1920 cells).
  { unfold p. destruct (Z.leb_spec 24 (pos1 / 80)); cbn [fst snd]; [|split; [done|]; split; [lia|done]].
    assert (pos1 = 1920) as -> by lia. change (Z.to_nat (1920 - 80)) with 1840%nat. change (Z.to_nat (24 * 80 - (1920 - 80))) with 80%nat.
    change (24 * 80)%nat with 1920%nat. change (23 * 80)%nat with 1840%nat. set (up := take 1840 (drop 80 cells1) ++ drop 1840 cells1).
    assert (Hup : length up = 2000%nat) by (unfold up; rewrite length_app, length_take, !length_drop; lia).
    assert (Hdu : drop 1920 up = drop 1920 cells1).
    { unfold up. rewrite drop_app_ge, drop_drop by (rewrite length_take, length_drop; lia). f_equal. rewrite length_take, length_drop. lia. }
    split; [rewrite !length_app, length_take, length_replicate, length_drop; lia|]. split; [lia|].
    rewrite app_assoc, drop_app_length' by (rewrite length_app, length_take, length_replicate; lia). congruence. }
  destruct p as [cells2 pos2]. cbn [fst snd] in H2. destruct H2 as (Hl2 & Hp2 & Hd2).
  eexists. split; [reflexivity|]. split; [split; cbn [crt cursor]; [by rewrite length_insert|lia]|]. cbn [crt].
  rewrite <- Hd2. apply drop_insert_lt. lia.
Qed.

(** C37: whatever a process writes to the console, the cursor stays inside the
    first 24 rows and [cgaputc] neither panics nor touches a cell beyond them;
    the serial line gets the low byte of each character, in order. *)
Theorem consolewrite_in_bounds (buf : list Z) (s : screen) (Hs : screen_ok s) :
  exists s', consolewrite buf s = ((fun c => Z.land c 0xff) <$> buf, Some s') /\ screen_ok s' /\ drop 1920 (crt s') = drop 1920 (crt s).
Proof.
  revert s Hs. induction buf as [|c buf IH]; intros s Hs; cbn [consolewrite]; [by exists s|]. unfold consputc.
  assert (Hc : 0 <= Z.land c 255 < 256) by (change 255 with (Z.ones 8); rewrite Z.land_ones by lia; apply Z.mod_pos_bound; lia).
  rewrite (proj2 (Z.eqb_neq _ BACKSPACE)) by (unfold BACKSPACE; lia).
  destruct (cgaputc_ok (Z.land c 255) s Hs) as (s1 & -> & Hs1 & Hd1). destruct (IH s1 Hs1) as (s2 & -> & Hs2 & Hd2).
  exists s2. split; [|split; [done|congruence]]. rewrite fmap_cons. cbn [app]. unfold u8. rewrite Z.mod_small by lia. done.
Qed.

Lemma consolewrite_in_bounds_witness :
  exists s', consolewrite [104; 105; 10] (mkScreen (replicate 2000 0) 1919) = ((fun c => Z.land c 0xff) <$> [104; 105; 10], Some s') /\
    screen_ok s' /\ drop 1920 (crt s') = drop 1920 (replicate 2000 0).
Proof. apply (consolewrite_in_bounds [104; 105; 10] (mkScreen (replicate 2000 0) 1919)). split; [reflexivity|split; [discriminate|reflexivity]]. Defined.
