(* ===== verification/Umalloc.v ===== *)
(** * The user-level allocator

    [umalloc.c]: the circular list of free blocks of Kernighan and Ritchie.  A
    block is a header of 8 bytes and the memory after it, its size counts headers.
    The state has the two fields of the headers, by address, the pointer [freep]
    and the end of the memory of the process; [base] is the address of the static
    header.  Whether the kernel grants more memory is an argument. *)
From stdpp Require Import gmap.
From S2P Require Import Prelude Kalloc.
Local Open Scope Z_scope.

(** [union header], [freep] and the break *)
Record heap := mkHeap { h_ptr : Z -> Z; h_size : Z -> Z; freep : Z; brk : Z }.

Definition upd (a v : Z) (f : Z -> Z) : Z -> Z := fun x => if x =? a then v else f x.
Definition set_ptr (a v : Z) (h : heap) : heap := mkHeap (upd a v (h_ptr h)) (h_size h) (freep h) (brk h).
Definition set_size (a v : Z) (h : heap) : heap := mkHeap (h_ptr h) (upd a v (h_size h)) (freep h) (brk h).
Definition set_freep (a : Z) (h : heap) : heap := mkHeap (h_ptr h) (h_size h) a (brk h).

Section Malloc.
Context (base : Z) (grants : Z -> Z -> bool).
Notation H := (M heap).

Definition sizeof_Header : Z := 8.

(** [sbrk]: the old break, or -1. *)
Definition sbrk (n : Z) : H Z := fun h =>
  if grants (brk h) n && (0 <? brk h + n) && (brk h + n <? KERNBASE)
  then Ret (brk h) (mkHeap (h_ptr h) (h_size h) (freep h) (brk h + n)) else Ret (-1) h.

(** The search of [free] for the place of [bp], from [p] on. *)
Fixpoint find_place (h : heap) (bp p : Z) (fuel : nat) : option Z :=
  if (p <? bp) && (bp <? h_ptr h p) then Some p
  else if (h_ptr h p <=? p) && ((p <? bp) || (bp <? h_ptr h p)) then Some p
  else match fuel with O => None | S fuel' => find_place h bp (h_ptr h p) fuel' end.

(** There are not more free blocks than headers below the break. *)
Definition rounds (h : heap) : nat := Z.to_nat (brk h / sizeof_Header) + 2.

(** The two comparisons after it, with the end of the block. *)
Definition join_upper (bp p : Z) (h : heap) : heap :=
  let next := h_ptr h p in
  if bp + sizeof_Header * h_size h bp =? next
  then set_ptr bp (h_ptr h next) (set_size bp (u32 (h_size h bp + h_size h next)) h)
  else set_ptr bp next h.
Definition join_lower (bp p : Z) (h : heap) : heap :=
  if p + sizeof_Header * h_size h p =? bp
  then set_ptr p (h_ptr h bp) (set_size p (u32 (h_size h p + h_size h bp)) h)
  else set_ptr p bp h.

Definition free (ap : Z) : H unit := fun h =>
  let bp := ap - sizeof_Header in
  match find_place h bp (freep h) (rounds h) with
  | None => Panic "diverges"
  | Some p => Ret tt (set_freep p (join_lower bp p (join_upper bp p h)))
  end.

(** The block from [sbrk], or 0. *)
Definition morecore (nu : Z) : H Z :=
  let nu := if nu <? 4096 then 4096 else nu in
  p ← sbrk (s32 (u32 (nu * sizeof_Header)));
  if p =? -1 then mret 0
  else modify (set_size p nu);; free (p + sizeof_Header);; gets freep.

(** The loop of [malloc]. *)
Fixpoint malloc_loop (nunits prevp p : Z) (fuel : nat) : H Z :=
  match fuel with
  | O => panic "diverges"
  | S fuel' =>
      h ← get;
      if nunits <=? h_size h p then
        if h_size h p =? nunits then
          modify (fun h => set_freep prevp (set_ptr prevp (h_ptr h p) h));; mret (p + sizeof_Header)
        else
          let n := h_size h p - nunits in
          let q := p + sizeof_Header * n in
          modify (fun h => set_freep prevp (set_size q nunits (set_size p n h)));; mret (q + sizeof_Header)
      else if p =? freep h then
        p ← morecore nunits;
        if p =? 0 then mret 0 else h ← get; malloc_loop nunits p (h_ptr h p) fuel'
      else malloc_loop nunits p (h_ptr h p) fuel'
  end.

Definition malloc (nbytes : Z) : H Z :=
  let nunits := u32 (nbytes + sizeof_Header - 1) / sizeof_Header + 1 in
  h ← get;
  when (freep h =? 0) (modify (fun h => set_size base 0 (set_freep base (set_ptr base base h))));;
  h ← get;
  let prevp := freep h in
  malloc_loop nunits prevp (h_ptr h prevp) (2 * rounds h).
End Malloc.
