(* ===== verification/UmallocInv.v ===== *)
(** * The free list of [umalloc.c]

    The free blocks are linked in the order of their addresses, with a gap
    between any two of them, and no block overlaps another one, free or not. *)
From stdpp Require Import gmap.
From S2P Require Import Prelude Kalloc Umalloc.
Local Open Scope Z_scope.

(** A block: its address and its size in headers. *)
Notation block := (Z * Z)%type (only parsing).

(** ** Linked blocks *)

Definition first (z : Z) (G : list block) : Z := match G with [] => z | (b, _) :: _ => b end.

(** The headers of [G] are linked, and the last one points to [z]. *)
Fixpoint links (h : heap) (G : list block) (z : Z) : Prop :=
  match G with
  | [] => True
  | (a, n) :: G' => h_size h a = n /\ h_ptr h a = first z G' /\ links h G' z
  end.

Lemma links_app h G1 G2 z : links h (G1 ++ G2) z <-> links h G1 (first z G2) /\ links h G2 z.
Proof.
  induction G1 as [|[a n] G1 IH]; cbn [links app]; [tauto|]. rewrite IH.
  assert (first z (G1 ++ G2) = first (first z G2) G1) as -> by (by destruct G1 as [|[]]). tauto.
Qed.

Lemma links_frame h h' G z : links h G z ->
  (forall a n, (a, n) ∈ G -> h_ptr h' a = h_ptr h a /\ h_size h' a = h_size h a) -> links h' G z.
Proof.
  induction G as [|[a n] G IH]; cbn [links]; [done|]. intros (H1 & H2 & H3) Hf. destruct (Hf a n ltac:(left)) as [-> ->].
  split; [done|]. split; [done|]. apply IH; [done|]. intros b k Hb. apply (Hf b k). by right.
Qed.

(** ** Order *)

Fixpoint gapped (G : list block) : Prop :=
  match G with
  | [] => True
  | (a, n) :: G' => 0 <= n /\ (forall b k, (b, k) ∈ G' -> a + 8 * n < b) /\ gapped G'
  end.

Lemma gapped_app G1 G2 : gapped (G1 ++ G2) <->
  gapped G1 /\ gapped G2 /\ (forall a n b k, (a, n) ∈ G1 -> (b, k) ∈ G2 -> a + 8 * n < b).
Proof.
  induction G1 as [|[a n] G1 IH]; cbn [gapped app].
  - split; [intros H; split; [done|]; split; [done|]; by intros ? ? ? ? ?%elem_of_nil|tauto].
  - rewrite IH. split.
    + intros (H1 & H2 & H3 & H4 & H5). split; [split; [done|]; split; [|done]; intros b k Hb; apply (H2 b k), elem_of_app; by left|]. split; [done|].
      intros a' n' b k [[= -> ->]|Ha]%elem_of_cons Hb; [apply (H2 b k), elem_of_app; by right|by apply (H5 a' n' b k)].
    + intros ((H1 & H2 & H3) & H4 & H5). split; [done|]. split; [|split; [done|]; split; [done|]; intros a' n' b k Ha; apply H5; by right].
      intros b k [Hb|Hb]%elem_of_app; [by apply (H2 b k)|]. apply (H5 a n b k); [left|done].
Qed.

Lemma gapped_nonneg G a n : gapped G -> (a, n) ∈ G -> 0 <= n.
Proof. induction G as [|[b k] G IH]; cbn [gapped]; [by intros _ ?%elem_of_nil|]. intros (H1 & _ & H3) [[= -> ->]|H]%elem_of_cons; [done|by apply IH]. Qed.

(** The blocks around the block [p]. *)
Lemma gapped_around G1 p np G2 : gapped (G1 ++ (p, np) :: G2) ->
  0 <= np /\ (forall a n, (a, n) ∈ G1 -> 0 <= n /\ a + 8 * n < p) /\ (forall b k, (b, k) ∈ G2 -> 0 <= k /\ p + 8 * np < b).
Proof.
  intros (H1 & (H2 & H3 & H4) & H5)%gapped_app. split; [done|]. split.
  - intros a n Ha. split; [by apply (gapped_nonneg G1 a)|]. apply (H5 a n p np Ha). left.
  - intros b k Hb. split; [by apply (gapped_nonneg G2 b)|]. by apply (H3 b k).
Qed.

(** The blocks below and above an address that is in none. *)
Lemma gapped_split G bp : gapped G -> (forall a n, (a, n) ∈ G -> a <> bp) ->
  exists G1 G2, G = G1 ++ G2 /\ (forall a n, (a, n) ∈ G1 -> a < bp) /\ (forall b k, (b, k) ∈ G2 -> bp < b).
Proof.
  induction G as [|[a n] G IH]; cbn [gapped].
  - intros _ _. exists [], []. split; [done|]. split; by intros ? ? ?%elem_of_nil.
  - intros (H1 & H2 & H3) Hne. destruct (decide (a < bp)) as [Hlt|Hge].
    + destruct IH as (G1 & G2 & -> & HA & HB); [done|intros b k Hb; apply (Hne b k); by right|].
      exists ((a, n) :: G1), G2. split; [done|]. split; [|done]. intros a' n' [[= -> ->]|Ha]%elem_of_cons; [done|by apply (HA a' n')].
    + exists [], ((a, n) :: G). split; [done|]. split; [by intros ? ? ?%elem_of_nil|]. pose proof (Hne a n ltac:(left)).
      intros b k [[= -> ->]|Hb]%elem_of_cons; [lia|]. specialize (H2 b k Hb). lia.
Qed.

(** ** The search in [free] *)

Section Search.
Context (h : heap) (base bp : Z) (Hbase : base < bp).

(** Forward from a block below [bp] to the last one below it. *)
Lemma search_below G2 q nq : (forall b k, (b, k) ∈ G2 -> bp < b) -> forall G1 p np fuel X,
  links h ((p, np) :: G1 ++ G2) base -> gapped ((p, np) :: G1) -> base <= p < bp -> (forall a n, (a, n) ∈ G1 -> a < bp) -> (length G1 <= fuel)%nat ->
  (p, np) :: G1 = X ++ [(q, nq)] -> find_place h bp p fuel = Some q.
Proof using Hbase.
  intros Hup. induction G1 as [|[a n] G1 IH]; intros p np fuel X Hl Hg Hp Hlow Hf HX; cbn [links app] in Hl; destruct Hl as (_ & Hptr & Hl).
  - destruct X as [|? [|]]; simplify_eq/=. destruct fuel; cbn [find_place]; rewrite Hptr; destruct G2 as [|[b k] G2]; cbn [first];
      rewrite (proj2 (Z.ltb_lt q bp)) by lia; cbn [andb orb]; try (rewrite (proj2 (Z.ltb_ge bp base)), (proj2 (Z.leb_le base q)) by lia; done);
      specialize (Hup b k ltac:(left)); by rewrite (proj2 (Z.ltb_lt bp b)) by lia.
  - cbn [length] in Hf. destruct fuel as [|fuel]; [lia|]. cbn [find_place]. rewrite Hptr. cbn [first app].
    destruct Hg as (Hn & Hgap & Hg). pose proof (Hgap a n ltac:(left)). pose proof (Hlow a n ltac:(left)).
    rewrite (proj2 (Z.ltb_ge bp a)), (proj2 (Z.leb_gt a p)) by lia. rewrite andb_false_r. cbn [andb].
    destruct X as [|x X]; [done|]. injection HX as _ HX. apply (IH a n fuel X Hl Hg); [lia| |lia|done]. intros b k Hb. apply (Hlow b k). by right.
Qed.

(** From a block above it, over the end of the list. *)
Lemma search_above G2 : forall p np fuel, links h ((p, np) :: G2) base -> gapped ((p, np) :: G2) -> bp < p -> (length G2 < fuel)%nat ->
  find_place h bp p fuel = find_place h bp base (fuel - S (length G2)).
Proof using Hbase.
  induction G2 as [|[a n] G2 IH]; intros p np fuel Hl Hg Hp Hf; cbn [links] in Hl; destruct Hl as (_ & Hptr & Hl); destruct fuel as [|fuel]; [lia| |lia|]; cbn [find_place]; rewrite Hptr; cbn [first].
  - rewrite (proj2 (Z.ltb_ge p bp)), (proj2 (Z.ltb_ge bp base)) by lia. cbn [andb orb]. rewrite andb_false_r. cbn [length]. f_equal. lia.
  - destruct Hg as (Hn & Hgap & Hg). pose proof (Hgap a n ltac:(left)).
    rewrite (proj2 (Z.ltb_ge p bp)), (proj2 (Z.leb_gt a p)) by lia. cbn [andb]. cbn [length] in *. rewrite (IH a n fuel Hl Hg) by lia. f_equal.
Qed.
End Search.

Lemma split_last {A} (l : list A) : l <> [] -> exists X x, l = X ++ [x].
Proof. destruct l as [|x X] using rev_ind; [done|]. eauto. Qed.

Lemma search_ok h base bp n0 F p fuel :
  let G := (base, n0) :: F in
  links h G base -> gapped G -> base < bp -> (forall a n, (a, n) ∈ G -> a <> bp) -> p ∈ G.*1 -> (length G <= fuel)%nat ->
  exists X q nq G2, G = X ++ (q, nq) :: G2 /\ (forall a n, (a, n) ∈ X ++ [(q, nq)] -> a < bp) /\ (forall b k, (b, k) ∈ G2 -> bp < b) /\
    find_place h bp p fuel = Some q.
Proof.
  intros G Hl Hg Hbp Hne Hp Hf. destruct (gapped_split G bp Hg Hne) as (G1 & G2 & EG & Hlow & Hup).
  assert (Hb1 : exists G1', G1 = (base, n0) :: G1').
  { destruct G1 as [|x G1']; [|unfold G in EG; injection EG as <- _; eauto]. cbn in EG. unfold G in EG. rewrite <- EG in Hup. specialize (Hup base n0 ltac:(left)). lia. }
  destruct Hb1 as [G1' EG1]. destruct (split_last G1) as (X & [q nq] & EX); [by rewrite EG1|].
  rewrite EG in Hl, Hg, Hp, Hf. pose proof Hl as Hl'. apply links_app in Hl' as [Hl1 Hl2]. apply gapped_app in Hg as (Hg1 & Hg2 & Hg12).
  rewrite length_app in Hf.
  assert (Hbelow : forall p np Y Z fuel, G1 = Y ++ (p, np) :: Z -> (length Z <= fuel)%nat -> base <= p -> find_place h bp p fuel = Some q).
  { intros p' np Y Z fuel' E Hfu Hbp'. destruct (split_last ((p', np) :: Z)) as (X' & e & E'); [done|].
    assert (e = (q, nq)) as -> by (rewrite EX, E', app_assoc in E; by apply app_inj_tail in E as [_ ?]).
    assert (Hin : forall a n, (a, n) ∈ (p', np) :: Z -> a < bp) by (intros a n Ha; apply (Hlow a n); rewrite E; apply elem_of_app; by right).
    rewrite E in Hg1. apply gapped_app in Hg1 as (_ & Hg1 & _). rewrite E, <- app_assoc in Hl. apply links_app in Hl as [_ Hl]. cbn [app] in Hl.
    apply (search_below h base bp Hbp G2 q nq Hup Z p' np fuel' X' Hl Hg1); [|intros a n Ha; apply (Hin a n); by right|done|done].
    split; [done|]. apply (Hin p' np). left. }
  exists X, q, nq, G2. rewrite EG, EX, <- app_assoc. split; [done|]. split; [by rewrite <- EX|]. split; [done|].
  rewrite fmap_app, elem_of_app in Hp. destruct Hp as [Hp|Hp]; apply list_elem_of_fmap in Hp as ([p' np] & -> & Hp); cbn [fst]; apply list_elem_of_split in Hp as (Y & Z & E).
  - apply (Hbelow p' np Y Z); [done|rewrite E, length_app in Hf; cbn [length] in Hf; lia|].
    destruct Y as [|y Y]; rewrite EG1 in E; cbn [app] in E; [injection E as <- _ _; lia|]. injection E as _ E. rewrite EG1 in Hg1. destruct Hg1 as (Hn0 & Hgap & _).
    specialize (Hgap p' np ltac:(rewrite E; apply elem_of_app; right; left)). lia.
  - assert (Hpos : bp < p') by (apply (Hup p' np); rewrite E; apply elem_of_app; right; left).
    rewrite E in Hl2, Hg2. apply links_app in Hl2 as [_ Hl2]. apply gapped_app in Hg2 as (_ & Hg2 & _).
    rewrite E, EG1, !length_app in Hf. cbn [length] in Hf. rewrite (search_above h base bp Hbp Z p' np fuel Hl2 Hg2 Hpos) by lia.
    apply (Hbelow base n0 [] G1'); [done|lia|lia].
Qed.

(** ** Putting a block back *)

Definition sep (a n b k : Z) : Prop := a + 8 * n <= b \/ b + 8 * k <= a.
Definition sizes (F : list block) : Z := foldr (fun b t => b.2 + t) 0 F.

Lemma sizes_app F1 F2 : sizes (F1 ++ F2) = sizes F1 + sizes F2.
Proof. induction F1 as [|[a n] F1 IH]; cbn [sizes foldr app]; [done|]. fold (sizes (F1 ++ F2)) (sizes F1). lia. Qed.

(** The block [bp] joined with a neighbour above it or not. *)
Inductive joined (bp m : Z) : list block -> Z -> list block -> Prop :=
  | joined_none G2 : (forall b k, (b, k) ∈ G2 -> bp + 8 * m < b) -> joined bp m G2 m G2
  | joined_up k G3 : joined bp m ((bp + 8 * m, k) :: G3) (m + k) G3.

(** Everything that holds of [bp] and of the blocks above holds of the result. *)
Lemma joined_ok bp m G2 m' G2' : joined bp m G2 m' G2' -> 0 < m -> gapped G2 -> (forall b k, (b, k) ∈ G2 -> 0 < k) ->
  m <= m' /\ gapped ((bp, m') :: G2') /\ G2' ⊆ G2 /\ m' + sizes G2' = m + sizes G2 /\
  (forall t, (forall b k, (b, k) ∈ G2 -> b + 8 * k <= t) -> bp + 8 * m <= t -> bp + 8 * m' <= t) /\
  (forall b k, 0 < k -> sep b k bp m -> (forall a n, (a, n) ∈ G2 -> sep b k a n) -> sep b k bp m').
Proof.
  intros [G Hgap|k G3] Hm Hg Hpos.
  - split; [lia|]. split; [split; [lia|done]|]. done.
  - destruct Hg as (Hk & Hgap & Hg). pose proof (Hpos (bp + 8 * m) k ltac:(left)) as Hk0. split; [lia|]. split.
    + split; [lia|]. split; [|done]. intros b k' Hb. specialize (Hgap b k' Hb). lia.
    + split; [intros x Hx; by right|]. split; [cbn [sizes foldr snd]; fold (sizes G3); lia|]. split.
      * intros t Ht _. specialize (Ht (bp + 8 * m) k ltac:(left)). lia.
      * intros b k' Hk' Hs Ha. specialize (Ha (bp + 8 * m) k ltac:(left)). unfold sep in *. lia.
Qed.

Lemma join_upper_ok h base bp q m G2 :
  h_size h bp = m -> h_ptr h q = first base G2 -> links h G2 base -> gapped G2 -> 0 < m -> base < bp -> (forall b k, (b, k) ∈ G2 -> bp < b /\ 0 < k /\ sep bp m b k) ->
  bp + 8 * m <= 2 ^ 31 -> 0 <= bp -> (forall b k, (b, k) ∈ G2 -> b + 8 * k <= 2 ^ 31) ->
  let h' := join_upper bp q h in
  exists m' G2', joined bp m G2 m' G2' /\ links h' ((bp, m') :: G2') base /\
    (forall x, x <> bp -> h_ptr h' x = h_ptr h x /\ h_size h' x = h_size h x) /\ brk h' = brk h.
Proof.
  intros Hs Hptr Hl Hg Hm Hbase Hup Htop H0 Htops. unfold join_upper, sizeof_Header. rewrite Hptr, Hs. clear Hptr.
  assert (Hne : forall a n, (a, n) ∈ G2 -> a <> bp) by (intros a n Ha ->; destruct (Hup bp n Ha); lia).
  destruct (Z.eqb_spec (bp + 8 * m) (first base G2)) as [E|E].
  - destruct G2 as [|[b k] G3]; cbn [first] in *; [lia|]. subst b. exists (m + k), G3. destruct Hl as (Hsz & Hp & Hl).
    destruct (Hup (bp + 8 * m) k ltac:(left)) as (_ & Hk & _). pose proof (Htops (bp + 8 * m) k ltac:(left)). rewrite Hsz, Hp, u32_id by lia.
    split; [constructor|]. split; [|split; [|done]].
    + cbn [links h_size h_ptr set_ptr set_size upd]. unfold upd. rewrite !Z.eqb_refl. split; [done|]. split; [done|]. eapply links_frame; [exact Hl|].
      intros a n Ha. cbn. unfold upd. rewrite (proj2 (Z.eqb_neq a bp)); [done|]. apply (Hne a n). by right.
    + intros x Hx. cbn. unfold upd. by rewrite (proj2 (Z.eqb_neq x bp)).
  - exists m, G2. split; [|split; [|split; [|done]]].
    + constructor. intros b k Hb. destruct (Hup b k Hb) as (? & ? & Hsep).
      assert (bp + 8 * m <> b); [|unfold sep in Hsep; lia]. intros <-. destruct G2 as [|[b' k'] G3]; [by apply elem_of_nil in Hb|]. cbn [first] in E.
      apply elem_of_cons in Hb as [[= <- _]|Hb]; [done|]. destruct Hg as (? & Hgap & _). specialize (Hgap _ _ Hb).
      destruct (Hup b' k' ltac:(left)) as (? & ? & Hsep'). unfold sep in *. lia.
    + cbn [links h_size h_ptr set_ptr]. unfold upd. rewrite Z.eqb_refl. split; [done|]. split; [done|]. eapply links_frame; [exact Hl|].
      intros a n Ha. cbn. unfold upd. rewrite (proj2 (Z.eqb_neq a bp)); [done|]. by apply (Hne a n).
    + intros x Hx. cbn. unfold upd. by rewrite (proj2 (Z.eqb_neq x bp)).
Qed.

(** The end of the list after [join_lower]. *)
Definition lower (q nq bp m' : Z) (G2' : list block) : list block :=
  if q + 8 * nq =? bp then (q, nq + m') :: G2' else (q, nq) :: (bp, m') :: G2'.

Lemma join_lower_ok h base bp q nq m' X G2' :
  links h X q -> h_size h q = nq -> links h ((bp, m') :: G2') base -> gapped (X ++ [(q, nq)]) -> gapped ((bp, m') :: G2') ->
  0 <= nq -> 0 < m' -> 0 <= q < bp -> q + 8 * nq <= bp -> bp + 8 * m' <= 2 ^ 31 ->
  let h' := join_lower bp q h in
  links h' (X ++ lower q nq bp m' G2') base /\ gapped (X ++ lower q nq bp m' G2') /\
  (forall x, x <> q -> h_size h' x = h_size h x) /\ brk h' = brk h.
Proof.
  intros HX Hq Hl HgX Hg Hnq Hm' Hqb Hle Htop. apply gapped_app in HgX as (HgX & _ & HXq). destruct Hl as (Hsb & Hpb & Hl2). destruct Hg as (_ & Hgap & Hg2).
  assert (HneX : forall a n, (a, n) ∈ X -> a <> q).
  { intros a n Ha ->. specialize (HXq q n q nq Ha ltac:(left)). pose proof (gapped_nonneg _ _ _ HgX Ha). lia. }
  assert (Hne2 : forall a n, (a, n) ∈ G2' -> a <> q) by (intros a n Ha ->; specialize (Hgap q n Ha); lia).
  assert (Hfirst : first base (lower q nq bp m' G2') = q) by (unfold lower; by destruct (_ =? _)).
  assert (HXlow : forall a n, (a, n) ∈ X -> a + 8 * n < q) by (intros a n Ha; apply (HXq a n q nq Ha); left).
  unfold join_lower, sizeof_Header. rewrite Hq, links_app, Hfirst, gapped_app. unfold lower.
  destruct (Z.eqb_spec (q + 8 * nq) bp) as [E|E]; cbn [links gapped].
  - rewrite Hpb, Hsb, u32_id by lia. split; [|split; [|split; [|done]]].
    + split; [eapply links_frame; [exact HX|]; intros a n Ha; cbn; unfold upd; by rewrite (proj2 (Z.eqb_neq a q)) by (by apply (HneX a n))|].
      cbn. unfold upd. rewrite !Z.eqb_refl. split; [done|]. split; [done|]. eapply links_frame; [exact Hl2|]. intros a n Ha. cbn. unfold upd.
      by rewrite (proj2 (Z.eqb_neq a q)) by (by apply (Hne2 a n)).
    + split; [done|]. split; [split; [lia|]; split; [|done]; intros b k Hb; specialize (Hgap b k Hb); lia|].
      intros a n b k Ha [[= -> ->]|Hb]%elem_of_cons; [by apply HXlow|]. specialize (Hgap b k Hb). specialize (HXlow a n Ha). lia.
    + intros x Hx. cbn. unfold upd. by rewrite (proj2 (Z.eqb_neq x q)).
  - split; [|split; [|split; [|done]]].
    + split; [eapply links_frame; [exact HX|]; intros a n Ha; cbn; unfold upd; by rewrite (proj2 (Z.eqb_neq a q)) by (by apply (HneX a n))|].
      cbn. unfold upd. rewrite Z.eqb_refl, (proj2 (Z.eqb_neq bp q)) by lia. split; [done|]. split; [done|]. split; [done|]. split; [done|].
      eapply links_frame; [exact Hl2|]. intros a n Ha. cbn. unfold upd. by rewrite (proj2 (Z.eqb_neq a q)) by (by apply (Hne2 a n)).
    + split; [done|]. split.
      * split; [lia|]. split; [|split; [lia|done]]. intros b k [[= -> ->]|Hb]%elem_of_cons; [lia|]. specialize (Hgap b k Hb). lia.
      * intros a n b k Ha. specialize (HXlow a n Ha). intros [[= -> ->]|[[= -> ->]|Hb]%elem_of_cons]%elem_of_cons; [lia|lia|]. specialize (Hgap b k Hb). lia.
    + done.
Qed.
