(* ===== verification/UmallocClaims.v ===== *)
(** * [malloc] and [free]

    The operations on well-formed heaps, and the theorem about every history of
    them. *)
From stdpp Require Import gmap.
From S2P Require Import Prelude Kalloc Umalloc UmallocInv.
Local Open Scope Z_scope.

(** The free list is [F]. *)
Record flist (base : Z) (h : heap) (F : list (Z * Z)) : Prop := {
  fl_links : links h ((base, 0) :: F) base;
  fl_gapped : gapped ((base, 0) :: F);
  fl_blocks a n : (a, n) ∈ F -> 0 < n /\ base + 8 <= a /\ a + 8 * n <= brk h;
  fl_freep : freep h ∈ ((base, 0) :: F).*1;
  fl_brk : 0 < base /\ base + 8 <= brk h <= KERNBASE
}.

Lemma blocks_count F t : forall lo, gapped F -> (forall a n, (a, n) ∈ F -> 0 < n /\ lo <= a /\ a + 8 * n <= t) -> lo <= t -> lo + 8 * Z.of_nat (length F) <= t.
Proof.
  induction F as [|[a n] F IH]; intros lo Hg Hb Hlo; cbn [length]; [lia|]. destruct Hg as (_ & Hgap & Hg). destruct (Hb a n ltac:(left)) as (? & ? & ?).
  assert (a + 8 * n + 8 * Z.of_nat (length F) <= t); [|lia]. apply IH; [done| |done]. intros b k Hk. destruct (Hb b k ltac:(by right)) as (? & _ & ?).
  specialize (Hgap b k Hk). lia.
Qed.

Lemma flist_rounds base h F : flist base h F -> (length F + 2 <= rounds h)%nat.
Proof.
  intros [_ (_ & _ & Hg) Hb _ Hk]. pose proof (blocks_count F (brk h) 0 Hg) as Hc. unfold rounds, sizeof_Header.
  assert (0 + 8 * Z.of_nat (length F) <= brk h); [|lia]. apply Hc; [|lia]. intros a n Ha. destruct (Hb a n Ha) as (? & ? & ?). lia.
Qed.

(** What a block given back changes. *)
Record released (base : Z) (h : heap) (F : list (Z * Z)) (bp m : Z) (h' : heap) (F' : list (Z * Z)) : Prop := {
  rl_flist : flist base h' F';
  rl_brk : brk h' = brk h;
  rl_frame x : x <> bp -> x ∉ ((base, 0) :: F).*1 -> h_size h' x = h_size h x;
  rl_sep b k : 0 < k -> sep b k bp m -> (forall a n, (a, n) ∈ F -> sep b k a n) -> forall a n, (a, n) ∈ F' -> sep b k a n;
  rl_sizes : sizes F' = sizes F + m;
  rl_large : exists a n, (a, n) ∈ F' /\ m <= n;
  rl_length : (length F' <= length F + 1)%nat
}.

Lemma lower_in q nq bp m' G2' a n : (a, n) ∈ lower q nq bp m' G2' ->
  (a, n) ∈ G2' \/ (a, n) = (q, nq) /\ q + 8 * nq <> bp \/ (a, n) = (bp, m') \/ (a, n) = (q, nq + m') /\ q + 8 * nq = bp.
Proof. unfold lower. destruct (Z.eqb_spec (q + 8 * nq) bp); rewrite !elem_of_cons; tauto. Qed.

Lemma lower_sizes q nq bp m' G2' : sizes (lower q nq bp m' G2') = nq + m' + sizes G2'.
Proof. unfold lower. destruct (_ =? _); cbn [sizes foldr snd]; fold (sizes G2'); lia. Qed.

(** The new list, below the static header. *)
Lemma lower_list base F X q nq G2 bp m m' G2' :
  (base, 0) :: F = X ++ (q, nq) :: G2 -> base < bp -> G2' ⊆ G2 -> m' + sizes G2' = m + sizes G2 -> (forall b k, (b, k) ∈ G2 -> bp < b) ->
  exists F', X ++ lower q nq bp m' G2' = (base, 0) :: F' /\ sizes F' = sizes F + m /\
    (forall a n, (a, n) ∈ F' -> (a, n) ∈ F \/ (a, n) = (bp, m') \/ (a, n) = (q, nq + m') /\ q + 8 * nq = bp /\ (q, nq) ∈ F) /\
    ((bp, m') ∈ F' \/ (q, nq + m') ∈ F' /\ (q, nq) ∈ (base, 0) :: F).
Proof.
  intros EG Hbase Hsub Hsz Hup.
  assert (Hqin : (q, nq) ∈ (base, 0) :: F) by (rewrite EG; apply elem_of_app; right; left).
  assert (HF2 : forall a n, (a, n) ∈ G2 -> (a, n) ∈ F).
  { intros a n Ha. assert (Hin : (a, n) ∈ (base, 0) :: F) by (rewrite EG; apply elem_of_app; right; by right).
    apply elem_of_cons in Hin as [[= -> ->]|]; [|done]. specialize (Hup base 0 Ha). lia. }
  assert (Hsum : sizes F = sizes X + nq + sizes G2).
  { change (sizes F) with (sizes ((base, 0) :: F)). rewrite EG, sizes_app. cbn [sizes foldr snd]. fold (sizes G2). lia. }
  destruct X as [|x X]; cbn [app] in EG.
  - injection EG as <- <- <-. exists ((bp, m') :: G2'). unfold lower. rewrite Z.mul_0_r, Z.add_0_r, (proj2 (Z.eqb_neq base bp)) by lia.
    split; [done|]. split; [cbn [sizes foldr snd]; fold (sizes G2'); lia|]. split; [|left; left].
    intros a n [->|Ha]%elem_of_cons; [tauto|]. left. by apply Hsub.
  - injection EG as <- EF. exists (X ++ lower q nq bp m' G2'). split; [done|]. split; [|split].
    + rewrite sizes_app, lower_sizes. cbn [sizes foldr snd] in Hsum. fold (sizes X) in Hsum. lia.
    + assert (HqF : (q, nq) ∈ F) by (rewrite EF; apply elem_of_app; right; left).
      intros a n [Ha|Ha]%elem_of_app; [left; rewrite EF; apply elem_of_app; by left|].
      apply lower_in in Ha as [Ha|[[-> _]|[->|[-> E]]]]; [left; by apply HF2, Hsub|by left|tauto|tauto].
    + unfold lower. destruct (_ =? _); [right; split; [apply elem_of_app; right; left|done]|left; apply elem_of_app; right; right; left].
Qed.

Lemma free_ok base h F bp m :
  flist base h F -> h_size h bp = m -> 0 < m -> base + 8 <= bp -> bp + 8 * m <= brk h -> (forall a n, (a, n) ∈ F -> sep a n bp m) ->
  exists h' F', free (bp + 8) h = Ret tt h' /\ released base h F bp m h' F'.
Proof.
  intros HF Hsz Hm Hbp Htop Hsep. pose proof (flist_rounds _ _ _ HF) as Hr. destruct HF as [Hl Hg Hbl Hfp [Hb0 Hbrk]]. unfold KERNBASE in Hbrk.
  destruct (search_ok h base bp 0 F (freep h) (rounds h) Hl Hg) as (X & q & nq & G2 & EG & Hlow & Hup & Hfind); [lia| |done|cbn [length]; lia|].
  { intros a n [[= -> ->]|Ha]%elem_of_cons; [lia|]. destruct (Hbl a n Ha) as (? & _). specialize (Hsep a n Ha). unfold sep in Hsep. lia. }
  assert (Hin2 : forall b k, (b, k) ∈ G2 -> (b, k) ∈ F).
  { intros b k Hb. assert (Hin : (b, k) ∈ (base, 0) :: F) by (rewrite EG; apply elem_of_app; right; by right).
    apply elem_of_cons in Hin as [[= -> ->]|]; [|done]. specialize (Hup base 0 Hb). lia. }
  assert (Hq : (q, nq) ∈ (base, 0) :: F) by (rewrite EG; apply elem_of_app; right; left).
  assert (Hqlow : q < bp) by (apply (Hlow q nq), elem_of_app; right; left).
  assert (Hqok : 0 <= nq /\ 0 <= q /\ q + 8 * nq <= bp).
  { apply elem_of_cons in Hq as [[= -> ->]|Hq]; [lia|]. destruct (Hbl q nq Hq) as (? & ? & ?). specialize (Hsep q nq Hq). unfold sep in Hsep. lia. }
  assert (HqX : forall x, x ∉ ((base, 0) :: F).*1 -> x <> q) by (intros x Hx ->; apply Hx, list_elem_of_fmap; by exists (q, nq)).
  pose proof Hl as HlG. pose proof Hg as HgG. rewrite EG in HlG, HgG. apply links_app in HlG as [HlX (Hsq & Hpq & Hl2)]. cbn [first] in HlX.
  pose proof HgG as (_ & (_ & _ & Hg2) & _)%gapped_app. rewrite (app_assoc X [(q, nq)] G2 : X ++ (q, nq) :: G2 = _) in HgG. apply gapped_app in HgG as (HgX & _).
  destruct (join_upper_ok h base bp q m G2 Hsz Hpq Hl2 Hg2 Hm) as (m' & G2' & Hj & Hl1 & Hfr1 & Hbr1); try lia.
  { intros b k Hb. destruct (Hbl b k (Hin2 b k Hb)) as (? & _). specialize (Hsep b k (Hin2 b k Hb)). unfold sep in *. split; [by apply (Hup b k)|lia]. }
  { intros b k Hb. destruct (Hbl b k (Hin2 b k Hb)) as (_ & _ & ?). lia. }
  destruct (joined_ok _ _ _ _ _ Hj Hm Hg2) as (Hmm & Hg1 & Hsub & Hsum & Htop1 & Hsep1).
  { intros b k Hb. by destruct (Hbl b k (Hin2 b k Hb)). }
  assert (Ht1 : bp + 8 * m' <= brk h) by (apply Htop1; [|done]; intros b k Hb; by destruct (Hbl b k (Hin2 b k Hb)) as (_ & _ & ?)).
  set (h1 := join_upper bp q h) in *.
  destruct (join_lower_ok h1 base bp q nq m' X G2') as (HlN & HgN & Hfr2 & Hbr2); try done; try lia.
  { eapply links_frame; [exact HlX|]. intros a n Ha. apply Hfr1. assert (a < bp); [|lia]. apply (Hlow a n), elem_of_app. by left. }
  { destruct (Hfr1 q) as [_ ->]; [lia|done]. }
  destruct (lower_list base F X q nq G2 bp m m' G2' EG) as (F' & EF' & HszF & HinF & Hlarge); [lia|done|done|done|].
  rewrite EF' in HlN, HgN. exists (set_freep q (join_lower bp q h1)), F'. split.
  { unfold free, sizeof_Header. replace (bp + 8 - 8) with bp by lia. by rewrite Hfind. }
  constructor.
  - constructor; [|done| | |].
    + eapply links_frame; [exact HlN|]. done.
    + cbn. rewrite Hbr2, Hbr1. intros a n Ha. destruct (HinF a n Ha) as [Ha'|[[= -> ->]|([= -> ->] & E & Hq')]]; [by apply Hbl|lia|].
      destruct (Hbl q nq Hq') as (? & ? & ?). lia.
    + cbn [freep set_freep]. rewrite <- EF', fmap_app, elem_of_app. right. unfold lower. destruct (_ =? _); left.
    + cbn. rewrite Hbr2, Hbr1. unfold KERNBASE. lia.
  - cbn. by rewrite Hbr2.
  - intros x Hx Hnin. cbn. rewrite Hfr2 by (by apply HqX). by apply Hfr1.
  - intros b k Hk Hs HsF a n Ha. assert (Hs' : sep b k bp m') by (apply Hsep1; [done|done|]; intros a' n' Ha'; by apply HsF, Hin2).
    destruct (HinF a n Ha) as [Ha'|[[= -> ->]|([= -> ->] & E & Hq')]]; [by apply HsF|done|]. specialize (HsF q nq Hq').
    destruct (Hbl q nq Hq') as (? & _). unfold sep in *. lia.
  - done.
  - destruct Hlarge as [Hin|[Hin _]]; [exists bp, m'|exists q, (nq + m')]; (split; [done|lia]).
  - apply (f_equal length) in EG, EF'. rewrite length_app in EG, EF'. cbn [length] in EG, EF'.
    assert (length G2' <= length G2)%nat by (destruct Hj; cbn [length]; lia).
    unfold lower in EF'. destruct (_ =? _); cbn [length] in EF'; lia.
Qed.

(** ** The search in [malloc] *)

(** The blocks that follow [prevp], in the order of the ring. *)
Fixpoint walk (h : heap) (prevp : Z) (R : list (Z * Z)) : Prop :=
  match R with
  | [] => True
  | (a, n) :: R' => h_ptr h prevp = a /\ h_size h a = n /\ walk h a R'
  end.

(** The last of them. *)
Fixpoint final (p : Z) (R : list (Z * Z)) : Z := match R with [] => p | (a, _) :: R' => final a R' end.

Lemma walk_app h R1 : forall p R2, walk h p (R1 ++ R2) <-> walk h p R1 /\ walk h (final p R1) R2.
Proof. induction R1 as [|[a n] R1 IH]; intros p R2; cbn [walk app final]; [tauto|]. rewrite IH. tauto. Qed.

Lemma links_walk h G : forall z a n, links h ((a, n) :: G) z -> walk h a G /\ h_ptr h (final a G) = z.
Proof.
  induction G as [|[b k] G IH]; intros z a n; cbn [links walk final]; [cbn; tauto|]. intros (H1 & H2 & H3). destruct (IH z b k H3) as [H4 H5].
  split; [split; [done|]; split; [apply H3|done]|done].
Qed.

Lemma final_in p R : final p R ∈ p :: R.*1.
Proof. revert p. induction R as [|[a n] R IH]; intros p; cbn [final]; [left|]. right. apply IH. Qed.

(** The whole ring, from the block after [fp] to [fp]. *)
Lemma ring_walk h base n0 F Y fp nf W : (base, n0) :: F = Y ++ (fp, nf) :: W -> links h ((base, n0) :: F) base -> walk h fp (W ++ Y ++ [(fp, nf)]).
Proof.
  intros E Hl. rewrite E in Hl. apply links_app in Hl as [HlY HlZ]. pose proof HlZ as (Hs & _ & _). destruct (links_walk _ _ _ _ _ HlZ) as [HwZ HzZ].
  apply walk_app. split; [done|]. destruct Y as [|[b k] Y]; cbn [app] in E.
  - injection E as <- _ _. cbn [app walk]. split; [exact HzZ|done].
  - injection E as <- <- _. destruct HlY as (Hs0 & Hp0 & HlY).
    destruct (links_walk h Y fp base n0) as [HwY HzY]; [done|]. cbn [app walk]. split; [exact HzZ|]. split; [done|].
    apply walk_app. split; [done|]. cbn [walk]. done.
Qed.

(** The loop passes over blocks that are too small. *)
Lemma malloc_pass grants nunits h fuel R : forall prevp p n,
  walk h prevp (R ++ [(p, n)]) -> (forall a k, (a, k) ∈ R -> k < nunits /\ a <> freep h) ->
  malloc_loop grants nunits prevp (h_ptr h prevp) (length R + S fuel) h = malloc_loop grants nunits (final prevp R) p (S fuel) h /\ h_ptr h (final prevp R) = p.
Proof.
  induction R as [|[a k] R IH]; intros prevp p n Hw Hs; cbn [app walk] in Hw.
  - destruct Hw as (Hp & _). rewrite Hp. split; [done|exact Hp].
  - destruct Hw as (Hp & Hk & Hw). destruct (Hs a k ltac:(left)) as [Hlt Hne]. destruct (IH a p n Hw) as [IH1 IH2]; [intros b k' Hb; apply (Hs b k'); by right|].
    split; [|done]. rewrite Hp. cbn [length Nat.add malloc_loop final]. unfold mbind at 1, M_bind at 1, get.
    rewrite Hk, (proj2 (Z.leb_gt nunits k)), (proj2 (Z.eqb_neq a (freep h))) by (done || lia). exact IH1.
Qed.

(** The first block that is large enough. *)
Lemma first_fit nunits (R : list (Z * Z)) :
  (exists R1 p n R2, R = R1 ++ (p, n) :: R2 /\ nunits <= n /\ forall a k, (a, k) ∈ R1 -> k < nunits) \/ (forall a k, (a, k) ∈ R -> k < nunits).
Proof.
  induction R as [|[a k] R IH]; [right; by intros ? ? ?%elem_of_nil|]. destruct (decide (nunits <= k)) as [Hle|Hlt].
  - left. exists [], a, k, R. split; [done|]. split; [done|]. by intros ? ? ?%elem_of_nil.
  - destruct IH as [(R1 & p & n & R2 & -> & Hn & Hs)|Hs]; [left|right].
    + exists ((a, k) :: R1), p, n, R2. split; [done|]. split; [done|]. intros b k' [[= -> ->]|Hb]%elem_of_cons; [lia|by apply (Hs b k')].
    + intros b k' [[= -> ->]|Hb]%elem_of_cons; [lia|by apply (Hs b k')].
Qed.

Lemma links_size h G z a n : links h G z -> (a, n) ∈ G -> h_size h a = n.
Proof. induction G as [|[b k] G IH]; cbn [links]; [by intros _ ?%elem_of_nil|]. intros (H1 & _ & H3) [[= -> ->]|Ha]%elem_of_cons; [done|by apply IH]. Qed.

Lemma pred_split h G z pv p : links h G z -> pv ∈ G.*1 -> h_ptr h pv = p -> p <> z -> exists Y npv n W, G = Y ++ (pv, npv) :: (p, n) :: W.
Proof.
  intros Hl Hin Hp Hz. apply list_elem_of_fmap in Hin as ([pv' npv] & -> & Hin). apply list_elem_of_split in Hin as (Y & W & ->). cbn [fst] in *.
  apply links_app in Hl as [_ (_ & Hp' & _)]. destruct W as [|[b k] W]; cbn [first] in Hp'; [congruence|]. exists Y, npv, k, W. congruence.
Qed.

(** What a block taken from the free list changes. *)
Record taken (base : Z) (h : heap) (F : list (Z * Z)) (nunits b : Z) (h' : heap) (F' : list (Z * Z)) : Prop := {
  tk_flist : flist base h' F';
  tk_brk : brk h' = brk h;
  tk_block : exists p n, (p, n) ∈ F /\ p <= b /\ b + 8 * nunits <= p + 8 * n;
  tk_within a k : (a, k) ∈ F' -> exists p n, (p, n) ∈ F /\ p <= a /\ a + 8 * k <= p + 8 * n;
  tk_sep a k : (a, k) ∈ F' -> sep b nunits a k;
  tk_size : h_size h' b = nunits;
  tk_frame x : x ∉ F.*1 -> x <> b -> h_size h' x = h_size h x;
  tk_sizes : sizes F' + nunits = sizes F
}.

(** A block that is not the static header, in the ring. *)
Lemma block_in_list (base : Z) (F Y : list (Z * Z)) (pv npv p n : Z) (W : list (Z * Z)) : (base, 0) :: F = Y ++ (pv, npv) :: (p, n) :: W ->
  exists Y', Y ++ [(pv, npv)] = (base, 0) :: Y' /\ F = Y' ++ (p, n) :: W.
Proof.
  intros E. destruct Y as [|y Y]; cbn [app] in *.
  - injection E as <- <- ->. by exists [].
  - injection E as <- ->. exists (Y ++ [(pv, npv)]). by rewrite <- app_assoc.
Qed.

Lemma take_exact base h F Y pv npv p n W :
  flist base h F -> (base, 0) :: F = Y ++ (pv, npv) :: (p, n) :: W ->
  exists F', taken base h F n p (set_freep pv (set_ptr pv (h_ptr h p) h)) F'.
Proof.
  intros [Hl Hg Hb Hfp Hk] E. destruct (block_in_list _ _ _ _ _ _ _ _ E) as (Y' & EY & EF). exists (Y' ++ W).
  assert (EG : (base, 0) :: Y' ++ W = Y ++ (pv, npv) :: W) by (rewrite app_comm_cons, <- EY, <- app_assoc; done).
  assert (Hsub : forall a k, (a, k) ∈ Y' ++ W -> (a, k) ∈ F) by (intros a k; rewrite EF, !elem_of_app, elem_of_cons; tauto).
  assert (Hp : (p, n) ∈ F) by (rewrite EF; apply elem_of_app; right; left).
  rewrite E in Hl, Hg. pose proof Hg as Hg'. rewrite (app_assoc Y [(pv, npv)] ((p, n) :: W) : Y ++ (pv, npv) :: (p, n) :: W = _) in Hg'.
  destruct (gapped_around _ _ _ _ Hg') as (Hn & Hlow & Hhigh). destruct (gapped_around _ _ _ _ Hg) as (Hnpv & HlowY & Hhighpv).
  assert (Hgn : gapped (Y ++ (pv, npv) :: W)).
  { apply gapped_app in Hg as (HgY & (_ & Hgap & (_ & _ & HgZ)) & HYZ). apply gapped_app. split; [done|]. split.
    - split; [done|]. split; [|done]. intros b k Hbk. apply (Hgap b k). by right.
    - intros a k b k' Ha [[= -> ->]|Hbk]%elem_of_cons; [apply (HYZ a k pv npv Ha); left|]. apply (HYZ a k b k' Ha). right. by right. }
  constructor.
  - constructor.
    + rewrite EG. apply links_app in Hl as [HlY (Hs & _ & (_ & Hpp & HlZ))]. cbn [first] in HlY. apply links_app. cbn [first links]. split; [|split; [done|split]].
      * eapply links_frame; [exact HlY|]. intros a k Ha. cbn. unfold upd. destruct (HlowY a k Ha). by rewrite (proj2 (Z.eqb_neq a pv)) by lia.
      * cbn. unfold upd. by rewrite Z.eqb_refl.
      * eapply links_frame; [exact HlZ|]. intros a k Ha. cbn. unfold upd. destruct (Hhighpv a k ltac:(by right)). by rewrite (proj2 (Z.eqb_neq a pv)) by lia.
    + by rewrite EG.
    + intros a k Ha. by apply Hb, Hsub.
    + rewrite EG, fmap_app, elem_of_app. right. left.
    + done.
  - done.
  - exists p, n. split; [done|]. lia.
  - intros a k Ha. exists a, k. split; [by apply Hsub|]. lia.
  - intros a k [Ha|Ha]%elem_of_app; unfold sep.
    + right. destruct (Hlow a k); [|lia]. rewrite EY. by right.
    + left. destruct (Hhigh a k Ha). lia.
  - cbn. apply (links_size h _ base p n Hl). rewrite E in *. apply elem_of_app. right. right. left.
  - done.
  - rewrite EF, !sizes_app. cbn [sizes foldr snd]. fold (sizes W). lia.
Qed.

Lemma take_split base h F Y pv npv p n W nunits :
  flist base h F -> (base, 0) :: F = Y ++ (pv, npv) :: (p, n) :: W -> 0 < nunits < n ->
  let q := p + 8 * (n - nunits) in
  exists F', taken base h F nunits q (set_freep pv (set_size q nunits (set_size p (n - nunits) h))) F'.
Proof.
  intros [Hl Hg Hb Hfp Hk] E Hn q. destruct (block_in_list _ _ _ _ _ _ _ _ E) as (Y' & EY & EF). set (r := n - nunits) in *. exists (Y' ++ (p, r) :: W).
  assert (EG : (base, 0) :: Y' ++ (p, r) :: W = (Y ++ [(pv, npv)]) ++ (p, r) :: W) by (by rewrite app_comm_cons, <- EY).
  assert (E' : (base, 0) :: F = (Y ++ [(pv, npv)]) ++ (p, n) :: W) by (rewrite E, <- app_assoc; done).
  assert (Hp : (p, n) ∈ F) by (rewrite EF; apply elem_of_app; right; left).
  assert (Hin : forall a k, (a, k) ∈ Y' ++ (p, r) :: W -> (a, k) = (p, r) \/ (a, k) ∈ F /\ ((a, k) ∈ Y' \/ (a, k) ∈ W))
    by (intros a k; rewrite EF, !elem_of_app, !elem_of_cons; tauto).
  rewrite E' in Hl, Hg. destruct (gapped_around _ _ _ _ Hg) as (Hn0 & Hlow & Hhigh).
  set (L := Y ++ [(pv, npv)]) in *. change (Y ++ [(pv, npv)]) with L in EY.
  assert (Hfr : forall a k, (a, k) ∈ L \/ (a, k) ∈ W -> a <> p /\ a <> q).
  { intros a k [Ha|Ha]; [destruct (Hlow a k Ha)|destruct (Hhigh a k Ha)]; unfold q, r; lia. }
  set (h' := set_freep pv (set_size q nunits (set_size p r h))).
  assert (Hsame : forall x, x <> p -> x <> q -> h_ptr h' x = h_ptr h x /\ h_size h' x = h_size h x).
  { intros x H1 H2. cbn. unfold upd. by rewrite (proj2 (Z.eqb_neq x p)), (proj2 (Z.eqb_neq x q)). }
  constructor.
  - constructor.
    + rewrite EG. apply links_app in Hl as [HlL (_ & Hpp & HlW)]. apply links_app. cbn [first links] in *. split; [|split; [|split]].
      * eapply links_frame; [exact HlL|]. intros a k Ha. apply Hsame; apply (Hfr a k); by left.
      * cbn. unfold upd. rewrite Z.eqb_refl. rewrite (proj2 (Z.eqb_neq p q)) by (unfold q, r; lia). done.
      * done.
      * eapply links_frame; [exact HlW|]. intros a k Ha. apply Hsame; apply (Hfr a k); by right.
    + rewrite EG. apply gapped_app in Hg as (HgL & (_ & Hgap & HgW) & HLW). apply gapped_app. split; [done|]. split.
      * split; [unfold r; lia|]. split; [|done]. intros b k Hbk. specialize (Hgap b k Hbk). unfold r. lia.
      * intros a k b k' Ha [[= -> ->]|Hbk]%elem_of_cons; [apply (HLW a k p n Ha); left|]. apply (HLW a k b k' Ha). by right.
    + intros a k Ha. destruct (Hin a k Ha) as [[= -> ->]|[Ha' _]]; [|by apply Hb]. destruct (Hb p n Hp) as (? & ? & ?). cbn. unfold r. lia.
    + rewrite EG, fmap_app, elem_of_app. left. apply list_elem_of_fmap. exists (pv, npv). split; [done|]. apply elem_of_app. right. left.
    + done.
  - done.
  - exists p, n. split; [done|]. unfold q, r. lia.
  - intros a k Ha. destruct (Hin a k Ha) as [[= -> ->]|[Ha' _]]; [exists p, n|exists a, k]; (split; [done|]); unfold r; lia.
  - intros a k Ha. unfold sep. destruct (Hin a k Ha) as [[= -> ->]|[_ [Ha'|Ha']]]; [right; unfold q; lia| |].
    + right. destruct (Hlow a k); [rewrite EY; by right|]. unfold q, r. lia.
    + left. destruct (Hhigh a k Ha'). unfold q, r. lia.
  - cbn. unfold upd. by rewrite Z.eqb_refl.
  - intros x Hx Hq. apply Hsame; [|done]. intros ->. apply Hx, list_elem_of_fmap. by exists (p, n).
  - rewrite EF, !sizes_app. cbn [sizes foldr snd]. fold (sizes W). unfold r. lia.
Qed.

(** The static header is not chosen. *)
Lemma malloc_fit grants base h F nunits fuel :
  flist base h F -> 0 < nunits -> (exists a n, (a, n) ∈ F /\ nunits <= n) -> (length F < fuel)%nat ->
  exists r h' F', malloc_loop grants nunits (freep h) (h_ptr h (freep h)) fuel h = Ret (r + 8) h' /\ taken base h F nunits r h' F'.
Proof.
  intros HF Hpos (a0 & n0 & Ha0 & Hn0) Hfuel. pose proof HF as [Hl Hg Hb Hfp Hk].
  apply list_elem_of_fmap in Hfp as ([fp nf] & Efp & Hfp). cbn [fst] in Efp. apply list_elem_of_split in Hfp as (Y & W & EG).
  pose proof (ring_walk h base 0 F Y fp nf W EG Hl) as Hw. rewrite Efp. rewrite EG in Hg. destruct (gapped_around _ _ _ _ Hg) as (_ & HY & HW).
  destruct (first_fit nunits (W ++ Y ++ [(fp, nf)])) as [(R1 & p & n & R2 & ER & Hn & Hsmall)|Hnone].
  2: { exfalso. assert (Hin : (a0, n0) ∈ (base, 0) :: F) by (by right). rewrite EG, elem_of_app, elem_of_cons in Hin.
       specialize (Hnone a0 n0). rewrite !elem_of_app, list_elem_of_singleton in Hnone. destruct Hin as [?|[?|?]]; lia || (specialize (Hnone ltac:(tauto)); lia). }
  assert (HR1 : R1 ⊆ W ++ Y).
  { rewrite app_assoc in ER. destruct R2 as [|x R2 _] using rev_ind; [apply app_inj_tail in ER as [-> _]; done|].
    rewrite app_comm_cons, app_assoc in ER. apply app_inj_tail in ER as [-> _]. intros y Hy. apply elem_of_app. by left. }
  assert (Hlen : (length R1 <= length F)%nat).
  { apply (f_equal length) in EG, ER. rewrite !length_app in *. cbn [length] in *. lia. }
  rewrite ER in Hw. change ((p, n) :: R2) with ([(p, n)] ++ R2) in Hw. rewrite app_assoc in Hw. apply walk_app in Hw as [Hw _].
  assert (HpG : (p, n) ∈ (base, 0) :: F).
  { assert (Hin : (p, n) ∈ W ++ Y ++ [(fp, nf)]) by (rewrite ER; apply elem_of_app; right; left). rewrite EG, !elem_of_app, ?elem_of_cons, ?elem_of_nil in *. tauto. }
  destruct fuel as [|fuel']; [lia|]. replace (S fuel') with (length R1 + S (fuel' - length R1))%nat by lia.
  destruct (malloc_pass grants nunits h (fuel' - length R1) R1 fp p n Hw) as [-> Hpv].
  { intros a k Ha. split; [by apply (Hsmall a k)|]. rewrite Efp. apply HR1, elem_of_app in Ha as [Ha|Ha]; [destruct (HW a k Ha)|destruct (HY a k Ha)]; destruct (gapped_around _ _ _ _ Hg); lia. }
  pose proof (links_size _ _ _ _ _ Hl HpG) as Hsz. set (pv := final fp R1) in *.
  assert (Hpb : p <> base) by (intros ->; pose proof (links_size _ _ _ base 0 Hl ltac:(left)); lia).
  assert (Hpvin : pv ∈ ((base, 0) :: F).*1).
  { assert (Hin : pv ∈ fp :: R1.*1) by apply final_in. rewrite EG. apply elem_of_cons in Hin as [->|Hin]; [rewrite fmap_app, elem_of_app; right; left|].
    apply list_elem_of_fmap in Hin as ([a k] & -> & Ha). apply list_elem_of_fmap. exists (a, k). split; [done|]. apply HR1, elem_of_app in Ha. rewrite elem_of_app, elem_of_cons. tauto. }
  destruct (pred_split h _ base pv p Hl Hpvin Hpv Hpb) as (Y' & npv & n' & W' & E).
  assert (n' = n) as -> by (rewrite <- Hsz; symmetry; apply (links_size _ _ _ _ _ Hl); rewrite E; apply elem_of_app; right; right; left).
  cbn [malloc_loop]. unfold mbind at 1, M_bind at 1, get. rewrite Hsz, (proj2 (Z.leb_le nunits n)) by done.
  destruct (Z.eqb_spec n nunits) as [->|Hne].
  - destruct (take_exact base h F Y' pv npv p nunits W' HF E) as [F' HT]. eexists p, _, F'. split; [reflexivity|exact HT].
  - destruct (take_split base h F Y' pv npv p n W' nunits HF E ltac:(lia)) as [F' HT]. eexists _, _, F'. split; [reflexivity|exact HT].
Qed.

(** ** Heaps *)

Section Heap.
Context (base start : Z).

Lemma sizes_perm F1 F2 : F1 ≡ₚ F2 -> sizes F1 = sizes F2.
Proof. induction 1 as [|[a n] F1 F2 _ IH|[a n] [b k] F|]; cbn [sizes foldr snd] in *; try lia; try (fold (sizes F1) (sizes F2); lia). Qed.

(** The free blocks are [F], the allocated blocks [A], by address; together they
    make up the memory from [start] to the break. *)
Record heap_sep (h : heap) (F : list (Z * Z)) (A : gmap Z Z) : Prop := {
  hk_flist : flist base h F;
  hk_alloc b k : A !! b = Some k -> 0 < k /\ base + 8 <= b /\ b + 8 * k <= brk h /\ h_size h b = k;
  hk_free b k a n : A !! b = Some k -> (a, n) ∈ F -> sep b k a n;
  hk_disjoint a n b k : A !! a = Some n -> A !! b = Some k -> a <> b -> sep a n b k
}.
Definition heap_ok (h : heap) (F : list (Z * Z)) (A : gmap Z Z) : Prop :=
  heap_sep h F A /\ 8 * (sizes F + sizes (map_to_list A)) = brk h - start.

Lemma sep_sym a n b k : sep a n b k -> sep b k a n.
Proof. unfold sep. tauto. Qed.

Lemma sep_within a n b k c l : sep a n b k -> b <= c -> c + 8 * l <= b + 8 * k -> sep a n c l.
Proof. unfold sep. lia. Qed.

(** The header of an allocated block is not in the free list. *)
Lemma alloc_not_free h F A b k : heap_sep h F A -> A !! b = Some k -> b ∉ ((base, 0) :: F).*1.
Proof.
  intros H Hb [->|Hin]%elem_of_cons; [destruct (hk_alloc _ _ _ H _ _ Hb) as (_ & ? & _); cbn in *; lia|].
  apply list_elem_of_fmap in Hin as ([a n] & -> & Ha). cbn in Hb. pose proof (hk_free _ _ _ H _ _ _ _ Hb Ha) as Hs.
  destruct (fl_blocks _ _ _ (hk_flist _ _ _ H) a n Ha), (hk_alloc _ _ _ H _ _ Hb). unfold sep in Hs. lia.
Qed.

Lemma taken_ok h F A nunits b h' F' : heap_ok h F A -> taken base h F nunits b h' F' -> 0 < nunits ->
  A !! b = None /\ heap_ok h' F' (<[b := nunits]> A).
Proof.
  intros [H Htot] [T1 T2 (p & n & Hp & Hpb & Hbp) T4 T5 T6 T7 T8] Hn. pose proof (fl_blocks _ _ _ (hk_flist _ _ _ H) p n Hp) as (Hn0 & Hbase & Htop).
  assert (Hsep : forall x k, A !! x = Some k -> sep x k b nunits).
  { intros x k Hx. apply (sep_within x k p n); [by apply (hk_free _ _ _ H)|done|done]. }
  assert (Hnone : A !! b = None).
  { destruct (A !! b) as [k|] eqn:Eb; [|done]. specialize (Hsep b k Eb). destruct (hk_alloc _ _ _ H b k Eb). unfold sep in Hsep. lia. }
  split; [done|]. split; [constructor; [done|..]|].
  - intros x k. rewrite T2. destruct (decide (x = b)) as [->|Hne]; [rewrite lookup_insert_eq; intros [= <-]; split; [done|]; split; [lia|]; split; [lia|done]|].
    rewrite lookup_insert_ne by done. intros Hx. destruct (hk_alloc _ _ _ H x k Hx) as (? & ? & ? & Hsz). rewrite T7; [done| |done].
    intros Hin. apply (alloc_not_free h F A x k H Hx). by right.
  - intros x k a m. destruct (decide (x = b)) as [->|Hne]; [rewrite lookup_insert_eq; intros [= <-]; apply T5|].
    rewrite lookup_insert_ne by done. intros Hx Ha. destruct (T4 a m Ha) as (p' & n' & Hp' & H1 & H2). apply (sep_within x k p' n'); [by apply (hk_free _ _ _ H)|done|done].
  - intros x k y l. destruct (decide (x = b)) as [->|Hx], (decide (y = b)) as [->|Hy]; rewrite ?lookup_insert_eq, ?lookup_insert_ne by done; try done.
    + intros [= <-] HA _. by apply sep_sym, Hsep.
    + intros HA [= <-] _. by apply Hsep.
    + by apply (hk_disjoint _ _ _ H).
  - rewrite T2, (sizes_perm _ _ (map_to_list_insert A b nunits Hnone)). cbn [sizes foldr snd]. fold (sizes (map_to_list A)). lia.
Qed.

(** The blocks of [A] next to a block that is given back. *)
Lemma released_ok h F A bp m h' F' (B : gmap Z Z) :
  heap_sep h F A -> released base h F bp m h' F' -> (forall b k, B !! b = Some k -> A !! b = Some k /\ b <> bp /\ sep b k bp m) ->
  8 * (sizes F + m + sizes (map_to_list B)) = brk h - start -> heap_ok h' F' B.
Proof.
  intros H [R1 R2 R3 R4 R5 R6 R7] HB Htot. split; [constructor; [done|..]|].
  - intros b k Hb. destruct (HB b k Hb) as (Ha & Hne & _). rewrite R2, R3; [by apply (hk_alloc _ _ _ H)|done|]. by apply (alloc_not_free h F A b k).
  - intros b k a n Hb Ha. destruct (HB b k Hb) as (Hb' & _ & Hs). apply (R4 b k); [by apply (hk_alloc _ _ _ H b k)|done| |done].
    intros a' n' Ha'. by apply (hk_free _ _ _ H).
  - intros a n b k Ha Hb. apply (hk_disjoint _ _ _ H); [by apply HB|by apply HB].
  - rewrite R2, R5. lia.
Qed.

Lemma free_heap h F A bp m : heap_ok h F A -> A !! bp = Some m ->
  exists h' F', free (bp + 8) h = Ret tt h' /\ heap_ok h' F' (delete bp A).
Proof.
  intros [H Ht] Hbp. destruct (hk_alloc _ _ _ H bp m Hbp) as (Hm & Hb & Htop & Hsz).
  destruct (free_ok base h F bp m (hk_flist _ _ _ H) Hsz Hm Hb Htop) as (h' & F' & Hrun & Hrel); [intros a n Ha; by apply sep_sym, (hk_free _ _ _ H)|].
  exists h', F'. split; [done|]. apply (released_ok h F A bp m); [done|done| |].
  - intros b k. destruct (decide (b = bp)) as [->|Hne]; [by rewrite lookup_delete_eq|]. rewrite lookup_delete_ne by done. intros Hk. split; [done|]. split; [done|]. by apply (hk_disjoint _ _ _ H).
  - rewrite (sizes_perm _ _ (Permutation_sym (map_to_list_delete A bp m Hbp))) in Ht. cbn [sizes foldr snd] in Ht. fold (sizes (map_to_list (delete bp A))) in Ht. lia.
Qed.

Context (grants : Z -> Z -> bool).

(** More memory: the old heap with a new free block, or nothing. *)
Lemma morecore_ok h F A nunits : heap_ok h F A -> 0 < nunits -> 8 * nunits < 2 ^ 31 ->
  morecore grants nunits h = Ret 0 h \/
  exists h' F', morecore grants nunits h = Ret (freep h') h' /\ freep h' <> 0 /\ heap_ok h' F' A /\
    (exists a n, (a, n) ∈ F' /\ nunits <= n) /\ (length F' <= length F + 1)%nat.
Proof.
  intros [H Ht] Hn Hmax. unfold morecore. set (nu := if nunits <? 4096 then 4096 else nunits).
  assert (Hnu : nunits <= nu /\ 0 < nu /\ 8 * nu < 2 ^ 31) by (unfold nu; destruct (Z.ltb_spec nunits 4096); lia). clearbody nu. unfold sizeof_Header.
  replace (s32 (u32 (nu * 8))) with (8 * nu) by (rewrite u32_id, s32_id; lia). unfold mbind, M_bind, modify, gets, sbrk.
  destruct (grants (brk h) (8 * nu) && (0 <? brk h + 8 * nu) && (brk h + 8 * nu <? KERNBASE)) eqn:Eg; [|left; done]. right.
  apply andb_prop in Eg as [_ Hlt%Z.ltb_lt]. pose proof (hk_flist _ _ _ H) as [Hl Hg Hb Hfp Hk].
  rewrite (proj2 (Z.eqb_neq (brk h) (-1))) by lia. set (h1 := set_size (brk h) nu _).
  assert (Hlow : forall a n, (a, n) ∈ (base, 0) :: F -> a <> brk h).
  { intros a n [[= -> ->]|Ha]%elem_of_cons; [lia|]. destruct (Hb a n Ha). lia. }
  assert (HF1 : flist base h1 F).
  { constructor; [|done| |done|cbn; unfold KERNBASE in *; lia].
    - eapply links_frame; [exact Hl|]. intros a n Ha. cbn. unfold upd. by rewrite (proj2 (Z.eqb_neq a (brk h))) by (by apply (Hlow a n)).
    - intros a n Ha. destruct (Hb a n Ha) as (? & ? & ?). cbn. lia. }
  destruct (free_ok base h1 F (brk h) nu HF1) as (h' & F' & Hrun & Hrel); [cbn; unfold upd; by rewrite Z.eqb_refl|lia|lia|cbn; lia| |].
  { intros a n Ha. destruct (Hb a n Ha) as (? & ? & ?). left. lia. }
  rewrite Hrun. exists h', F'. split; [done|]. pose proof (rl_flist _ _ _ _ _ _ _ Hrel) as [_ _ Hb' Hfp' Hk']. split.
  { apply elem_of_cons in Hfp' as [->|Hin]; [cbn; lia|]. apply list_elem_of_fmap in Hin as ([a n] & -> & Ha). cbn. destruct (Hb' a n Ha). lia. }
  split; [|split; [destruct (rl_large _ _ _ _ _ _ _ Hrel) as (a & n & ? & ?); exists a, n; split; [done|lia]|apply Hrel]].
  assert (H1 : forall b k, A !! b = Some k -> b + 8 * k <= brk h /\ b <> brk h).
  { intros b k HA. destruct (hk_alloc _ _ _ H b k HA) as (? & _ & ? & _). lia. }
  apply (released_ok h1 F A (brk h) nu); [|done|intros b k HA; destruct (H1 b k HA); split; [done|]; split; [done|left; done]|cbn; lia].
  constructor; [done| |apply H|apply H]. intros b k HA. destruct (hk_alloc _ _ _ H b k HA) as (? & ? & ? & Hsz). cbn. unfold upd.
  destruct (H1 b k HA). rewrite (proj2 (Z.eqb_neq b (brk h))) by done. split; [done|]. split; [done|]. split; [lia|done].
Qed.

(** A block, or 0 with the heap as it was. *)
Definition malloc_result (A : gmap Z Z) (nunits r : Z) (A' : gmap Z Z) : Prop :=
  r = 0 /\ A' = A \/ 8 < r /\ A !! (r - 8) = None /\ A' = <[r - 8 := nunits]> A.

Lemma malloc_fit_ok h F A nunits fuel : heap_ok h F A -> 0 < nunits -> (exists a n, (a, n) ∈ F /\ nunits <= n) -> (length F < fuel)%nat ->
  exists r h' F' A', malloc_loop grants nunits (freep h) (h_ptr h (freep h)) fuel h = Ret r h' /\ heap_ok h' F' A' /\ malloc_result A nunits r A'.
Proof.
  intros H Hn Hfit Hf. destruct (malloc_fit grants base h F nunits fuel (hk_flist _ _ _ (proj1 H)) Hn Hfit Hf) as (b & h' & F' & Hrun & HT).
  destruct (taken_ok _ _ _ _ _ _ _ H HT Hn) as [Hnone H']. exists (b + 8), h', F', (<[b := nunits]> A). split; [done|]. split; [done|]. right.
  replace (b + 8 - 8) with b by lia. split; [|done]. destruct (hk_alloc _ _ _ (proj1 H') b nunits (lookup_insert_eq _ _ _)) as (_ & ? & _).
  pose proof (fl_brk _ _ _ (hk_flist _ _ _ (proj1 H))). lia.
Qed.

Lemma malloc_loop_ok h F A nunits fuel : heap_ok h F A -> 0 < nunits -> 8 * nunits < 2 ^ 31 -> (2 * length F + 3 <= fuel)%nat ->
  exists r h' F' A', malloc_loop grants nunits (freep h) (h_ptr h (freep h)) fuel h = Ret r h' /\ heap_ok h' F' A' /\ malloc_result A nunits r A'.
Proof.
  intros H Hn Hmax Hf. pose proof (hk_flist _ _ _ (proj1 H)) as [Hl Hg Hb Hfp Hk].
  destruct (first_fit nunits F) as [(R1 & p & n & R2 & -> & Hle & _)|Hnone].
  { apply malloc_fit_ok with (R1 ++ (p, n) :: R2); [done|done| |lia]. exists p, n. split; [apply elem_of_app; right; left|done]. }
  apply list_elem_of_fmap in Hfp as ([fp nf] & Efp & Hfp). cbn [fst] in Efp.
  assert (Hnf : nf < nunits) by (apply elem_of_cons in Hfp as [[= -> ->]|Hfp]; [done|by apply (Hnone fp)]).
  pose proof (links_size _ _ _ _ _ Hl Hfp) as Hsf. apply list_elem_of_split in Hfp as (Y & W & EG).
  pose proof (ring_walk h base 0 F Y fp nf W EG Hl) as Hw. rewrite EG in Hg. destruct (gapped_around _ _ _ _ Hg) as (_ & HY & HW).
  rewrite app_assoc in Hw. assert (Hlen : (length (W ++ Y) = length F)%nat) by (apply (f_equal length) in EG; rewrite !length_app in *; cbn [length] in *; lia).
  rewrite Efp. replace fuel with (length (W ++ Y) + S (fuel - length F - 1))%nat by lia. set (fuel' := (fuel - length F - 1)%nat).
  destruct (malloc_pass grants nunits h fuel' (W ++ Y) fp fp nf Hw) as [-> _].
  { intros a k Ha. split; [|rewrite Efp; apply elem_of_app in Ha as [Ha|Ha]; [destruct (HW a k Ha)|destruct (HY a k Ha)]; destruct (gapped_around _ _ _ _ Hg); lia].
    assert (Hin : (a, k) ∈ (base, 0) :: F) by (rewrite EG, elem_of_app, elem_of_cons; apply elem_of_app in Ha; tauto).
    apply elem_of_cons in Hin as [[= -> ->]|Hin]; [done|by apply (Hnone a)]. }
  cbn [malloc_loop]. unfold mbind at 1, M_bind at 1, get. rewrite Hsf, (proj2 (Z.leb_gt nunits nf)), Efp, Z.eqb_refl by done.
  unfold mbind at 1, M_bind at 1. destruct (morecore_ok h F A nunits H Hn Hmax) as [->|(h1 & F1 & -> & Hfp1 & H1 & Hfit & Hlen1)].
  - rewrite Z.eqb_refl. exists 0, h, F, A. split; [done|]. split; [done|]. by left.
  - rewrite (proj2 (Z.eqb_neq _ 0)) by done. unfold mbind at 1, M_bind at 1, get. apply malloc_fit_ok with F1; [done|done|done|unfold fuel'; lia].
Qed.

(** A heap that has not been used: [freep] is null. *)
Definition fresh (h : heap) : Prop := freep h = 0 /\ brk h = start /\ 0 < base /\ base + 8 <= start <= KERNBASE.
Definition heap_inv (h : heap) (A : gmap Z Z) : Prop := (exists F, heap_ok h F A) \/ fresh h /\ A = ∅.

Lemma fresh_init h : fresh h -> heap_ok (set_size base 0 (set_freep base (set_ptr base base h))) [] ∅.
Proof.
  intros (H1 & H2 & H3 & H4). split; [constructor|cbn; rewrite map_to_list_empty; cbn; lia].
  - constructor; cbn; unfold upd; rewrite ?Z.eqb_refl; try done; try lia.
    + split; [lia|]. split; [by intros ? ? ?%elem_of_nil|done].
    + by intros ? ? ?%elem_of_nil.
    + left.
  - intros b k. by rewrite lookup_empty.
  - intros b k a n. by rewrite lookup_empty.
  - intros a n b k. by rewrite lookup_empty.
Qed.

(** The number of headers for [nbytes] bytes. *)
Definition units (nbytes : Z) : Z := (nbytes + 7) / 8 + 1.

Lemma malloc_ok h A nbytes : heap_inv h A -> 0 <= nbytes < 2 ^ 31 - 32768 ->
  exists r h' A', malloc base grants nbytes h = Ret r h' /\ heap_inv h' A' /\ malloc_result A (units nbytes) r A'.
Proof.
  intros H Hn. unfold malloc, sizeof_Header. rewrite u32_id by lia. replace ((nbytes + 8 - 1) / 8 + 1) with (units nbytes) by (unfold units; f_equal; f_equal; lia).
  assert (Hu : 0 < units nbytes /\ 8 * units nbytes < 2 ^ 31) by (unfold units; lia).
  unfold mbind, M_bind, get, modify. destruct H as [[F H]|[H ->]].
  - pose proof (flist_rounds _ _ _ (hk_flist _ _ _ (proj1 H))) as Hr. pose proof (hk_flist _ _ _ (proj1 H)) as [_ _ Hb Hfp Hk].
    assert (Hz : freep h <> 0) by (apply elem_of_cons in Hfp as [->|Hin]; [cbn; lia|]; apply list_elem_of_fmap in Hin as ([a n] & -> & Ha); cbn; destruct (Hb a n Ha); lia).
    rewrite (proj2 (Z.eqb_neq _ 0) Hz). cbn [when mret M_ret].
    destruct (malloc_loop_ok h F A (units nbytes) (2 * rounds h) H) as (r & h' & F' & A' & Hrun & H' & Hres); [lia|lia|lia|].
    exists r, h', A'. split; [exact Hrun|]. split; [left; by exists F'|done].
  - pose proof (fresh_init h H) as H1. pose proof (flist_rounds _ _ _ (hk_flist _ _ _ (proj1 H1))) as Hr. destruct H as (-> & _).
    change (0 =? 0) with true. cbn [when]. set (h1 := set_size base 0 _) in *. cbn [length] in Hr.
    destruct (malloc_loop_ok h1 [] ∅ (units nbytes) (2 * rounds h1) H1) as (r & h' & F' & A' & Hrun & H' & Hres); [lia|lia|cbn [length]; lia|].
    exists r, h', A'. split; [exact Hrun|]. split; [left; by exists F'|done].
Qed.
End Heap.

(** ** Histories *)

(** The heaps a program can reach, with the blocks it holds; the kernel may refuse
    memory at any time. *)
Inductive history (base start : Z) : heap -> gmap Z Z -> Prop :=
  | history_start h : fresh base start h -> history base start h ∅
  | history_malloc grants nbytes h A r h' :
      history base start h A -> 0 <= nbytes < 2 ^ 31 - 32768 -> malloc base grants nbytes h = Ret r h' ->
      history base start h' (if r =? 0 then A else <[r - 8 := units nbytes]> A)
  | history_free p k h A h' :
      history base start h A -> A !! (p - 8) = Some k -> free p h = Ret tt h' -> history base start h' (delete (p - 8) A).

Lemma history_inv base start h A : history base start h A -> heap_inv base start h A.
Proof.
  induction 1 as [h Hf|grants nbytes h A r h' _ IH Hn Hrun|p k h A h' _ IH Hp Hrun].
  - by right.
  - destruct (malloc_ok base start grants h A nbytes IH Hn) as (r' & h'' & A' & Hrun' & H' & Hres). rewrite Hrun in Hrun'. injection Hrun' as <- <-.
    destruct Hres as [[-> ->]|(Hr & _ & ->)]; [done|]. by rewrite (proj2 (Z.eqb_neq r 0)) by lia.
  - destruct IH as [[F H]|[_ ->]]; [|by rewrite lookup_empty in Hp].
    destruct (free_heap base start h F A (p - 8) k H Hp) as (h'' & F' & Hrun' & H'). replace (p - 8 + 8) with p in Hrun' by lia.
    rewrite Hrun in Hrun'. injection Hrun' as <-. left. by exists F'.
Qed.


(** The heap after [malloc(100)] in a program of four pages. *)
Definition demo_heap0 : heap := mkHeap (fun _ => 0) (fun _ => 0) 0 16384.
Definition demo_heap1 : heap := match malloc 4096 (fun _ _ => true) 100 demo_heap0 with Ret _ h => h | _ => demo_heap0 end.
Definition demo_block : Z := 16384 + 8 * (4096 - 14).

