(* ===== verification/Mkfs.v ===== *)
(** * Building a file system image

    [mkfs.c], the program of the host that makes the disk image the kernel
    boots from.  The state has the image as a list of sectors and the globals
    [sb], [freeinode] and [freeblock]; [exit(1)] and a failed [assert] end the
    run, as a panic does in the kernel.  What the host does is a parameter:
    whether the image can be created, the chunks that [read] returns for an
    input file up to the first result that is not positive, and the sectors
    that cannot be written.  The host is little-endian, so a [uint] of
    [struct dinode] has its bytes in the order of the disk. *)
From stdpp Require Import gmap.
From S2P Require Import Prelude Bytes Cstring Bio Log Blocks Fs.
Local Open Scope Z_scope.

Definition NINODES : Z := 200.
Definition nbitmap : Z := FSSIZE / (bsize * 8) + 1.
Definition ninodeblocks : Z := NINODES / IPB + 1.
Definition nlog : Z := LOGSIZE.

(** The stores to [a\[0\]], [a\[1\]], ... and the integer they make. *)
Definition xshort (x : Z) : Z := le_val [u8 x; u8 (Z.shiftr x 8)].
Definition xint (x : Z) : Z := le_val [u8 x; u8 (Z.shiftr x 8); u8 (Z.shiftr x 16); u8 (Z.shiftr x 24)].

Record mkfs := mkMkfs { img : list block; m_sb : superblock; freeinode : Z; freeblock : Z }.

Definition set_img v s := mkMkfs v (m_sb s) (freeinode s) (freeblock s).
Definition set_sb v s := mkMkfs (img s) v (freeinode s) (freeblock s).
Definition set_freeinode v s := mkMkfs (img s) (m_sb s) v (freeblock s).
Definition set_freeblock v s := mkMkfs (img s) (m_sb s) (freeinode s) v.

(** The globals when the program starts. *)
Definition start : mkfs := mkMkfs [] (mkSb 0 0 0 0 0 0 0) 1 0.

Definition assert (b : bool) : M mkfs unit := if b then mret tt else panic "assert".

Definition zeroes : block := replicate BSIZE 0.

(** The sector that [lseek(fsfd, sec * BSIZE, 0)] goes to; the product is a [uint]. *)
Definition sector (sec : Z) : nat := Z.to_nat (u32 (sec * bsize) / bsize).

(** A write past the end of a file leaves a hole that reads as zeros. *)
Definition put_sector (k : nat) (d : block) (v : list block) : list block :=
  if (k <? length v)%nat then <[k := d]> v else v ++ replicate (k - length v) zeroes ++ [d].

Section Mkfs.
Notation K := (M mkfs).
Context (open_rw : list Z -> bool) (open_ro : list Z -> option (list (list Z))) (wfails : nat -> bool).

Definition wsect (sec : Z) (buf : block) : K unit :=
  if wfails (sector sec) then panic "write"
  else modify (fun s => set_img (put_sector (sector sec) buf (img s)) s).

(** At the end of the file [read] returns less than [BSIZE]. *)
Definition rsect (sec : Z) : K block := fun s =>
  match img s !! sector sec with Some d => Ret d s | None => Panic "read" end.

Definition winode (inum : Z) (ip : dinode) : K unit :=
  sb ← gets m_sb;
  let bn := u32 (IBLOCK inum sb) in
  buf ← rsect bn;
  wsect bn (encode_dinode (dinode_off inum) ip buf).

Definition rinode (inum : Z) : K dinode :=
  sb ← gets m_sb;
  let bn := u32 (IBLOCK inum sb) in
  buf ← rsect bn;
  mret (decode_dinode (dinode_off inum) buf).

Definition ialloc (type : Z) : K Z :=
  inum ← gets freeinode;
  modify (set_freeinode (u32 (inum + 1)));;
  let din := mkDinode (s16 (xshort type)) 0 0 (s16 (xshort 1)) (xint 0) (replicate (S NDIRECT) 0) in
  winode inum din;;
  mret inum.

(** [for(i = 0; i < used; i++) buf\[i/8\] = buf\[i/8\] | (0x1 << (i%8))] *)
Definition first_bits (used : nat) : block := foldl mark_bit zeroes (seq 0 used).

Definition balloc (used : Z) : K unit :=
  assert (used <? bsize * 8);;
  sb ← gets m_sb;
  wsect (sb_bmapstart sb) (first_bits (Z.to_nat used)).

(** [freeblock++] *)
Definition new_block : K Z :=
  x ← gets freeblock;
  modify (set_freeblock (u32 (x + 1)));;
  mret x.

Definition addr_of (din : dinode) (k : nat) : Z := default 0 (d_addrs din !! k).
Definition set_addr (k : nat) (x : Z) (din : dinode) : dinode :=
  mkDinode (d_type din) (d_major din) (d_minor din) (d_nlink din) (d_size din) (<[k := x]> (d_addrs din)).
Definition set_dsize (z : Z) (din : dinode) : dinode :=
  mkDinode (d_type din) (d_major din) (d_minor din) (d_nlink din) z (d_addrs din).

(** [if(xint(din.addrs\[k\]) == 0) din.addrs\[k\] = xint(freeblock++);] *)
Definition fill_addr (din : dinode) (k : nat) : K dinode :=
  if xint (addr_of din k) =? 0 then (x ← new_block; mret (set_addr k (xint x) din)) else mret din.

(** The sector of block [fbn] of the file, and the inode with the addresses
    that were added. *)
Definition append_block (din : dinode) (fbn : nat) : K (Z * dinode) :=
  if (fbn <? NDIRECT)%nat then
    din ← fill_addr din fbn;
    mret (xint (addr_of din fbn), din)
  else
    din ← fill_addr din NDIRECT;
    indirect ← rsect (xint (addr_of din NDIRECT));
    let j := (fbn - NDIRECT)%nat in
    if get32 (4 * j) indirect =? 0 then
      x ← new_block;
      let indirect := put32 (4 * j) (xint x) indirect in
      wsect (xint (addr_of din NDIRECT)) indirect;;
      mret (xint (get32 (4 * j) indirect), din)
    else mret (xint (get32 (4 * j) indirect), din).

(** [while(n > 0)]: an iteration appends at least a byte. *)
Fixpoint iappend_loop (din : dinode) (p : list Z) (off n : Z) (fuel : nat) : K (dinode * Z) :=
  if 0 <? n then
    match fuel with
    | O => panic "diverges"
    | S fuel' =>
        let fbn := off / bsize in
        assert (fbn <? MAXFILE);;
        r ← append_block din (Z.to_nat fbn);
        let n1 := Z.min n (u32 ((fbn + 1) * bsize - off)) in
        buf ← rsect r.1;
        wsect r.1 (splice (Z.to_nat (off - fbn * bsize)) (take (Z.to_nat n1) p) buf);;
        iappend_loop r.2 (drop (Z.to_nat n1) p) (u32 (off + n1)) (n - n1) fuel'
    end
  else mret (din, off).

Definition iappend (inum : Z) (p : list Z) (n : Z) : K unit :=
  din ← rinode inum;
  r ← iappend_loop din p (xint (d_size din)) n (Z.to_nat n);
  winode inum (set_dsize (xint r.2) r.1).

(** ** [main] *)

(** [memmove(buf, &sb, sizeof(sb))] into a block of zeros. *)
Definition encode_sb (sb : superblock) : block :=
  put32 24 (sb_bmapstart sb) (put32 20 (sb_inodestart sb) (put32 16 (sb_logstart sb) (put32 12 (sb_nlog sb)
    (put32 8 (sb_ninodes sb) (put32 4 (sb_nblocks sb) (put32 0 (sb_size sb) zeroes)))))).

Definition nmeta : Z := 2 + nlog + ninodeblocks + nbitmap.
Definition nblocks : Z := FSSIZE - nmeta.
Definition make_sb : superblock :=
  mkSb (xint FSSIZE) (xint nblocks) (xint NINODES) (xint nlog) (xint 2) (xint (2 + nlog)) (xint (2 + nlog + ninodeblocks)).

(** [strcpy(de.name, s)] into a name of zeros. *)
Definition short_name (s : list Z) : list Z := splice 0 (s ++ [0]) (replicate DIRSIZ 0).

(** The name in the image: the argument without a leading underscore. *)
Definition image_name (arg : list Z) : list Z :=
  match arg with
  | c :: rest => if c =? 95 then rest else arg
  | [] => []
  end.

Definition entry (inum : Z) (name : list Z) : list Z :=
  make_dirent (xshort inum) (strncpy (replicate DIRSIZ 0) name (Z.of_nat DIRSIZ)).

(** One iteration of the loop over the arguments. *)
Definition add_file (rootino : Z) (arg : list Z) : K unit :=
  assert (negb (existsb (Z.eqb slash) arg));;
  match open_ro arg with
  | None => panic "open"
  | Some chunks =>
      inum ← ialloc T_FILE;
      iappend rootino (entry inum (image_name arg)) DIRENT;;
      for_each chunks (fun buf => iappend inum buf (Z.of_nat (length buf)))
  end.

(** [// fix size of root inode dir] *)
Definition fix_root (rootino : Z) : K unit :=
  din ← rinode rootino;
  let off := xint (d_size din) in
  let off := u32 ((off / bsize + 1) * bsize) in
  winode rootino (set_dsize (xint off) din).

Definition main (argv : list (list Z)) : K unit :=
  match argv with
  | _ :: image :: files =>
      if negb (open_rw image) then panic "open"
      else
        modify (set_img []);;
        modify (set_sb make_sb);;
        modify (set_freeblock nmeta);;
        for_each (seq 0 (Z.to_nat FSSIZE)) (fun i => wsect (Z.of_nat i) zeroes);;
        sb ← gets m_sb;
        wsect 1 (encode_sb sb);;
        rootino ← ialloc T_DIR;
        assert (rootino =? ROOTINO);;
        iappend rootino (make_dirent (xshort rootino) (short_name [46])) DIRENT;;
        iappend rootino (make_dirent (xshort rootino) (short_name [46; 46])) DIRENT;;
        for_each files (add_file rootino);;
        fix_root rootino;;
        used ← gets freeblock;
        balloc (s32 used)
  | _ => panic "usage"
  end.
End Mkfs.
