(* ===== verification/MkfsInv.v ===== *)
(** * The image while it is built

    While [mkfs] runs, the bit map of the image is blank; the image is looked at
    with the bits of the first [F] blocks set, [F] being [freeblock], which is
    what [balloc] writes at the end.  Seen so, every step of [mkfs] is a step of
    the file system: taking the next free block is what [balloc] of the kernel
    does, and appending to a file is a write at its end. *)
From stdpp Require Import gmap.
From S2P Require Import Prelude Bytes Cstring Bio BioSpec Log Blocks Fs FsAlloc FsInode FsFile FsRw FsWrite FsView Mkfs.
Local Open Scope nat_scope.

(** The super block of the image, and the first block that holds data. *)
Definition isb : superblock := mkSb 1102 1018 200 30 2 32 83.
Notation ids := 84.
Notation isize := 1102.
Notation ibm := 83.

Lemma make_sb_eq : make_sb = isb.
Proof. reflexivity. Qed.

Lemma xint_u32 x : (0 <= x < 2 ^ 32)%Z -> xint x = x.
Proof.
  intros H. unfold xint, u8. cbn [le_val]. rewrite !Z.shiftr_div_pow2 by lia.
  change (2 ^ 8)%Z with 256%Z. change (2 ^ 16)%Z with 65536%Z. change (2 ^ 24)%Z with 16777216%Z. lia.
Qed.

Lemma xshort_u16 x : (0 <= x < 2 ^ 16)%Z -> xshort x = x.
Proof.
  intros H. unfold xshort, u8. cbn [le_val]. rewrite !Z.shiftr_div_pow2 by lia. change (2 ^ 8)%Z with 256%Z. lia.
Qed.

(** ** Layout *)

Lemma bmb_isb n : n < isize -> bmb isb n = ibm.
Proof. intros H. unfold bmb, BBLOCK, BPB. cbn [isb sb_bmapstart]. lia. Qed.

Lemma inb_isb i : inb isb i = i / 4 + 32.
Proof. unfold inb, IBLOCK, IPB. cbn [isb sb_inodestart]. lia. Qed.

Lemma geometry_isb (home : nat -> Prop) len :
  isize <= len -> (forall n, 32 <= n < isize -> home n) -> geometry_of (home := home) isb ids len.
Proof.
  intros Hl Hh. split; cbn [isb sb_size sb_bmapstart sb_inodestart sb_ninodes]; unfold fsize; cbn [isb sb_size]; try lia.
  - intros n Hn. rewrite bmb_isb by lia. split; [lia|apply Hh; lia].
  - intros i Hi. rewrite inb_isb. split; [lia|apply Hh; lia].
  - intros i n Hi Hn. rewrite inb_isb, bmb_isb; lia.
  - intros n Hn. apply Hh. lia.
Qed.

Lemma bitmap_isb n : n ∈ bitmap isb -> n = ibm.
Proof. intros (m & -> & Hm%elem_of_seq)%elem_of_list_to_set%list_elem_of_fmap. apply bmb_isb. change (fsize isb) with isize in Hm. lia. Qed.

(** ** The bits of the first blocks *)

Lemma first_bits_S F : first_bits (S F) = mark_bit (first_bits F) F.
Proof. unfold first_bits. by rewrite seq_S, foldl_snoc. Qed.

Lemma first_bits_length F : length (first_bits F) = BSIZE.
Proof. induction F as [|F IH]; [done|]. rewrite first_bits_S. unfold mark_bit. by rewrite length_insert. Qed.

Lemma first_bits_set F m : F <= 4096 -> bit_set (first_bits F) m = bool_decide (m < F).
Proof.
  induction F as [|F IH]; intros HF.
  - rewrite bool_decide_false by lia. unfold bit_set, bit_byte. change (first_bits 0) with zeroes.
    replace (default 0%Z (zeroes !! (m / 8))) with 0%Z; [apply Z.bits_0|].
    destruct (zeroes !! (m / 8)) as [x|] eqn:E; [|done]. by apply lookup_replicate in E as [-> _].
  - rewrite first_bits_S, mark_bit_set by (rewrite first_bits_length; unfold BSIZE; lia). rewrite IH by lia.
    repeat case_bool_decide; (done || lia).
Qed.

(** The image with the bits of the first [F] blocks set. *)
Definition fin (F : nat) (v : list block) : list block := <[ibm := first_bits F]> v.

Lemma fin_length F v : length (fin F v) = length v.
Proof. apply length_insert. Qed.

Lemma fin_lookup F v n : n <> ibm -> fin F v !! n = v !! n.
Proof. intros H. unfold fin. by rewrite list_lookup_insert_ne. Qed.

Lemma fin_insert F v n d : n <> ibm -> <[n := d]> (fin F v) = fin F (<[n := d]> v).
Proof. intros H. unfold fin. by rewrite list_insert_insert_ne. Qed.

Lemma fin_alloc F v m :
  length v = isize -> F <= 4096 -> m < isize -> allocated isb (fin F v) m = bool_decide (m < F).
Proof.
  intros Hl HF Hm. unfold allocated, fin. rewrite bmb_isb, list_lookup_insert_eq by lia. rewrite first_bits_set by done.
  apply bool_decide_ext. unfold bitpos, BPB. lia.
Qed.

Lemma fin_take F v :
  length v = isize -> F < isize -> F <> ibm -> v !! F = Some zero_block -> take_block isb F (fin F v) = fin (S F) v.
Proof.
  intros Hl HF Hne Hz. unfold take_block, mark. rewrite bmb_isb by done. apply list_eq. intros n.
  destruct (decide (n = F)) as [->|HnF].
  - rewrite list_lookup_insert_eq by (rewrite length_alter, fin_length; lia). by rewrite fin_lookup, Hz.
  - rewrite list_lookup_insert_ne by done. destruct (decide (n = ibm)) as [->|Hnb].
    + rewrite list_lookup_alter_eq. unfold fin. rewrite !list_lookup_insert_eq by lia. simpl. f_equal.
      rewrite first_bits_S. f_equal. unfold bitpos, BPB. lia.
    + rewrite list_lookup_alter_ne by done. by rewrite !fin_lookup.
Qed.

(** ** Steps *)

Definition ist (v : list block) (k F : nat) : mkfs := mkMkfs v isb (Z.of_nat k) (Z.of_nat F).

(** The image has its size, and is blank from block [F] on. *)
Record blank (v : list block) (F : nat) : Prop := {
  b_len : length v = isize;
  b_from : ids <= F <= isize;
  b_zero n : F <= n < isize -> v !! n = Some zero_block
}.

Local Notation grown := (grown (laws := plain_laws) isb ids).
Local Notation mapped := (mapped (laws := plain_laws) isb ids).
Local Notation inode_ok := (inode_ok isb ids).
Local Notation disk_ok := (disk_ok_of (home := bk_home (BlockLaws := plain_laws)) isb ids).

Lemma fgeo v F : blank v F -> geometry_of (home := bk_home (BlockLaws := plain_laws)) isb ids (length (fin F v)).
Proof. intros H. apply geometry_isb; [rewrite fin_length, (b_len _ _ H); lia|done]. Qed.

Lemma sector_id n : n < isize -> sector (Z.of_nat n) = n.
Proof. intros H. unfold sector, u32, bsize, BSIZE. rewrite Z.mod_small by lia. rewrite Z.div_mul by lia. lia. Qed.

Lemma blank_allocated v F m : blank v F -> m < isize -> allocated isb (fin F v) m = bool_decide (m < F).
Proof. intros [Hl Hf _] Hm. apply fin_alloc; lia. Qed.

Definition with_daddrs (A : list Z) (d : dinode) : dinode :=
  mkDinode (d_type d) (d_major d) (d_minor d) (d_nlink d) (d_size d) A.

Lemma rsect_ok v k F n d : length v = isize -> v !! n = Some d -> rsect (Z.of_nat n) (ist v k F) = Ret d (ist v k F).
Proof. intros Hl Hn. unfold rsect. rewrite sector_id by (rewrite <- Hl; by eapply lookup_lt_Some). simpl. by rewrite Hn. Qed.

Lemma addr_of_dir V A d j : inode_ok V A -> d_addrs d = A -> j <= NDIRECT ->
  xint (addr_of d j) = Z.of_nat (dir_addr A j) /\ (xint (addr_of d j) =? 0)%Z = bool_decide (dir_addr A j = 0).
Proof.
  intros Hi <- Hj. unfold addr_of, dir_addr. destruct (lookup_lt_is_Some_2 (d_addrs d) j) as [x Hx]; [rewrite (n_len _ _ _ _ Hi); lia|].
  rewrite Hx. simpl. pose proof (n_addr _ _ _ _ Hi x ltac:(by eapply list_elem_of_lookup_2)) as Hr. rewrite xint_u32 by done.
  split; [lia|]. case_bool_decide; [apply Z.eqb_eq|apply Z.eqb_neq]; lia.
Qed.

Section Steps.
Context (wfails : nat -> bool) (Hw : forall k, wfails k = false).

Lemma wsect_ok v k F n d :
  length v = isize -> n < isize -> wsect wfails (Z.of_nat n) d (ist v k F) = Ret tt (ist (<[n := d]> v) k F).
Proof using Hw.
  intros Hl Hn. unfold wsect. rewrite Hw, sector_id by done. unfold modify, put_sector. simpl.
  by rewrite (proj2 (Nat.ltb_lt n (length v))) by lia.
Qed.

Lemma new_block_ok v k F : F < isize -> new_block (ist v k F) = Ret (Z.of_nat F) (ist v k (S F)).
Proof using Type.
  intros H. unfold new_block. erewrite bind_Ret by reflexivity. erewrite bind_Ret by reflexivity.
  unfold set_freeblock, ist. simpl. rewrite u32_id by lia. unfold mret, M_ret. do 2 f_equal. lia.
Qed.

Lemma fill_addr_new v k F A d j :
  inode_ok (fin F v) A -> d_addrs d = A -> j <= NDIRECT -> dir_addr A j = 0 -> F < isize ->
  fill_addr d j (ist v k F) = Ret (with_daddrs (<[j := Z.of_nat F]> A) d) (ist v k (S F)).
Proof using Type.
  intros Hi HA Hj Hz HF. unfold fill_addr. rewrite (proj2 (addr_of_dir _ _ _ _ Hi HA Hj)), bool_decide_true by done.
  rewrite (bind_Ret _ _ _ _ _ (new_block_ok v k F HF)), xint_u32 by lia. unfold set_addr. by rewrite HA.
Qed.

Lemma fill_addr_old s V A d j :
  inode_ok V A -> d_addrs d = A -> j <= NDIRECT -> dir_addr A j <> 0 -> fill_addr d j s = Ret d s.
Proof using Type.
  intros Hi HA Hj Hz. unfold fill_addr. by rewrite (proj2 (addr_of_dir _ _ _ _ Hi HA Hj)), bool_decide_false.
Qed.

(** The blocks that are taken to map block [bn]. *)
Definition cost (V : list block) (A : list Z) (bn : nat) : nat :=
  if decide (fblk V A bn = 0) then (if decide (bn < NDIRECT) then 1 else S (ind_need A)) else 0.

Record appendable (v : list block) (F : nat) (A : list Z) : Prop := {
  ap_blank : blank v F;
  ap_disk : disk_ok (fin F v);
  ap_inode : inode_ok (fin F v) A
}.

(** Block [bn] of the file is now there, at most [c] blocks were taken. *)
Definition block_post (v : list block) (k F : nat) (d : dinode) (bn c : nat) (r : res mkfs (Z * dinode)) : Prop :=
  exists F' v' A', r = Ret (Z.of_nat (fblk (fin F' v') A' bn), with_daddrs A' d) (ist v' k F') /\ F' <= F + c /\
    appendable v' F' A' /\ mapped (fin F v) (d_addrs d) (fin F' v') A' /\ fblk (fin F' v') A' bn <> 0.

Lemma blank_more v F : blank v F -> F < isize -> blank v (S F).
Proof using Type. intros [Hl Hf Hz] H. split; [done|lia|]. intros n Hn. apply Hz. lia. Qed.

(** What [add_direct], [add_indirect] and [add_entry] ask of the next block. *)
Lemma next_free v F : blank v F -> F < isize -> ids <= F < fsize isb /\ allocated isb (fin F v) F = false.
Proof using Type.
  intros H HF. split; [pose proof (b_from _ _ H); change (fsize isb) with isize; lia|].
  rewrite (blank_allocated v F F H HF). apply bool_decide_false. lia.
Qed.

Lemma append_direct v k F d bn :
  appendable v F (d_addrs d) -> bn < NDIRECT -> F + cost (fin F v) (d_addrs d) bn <= isize ->
  block_post v k F d bn (cost (fin F v) (d_addrs d) bn) (append_block wfails d bn (ist v k F)).
Proof using Type.
  intros [Hb Hd Hi] Hbn Hc. set (A := d_addrs d) in *. unfold append_block. rewrite (proj2 (Nat.ltb_lt _ _) Hbn).
  unfold cost in *. rewrite (fblk_direct (fin F v) A bn Hbn), (decide_True (P := bn < NDIRECT)) in * by done.
  pose proof (fgeo v F Hb) as Hg.
  destruct (decide (dir_addr A bn = 0)) as [Hz|Hz].
  - destruct (next_free v F Hb) as [Hr Hf]; [lia|]. exists (S F), v, (<[bn := Z.of_nat F]> A).
    pose proof (add_direct isb ids (fin F v) A F Hg Hd Hi Hr Hf bn Hbn Hz) as Hm.
    rewrite (fin_take F v (b_len _ _ Hb)) in Hm; [|lia|lia|apply (b_zero _ _ Hb); lia].
    rewrite (bind_Ret _ _ _ _ _ (fill_addr_new v k F A d bn Hi eq_refl ltac:(lia) Hz ltac:(lia))).
    pose proof (m_ok _ _ _ _ _ _ (proj1 Hm)) as Hi'. rewrite (proj1 (addr_of_dir _ _ (with_daddrs (<[bn := Z.of_nat F]> A) d) bn Hi' eq_refl ltac:(lia))).
    rewrite (fblk_direct (fin (S F) v)) by done. split; [done|]. split; [lia|].
    split; [split; [apply blank_more; (done || lia)|apply Hm|done]|]. split; [done|].
    unfold dir_addr. rewrite list_lookup_insert_eq by (rewrite (n_len _ _ _ _ Hi); lia). simpl. lia.
  - exists F, v, A. rewrite (bind_Ret _ _ _ _ _ (fill_addr_old _ _ A d bn Hi eq_refl ltac:(lia) Hz)).
    rewrite (proj1 (addr_of_dir _ _ d bn Hi eq_refl ltac:(lia))), (fblk_direct (fin F v)) by done.
    split; [by destruct d|]. split; [lia|]. split; [done|]. split; [by apply mapped_refl|done].
Qed.

(** The indirect block is there. *)
Definition ind_post (v : list block) (k F : nat) (d : dinode) (c : nat) (r : res mkfs dinode) : Prop :=
  exists F' A', r = Ret (with_daddrs A' d) (ist v k F') /\ F' <= F + c /\
    appendable v F' A' /\ mapped (fin F v) (d_addrs d) (fin F' v) A' /\ dir_addr A' NDIRECT <> 0.

Lemma append_ind v k F d :
  appendable v F (d_addrs d) -> F + ind_need (d_addrs d) <= isize ->
  ind_post v k F d (ind_need (d_addrs d)) (fill_addr d NDIRECT (ist v k F)).
Proof using Type.
  intros [Hb Hd Hi] Hc. set (A := d_addrs d) in *. pose proof (fgeo v F Hb) as Hg. unfold ind_need in *.
  destruct (decide (dir_addr A NDIRECT = 0)) as [Hz|Hz].
  - destruct (next_free v F Hb) as [Hr Hf]; [lia|]. exists (S F), (<[NDIRECT := Z.of_nat F]> A).
    pose proof (add_indirect isb ids (fin F v) A F Hg Hd Hi Hr Hf Hz) as Hm.
    rewrite (fin_take F v (b_len _ _ Hb)) in Hm; [|lia|lia|apply (b_zero _ _ Hb); lia].
    split; [exact (fill_addr_new v k F A d NDIRECT Hi eq_refl ltac:(lia) Hz ltac:(lia))|].
    split; [lia|]. split; [split; [apply blank_more; (done || lia)|apply Hm|apply Hm]|]. split; [done|].
    unfold dir_addr. rewrite list_lookup_insert_eq by (rewrite (n_len _ _ _ _ Hi); lia). simpl. lia.
  - exists F, A. split; [rewrite (fill_addr_old _ _ A d NDIRECT Hi eq_refl ltac:(lia) Hz); by destruct d|].
    split; [lia|]. split; [done|]. split; [by apply mapped_refl|done].
Qed.

(** The entry of the indirect block. *)
Definition append_entry (d : dinode) (j : nat) : M mkfs (Z * dinode) :=
  indirect ← rsect (xint (addr_of d NDIRECT));
  if (get32 (4 * j) indirect =? 0)%Z then
    x ← new_block;
    let indirect := put32 (4 * j) (xint x) indirect in
    wsect wfails (xint (addr_of d NDIRECT)) indirect;;
    mret (xint (get32 (4 * j) indirect), d)
  else mret (xint (get32 (4 * j) indirect), d).

Lemma append_entry_ok v k F d j :
  appendable v F (d_addrs d) -> j < NINDIRECT -> dir_addr (d_addrs d) NDIRECT <> 0 ->
  let c := if decide (fblk (fin F v) (d_addrs d) (NDIRECT + j) = 0) then 1 else 0 in F + c <= isize ->
  block_post v k F d (NDIRECT + j) c (append_entry d j (ist v k F)).
Proof using Hw.
  intros [Hb Hd Hi] Hj Hz. cbv zeta. intros Hc. set (A := d_addrs d) in *. pose proof (fgeo v F Hb) as Hg.
  destruct (n_range _ _ _ _ Hi NDIRECT slot_lt_28) as [Hr Hal]; [by rewrite slot_ind|]. rewrite slot_ind in Hr, Hal.
  set (ind := dir_addr A NDIRECT) in *. change (fsize isb) with isize in Hr.
  rewrite (blank_allocated v F ind Hb) in Hal by lia. apply bool_decide_eq_true in Hal.
  destruct (lookup_lt_is_Some_2 v ind) as [e He]; [rewrite (b_len _ _ Hb); lia|].
  assert (He' : fin F v !! ind = Some e) by (by rewrite fin_lookup by lia).
  assert (Hel : length e = BSIZE) by (by eapply (k_bsize _ _ _ Hd)).
  pose proof (n_entry _ _ _ _ Hi e j Hz He' Hj) as Hpos.
  assert (Hf : fblk (fin F v) A (NDIRECT + j) = Z.to_nat (get32 (4 * j) e)).
  { rewrite fblk_indirect by done. fold ind. unfold ind_entry. by rewrite He'. }
  destruct (addr_of_dir _ _ d NDIRECT Hi eq_refl (le_n _)) as [Ha _]. fold A ind in Ha.
  unfold append_entry. rewrite Ha, (bind_Ret _ _ _ _ _ (rsect_ok v k F ind e (b_len _ _ Hb) He)).
  destruct (decide (fblk (fin F v) A (NDIRECT + j) = 0)) as [E|E].
  - rewrite Hf in E. assert (E0 : get32 (4 * j) e = 0%Z) by lia. destruct (next_free v F Hb) as [Hr' Hfr]; [lia|].
    pose proof (add_entry isb ids (fin F v) A F Hg Hd Hi Hr' Hfr j e Hj Hz He' E0) as Hm. fold ind in Hm.
    rewrite (fin_take F v (b_len _ _ Hb) ltac:(lia) ltac:(lia) (b_zero _ _ Hb F ltac:(lia))), fin_insert in Hm by lia.
    rewrite (proj2 (Z.eqb_eq _ _) E0), (bind_Ret _ _ _ _ _ (new_block_ok v k F ltac:(lia))). cbv beta zeta iota. rewrite (xint_u32 (Z.of_nat F)) by lia.
    set (e' := put32 (4 * j) (Z.of_nat F) e) in *. rewrite (bind_Ret _ _ _ _ _ (wsect_ok v k (S F) ind e' (b_len _ _ Hb) ltac:(lia))).
    assert (Hg' : get32 (4 * j) e' = Z.of_nat F).
    { unfold e'. rewrite get32_put32 by (rewrite Hel; unfold NINDIRECT, BSIZE in *; lia). apply u32_id. lia. }
    exists (S F), (<[ind := e']> v), A. rewrite Hg', xint_u32, fblk_indirect by (done || lia). fold ind. unfold ind_entry.
    rewrite fin_lookup, list_lookup_insert_eq by (rewrite ?(b_len _ _ Hb); lia). rewrite Hg', Nat2Z.id.
    split; [by destruct d|]. split; [lia|]. split; [split; [|apply Hm|apply Hm]|split; [done|lia]].
    split; [rewrite length_insert; apply Hb|lia|]. intros n Hn. rewrite list_lookup_insert_ne by lia. apply (b_zero _ _ Hb). lia.
  - exists F, v, A. rewrite (proj2 (Z.eqb_neq _ _)) by (rewrite Hf in E; lia). cbv zeta.
    destruct (slot_of_lt (NDIRECT + j)) as [Hs _]; [lia|]. destruct (n_range _ _ _ _ Hi _ Hs E) as [Hr' _].
    change (slot (fin F v) A (slot_of (NDIRECT + j))) with (fblk (fin F v) A (NDIRECT + j)) in Hr'.
    change (fsize isb) with isize in Hr'. rewrite xint_u32 by (rewrite Hf in Hr'; lia).
    split; [rewrite Hf, Z2Nat.id by done; by destruct d|]. split; [lia|]. split; [done|]. split; [by apply mapped_refl|done].
Qed.

Lemma append_block_ok v k F d bn :
  appendable v F (d_addrs d) -> bn < NDIRECT + NINDIRECT -> F + cost (fin F v) (d_addrs d) bn <= isize ->
  block_post v k F d bn (cost (fin F v) (d_addrs d) bn) (append_block wfails d bn (ist v k F)).
Proof using Hw.
  intros Hap Hbn Hc. destruct (decide (bn < NDIRECT)) as [Hd|Hd]; [by apply append_direct|].
  assert (Hneed : fblk (fin F v) (d_addrs d) bn <> 0 -> ind_need (d_addrs d) = 0).
  { unfold fblk, slot_of, slot, ind_need. rewrite (decide_False (P := bn < NDIRECT)) by done. repeat case_decide; (done || lia). }
  unfold append_block. rewrite (proj2 (Nat.ltb_ge _ _)) by lia. unfold cost in *. rewrite (decide_False (P := bn < NDIRECT)) in * by done.
  destruct (append_ind v k F d Hap) as (F1 & A1 & E1 & HF1 & Hap1 & Hm1 & Hz1).
  { case_decide; [lia|]. rewrite Hneed by done. lia. }
  rewrite (bind_Ret _ _ _ _ _ E1). clear E1.
  set (c1 := if decide (fblk (fin F1 v) A1 bn = 0) then 1 else 0).
  assert (Hc1 : F1 + c1 <= F + if decide (fblk (fin F v) (d_addrs d) bn = 0) then S (ind_need (d_addrs d)) else 0).
  { unfold c1. destruct (decide (fblk (fin F v) (d_addrs d) bn = 0)) as [E|E]; [case_decide; lia|].
    rewrite Hneed in HF1 by done. rewrite decide_False; [lia|]. by eapply (fblk_keep isb ids); [apply Hm1|done|]. }
  assert (Ebn : NDIRECT + (bn - NDIRECT) = bn) by lia.
  destruct (append_entry_ok v k F1 (with_daddrs A1 d) (bn - NDIRECT)) as (F2 & v2 & A2 & E2 & HF2 & Hap2 & Hm2 & Hz2);
    [done|lia|done|rewrite Ebn; change (F1 + c1 <= isize); lia|]. rewrite Ebn in *. change (F2 <= F1 + c1) in HF2.
  exists F2, v2, A2. split; [exact E2|]. split; [lia|]. split; [done|]. split; [|done].
  eapply mapped_trans; [exact Hm1|exact Hm2].
Qed.

(** ** [iappend] *)

(** The blocks that a file of [sz] bytes takes. *)
Definition need (sz : nat) : nat := (sz + 511) / BSIZE + (if decide (NDIRECT * BSIZE < sz) then 1 else 0).

Lemma covered_ind V A sz : covered V A sz -> NDIRECT * BSIZE < sz -> ind_need A = 0.
Proof using Type.
  intros Hc Hs. specialize (Hc NDIRECT Hs). unfold fblk, slot_of, slot in Hc. unfold ind_need. revert Hc.
  rewrite (decide_False (P := NDIRECT < NDIRECT)) by lia. rewrite (decide_False (P := S NDIRECT <= NDIRECT)) by lia. repeat case_decide; done.
Qed.

Lemma cost_need V A off m :
  covered V A off -> 0 < m -> cost V A (off / BSIZE) + need off <= need (off + m).
Proof using Type.
  intros Hc Hm. unfold cost. destruct (decide (fblk V A (off / BSIZE) = 0)) as [E|E].
  - assert (H0 : off mod BSIZE = 0).
    { destruct (decide (off mod BSIZE = 0)) as [|Hne]; [done|]. exfalso. apply (Hc (off / BSIZE)); [|done]. unfold BSIZE in *. lia. }
    destruct (decide (off / BSIZE < NDIRECT)) as [Hd|Hd].
    + unfold need. repeat case_decide; unfold NDIRECT, BSIZE in *; lia.
    + destruct (decide (NDIRECT * BSIZE < off)) as [Hlt|Hge].
      * rewrite (covered_ind V A off Hc Hlt). unfold need. repeat case_decide; unfold NDIRECT, BSIZE in *; lia.
      * unfold ind_need, need. repeat case_decide; unfold NDIRECT, BSIZE in *; lia.
  - unfold need. repeat case_decide; unfold NDIRECT, BSIZE in *; lia.
Qed.

(** The bytes [bs] were written at [off], which was the end of the file. *)
Definition append_post (v : list block) (k F : nat) (d : dinode) (off : nat) (bs : list Z) (v' : list block) (F' : nat) (A' : list Z) : Prop :=
  F' + need off <= F + need (off + length bs) /\ appendable v' F' A' /\ grown (fin F v) (d_addrs d) (fin F' v') A' /\
  patched (fin F v) (d_addrs d) off bs (fin F' v') A' /\ covered (fin F' v') A' (off + length bs).

(** One iteration. *)
Lemma append_chunk v k F d off bs :
  appendable v F (d_addrs d) -> covered (fin F v) (d_addrs d) off -> (Z.of_nat off < max_size)%Z ->
  0 < length bs <= BSIZE - off mod BSIZE -> F + need (off + length bs) <= isize + need off ->
  exists v1 F1 A1 x buf v2, append_block wfails d (off / BSIZE) (ist v k F) = Ret (Z.of_nat x, with_daddrs A1 d) (ist v1 k F1) /\
    v1 !! x = Some buf /\ length v1 = isize /\ v2 = <[x := splice (off mod BSIZE) bs buf]> v1 /\ append_post v k F d off bs v2 F1 A1.
Proof using Hw.
  intros Hap Hcov Hoff Hlen HF. set (bn := off / BSIZE). pose proof (div_max off Hoff) as Hbn. fold bn in Hbn.
  pose proof (cost_need _ _ off (length bs) Hcov (proj1 Hlen)) as Hcost. fold bn in Hcost.
  destruct (append_block_ok v k F d bn Hap Hbn) as (F1 & v1 & A1 & E & HF1 & Hap1 & Hm1 & Hz); [lia|].
  destruct Hap1 as [Hb1 Hd1 Hi1]. pose proof (fgeo v1 F1 Hb1) as Hg1. set (x := fblk (fin F1 v1) A1 bn) in *.
  destruct (fblk_data isb ids (fin F1 v1) A1 bn Hg1 Hi1 Hbn Hz) as [Hblk Hr]. fold x in Hblk, Hr.
  assert (Hdl : length (fdata (fin F1 v1) A1 bn) = BSIZE) by (by eapply (fdata_length isb ids)).
  set (buf := fdata (fin F1 v1) A1 bn) in *. set (b' := splice (off mod BSIZE) bs buf).
  assert (Hb'l : length b' = BSIZE) by (unfold b'; rewrite splice_length; [done|rewrite Hdl; clear -Hlen; unfold BSIZE in *; lia]).
  assert (Hv2 : fin F1 (<[x := b']> v1) = <[x := b']> (fin F1 v1)) by (rewrite fin_insert; [done|lia]).
  assert (Hgr : grown (fin F1 v1) A1 (fin F1 (<[x := b']> v1)) A1) by (rewrite Hv2; by apply data_grown).
  exists v1, F1, A1, x, buf, (<[x := b']> v1). split; [exact E|]. split; [by rewrite fin_lookup in Hblk by lia|].
  split; [apply Hb1|]. split; [done|]. split; [lia|]. destruct Hm1 as [Hm1 Hs1].
  assert (Hgr2 : grown (fin F v) (d_addrs d) (fin F1 (<[x := b']> v1)) A1) by (eapply grown_trans; [exact Hm1|exact Hgr]).
  split; [split; [|apply Hgr|apply Hgr]|split; [exact Hgr2|split]].
  - destruct (slot_of_lt bn Hbn) as [Hsl _]. destruct (n_range _ _ _ _ Hi1 _ Hsl Hz) as [_ Hal].
    change (slot (fin F1 v1) A1 (slot_of bn)) with x in Hal. change (fsize isb) with isize in Hr.
    rewrite (blank_allocated v1 F1 x Hb1) in Hal by lia. apply bool_decide_eq_true in Hal.
    split; [rewrite length_insert; apply Hb1|apply Hb1|]. intros n Hn. rewrite list_lookup_insert_ne by lia. by apply (b_zero _ _ Hb1).
  - eapply (patch_block _ _ _ _ off bs buf); [done|lia|unfold buf; rewrite Hs1; done|]. intros bn' Hbn'. fold bn. rewrite Hv2.
    unfold x. rewrite (data_fdata isb ids) by done. case_decide; [done|]. by apply Hs1.
  - intros bn' Hbn'. destruct (decide (bn' = bn)) as [->|Hne].
    + rewrite Hv2. unfold fblk, x. rewrite (data_slot isb ids) by done. exact Hz.
    + eapply (fblk_keep isb ids); [exact Hgr2| |apply Hcov]; unfold bn, BSIZE in *; lia.
Qed.

Lemma append_post_trans v k F d off bs v1 F1 A1 bs' v2 F2 A2 :
  append_post v k F d off bs v1 F1 A1 -> append_post v1 k F1 (with_daddrs A1 d) (off + length bs) bs' v2 F2 A2 ->
  append_post v k F d off (bs ++ bs') v2 F2 A2.
Proof using Type.
  intros (H1 & _ & H2 & H3 & _) (G1 & G2 & G3 & G4 & G5). unfold append_post. rewrite length_app, Nat.add_assoc.
  split; [lia|]. split; [done|]. split; [by eapply grown_trans|]. split; [|done]. by eapply patched_trans.
Qed.

Lemma need_mono a b : a <= b -> need a <= need b.
Proof using Type. intros H. unfold need. repeat case_decide; unfold BSIZE in *; lia. Qed.

(** [n1] *)
Lemma append_n1 off n : (Z.of_nat off < max_size)%Z ->
  Z.min (Z.of_nat n) (u32 ((Z.of_nat (off / BSIZE) + 1) * bsize - Z.of_nat off)) = Z.of_nat (n `min` (BSIZE - off mod BSIZE)).
Proof using Type.
  intros H. rewrite u32_id; unfold bsize, BSIZE; lia.
Qed.

Lemma iappend_loop_ok v k F d p off fuel :
  appendable v F (d_addrs d) -> covered (fin F v) (d_addrs d) off -> (Z.of_nat (off + length p) <= max_size)%Z ->
  length p <= fuel -> F + need (off + length p) <= isize + need off ->
  exists v' F' A', iappend_loop wfails d p (Z.of_nat off) (Z.of_nat (length p)) fuel (ist v k F) =
      Ret (with_daddrs A' d, Z.of_nat (off + length p)) (ist v' k F') /\ append_post v k F d off p v' F' A'.
Proof using Hw.
  revert v F d p off. induction fuel as [|fuel IH]; intros v F d p off Hap Hcov Hmax Hfuel HF; cbn [iappend_loop].
  all: destruct (decide (length p = 0)) as [E0|E0]; [apply nil_length_inv in E0 as ->; simpl; exists v, F, (d_addrs d);
    rewrite Nat.add_0_r; split; [by destruct d|unfold append_post; simpl; rewrite Nat.add_0_r; split; [lia|]; split; [done|];
    split; [by apply grown_refl; apply Hap|]; split; [apply patched_refl|done]]|].
  { lia. }
  rewrite (proj2 (Z.ltb_lt _ _)) by lia. rewrite off_div. assert (Hoff : (Z.of_nat off < max_size)%Z) by lia.
  rewrite append_n1 by done. cbv zeta. set (m := length p `min` (BSIZE - off mod BSIZE)).
  assert (Hm : 0 < m <= length p /\ m <= BSIZE - off mod BSIZE) by (clear -E0; unfold m, BSIZE; lia). clearbody m.
  assert (Hlm : length (take m p) = m) by (rewrite length_take; lia). assert (Hld : length (drop m p) = length p - m) by apply length_drop.
  pose proof (need_mono (off + m) (off + length p) ltac:(lia)) as Hmono.
  destruct (append_chunk v k F d off (take m p) Hap Hcov Hoff) as (v1 & F1 & A1 & x & buf & v2 & E1 & Hx & Hl1 & -> & Hp1);
    [lia|rewrite Hlm; lia|].
  assert (Hbn : (Z.of_nat (off / BSIZE) <? MAXFILE)%Z = true) by (apply Z.ltb_lt; pose proof (div_max off Hoff); unfold MAXFILE; lia).
  rewrite Hbn. erewrite bind_Ret by reflexivity. rewrite !Nat2Z.id, (bind_Ret _ _ _ _ _ E1). cbn [fst snd].
  rewrite (bind_Ret _ _ _ _ _ (rsect_ok _ _ _ _ _ Hl1 Hx)).
  replace (Z.to_nat (Z.of_nat off - Z.of_nat (off / BSIZE) * bsize)) with (off mod BSIZE) by (unfold bsize, BSIZE; lia).
  rewrite (bind_Ret _ _ _ _ _ (wsect_ok v1 k F1 x _ Hl1 ltac:(rewrite <- Hl1; by eapply lookup_lt_Some))).
  rewrite u32_id by lia. replace (Z.of_nat (length p) - Z.of_nat m)%Z with (Z.of_nat (length (drop m p))) by lia.
  rewrite <- Nat2Z.inj_add. pose proof Hp1 as (HF1 & Hap1 & _ & _ & Hcov1). rewrite Hlm in HF1, Hcov1.
  destruct (IH _ F1 (with_daddrs A1 d) (drop m p) (off + m) Hap1 Hcov1) as (v3 & F3 & A3 & E3 & Hp3); [lia|lia| |].
  { rewrite Hld. replace (off + m + (length p - m)) with (off + length p) by lia. lia. }
  exists v3, F3, A3. rewrite E3, Hld. split; [by replace (off + m + (length p - m)) with (off + length p) by lia|].
  rewrite <- (take_drop m p). eapply append_post_trans; [exact Hp1|]. by rewrite Hlm.
Qed.
End Steps.
