(* ===== verification/MkfsImage.v ===== *)
(** * The files of the image

    The image holds a list of files, inode 1 first: the type and the contents of
    each.  [ialloc] adds an empty file, [iappend] appends to one, and both keep
    the image a well-formed file system. *)
From stdpp Require Import gmap.
From S2P Require Import Prelude Bytes Cstring Bio BioSpec Log Blocks Fs FsAlloc FsInode FsFile FsRw FsWrite FsView Mkfs MkfsInv.
Local Open Scope nat_scope.

Notation plain_home := (bk_home (BlockLaws := plain_laws)).
Notation ifs_ok := (fs_ok_of (home := plain_home) isb 84).
Notation igrown := (grown (laws := plain_laws) isb 84).

(** Inode [j] is a file of type [ty] with the contents [bs]; what its last block
    has after them is zero. *)
Record holds (V : list block) (j : nat) (ty : Z) (bs : list Z) : Prop := {
  h_fields : dinode_on isb V j = mkDinode ty 0 0 1 (Z.of_nat (length bs)) (d_addrs (dinode_on isb V j));
  h_bytes p : (Z.of_nat p < max_size)%Z -> fbyte V (d_addrs (dinode_on isb V j)) p = default 0%Z (bs !! p)
}.

Notation file_list := (list (Z * list Z)).

Definition blocks_used (fl : file_list) : nat := sum_list_with (fun f => need (length f.2)) fl.

Record image (fl : file_list) (v : list block) (F : nat) : Prop := {
  im_blank : blank v F;
  im_ok : ifs_ok (fin F v);
  im_file i ty bs : fl !! i = Some (ty, bs) -> holds (fin F v) (S i) ty bs /\ (ty = T_DIR \/ ty = T_FILE);
  im_free j : j < 200 -> j = 0 \/ length fl < j -> d_type (dinode_on isb (fin F v) j) = 0%Z;
  im_len : length fl < 200;
  im_used m : 84 <= m < F -> exists i, i < length fl /\ owns (fin F v) (d_addrs (dinode_on isb (fin F v) (S i))) m;
  im_count : F <= 84 + blocks_used fl;
  im_head : v !! 1 = Some (encode_sb isb) /\ v !! 2 = Some zero_block
}.

(** ** Frames *)

Lemma frame_bytes V V' A p :
  inode_ok isb 84 V A -> (forall m, owns V A m -> V' !! m = V !! m) ->
  (forall m, m < fsize isb -> allocated isb V m = true -> allocated isb V' m = true) ->
  (Z.of_nat p < max_size)%Z -> fbyte V' A p = fbyte V A p.
Proof.
  intros Hi Hs Ha Hp. unfold fbyte. rewrite (frame_fdata isb 84 V V' A Hi Hs Ha); [done|by apply div_max].
Qed.

Lemma iblock j : j < 200 -> 32 <= inb isb j < 83.
Proof. intros H. rewrite inb_isb. lia. Qed.

Lemma irange j : in_range isb j <-> j < 200.
Proof. unfold in_range. cbn [isb sb_ninodes]. lia. Qed.

Lemma blocks_used_cons f (fl : file_list) : blocks_used (f :: fl) = need (length f.2) + blocks_used fl.
Proof. done. Qed.

Lemma blocks_used_app (fl fl' : file_list) : blocks_used (fl ++ fl') = blocks_used fl + blocks_used fl'.
Proof. apply sum_list_with_app. Qed.

Lemma blocks_used_insert (fl : file_list) i f g : fl !! i = Some f ->
  blocks_used (<[i := g]> fl) + need (length f.2) = blocks_used fl + need (length g.2).
Proof.
  unfold blocks_used. revert i. induction fl as [|x fl IH]; intros [|i] Hi; try done; simpl in *; [injection Hi as ->; lia|].
  specialize (IH i Hi). lia.
Qed.

Section Image.
Context (fl : file_list) (v : list block) (F : nat) (Him : image fl v F).
Notation V := (fin F v).

Lemma im_live i ty bs : fl !! i = Some (ty, bs) -> live isb (dinode_on isb V) (S i).
Proof using Him.
  intros Hi. pose proof (lookup_lt_Some _ _ _ Hi) as Hlt. pose proof (im_len _ _ _ Him). destruct (im_file _ _ _ Him i ty bs Hi) as [Hh [E|E]];
  (split; [apply irange; lia|]); rewrite (h_fields _ _ _ _ Hh); simpl; rewrite E; done.
Qed.

Lemma live_file j : live isb (dinode_on isb V) j -> exists i ty bs, j = S i /\ fl !! i = Some (ty, bs).
Proof using Him.
  intros [Hr%irange Ht]. destruct j as [|i]; [exfalso; apply Ht, (im_free _ _ _ Him); auto|].
  destruct (fl !! i) as [[ty bs]|] eqn:E; [by exists i, ty, bs|]. apply lookup_ge_None in E. exfalso. apply Ht, (im_free _ _ _ Him); [done|]. right. lia.
Qed.

Lemma iblock_at j : j < 200 -> exists b, v !! inb isb j = Some b /\ V !! inb isb j = Some b /\ length b = BSIZE.
Proof using Him.
  intros Hj. pose proof (iblock j Hj) as Hb. pose proof (b_len _ _ (im_blank _ _ _ Him)) as Hl.
  destruct (lookup_lt_is_Some_2 v (inb isb j)) as [b Hv]; [lia|]. exists b. rewrite fin_lookup by lia.
  split; [done|]. split; [done|]. apply (k_bsize _ _ _ (fk_disk _ _ _ (im_ok _ _ _ Him)) (inb isb j)); [done|]. by rewrite fin_lookup by lia.
Qed.

Lemma iblock_not_bitmap j : j < 200 -> inb isb j ∉ bitmap isb.
Proof using Type. intros Hj Hm%bitmap_isb. pose proof (iblock j Hj). lia. Qed.
End Image.

(** ** Writing back the inode of a file that grew *)

Section WriteBack.
Context (fl : file_list) (v : list block) (F : nat) (Him : image fl v F).
Context (i : nat) (ty : Z) (bs bs' : list Z) (Hi : fl !! i = Some (ty, bs)).
Context (v' : list block) (F' : nat) (A' : list Z).
Notation V := (fin F v).
Notation V' := (fin F' v').
Notation d := (dinode_on isb V (S i)).
Context (Hmax : (Z.of_nat (length bs + length bs') <= max_size)%Z)
  (Hap : appendable v' F' A') (Hgr : igrown V (d_addrs d) V' A') (Hp : patched V (d_addrs d) (length bs) bs' V' A')
  (Hcov : forall p, length bs <= p < length bs + length bs' -> fblk V' A' (p / BSIZE) <> 0)
  (HF : F' + need (length bs) <= F + need (length bs + length bs')).

Let sz' : Z := Z.of_nat (length bs + length bs').
Let ip : inode := mkInode 1 (Z.of_nat (S i)) 0 false 0 ty 0 0 1 (Z.of_nat (length bs)) (d_addrs d).
Let ip' : inode := with_size sz' (with_addrs A' ip).
Let d' : dinode := set_dsize sz' (with_daddrs A' d).

Lemma wb_d : d = dinode_of ip.
Proof using All. destruct (im_file _ _ _ Him i ty bs Hi) as [Hh _]. rewrite (h_fields _ _ _ _ Hh). done. Qed.

Lemma wb_d' : d' = dinode_of ip'.
Proof using All.
  apply (f_equal5 (fun ty ma mi nl ad => mkDinode ty ma mi nl sz' ad));
    [exact (f_equal d_type wb_d)|exact (f_equal d_major wb_d)|exact (f_equal d_minor wb_d)|exact (f_equal d_nlink wb_d)|done].
Qed.

Lemma wb_cached : cached_as isb V (S i) ip.
Proof using All.
  destruct (im_file _ _ _ Him i ty bs Hi) as [_ Ht]. split; try done; [simpl; by destruct Ht as [->| ->]|by eapply im_live|apply wb_d].
Qed.

Lemma wb_range : S i < 200.
Proof using All. pose proof (lookup_lt_Some _ _ _ Hi). pose proof (im_len _ _ _ Him). lia. Qed.

Context (b : block) (Hb : v' !! inb isb (S i) = Some b).
Let v'' : list block := <[inb isb (S i) := encode_dinode (dinode_off (Z.of_nat (S i))) d' b]> v'.
Notation V'' := (fin F' v'').

Lemma wb_V'' : V'' = <[inb isb (S i) := encode_dinode (dinode_off (Z.of_nat (S i))) d' b]> V'.
Proof using All. unfold v''. rewrite fin_insert; [done|]. pose proof (iblock _ wb_range). lia. Qed.

Lemma wb_bV : V' !! inb isb (S i) = Some b.
Proof using All. rewrite fin_lookup; [done|]. pose proof (iblock _ wb_range). lia. Qed.

Lemma wb_written : written_of (home := plain_home) isb 84 V (S i) ip (length bs) bs' V'' ip'.
Proof using All.
  rewrite wb_V'', wb_d'. apply (written_back isb 84 V (S i) ip (length bs) bs' V' A' sz'); try done.
  - apply Him.
  - apply wb_cached.
  - unfold sz', ip. simpl. lia.
  - apply wb_bV.
Qed.

Lemma wb_ok' : dinode_ok d'.
Proof using All.
  rewrite wb_d'. apply (w_dinode_ok isb 84 V (S i) ip (length bs) bs' V' A' sz'); try done; [apply Him|apply wb_cached|].
  unfold sz', ip. simpl. lia.
Qed.

Lemma wb_dinodes j : j < 200 -> dinode_on isb V'' j = if decide (j = S i) then d' else dinode_on isb V j.
Proof using All.
  intros Hj. pose proof wb_ok' as Hok'. assert (Hlb : length b = BSIZE).
  { eapply (k_bsize _ _ _ (m_disk _ _ _ _ _ _ Hgr)); [|exact wb_bV]. done. }
  rewrite wb_V'', (dinode_on_write isb 84 V' (S i) d' b j (fgeo _ _ (ap_blank _ _ _ Hap)) wb_bV Hlb Hok'). case_decide; [done|].
  apply (grow_dinodes isb 84 V (dinode_on isb V) (S i) V' d'); try apply Him; [by eapply im_live|exact Hgr|by apply irange].
Qed.

(** Writing the inode block changes neither what files own nor their bytes. *)
Lemma wb_data m : 84 <= m -> V'' !! m = V' !! m.
Proof using All. intros Hm. rewrite wb_V'', list_lookup_insert_ne; [done|]. pose proof (iblock _ wb_range). lia. Qed.

Lemma wb_alloc m : m < fsize isb -> allocated isb V'' m = allocated isb V' m.
Proof using All.
  intros Hm. rewrite wb_V''. apply allocated_write. rewrite bmb_isb by done. pose proof (iblock _ wb_range). lia.
Qed.

Lemma wb_frame A : inode_ok isb 84 V' A ->
  (forall m, owns V'' A m <-> owns V' A m) /\ (forall p, (Z.of_nat p < max_size)%Z -> fbyte V'' A p = fbyte V' A p).
Proof using All.
  intros Hok. assert (Hs : forall m, owns V' A m -> V'' !! m = V' !! m).
  { intros m Ho. apply wb_data. by destruct (owns_range isb 84 V' A m Hok Ho) as [[? _] _]. }
  assert (Ha : forall m, m < fsize isb -> allocated isb V' m = true -> allocated isb V'' m = true) by (intros; by rewrite wb_alloc).
  split; [intros m; by apply (frame_owns isb 84)|intros p Hp']. by apply frame_bytes.
Qed.

(** Another file. *)
Lemma wb_other j : live isb (dinode_on isb V) j -> j <> S i ->
  (forall m, owns V'' (d_addrs (dinode_on isb V j)) m <-> owns V (d_addrs (dinode_on isb V j)) m) /\
  (forall p, (Z.of_nat p < max_size)%Z -> fbyte V'' (d_addrs (dinode_on isb V j)) p = fbyte V (d_addrs (dinode_on isb V j)) p).
Proof using All.
  intros Hj Hne. destruct (im_ok _ _ _ Him) as [Hg Hd Hf]. pose proof (im_live _ _ _ Him _ _ _ Hi) as Hl. set (A := d_addrs (dinode_on isb V j)).
  assert (Hok : inode_ok isb 84 V A) by apply (fs_file _ _ _ _ Hf j Hj).
  assert (Hs : forall m, owns V A m -> V' !! m = V !! m) by (intros m; by apply (other_blocks isb 84 V (dinode_on isb V) (S i) V' d')).
  assert (Ha : forall m, m < fsize isb -> allocated isb V m = true -> allocated isb V' m = true) by (intros m; apply (m_alloc _ _ _ _ _ _ Hgr)).
  destruct (wb_frame A) as [H1 H2]; [by apply (frame_inode isb 84 V)|]. split.
  - intros m. rewrite H1. by apply (frame_owns isb 84).
  - intros p Hp'. rewrite H2 by done. by apply frame_bytes.
Qed.

Lemma wb_head n : n < 3 -> 0 < n -> v'' !! n = v !! n.
Proof using All.
  intros Hn Hn0. pose proof (iblock _ wb_range). unfold v''. rewrite list_lookup_insert_ne by lia.
  rewrite <- (fin_lookup F' v'), <- (fin_lookup F v) by lia. apply (m_frame _ _ _ _ _ _ Hgr).
  - intros Hm%bitmap_isb. lia.
  - intros Ho. apply owns_range with (sbk := isb) (ds := 84) in Ho; [lia|]. apply (fs_file _ _ _ _ (fk_files _ _ _ (im_ok _ _ _ Him))). by eapply im_live.
  - intros _. apply (k_meta _ _ _ (fk_disk _ _ _ (im_ok _ _ _ Him))). lia.
Qed.

Lemma wb_holds : holds V'' (S i) ty (bs ++ bs').
Proof using All.
  pose proof (wb_dinodes (S i) wb_range) as E. rewrite decide_True in E by done. split.
  - rewrite E. rewrite wb_d' at 1. unfold ip', sz'. simpl. by rewrite length_app.
  - intros p Hp'. rewrite E. change (d_addrs d') with A'. destruct (wb_frame A' (ap_inode _ _ _ Hap)) as [_ ->]; [|done].
    rewrite Hp by done. destruct (im_file _ _ _ Him i ty bs Hi) as [[_ Hh] _]. rewrite Hh by done.
    case_decide; [by rewrite lookup_app_r by lia|].
    destruct (decide (p < length bs)); [by rewrite lookup_app_l by lia|].
    rewrite !lookup_ge_None_2 by (rewrite ?length_app; lia). done.
Qed.

Lemma wb_used m : 84 <= m < F' -> exists j, j < length fl /\ owns V'' (d_addrs (dinode_on isb V'' (S j))) m.
Proof using All.
  intros Hm. pose proof (b_from _ _ (ap_blank _ _ _ Hap)). pose proof (im_len _ _ _ Him).
  assert (Hself : owns V' A' m -> exists j, j < length fl /\ owns V'' (d_addrs (dinode_on isb V'' (S j))) m).
  { intros Ho. exists i. split; [by eapply lookup_lt_Some|]. rewrite wb_dinodes, decide_True by (done || apply wb_range).
    by apply (wb_frame A' (ap_inode _ _ _ Hap)). }
  destruct (m_new _ _ _ _ _ _ Hgr m) as [Ha|Ho]; [change (fsize isb) with 1102; lia| | |auto].
  { rewrite (blank_allocated v' F' m (ap_blank _ _ _ Hap)) by lia. apply bool_decide_true. lia. }
  rewrite (blank_allocated v F m (im_blank _ _ _ Him)) in Ha by lia. apply bool_decide_eq_true in Ha.
  destruct (im_used _ _ _ Him m) as (j & Hj & Ho); [lia|]. destruct (decide (j = i)) as [->|Hne].
  - apply Hself. by eapply owns_mono.
  - exists j. split; [done|]. rewrite wb_dinodes, decide_False by (congruence || lia).
    apply (wb_other (S j)); [|congruence|done]. destruct (lookup_lt_is_Some_2 fl j Hj) as [[ty' bs''] Hj']. by eapply im_live.
Qed.

Lemma wb_image : image (<[i := (ty, bs ++ bs')]> fl) v'' F'.
Proof using All.
  pose proof (iblock _ wb_range) as Hib. pose proof (im_len _ _ _ Him) as Hlen. split; rewrite ?length_insert.
  - destruct (ap_blank _ _ _ Hap) as [H1 H2 H3]. split; [unfold v''; by rewrite length_insert|done|].
    intros n Hn. unfold v''. rewrite list_lookup_insert_ne by lia. by apply H3.
  - apply wb_written.
  - intros j ty' bs'' [(<- & [= <- <-] & _)|[Hne Hj]]%list_lookup_insert_Some; [split; [apply wb_holds|by apply (im_file _ _ _ Him i _ bs)]|].
    destruct (im_file _ _ _ Him j ty' bs'' Hj) as [[Hh1 Hh2] Ht]. split; [|done]. pose proof (lookup_lt_Some _ _ _ Hj).
    assert (E : dinode_on isb V'' (S j) = dinode_on isb V (S j)) by (rewrite wb_dinodes, decide_False; (congruence || lia)).
    split; [by rewrite E|]. intros p Hp'. rewrite E, <- Hh2 by done. apply wb_other; [by eapply im_live|congruence|done].
  - intros j Hj Hfree. rewrite wb_dinodes, decide_False by (first [done|apply lookup_lt_Some in Hi; lia]). by apply (im_free _ _ _ Him).
  - done.
  - apply wb_used.
  - pose proof (im_count _ _ _ Him) as Hc. pose proof (blocks_used_insert fl i _ (ty, bs ++ bs') Hi) as E. simpl in E. rewrite length_app in E. lia.
  - rewrite !wb_head by lia. apply Him.
Qed.
End WriteBack.

(** ** A new file *)

Definition no_addrs : list Z := replicate (S NDIRECT) 0%Z.
Definition empty_dinode (ty : Z) : dinode := mkDinode ty 0 0 1 0 no_addrs.

Lemma no_addrs_dir k : dir_addr no_addrs k = 0.
Proof.
  unfold dir_addr. destruct (no_addrs !! k) as [x|] eqn:E; [|done]. unfold no_addrs in E. by apply lookup_replicate in E as [-> _].
Qed.

Lemma no_addrs_slot V k : slot V no_addrs k = 0.
Proof. unfold slot. rewrite !no_addrs_dir. by repeat case_decide. Qed.

Lemma no_addrs_owns V m : ~ owns V no_addrs m.
Proof. intros (H & k & _ & E). rewrite no_addrs_slot in E. congruence. Qed.

Lemma no_addrs_byte V p : fbyte V no_addrs p = 0%Z.
Proof.
  unfold fbyte, fdata, fblk. rewrite no_addrs_slot, decide_True by done.
  destruct (zero_block !! (p mod BSIZE)) as [x|] eqn:E; [|done]. unfold zero_block in E. by apply lookup_replicate in E as [-> _].
Qed.

Lemma empty_file_ok V ty : ty = T_DIR \/ ty = T_FILE -> file_ok isb 84 V (empty_dinode ty).
Proof.
  intros Ht. split; cbn [empty_dinode d_type d_major d_minor d_nlink d_size d_addrs]; [|split| |].
  - split; try done; [destruct Ht as [->| ->]; done|]. intros x Hx. by apply elem_of_replicate in Hx as [-> _].
  - done.
  - intros x [-> _]%elem_of_replicate. lia.
  - rewrite no_addrs_dir. done.
  - intros k k' _ _. by rewrite no_addrs_slot.
  - intros k _. by rewrite no_addrs_slot.
  - lia.
  - intros bn Hbn. simpl in Hbn. lia.
Qed.

Lemma add_empty V D k ty :
  files_ok isb 84 V D -> ~ live isb D k -> ty = T_DIR \/ ty = T_FILE ->
  files_ok isb 84 V (fun j => if decide (j = k) then empty_dinode ty else D j).
Proof.
  intros [H1 H2] Hk Ht. split.
  - intros j [Hr Hj]. case_decide; [by apply empty_file_ok|]. by apply H1.
  - intros i j m [Hri Hi] [Hrj Hj]. destruct (decide (i = k)), (decide (j = k)); [congruence|by intros ?%no_addrs_owns|by intros _ ?%no_addrs_owns|].
    by apply H2.
Qed.

Section NewFile.
Context (fl : file_list) (v : list block) (F : nat) (Him : image fl v F) (ty : Z) (Hty : ty = T_DIR \/ ty = T_FILE).
Notation k := (S (length fl)).
Context (Hk : k < 200) (b : block) (Hb : v !! inb isb k = Some b).
Notation V := (fin F v).
Let v' : list block := <[inb isb k := encode_dinode (dinode_off (Z.of_nat k)) (empty_dinode ty) b]> v.
Notation V' := (fin F v').

Lemma nf_V' : V' = <[inb isb k := encode_dinode (dinode_off (Z.of_nat k)) (empty_dinode ty) b]> V.
Proof using All. unfold v'. rewrite fin_insert; [done|]. pose proof (iblock _ Hk). lia. Qed.

Lemma nf_b : V !! inb isb k = Some b /\ length b = BSIZE.
Proof using All. destruct (iblock_at _ _ _ Him k Hk) as (b' & H1 & H2 & H3). rewrite Hb in H1. injection H1 as ->. done. Qed.

Lemma nf_dinodes j : dinode_on isb V' j = if decide (j = k) then empty_dinode ty else dinode_on isb V j.
Proof using All.
  destruct nf_b as [H1 H2]. rewrite nf_V'. apply (dinode_on_write isb 84); try done; [apply Him|].
  apply (fo_fields _ _ _ _ (empty_file_ok V ty Hty)).
Qed.

Lemma nf_ok : ifs_ok V' /\ forall j, live isb (dinode_on isb V) j ->
  (forall m, owns V' (d_addrs (dinode_on isb V j)) m <-> owns V (d_addrs (dinode_on isb V j)) m) /\
  (forall p, (Z.of_nat p < max_size)%Z -> fbyte V' (d_addrs (dinode_on isb V j)) p = fbyte V (d_addrs (dinode_on isb V j)) p).
Proof using All.
  destruct nf_b as [Hv Hl], (im_ok _ _ _ Him) as [Hg Hd Hf]. pose proof (iblock _ Hk) as Hib.
  assert (Hnb : inb isb k ∉ bitmap isb) by (by apply iblock_not_bitmap).
  assert (Hel : length (encode_dinode (dinode_off (Z.of_nat k)) (empty_dinode ty) b) = BSIZE).
  { rewrite encode_dinode_length; [done|rewrite Hl; apply dinode_off_bound|done]. }
  assert (Hlow : inb isb k < 84) by lia. split.
  - split; [rewrite fin_length; unfold v'; rewrite length_insert, <- (fin_length F v); apply Hg|rewrite nf_V'; by apply disk_ok_write|].
    apply (files_ok_ext isb 84 _ (fun j => if decide (j = k) then empty_dinode ty else dinode_on isb V j)); [intros j _; by rewrite nf_dinodes|].
    apply add_empty; [|intros [_ Ht]; apply Ht, (im_free _ _ _ Him); [done|right; lia]|done].
    rewrite nf_V'. by apply meta_files.
  - intros j Hj. pose proof (fo_inode _ _ _ _ (fs_file _ _ _ _ Hf j Hj)) as Hok.
    assert (Hs : forall m, owns V (d_addrs (dinode_on isb V j)) m -> V' !! m = V !! m).
    { intros m Ho. rewrite nf_V'. by apply (meta_same isb 84 V (dinode_on isb V) _ _ Hg Hd Hf Hlow Hnb Hel j). }
    assert (Ha : forall m, m < fsize isb -> allocated isb V m = true -> allocated isb V' m = true).
    { intros m Hm. rewrite nf_V'. by rewrite (meta_alloc isb 84 V (dinode_on isb V)). }
    split; [intros m; by apply (frame_owns isb 84)|intros p Hp; by apply frame_bytes].
Qed.

Lemma nf_image : image (fl ++ [(ty, [])]) v' F.
Proof using All.
  pose proof (iblock _ Hk) as Hib. destruct nf_ok as [Hok Hoth]. split.
  - destruct (im_blank _ _ _ Him) as [H1 H2 H3]. split; [unfold v'; by rewrite length_insert|done|].
    intros n Hn. unfold v'. rewrite list_lookup_insert_ne by lia. by apply H3.
  - done.
  - intros i ty' bs [Hi|[Hge Hi]]%lookup_app_Some.
    + pose proof (lookup_lt_Some _ _ _ Hi). destruct (im_file _ _ _ Him i ty' bs Hi) as [[Hh1 Hh2] Ht]. split; [|done].
      assert (E : dinode_on isb V' (S i) = dinode_on isb V (S i)) by (rewrite nf_dinodes, decide_False; (done || lia)).
      split; [by rewrite E|]. intros p Hp. rewrite E, <- Hh2 by done. apply Hoth; [by eapply im_live|done].
    + apply list_lookup_singleton_Some in Hi as [Hi0 [= <- <-]]. assert (i = length fl) as -> by lia. split; [|done].
      split; rewrite nf_dinodes, decide_True by done; [done|]. intros p _. apply no_addrs_byte.
  - intros j Hj Hfree. rewrite length_app in Hfree. simpl in Hfree. rewrite nf_dinodes, decide_False by lia.
    apply (im_free _ _ _ Him); lia.
  - rewrite length_app. simpl. lia.
  - intros m Hm. destruct (im_used _ _ _ Him m Hm) as (i & Hi & Ho). exists i. rewrite length_app. split; [lia|].
    rewrite nf_dinodes, decide_False by lia. apply Hoth; [|done]. destruct (lookup_lt_is_Some_2 fl i Hi) as [[ty' bs] Hi']. by eapply im_live.
  - pose proof (im_count _ _ _ Him) as Hc. unfold blocks_used in *. rewrite sum_list_with_app. simpl. lia.
  - unfold v'. rewrite !list_lookup_insert_ne by lia. apply Him.
Qed.
End NewFile.
