(* ===== verification/MkfsClaims.v ===== *)
(** * The image that [mkfs] makes

    [main] of [mkfs.c] as a whole: the image is a well-formed file system that
    holds the files of the command line, and the kernel can boot from it. *)
From stdpp Require Import gmap.
From S2P Require Import Prelude Bytes Cstring Bio BioSpec Log LogCrash Blocks Fs FsAlloc FsInode FsFile FsRw FsWrite FsView Mkfs MkfsInv MkfsImage.
Local Open Scope nat_scope.

Notation istate fl v F := (ist v (S (length fl)) F).

Section Ops.
Context (wfails : nat -> bool) (Hw : forall k, wfails k = false).

Lemma iblock_u32 j : j < 200 -> u32 (IBLOCK (Z.of_nat j) isb) = Z.of_nat (inb isb j).
Proof using Type. intros Hj. rewrite inb_isb. unfold IBLOCK, IPB. cbn [isb sb_inodestart]. rewrite u32_id; lia. Qed.

Lemma rinode_ok fl v F k j : image fl v F -> j < 200 ->
  rinode (Z.of_nat j) (ist v k F) = Ret (dinode_on isb (fin F v) j) (ist v k F).
Proof using Type.
  intros Him Hj. destruct (iblock_at _ _ _ Him j Hj) as (b & Hv & HV & _). unfold rinode. erewrite bind_Ret by reflexivity. cbv zeta.
  change (m_sb (ist v k F)) with isb. rewrite iblock_u32 by done.
  rewrite (bind_Ret _ _ _ _ _ (rsect_ok v k F _ b (b_len _ _ (im_blank _ _ _ Him)) Hv)). unfold dinode_on, dinode_at. by rewrite HV.
Qed.

Lemma winode_ok v k F j d b : length v = 1102 -> j < 200 -> v !! inb isb j = Some b ->
  winode wfails (Z.of_nat j) d (ist v k F) = Ret tt (ist (<[inb isb j := encode_dinode (dinode_off (Z.of_nat j)) d b]> v) k F).
Proof using Hw.
  intros Hl Hj Hb. unfold winode. erewrite bind_Ret by reflexivity. cbv zeta. change (m_sb (ist v k F)) with isb. rewrite iblock_u32 by done.
  rewrite (bind_Ret _ _ _ _ _ (rsect_ok v k F _ b Hl Hb)). apply wsect_ok; [done|done|]. pose proof (iblock j Hj). lia.
Qed.

Lemma ialloc_ok fl v F ty : image fl v F -> ty = T_DIR \/ ty = T_FILE -> S (length fl) < 200 ->
  exists v', ialloc wfails ty (istate fl v F) = Ret (Z.of_nat (S (length fl))) (istate (fl ++ [(ty, [] : list Z)]) v' F) /\
    image (fl ++ [(ty, [])]) v' F.
Proof using Hw.
  intros Him Ht Hk. destruct (iblock_at _ _ _ Him _ Hk) as (b & Hv & _ & _). eexists. split; [|by apply (nf_image fl v F Him ty Ht Hk b Hv)].
  unfold ialloc. erewrite bind_Ret by reflexivity. erewrite bind_Ret by reflexivity. cbv zeta.
  change (set_freeinode (u32 (freeinode (istate fl v F) + 1)) (istate fl v F)) with (mkMkfs v isb (u32 (Z.of_nat (S (length fl)) + 1)) (Z.of_nat F)).
  rewrite u32_id by lia. replace (Z.of_nat (S (length fl)) + 1)%Z with (Z.of_nat (S (length (fl ++ [(ty, [] : list Z)])))) by (rewrite length_app; simpl; lia).
  assert (E : mkDinode (s16 (xshort ty)) 0 0 (s16 (xshort 1)) (xint 0) (replicate (S NDIRECT) 0%Z) = empty_dinode ty) by (by destruct Ht as [->| ->]).
  rewrite E. change (freeinode (istate fl v F)) with (Z.of_nat (S (length fl))).
  eapply bind_eq; [exact (winode_ok v _ F _ (empty_dinode ty) b (b_len _ _ (im_blank _ _ _ Him)) Hk Hv)|done].
Qed.

Lemma file_of fl v F i ty bs : image fl v F -> fl !! i = Some (ty, bs) ->
  S i < 200 /\ d_size (dinode_on isb (fin F v) (S i)) = Z.of_nat (length bs) /\
  (Z.of_nat (length bs) <= max_size)%Z /\ covered (fin F v) (d_addrs (dinode_on isb (fin F v) (S i))) (length bs) /\
  inode_ok isb 84 (fin F v) (d_addrs (dinode_on isb (fin F v) (S i))).
Proof using Type.
  intros Him Hi. pose proof (fs_file _ _ _ _ (fk_files _ _ _ (im_ok _ _ _ Him)) _ (im_live _ _ _ Him _ _ _ Hi)) as Hf.
  pose proof (lookup_lt_Some _ _ _ Hi). pose proof (im_len _ _ _ Him). destruct (im_file _ _ _ Him i ty bs Hi) as [[Hh _] _].
  assert (E : d_size (dinode_on isb (fin F v) (S i)) = Z.of_nat (length bs)) by (rewrite Hh; done).
  destruct Hf as [_ H1 H2 H3]. rewrite E in H2, H3. rewrite Nat2Z.id in H3. split; [lia|]. split; [done|]. split; [lia|]. done.
Qed.

Lemma iappend_ok fl v F k i ty bs p :
  image fl v F -> fl !! i = Some (ty, bs) -> (Z.of_nat (length bs + length p) <= max_size)%Z ->
  F + need (length bs + length p) <= 1102 + need (length bs) ->
  exists v' F', iappend wfails (Z.of_nat (S i)) p (Z.of_nat (length p)) (ist v k F) = Ret tt (ist v' k F') /\
    image (<[i := (ty, bs ++ p)]> fl) v' F' /\ F' + need (length bs) <= F + need (length bs + length p).
Proof using Hw.
  intros Him Hi Hmax HF. destruct (file_of _ _ _ _ _ _ Him Hi) as (Hlt & Es & _ & Hcov & Hok).
  set (d := dinode_on isb (fin F v) (S i)) in *. unfold iappend. rewrite (bind_Ret _ _ _ _ _ (rinode_ok fl v F k (S i) Him Hlt)). fold d.
  rewrite Es, xint_u32 by lia. rewrite Nat2Z.id.
  destruct (iappend_loop_ok wfails Hw v k F d p (length bs) (length p)) as (v1 & F1 & A1 & E & HF1 & Hap & Hgr & Hp & Hc);
    [split; [apply Him|apply Him|done]|done|done|done|done|].
  rewrite (bind_Ret _ _ _ _ _ E). cbn [fst snd]. rewrite xint_u32 by lia.
  destruct (lookup_lt_is_Some_2 v1 (inb isb (S i))) as [b Hb]; [rewrite (b_len _ _ (ap_blank _ _ _ Hap)); pose proof (iblock _ Hlt); lia|].
  rewrite (winode_ok v1 k F1 (S i) _ b (b_len _ _ (ap_blank _ _ _ Hap)) Hlt Hb). eexists _, F1. split; [done|]. split; [|done].
  apply (wb_image fl v F Him i ty bs p Hi v1 F1 A1); try done.
  intros q Hq. apply Hc. unfold BSIZE in *. lia.
Qed.

(** With the space counted over the whole list of files. *)
Lemma iappend_fits fl v F k i ty bs p :
  image fl v F -> fl !! i = Some (ty, bs) -> (Z.of_nat (length bs + length p) <= max_size)%Z ->
  blocks_used (<[i := (ty, bs ++ p)]> fl) <= 1018 ->
  exists v' F', iappend wfails (Z.of_nat (S i)) p (Z.of_nat (length p)) (ist v k F) = Ret tt (ist v' k F') /\
    image (<[i := (ty, bs ++ p)]> fl) v' F'.
Proof using Hw.
  intros Him Hi Hmax Hfit. pose proof (blocks_used_insert fl i _ (ty, bs ++ p) Hi) as E. simpl in E. rewrite length_app in E.
  pose proof (im_count _ _ _ Him). destruct (iappend_ok fl v F k i ty bs p Him Hi Hmax) as (v' & F' & E' & Him' & _); [lia|]. by exists v', F'.
Qed.

Lemma blocks_used_mono (fl : file_list) i ty bs bs' : fl !! i = Some (ty, bs) -> blocks_used fl <= blocks_used (<[i := (ty, bs ++ bs')]> fl).
Proof using Type.
  intros Hi. pose proof (blocks_used_insert fl i _ (ty, bs ++ bs') Hi) as E. simpl in E. rewrite length_app in E.
  pose proof (need_mono (length bs) (length bs + length bs') ltac:(lia)). lia.
Qed.

Lemma append_chunks fl v F k i ty bs chunks :
  image fl v F -> fl !! i = Some (ty, bs) -> (Z.of_nat (length bs + length (concat chunks)) <= max_size)%Z ->
  blocks_used (<[i := (ty, bs ++ concat chunks)]> fl) <= 1018 ->
  exists v' F', for_each chunks (fun buf => iappend wfails (Z.of_nat (S i)) buf (Z.of_nat (length buf))) (ist v k F) = Ret tt (ist v' k F') /\
    image (<[i := (ty, bs ++ concat chunks)]> fl) v' F'.
Proof using Hw.
  revert fl v F bs. induction chunks as [|c chunks IH]; intros fl v F bs Him Hi Hmax Hfit; cbn [concat] in *.
  { exists v, F. rewrite app_nil_r, list_insert_id by done. done. }
  rewrite length_app in Hmax. assert (Hi' : <[i := (ty, bs ++ c)]> fl !! i = Some (ty, bs ++ c)).
  { apply list_lookup_insert_eq. by eapply lookup_lt_Some. }
  assert (E : <[i := (ty, (bs ++ c) ++ concat chunks)]> (<[i := (ty, bs ++ c)]> fl) = <[i := (ty, bs ++ c ++ concat chunks)]> fl)
    by (rewrite list_insert_insert_eq, <- app_assoc; done).
  pose proof (blocks_used_mono _ i ty (bs ++ c) (concat chunks) Hi') as Hm. rewrite E in Hm.
  destruct (iappend_fits fl v F k i ty bs c Him Hi) as (v1 & F1 & E1 & Him1); [lia|lia|]. cbn [for_each].
  rewrite (bind_Ret _ _ _ _ _ E1). destruct (IH _ v1 F1 (bs ++ c) Him1 Hi') as (v2 & F2 & E2 & Him2); [rewrite length_app; lia|by rewrite E|].
  exists v2, F2. split; [exact E2|]. by rewrite <- E.
Qed.

(** The zeros up to the next block boundary. *)
Definition pad (R : list Z) : list Z := replicate ((length R / BSIZE + 1) * BSIZE - length R) 0%Z.

Lemma pad_length R : length R + length (pad R) = (length R / BSIZE + 1) * BSIZE.
Proof using Type. unfold pad. rewrite length_replicate. unfold BSIZE. lia. Qed.

Lemma fix_root_ok fl v F k R :
  image fl v F -> fl !! 0 = Some (T_DIR, R) -> length R mod BSIZE <> 0 -> (Z.of_nat (length R + length (pad R)) <= max_size)%Z ->
  exists v', fix_root wfails 1 (ist v k F) = Ret tt (ist v' k F) /\ image (<[0 := (T_DIR, R ++ pad R)]> fl) v' F.
Proof using Hw.
  intros Him H0 Hmod Hmax. destruct (file_of _ _ _ _ _ _ Him H0) as (Hlt & Es & _ & Hcov & Hok).
  set (d := dinode_on isb (fin F v) 1) in *. destruct (iblock_at _ _ _ Him 1 Hlt) as (b & Hv & _ & _).
  unfold fix_root. change (rinode 1) with (rinode (Z.of_nat 1)). change (winode wfails 1) with (winode wfails (Z.of_nat 1)). rewrite (bind_Ret _ _ _ _ _ (rinode_ok fl v F k 1 Him Hlt)). fold d. cbv zeta.
  rewrite Es, (xint_u32 (Z.of_nat (length R))) by lia.
  replace ((Z.of_nat (length R) / bsize + 1) * bsize)%Z with (Z.of_nat (length R + length (pad R))) by (rewrite pad_length; unfold bsize, BSIZE; lia).
  rewrite u32_id, xint_u32 by lia. rewrite (winode_ok v k F 1 _ b (b_len _ _ (im_blank _ _ _ Him)) Hlt Hv). eexists. split; [done|].
  replace (set_dsize (Z.of_nat (length R + length (pad R))) d) with (set_dsize (Z.of_nat (length R + length (pad R))) (with_daddrs (d_addrs d) d)) by done.
  apply (wb_image fl v F Him 0 T_DIR R (pad R) H0 v F (d_addrs d)); try done.
  - split; [apply Him|apply Him|done].
  - apply grown_refl; [apply Him|done].
  - intros p Hp. destruct (im_file _ _ _ Him 0 _ _ H0) as [[_ Hh] _]. fold d in Hh |- *. rewrite !Hh by done. case_decide as Hr; [|done].
    rewrite (lookup_ge_None_2 R p) by lia. unfold pad. destruct (replicate _ _ !! _) as [x|] eqn:E; [|done]. by apply lookup_replicate in E as [-> _].
  - intros p Hp. apply Hcov. pose proof (pad_length R). unfold BSIZE in *. lia.
  - pose proof (need_mono (length R) (length R + length (pad R)) ltac:(lia)). lia.
Qed.
End Ops.

(** ** The blank image *)

Definition blank_img : list block := <[1 := encode_sb isb]> (replicate 1102 zeroes).

Lemma wipe_ok wfails s a n : (forall k, wfails k = false) -> a + n <= 1102 -> img s = replicate a zeroes ->
  for_each (seq a n) (fun i => wsect wfails (Z.of_nat i) zeroes) s = Ret tt (set_img (replicate (a + n) zeroes) s).
Proof.
  intros Hw. revert a s. induction n as [|n IH]; intros a s Hle Hi; cbn [seq for_each].
  { rewrite Nat.add_0_r, <- Hi. by destruct s. }
  assert (E : wsect wfails (Z.of_nat a) zeroes s = Ret tt (set_img (replicate (S a) zeroes) s)).
  { unfold wsect. rewrite Hw, sector_id by lia. unfold modify, put_sector.
    rewrite Hi, length_replicate, (proj2 (Nat.ltb_ge a a)), Nat.sub_diag by lia. rewrite replicate_S_end. done. }
  rewrite (bind_Ret _ _ _ _ _ E), (IH (S a)) by (done || lia). by replace (S a + n) with (a + S n) by lia.
Qed.

Lemma blank_lookup n : n < 1102 -> n <> 1 -> blank_img !! n = Some zero_block.
Proof. intros Hn H1. unfold blank_img. rewrite list_lookup_insert_ne by lia. by apply lookup_replicate_2. Qed.

Lemma blank_dinode j : j < 200 -> dinode_on isb (fin 84 blank_img) j = dinode_at zero_block j.
Proof. intros Hj. pose proof (iblock j Hj). unfold dinode_on. by rewrite fin_lookup, blank_lookup by lia. Qed.

Lemma zero_type j : d_type (dinode_at zero_block j) = 0%Z.
Proof.
  unfold dinode_at, decode_dinode, get16, getle, zero_block. cbn [d_type]. rewrite drop_replicate, take_replicate.
  pose proof (dinode_off_bound j). by replace (2 `min` (BSIZE - dinode_off (Z.of_nat j))) with 2 by lia.
Qed.

Lemma blank_image : image [] blank_img 84.
Proof.
  assert (Hlen : length blank_img = 1102) by (unfold blank_img; by rewrite length_insert, length_replicate).
  assert (Hb : blank blank_img 84) by (split; [done|lia|intros n Hn; apply blank_lookup; lia]).
  assert (Hno : forall j, ~ live isb (dinode_on isb (fin 84 blank_img)) j).
  { intros j [Hj%irange Ht]. apply Ht. by rewrite blank_dinode, zero_type. }
  split.
  - done.
  - split; [by apply fgeo| |split; [intros j Hj|intros j j' m Hj]; by destruct (Hno j)]. split.
    + intros n e _ He. destruct (decide (n = 83)) as [->|H83].
      { unfold fin in He. rewrite list_lookup_insert_eq in He by lia. injection He as <-. apply first_bits_length. }
      rewrite fin_lookup in He by done. destruct (decide (n = 1)) as [->|H1].
      { unfold blank_img in He. rewrite list_lookup_insert_eq in He by (rewrite length_replicate; lia). by injection He as <-. }
      pose proof (lookup_lt_Some _ _ _ He). rewrite blank_lookup in He by lia. by injection He as <-.
    + intros n Hn. rewrite (blank_allocated _ _ n Hb) by lia. by apply bool_decide_true.
  - done.
  - intros j Hj _. by rewrite blank_dinode, zero_type.
  - simpl. lia.
  - intros m Hm. lia.
  - simpl. lia.
  - split; [|by apply blank_lookup; lia]. apply list_lookup_insert_eq. rewrite length_replicate. lia.
Qed.

(** ** The root directory *)

Definition dot_entries : list Z := make_dirent (xshort 1) (short_name [46%Z]) ++ make_dirent (xshort 1) (short_name [46%Z; 46%Z]).

(** The entries for the files of the command line, inodes 2, 3, ... *)
Definition root_entries (args : list (list Z)) : list Z :=
  dot_entries ++ concat (imap (fun i a => entry (Z.of_nat (2 + i)) (image_name a)) args).

Lemma entry_length n a : length (entry n a) = 16.
Proof.
  unfold entry, make_dirent. rewrite length_app, le_bytes_length, strncpy_length; rewrite length_replicate; unfold DIRSIZ; lia.
Qed.

Lemma root_entries_snoc args a : root_entries (args ++ [a]) = root_entries args ++ entry (Z.of_nat (2 + length args)) (image_name a).
Proof.
  unfold root_entries. rewrite imap_app, concat_app, app_assoc. simpl. rewrite app_nil_r. do 3 f_equal. by rewrite Nat.add_0_r.
Qed.

Lemma root_entries_length args : length (root_entries args) = 16 * (2 + length args).
Proof.
  induction args as [|a args IH] using rev_ind; [done|]. rewrite root_entries_snoc, !length_app, IH, entry_length. simpl. lia.
Qed.

Section Main.
Context (open_ro : list Z -> option (list (list Z))) (wfails : nat -> bool).
Context (Hw : forall k, wfails k = false).

(** What [read] returns of the file, to its end. *)
Definition data_of (a : list Z) : list Z := match open_ro a with Some chunks => concat chunks | None => [] end.

Definition listing (args : list (list Z)) : file_list := (T_DIR, root_entries args) :: ((fun a => (T_FILE, data_of a)) <$> args).

Lemma listing_length args : length (listing args) = S (length args).
Proof using Type. unfold listing. simpl. by rewrite length_fmap. Qed.

Lemma listing_used args more : blocks_used (listing args) <= blocks_used (listing (args ++ more)).
Proof using Type.
  unfold listing. rewrite !blocks_used_cons, fmap_app, blocks_used_app. cbn [snd].
  enough (need (length (root_entries args)) <= need (length (root_entries (args ++ more)))) by lia.
  apply need_mono. rewrite !root_entries_length, length_app. lia.
Qed.

(** An argument that can be added: its name has no slash, it can be opened, and
    it is not larger than a file can be. *)
Definition addable (a : list Z) : Prop :=
  existsb (Z.eqb slash) a = false /\ open_ro a <> None /\ (Z.of_nat (length (data_of a)) <= max_size)%Z.

Lemma add_file_ok args a v F :
  image (listing args) v F -> addable a -> length args < 198 -> blocks_used (listing (args ++ [a])) <= 1018 ->
  exists v' F', add_file open_ro wfails 1 a (istate (listing args) v F) = Ret tt (istate (listing (args ++ [a])) v' F') /\
    image (listing (args ++ [a])) v' F'.
Proof using Hw.
  intros Him (Hs & Ho & Hlen) Hn Hfit. unfold add_file. rewrite Hs. erewrite bind_Ret by reflexivity.
  unfold data_of in Hlen. destruct (open_ro a) as [chunks|] eqn:Ea; [|done]. pose proof (listing_length args) as Hll.
  set (fl := listing args) in *. set (n := length fl) in *. set (fl1 := fl ++ [(T_FILE, [] : list Z)]).
  destruct (ialloc_ok wfails Hw fl v F T_FILE Him) as (v1 & E1 & Him1); [by right|lia|]. rewrite (bind_Ret _ _ _ _ _ E1). fold n fl1 in Him1 |- *.
  set (e := entry (Z.of_nat (S n)) (image_name a)). set (R := root_entries args).
  assert (H0 : fl1 !! 0 = Some (T_DIR, R)) by done. set (fl2 := <[0 := (T_DIR, R ++ e)]> fl1).
  assert (Hn1 : fl2 !! n = Some (T_FILE, [] : list Z)).
  { unfold fl2. rewrite list_lookup_insert_ne by lia. unfold fl1. by apply list_lookup_middle. }
  assert (E3 : <[n := (T_FILE, [] ++ concat chunks)]> fl2 = listing (args ++ [a])).
  { unfold fl2, fl1, n, fl, listing. simpl. rewrite length_fmap, root_entries_snoc, fmap_app. simpl. f_equal.
    - unfold R, e, n, fl. rewrite listing_length. done.
    - rewrite <- (length_fmap (fun a => (T_FILE, data_of a)) args), insert_app_r_alt, Nat.sub_diag by lia. simpl. unfold data_of at 3. by rewrite Ea. }
  assert (Hfit2 : blocks_used fl2 <= 1018) by (rewrite <- E3 in Hfit; etransitivity; [by apply (blocks_used_mono fl2 n T_FILE [] (concat chunks))|done]).
  assert (He : length e = 16) by apply entry_length. pose proof (root_entries_length args) as HR. fold R in HR.
  destruct (iappend_fits wfails Hw fl1 v1 F (S (length fl1)) 0 T_DIR R e Him1 H0) as (v2 & F2 & E2 & Him2); [lia|done|].
  rewrite He in E2. change (Z.of_nat 1) with 1%Z in E2. change (Z.of_nat 16) with DIRENT in E2. rewrite (bind_Ret _ _ _ _ _ E2).
  destruct (append_chunks wfails Hw fl2 v2 F2 (S (length fl1)) n T_FILE [] chunks Him2 Hn1) as (v3 & F3 & E4 & Him3); [done|by rewrite E3|].
  exists v3, F3. rewrite E4, <- E3 at 1. split; [|by rewrite <- E3]. f_equal. unfold ist. do 2 f_equal. unfold fl2. by rewrite !length_insert.
Qed.

Lemma add_files_ok args more v F :
  image (listing args) v F -> Forall addable more -> length args + length more <= 198 -> blocks_used (listing (args ++ more)) <= 1018 ->
  exists v' F', for_each more (add_file open_ro wfails 1) (istate (listing args) v F) = Ret tt (istate (listing (args ++ more)) v' F') /\
    image (listing (args ++ more)) v' F'.
Proof using Hw.
  revert args v F. induction more as [|a more IH]; intros args v F Him Hall Hn Hfit; [exists v, F; by rewrite app_nil_r|].
  apply Forall_cons in Hall as [Ha Hall]. simpl in Hn. cbn [for_each].
  replace (args ++ a :: more) with ((args ++ [a]) ++ more) in * by (by rewrite <- app_assoc).
  destruct (add_file_ok args a v F Him Ha) as (v1 & F1 & E1 & Him1); [lia|etransitivity; [apply listing_used|exact Hfit]|].
  rewrite (bind_Ret _ _ _ _ _ E1). apply IH; try done. rewrite length_app. simpl. lia.
Qed.

(** The entries for the directory itself and its parent. *)
Lemma dots_ok v F k :
  image [(T_DIR, [])] v F ->
  exists v' F', (iappend wfails 1 (make_dirent (xshort 1) (short_name [46%Z])) DIRENT;;
      iappend wfails 1 (make_dirent (xshort 1) (short_name [46%Z; 46%Z])) DIRENT) (ist v k F) = Ret tt (ist v' k F') /\
    image (listing []) v' F'.
Proof using Hw.
  intros Him. set (e1 := make_dirent (xshort 1) (short_name [46%Z])). set (e2 := make_dirent _ (short_name [46%Z; 46%Z])).
  destruct (iappend_fits wfails Hw _ v F k 0 T_DIR [] e1 Him eq_refl) as (v1 & F1 & E1 & Him1); [done|vm_compute; lia|].
  change (iappend wfails 1 e1 DIRENT (ist v k F) = Ret tt (ist v1 k F1)) in E1. rewrite (bind_Ret _ _ _ _ _ E1).
  destruct (iappend_fits wfails Hw _ v1 F1 k 0 T_DIR e1 e2 Him1 eq_refl) as (v2 & F2 & E2 & Him2); [done|vm_compute; lia|].
  exists v2, F2. split; [exact E2|exact Him2].
Qed.

(** The root directory ends with its block, and the bit map is written. *)
Lemma finish_ok args v F k :
  image (listing args) v F -> length args <= 198 -> (2 + length args) mod 32 <> 0 ->
  exists v' s', (fix_root wfails 1;; used ← gets freeblock; balloc wfails (s32 used)) (ist v k F) = Ret tt s' /\
    img s' = fin F v' /\ image (<[0 := (T_DIR, root_entries args ++ pad (root_entries args))]> (listing args)) v' F.
Proof using Hw.
  intros Him Hn Hmod. set (R := root_entries args) in *. pose proof (root_entries_length args) as HR. fold R in HR.
  destruct (fix_root_ok wfails Hw (listing args) v F k R Him eq_refl) as (v1 & E1 & Him1).
  { rewrite HR. unfold BSIZE. lia. }
  { rewrite pad_length, HR. unfold BSIZE. lia. }
  pose proof (b_from _ _ (im_blank _ _ _ Him1)) as HF. pose proof (b_len _ _ (im_blank _ _ _ Him1)) as Hl.
  exists v1, (ist (fin F v1) k F). split; [|done]. rewrite (bind_Ret _ _ _ _ _ E1). erewrite bind_Ret by reflexivity.
  unfold balloc. change (freeblock (ist v1 k F)) with (Z.of_nat F). rewrite s32_id by lia.
  rewrite (proj2 (Z.ltb_lt (Z.of_nat F) (bsize * 8))) by (unfold bsize, BSIZE; lia). do 2 (erewrite bind_Ret by reflexivity).
  change (sb_bmapstart (m_sb (ist v1 k F))) with (Z.of_nat 83). rewrite Nat2Z.id. apply (wsect_ok wfails Hw); [done|lia].
Qed.

Context (open_rw : list Z -> bool).

Definition image_listing (args : list (list Z)) : file_list :=
  <[0 := (T_DIR, root_entries args ++ pad (root_entries args))]> (listing args).

Lemma main_ok prog image_arg args :
  open_rw image_arg = true -> Forall addable args -> length args <= 198 -> (2 + length args) mod 32 <> 0 ->
  blocks_used (listing args) <= 1018 ->
  exists v F s', main open_rw open_ro wfails (prog :: image_arg :: args) start = Ret tt s' /\ img s' = fin F v /\ image (image_listing args) v F.
Proof using Hw.
  intros Ho Hall Hn Hmod Hfit. cbn [main]. rewrite Ho. cbn [negb].
  do 3 (erewrite bind_Ret by reflexivity). set (s0 := set_freeblock _ _).
  rewrite (bind_Ret _ _ _ _ _ (wipe_ok wfails s0 0 (Z.to_nat FSSIZE) Hw ltac:(done) eq_refl)).
  erewrite bind_Ret by reflexivity. change (set_img (replicate (0 + Z.to_nat FSSIZE) zeroes) s0) with (ist (replicate 1102 zeroes) 1 84).
  change (m_sb _) with isb. change (wsect wfails 1) with (wsect wfails (Z.of_nat 1)).
  rewrite (bind_Ret _ _ _ _ _ (wsect_ok wfails Hw (replicate 1102 zeroes) 1 84 1 (encode_sb isb) ltac:(by rewrite length_replicate) ltac:(lia))).
  fold blank_img.
  destruct (ialloc_ok wfails Hw [] blank_img 84 T_DIR blank_image) as (v1 & E1 & Him1); [by left|simpl; lia|].
  change (S (length (@nil (Z * list Z)))) with 1 in E1. rewrite (bind_Ret _ _ _ _ _ E1). 
  erewrite bind_Ret by reflexivity. cbn [app length] in *.
  destruct (dots_ok v1 84 2 Him1) as (v2 & F2 & E2 & Him2).
  destruct (add_files_ok [] args v2 F2 Him2 Hall ltac:(simpl; lia) Hfit) as (v3 & F3 & E3 & Him3).
  destruct (finish_ok args v3 F3 (S (length (listing args))) Him3 Hn Hmod) as (v4 & s' & E4 & Hs & Him4).
  exists v4, F3, s'. split; [|done]. change (Z.of_nat 1) with 1%Z. apply bind_Ret_inv in E2 as ([] & s1 & E2a & E2b).
  rewrite (bind_Ret _ _ _ _ _ E2a), (bind_Ret _ _ _ _ _ E2b), (bind_Ret _ _ _ _ _ E3). exact E4.
Qed.
End Main.

(** ** A disk to boot from *)

Lemma holds_contents V j ty bs : holds V j ty bs -> (Z.of_nat (length bs) <= max_size)%Z -> contents V (dinode_on isb V j) = bs.
Proof.
  intros [H1 H2] Hm. unfold contents. rewrite H1. cbn [d_size d_addrs]. rewrite Nat2Z.id. apply list_eq. intros p.
  rewrite file_bytes_lookup. case_decide as Hp; [|symmetry; apply lookup_ge_None; lia].
  rewrite Nat.add_0_l, H2 by lia. by destruct (lookup_lt_is_Some_2 bs p Hp) as [x ->].
Qed.

Section Bootable.
Context (open_ro : list Z -> option (list (list Z))).

(** What the image has to be: a file system in the sense of the kernel's
    invariant, with an empty log, that holds the root directory in inode 1 and
    the files of the command line in the inodes from 2 on, and nothing else. *)
Record bootable (args : list (list Z)) (D : list block) : Prop := {
  bt_size : length D = Z.to_nat FSSIZE;
  bt_sb : exists d, D !! 1 = Some d /\ decode_sb d = make_sb;
  bt_fs : fs_ok_of (home := log_home 2 30) make_sb (Z.to_nat nmeta) D;
  bt_log : recoverable 2 30 D /\ recovered 2 D = D;
  bt_root : let d := dinode_on make_sb D (Z.to_nat ROOTINO) in
    d_type d = T_DIR /\ d_nlink d = 1%Z /\ contents D d = root_entries args ++ pad (root_entries args);
  bt_file i a : args !! i = Some a -> let d := dinode_on make_sb D (2 + i) in
    d_type d = T_FILE /\ d_nlink d = 1%Z /\ contents D d = data_of open_ro a;
  bt_unused j : in_range make_sb j -> j = 0 \/ 1 + length args < j -> d_type (dinode_on make_sb D j) = 0%Z;
  bt_used n : Z.to_nat nmeta <= n < length D -> allocated make_sb D n = true ->
    exists j, live make_sb (dinode_on make_sb D) j /\ owns D (d_addrs (dinode_on make_sb D j)) n
}.

Lemma empty_log D : D !! 2 = Some zero_block -> recoverable 2 30 D /\ recovered 2 D = D.
Proof.
  intros H. assert (E : entries 2 D = []) by (unfold entries; by rewrite H). split; [|unfold recovered; by rewrite E].
  split; rewrite E; [|split; [set_solver|set_solver|constructor|simpl; lia|simpl; lia]|set_solver]. exists zero_block. split; [done|]. split; [done|]. split; [done|]. simpl. lia.
Qed.

Lemma image_bootable args v F :
  image (image_listing open_ro args) v F -> Forall (addable open_ro) args -> length args <= 198 -> bootable args (fin F v).
Proof.
  intros Him Hall Hn. pose proof (im_blank _ _ _ Him) as Hb. pose proof (b_len _ _ Hb) as Hl. pose proof (root_entries_length args) as HR.
  assert (Hlen : length (image_listing open_ro args) = S (length args)) by (unfold image_listing; by rewrite length_insert, listing_length).
  assert (H0 : image_listing open_ro args !! 0 = Some (T_DIR, root_entries args ++ pad (root_entries args))) by done.
  split; [by rewrite fin_length| | | | | | |]; rewrite ?make_sb_eq; change (Z.to_nat nmeta) with 84.
  - exists (encode_sb isb). rewrite fin_lookup by lia. split; [apply (im_head _ _ _ Him)|done].
  - destruct (im_ok _ _ _ Him) as [Hg [Hd1 Hd2] Hf]. split; [|split; [intros n d _; by apply Hd1|done]|done].
    apply geometry_isb; [rewrite fin_length; lia|]. intros n Hn'. split; [right; lia|lia].
  - apply empty_log. rewrite fin_lookup by lia. apply (im_head _ _ _ Him).
  - change (Z.to_nat ROOTINO) with 1. cbv zeta. destruct (im_file _ _ _ Him 0 _ _ H0) as [Hh _].
    split; [rewrite (h_fields _ _ _ _ Hh); done|]. split; [rewrite (h_fields _ _ _ _ Hh); done|].
    eapply holds_contents; [exact Hh|]. rewrite length_app, pad_length, HR. unfold BSIZE. lia.
  - intros i a Ha. cbv zeta. assert (Hi : image_listing open_ro args !! S i = Some (T_FILE, data_of open_ro a)).
    { unfold image_listing, listing. simpl. rewrite list_lookup_fmap, Ha. done. }
    destruct (im_file _ _ _ Him (S i) _ _ Hi) as [Hh _]. change (2 + i) with (S (S i)).
    split; [rewrite (h_fields _ _ _ _ Hh); done|]. split; [rewrite (h_fields _ _ _ _ Hh); done|].
    eapply holds_contents; [exact Hh|]. by apply (proj1 (Forall_lookup _ _) Hall i a Ha).
  - intros j Hj%irange Hfree. apply (im_free _ _ _ Him); [done|]. rewrite Hlen. lia.
  - intros n Hn' Ha. rewrite fin_length, Hl in Hn'. rewrite (blank_allocated v F n Hb) in Ha by lia. apply bool_decide_eq_true in Ha.
    destruct (im_used _ _ _ Him n) as (i & Hi & Ho); [lia|]. exists (S i). split; [|done].
    destruct (lookup_lt_is_Some_2 _ i Hi) as [[ty bs] Hi']. by eapply im_live.
Qed.
End Bootable.

(** C7: [mkfs] on files whose names have no slash, that can be opened and are
    not too large for an inode, that are at most 198, fit the data blocks of the
    image and do not fill the last block of the root directory, succeeds.  The
    image it writes is a file system that satisfies the invariant of the kernel
    (inodes with their blocks allocated and in the data area, no block in two
    files), has the super block at block 1 and an empty log, holds the root
    directory with an entry per file and every file with the bytes that were
    read, and marks no block as used that no file owns. *)
Theorem mkfs_bootable open_rw open_ro wfails prog image_arg args :
  (forall k, wfails k = false) -> open_rw image_arg = true -> Forall (addable open_ro) args -> length args <= 198 ->
  (2 + length args) mod 32 <> 0 -> (Z.of_nat (blocks_used (listing open_ro args)) <= nblocks)%Z ->
  exists s', main open_rw open_ro wfails (prog :: image_arg :: args) start = Ret tt s' /\ bootable open_ro args (img s').
Proof.
  intros Hw Ho Hall Hn Hmod Hfit. change nblocks with 1018%Z in Hfit.
  destruct (main_ok open_ro wfails Hw open_rw prog image_arg args Ho Hall Hn Hmod) as (v & F & s' & E & Ei & Him); [lia|].
  exists s'. split; [done|]. rewrite Ei. by apply image_bootable.
Qed.

(** A file [_a] of 603 bytes read in three chunks, and an empty file [b]. *)
Definition demo_read (a : list Z) : option (list (list Z)) :=
  if decide (a = [95; 97]%Z) then Some [[1; 2; 3]%Z; replicate 500 7%Z; replicate 100 9%Z] else Some [].

Lemma mkfs_bootable_witness :
  exists s', main (fun _ => true) demo_read (fun _ => false) [[]; []; [95; 97]%Z; [98]%Z] start = Ret tt s' /\
    bootable demo_read [[95; 97]%Z; [98]%Z] (img s').
Proof.
  apply mkfs_bootable; [done|done| |simpl; lia|simpl; lia|vm_compute; discriminate].
  repeat constructor; vm_compute; congruence.
Defined.

(** With 30 files the 32 entries fill the first block of the root directory; its
    size is set to two blocks, and the second is not there. *)
Lemma mkfs_root_short :
  match main (fun _ => true) (fun _ => Some []) (fun _ => false) ([] :: [] :: replicate 30 [97%Z]) start with
  | Ret _ s => let d := dinode_on make_sb (img s) 1 in (d_size d, fblk (img s) (d_addrs d) 1) = (1024%Z, 0)
  | _ => False
  end.
Proof. vm_compute. reflexivity. Qed.
