(* ===== verification/Spinlock.v ===== *)
(** * Spin locks

    [spinlock.c] at the granularity of its memory accesses: several CPUs run
    [acquire] and [release], [pushcli], [popcli] and [holding] in any
    interleaving, and interrupts arrive wherever the interrupt flag allows
    them.  Each CPU has its [ncli] and [intena], its interrupt flag and a
    program counter inside the routine it runs; a lock has its [locked] word
    and its [cpu] pointer.

    Besides, a CPU records what no instruction reads: the locks whose [xchg]
    it won and whose word it has not cleared ([held]), and the interrupt flag
    that the code asked for outside all critical sections ([want]).  Memory is
    sequentially consistent, as the barriers of the source make it. *)
From stdpp Require Import gmap.
From S2P Require Import Prelude.
Local Open Scope Z_scope.

Definition FL_IF : Z := 512.

(** ** The machine *)

Record spinlock := mkSpin { locked : bool; lk_cpu : option nat }.

(** [initlock] *)
Definition initlock : spinlock := mkSpin false None.

(** Where a CPU is: outside the routines; in [pushcli] on the way to lock [l]
    (before the flags are read, before [cli], before [intena], before
    [ncli += 1]); in [holding] of [acquire] (before [locked] is read, before
    [cpu] is); spinning; before [lk->cpu = mycpu()]; in [holding] of
    [release]; before [lk->cpu = 0]; before the store that unlocks; in
    [popcli] (before the flags are tested, before [ncli] is decremented, before
    it is tested); in [panic]. *)
Inductive pc :=
| Outside
| Push_read (l : nat) | Push_cli (l : nat) (eflags : bool) | Push_ena (l : nat) (eflags : bool) | Push_inc (l : nat)
| Acq_locked (l : nat) | Acq_cpu (l : nat) | Acq_spin (l : nat) | Acq_record (l : nat)
| Rel_locked (l : nat) | Rel_cpu (l : nat) | Rel_clear (l : nat) | Rel_unlock (l : nat)
| Pop_flags | Pop_dec | Pop_test
| Halted (msg : string).

Record cpu := mkCpu {
  at_pc : pc; ncli : Z; intena : Z; iflag : bool; frames : list (pc * bool); held : list nat; want : bool
}.

Definition set_pc p x := mkCpu p (ncli x) (intena x) (iflag x) (frames x) (held x) (want x).
Definition set_ncli v x := mkCpu (at_pc x) v (intena x) (iflag x) (frames x) (held x) (want x).
Definition set_intena v x := mkCpu (at_pc x) (ncli x) v (iflag x) (frames x) (held x) (want x).
Definition set_iflag v x := mkCpu (at_pc x) (ncli x) (intena x) v (frames x) (held x) (want x).
Definition set_frames v x := mkCpu (at_pc x) (ncli x) (intena x) (iflag x) v (held x) (want x).
Definition set_cpu_held v x := mkCpu (at_pc x) (ncli x) (intena x) (iflag x) (frames x) v (want x).
Definition set_want v x := mkCpu (at_pc x) (ncli x) (intena x) (iflag x) (frames x) (held x) v.

Record machine := mkMachine { cpus : list cpu; locks : list spinlock }.

Definition set_cpu_at (c : nat) (x : cpu) (s : machine) : machine := mkMachine (<[c := x]> (cpus s)) (locks s).
Definition set_lock_at (l : nat) (k : spinlock) (s : machine) : machine := mkMachine (cpus s) (<[l := k]> (locks s)).

(** [eflags & FL_IF] *)
Definition if_bit (eflags : bool) : Z := if eflags then FL_IF else 0.

(** The CPU moves on; the CPU panics. *)
Definition goto (c : nat) (x : cpu) (p : pc) (s : machine) : option machine := Some (set_cpu_at c (set_pc p x) s).
Definition halt (c : nat) (x : cpu) (msg : string) (s : machine) : option machine := goto c x (Halted msg) s.

(** [mycpu], which [holding] calls, panics when interrupts are on. *)
Definition mycpu_panic : string := "mycpu called with interrupts enabled".

(** *** [pushcli] *)
Definition pushcli (c : nat) (x : cpu) (p : pc) (s : machine) : option machine :=
  match p with
  | Push_read l => goto c x (Push_cli l (iflag x)) s
  | Push_cli l e => goto c (set_iflag false x) (Push_ena l e) s
  | Push_ena l e => goto c (if ncli x =? 0 then set_intena (if_bit e) x else x) (Push_inc l) s
  | Push_inc l => goto c (set_ncli (s32 (ncli x + 1)) x) (Acq_locked l) s
  | _ => None
  end.

(** *** [popcli] *)
Definition popcli (c : nat) (x : cpu) (p : pc) (s : machine) : option machine :=
  match p with
  | Pop_flags => if iflag x then halt c x "popcli - interruptible" s else goto c x Pop_dec s
  | Pop_dec =>
      let n := s32 (ncli x - 1) in
      if n <? 0 then halt c (set_ncli n x) "popcli" s else goto c (set_ncli n x) Pop_test s
  | Pop_test => goto c (if (ncli x =? 0) && negb (intena x =? 0) then set_iflag true x else x) Outside s
  | _ => None
  end.

(** *** [acquire], after [pushcli] *)
Definition acquire_step (c : nat) (x : cpu) (p : pc) (s : machine) : option machine :=
  match p with
  | Acq_locked l =>
      k ← locks s !! l;
      goto c x (if locked k then Acq_cpu l else Acq_spin l) s
  | Acq_cpu l =>
      k ← locks s !! l;
      if iflag x then halt c x mycpu_panic s
      else if bool_decide (lk_cpu k = Some c) then halt c x "acquire" s else goto c x (Acq_spin l) s
  | Acq_spin l =>
      k ← locks s !! l;
      let s' := set_lock_at l (mkSpin true (lk_cpu k)) s in
      if locked k then goto c x (Acq_spin l) s' else goto c (set_cpu_held (l :: held x) x) (Acq_record l) s'
  | Acq_record l =>
      k ← locks s !! l;
      goto c x Outside (set_lock_at l (mkSpin (locked k) (Some c)) s)
  | _ => None
  end.

(** *** [release], before [popcli] *)
Definition release_step (c : nat) (x : cpu) (p : pc) (s : machine) : option machine :=
  match p with
  | Rel_locked l =>
      k ← locks s !! l;
      if locked k then goto c x (Rel_cpu l) s else halt c x "release" s
  | Rel_cpu l =>
      k ← locks s !! l;
      if iflag x then halt c x mycpu_panic s
      else if bool_decide (lk_cpu k = Some c) then goto c x (Rel_clear l) s else halt c x "release" s
  | Rel_clear l =>
      k ← locks s !! l;
      goto c x (Rel_unlock l) (set_lock_at l (mkSpin (locked k) None) s)
  | Rel_unlock l =>
      k ← locks s !! l;
      goto c (set_cpu_held (filter (fun l' => l' <> l) (held x)) x) Pop_flags (set_lock_at l (mkSpin false (lk_cpu k)) s)
  | _ => None
  end.

(** What happens next on a CPU: its code calls [acquire] or [release], or sets
    the interrupt flag outside all critical sections; an interrupt arrives,
    through a gate that clears the flag; the handler, which holds no lock any
    more, returns; the routine that is running makes a step. *)
Inductive event := Call_acquire (l : nat) | Call_release (l : nat) | Set_flag (b : bool) | Interrupt | Iret | Run.

Definition run_step (c : nat) (x : cpu) (s : machine) : option machine :=
  match at_pc x with
  | Push_read _ | Push_cli _ _ | Push_ena _ _ | Push_inc _ => pushcli c x (at_pc x) s
  | Acq_locked _ | Acq_cpu _ | Acq_spin _ | Acq_record _ => acquire_step c x (at_pc x) s
  | Rel_locked _ | Rel_cpu _ | Rel_clear _ | Rel_unlock _ => release_step c x (at_pc x) s
  | Pop_flags | Pop_dec | Pop_test => popcli c x (at_pc x) s
  | Outside | Halted _ => None
  end.

Definition is_outside (p : pc) : bool := match p with Outside => true | _ => false end.
Definition is_halted (p : pc) : bool := match p with Halted _ => true | _ => false end.

Definition cpu_step (c : nat) (e : event) (s : machine) : option machine :=
  x ← cpus s !! c;
  match e with
  | Call_acquire l => if is_outside (at_pc x) && (l <? length (locks s))%nat then goto c x (Push_read l) s else None
  | Call_release l => if is_outside (at_pc x) && (l <? length (locks s))%nat then goto c x (Rel_locked l) s else None
  | Set_flag b => if is_outside (at_pc x) && (ncli x =? 0) then Some (set_cpu_at c (set_want b (set_iflag b x)) s) else None
  | Interrupt =>
      if iflag x && negb (is_halted (at_pc x)) then
        Some (set_cpu_at c (set_frames ((at_pc x, want x) :: frames x) (set_want false (set_iflag false (set_pc Outside x)))) s)
      else None
  | Iret =>
      match frames x with
      | (p, w) :: fs =>
          if is_outside (at_pc x) && (ncli x =? 0) then Some (set_cpu_at c (set_frames fs (set_want w (set_iflag true (set_pc p x)))) s)
          else None
      | [] => None
      end
  | Run => run_step c x s
  end.

Fixpoint run_events (es : list (nat * event)) (s : machine) : option machine :=
  match es with
  | [] => Some s
  | (c, e) :: es' => s' ← cpu_step c e s; run_events es' s'
  end.

Definition boot_cpu (b : bool) : cpu := mkCpu Outside 0 0 b [] [] b.
Definition boot (flags : list bool) (nlocks : nat) : machine := mkMachine (boot_cpu <$> flags) (replicate nlocks initlock).

(** ** [getcallerpcs] *)

Definition KERNBASE : Z := 2147483648.

(** The [n] entries of [pcs\[\]] that are left, following the chain of frame
    pointers from [ebp] in memory. *)
Fixpoint getcallerpcs_loop (word : Z -> Z) (ebp : Z) (n : nat) : list Z :=
  match n with
  | O => []
  | S n' =>
      if (ebp =? 0) || (ebp <? KERNBASE) || (ebp =? 4294967295) then replicate n 0
      else word (u32 (ebp + 4)) :: getcallerpcs_loop word (word ebp) n'
  end.

Definition getcallerpcs (word : Z -> Z) (v : Z) : list Z := getcallerpcs_loop word (u32 (v - 8)) 10.

(** All of [pcs\[\]] is written, and nothing below the kernel is read. *)
Lemma getcallerpcs_bounds word word' v :
  (forall a, KERNBASE <= a < 2 ^ 32 - 1 -> word a = word' a /\ word (u32 (a + 4)) = word' (u32 (a + 4))) ->
  (forall a, 0 <= word a < 2 ^ 32) -> length (getcallerpcs word v) = 10%nat /\ getcallerpcs word v = getcallerpcs word' v.
Proof.
  intros Hw Hr. unfold getcallerpcs. pose proof (u32_range (v - 8)) as He. generalize 10%nat. revert He. generalize (u32 (v - 8)). intros e He n.
  revert e He. induction n as [|n IH]; intros e He; [done|]. cbn [getcallerpcs_loop].
  destruct ((e =? 0) || (e <? KERNBASE) || (e =? 4294967295)) eqn:E; [by rewrite length_replicate|].
  apply orb_false_iff in E as [[_ E1%Z.ltb_ge]%orb_false_iff E2%Z.eqb_neq].
  destruct (Hw e) as [W1 W2]; [lia|]. destruct (IH (word e) (Hr e)) as [I1 I2]. cbn [length]. split; [by rewrite I1|]. rewrite W2, I2. by rewrite W1.
Qed.
