(* ===== verification/SpinlockClaims.v ===== *)
(** * Mutual exclusion

    The invariant of the machine of [Spinlock] and what follows from it, for
    every number of CPUs and locks and every interleaving. *)
From stdpp Require Import gmap.
From S2P Require Import Prelude Spinlock.
Local Open Scope Z_scope.

(** [ncli] counts the locks held and the calls that are between [pushcli] and
    the [xchg], or between the unlocking store and [popcli]. *)
Definition pending (p : pc) : nat :=
  match p with Acq_locked _ | Acq_cpu _ | Acq_spin _ | Pop_flags | Pop_dec => 1 | _ => 0 end.

(** Outside, or where a call that changed nothing yet may be interrupted. *)
Definition calm (x : cpu) : Prop :=
  iflag x = (if ncli x =? 0 then want x else false) /\ (ncli x <> 0 -> intena x = if_bit (want x)).
(** Inside a critical section, or entering or leaving one. *)
Definition quiet (x : cpu) : Prop := iflag x = false /\ intena x = if_bit (want x).

Definition flags_ok (x : cpu) : Prop :=
  match at_pc x with
  | Outside | Push_read _ | Rel_locked _ | Rel_cpu _ => calm x
  | Push_cli _ e => calm x /\ e = iflag x
  | Push_ena _ e => iflag x = false /\ (ncli x = 0 -> e = want x) /\ (ncli x <> 0 -> intena x = if_bit (want x))
  | Halted _ => held x <> [] -> iflag x = false
  | _ => quiet x
  end.

(** Where an interrupt can find a CPU. *)
Definition resumable (f : pc * bool) : Prop :=
  f.2 = true /\ match f.1 with Outside | Push_read _ | Push_cli _ true | Rel_locked _ | Rel_cpu _ => True | _ => False end.

Definition lock_of (p : pc) : option nat :=
  match p with Acq_record l | Rel_clear l | Rel_unlock l => Some l | _ => None end.

Record cpu_ok (n : nat) (x : cpu) : Prop := {
  x_ncli : is_halted (at_pc x) = false -> ncli x = Z.of_nat (length (held x) + pending (at_pc x));
  x_nodup : NoDup (held x);
  x_bound l : l ∈ held x -> (l < n)%nat;
  x_flags : flags_ok x;
  x_frames : Forall resumable (frames x);
  x_own l : lock_of (at_pc x) = Some l -> l ∈ held x;
  x_spin l : at_pc x = Acq_spin l -> l ∉ held x
}.

(** The CPU's name is in the lock from [lk->cpu = mycpu()] to [lk->cpu = 0]. *)
Definition recorded (x : cpu) (l : nat) : Prop := l ∈ held x /\ at_pc x <> Acq_record l /\ at_pc x <> Rel_unlock l.

Record machine_ok (s : machine) : Prop := {
  s_small : Z.of_nat (length (locks s)) < 2 ^ 31 - 1;
  s_cpu c x : cpus s !! c = Some x -> cpu_ok (length (locks s)) x;
  s_excl c c' x x' l : cpus s !! c = Some x -> cpus s !! c' = Some x' -> l ∈ held x -> l ∈ held x' -> c = c';
  s_locked l k : locks s !! l = Some k -> locked k = true <-> exists c x, cpus s !! c = Some x /\ l ∈ held x;
  s_name l k c : locks s !! l = Some k -> lk_cpu k = Some c <-> exists x, cpus s !! c = Some x /\ recorded x l
}.

(** ** One step *)

Section Step.
Context (s : machine) (Hs : machine_ok s) (c : nat) (x : cpu) (Hx : cpus s !! c = Some x).

Lemma cpu_at x' c' y : <[c := x']> (cpus s) !! c' = Some y <-> (c' = c /\ y = x') \/ (c' <> c /\ cpus s !! c' = Some y).
Proof using Hx.
  rewrite list_lookup_insert_Some. apply lookup_lt_Some in Hx. naive_solver.
Qed.

(** A step that touches no lock. *)
Lemma local_ok x' :
  cpu_ok (length (locks s)) x' -> held x' = held x -> (forall l, recorded x' l <-> recorded x l) ->
  machine_ok (set_cpu_at c x' s).
Proof using All.
  intros Hok Hh Hr. destruct Hs as [H1 H2 H3 H4 H5]. split; unfold set_cpu_at; cbn [cpus locks].
  - done.
  - intros c' y [[-> ->]|[_ Hy]]%cpu_at; [done|by eapply H2].
  - intros c1 c2 y1 y2 l Hy1 Hy2 Hl1 Hl2. apply cpu_at in Hy1 as [[-> ->]|[Hn1 Hy1]], Hy2 as [[-> ->]|[Hn2 Hy2]]; rewrite ?Hh in *; try done; by eapply H3.
  - intros l k Hk. rewrite (H4 l k Hk). split; intros (c' & y & Hy & Hl).
    + destruct (decide (c' = c)) as [->|Hne]; [exists c, x'; rewrite cpu_at, Hh; replace y with x in Hl by congruence; auto|].
      exists c', y. rewrite cpu_at. auto.
    + apply cpu_at in Hy as [[-> ->]|[Hne Hy]]; [exists c, x; by rewrite <- Hh|by exists c', y].
  - intros l k c' Hk. rewrite (H5 l k c' Hk). split; intros (y & Hy & Hl).
    + destruct (decide (c' = c)) as [->|Hne]; [exists x'; rewrite cpu_at, Hr; replace y with x in Hl by congruence; auto|].
      exists y. rewrite cpu_at. auto.
    + apply cpu_at in Hy as [[-> ->]|[Hne Hy]]; [exists x; by rewrite <- Hr|by exists y].
Qed.

(** A step of the CPU on lock [l]. *)
Lemma lock_step_ok l k x' k' :
  locks s !! l = Some k -> cpu_ok (length (locks s)) x' ->
  (forall l', l' <> l -> (l' ∈ held x' <-> l' ∈ held x) /\ (recorded x' l' <-> recorded x l')) ->
  (l ∈ held x' -> l ∈ held x \/ locked k = false) ->
  (locked k' = true <-> l ∈ held x' \/ (locked k = true /\ l ∉ held x)) ->
  (forall c', lk_cpu k' = Some c' <-> (c' = c /\ recorded x' l) \/ (c' <> c /\ lk_cpu k = Some c')) ->
  machine_ok (set_cpu_at c x' (set_lock_at l k' s)).
Proof using All.
  intros Hk Hok Hoth Hnew Hlk Hname. destruct Hs as [H1 H2 H3 H4 H5]. split; unfold set_cpu_at, set_lock_at; cbn [cpus locks]; rewrite ?length_insert.
  - done.
  - intros c' y [[-> ->]|[_ Hy]]%cpu_at; [done|by eapply H2].
  - assert (Hx' : forall l' c' y, l' ∈ held x' -> c' <> c -> cpus s !! c' = Some y -> l' ∉ held y).
    { intros l' c' y Hl' Hne Hy Hly. destruct (decide (l' = l)) as [->|Hnl].
      - destruct (Hnew Hl') as [Hin|Hf]; [by apply Hne; eapply H3|]. assert (locked k = true) by (apply (H4 l k Hk); by exists c', y). congruence.
      - apply Hoth in Hl'; [|done]. apply Hne. by eapply H3. }
    intros c1 c2 y1 y2 l' Hy1 Hy2 Hl1 Hl2. apply cpu_at in Hy1 as [[-> ->]|[Hn1 Hy1]], Hy2 as [[-> ->]|[Hn2 Hy2]]; [done| | |by eapply H3];
      exfalso; [by eapply (Hx' l' c2)|by eapply (Hx' l' c1)].
  - intros l' k0 [(<- & <- & _)|[Hne Hk0]]%list_lookup_insert_Some.
    + rewrite Hlk. split.
      * intros [Hin|[Ht Hnin]]; [exists c, x'; rewrite cpu_at; auto|]. apply (H4 l k Hk) in Ht as (c' & y & Hy & Hl).
        destruct (decide (c' = c)) as [->|]; [congruence|]. exists c', y. rewrite cpu_at. auto.
      * intros (c' & y & Hy & Hl). apply cpu_at in Hy as [[-> ->]|[Hne Hy]]; [auto|]. destruct (decide (l ∈ held x')); [auto|right].
        split; [apply (H4 l k Hk); by exists c', y|]. intros Hin. apply Hne. by eapply H3.
    + destruct (Hoth l' (not_eq_sym Hne)) as [Hoh Hor]. rewrite (H4 l' k0 Hk0). split; intros (c' & y & Hy & Hl).
      * destruct (decide (c' = c)) as [->|]; [exists c, x'|exists c', y; rewrite cpu_at; auto].
        rewrite cpu_at. assert (y = x) as -> by congruence. split; [auto|]. by apply Hoh.
      * apply cpu_at in Hy as [[-> ->]|[Hn Hy]]; [exists c, x; split; [done|]; by apply Hoh|by exists c', y].
  - intros l' k0 c' [(<- & <- & _)|[Hne Hk0]]%list_lookup_insert_Some.
    + rewrite Hname. split.
      * intros [[-> Hr]|[Hn Hc]]; [exists x'; rewrite cpu_at; auto|]. apply (H5 l k c' Hk) in Hc as (y & Hy & Hr). exists y. rewrite cpu_at. auto.
      * intros (y & Hy & Hr). apply cpu_at in Hy as [[-> ->]|[Hn Hy]]; [auto|right]. split; [done|]. apply (H5 l k c' Hk). by exists y.
    + destruct (Hoth l' (not_eq_sym Hne)) as [Hoh Hor]. rewrite (H5 l' k0 c' Hk0). split; intros (y & Hy & Hl).
      * destruct (decide (c' = c)) as [->|]; [exists x'|exists y; rewrite cpu_at; auto].
        rewrite cpu_at. assert (y = x) as -> by congruence. split; [auto|]. by apply Hor.
      * apply cpu_at in Hy as [[-> ->]|[Hn Hy]]; [exists x; split; [done|]; by apply Hor|by exists y].
Qed.
End Step.

Lemma held_le n x : cpu_ok n x -> (length (held x) <= n)%nat.
Proof.
  intros H. rewrite <- (length_seq n 0). apply submseteq_length, NoDup_submseteq; [apply H|].
  intros l Hl. apply elem_of_seq. apply (x_bound _ _ H) in Hl. lia.
Qed.

Lemma filter_out_none l (h : list nat) : l ∉ h -> filter (fun l' => l' <> l) h = h.
Proof.
  induction h as [|l' h IH]; [done|]. intros [Hne Hl]%not_elem_of_cons. rewrite filter_cons, decide_True by congruence. by rewrite IH.
Qed.

Lemma filter_out_length l (h : list nat) : NoDup h -> l ∈ h -> length h = S (length (filter (fun l' => l' <> l) h)).
Proof.
  induction 1 as [|l' h Hl' Hnd IH]; [set_solver|]. intros Hl. rewrite filter_cons. destruct (decide (l' = l)) as [->|Hne].
  - rewrite decide_False by naive_solver. simpl. by rewrite filter_out_none.
  - rewrite decide_True by done. simpl. rewrite IH at 1; [done|]. set_solver.
Qed.

(** A CPU that moves from one place to another with the same locks. *)
Lemma move_ok n x x' :
  cpu_ok n x -> is_halted (at_pc x) = false -> held x' = held x -> frames x' = frames x -> flags_ok x' ->
  (is_halted (at_pc x') = false -> ncli x' = ncli x + Z.of_nat (pending (at_pc x')) - Z.of_nat (pending (at_pc x))) ->
  (forall l, lock_of (at_pc x') = Some l -> l ∈ held x) -> (forall l, at_pc x' = Acq_spin l -> l ∉ held x) -> cpu_ok n x'.
Proof.
  intros [H1 H2 H3 H4 H5 H6 H7] Hh Eh Ef Hf Hn Ho Hsp. split; rewrite ?Eh, ?Ef; try done.
  intros Hh'. rewrite Hn, H1 by done. lia.
Qed.

Section Run.
Context (s : machine) (Hs : machine_ok s) (c : nat) (x : cpu) (Hx : cpus s !! c = Some x).
Notation n := (length (locks s)).

Lemma same_recorded x' : held x' = held x -> lock_of (at_pc x) = None -> lock_of (at_pc x') = None ->
  forall l, recorded x' l <-> recorded x l.
Proof using Type.
  intros Eh H1 H2 l. unfold recorded. rewrite Eh. split; intros (Hl & _ & _); (split; [done|]); split; intros E; rewrite E in *; done.
Qed.

(** A move that touches no lock. *)
Lemma local_move x' :
  lock_of (at_pc x) = None -> is_halted (at_pc x) = false -> lock_of (at_pc x') = None -> held x' = held x -> frames x' = frames x ->
  flags_ok x' ->
  (is_halted (at_pc x') = false -> ncli x' = ncli x + Z.of_nat (pending (at_pc x')) - Z.of_nat (pending (at_pc x))) ->
  (forall l, at_pc x' = Acq_spin l -> l ∉ held x) -> machine_ok (set_cpu_at c x' s).
Proof using All.
  intros H1 Hh H2 Eh Ef Hf Hn Hsp. apply (local_ok s Hs c x Hx); [|done|by apply same_recorded].
  eapply move_ok; [by apply (s_cpu _ Hs c x Hx)|try done..]. intros l. by rewrite H2.
Qed.

Lemma ncli_inc : is_halted (at_pc x) = false -> pending (at_pc x) = 0%nat -> s32 (ncli x + 1) = ncli x + 1.
Proof using All.
  intros Hh Hp. pose proof (s_cpu _ Hs c x Hx) as Hok. pose proof (held_le _ _ Hok). pose proof (s_small _ Hs).
  rewrite (x_ncli _ _ Hok Hh), Hp. apply s32_id. lia.
Qed.

Lemma pushcli_ok s' : pushcli c x (at_pc x) s = Some s' -> machine_ok s'.
Proof using All.
  pose proof (x_flags _ _ (s_cpu _ Hs c x Hx)) as Hf. unfold flags_ok in Hf. destruct (at_pc x) eqn:Ep; simpl; try done; intros [= <-].
  - apply local_move; rewrite ?Ep; try done; simpl; lia.
  - apply local_move; rewrite ?Ep; try done; simpl; [|lia]. destruct Hf as [[H1 H2] ->]. unfold flags_ok. simpl.
    split; [done|]. split; [|done]. intros E. by rewrite H1, E.
  - destruct Hf as (H1 & H2 & H3). destruct (Z.eqb_spec (ncli x) 0) as [E|E]; apply local_move; rewrite ?Ep; try done; simpl; try lia;
      unfold flags_ok, quiet; simpl; (split; [done|]); [by rewrite H2|auto].
  - apply local_move; rewrite ?Ep; try done; simpl. rewrite ncli_inc by (by rewrite Ep). lia.
Qed.

Lemma popcli_ok s' : popcli c x (at_pc x) s = Some s' -> machine_ok s'.
Proof using All.
  pose proof (s_cpu _ Hs c x Hx) as Hok. pose proof (x_flags _ _ Hok) as Hf. unfold flags_ok in Hf.
  pose proof (x_ncli _ _ Hok) as Hn. pose proof (held_le _ _ Hok). pose proof (s_small _ Hs).
  destruct (at_pc x) eqn:Ep; simpl; try done; destruct Hf as [H1 H2].
  - rewrite H1. intros [= <-]. apply local_move; rewrite ?Ep; try done; simpl; lia.
  - specialize (Hn eq_refl). simpl in Hn. rewrite s32_id by lia. rewrite (proj2 (Z.ltb_ge _ _)) by lia. intros [= <-].
    apply local_move; rewrite ?Ep; try done; simpl; lia.
  - intros [= <-]. destruct (Z.eqb_spec (ncli x) 0) as [E|E]; [destruct (Z.eqb_spec (intena x) 0) as [E'|E']|]; simpl;
      apply local_move; rewrite ?Ep; try done; simpl; try lia; unfold flags_ok, calm; simpl.
    + rewrite E, H1. split; [|done]. rewrite H2 in E'. by destruct (want x).
    + rewrite E. split; [|done]. rewrite H2 in E'. by destruct (want x).
    + rewrite (proj2 (Z.eqb_neq _ _) E). done.
Qed.

(** The lock [l] is held by no CPU when its word is clear. *)
Lemma not_held l k : locks s !! l = Some k -> locked k = false -> l ∉ held x.
Proof using All.
  intros Hk Hf Hl. assert (locked k = true) by (apply (s_locked _ Hs l k Hk); by exists c, x). congruence.
Qed.

Lemma own_name l k : locks s !! l = Some k -> lk_cpu k = Some c <-> recorded x l.
Proof using All.
  intros Hk. rewrite (s_name _ Hs l k c Hk). split; [|intros Hr; by exists x]. intros (y & Hy & Hr). by replace x with y by congruence.
Qed.

Lemma other_name l k c' : locks s !! l = Some k -> c' <> c -> l ∈ held x -> lk_cpu k <> Some c'.
Proof using All.
  intros Hk Hne Hl Hc. apply (s_name _ Hs l k c' Hk) in Hc as (y & Hy & Hly & _). apply Hne. by eapply (s_excl _ Hs).
Qed.

Lemma acq_spin_ok l s' : at_pc x = Acq_spin l -> acquire_step c x (at_pc x) s = Some s' -> machine_ok s'.
Proof using All.
  intros Ep. pose proof (s_cpu _ Hs c x Hx) as Hok. pose proof (x_flags _ _ Hok) as Hf. pose proof (x_spin _ _ Hok l Ep) as Hl.
  pose proof (x_ncli _ _ Hok) as Hn. unfold flags_ok in Hf. rewrite Ep in *. simpl. destruct (locks s !! l) as [k|] eqn:Ek; simpl; [|done].
  assert (Hnr : lk_cpu k <> Some c) by (rewrite (own_name l k Ek); intros [? _]; done).
  destruct (locked k) eqn:El; intros [= <-].
  - apply (lock_step_ok s Hs c x Hx l k); try done.
    + eapply move_ok; [exact Hok|by rewrite Ep|done..|simpl; rewrite Ep; simpl; lia|done|]. intros l' [= ->]. done.
    + intros l' _. split; [done|]. unfold recorded. simpl. rewrite Ep. naive_solver.
    + simpl. rewrite El. naive_solver.
    + intros c'. simpl. unfold recorded. simpl. split; [|naive_solver]. intros Hc'. right. split; [congruence|done].
  - apply (lock_step_ok s Hs c x Hx l k); try done.
    + destruct Hok as [G1 G2 G3 G4 G5 G6 G7]. specialize (Hn eq_refl). simpl in Hn. split; simpl; try done.
      * lia.
      * by constructor.
      * intros l' [->|Hl']%elem_of_cons; [by eapply lookup_lt_Some|auto].
      * intros l' [= ->]. by left.
    + intros l' Hne. simpl. unfold recorded. simpl. rewrite Ep, elem_of_cons. split; [naive_solver|]. naive_solver.
    + simpl. intros _. by right.
    + simpl. rewrite elem_of_cons. naive_solver.
    + intros c'. simpl. unfold recorded. simpl. split; [intros Hc'; right; split; [congruence|done]|naive_solver].
Qed.

Lemma acquire_step_ok s' : acquire_step c x (at_pc x) s = Some s' -> machine_ok s'.
Proof using All.
  pose proof (s_cpu _ Hs c x Hx) as Hok. pose proof (x_flags _ _ Hok) as Hf. unfold flags_ok in Hf.
  destruct (at_pc x) eqn:Ep; try done; [| |rewrite <- Ep; by apply (acq_spin_ok l)|]; simpl; destruct (locks s !! l) as [k|] eqn:Ek; simpl; try done.
  - intros [= <-]. destruct (locked k) eqn:El; apply local_move; rewrite ?Ep; try done; simpl; try lia.
    intros l' [= ->]. by eapply not_held.
  - destruct Hf as [H1 H2]. rewrite H1. case_bool_decide as Hc; intros [= <-]; apply local_move; rewrite ?Ep; try done; simpl; try lia.
    { by intros _. }
    intros l' [= ->] Hl'. apply Hc, (own_name l' k Ek). unfold recorded. by rewrite Ep.
  - intros [= <-]. pose proof (x_own _ _ Hok l) as Hl. rewrite Ep in Hl. specialize (Hl eq_refl).
    apply (lock_step_ok s Hs c x Hx l k); try done.
    + eapply move_ok; [exact Hok|by rewrite Ep|try done..]; simpl; rewrite ?Ep; simpl; [|lia]. unfold flags_ok, calm; simpl. destruct Hf as [-> ->].
      split; [|done]. destruct (Z.eqb_spec (ncli x) 0) as [E|]; [|done]. pose proof (x_ncli _ _ Hok) as Hn. rewrite Ep in Hn. specialize (Hn eq_refl).
      destruct (held x); [set_solver|]. simpl in Hn. lia.
    + intros l' Hne. split; [done|]. unfold recorded. simpl. rewrite Ep. naive_solver.
    + simpl. auto.
    + simpl. assert (locked k = true) by (apply (s_locked _ Hs l k Ek); by exists c, x). naive_solver.
    + intros c'. simpl. unfold recorded. simpl. split; [intros [= <-]; left; by split_and!|].
      intros [[-> _]|[Hne Hc']]; [done|]. by apply (other_name l k c' Ek Hne Hl) in Hc'.
Qed.

Lemma calm_off : is_halted (at_pc x) = false -> held x <> [] -> calm x -> iflag x = false /\ intena x = if_bit (want x).
Proof using All.
  intros Hh Hne [H1 H2]. pose proof (x_ncli _ _ (s_cpu _ Hs c x Hx) Hh) as Hn.
  assert (E : ncli x <> 0) by (destruct (held x); [done|simpl in Hn; lia]). rewrite H1, (proj2 (Z.eqb_neq _ _) E). auto.
Qed.

Lemma rel_unlock_ok l s' : at_pc x = Rel_unlock l -> release_step c x (at_pc x) s = Some s' -> machine_ok s'.
Proof using All.
  intros Ep. pose proof (s_cpu _ Hs c x Hx) as Hok. pose proof (x_flags _ _ Hok) as Hf. unfold flags_ok in Hf.
  pose proof (x_own _ _ Hok l) as Hl. pose proof (x_ncli _ _ Hok) as Hn. rewrite Ep in *. specialize (Hl eq_refl). specialize (Hn eq_refl). simpl in Hn |- *.
  destruct (locks s !! l) as [k|] eqn:Ek; simpl; [|done]. intros [= <-].
  assert (Hnc : forall c', lk_cpu k <> Some c').
  { intros c' Hc'. destruct (decide (c' = c)) as [->|Hne]; [|by apply (other_name l k c' Ek Hne Hl) in Hc'].
    apply (own_name l k Ek) in Hc' as (_ & _ & H3). done. }
  apply (lock_step_ok s Hs c x Hx l k); try done; simpl.
  - destruct Hok as [G1 G2 G3 G4 G5 G6 G7]. split; simpl; try done.
    + intros _. pose proof (filter_out_length l (held x) G2 Hl). lia.
    + by apply NoDup_filter.
    + intros l' [_ Hl']%list_elem_of_filter. auto.
  - intros l' Hne. unfold recorded. simpl. rewrite Ep, list_elem_of_filter. split; [naive_solver|]. naive_solver.
  - rewrite list_elem_of_filter. naive_solver.
  - rewrite list_elem_of_filter. naive_solver.
  - intros c'. unfold recorded. simpl. rewrite list_elem_of_filter. split; [by intros Hc'%Hnc|]. intros [[_ [[? _] _]]|[_ Hc']]; [done|by apply Hnc in Hc'].
Qed.

Lemma release_step_ok s' : release_step c x (at_pc x) s = Some s' -> machine_ok s'.
Proof using All.
  pose proof (s_cpu _ Hs c x Hx) as Hok. pose proof (x_flags _ _ Hok) as Hf. unfold flags_ok in Hf.
  assert (Hoff : is_halted (at_pc x) = false -> calm x -> forall msg, flags_ok (set_pc (Halted msg) x)).
  { intros Hh Hc msg Hne. by apply calm_off. }
  destruct (at_pc x) eqn:Ep; try done; [| | |rewrite <- Ep; by apply (rel_unlock_ok l)]; simpl; destruct (locks s !! l) as [k|] eqn:Ek; simpl; try done.
  - destruct (locked k); intros [= <-]; apply local_move; rewrite ?Ep; try done; simpl; [lia|by apply Hoff].
  - destruct (iflag x) eqn:Ei; [intros [= <-]; apply local_move; rewrite ?Ep; try done; by apply Hoff|].
    case_bool_decide as Hc; intros [= <-]; [|apply local_move; rewrite ?Ep; try done; by apply Hoff].
    apply (own_name l k Ek) in Hc as [Hl _]. apply (local_ok s Hs c x Hx); [|done|].
    + eapply move_ok; [exact Hok|by rewrite Ep|try done..]; simpl; rewrite ?Ep; simpl; [|lia|by intros l' [= <-]].
      apply calm_off; [by rewrite Ep|intros E; rewrite E in Hl; set_solver|done].
    + intros l'. unfold recorded. simpl. rewrite Ep. naive_solver.
  - intros [= <-]. pose proof (x_own _ _ Hok l) as Hl. rewrite Ep in Hl. specialize (Hl eq_refl).
    apply (lock_step_ok s Hs c x Hx l k); try done; simpl.
    + eapply move_ok; [exact Hok|by rewrite Ep|try done..]; simpl; rewrite ?Ep; simpl; [lia|by intros l' [= <-]].
    + intros l' Hne. split; [done|]. unfold recorded. simpl. rewrite Ep. naive_solver.
    + auto.
    + assert (locked k = true) by (apply (s_locked _ Hs l k Ek); by exists c, x). naive_solver.
    + intros c'. unfold recorded. simpl. split; [done|]. intros [(_ & _ & _ & ?)|[Hne Hc']]; [done|]. by apply (other_name l k c' Ek Hne Hl) in Hc'.
Qed.

Lemma run_step_ok s' : run_step c x s = Some s' -> machine_ok s'.
Proof using All.
  unfold run_step. pose proof pushcli_ok. pose proof acquire_step_ok. pose proof release_step_ok. pose proof popcli_ok.
  destruct (at_pc x); eauto; done.
Qed.

(** Interrupts are on only where nothing has been changed yet. *)
Lemma interruptible : iflag x = true -> is_halted (at_pc x) = false ->
  ncli x = 0 /\ want x = true /\ resumable (at_pc x, true) /\ lock_of (at_pc x) = None /\ pending (at_pc x) = 0%nat.
Proof using All.
  intros Hi Hh. pose proof (x_flags _ _ (s_cpu _ Hs c x Hx)) as Hf. unfold flags_ok, calm, quiet in Hf. rewrite Hi in Hf.
  destruct (at_pc x); try done; destruct_and?; try done;
    (destruct (Z.eqb_spec (ncli x) 0); [|done]); subst; (split; [done|]); (split; [done|]); done.
Qed.

Lemma interrupt_ok : iflag x = true -> is_halted (at_pc x) = false ->
  machine_ok (set_cpu_at c (set_frames ((at_pc x, want x) :: frames x) (set_want false (set_iflag false (set_pc Outside x)))) s).
Proof using All.
  intros Hi Hh. destruct (interruptible Hi Hh) as (H1 & H2 & H3 & H4 & H5). pose proof (s_cpu _ Hs c x Hx) as Hok.
  apply (local_ok s Hs c x Hx); [|done|by apply same_recorded]. destruct Hok as [G1 G2 G3 G4 G5 G6 G7]. split; simpl; try done.
  - intros _. rewrite G1, H5 by done. done.
  - unfold flags_ok, calm. simpl. rewrite H1. done.
  - constructor; [|done]. by rewrite H2.
Qed.

Lemma iret_ok p w fs : frames x = (p, w) :: fs -> at_pc x = Outside -> ncli x = 0 ->
  machine_ok (set_cpu_at c (set_frames fs (set_want w (set_iflag true (set_pc p x)))) s).
Proof using All.
  intros Ef Ep En. pose proof (s_cpu _ Hs c x Hx) as Hok. destruct Hok as [G1 G2 G3 G4 G5 G6 G7]. rewrite Ep in *.
  rewrite Ef in G5. apply Forall_cons in G5 as [[Hw Hp] G5]. simpl in Hw, Hp. subst w. specialize (G1 eq_refl). simpl in G1.
  apply (local_ok s Hs c x Hx); [|done|apply same_recorded; [done|by rewrite Ep|simpl; by destruct p]]. split; simpl; try done.
  - intros _. rewrite G1. destruct p; done.
  - unfold flags_ok, calm. simpl. rewrite En. destruct p; try done. by destruct eflags.
  - destruct p; done.
  - intros l ->. done.
Qed.

Lemma cpu_step_ok e s' : cpu_step c e s = Some s' -> machine_ok s'.
Proof using All.
  pose proof (x_flags _ _ (s_cpu _ Hs c x Hx)) as Hf. unfold cpu_step. rewrite Hx. simpl. destruct e as [l|l|b| | |].
  - destruct (at_pc x) eqn:Ep; simpl; try done. case_match; intros [= <-]. unfold flags_ok in Hf. rewrite Ep in Hf.
    apply local_move; rewrite ?Ep; try done; simpl; lia.
  - destruct (at_pc x) eqn:Ep; simpl; try done. case_match; intros [= <-]. unfold flags_ok in Hf. rewrite Ep in Hf.
    apply local_move; rewrite ?Ep; try done; simpl; lia.
  - destruct (at_pc x) eqn:Ep; simpl; try done. destruct (Z.eqb_spec (ncli x) 0) as [E|]; intros [= <-].
    apply local_move; simpl; rewrite ?Ep; try done; [|simpl; lia]. unfold flags_ok, calm. simpl. by rewrite Ep, E.
  - destruct (iflag x) eqn:Ei, (is_halted (at_pc x)) eqn:Eh; simpl; try done. intros [= <-]. by apply interrupt_ok.
  - destruct (frames x) as [|[p w] fs] eqn:Ef; [done|]. destruct (at_pc x) eqn:Ep; simpl; try done.
    destruct (Z.eqb_spec (ncli x) 0) as [E|]; intros [= <-]. by apply iret_ok.
  - apply run_step_ok.
Qed.
End Run.

Lemma boot_ok flags n : Z.of_nat n < 2 ^ 31 - 1 -> machine_ok (boot flags n).
Proof.
  intros Hn. assert (Hc : forall c x, (boot_cpu <$> flags) !! c = Some x -> exists b, x = boot_cpu b).
  { intros c x Hx. rewrite list_lookup_fmap in Hx. destruct (flags !! c) as [b|]; [|done]. injection Hx as <-. by exists b. }
  split; unfold boot; cbn [cpus locks]; rewrite ?length_replicate.
  - done.
  - intros c x [b ->]%Hc. split; simpl; try done; [apply NoDup_nil_2|set_solver].
  - intros c c' x x' l [b ->]%Hc _ Hl. simpl in Hl. set_solver.
  - intros l k [-> _]%lookup_replicate. simpl. split; [done|]. intros (c & x & [b ->]%Hc & Hl). simpl in Hl. set_solver.
  - intros l k c [-> _]%lookup_replicate. simpl. split; [done|]. intros (x & [b ->]%Hc & Hl & _). simpl in Hl. set_solver.
Qed.

Lemma run_events_ok es s s' : machine_ok s -> run_events es s = Some s' -> machine_ok s'.
Proof.
  revert s. induction es as [|[c e] es IH]; simpl; intros s Hs; [by intros [= <-]|].
  destruct (cpu_step c e s) as [s1|] eqn:E; simpl; [|done]. apply IH. unfold cpu_step in E. destruct (cpus s !! c) as [x|] eqn:Ex; [|done].
  apply (cpu_step_ok s Hs c x Ex e). unfold cpu_step. by rewrite Ex.
Qed.

(** ** Code that keeps the rules never panics *)

(** A CPU does not acquire a lock that it holds and releases only what it holds. *)
Definition keeps_rules (c : nat) (e : event) (s : machine) : bool :=
  match cpus s !! c, e with
  | Some x, Call_acquire l => bool_decide (l ∉ held x)
  | Some x, Call_release l => bool_decide (l ∈ held x)
  | _, _ => true
  end.

Fixpoint rules_kept (es : list (nat * event)) (s : machine) : bool :=
  match es with
  | [] => true
  | (c, e) :: es' => keeps_rules c e s && match cpu_step c e s with Some s' => rules_kept es' s' | None => true end
  end.

Definition acquiring (p : pc) : option nat :=
  match p with Push_read l | Push_cli l _ | Push_ena l _ | Push_inc l | Acq_locked l | Acq_cpu l | Acq_spin l => Some l | _ => None end.
Definition releasing (p : pc) : option nat := match p with Rel_locked l | Rel_cpu l => Some l | _ => None end.

Record obedient (x : cpu) : Prop := {
  o_acq l : acquiring (at_pc x) = Some l -> l ∉ held x;
  o_rel l : releasing (at_pc x) = Some l -> l ∈ held x;
  o_frames : Forall (fun f => releasing f.1 = None) (frames x);
  o_halt : is_halted (at_pc x) = false
}.

Section Obey.
Context (s : machine) (Hs : machine_ok s) (c : nat) (x : cpu) (Hx : cpus s !! c = Some x) (Ho : obedient x).

Definition obeys (s' : machine) : Prop := exists x', cpus s' = <[c := x']> (cpus s) /\ obedient x'.

Lemma goto_obeys y p s1 s' :
  cpus s1 = cpus s -> held y = held x -> frames y = frames x -> is_halted p = false ->
  (forall l, acquiring p = Some l -> acquiring (at_pc x) = Some l) ->
  (forall l, releasing p = Some l -> releasing (at_pc x) = Some l) -> goto c y p s1 = Some s' -> obeys s'.
Proof using Ho.
  intros Ec Eh Ef Hh Ha Hr [= <-]. destruct Ho as [H1 H2 H3 H4]. eexists. split; [simpl; by rewrite Ec|].
  split; simpl; rewrite ?Eh, ?Ef; auto.
Qed.

(** The tests of [holding] and [popcli] come out as they should. *)
Lemma obey_tests l k : locks s !! l = Some k ->
  (at_pc x = Acq_cpu l -> iflag x = false /\ lk_cpu k <> Some c) /\
  (releasing (at_pc x) = Some l -> locked k = true /\ iflag x = false /\ lk_cpu k = Some c).
Proof using All.
  intros Hk. destruct Ho as [H1 H2 H3 H4]. pose proof (x_flags _ _ (s_cpu _ Hs c x Hx)) as Hf. unfold flags_ok in Hf.
  rewrite (own_name s Hs c x Hx l k Hk). split.
  - intros Ep. rewrite Ep in *. split; [apply Hf|]. intros [Hl _]. by apply (H1 l).
  - intros Hr. pose proof (H2 l Hr) as Hl. split; [apply (s_locked _ Hs l k Hk); by exists c, x|].
    assert (Hc : calm x) by (destruct (at_pc x); try done). split.
    + apply (calm_off s Hs c x Hx); [done| |done]. intros E. rewrite E in Hl. set_solver.
    + split; [done|]. destruct (at_pc x); done.
Qed.

Lemma obey_acquire s' : acquire_step c x (at_pc x) s = Some s' -> obeys s'.
Proof using All.
  destruct (at_pc x) eqn:Ep; try done; simpl; (destruct (locks s !! l) as [k|] eqn:Ek; simpl; [|done]); destruct (obey_tests l k Ek) as [T _].
  - apply goto_obeys; rewrite ?Ep; try done; by destruct (locked k).
  - destruct (T Ep) as [-> T2]. rewrite bool_decide_false by done. apply goto_obeys; rewrite ?Ep; done.
  - destruct (locked k); [apply goto_obeys; rewrite ?Ep; done|]. intros [= <-]. eexists. split; [done|].
    split; simpl; try done. apply Ho.
  - apply goto_obeys; rewrite ?Ep; done.
Qed.

Lemma obey_release s' : release_step c x (at_pc x) s = Some s' -> obeys s'.
Proof using All.
  destruct (at_pc x) eqn:Ep; try done; simpl; (destruct (locks s !! l) as [k|] eqn:Ek; simpl; [|done]); destruct (obey_tests l k Ek) as [_ T];
    rewrite ?Ep in T.
  - destruct T as (-> & _ & _); [done|]. apply goto_obeys; rewrite ?Ep; done.
  - destruct T as (_ & -> & ->); [done|]. rewrite bool_decide_true by done. apply goto_obeys; rewrite ?Ep; done.
  - apply goto_obeys; rewrite ?Ep; done.
  - intros [= <-]. eexists. split; [done|]. split; simpl; try done. apply Ho.
Qed.

Lemma obey_popcli s' : popcli c x (at_pc x) s = Some s' -> obeys s'.
Proof using All.
  pose proof (s_cpu _ Hs c x Hx) as Hok. pose proof (x_flags _ _ Hok) as Hf. pose proof (x_ncli _ _ Hok) as Hn.
  pose proof (held_le _ _ Hok). pose proof (s_small _ Hs). unfold flags_ok in Hf.
  destruct (at_pc x) eqn:Ep; try done; simpl.
  - destruct Hf as [-> _]. apply goto_obeys; rewrite ?Ep; done.
  - specialize (Hn eq_refl). simpl in Hn. rewrite s32_id by lia. rewrite (proj2 (Z.ltb_ge _ _)) by lia. apply goto_obeys; rewrite ?Ep; done.
  - apply goto_obeys; rewrite ?Ep; try done; by case_match.
Qed.

Lemma obey_step e s' : keeps_rules c e s = true -> cpu_step c e s = Some s' -> obeys s'.
Proof using All.
  unfold keeps_rules, cpu_step. rewrite Hx. simpl. destruct Ho as [O1 O2 O3 O4]. destruct e as [l|l|b| | |].
  - intros Hl%bool_decide_eq_true. destruct (at_pc x); simpl; try done. case_match; intros [= <-]. eexists. split; [done|].
    split; simpl; try done. by intros l' [= <-].
  - intros Hl%bool_decide_eq_true. destruct (at_pc x); simpl; try done. case_match; intros [= <-]. eexists. split; [done|].
    split; simpl; try done. by intros l' [= <-].
  - intros _. destruct (at_pc x) eqn:Ep; simpl; try done. case_match; intros [= <-]. eexists. split; [done|]. split; simpl; rewrite ?Ep; done.
  - intros _. destruct (iflag x) eqn:Ei; simpl; [|done]. rewrite O4. simpl. intros [= <-]. eexists. split; [done|]. split; simpl; try done.
    constructor; [|done]. simpl. destruct (releasing (at_pc x)) as [l|] eqn:Er; [|done]. exfalso. pose proof (O2 l eq_refl) as Hl.
    destruct (interruptible s Hs c x Hx Ei O4) as (H1 & _ & _ & _ & H5). pose proof (x_ncli _ _ (s_cpu _ Hs c x Hx) O4) as Hn.
    destruct (held x); [set_solver|simpl in Hn; lia].
  - intros _. destruct (frames x) as [|[p w] fs] eqn:Ef; [done|]. destruct (at_pc x) eqn:Ep; simpl; try done.
    destruct (Z.eqb_spec (ncli x) 0) as [E|]; intros [= <-]. pose proof (s_cpu _ Hs c x Hx) as Hok.
    pose proof (x_ncli _ _ Hok) as Hn. pose proof (x_frames _ _ Hok) as Hr. rewrite Ep in Hn. specialize (Hn eq_refl). simpl in Hn.
    rewrite Ef in Hr. apply Forall_cons in Hr as [[_ Hp] _]. apply Forall_cons in O3 as [Hp' O3]. simpl in Hp, Hp'.
    eexists. split; [done|]. split; simpl; try done.
    + intros l _ Hl. destruct (held x); [set_solver|simpl in Hn; lia].
    + intros l. by rewrite Hp'.
    + destruct p; done.
  - intros _. unfold run_step. pose proof obey_acquire. pose proof obey_release. pose proof obey_popcli.
    destruct (at_pc x) eqn:Ep; eauto; try done; simpl; apply goto_obeys; rewrite ?Ep; try done; by case_match.
Qed.
End Obey.

Lemma rules_obeyed es s s' :
  machine_ok s -> (forall c x, cpus s !! c = Some x -> obedient x) -> rules_kept es s = true -> run_events es s = Some s' ->
  forall c x, cpus s' !! c = Some x -> obedient x.
Proof.
  revert s. induction es as [|[c e] es IH]; simpl; intros s Hs Ho; [by intros _ [= <-]|].
  intros [Hr Hk]%andb_true_iff. destruct (cpu_step c e s) as [s1|] eqn:E; simpl; [|done]. apply IH; [| |done].
  - by eapply (run_events_ok [(c, e)]); [|simpl; rewrite E].
  - destruct (cpus s !! c) as [x|] eqn:Ex; [|unfold cpu_step in E; by rewrite Ex in E].
    destruct (obey_step s Hs c x Ex (Ho c x Ex) e s1 Hr E) as (x' & Ec & Ho'). intros c' y Hy. rewrite Ec in Hy.
    apply (cpu_at s c x Ex) in Hy as [[-> ->]|[_ Hy]]; [done|by eapply Ho].
Qed.

(** ** A CPU that runs alone *)

Section Alone.
Context (s : machine) (c l : nat) (Hc : (c < length (cpus s))%nat) (Hl : (l < length (locks s))%nat).

Definition with_cpu_lock (x : cpu) (k : spinlock) : machine := set_cpu_at c x (set_lock_at l k s).

Lemma alone_cpu x k : cpus (with_cpu_lock x k) !! c = Some x.
Proof using Hc. apply list_lookup_insert_eq. done. Qed.
Lemma alone_lock (k : spinlock) : <[l := k]> (locks s) !! l = Some k.
Proof using Hl. apply list_lookup_insert_eq. done. Qed.
Lemma alone_set_cpu x k y : set_cpu_at c y (with_cpu_lock x k) = with_cpu_lock y k.
Proof using Type. unfold with_cpu_lock, set_cpu_at. simpl. by rewrite list_insert_insert_eq. Qed.
Lemma alone_set_lock x k j : set_lock_at l j (with_cpu_lock x k) = with_cpu_lock x j.
Proof using Type. unfold with_cpu_lock, set_lock_at, set_cpu_at. simpl. by rewrite list_insert_insert_eq. Qed.
Lemma alone_length (k : spinlock) : (l <? length (<[l := k]> (locks s)))%nat = true.
Proof using Hl. apply Nat.ltb_lt. by rewrite length_insert. Qed.

Lemma run_cons c' e es s1 s2 s3 : cpu_step c' e s1 = Some s2 -> run_events es s2 = Some s3 -> run_events ((c', e) :: es) s1 = Some s3.
Proof using Type. intros E. simpl. by rewrite E. Qed.

Ltac alone := eapply run_cons; [unfold cpu_step; rewrite alone_cpu; simpl; unfold run_step; simpl; rewrite ?alone_length, ?alone_lock; simpl;
  rewrite ?bool_decide_true by done; unfold goto; simpl; rewrite ?alone_set_lock, ?alone_set_cpu; reflexivity|];
  unfold set_pc, set_iflag, set_intena, set_ncli, set_cpu_held; cbn [replicate at_pc ncli intena iflag frames held want locked lk_cpu].

(** [acquire] of a free lock returns with the lock. *)
Lemma acquire_alone n i f fr h w o :
  run_events ((c, Call_acquire l) :: replicate 7 (c, Run)) (with_cpu_lock (mkCpu Outside n i f fr h w) (mkSpin false o)) =
  Some (with_cpu_lock (mkCpu Outside (s32 (n + 1)) (if n =? 0 then if_bit f else i) false fr (l :: h) w) (mkSpin true (Some c))).
Proof using Hc Hl. do 4 alone. destruct (n =? 0); cbn [at_pc ncli intena iflag frames held want]; do 4 alone; reflexivity. Qed.

(** [release] of a lock that is held returns without it. *)
Lemma release_alone n i fr h w :
  0 <= s32 (n - 1) ->
  run_events ((c, Call_release l) :: replicate 7 (c, Run)) (with_cpu_lock (mkCpu Outside n i false fr h w) (mkSpin true (Some c))) =
  Some (with_cpu_lock (mkCpu Outside (s32 (n - 1)) i ((s32 (n - 1) =? 0) && negb (i =? 0)) fr (filter (fun l' => l' <> l) h) w) (mkSpin false None)).
Proof using Hc Hl.
  intros Hn. apply Z.ltb_ge in Hn. do 6 alone. eapply run_cons.
  { unfold cpu_step. rewrite alone_cpu. simpl. unfold run_step. simpl. rewrite Hn. unfold goto. simpl. rewrite alone_set_cpu. reflexivity. }
  destruct (s32 (n - 1) =? 0) eqn:E, (i =? 0) eqn:E'; cbn [andb negb replicate]; (eapply run_cons; [|reflexivity]);
  unfold cpu_step; rewrite alone_cpu; simpl; unfold run_step; simpl; rewrite E, ?E'; simpl; unfold goto; simpl; by rewrite alone_set_cpu.
Qed.
End Alone.

Lemma at_set (s : machine) c l x k : cpus s !! c = Some x -> locks s !! l = Some k -> with_cpu_lock s c l x k = s.
Proof.
  intros Hx Hk. destruct s as [cs ls]. unfold with_cpu_lock, set_cpu_at, set_lock_at. simpl in *. by rewrite !list_insert_id.
Qed.

Lemma alone_calm c x s : machine_ok s -> cpus s !! c = Some x -> at_pc x = Outside -> calm x /\ ncli x = Z.of_nat (length (held x)).
Proof.
  intros Hs Hx Ep. pose proof (s_cpu _ Hs c x Hx) as Hok. pose proof (x_flags _ _ Hok) as Hf. pose proof (x_ncli _ _ Hok) as Hn.
  unfold flags_ok in Hf. rewrite Ep in Hf, Hn. split; [done|]. rewrite Hn by done. simpl. lia.
Qed.

(** ** The claims *)

(** C15: however the CPUs interleave and wherever interrupts arrive, no lock is
    held by two CPUs; a CPU that holds a lock has interrupts off; outside the
    routines [ncli] is the number of locks held, and once none is, the
    interrupt flag is what the code had set; and no CPU panics as long as none
    acquires a lock it holds or releases one it does not. *)
Theorem spin_mutex flags nlocks es s :
  Z.of_nat nlocks < 2 ^ 31 - 1 -> run_events es (boot flags nlocks) = Some s ->
  (forall c c' x x' l, cpus s !! c = Some x -> cpus s !! c' = Some x' -> l ∈ held x -> l ∈ held x' -> c = c') /\
  (forall c x, cpus s !! c = Some x -> held x <> [] -> iflag x = false) /\
  (forall c x, cpus s !! c = Some x -> at_pc x = Outside -> ncli x = Z.of_nat (length (held x)) /\ (held x = [] -> iflag x = want x)) /\
  (rules_kept es (boot flags nlocks) = true -> forall c x, cpus s !! c = Some x -> is_halted (at_pc x) = false).
Proof.
  intros Hn Hrun. pose proof (boot_ok flags nlocks Hn) as Hb. pose proof (run_events_ok _ _ _ Hb Hrun) as Hs. split; [apply Hs|]. split; [|split].
  - intros c x Hx Hne. destruct (iflag x) eqn:Ei; [|done]. pose proof (s_cpu _ Hs c x Hx) as Hok. destruct (is_halted (at_pc x)) eqn:Eh.
    + pose proof (x_flags _ _ Hok) as Hf. unfold flags_ok in Hf. destruct (at_pc x); try done. rewrite <- Ei. by apply Hf.
    + destruct (interruptible s Hs c x Hx Ei Eh) as (H1 & _). pose proof (x_ncli _ _ Hok Eh) as Hl. destruct (held x); [done|simpl in Hl; lia].
  - intros c x Hx Ep. destruct (alone_calm c x s Hs Hx Ep) as [[H1 _] H2]. split; [done|]. intros E. rewrite H1, H2, E. done.
  - intros Hr c x Hx. eapply (rules_obeyed es); [exact Hb| |done|done|exact Hx]. intros c' y Hy. unfold boot in Hy. simpl in Hy.
    rewrite list_lookup_fmap in Hy. destruct (flags !! c'); [|done]. injection Hy as <-. split; done.
Qed.

(** CPU 0 is interrupted in [pushcli] and its handler takes lock 1; CPU 1 spins
    on lock 0 meanwhile. *)
Definition demo_events : list (nat * event) :=
  [(0, Call_acquire 0); (0, Run); (0, Interrupt); (0, Call_acquire 1)]%nat ++ replicate 7 (0%nat, Run) ++
  [(0, Call_release 1)]%nat ++ replicate 7 (0%nat, Run) ++ [(0, Iret)]%nat ++ replicate 6 (0%nat, Run) ++
  [(1, Call_acquire 0)]%nat ++ replicate 9 (1%nat, Run).

Lemma spin_mutex_witness :
  exists s, run_events demo_events (boot [true; true] 2) = Some s /\
    (forall c c' x x' l, cpus s !! c = Some x -> cpus s !! c' = Some x' -> l ∈ held x -> l ∈ held x' -> c = c') /\
    rules_kept demo_events (boot [true; true] 2) = true /\ (forall c x, cpus s !! c = Some x -> is_halted (at_pc x) = false).
Proof.
  eexists. assert (E : run_events demo_events (boot [true; true] 2) = Some _) by (vm_compute; reflexivity). split; [exact E|].
  destruct (spin_mutex [true; true] 2 demo_events _ ltac:(vm_compute; reflexivity) E) as (H1 & _ & _ & H4). split; [exact H1|].
  assert (R : rules_kept demo_events (boot [true; true] 2) = true) by (vm_compute; reflexivity). split; [exact R|]. exact (H4 R).
Defined.

(** C39: in every state that can be reached, a CPU that is outside the routines
    and acquires a free lock has it after seven steps, and when it releases it
    at once, is back after seven steps with the locks, the depth and the
    interrupt flag that it had; no other CPU is affected. *)
Theorem spin_progress flags nlocks es s c x l k :
  Z.of_nat nlocks < 2 ^ 31 - 1 -> run_events es (boot flags nlocks) = Some s ->
  cpus s !! c = Some x -> at_pc x = Outside -> locks s !! l = Some k -> locked k = false ->
  exists s1 x1 s2 x2,
    run_events ((c, Call_acquire l) :: replicate 7 (c, Run)) s = Some s1 /\ cpus s1 !! c = Some x1 /\
    at_pc x1 = Outside /\ held x1 = l :: held x /\ iflag x1 = false /\
    run_events ((c, Call_release l) :: replicate 7 (c, Run)) s1 = Some s2 /\ cpus s2 !! c = Some x2 /\
    at_pc x2 = Outside /\ held x2 = held x /\ ncli x2 = ncli x /\ iflag x2 = iflag x /\ (forall c', c' <> c -> cpus s2 !! c' = cpus s !! c').
Proof.
  intros Hn Hrun Hx Ep Hk Hf. pose proof (run_events_ok _ _ _ (boot_ok flags nlocks Hn) Hrun) as Hs.
  destruct (alone_calm c x s Hs Hx Ep) as [[H1 H2] H3]. pose proof (not_held s Hs c x Hx l k Hk Hf) as Hnl.
  pose proof (held_le _ _ (s_cpu _ Hs c x Hx)). pose proof (s_small _ Hs). pose proof (lookup_lt_Some _ _ _ Hx) as Hc. pose proof (lookup_lt_Some _ _ _ Hk) as Hl.
  pose proof (acquire_alone s c l Hc Hl (ncli x) (intena x) (iflag x) (frames x) (held x) (want x) (lk_cpu k)) as E1.
  rewrite s32_id in E1 by lia.
  pose proof (release_alone s c l Hc Hl (ncli x + 1) (if ncli x =? 0 then if_bit (iflag x) else intena x) (frames x) (l :: held x) (want x)) as E2.
  replace (ncli x + 1 - 1) with (ncli x) in E2 by lia. rewrite s32_id in E2 by lia.
  replace (mkSpin false (lk_cpu k)) with k in E1 by (destruct k; simpl in *; by subst).
  replace (mkCpu Outside (ncli x) (intena x) (iflag x) (frames x) (held x) (want x)) with x in E1 by (destruct x; simpl in *; by subst).
  rewrite (at_set s c l x k Hx Hk) in E1.
  eexists _, _, _, _. split; [exact E1|]. split; [by apply alone_cpu|]. do 3 (split; [done|]). split; [apply E2; lia|]. split; [by apply alone_cpu|].
  simpl. split; [done|]. split; [rewrite filter_cons, decide_False by naive_solver; by apply filter_out_none|]. split; [done|]. split.
  - rewrite H1. destruct (ncli x =? 0) eqn:E; [|done]. by destruct (want x).
  - intros c' Hne. by rewrite list_lookup_insert_ne.
Qed.

Lemma spin_progress_witness :
  exists s1 x1 s2 x2,
    run_events ((0%nat, Call_acquire 1) :: replicate 7 (0%nat, Run)) (boot [true; true] 2) = Some s1 /\ cpus s1 !! 0%nat = Some x1 /\
    at_pc x1 = Outside /\ held x1 = [1%nat] /\ iflag x1 = false /\
    run_events ((0%nat, Call_release 1) :: replicate 7 (0%nat, Run)) s1 = Some s2 /\ cpus s2 !! 0%nat = Some x2 /\
    at_pc x2 = Outside /\ held x2 = [] /\ ncli x2 = 0 /\ iflag x2 = true /\ (forall c', c' <> 0%nat -> cpus s2 !! c' = [boot_cpu true; boot_cpu true] !! c').
Proof.
  exact (spin_progress [true; true] 2 [] (boot [true; true] 2) 0 (boot_cpu true) 1 initlock ltac:(vm_compute; reflexivity) eq_refl eq_refl eq_refl eq_refl eq_refl).
Defined.
