(* ===== verification/Sleeplock.v ===== *)
(** * Sleep locks

    [sleeplock.c] with the [sleep] and [wakeup] it calls: any number of
    processes acquire, test and release one sleep lock, in any interleaving of
    the steps between the acquisitions and releases of the two spin locks that
    are involved, [lk->lk] and [ptable.lock].  A spin lock is its owner, which
    is what the theorems of [SpinlockClaims] allow.  [kill] may make a sleeping
    process runnable at any time.

    The state records besides who has the sleep lock and who is about to wake
    the sleepers; no step reads it. *)
From stdpp Require Import gmap.
From S2P Require Import Prelude.
Local Open Scope nat_scope.

(** Where a process is.  [Away] and [Inside]: not in a routine, without and
    with the lock.  In [acquiresleep]: before [acquire(&lk->lk)], before the
    test of [locked], before the stores to [locked] and [pid], before
    [release(&lk->lk)].  In [sleep]: before [acquire(&ptable.lock)], before
    [release(lk)], before the stores that make it [SLEEPING], asleep, runnable
    again, back from [sched] with [ptable.lock].  In [releasesleep]: before
    [acquire], before the stores, in [wakeup] before [ptable.lock], before
    [wakeup1], before it gives [ptable.lock] up, before [release].  In
    [holdingsleep], called with or without the lock: before [acquire], before
    [locked] is read, before [release]. *)
Inductive place :=
| Away | Inside
| A_lk | A_test | A_set | A_pid | A_unlk
| S_pt | S_unlk | S_mark | S_asleep | S_runnable | S_unpt
| R_lk | R_clear | R_pid | W_pt | W_wake | W_unpt | R_unlk
| H_lk (inside : bool) | H_read (inside : bool) | H_unlk (inside r : bool).

Record sleeplock := mkSleep {
  sl_locked : bool; sl_pid : Z; lk_owner : option nat; pt_owner : option nat; places : list place;
  owner : option nat; waker : option nat
}.

Definition initsleeplock (n : nat) : sleeplock := mkSleep false 0 None None (replicate n Away) None None.

Definition move (p : nat) (x : place) (s : sleeplock) : sleeplock :=
  mkSleep (sl_locked s) (sl_pid s) (lk_owner s) (pt_owner s) (<[p := x]> (places s)) (owner s) (waker s).
Definition set_locked v o w s := mkSleep v (sl_pid s) (lk_owner s) (pt_owner s) (places s) o w.
Definition set_pid v s := mkSleep (sl_locked s) v (lk_owner s) (pt_owner s) (places s) (owner s) (waker s).
Definition set_lk v s := mkSleep (sl_locked s) (sl_pid s) v (pt_owner s) (places s) (owner s) (waker s).
Definition set_pt v s := mkSleep (sl_locked s) (sl_pid s) (lk_owner s) v (places s) (owner s) (waker s).

(** [acquire] of a spin lock: the process waits until it is free. *)
Definition take_lk (p : nat) (x : place) (s : sleeplock) : option sleeplock :=
  match lk_owner s with None => Some (move p x (set_lk (Some p) s)) | Some _ => None end.
Definition take_pt (p : nat) (x : place) (s : sleeplock) : option sleeplock :=
  match pt_owner s with None => Some (move p x (set_pt (Some p) s)) | Some _ => None end.

(** [wakeup1] *)
Definition woken (x : place) : place := match x with S_asleep => S_runnable | _ => x end.
Definition wake_all (s : sleeplock) : sleeplock :=
  mkSleep (sl_locked s) (sl_pid s) (lk_owner s) (pt_owner s) (woken <$> places s) (owner s) None.

Section Sleeplock.
Context (pids : nat -> Z).

Definition acquiresleep (p : nat) (x : place) (s : sleeplock) : option sleeplock :=
  match x with
  | A_lk => take_lk p A_test s
  | A_test => Some (move p (if sl_locked s then S_pt else A_set) s)
  | A_set => Some (move p A_pid (set_locked true (Some p) (waker s) s))
  | A_pid => Some (move p A_unlk (set_pid (pids p) s))
  | A_unlk => Some (move p Inside (set_lk None s))
  | _ => None
  end.

(** [sleep(lk, &lk->lk)]; the CPU gives [ptable.lock] up when it has switched
    away from the process and has it again when it switches back. *)
Definition sleep_on (p : nat) (x : place) (s : sleeplock) : option sleeplock :=
  match x with
  | S_pt => take_pt p S_unlk s
  | S_unlk => Some (move p S_mark (set_lk None s))
  | S_mark => Some (move p S_asleep (set_pt None s))
  | S_runnable => take_pt p S_unpt s
  | S_unpt => Some (move p A_lk (set_pt None s))
  | _ => None
  end.

Definition releasesleep (p : nat) (x : place) (s : sleeplock) : option sleeplock :=
  match x with
  | R_lk => take_lk p R_clear s
  | R_clear => Some (move p R_pid (set_locked false None (Some p) s))
  | R_pid => Some (move p W_pt (set_pid 0 s))
  | W_pt => take_pt p W_wake s
  | W_wake => Some (move p W_unpt (wake_all s))
  | W_unpt => Some (move p R_unlk (set_pt None s))
  | R_unlk => Some (move p Away (set_lk None s))
  | _ => None
  end.

Definition holdingsleep (p : nat) (x : place) (s : sleeplock) : option sleeplock :=
  match x with
  | H_lk b => take_lk p (H_read b) s
  | H_read b => Some (move p (H_unlk b (sl_locked s)) s)
  | H_unlk b r => Some (move p (if b then Inside else Away) (set_lk None s))
  | _ => None
  end.

(** A process calls a routine (only the holder calls [releasesleep]), makes a
    step, or is made runnable by [kill], which has [ptable.lock]. *)
Inductive action := Acquire | Release | Holding | Go | Kill.

#[export] Instance action_eq_dec : EqDecision action.
Proof. solve_decision. Defined.

Definition sl_step (p : nat) (a : action) (s : sleeplock) : option sleeplock :=
  x ← places s !! p;
  match a, x with
  | Acquire, Away => Some (move p A_lk s)
  | Release, Inside => Some (move p R_lk s)
  | Holding, Away => Some (move p (H_lk false) s)
  | Holding, Inside => Some (move p (H_lk true) s)
  | Kill, S_asleep => match pt_owner s with None => Some (move p S_runnable s) | Some _ => None end
  | Go, (A_lk | A_test | A_set | A_pid | A_unlk) => acquiresleep p x s
  | Go, (S_pt | S_unlk | S_mark | S_runnable | S_unpt) => sleep_on p x s
  | Go, (R_lk | R_clear | R_pid | W_pt | W_wake | W_unpt | R_unlk) => releasesleep p x s
  | Go, (H_lk _ | H_read _ | H_unlk _ _) => holdingsleep p x s
  | _, _ => None
  end.

Fixpoint sl_run (es : list (nat * action)) (s : sleeplock) : option sleeplock :=
  match es with
  | [] => Some s
  | (p, a) :: es' => s' ← sl_step p a s; sl_run es' s'
  end.

(** ** The invariant *)

Definition has_lk (x : place) : bool :=
  match x with A_test | A_set | A_pid | A_unlk | S_pt | S_unlk | R_clear | R_pid | W_pt | W_wake | W_unpt | R_unlk | H_read _ | H_unlk _ _ => true | _ => false end.
Definition has_pt (x : place) : bool := match x with S_unlk | S_mark | S_unpt | W_wake | W_unpt => true | _ => false end.
Definition has_sleep (x : place) : bool :=
  match x with A_pid | A_unlk | Inside | R_lk | R_clear => true | H_lk b | H_read b | H_unlk b _ => b | _ => false end.
Definition wakes (x : place) : bool := match x with R_pid | W_pt | W_wake => true | _ => false end.
(** With [lk->lk] held, [locked] is known. *)
Definition sees_free (x : place) : bool := match x with A_set | R_pid | W_pt | W_wake | W_unpt | R_unlk => true | _ => false end.
Definition sees_busy (x : place) : bool := match x with S_pt | S_unlk => true | H_unlk b r => b && negb r | _ => false end.
Definition waits (x : place) : bool := match x with S_mark | S_asleep => true | _ => false end.
Definition has_pid (x : place) : bool := has_sleep x && match x with A_pid => false | _ => true end.

Record at_ok (s : sleeplock) (p : nat) (x : place) : Prop := {
  p_lk : has_lk x = true <-> lk_owner s = Some p;
  p_pt : has_pt x = true <-> pt_owner s = Some p;
  p_own : has_sleep x = true <-> owner s = Some p;
  p_wake : wakes x = true <-> waker s = Some p;
  p_free : sees_free x = true -> owner s = None;
  p_busy : sees_busy x = true -> owner s <> None;
  p_wait : waits x = true -> owner s <> None \/ waker s <> None;
  p_pid : has_pid x = true -> sl_pid s = pids p;
  p_read b r : x = H_unlk b r -> b = true -> r = true
}.

Record sl_ok (s : sleeplock) : Prop := {
  l_at p x : places s !! p = Some x -> at_ok s p x;
  l_locked : sl_locked s = false <-> owner s = None;
  l_owner p : owner s = Some p -> p < length (places s);
  l_waker p : waker s = Some p -> p < length (places s)
}.
End Sleeplock.

(** The places of two processes exclude each other. *)
Lemma busy_lk x : sees_busy x = true -> has_lk x = true.
Proof. by destruct x. Qed.
Lemma free_lk x : sees_free x = true -> has_lk x = true.
Proof. by destruct x. Qed.
Lemma wakes_lk x : wakes x = true -> has_lk x = true.
Proof. by destruct x. Qed.
Lemma pid_sleep x : has_pid x = true -> has_sleep x = true.
Proof. unfold has_pid. by destruct (has_sleep x). Qed.
Lemma mark_pt x : waits x = true -> has_pt x = true \/ x = S_asleep.
Proof. destruct x; auto. Qed.

Section Invariant.
Context (pids : nat -> Z) (s : sleeplock) (Hs : sl_ok pids s) (p : nat) (x : place) (Hx : places s !! p = Some x).

Lemma place_at (y z : place) q : <[p := y]> (places s) !! q = Some z <-> (q = p /\ z = y) \/ (q <> p /\ places s !! q = Some z).
Proof using Hx. rewrite list_lookup_insert_Some. apply lookup_lt_Some in Hx. naive_solver. Qed.

(** A step that moves one process. *)
Lemma move_sl y s' :
  places s' = places s -> at_ok pids s' p y ->
  (forall q z, q <> p -> places s !! q = Some z -> at_ok pids s q z -> at_ok pids s' q z) ->
  (sl_locked s' = false <-> owner s' = None) -> (forall q, owner s' = Some q -> owner s = Some q \/ q = p) ->
  (forall q, waker s' = Some q -> waker s = Some q \/ q = p) -> sl_ok pids (move p y s').
Proof using All.
  intros Ep Hy Hoth Hlk Ho Hw. pose proof (lookup_lt_Some _ _ _ Hx) as Hlt. split; unfold move; simpl; rewrite ?Ep, ?length_insert.
  - intros q z [[-> ->]|[Hne Hz]]%place_at; [by destruct Hy|]. by destruct (Hoth q z Hne Hz (l_at _ _ Hs q z Hz)).
  - done.
  - intros q Hq. destruct (Ho q Hq) as [H| ->]; [by apply (l_owner _ _ Hs)|done].
  - intros q Hq. destruct (Hw q Hq) as [H| ->]; [by apply (l_waker _ _ Hs)|done].
Qed.

Ltac facts := simpl in *; try done; try (intuition congruence).
Ltac at_self := split; facts.
Ltac at_other :=
  let z := fresh "z" in let Hq := fresh "Hq" in
  intros ? z ? ? Hq; pose proof (busy_lk z); pose proof (free_lk z); pose proof (wakes_lk z); pose proof (pid_sleep z); pose proof (mark_pt z); destruct Hq; split; facts.
Ltac one_move := apply move_sl; [done|at_self|at_other|simpl; intuition congruence|
  simpl; intros ? ?; first [left; congruence|right; congruence]|simpl; intros ? ?; first [left; congruence|right; congruence]].

Lemma take_lk_ok y s' : take_lk p y s = Some s' -> at_ok pids (set_lk (Some p) s) p y -> sl_ok pids s'.
Proof using All.
  unfold take_lk. destruct (lk_owner s) eqn:E; [done|]. intros [= <-] Hy. apply move_sl; try done; try (simpl; apply Hs); auto.
  at_other.
Qed.

Lemma take_pt_ok y s' : take_pt p y s = Some s' -> at_ok pids (set_pt (Some p) s) p y -> sl_ok pids s'.
Proof using All.
  unfold take_pt. destruct (pt_owner s) eqn:E; [done|]. intros [= <-] Hy. apply move_sl; try done; try (simpl; apply Hs); auto.
  at_other.
Qed.

Lemma acquiresleep_ok x0 s' : x = x0 -> acquiresleep pids p x0 s = Some s' -> sl_ok pids s'.
Proof using All.
  intros Ex. pose proof (l_at _ _ Hs p x Hx) as [P1 P2 P3 P4 P5 P6 P7 P8 P9]. pose proof (l_locked _ _ Hs) as HL. rewrite Ex in P1, P2, P3, P4, P5, P6, P7, P8, P9.
  destruct x0; try done; simpl.
  - intros E. eapply take_lk_ok; [exact E|]. at_self.
  - intros [= <-]. destruct (sl_locked s) eqn:El; one_move.
  - intros [= <-]. one_move.
  - intros [= <-]. one_move.
  - intros [= <-]. one_move.
Qed.

Ltac here := intros Ex; pose proof (l_at _ _ Hs p x Hx) as [P1 P2 P3 P4 P5 P6 P7 P8 P9]; pose proof (l_locked _ _ Hs) as HL;
  rewrite Ex in P1, P2, P3, P4, P5, P6, P7, P8, P9.

Lemma sleep_on_ok x0 s' : x = x0 -> sleep_on p x0 s = Some s' -> sl_ok pids s'.
Proof using All.
  here. destruct x0; try done; simpl.
  - intros E. eapply take_pt_ok; [exact E|]. at_self.
  - intros [= <-]. one_move.
  - intros [= <-]. one_move.
  - intros E. eapply take_pt_ok; [exact E|]. at_self.
  - intros [= <-]. one_move.
Qed.

(** [wakeup1] leaves no process asleep. *)
Lemma wake_all_ok : x = W_wake -> sl_ok pids (move p W_unpt (wake_all s)).
Proof using All.
  here. pose proof (lookup_lt_Some _ _ _ Hx) as Hlt. split; unfold move, wake_all; simpl; rewrite ?length_insert, ?length_fmap.
  - intros q z Hz. apply list_lookup_insert_Some in Hz as [(<- & <- & _)|[Hne Hz]]; [at_self|].
    rewrite list_lookup_fmap in Hz. destruct (places s !! q) as [z0|] eqn:E; [|done]. injection Hz as <-.
    pose proof (l_at _ _ Hs q z0 E) as [Q1 Q2 Q3 Q4 Q5 Q6 Q7 Q8 Q9]. 
    assert (Hw : wakes z0 = false) by (destruct (wakes z0); [intuition congruence|done]).
    assert (Hm : z0 <> S_mark) by (intros ->; simpl in *; intuition congruence).
    destruct z0; split; facts.
  - done.
  - apply Hs.
  - done.
Qed.

Lemma releasesleep_ok x0 s' : x = x0 -> releasesleep p x0 s = Some s' -> sl_ok pids s'.
Proof using All.
  here. destruct x0; try done; simpl.
  - intros E. eapply take_lk_ok; [exact E|]. at_self.
  - intros [= <-]. one_move.
  - intros [= <-]. one_move.
  - intros E. eapply take_pt_ok; [exact E|]. at_self.
  - intros [= <-]. by apply wake_all_ok.
  - intros [= <-]. one_move.
  - intros [= <-]. one_move.
Qed.

Lemma holdingsleep_ok x0 s' : x = x0 -> holdingsleep p x0 s = Some s' -> sl_ok pids s'.
Proof using All.
  here. destruct x0; try done; simpl.
  - intros E. eapply take_lk_ok; [exact E|]. at_self.
  - intros [= <-]. destruct (sl_locked s) eqn:El, inside; one_move.
  - intros [= <-]. destruct inside; one_move.
Qed.

Lemma sl_call_ok x0 a s' : x = x0 -> a <> Go -> sl_step pids p a s = Some s' -> sl_ok pids s'.
Proof using All.
  here. unfold sl_step. rewrite Hx. simpl. rewrite Ex. intros Ha. destruct a, x0; try done.
  1-4: intros [= <-]; one_move.
  destruct (pt_owner s) eqn:E; [done|]. intros [= <-]. one_move.
Qed.

Lemma sl_step_ok a s' : sl_step pids p a s = Some s' -> sl_ok pids s'.
Proof using All.
  intros H. destruct (decide (a = Go)) as [->|Ha]; [|by eapply (sl_call_ok x)].
  pose proof (acquiresleep_ok x s' eq_refl) as HA. pose proof (sleep_on_ok x s' eq_refl) as HB.
  pose proof (releasesleep_ok x s' eq_refl) as HC. pose proof (holdingsleep_ok x s' eq_refl) as HD.
  unfold sl_step in H. rewrite Hx in H. simpl in H. clear -HA HB HC HD H. destruct x; eauto; done.
Qed.
End Invariant.

Lemma initsleeplock_ok pids n : sl_ok pids (initsleeplock n).
Proof.
  split; simpl; try done. intros p x [-> _]%lookup_replicate. split; simpl; try done.
Qed.

Lemma sl_run_ok pids es s s' : sl_ok pids s -> sl_run pids es s = Some s' -> sl_ok pids s'.
Proof.
  revert s. induction es as [|[p a] es IH]; simpl; intros s Hs; [by intros [= <-]|].
  destruct (sl_step pids p a s) as [s1|] eqn:E; simpl; [|done]. apply IH. destruct (places s !! p) as [x|] eqn:Ex.
  - by eapply (sl_step_ok pids s Hs p x Ex a).
  - unfold sl_step in E. by rewrite Ex in E.
Qed.

(** C16: however the processes interleave and whoever is killed, at most one is
    inside the sleep lock, and [pid] names it; [holdingsleep] called by the
    holder reads 1; and no wakeup is lost: while a process sleeps, the lock is
    held by another process or some process is on its way to wake it, so that
    the sleepers are never left alone. *)
Theorem sleeplock_correct pids n es s :
  sl_run pids es (initsleeplock n) = Some s ->
  (forall p q, places s !! p = Some Inside -> places s !! q = Some Inside -> p = q) /\
  (forall p, places s !! p = Some Inside -> sl_locked s = true /\ sl_pid s = pids p) /\
  (forall p r, places s !! p = Some (H_unlk true r) -> r = true) /\
  (forall p, places s !! p = Some S_asleep -> exists q y, q <> p /\ places s !! q = Some y /\ (has_sleep y = true \/ wakes y = true)).
Proof.
  intros Hrun. pose proof (sl_run_ok _ _ _ _ (initsleeplock_ok pids n) Hrun) as Hs.
  assert (Hin : forall p, places s !! p = Some Inside -> owner s = Some p) by (intros p Hp; by apply (p_own _ _ _ _ (l_at _ _ Hs p _ Hp))).
  split; [|split; [|split]].
  - intros p q Hp Hq. apply Hin in Hp, Hq. congruence.
  - intros p Hp. split; [|by apply (p_pid _ _ _ _ (l_at _ _ Hs p _ Hp))]. apply Hin in Hp.
    destruct (sl_locked s) eqn:E; [done|]. apply (l_locked _ _ Hs) in E. congruence.
  - intros p r Hp. by eapply (p_read _ _ _ _ (l_at _ _ Hs p _ Hp)).
  - intros p Hp. pose proof (l_at _ _ Hs p _ Hp) as Hx.
    assert (Hq : exists q, owner s = Some q \/ waker s = Some q).
    { destruct (p_wait _ _ _ _ Hx eq_refl) as [H|H]; [destruct (owner s) as [q|]|destruct (waker s) as [q|]]; try done; exists q; auto. }
    destruct Hq as [q Hq]. assert (Hlt : q < length (places s)) by (destruct Hq as [Hq|Hq]; [by apply (l_owner _ _ Hs)|by apply (l_waker _ _ Hs)]).
    destruct (lookup_lt_is_Some_2 _ _ Hlt) as [y Hy]. pose proof (l_at _ _ Hs q y Hy) as Hqy. exists q, y.
    assert (Hcase : has_sleep y = true \/ wakes y = true).
    { destruct Hq as [Hq|Hq]; [left; by apply (p_own _ _ _ _ Hqy)|right; by apply (p_wake _ _ _ _ Hqy)]. }
    split; [|done]. intros ->. rewrite Hp in Hy. injection Hy as <-. by destruct Hcase.
Qed.

(** Process 0 takes the lock and process 1 sleeps on it. *)
Definition demo_sleep : list (nat * action) :=
  (0, Acquire) :: replicate 5 (0, Go) ++ (1, Acquire) :: replicate 5 (1, Go).

Lemma sleeplock_correct_witness :
  exists s, sl_run (fun p => Z.of_nat p) demo_sleep (initsleeplock 2) = Some s /\ places s !! 1 = Some S_asleep /\
    (forall p q, places s !! p = Some Inside -> places s !! q = Some Inside -> p = q) /\
    (exists q y, q <> 1 /\ places s !! q = Some y /\ (has_sleep y = true \/ wakes y = true)).
Proof.
  eexists. assert (E : sl_run (fun p => Z.of_nat p) demo_sleep (initsleeplock 2) = Some _) by (vm_compute; reflexivity). split; [exact E|].
  split; [reflexivity|]. destruct (sleeplock_correct _ 2 demo_sleep _ E) as (H1 & _ & _ & H4). split; [exact H1|]. by apply H4.
Defined.
