(* ===== verification/Lsh.v ===== *)
(** * The second shell

    [lsh.c]: [strcspn] and [strtok] on the line buffer, which [strtok] cuts
    into C strings in place, the split of the tokens into the two sides of a
    command, and [lsh_execute] as the system calls that a process makes, in the
    language of [ShellRun].  A token is a position in the buffer.  The string
    that a null pointer points to (the first bytes of the program's memory, at
    address 0) is a parameter; so are the strings that the words after the
    command's two arrays point to and what the program does after the command.
    A store beyond [left\[\]] or [right\[\]] has no result. *)
From S2P Require Import Prelude Cstring Shell ShellParse ShellPrint ShellRun.
Local Open Scope Z_scope.

Definition LSH_RL_BUFSIZE : nat := 1024.
Definition LSH_TOK_BUFSIZE : nat := 64.
(** [" \t\r\n\a"] *)
Definition LSH_TOK_DELIM : list Z := [32; 9; 13; 10; 7].

(** ** [gets] of [ulib.c] *)

(** The bytes stored before the NUL; [input] is what [read] returns, byte by
    byte, to the end of the file. *)
Fixpoint gets_loop (input : list Z) (room : nat) : list Z * list Z :=
  match room, input with
  | S room', c :: input' =>
      if (c =? 10) || (c =? 13) then ([c], input') else let (l, rest) := gets_loop input' room' in (c :: l, rest)
  | _, _ => ([], input)
  end.

Definition gets (input : list Z) (max : Z) : list Z * list Z := gets_loop input (Z.to_nat (max - 1)).

(** ** [strcspn] and [strtok] *)

(** On the bytes from [string] on. *)
Fixpoint strcspn (string chars : list Z) : nat :=
  match string with
  | [] => 0
  | c :: rest => if c =? 0 then 0 else if existsb (Z.eqb c) chars then 0 else S (strcspn rest chars)
  end.

(** [do ... while(strchr(delim, ch))]: how many delimiters there are before the
    token, or none if the string ends first. *)
Fixpoint skip_delim (s delim : list Z) : option nat :=
  match s with
  | [] => None
  | ch :: rest =>
      if ch =? 0 then None
      else match strchr delim ch with Some _ => S <$> skip_delim rest delim | None => Some 0%nat end
  end.

(** The token, the buffer and [lasts] after the call. *)
Definition strtok (buf : list Z) (s : nat) (delim : list Z) : option nat * list Z * nat :=
  match skip_delim (drop s buf) delim with
  | None => (None, buf, s)
  | Some k =>
      let s := (s + k)%nat in
      let lasts := (s + strcspn (drop s buf) delim)%nat in
      if byte_at buf lasts =? 0 then (Some s, buf, lasts)
      else (Some s, <[lasts := 0]> buf, S lasts)
  end.

(** ** The command *)

Inductive ctype := CEXEC | CPIPE | CREDIN | CREDOUT.

(** The C string at position [p] of the buffer. *)
Fixpoint cstring (s : list Z) : list Z :=
  match s with
  | [] => []
  | c :: rest => if c =? 0 then [] else c :: cstring rest
  end.
Definition at_pos (buf : list Z) (p : nat) : list Z := cstring (drop p buf).

Record lcmd (T : Type) := mkLcmd { l_type : ctype; l_left : list T; l_right : list T }.
Arguments mkLcmd {T} _ _ _.
Arguments l_type {T} _.
Arguments l_left {T} _.
Arguments l_right {T} _.

(** One iteration of the loop over the tokens, for the token [x] whose string
    is [w]. *)
Definition add_token {T} (x : T) (w : list Z) (c : lcmd T) : option (lcmd T) :=
  if strcmp w [60] =? 0 then Some (mkLcmd CREDIN (l_left c) (l_right c))
  else if strcmp w [62] =? 0 then Some (mkLcmd CREDOUT (l_left c) (l_right c))
  else if strcmp w [124] =? 0 then Some (mkLcmd CPIPE (l_left c) (l_right c))
  else match l_type c with
  | CEXEC => if (length (l_left c) <? LSH_TOK_BUFSIZE)%nat then Some (mkLcmd CEXEC (l_left c ++ [x]) (l_right c)) else None
  | ty => if (length (l_right c) <? LSH_TOK_BUFSIZE)%nat then Some (mkLcmd ty (l_left c) (l_right c ++ [x])) else None
  end.

(** The loop: a token is at least a byte of the buffer. *)
Fixpoint parse_loop (buf : list Z) (lasts : nat) (c : lcmd nat) (fuel : nat) : option (lcmd nat * list Z) :=
  match fuel with
  | O => None
  | S fuel' =>
      match strtok buf lasts LSH_TOK_DELIM with
      | (None, buf', _) => Some (c, buf')
      | (Some token, buf', lasts') =>
          c' ← add_token token (at_pos buf' token) c;
          parse_loop buf' lasts' c' fuel'
      end
  end.

(** The buffer that [memset] and [gets] leave. *)
Definition line_buf (line : list Z) : list Z := line ++ replicate (LSH_RL_BUFSIZE - length line) 0.

Definition parse_line (line : list Z) : option (lcmd (list Z)) :=
  r ← parse_loop (line_buf line) 0 (mkLcmd CEXEC [] []) (S LSH_RL_BUFSIZE);
  mret (mkLcmd (l_type r.1) (at_pos r.2 <$> l_left r.1) (at_pos r.2 <$> l_right r.1)).

(** ** Execution *)

Section Execute.
Context (null_str : list Z) (after : list (list Z)).

(** [args\[i\]], where a null pointer is left of the last. *)
Definition arg (args : list (list Z)) (i : nat) : list Z := default null_str (args !! i).

(** [exec] reads pointers up to a null pointer: a full array is read on. *)
Definition right_argv (c : lcmd (list Z)) : list (list Z) :=
  if (length (l_right c) <? LSH_TOK_BUFSIZE)%nat then l_right c else l_right c ++ after.
Definition left_argv (c : lcmd (list Z)) : list (list Z) :=
  if (length (l_left c) <? LSH_TOK_BUFSIZE)%nat then l_left c else l_left c ++ right_argv c.

Definition exec_left (c : lcmd (list Z)) : prog := Exec (arg (l_left c) 0) (left_argv c) (Print 2 Exit).
Definition exec_right (c : lcmd (list Z)) : prog := Exec (arg (l_right c) 0) (right_argv c) (Print 2 Exit).

Definition lsh_cd (c : lcmd (list Z)) (k : prog) : prog :=
  let p := Chdir (arg (l_left c) 1) (fun r => if r <? 0 then Print 2 k else k) in
  match l_left c !! 2%nat with Some _ => Print 2 p | None => p end.

Definition lsh_help (k : prog) : prog := Print 1 (Print 1 (Print 1 (Print 1 (Print 1 (Print 1 k))))).

Definition lsh_exit : prog := Exit.

Definition lsh_execute (c : lcmd (list Z)) (k : prog) : prog :=
  let l0 := arg (l_left c) 0 in
  if strcmp l0 [99; 100] =? 0 then lsh_cd c k
  else if strcmp l0 [104; 101; 108; 112] =? 0 then lsh_help k
  else if strcmp l0 [101; 120; 105; 116] =? 0 then lsh_exit
  else match l_type c with
  | CEXEC => Fork (fun pid => if pid =? 0 then exec_left c else Wait k)
  | CREDIN =>
      let p := Open (arg (l_right c) 0) O_RDONLY (fun fd =>
        if fd <? 0 then Print 2 k
        else Fork (fun pid =>
          if pid =? 0 then Close 0 (Dup fd (fun _ => Close fd (exec_left c))) else Close fd (Wait k))) in
      match l_right c !! 1%nat with Some _ => Print 2 p | None => p end
  | CREDOUT =>
      let p := Unlink (arg (l_right c) 0) (fun _ =>
        Open (arg (l_right c) 0) (Z.lor O_CREATE O_WRONLY) (fun fd =>
          if fd <? 0 then Print 2 k
          else Fork (fun pid =>
            if pid =? 0 then Close 1 (Dup fd (fun _ => Close fd (exec_left c))) else Close fd (Wait k)))) in
      match l_right c !! 1%nat with Some _ => Print 2 p | None => p end
  | CPIPE =>
      Pipe (fun p =>
        match p with
        | None => Print 2 k
        | Some (p0, p1) =>
            Fork (fun pid =>
              if pid =? 0 then Close p0 (Close 1 (Dup p1 (fun _ => Close p1 (exec_left c))))
              else Fork (fun pid =>
                if pid =? 0 then Close p1 (Close 0 (Dup p0 (fun _ => Close p0 (exec_right c))))
                else Close p0 (Close p1 (Wait (Wait k)))))
        end)
  end.

(** The body of the loop of [main]: prompt, line, tests, command. *)
Definition run_line (c : lcmd (list Z)) (k : prog) : prog :=
  if strlen (arg (l_left c) 0 ++ [0]) =? 0 then Print 2 k
  else if match l_type c with CEXEC => false | _ => strlen (arg (l_right c) 0 ++ [0]) =? 0 end then Print 2 k
  else lsh_execute c k.

Definition lsh_main (line : list Z) (k : prog) : option prog :=
  c ← parse_line line;
  mret (Print 1 (run_line c k)).
End Execute.
