(* ===== verification/LshClaims.v ===== *)
(** * What the second shell does with a line

    [strtok] cuts a line into its words, and the system calls of [lsh_execute]
    run the programs that the words denote. *)
From S2P Require Import Prelude Cstring Shell ShellParse ShellPrint ShellRun Lsh.
Local Open Scope Z_scope.

(** ** Words *)

Definition is_delim (c : Z) : bool := existsb (Z.eqb c) LSH_TOK_DELIM.

Definition flush (w : list Z) : list (list Z) := match w with [] => [] | _ => [w] end.

Fixpoint words_from (w l : list Z) : list (list Z) :=
  match l with
  | [] => flush w
  | c :: l' => if is_delim c then flush w ++ words_from [] l' else words_from (w ++ [c]) l'
  end.

(** The maximal pieces of the line without delimiters. *)
Definition words (l : list Z) : list (list Z) := words_from [] l.

Definition plain (w : list Z) : Prop := w <> [] /\ Forall (fun c => is_delim c = false /\ c <> 0) w.

Lemma words_delims ds l : Forall (fun c => is_delim c = true) ds -> words (ds ++ l) = words l.
Proof. induction 1 as [|c ds Hc _ IH]; [done|]. unfold words in *. simpl. by rewrite Hc. Qed.

Lemma words_from_plain v w l : Forall (fun c => is_delim c = false /\ c <> 0) w -> words_from v (w ++ l) = words_from (v ++ w) l.
Proof.
  intros H. revert v. induction H as [|c w [Hc _] _ IH]; intros v; [by rewrite app_nil_r|]. simpl. rewrite Hc, IH. by rewrite <- app_assoc.
Qed.

Lemma words_last w : plain w -> words w = [w].
Proof. intros [Hne Hw]. unfold words. rewrite <- (app_nil_r w) at 1. rewrite words_from_plain by done. simpl. by destruct w. Qed.

Lemma words_cons w d l : plain w -> is_delim d = true -> words (w ++ d :: l) = w :: words l.
Proof. intros [Hne Hw] Hd. unfold words. rewrite words_from_plain by done. simpl. rewrite Hd. by destruct w. Qed.

(** A line is blank, or it starts with blanks and a word that ends it or is
    followed by a delimiter. *)
Lemma first_word l : 0 ∉ l ->
  Forall (fun c => is_delim c = true) l \/
  exists ds w r, l = ds ++ w ++ r /\ Forall (fun c => is_delim c = true) ds /\ plain w /\
    (r = [] \/ exists d r', r = d :: r' /\ is_delim d = true).
Proof.
  induction l as [|c l IH]; intros H0; [by left|]. apply not_elem_of_cons in H0 as [Hc H0]. destruct (is_delim c) eqn:E.
  - destruct (IH H0) as [Hl|(ds & w & r & -> & Hds & Hw & Hr)]; [left; by constructor|]. right. exists (c :: ds), w, r.
    split; [done|]. split; [by constructor|done].
  - right. assert (Hc' : is_delim c = false /\ c <> 0) by done. destruct l as [|d l'].
    { exists [], [c], []. split; [done|]. split; [done|]. split; [split; [done|by apply Forall_singleton]|by left]. }
    destruct (is_delim d) eqn:Ed.
    { exists [], [c], (d :: l'). split; [done|]. split; [done|]. split; [split; [done|by apply Forall_singleton]|right; by exists d, l']. }
    destruct (IH H0) as [Hl|(ds & w & r & El & Hds & [Hne Hw] & Hr)].
    { apply Forall_cons in Hl as [Hd _]. congruence. }
    destruct ds as [|d' ds]; [|injection El as -> _; apply Forall_cons in Hds as [Hd' _]; congruence].
    exists [], (c :: w), r. split; [simpl in *; by rewrite El|]. split; [done|]. split; [split; [done|by constructor]|done].
Qed.

(** ** [strcspn] and [strtok] *)

Lemma strchr_delim c : c <> 0 -> strchr LSH_TOK_DELIM c = None <-> is_delim c = false.
Proof.
  intros H. unfold LSH_TOK_DELIM, is_delim, LSH_TOK_DELIM. cbn [strchr existsb].
  repeat match goal with |- context [?a =? c] => rewrite (Z.eqb_sym a c) end.
  change (32 =? 0) with false. change (9 =? 0) with false. change (13 =? 0) with false. change (10 =? 0) with false. change (7 =? 0) with false. cbv iota.
  destruct (c =? 32), (c =? 9), (c =? 13), (c =? 10), (c =? 7); done.
Qed.

Lemma skip_delim_blank ds s : 0 ∉ ds -> Forall (fun c => is_delim c = true) ds -> skip_delim (ds ++ s) LSH_TOK_DELIM = (Nat.add (length ds)) <$> skip_delim s LSH_TOK_DELIM.
Proof.
  intros H0 H. induction H as [|c ds Hc _ IH]; [simpl; by destruct (skip_delim s _)|]. apply not_elem_of_cons in H0 as [Hn H0].
  cbn [skip_delim app]. rewrite (proj2 (Z.eqb_neq c 0)) by done. destruct (strchr LSH_TOK_DELIM c) eqn:E; [|apply strchr_delim in E; congruence].
  rewrite IH by done. by destruct (skip_delim s _).
Qed.

Lemma skip_delim_word w s : plain w -> skip_delim (w ++ s) LSH_TOK_DELIM = Some 0%nat.
Proof.
  intros [Hne Hw]. destruct Hw as [|c w [Hc Hn] _]; [done|]. cbn [skip_delim app]. rewrite (proj2 (Z.eqb_neq c 0)) by done.
  by rewrite (proj2 (strchr_delim c Hn)).
Qed.

Lemma strcspn_word w s : Forall (fun c => is_delim c = false /\ c <> 0) w ->
  match s with [] => True | c :: _ => c = 0 \/ is_delim c = true end -> strcspn (w ++ s) LSH_TOK_DELIM = length w.
Proof.
  intros H Hs. induction H as [|c w [Hc Hn] _ IH]; cbn [strcspn app length].
  - destruct s as [|c s]; [done|]. cbn [strcspn]. destruct (Z.eqb_spec c 0); [done|]. destruct Hs as [?|Hd]; [done|]. unfold is_delim in Hd. by rewrite Hd.
  - rewrite (proj2 (Z.eqb_neq c 0)) by done. unfold is_delim in Hc. by rewrite Hc, IH.
Qed.

Lemma cstring_word w s : Forall (fun c => is_delim c = false /\ c <> 0) w -> cstring (w ++ 0 :: s) = w.
Proof. induction 1 as [|c w [_ Hn] _ IH]; [done|]. cbn [cstring app]. rewrite (proj2 (Z.eqb_neq c 0)) by done. by rewrite IH. Qed.

Section Strtok.
Context (pre zs : list Z).

Lemma strtok_blank l : 0 ∉ l -> Forall (fun c => is_delim c = true) l ->
  strtok (pre ++ l ++ 0 :: zs) (length pre) LSH_TOK_DELIM = (None, pre ++ l ++ 0 :: zs, length pre).
Proof using Type. intros H0 Hl. unfold strtok. rewrite drop_app_length, skip_delim_blank by done. done. Qed.

Lemma strtok_end ds w : 0 ∉ ds -> Forall (fun c => is_delim c = true) ds -> plain w ->
  strtok (pre ++ (ds ++ w) ++ 0 :: zs) (length pre) LSH_TOK_DELIM =
  (Some (length (pre ++ ds)), pre ++ (ds ++ w) ++ 0 :: zs, length (pre ++ ds ++ w)).
Proof using Type.
  intros H0 Hds Hw. unfold strtok. rewrite drop_app_length, <- app_assoc, skip_delim_blank, skip_delim_word by done. cbn [fmap option_fmap option_map].
  rewrite Nat.add_0_r, <- length_app, app_assoc, drop_app_length, strcspn_word by (apply Hw || by left).
  replace (length (pre ++ ds) + length w)%nat with (length ((pre ++ ds) ++ w)) by (by rewrite length_app).
  assert (E : byte_at ((pre ++ ds) ++ w ++ 0 :: zs) (length ((pre ++ ds) ++ w)) = 0) by (unfold byte_at; rewrite (app_assoc (pre ++ ds)); by rewrite list_lookup_middle).
  rewrite E. simpl. by rewrite <- !app_assoc.
Qed.

Lemma strtok_mid ds w d r : 0 ∉ ds -> Forall (fun c => is_delim c = true) ds -> plain w -> is_delim d = true -> d <> 0 ->
  strtok (pre ++ (ds ++ w ++ d :: r) ++ 0 :: zs) (length pre) LSH_TOK_DELIM =
  (Some (length (pre ++ ds)), (pre ++ ds ++ w ++ [0]) ++ r ++ 0 :: zs, length (pre ++ ds ++ w ++ [0])).
Proof using Type.
  intros H0 Hds Hw Hd Hn. unfold strtok.
  assert (E1 : pre ++ (ds ++ w ++ d :: r) ++ 0 :: zs = (pre ++ ds) ++ w ++ d :: (r ++ 0 :: zs)) by (by rewrite <- !app_assoc).
  assert (E2 : drop (length pre) (pre ++ (ds ++ w ++ d :: r) ++ 0 :: zs) = ds ++ w ++ d :: (r ++ 0 :: zs)) by (rewrite drop_app_length; by rewrite <- !app_assoc).
  rewrite E2, skip_delim_blank, skip_delim_word by done. cbn [fmap option_fmap option_map]. rewrite E1.
  rewrite Nat.add_0_r, <- length_app, drop_app_length, strcspn_word by (apply Hw || by right).
  replace (length (pre ++ ds) + length w)%nat with (length ((pre ++ ds) ++ w)) by (by rewrite length_app).
  rewrite (app_assoc (pre ++ ds)). unfold byte_at. rewrite list_lookup_middle by done. cbn [default from_option id]. rewrite (proj2 (Z.eqb_neq d 0)) by done.
  rewrite insert_app_r_alt, Nat.sub_diag by lia. cbn [insert list_insert]. f_equal; [f_equal|].
  - by rewrite <- !app_assoc.
  - rewrite !length_app. simpl. lia.
Qed.
End Strtok.

(** ** The tokens of a line *)

(** The C string at [p] is [w]. *)
Definition at_in (b : list Z) (p : nat) (w : list Z) : Prop := exists x y, b = x ++ w ++ 0 :: y /\ length x = p /\ plain w.

Lemma at_in_pos b p w : at_in b p w -> at_pos b p = w.
Proof. intros (x & y & -> & <- & Hw). unfold at_pos. rewrite drop_app_length. by apply cstring_word, Hw. Qed.

Lemma at_in_app b b' p w : at_in b p w -> at_in (b ++ b') p w.
Proof. intros (x & y & -> & Hp & Hw). exists x, (y ++ b'). split; [by rewrite <- !app_assoc|done]. Qed.

Record same_cmd (b : list Z) (c : lcmd nat) (d : lcmd (list Z)) : Prop := {
  sc_type : l_type c = l_type d;
  sc_left : Forall2 (at_in b) (l_left c) (l_left d);
  sc_right : Forall2 (at_in b) (l_right c) (l_right d)
}.

Lemma same_cmd_app b b' c d : same_cmd b c d -> same_cmd (b ++ b') c d.
Proof. intros [H1 H2 H3]. split; [done|..]; (eapply Forall2_impl; [eassumption|]); intros; by apply at_in_app. Qed.

Lemma add_token_same b p w c d : at_in b p w -> same_cmd b c d ->
  match add_token w w d with
  | Some d' => exists c', add_token p w c = Some c' /\ same_cmd b c' d'
  | None => add_token p w c = None
  end.
Proof.
  intros Hp [H1 H2 H3]. unfold add_token. rewrite H1, (Forall2_length _ _ _ H2), (Forall2_length _ _ _ H3).
  destruct (strcmp w [60] =? 0); [eexists; by split|]. destruct (strcmp w [62] =? 0); [eexists; by split|].
  destruct (strcmp w [124] =? 0); [eexists; by split|].
  destruct (l_type d), (length (l_left d) <? LSH_TOK_BUFSIZE)%nat, (length (l_right d) <? LSH_TOK_BUFSIZE)%nat; try done;
    eexists; (split; [done|]); split; try done; apply Forall2_app; try done; by constructor.
Qed.

Fixpoint add_words (ws : list (list Z)) (d : lcmd (list Z)) : option (lcmd (list Z)) :=
  match ws with
  | [] => Some d
  | w :: ws' => d' ← add_token w w d; add_words ws' d'
  end.

Lemma parse_loop_ok fuel l pre zs c d :
  0 ∉ l -> (length l < fuel)%nat -> same_cmd pre c d ->
  match add_words (words l) d with
  | Some d' => exists c' b', parse_loop (pre ++ l ++ 0 :: zs) (length pre) c fuel = Some (c', b') /\ same_cmd b' c' d'
  | None => parse_loop (pre ++ l ++ 0 :: zs) (length pre) c fuel = None
  end.
Proof.
  revert l pre c d. induction fuel as [|fuel IH]; intros l pre c d H0 Hf Hc; [lia|]. cbn [parse_loop].
  destruct (first_word l H0) as [Hl|(ds & w & r & -> & Hds & Hw & Hr)].
  { rewrite <- (app_nil_r l), words_delims by done. simpl. rewrite app_nil_r, strtok_blank by done.
    eexists _, _. split; [done|]. by apply same_cmd_app. }
  apply not_elem_of_app in H0 as [H0d H0]. apply not_elem_of_app in H0 as [H0w H0r].
  assert (Htok : at_in (pre ++ ds ++ w ++ [0]) (length (pre ++ ds)) w).
  { exists (pre ++ ds), []. split; [by rewrite <- !app_assoc|done]. }
  rewrite words_delims by done. destruct Hr as [->|(e & r' & -> & He)].
  - rewrite app_nil_r, words_last by done. cbn [add_words]. rewrite strtok_end by done.
    assert (Htok' : at_in (pre ++ (ds ++ w) ++ 0 :: zs) (length (pre ++ ds)) w).
    { replace (pre ++ (ds ++ w) ++ 0 :: zs) with ((pre ++ ds ++ w ++ [0]) ++ zs) by (by rewrite <- !app_assoc). by apply at_in_app. }
    rewrite (at_in_pos _ _ _ Htok'). pose proof (add_token_same _ _ w c d Htok' (same_cmd_app pre _ c d Hc)) as Hadd.
    destruct (add_token w w d) as [d'|]; simpl; [|by rewrite Hadd]. destruct Hadd as (c' & -> & Hc'). simpl.
    destruct fuel as [|fuel]; [destruct Hw as [Hne _]; destruct w; [done|rewrite !length_app in Hf; simpl in Hf; lia]|]. cbn [parse_loop].
    replace (pre ++ (ds ++ w) ++ 0 :: zs) with ((pre ++ ds ++ w) ++ [] ++ 0 :: zs) in * by (by rewrite <- !app_assoc).
    rewrite strtok_blank by (done || apply not_elem_of_nil). eexists _, _. by split.
  - apply not_elem_of_cons in H0r as [Hne H0r]. rewrite words_cons by done. cbn [add_words]. rewrite strtok_mid by (done || congruence).
    rewrite (at_in_pos _ _ w) by (by apply at_in_app).
    pose proof (add_token_same _ _ w c d Htok (same_cmd_app pre _ c d Hc)) as Hadd.
    destruct (add_token w w d) as [d'|]; simpl; [|by rewrite Hadd]. destruct Hadd as (c' & -> & Hc'). simpl.
    apply IH; [done|rewrite !length_app in Hf; simpl in Hf; lia|done].
Qed.

(** [parse_line] is the words of the line, distributed over the two sides. *)
Lemma parse_line_ok line : 0 ∉ line -> (length line < LSH_RL_BUFSIZE)%nat -> parse_line line = add_words (words line) (mkLcmd CEXEC [] []).
Proof.
  intros H0 Hl. unfold parse_line, line_buf. destruct (LSH_RL_BUFSIZE - length line)%nat as [|m] eqn:E; [lia|]. cbn [replicate].
  pose proof (parse_loop_ok (S LSH_RL_BUFSIZE) line [] (replicate m 0) (mkLcmd CEXEC [] []) (mkLcmd CEXEC [] []) H0 ltac:(lia)) as H.
  simpl app in H. change (length (@nil Z)) with 0%nat in H. specialize (H ltac:(split; [done|constructor|constructor])).
  destruct (add_words (words line) (mkLcmd CEXEC [] [])) as [d|]; [|by rewrite H]. destruct H as (c & b & -> & [H1 H2 H3]). simpl. f_equal.
  assert (Hmap : forall ps ws, Forall2 (at_in b) ps ws -> at_pos b <$> ps = ws).
  { intros ps ws. induction 1 as [|p w ps ws Hp _ IH]; [done|]. cbn [fmap list_fmap]. f_equal; [by apply at_in_pos|done]. }
  rewrite H1, (Hmap _ _ H2), (Hmap _ _ H3). by destruct d.
Qed.

(** ** The words of a command *)

Lemma strcmp_eq p q : 0 ∉ p -> 0 ∉ q -> strcmp p q = 0 <-> p = q.
Proof.
  revert q. induction p as [|c p IH]; intros q Hp Hq; cbn [strcmp].
  - destruct q as [|d q]; [done|]. apply not_elem_of_cons in Hq as [Hd _]. cbn. split; [lia|done].
  - apply not_elem_of_cons in Hp as [Hc Hp]. destruct q as [|d q]; cbn [byte_at]; unfold byte_at; cbn.
    + rewrite (proj2 (Z.eqb_neq c 0)) by done. simpl. split; [lia|done].
    + apply not_elem_of_cons in Hq as [Hd Hq]. rewrite (proj2 (Z.eqb_neq c 0)) by done. cbn. rewrite drop_0. destruct (Z.eqb_spec c d) as [->|Hne].
      * rewrite IH by done. split; [by intros ->|by intros [= ->]].
      * split; [lia|congruence].
Qed.

Lemma strcmp_eqb p q : 0 ∉ p -> 0 ∉ q -> (strcmp p q =? 0) = bool_decide (p = q).
Proof.
  intros Hp Hq. pose proof (strcmp_eq p q Hp Hq). case_bool_decide; [apply Z.eqb_eq|apply Z.eqb_neq]; tauto.
Qed.

(** A word that is no operator. *)
Definition simple (w : list Z) : Prop := 0 ∉ w /\ w <> [60] /\ w <> [62] /\ w <> [124].

Lemma simple_token w d : simple w ->
  add_token w w d =
  match l_type d with
  | CEXEC => if (length (l_left d) <? LSH_TOK_BUFSIZE)%nat then Some (mkLcmd CEXEC (l_left d ++ [w]) (l_right d)) else None
  | ty => if (length (l_right d) <? LSH_TOK_BUFSIZE)%nat then Some (mkLcmd ty (l_left d) (l_right d ++ [w])) else None
  end.
Proof.
  intros (H0 & H1 & H2 & H3). unfold add_token. rewrite !strcmp_eqb by (done || (apply not_elem_of_cons; split; [lia|apply not_elem_of_nil])).
  by rewrite !bool_decide_false.
Qed.

Lemma add_left ws l : Forall simple ws -> (length l + length ws <= LSH_TOK_BUFSIZE)%nat ->
  forall rest, add_words (ws ++ rest) (mkLcmd CEXEC l []) = add_words rest (mkLcmd CEXEC (l ++ ws) []).
Proof.
  intros H. revert l. induction H as [|w ws Hw _ IH]; intros l Hl rest; [by rewrite app_nil_r|]. simpl in Hl. cbn [app add_words].
  rewrite simple_token by done. cbn [l_type l_left l_right]. rewrite (proj2 (Nat.ltb_lt _ _)) by lia. cbn [mbind option_bind].
  rewrite IH by (rewrite length_app; simpl; lia). by rewrite <- app_assoc.
Qed.

Lemma add_right ty ws l r : ty <> CEXEC -> Forall simple ws -> (length r + length ws <= LSH_TOK_BUFSIZE)%nat ->
  add_words ws (mkLcmd ty l r) = Some (mkLcmd ty l (r ++ ws)).
Proof.
  intros Hty H. revert r. induction H as [|w ws Hw _ IH]; intros r Hr; [by rewrite app_nil_r|]. simpl in Hr. cbn [add_words].
  rewrite simple_token by done. cbn [l_type l_left l_right].
  destruct ty; try done; (rewrite (proj2 (Nat.ltb_lt _ _)) by lia); cbn [mbind option_bind];
    (rewrite IH by (rewrite length_app; simpl; lia)); by rewrite <- app_assoc.
Qed.

Definition op_word (ty : ctype) : list (list Z) := match ty with CEXEC => [] | CREDIN => [[60]] | CREDOUT => [[62]] | CPIPE => [[124]] end.

(** The words of a command: the left side, an operator, the right side. *)
Record command (ty : ctype) (l r : list (list Z)) : Prop := {
  cm_left : Forall simple l;
  cm_right : Forall simple r;
  cm_empty : ty = CEXEC <-> r = [];
  cm_first : exists w, l !! 0%nat = Some w /\ w <> [99; 100] /\ w <> [104; 101; 108; 112] /\ w <> [101; 120; 105; 116];
  cm_few : (length l < LSH_TOK_BUFSIZE)%nat /\ (length r < LSH_TOK_BUFSIZE)%nat;
  cm_words : Forall (fun w => w <> []) (l ++ r)
}.

Lemma add_command ty l r : command ty l r -> add_words (l ++ op_word ty ++ r) (mkLcmd CEXEC [] []) = Some (mkLcmd ty l r).
Proof.
  intros [H1 H2 H3 _ [H4 H5] _]. rewrite add_left by (done || (simpl; lia)). cbn [app]. destruct ty; cbn [op_word app].
  - rewrite (proj1 H3) by done. done.
  - cbn [add_words]. change (add_token [124] [124] (mkLcmd CEXEC l [])) with (Some (mkLcmd CPIPE l ([] : list (list Z)))). cbn [mbind option_bind]. apply (add_right CPIPE); (done || (simpl; lia)).
  - cbn [add_words]. change (add_token [60] [60] (mkLcmd CEXEC l [])) with (Some (mkLcmd CREDIN l ([] : list (list Z)))). cbn [mbind option_bind]. apply (add_right CREDIN); (done || (simpl; lia)).
  - cbn [add_words]. change (add_token [62] [62] (mkLcmd CEXEC l [])) with (Some (mkLcmd CREDOUT l ([] : list (list Z)))). cbn [mbind option_bind]. apply (add_right CREDOUT); (done || (simpl; lia)).
Qed.

(** What the command denotes, in the language of the first shell. *)
Definition denotes (ty : ctype) (l r : list (list Z)) : tcmd :=
  let f := default [] (r !! 0%nat) in
  match ty with
  | CEXEC => EXEC l
  | CREDIN => REDIR (EXEC l) f O_RDONLY 0
  | CREDOUT => REDIR (EXEC l) f (Z.lor O_CREATE O_WRONLY) 1
  | CPIPE => PIPE (EXEC l) (EXEC r)
  end.

(** ** Execution *)

Lemma opened_close t a i : (3 <= a)%nat -> (i < 3)%nat -> opened t i -> opened (close_fd (Z.of_nat a) t) i.
Proof. intros Ha Hi [d Hd]. exists d. unfold close_fd. by rewrite Nat2Z.id, list_lookup_insert_ne by lia. Qed.

(** A file opened at [a] is put in place of [fd]. *)
Lemma run_redirect t fd file mode (k : prog) n : std_ok t -> (fd < 3)%nat -> forall (after_fork : prog),
  run (Open file mode (fun f => if f <? 0 then Print 2 after_fork else
    Fork (fun pid => if pid =? 0 then Close (Z.of_nat fd) (Dup f (fun _ => Close f k)) else Close f (Wait after_fork)))) t n =
  let (l1, n1) := run k (<[fd := Some (DFile file mode)]> t) n in
  let (l2, n2) := run after_fork t n1 in (l1 ++ l2, n2).
Proof.
  intros Ht Hfd p. destruct (alloc_high t (DFile file mode) Ht) as (a & Ea & Ha & Ha'). cbn [run]. rewrite Ea.
  rewrite (proj2 (Z.ltb_ge _ _)) by lia. cbn [run]. cbn [Z.eqb]. set (t1 := <[a := Some (DFile file mode)]> t).
  assert (La : t1 !! a = Some (Some (DFile file mode))) by (apply list_lookup_insert_eq; by eapply lookup_lt_Some).
  assert (Ho : forall i, (i < 3)%nat -> opened t1 i) by (intros i Hi; apply opened_insert; by apply Ht).
  pose proof (dup_closed t1 fd a (DFile file mode) (fun _ => Close (Z.of_nat a) k) n Ho Hfd Ha La) as Hd. cbn [run] in *. rewrite Hd.
  assert (Hc : forall x, close_fd (Z.of_nat a) (<[a := x]> t) = t).
  { intros x. unfold close_fd. rewrite Nat2Z.id, list_insert_insert_eq. by apply list_insert_id. }
  assert (E : close_fd (Z.of_nat a) (<[fd := Some (DFile file mode)]> t1) = <[fd := Some (DFile file mode)]> t).
  { unfold close_fd. rewrite Nat2Z.id, list_insert_insert_ne by lia. unfold t1. rewrite list_insert_insert_eq. by rewrite (list_insert_id t a None). }
  rewrite E. unfold t1. by rewrite Hc.
Qed.

(** One side of a pipe: close the other end, put this end in place of [fd]. *)
Lemma run_end t a b fd d e (k : prog) n : (forall i, (i < 3)%nat -> opened t i) -> (fd < 3)%nat -> (3 <= a)%nat -> (3 <= b)%nat -> a <> b ->
  t !! b = Some (Some d) -> t !! a = Some (Some e) ->
  run (Close (Z.of_nat a) (Close (Z.of_nat fd) (Dup (Z.of_nat b) (fun _ => Close (Z.of_nat b) k)))) t n =
  run k (close_fd (Z.of_nat b) (close_fd (Z.of_nat a) (<[fd := Some d]> t))) n.
Proof.
  intros Ho Hfd Ha Hb Hab Lb La. set (ta := close_fd (Z.of_nat a) t).
  change (run (Close (Z.of_nat a) ?q) t n) with (run q ta n). change (run (Close (Z.of_nat fd) ?q) ta n) with (run q (close_fd (Z.of_nat fd) ta) n).
  rewrite (dup_closed ta fd b d).
  - cbn [run]. f_equal. f_equal. unfold ta, close_fd. rewrite Nat2Z.id. apply list_insert_insert_ne. lia.
  - intros i Hi. by apply opened_close, Ho.
  - done.
  - done.
  - unfold ta, close_fd. by rewrite Nat2Z.id, list_lookup_insert_ne.
Qed.

Lemma run_lsh_pipe (L R k : prog) t n : std_ok t ->
  run (Pipe (fun p =>
    match p with
    | None => Print 2 k
    | Some (p0, p1) =>
        Fork (fun pid =>
          if pid =? 0 then Close p0 (Close 1 (Dup p1 (fun _ => Close p1 L)))
          else Fork (fun pid =>
            if pid =? 0 then Close p1 (Close 0 (Dup p0 (fun _ => Close p0 R)))
            else Close p0 (Close p1 (Wait (Wait k)))))
    end)) t n =
  let (l1, n1) := run L (<[1%nat := Some (DPipeW n)]> t) (S n) in
  let (l2, n2) := run R (<[0%nat := Some (DPipeR n)]> t) n1 in
  let (l3, n3) := run k t n2 in (l1 ++ l2 ++ l3, n3).
Proof.
  intros Ht. destruct (pipe_descs t n Ht) as (a & b & H). cbv zeta in H. set (t1 := <[a := Some (DPipeR n)]> t) in H.
  set (t2 := <[b := Some (DPipeW n)]> t1) in H. destruct H as (E & Ha & Hb & Hab & Ha' & Hbt & Ho2 & La & Lb). rewrite E.
  assert (Hswap : forall t, close_fd (Z.of_nat a) (close_fd (Z.of_nat b) t) = close_fd (Z.of_nat b) (close_fd (Z.of_nat a) t)).
  { intros t'. unfold close_fd. rewrite !Nat2Z.id. by apply list_insert_insert_ne. }
  pose proof (fun m => run_end t2 a b 1 (DPipeW n) _ L m Ho2 ltac:(lia) Ha Hb Hab Lb La) as HL.
  pose proof (fun m => run_end t2 b a 0 (DPipeR n) _ R m Ho2 ltac:(lia) Hb Ha ltac:(done) La Lb) as HR.
  setoid_rewrite Hswap in HR. unfold t2, t1 in HL, HR. setoid_rewrite plumb in HL; [|done||lia..]. setoid_rewrite plumb in HR; [|done||lia..].
  fold t1 in HL, HR. fold t2 in HL, HR. change (Z.of_nat 1) with 1 in HL. change (Z.of_nat 0) with 0 in HR. cbn [run Z.eqb] in *.
  rewrite HL. destruct (run L _ (S n)) as [l1 n1]. rewrite HR. destruct (run R _ n1) as [l2 n2].
  assert (Hc : close_fd (Z.of_nat b) (close_fd (Z.of_nat a) t2) = t).
  { unfold t2, t1, close_fd. rewrite !Nat2Z.id. rewrite (list_insert_insert_ne _ a b), list_insert_insert_eq by done.
    rewrite list_insert_insert_eq. rewrite (list_insert_id t a None) by done. by rewrite list_insert_id. }
  rewrite Hc. by destruct (run k t n2).
Qed.

(** [lsh_execute] runs what the words of a command denote, and goes on as [k]. *)
Lemma run_execute null_str after ty l r k t n : command ty l r -> std_ok t ->
  run (lsh_execute null_str after (mkLcmd ty l r) k) t n =
  let (l1, n1) := meaning (denotes ty l r) t n in
  let (l2, n2) := run k t n1 in (l1 ++ l2, n2).
Proof.
  intros Hc Ht. destruct (cm_first _ _ _ Hc) as (w & Hw & H1 & H2 & H3). unfold lsh_execute. cbn [l_left l_right l_type]. unfold arg at 1 2 3.
  rewrite Hw. cbn [default]. assert (Hz : 0 ∉ w) by (pose proof (cm_left _ _ _ Hc) as Hl; rewrite Forall_lookup in Hl; apply (Hl 0%nat w Hw)).
  rewrite !strcmp_eqb by (done || (apply (bool_decide_eq_true_1 _); vm_compute; reflexivity)). rewrite !bool_decide_false by done.
  assert (Hne : l <> []) by (intros ->; done). destruct (cm_few _ _ _ Hc) as [Hl Hr].
  assert (EL : forall ty', exec_left null_str after (mkLcmd ty' l r) = Exec w l (Print 2 Exit)).
  { intros ty'. unfold exec_left, left_argv, arg. cbn [l_left]. by rewrite Hw, (proj2 (Nat.ltb_lt _ _) Hl). }
  assert (ER : forall ty', exec_right null_str after (mkLcmd ty' l r) = Exec (arg null_str r 0) r (Print 2 Exit)).
  { intros ty'. unfold exec_right, right_argv. cbn [l_right]. by rewrite (proj2 (Nat.ltb_lt _ _) Hr). }
  rewrite EL, ER. pose proof (cm_empty _ _ _ Hc) as He. destruct ty; cbn [denotes].
  - by destruct l.
  - rewrite run_lsh_pipe by done. destruct l; [done|]. destruct r; [naive_solver|]. cbn [run meaning]. by destruct (run k t (S n)).
  - assert (Er : exists f, r !! 0%nat = Some f) by (destruct r; [naive_solver|by eexists]). destruct Er as [f Ef]. unfold arg. rewrite Ef. cbn [default].
    pose proof (run_redirect t 0 f O_RDONLY (Exec w l (Print 2 Exit)) n Ht ltac:(lia) k) as E.
    destruct l; [done|]. destruct (r !! 1%nat); exact E.
  - assert (Er : exists f, r !! 0%nat = Some f) by (destruct r; [naive_solver|by eexists]). destruct Er as [f Ef]. unfold arg. rewrite Ef. cbn [default].
    pose proof (run_redirect t 1 f (Z.lor O_CREATE O_WRONLY) (Exec w l (Print 2 Exit)) n Ht ltac:(lia) k) as E.
    destruct l; [done|]. destruct (r !! 1%nat); exact E.
Qed.

Lemma run_line_execute null_str after ty l r k : command ty l r ->
  run_line null_str after (mkLcmd ty l r) k = lsh_execute null_str after (mkLcmd ty l r) k.
Proof.
  intros Hc. pose proof (cm_words _ _ _ Hc) as Hw. apply Forall_app in Hw as [Hl Hr]. destruct (cm_first _ _ _ Hc) as (w & Ew & _).
  assert (Hs : forall ws v, Forall simple ws -> Forall (fun w => w <> []) ws -> ws !! 0%nat = Some v -> (strlen (v ++ [0]) =? 0) = false).
  { intros [|v' ws] v H1 H2 [= <-]. apply Forall_cons in H1 as [[H1 _] _]. apply Forall_cons in H2 as [H2 _]. destruct v' as [|c v]; [done|].
    apply not_elem_of_cons in H1 as [H1 _]. simpl. rewrite (proj2 (Z.eqb_neq c 0)) by done. pose proof (strlen_bounds (v ++ [0])). lia. }
  unfold run_line. cbn [l_left l_right l_type]. assert (El : arg null_str l 0 = w) by (unfold arg; by rewrite Ew). rewrite El, (Hs l w) by (done || apply Hc).
  pose proof (cm_empty _ _ _ Hc) as He. destruct r as [|f r]; [by rewrite (proj2 He)|]. change (arg null_str (f :: r) 0) with f.
  rewrite (Hs (f :: r) f) by (done || apply Hc). by destruct ty.
Qed.

(** C12: the second shell does with a line what its words say.  For every line
    of at most 1023 characters whose words are a command (a program and its
    arguments, and possibly one of the operators [<], [>] and [|] with what
    belongs to it, at most 63 words on a side), [main] parses the line without
    running past an array, and the processes it starts are those that the
    command denotes in the language of the first shell: the programs with
    their arguments, a redirection on its descriptor, the two ends of a fresh
    pipe, and no other descriptor left open in a program or in the shell,
    which goes on with its own descriptors. *)
Theorem lsh_runs (line null_str : list Z) (after : list (list Z)) (ty : ctype) (l r : list (list Z)) (k : prog) (t : fdtab) (n : nat)
  (Hline : 0 ∉ line) (Hlen : (length line < LSH_RL_BUFSIZE)%nat) (Hw : words line = l ++ op_word ty ++ r)
  (Hc : command ty l r) (Ht : std_ok t) :
  exists p, lsh_main null_str after line k = Some p /\
    run p t n = let (l1, n1) := meaning (denotes ty l r) t n in let (l2, n2) := run k t n1 in (l1 ++ l2, n2).
Proof.
  unfold lsh_main. rewrite parse_line_ok, Hw, add_command by done. cbn [mbind option_bind]. eexists. split; [done|].
  cbn [run]. rewrite run_line_execute by done. by apply run_execute.
Qed.

(** [ls -l | wc] with a line end. *)
Lemma lsh_runs_witness :
  exists p, lsh_main [] [] [108; 115; 32; 45; 108; 32; 124; 32; 119; 99; 10] Exit = Some p /\
    run p ([Some (DOther 0); Some (DOther 1); Some (DOther 2)] ++ replicate 13 None) 0 =
    ([([[108; 115]; [45; 108]], [Some (DOther 0); Some (DPipeW 0); Some (DOther 2)] ++ replicate 13 None);
      ([[119; 99]], [Some (DPipeR 0); Some (DOther 1); Some (DOther 2)] ++ replicate 13 None)], 1%nat).
Proof.
  apply (lsh_runs [108; 115; 32; 45; 108; 32; 124; 32; 119; 99; 10] [] [] CPIPE [[108; 115]; [45; 108]] [[119; 99]] Exit).
  - apply (bool_decide_eq_true_1 _). vm_compute. reflexivity.
  - apply (bool_decide_eq_true_1 _). vm_compute. reflexivity.
  - vm_compute. reflexivity.
  - split; [| |done|by exists [108; 115]|apply (bool_decide_eq_true_1 _); vm_compute; reflexivity|by repeat constructor].
    all: repeat (apply Forall_cons; split); try apply Forall_nil; split; try done; apply (bool_decide_eq_true_1 _); vm_compute; reflexivity.
  - split; [|vm_compute; lia]. intros [|[|[|i]]] Hi; [by eexists..|lia].
Defined.
