(* ===== verification/Ide.v ===== *)
(** * The disk driver

    [ide.c]: the queue of requests, linked through [qnext], the start of a
    request at the registers of the controller, the interrupt handler and
    [iderw].  The registers are a device of a class: the operations of the
    ports, and what the driver relies on in the ATA standard.  A step runs from
    [acquire(&idelock)] to the release of the lock, by [release] or in
    [sleep]. *)
From S2P Require Import Prelude Bio.
Local Open Scope Z_scope.

Definition SECTOR_SIZE : Z := 512.
Definition IDE_BSY : Z := 0x80.
Definition IDE_DRDY : Z := 0x40.
Definition IDE_DF : Z := 0x20.
Definition IDE_ERR : Z := 0x01.
Definition IDE_CMD_READ : Z := 0x20.
Definition IDE_CMD_WRITE : Z := 0x30.
Definition IDE_CMD_RDMUL : Z := 0xc4.
Definition IDE_CMD_WRMUL : Z := 0xc5.

(** ** Ports *)

Class Ports (D : Type) := {
  dev_inb : Z -> D -> Z * D;
  dev_outb : Z -> Z -> D -> D;
  dev_insl : Z -> nat -> D -> list Z * D;
  dev_outsl : Z -> list Z -> nat -> D -> D
}.

(** The registers of a controller, a read in progress, and the sectors of its
    drives. *)
Inductive phase := PIdle | PRead (drive : nat) (sector : Z).

Record ata := mkAta {
  a_count : Z; a_lba0 : Z; a_lba1 : Z; a_lba2 : Z; a_head : Z; a_phase : phase; a_drives : list (list block)
}.

(** The sector number in the registers, and the drive that is selected. *)
Definition lba (a : ata) : Z :=
  Z.lor (a_lba0 a) (Z.lor (Z.shiftl (a_lba1 a) 8) (Z.lor (Z.shiftl (a_lba2 a) 16) (Z.shiftl (Z.land (a_head a) 0x0f) 24))).
Definition drive (a : ata) : nat := if Z.testbit (a_head a) 4 then 1%nat else 0%nat.

Definition set_phase (p : phase) (a : ata) : ata := mkAta (a_count a) (a_lba0 a) (a_lba1 a) (a_lba2 a) (a_head a) p (a_drives a).
Definition set_drives (d : list (list block)) (a : ata) : ata := mkAta (a_count a) (a_lba0 a) (a_lba1 a) (a_lba2 a) (a_head a) PIdle d.

Definition ata_out (port v : Z) (a : ata) : ata :=
  if port =? 0x1f2 then mkAta v (a_lba0 a) (a_lba1 a) (a_lba2 a) (a_head a) (a_phase a) (a_drives a)
  else if port =? 0x1f3 then mkAta (a_count a) v (a_lba1 a) (a_lba2 a) (a_head a) (a_phase a) (a_drives a)
  else if port =? 0x1f4 then mkAta (a_count a) (a_lba0 a) v (a_lba2 a) (a_head a) (a_phase a) (a_drives a)
  else if port =? 0x1f5 then mkAta (a_count a) (a_lba0 a) (a_lba1 a) v (a_head a) (a_phase a) (a_drives a)
  else if port =? 0x1f6 then mkAta (a_count a) (a_lba0 a) (a_lba1 a) (a_lba2 a) v (a_phase a) (a_drives a)
  else a.

Definition sector_at (drv : nat) (s : Z) (a : ata) : block := default [] (default [] (a_drives a !! drv) !! Z.to_nat s).

Definition ata_write (drv : nat) (s : Z) (d : block) (a : ata) : ata :=
  set_drives (alter (fun l => <[Z.to_nat s := d]> l) drv (a_drives a)) a.

(** What the driver relies on: a device shows an [ata]; a read of the status
    changes nothing that is visible and says at last that the device is ready,
    without an error; a device that is ready obeys its registers, for a
    command on one sector; the data of a write are accepted after the command
    at once; the data of a read are there when the device is ready again. *)
Class IdeDevice (D : Type) `{Ports D} := {
  abs : D -> ata;
  ready : D -> Prop;
  lag : D -> nat;
  dev_poll d : let r := dev_inb 0x1f7 d in
    abs r.2 = abs d /\
    (Z.land r.1 (Z.lor IDE_BSY IDE_DRDY) = IDE_DRDY /\ Z.land r.1 (Z.lor IDE_DF IDE_ERR) = 0 /\ ready r.2 \/
     Z.land r.1 (Z.lor IDE_BSY IDE_DRDY) <> IDE_DRDY /\ (lag r.2 < lag d)%nat);
  dev_register port v d : ready d -> port ∈ [0x3f6; 0x1f2; 0x1f3; 0x1f4; 0x1f5; 0x1f6] ->
    ready (dev_outb port v d) /\ abs (dev_outb port v d) = ata_out port v (abs d);
  dev_read d : ready d -> a_count (abs d) = 1 -> Z.testbit (a_head (abs d)) 6 = true ->
    abs (dev_outb 0x1f7 IDE_CMD_READ d) = set_phase (PRead (drive (abs d)) (lba (abs d))) (abs d);
  dev_write d x : ready d -> a_count (abs d) = 1 -> Z.testbit (a_head (abs d)) 6 = true -> length x = BSIZE ->
    abs (dev_outsl 0x1f0 x 128 (dev_outb 0x1f7 IDE_CMD_WRITE d)) = ata_write (drive (abs d)) (lba (abs d)) x (abs d);
  dev_receive d drv s : ready d -> a_phase (abs d) = PRead drv s ->
    let r := dev_insl 0x1f0 128 d in r.1 = sector_at drv s (abs d) /\ abs r.2 = set_phase PIdle (abs d)
}.

(** ** The driver *)

(** Where a process is: not in [iderw]; in its loop, asleep on the buffer or
    about to test its flags. *)
Inductive place := Away | Asleep_on (b : nat) | Awake (b : nat).

Section Driver.
Context {D : Type} `{Ports D}.

Record ide := mkIde {
  i_dev : D; idequeue : option nat; qnext : list (option nat); havedisk1 : bool; i_bufs : list buf; i_procs : list place
}.

Definition set_idev x s := mkIde x (idequeue s) (qnext s) (havedisk1 s) (i_bufs s) (i_procs s).
Definition set_queue x s := mkIde (i_dev s) x (qnext s) (havedisk1 s) (i_bufs s) (i_procs s).
Definition set_qnext x s := mkIde (i_dev s) (idequeue s) x (havedisk1 s) (i_bufs s) (i_procs s).
Definition set_havedisk1 x s := mkIde (i_dev s) (idequeue s) (qnext s) x (i_bufs s) (i_procs s).
Definition set_ibufs x s := mkIde (i_dev s) (idequeue s) (qnext s) (havedisk1 s) x (i_procs s).
Definition set_iprocs x s := mkIde (i_dev s) (idequeue s) (qnext s) (havedisk1 s) (i_bufs s) x.

Notation I := (M ide).

Definition inb (port : Z) : I Z := fun s => let (v, d) := dev_inb port (i_dev s) in Ret v (set_idev d s).
Definition outb (port v : Z) : I unit := modify (fun s => set_idev (dev_outb port v (i_dev s)) s).
Definition insl (port : Z) (cnt : nat) : I (list Z) := fun s => let (v, d) := dev_insl port cnt (i_dev s) in Ret v (set_idev d s).
Definition outsl (port : Z) (x : list Z) (cnt : nat) : I unit := modify (fun s => set_idev (dev_outsl port x cnt (i_dev s)) s).

Definition ibuf (b : nat) : I buf := fun s =>
  match i_bufs s !! b with Some x => Ret x s | None => Panic "not a buffer" end.
Definition ibufupd (b : nat) (f : buf -> buf) : I unit := modify (fun s => set_ibufs (alter f b (i_bufs s)) s).

(** [idewait] polls at most [polls] times. *)
Fixpoint idewait (polls : nat) (checkerr : bool) : I Z :=
  match polls with
  | O => panic "the device is never ready"
  | S polls' =>
      r ← inb 0x1f7;
      if Z.land r (Z.lor IDE_BSY IDE_DRDY) =? IDE_DRDY then
        mret (if checkerr && negb (Z.land r (Z.lor IDE_DF IDE_ERR) =? 0) then -1 else 0)
      else idewait polls' checkerr
  end.

Context (polls : nat).

(** The loop of [ideinit] that looks for a second drive. *)
Fixpoint probe (n : nat) : I unit :=
  match n with
  | O => mret tt
  | S n' =>
      r ← inb 0x1f7;
      if negb (r =? 0) then modify (set_havedisk1 true) else probe n'
  end.

Definition ideinit : I unit :=
  idewait polls false;;
  outb 0x1f6 (Z.lor 0xe0 (Z.shiftl 1 4));;
  probe 1000;;
  outb 0x1f6 (Z.lor 0xe0 (Z.shiftl 0 4)).

Definition idestart (o : option nat) : I unit :=
  match o with
  | None => panic "idestart"
  | Some b =>
      x ← ibuf b;
      if FSSIZE <=? b_blockno x then panic "incorrect blockno"
      else
        let sector_per_block := Z.of_nat BSIZE / SECTOR_SIZE in
        let sector := s32 (b_blockno x * sector_per_block) in
        let read_cmd := if sector_per_block =? 1 then IDE_CMD_READ else IDE_CMD_RDMUL in
        let write_cmd := if sector_per_block =? 1 then IDE_CMD_WRITE else IDE_CMD_WRMUL in
        if 7 <? sector_per_block then panic "idestart"
        else
          idewait polls false;;
          outb 0x3f6 0;;
          outb 0x1f2 (u8 sector_per_block);;
          outb 0x1f3 (Z.land sector 0xff);;
          outb 0x1f4 (Z.land (Z.shiftr sector 8) 0xff);;
          outb 0x1f5 (Z.land (Z.shiftr sector 16) 0xff);;
          outb 0x1f6 (Z.lor 0xe0 (Z.lor (Z.shiftl (Z.land (b_dev x) 1) 4) (Z.land (Z.shiftr sector 24) 0x0f)));;
          if flag B_DIRTY x then outb 0x1f7 write_cmd;; outsl 0x1f0 (b_data x) (BSIZE / 4)
          else outb 0x1f7 read_cmd
  end.

(** [wakeup(b)] *)
Definition woken (b : nat) (p : place) : place :=
  match p with Asleep_on b' => if decide (b' = b) then Awake b else p | _ => p end.
Definition wakeup (b : nat) : I unit := modify (fun s => set_iprocs (woken b <$> i_procs s) s).

Definition ideintr : I unit :=
  q ← gets idequeue;
  match q with
  | None => mret tt
  | Some b =>
      n ← gets (fun s => default None (qnext s !! b));
      modify (set_queue n);;
      x ← ibuf b;
      (if negb (flag B_DIRTY x) then
         r ← idewait polls true;
         if 0 <=? r then d ← insl 0x1f0 (BSIZE / 4); ibufupd b (set_data d) else mret tt
       else mret tt);;
      ibufupd b (fun y => set_flags (Z.lor (b_flags y) B_VALID) y);;
      ibufupd b (fun y => set_flags (Z.land (b_flags y) (Z.lnot B_DIRTY)) y);;
      wakeup b;;
      match n with None => mret tt | Some _ => idestart n end
  end.

(** A cell that holds a link of the queue: [pp] of [iderw]. *)
Inductive link := LHead | LNext (b : nat).
Definition load (l : link) (s : ide) : option nat :=
  match l with LHead => idequeue s | LNext b => default None (qnext s !! b) end.
Definition store (l : link) (v : option nat) (s : ide) : ide :=
  match l with LHead => set_queue v s | LNext b => set_qnext (<[b := v]> (qnext s)) s end.

(** The walk of [pp] to the link that is null. *)
Fixpoint last_link (fuel : nat) (pp : link) (s : ide) : link :=
  match fuel with
  | O => pp
  | S fuel' => match load pp s with None => pp | Some b => last_link fuel' (LNext b) s end
  end.

(** The loop of [iderw]; entered again when the process wakes up. *)
Definition iderw_loop (b : nat) : I unit :=
  x ← ibuf b;
  if negb (Z.land (b_flags x) (Z.lor B_VALID B_DIRTY) =? B_VALID) then suspend else mret tt.

Definition iderw (b : nat) : I unit :=
  x ← ibuf b;
  if negb (b_locked x) then panic "iderw: buf not locked"
  else if Z.land (b_flags x) (Z.lor B_VALID B_DIRTY) =? B_VALID then panic "iderw: nothing to do"
  else
    have ← gets havedisk1;
    if negb (b_dev x =? 0) && negb have then panic "iderw: ide disk 1 not present"
    else
      modify (fun s => set_qnext (<[b := None]> (qnext s)) s);;
      modify (fun s => store (last_link (length (qnext s)) LHead s) (Some b) s);;
      q ← gets idequeue;
      (if decide (q = Some b) then idestart (Some b) else mret tt);;
      iderw_loop b.
End Driver.
