(* ===== verification/IdeClaims.v ===== *)
(** * The disk driver against the disk in memory

    Any number of processes call [iderw], interrupts arrive at any time, and
    the buffers that no process has in [iderw] change at will.  Every history
    of calls and returns is one of a disk on which the requests take effect
    one at a time, each as [iderw] of [memide.c] has it. *)
From S2P Require Import Prelude Bio Ide.
Local Open Scope Z_scope.

(** ** Histories of the driver *)

(** The holder of a buffer changes it; a process calls [iderw]; it returns,
    with the buffer as it is then. *)
Inductive event := EBuf (b : nat) (x : buf) | ECall (p b : nat) | EReturn (p b : nat) (x : buf).

Definition buf_ok (x : buf) : Prop := length (b_data x) = BSIZE /\ 0 <= b_blockno x.

(** A request on the file system's disk that [iderw] does not refuse. *)
Definition request_ok (x : buf) : Prop :=
  b_locked x = true /\ Z.land (b_flags x) (Z.lor B_VALID B_DIRTY) <> B_VALID /\ b_dev x = 1 /\ b_blockno x < FSSIZE.

Definition uses (b : nat) (u : place) : Prop := u = Asleep_on b \/ u = Awake b.

Section Histories.
Context {D : Type} `{Ports D} (polls : nat).
Notation ide := (@ide D).

(** The sleep lock of a buffer keeps a second process out of [iderw]. *)
Definition unused (b : nat) (s : ide) : Prop := forall p u, i_procs s !! p = Some u -> ~ uses b u.

Inductive istep (s : ide) : option event -> ide -> Prop :=
| is_buf b x : (b < length (i_bufs s))%nat -> unused b s -> buf_ok x ->
    istep s (Some (EBuf b x)) (set_ibufs (<[b := x]> (i_bufs s)) s)
| is_call p b x s' : i_procs s !! p = Some Away -> unused b s -> i_bufs s !! b = Some x -> request_ok x ->
    iderw polls b s = Asleep s' -> istep s (Some (ECall p b)) (set_iprocs (<[p := Asleep_on b]> (i_procs s')) s')
| is_intr s' : ideintr polls s = Ret tt s' -> istep s None s'
| is_kill p b : i_procs s !! p = Some (Asleep_on b) -> istep s None (set_iprocs (<[p := Awake b]> (i_procs s)) s)
| is_again p b s' : i_procs s !! p = Some (Awake b) -> iderw_loop b s = Asleep s' ->
    istep s None (set_iprocs (<[p := Asleep_on b]> (i_procs s')) s')
| is_return p b x s' : i_procs s !! p = Some (Awake b) -> iderw_loop b s = Ret tt s' -> i_bufs s' !! b = Some x ->
    istep s (Some (EReturn p b x)) (set_iprocs (<[p := Away]> (i_procs s')) s').

Inductive ihist (s0 : ide) : list event -> ide -> Prop :=
| ih_start : ihist s0 [] s0
| ih_step tr s e s' : ihist s0 tr s -> istep s e s' -> ihist s0 (tr ++ option_list e) s'.
End Histories.

(** ** Histories of the disk in memory *)

Inductive aplace := AAway | APending (b : nat) | ADone (b : nat).
Record mem := mkMem { m_bio : bio; m_procs : list aplace }.

Definition auses (b : nat) (v : aplace) : Prop := v = APending b \/ v = ADone b.
Definition aunused (b : nat) (a : mem) : Prop := forall p v, m_procs a !! p = Some v -> ~ auses b v.

(** A request takes effect at once, at some time between call and return. *)
Inductive mstep (a : mem) : option event -> mem -> Prop :=
| ms_buf b x : aunused b a -> mstep a (Some (EBuf b x)) (mkMem (set_bufs (<[b := x]> (bufs (m_bio a))) (m_bio a)) (m_procs a))
| ms_call p b : m_procs a !! p = Some AAway -> aunused b a -> mstep a (Some (ECall p b)) (mkMem (m_bio a) (<[p := APending b]> (m_procs a)))
| ms_do p b m' : m_procs a !! p = Some (APending b) -> Bio.iderw b (m_bio a) = Ret tt m' ->
    mstep a None (mkMem m' (<[p := ADone b]> (m_procs a)))
| ms_return p b x : m_procs a !! p = Some (ADone b) -> bufs (m_bio a) !! b = Some x ->
    mstep a (Some (EReturn p b x)) (mkMem (m_bio a) (<[p := AAway]> (m_procs a))).

Inductive mhist (a0 : mem) : list event -> mem -> Prop :=
| mh_start : mhist a0 [] a0
| mh_step tr a e a' : mhist a0 tr a -> mstep a e a' -> mhist a0 (tr ++ option_list e) a'.

(** ** One request *)

(** A buffer when its request is complete. *)
Definition finish (blk : block) (x : buf) : buf :=
  set_flags (Z.land (Z.lor (b_flags x) B_VALID) (Z.lnot B_DIRTY)) (if flag B_DIRTY x then x else set_data blk x).

Definition disk_after (x : buf) (d : list block) : list block :=
  if flag B_DIRTY x then <[Z.to_nat (b_blockno x) := b_data x]> d else d.

Definition block_at (d : list block) (x : buf) : block := default [] (d !! Z.to_nat (b_blockno x)).

Lemma flags_swap f : Z.lor (Z.land f (Z.lnot B_DIRTY)) B_VALID = Z.land (Z.lor f B_VALID) (Z.lnot B_DIRTY).
Proof.
  rewrite Z.land_lor_distr_l. by change (Z.land B_VALID (Z.lnot B_DIRTY)) with B_VALID.
Qed.

Lemma flags_clean x : flag B_DIRTY x = false -> Z.land (Z.lor (b_flags x) B_VALID) (Z.lnot B_DIRTY) = Z.lor (b_flags x) B_VALID.
Proof.
  unfold flag. intros Hf. apply negb_false_iff, Z.eqb_eq in Hf. rewrite <- flags_swap. f_equal.
  change (Z.lnot B_DIRTY) with (Z.lnot 4). rewrite <- Z.ldiff_land. rewrite <- (Z.lor_ldiff_and (b_flags x) 4) at 2.
  change 4 with B_DIRTY at 3. by rewrite Hf, Z.lor_0_r.
Qed.

Lemma flags_done f : Z.land (Z.land (Z.lor f B_VALID) (Z.lnot B_DIRTY)) (Z.lor B_VALID B_DIRTY) = B_VALID.
Proof.
  rewrite <- flags_swap, Z.land_lor_distr_l. rewrite <- Z.land_assoc.
  change (Z.land (Z.lnot B_DIRTY) (Z.lor B_VALID B_DIRTY)) with B_VALID. change (Z.land B_VALID (Z.lor B_VALID B_DIRTY)) with B_VALID.
  rewrite Z.lor_comm. apply Z.bits_inj'. intros i _. rewrite Z.lor_spec, Z.land_spec. destruct (Z.testbit B_VALID i), (Z.testbit f i); done.
Qed.

Lemma alter_alter {A} (f g : A -> A) (l : list A) i x : l !! i = Some x -> alter f i (alter g i l) = <[i := f (g x)]> l.
Proof.
  intros Hx. rewrite (alter_Some g l i x Hx), (alter_Some f _ i (g x)); [apply list_insert_insert_eq|]. apply list_lookup_insert_eq. by eapply lookup_lt_Some.
Qed.

Lemma memide_finish b x m :
  bufs m !! b = Some x -> request_ok x -> 0 <= b_blockno x -> FSSIZE <= Z.of_nat (length (disk m)) ->
  exists m', Bio.iderw b m = Ret tt m' /\ bufs m' = <[b := finish (block_at (disk m) x) x]> (bufs m) /\ disk m' = disk_after x (disk m).
Proof.
  intros Hb (Hl & Hf & Hd & Hn) H0 Hlen. unfold Bio.iderw.
  rewrite (bind_Ret _ _ _ x m) by (unfold bufat; by rewrite Hb). rewrite Hl, (proj2 (Z.eqb_neq _ _) Hf), Hd. cbn [negb Z.eqb Pos.eqb].
  rewrite (bind_Ret _ _ _ (disk m) m) by done. rewrite (proj2 (Z.leb_gt _ _)) by lia. unfold finish, disk_after, block_at. destruct (flag B_DIRTY x) eqn:Ef; simpl.
  - eexists. split; [done|]. simpl. split; [|done]. rewrite (alter_alter _ _ _ _ x Hb). cbn. by rewrite flags_swap.
  - eexists. split; [done|]. simpl. split; [|done]. rewrite (alter_alter _ _ _ _ x Hb). cbn. by rewrite flags_clean.
Qed.

(** ** The device *)

(** The registers that [idestart] writes select drive 1 and the sector. *)
Definition start_regs (n : Z) (a : ata) : ata :=
  mkAta 1 (Z.land n 0xff) (Z.land (Z.shiftr n 8) 0xff) (Z.land (Z.shiftr n 16) 0xff) (Z.lor 0xe0 (Z.lor (Z.shiftl 1 4) (Z.land (Z.shiftr n 24) 0x0f)))
    (a_phase a) (a_drives a).

Lemma start_regs_ok n a : 0 <= n < FSSIZE ->
  lba (start_regs n a) = n /\ drive (start_regs n a) = 1%nat /\ Z.testbit (a_head (start_regs n a)) 6 = true.
Proof.
  intros Hn. assert (E : forallb (fun i => let a := start_regs (Z.of_nat i) (mkAta 0 0 0 0 0 PIdle []) in
    (lba a =? Z.of_nat i) && (drive a =? 1)%nat && Z.testbit (a_head a) 6) (seq 0 (Z.to_nat FSSIZE)) = true) by (vm_compute; reflexivity).
  rewrite forallb_forall in E. specialize (E (Z.to_nat n)). rewrite Z2Nat.id in E by lia.
  destruct (andb_prop _ _ (E ltac:(apply in_seq; unfold FSSIZE in *; lia))) as [E1 E3]. apply andb_prop in E1 as [E1 E2].
  split; [by apply Z.eqb_eq in E1|]. split; [by apply Nat.eqb_eq in E2|done].
Qed.

Section Device.
Context {D : Type} `{IdeDevice D} (polls : nat) (Hpolls : forall d : D, (lag d < polls)%nat).
Notation ide := (@ide D).

Lemma idewait_ok n c (s : ide) : (lag (i_dev s) < n)%nat ->
  exists d, idewait n c s = Ret 0 (set_idev d s) /\ abs d = abs (i_dev s) /\ ready d.
Proof using Type.
  revert s. induction n as [|n IH]; intros s Hn; [lia|]. cbn [idewait]. pose proof (dev_poll (i_dev s)) as Hp. cbv zeta in Hp.
  destruct (dev_inb 0x1f7 (i_dev s)) as [r d] eqn:E. cbn [fst snd] in Hp.
  rewrite (bind_Ret _ _ _ r (set_idev d s)) by (unfold inb; by rewrite E). destruct Hp as [Ha [(H1 & H2 & H3)|[H1 H2]]].
  - rewrite (proj2 (Z.eqb_eq _ _) H1), (proj2 (Z.eqb_eq _ _) H2), andb_false_r. by exists d.
  - rewrite (proj2 (Z.eqb_neq _ _) H1). destruct (IH (set_idev d s)) as (d' & E' & Ha' & Hr); [cbn; lia|]. exists d'. split; [done|]. split; [|done].
    etrans; [exact Ha'|exact Ha].
Qed.

(** A write to a register of a device that is ready. *)
Lemma outb_ok {A} port v (k : unit -> M ide A) (s : ide) Q :
  ready (i_dev s) -> port ∈ [0x3f6; 0x1f2; 0x1f3; 0x1f4; 0x1f5; 0x1f6] ->
  (forall d, ready d -> abs d = ata_out port v (abs (i_dev s)) -> Q (k tt (set_idev d s))) -> Q ((outb port v ≫= k) s).
Proof using Type.
  intros Hr Hp HQ. destruct (dev_register port v (i_dev s) Hr Hp) as [H1 H2].
  rewrite (bind_Ret _ _ _ tt (set_idev (dev_outb port v (i_dev s)) s)) by done. by apply HQ.
Qed.

(** The next register. *)
Ltac reg d R E := eapply outb_ok; [done|apply (bool_decide_eq_true_1 _); reflexivity|]; intros d R E; cbn [i_dev set_idev] in E.

(** [idestart] makes the device execute the request. *)
Lemma idestart_ok b x (s : ide) :
  i_bufs s !! b = Some x -> request_ok x -> buf_ok x ->
  exists d, idestart polls (Some b) s = Ret tt (set_idev d s) /\
    a_drives (abs d) = (if flag B_DIRTY x then alter (fun l => <[Z.to_nat (b_blockno x) := b_data x]> l) 1%nat (a_drives (abs (i_dev s))) else a_drives (abs (i_dev s))) /\
    (flag B_DIRTY x = false -> a_phase (abs d) = PRead 1 (b_blockno x)).
Proof using Hpolls.
  intros Hb (_ & _ & Hdev & Hn) [Hl Hge]. unfold idestart. rewrite (bind_Ret _ _ _ x s) by (unfold ibuf; by rewrite Hb).
  rewrite (proj2 (Z.leb_gt _ _)) by lia. change (Z.of_nat BSIZE / SECTOR_SIZE) with 1. cbv zeta. change (7 <? 1) with false. cbv iota.
  change (1 =? 1) with true. cbv iota. rewrite Z.mul_1_r, s32_id by (unfold FSSIZE in Hn; lia). rewrite Hdev. change (Z.land 1 1) with 1.
  destruct (idewait_ok polls false s (Hpolls _)) as (d0 & E0 & Ha0 & Hr0). rewrite (bind_Ret _ _ _ _ _ E0).
  pose proof (start_regs_ok (b_blockno x) (abs (i_dev s)) ltac:(lia)) as Hs.
  reg d1 R1 E1. reg d2 R2 E2. reg d3 R3 E3. reg d4 R4 E4. reg d5 R5 E5. reg d6 R6 E6.
  assert (Ed : abs d6 = start_regs (b_blockno x) (abs (i_dev s))) by (rewrite E6, E5, E4, E3, E2, E1, Ha0; reflexivity).
  assert (Es : set_idev d6 (set_idev d5 (set_idev d4 (set_idev d3 (set_idev d2 (set_idev d1 (set_idev d0 s)))))) = set_idev d6 s) by reflexivity.
  rewrite Es. destruct Hs as (H1 & H2 & H3). rewrite <- Ed in H1, H2, H3.
  assert (Hc : a_count (abs d6) = 1) by (by rewrite Ed). destruct (flag B_DIRTY x).
  - eexists. split; [reflexivity|]. split; [|done]. cbn [i_dev set_idev]. change (BSIZE / 4)%nat with 128%nat.
    rewrite dev_write, H1, H2 by done. cbn. by rewrite Ed.
  - eexists. split; [reflexivity|]. cbn [i_dev set_idev]. rewrite dev_read, H1, H2 by done. split; [|done]. cbn. by rewrite Ed.
Qed.

Lemma probe_ok n (s : ide) : (lag (i_dev s) < n)%nat ->
  exists d, probe n s = Ret tt (set_havedisk1 true (set_idev d s)) /\ abs d = abs (i_dev s).
Proof using Type.
  revert s. induction n as [|n IH]; intros s Hn; [lia|]. cbn [probe]. pose proof (dev_poll (i_dev s)) as Hp. cbv zeta in Hp.
  destruct (dev_inb 0x1f7 (i_dev s)) as [r d] eqn:E. cbn [fst snd] in Hp.
  rewrite (bind_Ret _ _ _ r (set_idev d s)) by (unfold inb; by rewrite E). destruct Hp as [Ha Hp]. destruct (Z.eqb_spec r 0) as [->|Hr]; cbn [negb].
  - destruct Hp as [[Hp _]|[_ Hp]]; [done|]. destruct (IH (set_idev d s)) as (d' & E' & Ha'); [cbn; lia|]. exists d'. split; [done|]. etrans; [exact Ha'|exact Ha].
  - by exists d.
Qed.

(** [ideinit] finds the second drive when it is there. *)
Lemma ideinit_finds (s : ide) : (polls <= 1000)%nat ->
  exists d, ideinit polls s = Ret tt (set_havedisk1 true (set_idev d s)).
Proof using Hpolls.
  intros Hle. unfold ideinit. destruct (idewait_ok polls false s (Hpolls _)) as (d0 & E0 & Ha0 & Hr0). rewrite (bind_Ret _ _ _ _ _ E0).
  erewrite bind_Ret by reflexivity. edestruct (probe_ok 1000) as (d1 & E1 & _); [|rewrite (bind_Ret _ _ _ _ _ E1); by eexists].
  pose proof (Hpolls (dev_outb 0x1f6 (Z.lor 0xe0 (Z.shiftl 1 4)) d0)). cbn [i_dev set_idev]. lia.
Qed.

(** The interrupt handler, up to the start of the next request. *)
Lemma ideintr_head b x (s : ide) :
  idequeue s = Some b -> i_bufs s !! b = Some x -> (flag B_DIRTY x = false -> a_phase (abs (i_dev s)) = PRead 1 (b_blockno x)) ->
  let n := default None (qnext s !! b) in
  exists d, a_drives (abs d) = a_drives (abs (i_dev s)) /\
    ideintr polls s =
    match n with None => mret tt | Some _ => idestart polls n end
      (set_iprocs (woken b <$> i_procs s) (set_ibufs (<[b := finish (sector_at 1 (b_blockno x) (abs (i_dev s))) x]> (i_bufs s)) (set_idev d (set_queue n s)))).
Proof using Hpolls.
  intros Hq Hb Hph n. unfold ideintr. rewrite (bind_Ret _ _ _ (Some b) s) by (cbn; by rewrite Hq).
  rewrite (bind_Ret _ _ _ n s) by done. rewrite (bind_Ret _ _ _ tt (set_queue n s)) by done. rewrite (bind_Ret _ _ _ x (set_queue n s)) by (unfold ibuf; cbn; by rewrite Hb).
  unfold finish. destruct (flag B_DIRTY x) eqn:Ef; cbn [negb].
  - exists (i_dev s). split; [done|]. rewrite (bind_Ret _ _ _ tt (set_queue n s)) by done.
    do 3 (erewrite bind_Ret by reflexivity). cbn [i_bufs set_ibufs i_procs set_queue]. by rewrite (alter_alter _ _ _ _ x Hb).
  - destruct (idewait_ok polls true (set_queue n s) (Hpolls _)) as (d0 & E0 & Ha0 & Hr0). cbn [i_dev set_queue] in Ha0.
    pose proof (dev_receive d0 1 (b_blockno x) Hr0 ltac:(rewrite Ha0; by apply Hph)) as Hrc. cbv zeta in Hrc.
    destruct (dev_insl 0x1f0 128 d0) as [v d1] eqn:Ei. cbn [fst snd] in Hrc. destruct Hrc as [-> Hd1]. exists d1. split; [by rewrite Hd1; cbn; rewrite Ha0|].
    erewrite bind_Ret; last first.
    { rewrite (bind_Ret _ _ _ _ _ E0). cbn [Z.leb Z.compare]. cbv iota. change (BSIZE / 4)%nat with 128%nat.
      erewrite bind_Ret; [reflexivity|]. unfold insl. cbn [i_dev set_idev]. by rewrite Ei. }
    do 3 (erewrite bind_Ret by reflexivity). cbn [i_bufs set_ibufs i_procs set_queue set_idev]. rewrite Ha0.
    rewrite (alter_Some _ _ _ x Hb). rewrite (alter_alter _ _ _ _ (set_data (sector_at 1 (b_blockno x) (abs (i_dev s))) x)) by (apply list_lookup_insert_eq; by eapply lookup_lt_Some).
    by rewrite list_insert_insert_eq.
Qed.
End Device.

(** ** The queue *)

Fixpoint chain (nx : list (option nat)) (o : option nat) (q : list nat) : Prop :=
  match q with
  | [] => o = None
  | b :: q' => o = Some b /\ chain nx (default None (nx !! b)) q'
  end.

Lemma chain_insert nx o q b v : b ∉ q -> chain nx o q -> chain (<[b := v]> nx) o q.
Proof.
  revert o. induction q as [|c q IH]; intros o Hb Hc; [done|]. apply not_elem_of_cons in Hb as [Hb1 Hb2]. destruct Hc as [-> Hc].
  split; [done|]. rewrite list_lookup_insert_ne by done. by apply IH.
Qed.

Lemma chain_snoc nx q c b o : (c < length nx)%nat -> (b < length nx)%nat -> c <> b -> b ∉ q -> c ∉ q -> nx !! b = Some None ->
  chain nx o (q ++ [c]) -> chain (<[c := Some b]> nx) o (q ++ [c; b]).
Proof.
  intros Hc Hb Hcb Hbq Hcq Hn. revert o. induction q as [|a q IH]; intros o; simpl.
  - intros [-> _]. split; [done|]. rewrite list_lookup_insert_eq by done. split; [done|]. by rewrite list_lookup_insert_ne, Hn.
  - apply not_elem_of_cons in Hbq as [Hb1 Hb2]. apply not_elem_of_cons in Hcq as [Hc1 Hc2]. intros [-> Ha]. split; [done|].
    rewrite list_lookup_insert_ne by done. by apply IH.
Qed.

Section Queue.
Context {D : Type} `{Ports D}.
Notation ide := (@ide D).

Lemma last_link_spec fuel l (s : ide) q : chain (qnext s) (load l s) q -> (length q <= fuel)%nat ->
  last_link fuel l s = match last q with None => l | Some b => LNext b end.
Proof using Type.
  revert l fuel. induction q as [|b q IH]; intros l fuel Hc Hf.
  - cbn in Hc. destruct fuel; [done|]. cbn. by rewrite Hc.
  - destruct Hc as [Hl Hc]. destruct fuel as [|fuel]; [simpl in Hf; lia|]. cbn [last_link]. rewrite Hl. rewrite (IH (LNext b)); [|done|simpl in Hf; lia].
    destruct q as [|c q]; [done|]. by rewrite last_cons_cons; destruct (last (c :: q)) eqn:E; [|by apply last_None in E].
Qed.

Lemma short_list (q : list nat) n : NoDup q -> Forall (fun b => b < n)%nat q -> (length q <= n)%nat.
Proof using Type.
  intros Hn Hq. rewrite <- (length_seq n 0). apply submseteq_length, NoDup_submseteq; [done|].
  intros b Hb. rewrite elem_of_seq. rewrite Forall_forall in Hq. specialize (Hq b Hb). lia.
Qed.

(** [iderw] appends its buffer to the queue. *)
Lemma enqueue b (s : ide) q :
  chain (qnext s) (idequeue s) q -> NoDup q -> Forall (fun b => b < length (qnext s))%nat q -> b ∉ q -> (b < length (qnext s))%nat ->
  let s1 := set_qnext (<[b := None]> (qnext s)) s in
  exists nx, store (last_link (length (qnext s1)) LHead s1) (Some b) s1 = set_qnext nx (set_queue (head (q ++ [b])) s) /\
    length nx = length (qnext s) /\ chain nx (head (q ++ [b])) (q ++ [b]).
Proof using Type.
  intros Hc Hd Hr Hbq Hb s1. assert (Hc1 : chain (qnext s1) (load LHead s1) q) by (cbn; by apply chain_insert).
  rewrite (last_link_spec _ _ _ q Hc1); [|cbn; rewrite length_insert; by apply short_list].
  assert (Hn : qnext s1 !! b = Some None) by (cbn; by apply list_lookup_insert_eq).
  destruct q as [|c q _] using rev_ind.
  - exists (qnext s1). split; [done|]. split; [cbn; by rewrite length_insert|]. cbn. split; [done|]. cbn in Hn. by rewrite Hn.
  - rewrite last_snoc. apply NoDup_app in Hd as (_ & Hd & _). rewrite Forall_app, Forall_singleton in Hr. destruct Hr as [_ Hr].
    apply not_elem_of_app in Hbq as [Hbq Hbc]. exists (<[c := Some b]> (qnext s1)). 
    assert (Hh : head ((q ++ [c]) ++ [b]) = idequeue s) by (cbn in Hc1; destruct q; [by destruct Hc1|by destruct Hc1]).
    split; [|split].
    + rewrite Hh. reflexivity.
    + cbn. by rewrite !length_insert.
    + rewrite Hh. rewrite <- app_assoc. apply chain_snoc; try (cbn; rewrite ?length_insert); try done.
      * set_solver.
      * intros Hin. apply (Hd c Hin). set_solver.
Qed.
End Queue.

(** ** The simulation *)

Definition settled (bs : list buf) (b : nat) : Prop :=
  exists x, bs !! b = Some x /\ Z.land (b_flags x) (Z.lor B_VALID B_DIRTY) = B_VALID.

(** [cur] is the request that the device executes, [pend] are those that
    wait; the request of [cur] has taken effect. *)
Definition prel (cur : option nat) (pend : list nat) (bs : list buf) (u : place) (v : aplace) : Prop :=
  match u, v with
  | Away, AAway => True
  | (Asleep_on b | Awake b), APending b' => b = b' /\ b ∈ pend
  | Asleep_on b, ADone b' => b = b' /\ b ∉ pend /\ cur = Some b
  | Awake b, ADone b' => b = b' /\ b ∉ pend /\ (cur = Some b \/ settled bs b)
  | _, _ => False
  end.

Definition owned (vs : list aplace) (b : nat) : Prop := exists p v, vs !! p = Some v /\ auses b v.
Definition distinct (vs : list aplace) : Prop :=
  forall p p' v v' b, vs !! p = Some v -> vs !! p' = Some v' -> auses b v -> auses b v' -> p = p'.

Lemma prel_uses cur pend bs u v b : prel cur pend bs u v -> uses b u <-> auses b v.
Proof. unfold uses, auses. destruct u, v; simpl; intros Hp; try done; try (destruct Hp as [-> _]); naive_solver. Qed.

Lemma not_owned us vs cur pend bs b : Forall2 (prel cur pend bs) us vs -> (forall p u, us !! p = Some u -> ~ uses b u) -> ~ owned vs b.
Proof.
  intros Hf Hu (p & v & Hp & Hv). destruct (Forall2_lookup_r _ _ _ _ _ Hf Hp) as (u & Hu' & Hr). apply (Hu p u Hu'). by eapply prel_uses.
Qed.

Lemma owned_insert vs p v w b : vs !! p = Some v -> (auses b v -> auses b w) -> owned vs b -> owned (<[p := w]> vs) b.
Proof.
  intros Hp Hvw (p' & v' & Hp' & Hv'). destruct (decide (p = p')) as [->|].
  - exists p', w. rewrite list_lookup_insert_eq by (by eapply lookup_lt_Some). split; [done|]. apply Hvw. by simplify_eq.
  - exists p', v'. by rewrite list_lookup_insert_ne.
Qed.

Lemma distinct_insert vs p w : distinct vs -> (forall b, auses b w -> (exists v, vs !! p = Some v /\ auses b v) \/ ~ owned vs b) -> distinct (<[p := w]> vs).
Proof.
  intros Hd Hw p1 p2 v1 v2 b H1 H2 U1 U2. apply list_lookup_insert_Some in H1, H2.
  destruct H1 as [(-> & -> & _)|[N1 H1]], H2 as [(-> & -> & _)|[N2 H2]]; [done| | |by eapply Hd].
  - destruct (Hw b U1) as [(v & Hv & Hu)|Hn]; [by eapply Hd|]. destruct Hn. by exists p2, v2.
  - destruct (Hw b U2) as [(v & Hv & Hu)|Hn]; [by eapply Hd|]. destruct Hn. by exists p1, v1.
Qed.

Lemma finish_settled blk x : Z.land (b_flags (finish blk x)) (Z.lor B_VALID B_DIRTY) = B_VALID.
Proof. unfold finish. cbn [b_flags set_flags]. apply flags_done. Qed.

Lemma finish_buf_ok blk x : buf_ok x -> length blk = BSIZE -> buf_ok (finish blk x).
Proof. unfold buf_ok, finish. intros [H1 H2] H3. destruct (flag B_DIRTY x); done. Qed.

Lemma block_at_length d x : Forall (fun d => length d = BSIZE) d -> (Z.to_nat (b_blockno x) < length d)%nat -> length (block_at d x) = BSIZE.
Proof.
  intros Hd Hx. unfold block_at. destruct (lookup_lt_is_Some_2 d _ Hx) as [y Hy]. rewrite Hy. rewrite Forall_lookup in Hd. by apply (Hd _ _ Hy).
Qed.

Lemma request_lt x n : request_ok x -> buf_ok x -> n = Z.to_nat FSSIZE -> (Z.to_nat (b_blockno x) < n)%nat.
Proof. intros (_ & _ & _ & H1) [_ H2] ->. unfold FSSIZE in *. lia. Qed.

Lemma finish_dirty blk blk' x : flag B_DIRTY x = true -> finish blk x = finish blk' x.
Proof. unfold finish. by intros ->. Qed.

Lemma prel_start b pend bs us vs p :
  Forall2 (prel None (b :: pend) bs) us vs -> NoDup (b :: pend) -> distinct vs -> vs !! p = Some (APending b) ->
  Forall2 (prel (Some b) pend bs) us (<[p := ADone b]> vs).
Proof.
  intros Hf Hn Hd Hp. apply NoDup_cons in Hn as [Hn _]. apply Forall2_same_length_lookup.
  split; [rewrite length_insert; by eapply Forall2_length|]. intros i u v Hu Hv. apply list_lookup_insert_Some in Hv as [(<- & <- & _)|[Hne Hv]].
  - pose proof (Forall2_lookup_lr _ _ _ _ _ _ Hf Hu Hp) as Hr. destruct u; simpl in *; naive_solver.
  - pose proof (Forall2_lookup_lr _ _ _ _ _ _ Hf Hu Hv) as Hr. destruct u as [|c|c], v as [|c'|c']; simpl in *; try done; destruct Hr as [<- Hr]; split; try done.
    + apply elem_of_cons in Hr as [->|]; [|done]. destruct Hne. eapply Hd; [exact Hp|exact Hv|by left|by left].
    + by destruct Hr.
    + apply elem_of_cons in Hr as [->|]; [|done]. destruct Hne. eapply Hd; [exact Hp|exact Hv|by left|by left].
    + set_solver.
Qed.

Lemma Forall2_impl_lookup {A B} (P Q : A -> B -> Prop) l k :
  Forall2 P l k -> (forall i x y, l !! i = Some x -> k !! i = Some y -> P x y -> Q x y) -> Forall2 Q l k.
Proof.
  intros Hp Hq. apply Forall2_same_length_lookup. split; [by eapply Forall2_length|]. intros i x y Hx Hy. eapply Hq; [done..|]. by eapply Forall2_lookup_lr.
Qed.

Section Simulation.
Context {D : Type} `{IdeDevice D}.
Notation ide := (@ide D).

Record rel (cur : option nat) (pend : list nat) (s : ide) (a : mem) : Prop := {
  r_chain : chain (qnext s) (idequeue s) (option_list cur ++ pend);
  r_nodup : NoDup (option_list cur ++ pend);
  r_next : length (qnext s) = length (i_bufs s);
  r_have : havedisk1 s = true;
  r_ok b x : i_bufs s !! b = Some x -> buf_ok x;
  r_drive : a_drives (abs (i_dev s)) !! 1%nat = Some (disk (m_bio a));
  r_disk : length (disk (m_bio a)) = Z.to_nat FSSIZE /\ Forall (fun d => length d = BSIZE) (disk (m_bio a));
  r_bufs : length (bufs (m_bio a)) = length (i_bufs s);
  r_same b : cur <> Some b -> i_bufs s !! b = bufs (m_bio a) !! b;
  r_pend b : b ∈ pend -> exists x, i_bufs s !! b = Some x /\ request_ok x;
  r_cur b : cur = Some b -> exists x, i_bufs s !! b = Some x /\ request_ok x /\
    bufs (m_bio a) !! b = Some (finish (block_at (disk (m_bio a)) x) x) /\
    (flag B_DIRTY x = false -> a_phase (abs (i_dev s)) = PRead 1 (b_blockno x));
  r_procs : Forall2 (prel cur pend (i_bufs s)) (i_procs s) (m_procs a);
  r_owned b : b ∈ option_list cur ++ pend -> owned (m_procs a) b;
  r_distinct : distinct (m_procs a)
}.

(** The next request starts and takes effect. *)
Lemma start_rel b pend (s : ide) a x d :
  rel None (b :: pend) s a -> i_bufs s !! b = Some x ->
  a_drives (abs d) = (if flag B_DIRTY x then alter (fun l => <[Z.to_nat (b_blockno x) := b_data x]> l) 1%nat (a_drives (abs (i_dev s))) else a_drives (abs (i_dev s))) ->
  (flag B_DIRTY x = false -> a_phase (abs d) = PRead 1 (b_blockno x)) ->
  exists a', mstep a None a' /\ rel (Some b) pend (set_idev d s) a'.
Proof using Type.
  intros R Hx Hdr Hph. destruct (r_pend _ _ _ _ R b ltac:(left)) as (x' & Hx' & Hreq). assert (x' = x) as -> by congruence.
  pose proof (r_ok _ _ _ _ R b x Hx) as Hok. destruct (r_disk _ _ _ _ R) as [Hdl Hdb].
  destruct (memide_finish b x (m_bio a)) as (m' & Em & Eb & Ed); [rewrite <- (r_same _ _ _ _ R b) by done; done|done|apply Hok|rewrite Hdl; unfold FSSIZE; lia|].
  destruct (r_owned _ _ _ _ R b ltac:(left)) as (p & v & Hp & Hv).
  assert (v = APending b) as ->.
  { destruct (Forall2_lookup_r _ _ _ _ _ (r_procs _ _ _ _ R) Hp) as (u & Hu & Hr). destruct Hv as [->| ->]; [done|]. destruct u; simpl in Hr; set_solver. }
  exists (mkMem m' (<[p := ADone b]> (m_procs a))). split; [by apply (ms_do a p b)|].
  pose proof (r_nodup _ _ _ _ R) as Hnd. split; cbn [m_bio m_procs i_dev set_idev qnext idequeue i_bufs havedisk1 i_procs option_list app].
  - apply (r_chain _ _ _ _ R).
  - done.
  - apply (r_next _ _ _ _ R).
  - apply (r_have _ _ _ _ R).
  - apply (r_ok _ _ _ _ R).
  - rewrite Hdr, Ed. unfold disk_after. destruct (flag B_DIRTY x); [|apply (r_drive _ _ _ _ R)].
    by rewrite list_lookup_alter_eq, (r_drive _ _ _ _ R).
  - rewrite Ed. unfold disk_after. destruct (flag B_DIRTY x); [|done]. split; [by rewrite length_insert|]. apply Forall_insert; [done|]. apply Hok.
  - rewrite Eb, length_insert. apply (r_bufs _ _ _ _ R).
  - intros c Hc. rewrite Eb, list_lookup_insert_ne by congruence. by apply (r_same _ _ _ _ R).
  - intros c Hc. apply (r_pend _ _ _ _ R). by right.
  - intros c [= <-]. exists x. split; [done|]. split; [done|]. split; [|done]. rewrite Eb, list_lookup_insert_eq, Ed by (rewrite (r_bufs _ _ _ _ R); by eapply lookup_lt_Some).
    f_equal. unfold disk_after. destruct (flag B_DIRTY x) eqn:Ef; [by apply finish_dirty|done].
  - apply prel_start; [apply R|done|apply R|done].
  - intros c Hc. eapply owned_insert; [exact Hp| |by apply (r_owned _ _ _ _ R)]. intros [[= ->]|[=]]. by right.
  - apply distinct_insert; [apply R|]. intros c [[=]|[= ->]]. left. exists (APending c). split; [done|by left].
Qed.

(** A process calls. *)
Lemma enqueue_rel cur pend (s : ide) a p b x nx :
  rel cur pend s a -> i_procs s !! p = Some Away -> unused b s -> i_bufs s !! b = Some x -> request_ok x ->
  length nx = length (qnext s) -> chain nx (head ((option_list cur ++ pend) ++ [b])) ((option_list cur ++ pend) ++ [b]) ->
  let a' := mkMem (m_bio a) (<[p := APending b]> (m_procs a)) in
  mstep a (Some (ECall p b)) a' /\
  rel cur (pend ++ [b]) (set_iprocs (<[p := Asleep_on b]> (i_procs s)) (set_qnext nx (set_queue (head ((option_list cur ++ pend) ++ [b])) s))) a'.
Proof using Type.
  intros R Hp Hun Hx Hreq Hnl Hnx a'. pose proof (not_owned _ _ _ _ _ b (r_procs _ _ _ _ R) Hun) as Hno.
  assert (Hbq : b ∉ option_list cur ++ pend) by (intros Hin; by apply Hno, (r_owned _ _ _ _ R)).
  assert (Hcb : cur <> Some b) by (intros ->; apply Hbq; left).
  destruct (Forall2_lookup_l _ _ _ _ _ (r_procs _ _ _ _ R) Hp) as (v & Hv & Hr). destruct v; try done.
  split; [apply ms_call; [done|]; intros p' v' Hp' Hv'; apply Hno; by exists p', v'|].
  assert (Hpl : (p < length (m_procs a))%nat) by (by eapply lookup_lt_Some).
  split; cbn [m_bio m_procs i_dev set_iprocs set_qnext set_queue qnext idequeue i_bufs havedisk1 i_procs a'].
  - by rewrite app_assoc.
  - rewrite app_assoc. apply NoDup_app. split; [apply R|]. split; [|apply NoDup_singleton]. intros c Hc ->%list_elem_of_singleton. done.
  - rewrite Hnl. apply R.
  - apply R.
  - apply (r_ok _ _ _ _ R).
  - apply R.
  - apply R.
  - apply R.
  - apply (r_same _ _ _ _ R).
  - intros c [Hc| ->%list_elem_of_singleton]%elem_of_app; [by apply (r_pend _ _ _ _ R)|]. by exists x.
  - apply (r_cur _ _ _ _ R).
  - apply Forall2_insert; [|simpl; split; [done|set_solver]]. eapply Forall2_impl_lookup; [apply R|]. intros i u v Hu Hw Hr'.
    assert (Hne : ~ auses b v) by (intros Ha; apply Hno; by exists i, v).
    destruct u as [|c|c], v as [|c'|c']; simpl in *; try done; destruct Hr' as [<- Hr']; split; try done; try set_solver.
    + destruct Hr' as [H1 H2]. split; [|done]. intros [?| ->%list_elem_of_singleton]%elem_of_app; [done|]. apply Hne. by right.
  - intros c. rewrite app_assoc. intros [Hc| ->%list_elem_of_singleton]%elem_of_app.
    + eapply owned_insert; [exact Hv| |by apply (r_owned _ _ _ _ R)]. intros [[=]|[=]].
    + exists p, (APending b). rewrite list_lookup_insert_eq by done. split; [done|by left].
  - apply distinct_insert; [apply R|]. intros c [[= ->]|[=]]. by right.
Qed.

(** The request of the device completes. *)
Lemma complete_rel b pend (s : ide) a x d :
  rel (Some b) pend s a -> i_bufs s !! b = Some x -> a_drives (abs d) = a_drives (abs (i_dev s)) ->
  rel None pend (set_iprocs (woken b <$> i_procs s) (set_ibufs (<[b := finish (sector_at 1 (b_blockno x) (abs (i_dev s))) x]> (i_bufs s))
    (set_idev d (set_queue (default None (qnext s !! b)) s)))) a.
Proof using Type.
  intros R Hx Hd. destruct (r_cur _ _ _ _ R b eq_refl) as (x' & Hx' & Hreq & Hfin & _). assert (x' = x) as -> by congruence.
  assert (Es : sector_at 1 (b_blockno x) (abs (i_dev s)) = block_at (disk (m_bio a)) x) by (unfold sector_at; by rewrite (r_drive _ _ _ _ R)).
  pose proof (r_ok _ _ _ _ R b x Hx) as Hok. destruct (r_disk _ _ _ _ R) as [Hdl Hdb]. rewrite Es. set (y := finish (block_at (disk (m_bio a)) x) x) in *.
  assert (Hbl : (b < length (i_bufs s))%nat) by (by eapply lookup_lt_Some).
  assert (Hy : <[b := y]> (i_bufs s) !! b = Some y) by (by apply list_lookup_insert_eq).
  pose proof (r_nodup _ _ _ _ R) as Hnd. apply NoDup_cons in Hnd as [Hbp Hnd].
  split; cbn [i_dev set_iprocs set_ibufs set_idev set_queue qnext idequeue i_bufs havedisk1 i_procs option_list app].
  - apply (r_chain _ _ _ _ R).
  - done.
  - rewrite length_insert. apply R.
  - apply R.
  - intros c z [(<- & <- & _)|[_ Hz]]%list_lookup_insert_Some; [|by apply (r_ok _ _ _ _ R c)]. apply finish_buf_ok; [done|].
    apply block_at_length; [done|]. by apply request_lt.
  - rewrite Hd. apply R.
  - done.
  - rewrite length_insert. apply R.
  - intros c _. destruct (decide (b = c)) as [<-|Hne]; [by rewrite Hy|]. rewrite list_lookup_insert_ne by done. apply (r_same _ _ _ _ R). congruence.
  - intros c Hc. rewrite list_lookup_insert_ne by congruence. by apply (r_pend _ _ _ _ R).
  - done.
  - apply Forall2_fmap_l. eapply Forall2_impl_lookup; [apply R|]. intros i u v Hu Hw Hr.
    assert (Hs : settled (<[b := y]> (i_bufs s)) b) by (exists y; split; [done|apply finish_settled]).
    destruct u as [|c|c], v as [|c'|c']; simpl in *; try done; destruct Hr as [<- Hr]; try (case_decide; subst); simpl; try done.
    + split; [done|]. split; [done|by right].
    + destruct Hr as [_ [= ->]]. done.
    + split; [done|]. destruct Hr as [H1 H2]. split; [done|]. right. destruct (decide (c = b)) as [->|Hne]; [done|]. destruct H2 as [[= ->]|(z & Hz & Hf)]; [done|].
      exists z. split; [|done]. by rewrite list_lookup_insert_ne.
  - intros c Hc. apply (r_owned _ _ _ _ R). by right.
  - apply R.
Qed.

Definition sim (s : ide) (a : mem) : Prop := exists cur pend, (cur = None -> pend = []) /\ rel cur pend s a.

(** A step of the driver is some steps of the disk in memory, with the same
    event. *)
Definition follows (a : mem) (e : option event) (a' : mem) : Prop := forall a0 tr, mhist a0 tr a -> mhist a0 (tr ++ option_list e) a'.

Lemma follows_step a e a' : mstep a e a' -> follows a e a'.
Proof using Type. intros Hs a0 tr Ha. by eapply mh_step. Qed.

Lemma follows_silent a e a' a'' : follows a e a' -> mstep a' None a'' -> follows a e a''.
Proof using Type. intros Hf Hs a0 tr Ha. rewrite <- (app_nil_r (tr ++ _)). change [] with (option_list (@None event)). eapply mh_step; [by apply Hf|done]. Qed.

Lemma follows_refl a : follows a None a.
Proof using Type. intros a0 tr Ha. by rewrite app_nil_r. Qed.

Lemma buf_sim (s : ide) a b x : sim s a -> (b < length (i_bufs s))%nat -> unused b s -> buf_ok x ->
  exists a', follows a (Some (EBuf b x)) a' /\ sim (set_ibufs (<[b := x]> (i_bufs s)) s) a'.
Proof using Type.
  intros (cur & pend & Hcp & R) Hb Hun Hx. pose proof (not_owned _ _ _ _ _ b (r_procs _ _ _ _ R) Hun) as Hno.
  assert (Hbq : b ∉ option_list cur ++ pend) by (intros Hin; by apply Hno, (r_owned _ _ _ _ R)).
  eexists. split; [apply follows_step, ms_buf; intros p v Hp Hv; apply Hno; by exists p, v|]. exists cur, pend. split; [done|].
  split; cbn [m_bio m_procs set_bufs bufs disk i_dev set_ibufs qnext idequeue i_bufs havedisk1 i_procs]; rewrite ?length_insert; try apply R.
  - intros c z [(<- & <- & _)|[_ Hz]]%list_lookup_insert_Some; [done|by apply (r_ok _ _ _ _ R c)].
  - intros c Hc. destruct (decide (b = c)) as [<-|Hne]; [|rewrite !list_lookup_insert_ne by done; by apply (r_same _ _ _ _ R)].
    rewrite !list_lookup_insert_eq by (rewrite ?(r_bufs _ _ _ _ R); done). done.
  - intros c Hc. rewrite list_lookup_insert_ne by set_solver. by apply (r_pend _ _ _ _ R).
  - intros c ->. assert (b <> c) by (intros ->; apply Hbq; left). rewrite !list_lookup_insert_ne by done. by apply (r_cur _ _ _ _ R).
  - eapply Forall2_impl_lookup; [apply R|]. intros i u v Hu Hw Hr. destruct u as [|c|c], v as [|c'|c']; simpl in *; try done.
    destruct Hr as (<- & H1 & [->|(z & Hz & Hf)]); (split; [done|]; split; [done|]); [by left|]. right. exists z. split; [|done].
    rewrite list_lookup_insert_ne; [done|]. intros ->. apply Hno. exists i, (ADone c). split; [done|by right].
Qed.

Lemma return_sim (s : ide) a p b x : sim s a -> i_procs s !! p = Some (Awake b) -> i_bufs s !! b = Some x ->
  Z.land (b_flags x) (Z.lor B_VALID B_DIRTY) = B_VALID ->
  exists a', follows a (Some (EReturn p b x)) a' /\ sim (set_iprocs (<[p := Away]> (i_procs s)) s) a'.
Proof using Type.
  intros (cur & pend & Hcp & R) Hp Hx Hv. destruct (Forall2_lookup_l _ _ _ _ _ (r_procs _ _ _ _ R) Hp) as (v & Hw & Hr).
  assert (Hbp : b ∉ pend) by (intros Hin; destruct (r_pend _ _ _ _ R b Hin) as (z & Hz & _ & Hn & _); congruence).
  assert (Hbc : cur <> Some b) by (intros ->; destruct (r_cur _ _ _ _ R b eq_refl) as (z & Hz & (_ & Hn & _) & _); congruence).
  destruct v as [|c|c]; simpl in Hr; [done|by destruct Hr as [<- Hr]|]. destruct Hr as [<- _].
  eexists. split; [apply follows_step, (ms_return a p b x); [done|by rewrite <- (r_same _ _ _ _ R)]|]. exists cur, pend. split; [done|].
  split; cbn [m_bio m_procs i_dev set_iprocs qnext idequeue i_bufs havedisk1 i_procs]; try apply R.
  - by apply Forall2_insert; [apply R|].
  - intros c Hc. eapply owned_insert; [exact Hw| |by apply (r_owned _ _ _ _ R)]. intros [[=]|[= ->]]. exfalso. destruct cur; set_solver.
  - apply distinct_insert; [apply R|]. intros c [[=]|[=]].
Qed.

(** A process goes to sleep, or wakes up before its request is complete. *)
Lemma move_sim (s : ide) a p b u u' : sim s a -> i_procs s !! p = Some u -> uses b u -> uses b u' ->
  (u = Awake b -> exists x, i_bufs s !! b = Some x /\ Z.land (b_flags x) (Z.lor B_VALID B_DIRTY) <> B_VALID) ->
  sim (set_iprocs (<[p := u']> (i_procs s)) s) a.
Proof using Type.
  intros (cur & pend & Hcp & R) Hp Hu Hu' Hx. exists cur, pend. split; [done|].
  split; cbn [m_bio m_procs i_dev set_iprocs qnext idequeue i_bufs havedisk1 i_procs]; try apply R.
  destruct (Forall2_lookup_l _ _ _ _ _ (r_procs _ _ _ _ R) Hp) as (v & Hw & Hr). rewrite <- (list_insert_id (m_procs a) p v Hw).
  apply Forall2_insert; [apply R|]. destruct Hu as [->| ->], Hu' as [->| ->], v as [|c|c]; simpl in *; try done.
  - destruct Hr as (<- & H1 & H2). split; [done|]. split; [done|by left].
  - destruct Hr as (<- & H1 & H2). split; [done|]. split; [done|]. destruct H2 as [->|(z & Hz & Hf)]; [done|].
    destruct (Hx eq_refl) as (y & Hy & Hn). congruence.
Qed.

Context (polls : nat) (Hpolls : forall d : D, (lag d < polls)%nat).

Lemma rel_range cur pend (s : ide) a : rel cur pend s a -> Forall (fun b => b < length (qnext s))%nat (option_list cur ++ pend).
Proof using Type.
  intros R. rewrite (r_next _ _ _ _ R). apply Forall_forall. intros b [Hb|Hb]%elem_of_app.
  - destruct cur as [c|]; [|by apply not_elem_of_nil in Hb]. apply list_elem_of_singleton in Hb as ->.
    destruct (r_cur _ _ _ _ R c eq_refl) as (x & Hx & _). by eapply lookup_lt_Some.
  - destruct (r_pend _ _ _ _ R b Hb) as (x & Hx & _). by eapply lookup_lt_Some.
Qed.

(** [iderw] never refuses a request that is in order: it goes to sleep. *)
Lemma iderw_sim (s : ide) a p b x : sim s a -> i_procs s !! p = Some Away -> unused b s -> i_bufs s !! b = Some x -> request_ok x ->
  exists s' a', iderw polls b s = Asleep s' /\ follows a (Some (ECall p b)) a' /\ sim (set_iprocs (<[p := Asleep_on b]> (i_procs s')) s') a'.
Proof using Hpolls.
  intros (cur & pend & Hcp & R) Hp Hun Hx Hreq. pose proof (not_owned _ _ _ _ _ b (r_procs _ _ _ _ R) Hun) as Hno.
  assert (Hbq : b ∉ option_list cur ++ pend) by (intros Hin; by apply Hno, (r_owned _ _ _ _ R)).
  destruct (enqueue b s (option_list cur ++ pend)) as (nx & En & Hnl & Hnx); [apply R|apply R|by eapply rel_range|done|rewrite (r_next _ _ _ _ R); by eapply lookup_lt_Some|].
  destruct (enqueue_rel cur pend s a p b x nx R Hp Hun Hx Hreq Hnl Hnx) as [Hm R'].
  set (s2 := set_qnext nx (set_queue (head ((option_list cur ++ pend) ++ [b])) s)) in *.
  pose proof Hreq as (Hl & Hf & Hdev & _). unfold iderw. rewrite (bind_Ret _ _ _ x s) by (unfold ibuf; by rewrite Hx).
  rewrite Hl, (proj2 (Z.eqb_neq _ _) Hf). cbn [negb]. rewrite (bind_Ret _ _ _ true s) by (cbn; by rewrite (r_have _ _ _ _ R)). rewrite andb_false_r.
  erewrite bind_Ret by reflexivity. rewrite (bind_Ret _ _ _ tt s2) by (cbn [modify]; by rewrite <- En).
  rewrite (bind_Ret _ _ _ (idequeue s2) s2) by done.
  assert (Hloop : forall d, iderw_loop b (set_idev d s2) = Asleep (set_idev d s2)).
  { intros d. unfold iderw_loop. rewrite (bind_Ret _ _ _ x (set_idev d s2)) by (unfold ibuf; cbn; by rewrite Hx). by rewrite (proj2 (Z.eqb_neq _ _) Hf). }
  destruct cur as [c|].
  - assert (Hcb : c <> b) by (intros ->; apply Hbq; left). rewrite decide_False by (cbn; congruence). exists (set_idev (i_dev s) s2), (mkMem (m_bio a) (<[p := APending b]> (m_procs a))).
    split; [apply Hloop|]. split; [by apply follows_step|]. exists (Some c), (pend ++ [b]). split; [done|]. exact R'.
  - specialize (Hcp eq_refl). subst pend. rewrite decide_True by done.
    destruct (idestart_ok polls Hpolls b x s2 Hx Hreq (r_ok _ _ _ _ R b x Hx)) as (d & Ed & Hdr & Hph). rewrite (bind_Ret _ _ _ _ _ Ed).
    destruct (start_rel b [] _ _ x d R' Hx Hdr Hph) as (a2 & Hm2 & R2). exists (set_idev d s2), a2. split; [apply Hloop|].
    split; [eapply follows_silent; [by apply follows_step|done]|]. exists (Some b), []. split; [done|]. exact R2.
Qed.

(** The interrupt handler completes the first request and starts the next. *)
Lemma ideintr_rel b pend (s : ide) a : rel (Some b) pend s a ->
  exists s' a', ideintr polls s = Ret tt s' /\ follows a None a' /\ rel (head pend) (tail pend) s' a' /\
    i_procs s' = woken b <$> i_procs s /\ settled (i_bufs s') b.
Proof using Hpolls.
  intros R. destruct (r_cur _ _ _ _ R b eq_refl) as (x & Hx & Hreq & Hfin & Hph). pose proof (r_chain _ _ _ _ R) as [Hq Hch].
  destruct (ideintr_head polls Hpolls b x s Hq Hx Hph) as (d & Hd & E). pose proof (complete_rel b pend s a x d R Hx Hd) as R1.
  assert (Hs : forall y, Z.land (b_flags y) (Z.lor B_VALID B_DIRTY) = B_VALID -> settled (<[b := y]> (i_bufs s)) b).
  { intros y Hy. exists y. split; [apply list_lookup_insert_eq; by eapply lookup_lt_Some|done]. }
  set (s1 := set_iprocs _ _) in *. rewrite E. destruct pend as [|c pend].
  - cbn in Hch. rewrite Hch. exists s1, a. split; [done|]. split; [apply follows_refl|]. split; [done|]. split; [done|]. apply Hs, finish_settled.
  - destruct Hch as [-> _]. destruct (r_pend _ _ _ _ R1 c ltac:(left)) as (y & Hy & Hreqy).
    destruct (idestart_ok polls Hpolls c y s1 Hy Hreqy (r_ok _ _ _ _ R1 c y Hy)) as (d' & Ed & Hdr & Hph').
    destruct (start_rel c pend _ _ y d' R1 Hy Hdr Hph') as (a2 & Hm2 & R2). exists (set_idev d' s1), a2. split; [done|].
    split; [by apply follows_step|]. split; [done|]. split; [done|]. apply Hs, finish_settled.
Qed.

Lemma ideintr_sim (s : ide) a : sim s a -> exists s' a', ideintr polls s = Ret tt s' /\ follows a None a' /\ sim s' a'.
Proof using Hpolls.
  intros (cur & pend & Hcp & R). destruct cur as [b|].
  - destruct (ideintr_rel b pend s a R) as (s' & a' & E & Hf & R' & _). exists s', a'. split; [done|]. split; [done|].
    exists (head pend), (tail pend). split; [by destruct pend|done].
  - exists s, a. specialize (Hcp eq_refl). subst pend. pose proof (r_chain _ _ _ _ R) as Hq. cbn in Hq. split; [|split; [apply follows_refl|by exists None, []]].
    unfold ideintr. by rewrite (bind_Ret _ _ _ None s) by (cbn; by rewrite Hq).
Qed.

Lemma istep_sim (s : ide) a e s' : sim s a -> istep polls s e s' -> exists a', follows a e a' /\ sim s' a'.
Proof using Hpolls.
  intros Hs [b x Hb Hun Hx|p b x s1 Hp Hun Hx Hreq E|s1 E|p b Hp|p b s1 Hp E|p b x s1 Hp E Hx].
  - by apply buf_sim.
  - destruct (iderw_sim s a p b x Hs Hp Hun Hx Hreq) as (s2 & a' & E' & Hf & Hs'). assert (s2 = s1) as -> by congruence. by exists a'.
  - destruct (ideintr_sim s a Hs) as (s2 & a' & E' & Hf & Hs'). assert (s2 = s1) as -> by congruence. by exists a'.
  - exists a. split; [apply follows_refl|]. by eapply (move_sim s a p b (Asleep_on b)); [done|done|by left|by right|].
  - unfold iderw_loop, ibuf, mbind, M_bind in E. destruct (i_bufs s !! b) as [x|] eqn:Hx; [|done].
    destruct (Z.eqb_spec (Z.land (b_flags x) (Z.lor B_VALID B_DIRTY)) B_VALID) as [Hv|Hv]; [done|]. injection E as <-.
    exists a. split; [apply follows_refl|]. eapply (move_sim s a p b (Awake b)); [done|done|by right|by left|]. intros _. by exists x.
  - unfold iderw_loop, ibuf, mbind, M_bind in E. destruct (i_bufs s !! b) as [y|] eqn:Hy; [|done].
    destruct (Z.eqb_spec (Z.land (b_flags y) (Z.lor B_VALID B_DIRTY)) B_VALID) as [Hv|Hv]; [|done]. injection E as <-.
    assert (y = x) as -> by congruence. by apply return_sim.
Qed.

(** [n] interrupts *)
Fixpoint interrupts (n : nat) : M ide unit := match n with O => mret tt | S n' => ideintr polls;; interrupts n' end.

(** A process sleeps until its request is served, which takes as many
    interrupts as there are requests up to its own. *)
Lemma served (s : ide) a cur pend i p b : rel cur pend s a -> (cur = None -> pend = []) -> (option_list cur ++ pend) !! i = Some b ->
  i_procs s !! p = Some (Asleep_on b) ->
  exists s', interrupts (S i) s = Ret tt s' /\ i_procs s' !! p = Some (Awake b) /\ iderw_loop b s' = Ret tt s'.
Proof using Hpolls.
  revert s a cur pend. induction i as [|i IH]; intros s a cur pend R Hcp Hi Hp; (destruct cur as [c|]; [|by rewrite (Hcp eq_refl) in Hi]);
    destruct (ideintr_rel c pend s a R) as (s' & a' & E & _ & R' & Epr & x & Hx & Hv); cbn [interrupts]; rewrite (bind_Ret _ _ _ _ _ E).
  - injection Hi as ->. exists s'. split; [done|]. split; [rewrite Epr, list_lookup_fmap, Hp; cbn; by rewrite decide_True|].
    unfold iderw_loop. rewrite (bind_Ret _ _ _ x s') by (unfold ibuf; by rewrite Hx). by rewrite (proj2 (Z.eqb_eq _ _) Hv).
  - assert (Hi' : (option_list (head pend) ++ tail pend) !! i = Some b) by (by destruct pend).
    eapply IH; [exact R'|by destruct pend|exact Hi'|]. rewrite Epr, list_lookup_fmap, Hp. cbn. rewrite decide_False; [done|].
    intros ->. pose proof (r_nodup _ _ _ _ R) as Hn. apply NoDup_cons in Hn as [Hn _]. apply Hn. eapply list_elem_of_lookup_2. exact Hi.
Qed.
End Simulation.

(** ** Claims *)

(** The driver at rest, with a disk of [FSSIZE] blocks. *)
Record at_rest {D} `{IdeDevice D} (s : @ide D) (dk : list block) : Prop := {
  ar_queue : idequeue s = None;
  ar_next : length (qnext s) = length (i_bufs s);
  ar_have : havedisk1 s = true;
  ar_bufs : Forall buf_ok (i_bufs s);
  ar_procs : Forall (eq Away) (i_procs s);
  ar_drive : a_drives (abs (i_dev s)) !! 1%nat = Some dk;
  ar_disk : length dk = Z.to_nat FSSIZE /\ Forall (fun d => length d = BSIZE) dk
}.

Definition mem_at_rest {D} (s : @ide D) (dk : list block) : mem :=
  mkMem (mkBio (i_bufs s) [] [] dk []) (replicate (length (i_procs s)) AAway).

Lemma rest_sim {D} `{IdeDevice D} (s : @ide D) dk : at_rest s dk -> sim s (mem_at_rest s dk).
Proof.
  intros R. exists None, []. split; [done|]. split; cbn; try apply R; try done; try apply NoDup_nil; try done.
  - intros b x Hx. pose proof (ar_bufs _ _ R) as Hb. rewrite Forall_lookup in Hb. by apply (Hb b).
  - by intros b Hb%not_elem_of_nil.
  - pose proof (ar_procs _ _ R) as Hp. induction Hp as [|u us <- Hus IH]; simpl; by constructor.
  - by intros b Hb%not_elem_of_nil.
  - intros p p' v v' b Hv _ [->| ->]; apply lookup_replicate in Hv as [? _]; done.
Qed.

(** C8: the disk driver is the disk in memory, but for the time it takes.
    Processes call [iderw] on buffers they have locked, interrupts arrive at
    any time, also when nothing is to be done, and processes are killed.  Every
    history of calls and returns, with the buffers returned, is a history of
    a disk on which each request takes effect at once, between its call and
    its return, exactly as [iderw] of [memide.c] has it, and the drive holds
    the contents of that disk.  A request in order is never refused, the
    interrupt handler never panics, and a process that sleeps returns after
    at most as many interrupts as there are buffers. *)
Theorem ide_linearizable {D : Type} `{IdeDevice D} (polls : nat) (s0 s : @ide D) (dk : list block) (tr : list event)
  (Hpolls : forall d : D, (lag d < polls)%nat) (Hrest : at_rest s0 dk) (Hh : ihist polls s0 tr s) :
  (exists a, mhist (mem_at_rest s0 dk) tr a /\ a_drives (abs (i_dev s)) !! 1%nat = Some (disk (m_bio a))) /\
  (forall p b x, i_procs s !! p = Some Away -> unused b s -> i_bufs s !! b = Some x -> request_ok x ->
    exists s', iderw polls b s = Asleep s') /\
  (exists s', ideintr polls s = Ret tt s') /\
  (forall p b, i_procs s !! p = Some (Asleep_on b) ->
    exists n s', (n <= length (i_bufs s))%nat /\ interrupts polls n s = Ret tt s' /\
      i_procs s' !! p = Some (Awake b) /\ iderw_loop b s' = Ret tt s').
Proof.
  assert (Hs : exists a, mhist (mem_at_rest s0 dk) tr a /\ sim s a).
  { induction Hh as [|tr s e s' _ (a & Ha & Hs) Hstep]; [exists (mem_at_rest s0 dk); split; [constructor|by apply rest_sim]|].
    destruct (istep_sim polls Hpolls s a e s' Hs Hstep) as (a' & Hf & Hs'). exists a'. split; [by apply Hf|done]. }
  destruct Hs as (a & Ha & Hs). split; [|split; [|split]].
  - exists a. split; [done|]. destruct Hs as (cur & pend & _ & R). apply R.
  - intros p b x Hp Hun Hx Hreq. destruct (iderw_sim polls Hpolls s a p b x Hs Hp Hun Hx Hreq) as (s' & _ & E & _). by exists s'.
  - destruct (ideintr_sim polls Hpolls s a Hs) as (s' & _ & E & _). by exists s'.
  - intros p b Hp. destruct Hs as (cur & pend & Hcp & R).
    assert (Hb : b ∈ option_list cur ++ pend).
    { destruct (Forall2_lookup_l _ _ _ _ _ (r_procs _ _ _ _ R) Hp) as (v & _ & Hr). destruct v; simpl in Hr; [done|set_solver|]. destruct Hr as (<- & _ & ->). left. }
    apply list_elem_of_lookup_1 in Hb as [i Hi]. destruct (served polls Hpolls s a cur pend i p b R Hcp Hi Hp) as (s' & E & H1 & H2).
    exists (S i), s'. split; [|done]. pose proof (short_list _ _ (r_nodup _ _ _ _ R) (rel_range _ _ _ _ R)) as Hl. rewrite (r_next _ _ _ _ R) in Hl.
    apply lookup_lt_Some in Hi. lia.
Qed.

(** *** A device

    A drive that is busy for one poll after each command. *)
Record toy := mkToy { t_ata : ata; t_busy : bool; t_write : bool }.

#[export] Instance toy_ports : Ports toy := {
  dev_inb port t :=
    if port =? 0x1f7 then if t_busy t then (0x80, mkToy (t_ata t) false (t_write t)) else (0x40, t) else (0, t);
  dev_outb port v t :=
    if port =? 0x1f7 then
      if v =? IDE_CMD_READ then mkToy (set_phase (PRead (drive (t_ata t)) (lba (t_ata t))) (t_ata t)) true false
      else mkToy (t_ata t) (t_busy t) (v =? IDE_CMD_WRITE)
    else mkToy (ata_out port v (t_ata t)) (t_busy t) (t_write t);
  dev_insl _ _ t :=
    match a_phase (t_ata t) with
    | PIdle => ([], t)
    | PRead drv s => (sector_at drv s (t_ata t), mkToy (set_phase PIdle (t_ata t)) (t_busy t) (t_write t))
    end;
  dev_outsl _ x _ t :=
    if t_write t then mkToy (ata_write (drive (t_ata t)) (lba (t_ata t)) x (t_ata t)) true false else t
}.

#[export] Program Instance toy_device : IdeDevice toy := {
  abs := t_ata; ready t := t_busy t = false; lag t := if t_busy t then 1%nat else 0%nat
}.
Next Obligation. intros [a [|] w]; cbn; (split; [done|]); [right; split; [done|lia]|by left]. Qed.
Next Obligation. intros port v [a b w] Hr Hp. cbn in *. by rewrite (proj2 (Z.eqb_neq port 503)) by (intros ->; by apply (bool_decide_eq_true_2 _) in Hp). Qed.
Next Obligation. done. Qed.
Next Obligation. done. Qed.
Next Obligation. intros [a b w] drv s Hr Hp. cbn in *. by rewrite Hp. Qed.

(** Process 0 writes block 5, process 1 reads it while the write is under
    way. *)
Definition ex_data : block := replicate BSIZE 7.
Definition ex_disk : list block := replicate (Z.to_nat FSSIZE) (replicate BSIZE 0).
Definition ex0 : @ide toy :=
  mkIde (mkToy (mkAta 0 0 0 0 0 PIdle [[]; ex_disk]) false false) None [None; None] true
    [mkBuf 4 1 5 true 1 ex_data; mkBuf 0 1 5 true 1 (replicate BSIZE 0)] [Away; Away].

Definition after {A} (r : res (@ide toy) A) : @ide toy := match r with Ret _ s => s | Asleep s => s | Panic _ => ex0 end.
Definition moved (p : nat) (u : place) (s : @ide toy) : @ide toy := set_iprocs (<[p := u]> (i_procs s)) s.
Definition ex1 := moved 0 (Asleep_on 0) (after (iderw 2 0 ex0)).
Definition ex2 := moved 1 (Asleep_on 1) (after (iderw 2 1 ex1)).
Definition ex3 := after (ideintr 2 ex2).
Definition ex4 := moved 0 Away (after (iderw_loop 0 ex3)).
Definition ex5 := after (ideintr 2 ex4).
Definition ex6 := moved 1 Away (after (iderw_loop 1 ex5)).

Definition sleeps {A} (r : res (@ide toy) A) : bool := match r with Asleep _ => true | _ => false end.
Lemma sleeps_eq {A} (r : res (@ide toy) A) : sleeps r = true -> r = Asleep (after r).
Proof. by destruct r. Qed.
Lemma returns_eq (r : res (@ide toy) unit) : returns r = true -> r = Ret tt (after r).
Proof. by destruct r as [[] s| |]. Qed.

Definition ex_trace : list event :=
  [ECall 0 0; ECall 1 1; EReturn 0 0 (mkBuf 2 1 5 true 1 ex_data); EReturn 1 1 (mkBuf 2 1 5 true 1 ex_data)].

Lemma ex_hist : ihist 2 ex0 ex_trace ex6.
Proof.
  assert (H1 : ihist 2 ex0 [ECall 0 0] ex1).
  { apply (ih_step 2 ex0 [] ex0 (Some _)); [constructor|].
    apply (is_call 2 ex0 0 0 (mkBuf 4 1 5 true 1 ex_data) (after (iderw 2 0 ex0))); [done| |done|by vm_compute|apply sleeps_eq; vm_compute; reflexivity].
    intros [|[|p]] u [= <-]; by intros [[=]|[=]]. }
  assert (H2 : ihist 2 ex0 [ECall 0 0; ECall 1 1] ex2).
  { apply (ih_step 2 ex0 [_] ex1 (Some _)); [done|].
    apply (is_call 2 ex1 1 1 (mkBuf 0 1 5 true 1 (replicate BSIZE 0)) (after (iderw 2 1 ex1))); [vm_compute; reflexivity| |vm_compute; reflexivity|by vm_compute|apply sleeps_eq; vm_compute; reflexivity].
    assert (E : i_procs ex1 = [Asleep_on 0; Away]) by (vm_compute; reflexivity). unfold unused. rewrite E. intros [|[|p]] u [= <-]; by intros [[=]|[=]]. }
  assert (H3 : ihist 2 ex0 ([ECall 0 0; ECall 1 1] ++ []) ex3) by (apply (ih_step 2 ex0 _ ex2 None); [done|]; apply is_intr, returns_eq; vm_compute; reflexivity).
  assert (H4 : ihist 2 ex0 ([ECall 0 0; ECall 1 1; EReturn 0 0 (mkBuf 2 1 5 true 1 ex_data)]) ex4).
  { apply (ih_step 2 ex0 [_; _] ex3 (Some _)); [done|].
    apply (is_return 2 ex3 0 0 _ (after (iderw_loop 0 ex3))); [vm_compute; reflexivity|apply returns_eq; vm_compute; reflexivity|vm_compute; reflexivity]. }
  assert (H5 : ihist 2 ex0 ([ECall 0 0; ECall 1 1; EReturn 0 0 (mkBuf 2 1 5 true 1 ex_data)] ++ []) ex5) by (apply (ih_step 2 ex0 _ ex4 None); [done|]; apply is_intr, returns_eq; vm_compute; reflexivity).
  apply (ih_step 2 ex0 [_; _; _] ex5 (Some _)); [done|].
  apply (is_return 2 ex5 1 1 _ (after (iderw_loop 1 ex5))); [vm_compute; reflexivity|apply returns_eq; vm_compute; reflexivity|vm_compute; reflexivity].
Qed.

Lemma ide_linearizable_witness :
  exists a, mhist (mem_at_rest ex0 ex_disk) ex_trace a /\ a_drives (abs (i_dev ex6)) !! 1%nat = Some (disk (m_bio a)).
Proof.
  refine (proj1 (ide_linearizable 2 ex0 ex6 ex_disk ex_trace _ _ ex_hist)).
  - intros [a [|] w]; cbn; lia.
  - split; [done..| |by repeat constructor|done|].
    + repeat (apply Forall_cons; split); [by split; [vm_compute|]..|apply Forall_nil; done].
    + split; [apply (bool_decide_eq_true_1 _); vm_compute; reflexivity|]. apply Forall_replicate. reflexivity.
Defined.
