(* ===== verification/Mp.v ===== *)
(** * The multiprocessor tables

    [mp.c]: the search for the floating pointer structure that the BIOS leaves
    in memory, the checks of the configuration table it points to, and the loop
    of [mpinit] over the entries of the table.  Memory is the byte at each
    virtual address. *)
From S2P Require Import Prelude Proctab Cstring Kalloc.
Local Open Scope Z_scope.

Definition MPPROC : Z := 0.
Definition MPBUS : Z := 1.
Definition MPIOAPIC : Z := 2.
Definition MPIOINTR : Z := 3.
Definition MPLINTR : Z := 4.

(** The sizes of [struct mp], [mpconf], [mpproc] and [mpioapic]. *)
Definition sizeof_mp : Z := 16.
Definition sizeof_mpconf : Z := 44.
Definition sizeof_mpproc : Z := 20.
Definition sizeof_mpioapic : Z := 8.

Section Tables.
Context (mem : Z -> Z).

Definition bytes_at (a : Z) (n : nat) : list Z := (fun i : nat => mem (u32 (a + Z.of_nat i))) <$> seq 0 n.
Definition word_at (a : Z) (n : nat) : Z := foldr (fun b w => b + 256 * w) 0 (bytes_at a n).

(** The checksum; the [int] does not overflow on a table of 65535 bytes. *)
Definition sum (addr : Z) (len : nat) : Z := u8 (foldl Z.add 0 (bytes_at addr len)).

(** The loop of [mpsearch1] over [n] places. *)
Fixpoint mpsearch_loop (p : Z) (n : nat) : option Z :=
  match n with
  | O => None
  | S n' =>
      if (memcmp (bytes_at p 4) [95; 77; 80; 95] 4 =? 0) && (sum p (Z.to_nat sizeof_mp) =? 0) then Some p
      else mpsearch_loop (u32 (p + sizeof_mp)) n'
  end.

Definition mpsearch1 (a len : Z) : option Z := mpsearch_loop (P2V a) (Z.to_nat (len / sizeof_mp)).

Definition mpsearch : option Z :=
  let bda i := mem (u32 (P2V 0x400 + i)) in
  let p := u32 (Z.shiftl (Z.lor (Z.shiftl (bda 0x0f) 8) (bda 0x0e)) 4) in
  let q := u32 (Z.lor (Z.shiftl (bda 0x14) 8) (bda 0x13) * 1024) in
  match (if negb (p =? 0) then mpsearch1 p 1024 else mpsearch1 (u32 (q - 1024)) 1024) with
  | Some mp => Some mp
  | None => mpsearch1 0xf0000 0x10000
  end.

(** The structure and the table it points to. *)
Definition mpconfig : option (Z * Z) :=
  mp ← mpsearch;
  let physaddr := word_at (mp + 4) 4 in
  if physaddr =? 0 then None
  else
    let conf := P2V physaddr in
    let length := word_at (conf + 4) 2 in
    let version := mem (u32 (conf + 6)) in
    if negb (memcmp (bytes_at conf 4) [80; 67; 77; 80] 4 =? 0) then None
    else if negb (version =? 1) && negb (version =? 4) then None
    else if negb (sum conf (Z.to_nat length) =? 0) then None
    else Some (mp, conf).

(** [cpus\[i\].apicid] for [i < ncpu], and [ioapicid] *)
Record mpstate := mkMp { apicids : list Z; ioapicid : Z }.

(** The loop of [mpinit]: [None] when it has not ended after [fuel] rounds.
    The [break] of the default case leaves the [switch], not the loop. *)
Fixpoint mp_loop (fuel : nat) (p e : Z) (ismp : bool) (st : mpstate) : option (bool * mpstate) :=
  if e <=? p then Some (ismp, st)
  else match fuel with
  | O => None
  | S fuel' =>
      let t := mem p in
      if t =? MPPROC then
        let st' := if (length (apicids st) <? NCPU)%nat then mkMp (apicids st ++ [mem (p + 1)]) (ioapicid st) else st in
        mp_loop fuel' (p + sizeof_mpproc) e ismp st'
      else if t =? MPIOAPIC then mp_loop fuel' (p + sizeof_mpioapic) e ismp (mkMp (apicids st) (mem (p + 1)))
      else if (t =? MPBUS) || (t =? MPIOINTR) || (t =? MPLINTR) then mp_loop fuel' (p + 8) e ismp st
      else mp_loop fuel' p e false st
  end.

(** [mpinit]: a panic, or no end within [fuel] rounds, or the processors, the
    address of the local APIC and whether the IMCR is switched. *)
Inductive mp_result := MpPanic (msg : string) | MpLoops | MpDone (st : mpstate) (lapic : Z) (imcr : bool).

Definition mpinit (fuel : nat) : mp_result :=
  match mpconfig with
  | None => MpPanic "Expect to run on an SMP"
  | Some (mp, conf) =>
      let lapic := word_at (conf + 36) 4 in
      match mp_loop fuel (conf + sizeof_mpconf) (conf + word_at (conf + 4) 2) true (mkMp [] 0) with
      | None => MpLoops
      | Some (ismp, st) =>
          if negb ismp then MpPanic "Didn't find a suitable machine"
          else MpDone st lapic (negb (mem (u32 (mp + 12)) =? 0))
      end
  end.

(** ** The search *)

Definition floating (p : Z) : bool := (memcmp (bytes_at p 4) [95; 77; 80; 95] 4 =? 0) && (sum p 16 =? 0).

(** [mpsearch1] returns the first place with the signature and the checksum. *)
Lemma mpsearch1_first (a len p : Z) : 0 <= a -> 0 <= len -> P2V a + len <= 2 ^ 32 ->
  mpsearch1 a len = Some p <->
  exists i, 0 <= i < len / 16 /\ p = P2V a + 16 * i /\ floating p = true /\ forall j, 0 <= j < i -> floating (P2V a + 16 * j) = false.
Proof using Type.
  unfold mpsearch1. intros Ha Hl Hb. change sizeof_mp with 16. 
  assert (H0 : 0 <= P2V a < 2 ^ 32) by apply u32_range.
  assert (Hq : P2V a + 16 * Z.of_nat (Z.to_nat (len / 16)) <= 2 ^ 32) by lia.
  replace (len / 16) with (Z.of_nat (Z.to_nat (len / 16))) by lia. rewrite Nat2Z.id. clear Hb. generalize dependent (Z.to_nat (len / 16)). intros n. clear Hl Ha. revert H0. generalize (P2V a). clear a len.
  induction n as [|n IH]; intros a Ha Hn; cbn [mpsearch_loop].
  { split; [done|]. intros (i & Hi & _). lia. }
  change (Z.to_nat sizeof_mp) with 16%nat. fold (floating a). destruct (floating a) eqn:Ef.
  - split.
    + intros [= <-]. exists 0. rewrite Z.mul_0_r, Z.add_0_r. split; [lia|]. split; [done|]. split; [done|]. lia.
    + intros (i & Hi & -> & _ & Hf). f_equal. destruct (decide (i = 0)) as [->|]; [lia|]. specialize (Hf 0 ltac:(lia)). rewrite Z.mul_0_r, Z.add_0_r in Hf. congruence.
  - change sizeof_mp with 16. destruct n as [|n].
    { cbn. split; [done|]. intros (i & Hi & -> & Hf & _). replace i with 0 in Hf by lia. rewrite Z.mul_0_r, Z.add_0_r in Hf. congruence. }
    rewrite u32_id by lia. rewrite IH by lia. split.
    + intros (i & Hi & -> & Hf & Hj). exists (i + 1). split; [lia|]. split; [lia|]. split; [done|]. intros j Hj'.
      destruct (decide (j = 0)) as [->|]; [by rewrite Z.mul_0_r, Z.add_0_r|]. specialize (Hj (j - 1) ltac:(lia)). by replace (a + 16 * j) with (a + 16 + 16 * (j - 1)) by lia.
    + intros (i & Hi & -> & Hf & Hj). destruct (decide (i = 0)) as [->|]; [rewrite Z.mul_0_r, Z.add_0_r in Hf; congruence|].
      exists (i - 1). split; [lia|]. split; [lia|]. split; [done|]. intros j Hj'. specialize (Hj (j + 1) ltac:(lia)). by replace (a + 16 + 16 * j) with (a + 16 * (j + 1)) by lia.
Qed.

(** ** The entries *)

Inductive entry := EProc (apicid : Z) | EIoapic (apicno : Z) | EOther (type : Z).

Definition entry_size (x : entry) : Z := match x with EProc _ => 20 | _ => 8 end.
Definition entry_at (p : Z) (x : entry) : Prop :=
  match x with
  | EProc id => mem p = MPPROC /\ mem (p + 1) = id
  | EIoapic id => mem p = MPIOAPIC /\ mem (p + 1) = id
  | EOther t => mem p = t /\ t ∈ [MPBUS; MPIOINTR; MPLINTR]
  end.

(** The entries [es] lie from [p] on, before the end [e], up to [p']. *)
Fixpoint laid (e p : Z) (es : list entry) (p' : Z) : Prop :=
  match es with
  | [] => p = p'
  | x :: es' => p < e /\ entry_at p x /\ laid e (p + entry_size x) es' p'
  end.

Definition proc_ids (es : list entry) : list Z := omap (fun x => match x with EProc id => Some id | _ => None end) es.
Definition last_ioapic (id : Z) (es : list entry) : Z := foldl (fun i x => match x with EIoapic id => id | _ => i end) id es.

(** The loop over entries of known types. *)
Lemma mp_loop_laid es fuel p e p' st : laid e p es p' -> (length (apicids st) <= NCPU)%nat ->
  mp_loop (length es + fuel) p e true st =
  mp_loop fuel p' e true (mkMp (take NCPU (apicids st ++ proc_ids es)) (last_ioapic (ioapicid st) es)).
Proof using Type.
  revert p st. induction es as [|x es IH]; intros p st Hl Hn; cbn [laid length Nat.add] in *.
  - subst p'. unfold proc_ids, last_ioapic. cbn. rewrite app_nil_r, take_ge by done. by destruct st.
  - destruct Hl as (Hp & Hx & Hl). cbn [mp_loop]. rewrite (proj2 (Z.leb_gt _ _)) by done. destruct x as [id|id|t]; cbn [entry_at] in Hx; destruct Hx as [E1 E2]; rewrite E1.
    + cbn [Z.eqb MPPROC]. change (p + sizeof_mpproc) with (p + entry_size (EProc id)). rewrite E2. rewrite IH; [|done|].
      * f_equal. unfold proc_ids, last_ioapic. cbn [omap foldl]. destruct (Nat.ltb_spec (length (apicids st)) NCPU) as [Hlt|Hge]; cbn; [by rewrite <- app_assoc|].
        f_equal. assert (Hk : forall k, take NCPU (apicids st ++ k) = apicids st) by (intros k; rewrite take_app_length'; [done|lia]). by rewrite !Hk.
      * destruct (Nat.ltb_spec (length (apicids st)) NCPU) as [Hlt|Hge]; cbn [apicids]; [rewrite length_app; simpl; lia|done].
    + cbn [Z.eqb MPPROC MPIOAPIC Pos.eqb]. change (p + sizeof_mpioapic) with (p + entry_size (EIoapic id)). rewrite E2. by rewrite IH.
    + assert (Ht : (t =? MPPROC) = false /\ (t =? MPIOAPIC) = false /\ (t =? MPBUS) || (t =? MPIOINTR) || (t =? MPLINTR) = true).
      { apply elem_of_cons in E2 as [->|E2]; [done|]. apply elem_of_cons in E2 as [->|E2]; [done|]. by apply list_elem_of_singleton in E2 as ->. }
      destruct Ht as (-> & -> & ->). change (p + 8) with (p + entry_size (EOther t)). by rewrite IH.
Qed.

(** An unknown entry is met again and again. *)
Lemma mp_loop_unknown fuel p e b st : p < e -> mem p ∉ [MPPROC; MPIOAPIC; MPBUS; MPIOINTR; MPLINTR] -> mp_loop fuel p e b st = None.
Proof using Type.
  intros Hp Hm. revert b. induction fuel as [|fuel IH]; intros b; cbn [mp_loop]; rewrite (proj2 (Z.leb_gt _ _)) by done; [done|].
  rewrite !not_elem_of_cons in Hm. destruct Hm as (H1 & H2 & H3 & H4 & H5 & _).
  rewrite !(proj2 (Z.eqb_neq (mem p) _)) by done. apply IH.
Qed.

(** More rounds change nothing. *)
Lemma mp_loop_more fuel p e b st : mp_loop fuel p e b st <> None -> forall n, mp_loop (fuel + n) p e b st = mp_loop fuel p e b st.
Proof using Type.
  revert p b st. induction fuel as [|fuel IH]; intros p b st Hn n; cbn [mp_loop Nat.add] in *.
  - destruct n; cbn [mp_loop]; destruct (e <=? p); done.
  - destruct (e <=? p); [done|]. destruct (_ =? MPPROC); [by apply IH|]. destruct (_ =? MPIOAPIC); [by apply IH|]. destruct (_ || _); by apply IH.
Qed.
End Tables.

(** C40: [mpinit] reads the configuration table.  If the table has only entries
    of the five known types, [mpinit] ends after as many rounds as there are
    entries; [cpus] holds the APIC ids of the first eight processors, in order,
    and [ioapicid] the id of the last I/O APIC.  If an entry of another type
    comes first, [mpinit] never ends: the [break] that the code has for it
    leaves only the [switch], so that the panic meant for this case is never
    reached. *)
Theorem mpinit_reads (mem : Z -> Z) (mp conf p : Z) (es : list entry)
  (Hc : mpconfig mem = Some (mp, conf)) (Hl : laid mem (conf + word_at mem (conf + 4) 2) (conf + sizeof_mpconf) es p) :
  let e := conf + word_at mem (conf + 4) 2 in
  (e <= p -> forall fuel, (length es <= fuel)%nat ->
    mpinit mem fuel = MpDone (mkMp (take NCPU (proc_ids es)) (last_ioapic 0 es)) (word_at mem (conf + 36) 4) (negb (mem (u32 (mp + 12)) =? 0))) /\
  (p < e -> mem p ∉ [MPPROC; MPIOAPIC; MPBUS; MPIOINTR; MPLINTR] -> forall fuel, mpinit mem fuel = MpLoops).
Proof.
  intros e. unfold mpinit. rewrite Hc. fold e. pose proof (fun f => mp_loop_laid mem es f _ e p (mkMp [] 0) Hl ltac:(simpl; lia)) as E. cbn [apicids ioapicid app] in E. split.
  - intros He fuel Hf. replace fuel with (length es + (fuel - length es))%nat by lia. rewrite E. destruct (fuel - length es)%nat; cbn [mp_loop]; by rewrite (proj2 (Z.leb_le _ _)).
  - intros Hp Hm fuel. destruct (mp_loop mem fuel (conf + sizeof_mpconf) e true (mkMp [] 0)) as [r|] eqn:Er; [|done].
    pose proof (mp_loop_more mem fuel (conf + sizeof_mpconf) e true (mkMp [] 0) ltac:(by rewrite Er) (length es)) as E2.
    rewrite Er, Nat.add_comm, E, mp_loop_unknown in E2; done.
Qed.

(** A machine with two processors: a structure at the start of the BIOS ROM and
    a table at the physical address 0x1000. *)
Definition ex_proc (id : Z) : list Z := [0; id; 20; 3] ++ replicate 16 0.
Definition ex_entries : list Z := ex_proc 0 ++ ex_proc 1 ++ [2; 9; 17; 1; 0; 0; 0xc0; 0xfe] ++ [1; 0; 80; 67; 73; 32; 32; 32].
Definition with_checksum (i : nat) (l : list Z) : list Z := <[i := u8 (- foldl Z.add 0 l)]> l.
Definition ex_conf : list Z :=
  with_checksum 7 ([80; 67; 77; 80; 100; 0; 4; 0] ++ replicate 28 0 ++ [0; 0; 0xe0; 0xfe] ++ replicate 4 0 ++ ex_entries).
Definition ex_mp : list Z := with_checksum 10 [95; 77; 80; 95; 0; 0x10; 0; 0; 1; 4; 0; 0; 0; 0; 0; 0].
Definition ex_mem (a : Z) : Z :=
  if (P2V 0xf0000 <=? a) && (a <? P2V 0xf0000 + 16) then byte_at ex_mp (Z.to_nat (a - P2V 0xf0000))
  else if (P2V 0x1000 <=? a) && (a <? P2V 0x1000 + 100) then byte_at ex_conf (Z.to_nat (a - P2V 0x1000)) else 0.

Lemma mpinit_reads_witness : mpinit ex_mem 4 = MpDone (mkMp [0; 1] 9) 0xfee00000 false.
Proof.
  refine (proj1 (mpinit_reads ex_mem (P2V 0xf0000) (P2V 0x1000) (P2V 0x1000 + 100) [EProc 0; EProc 1; EIoapic 9; EOther 1] _ _) _ 4%nat _).
  - vm_compute. reflexivity.
  - vm_compute. repeat split; left.
  - vm_compute. discriminate.
  - simpl. lia.
Defined.
