(* ===== verification/Boot.v ===== *)
(** * The boot loader

    [bootmain.c]: it reads the kernel, an ELF file that starts at sector 1 of
    the first drive, through the registers of the disk controller.  Memory is
    the byte at each physical address. *)
From S2P Require Import Prelude Bytes Bio Ide Exec.
Local Open Scope Z_scope.

Definition SECTSIZE : Z := 512.

(** The bytes [l] from the address [a] on. *)
Definition store_bytes (a : Z) (l : list Z) (m : Z -> Z) : Z -> Z :=
  fun x => if (a <=? x) && (x <? a + Z.of_nat (length l)) then default 0 (l !! Z.to_nat (x - a)) else m x.

Definition load_bytes (a : Z) (n : nat) (m : Z -> Z) : list Z := (fun i : nat => m (a + Z.of_nat i)) <$> seq 0 n.
Definition load32 (a : Z) (m : Z -> Z) : Z := le_val (load_bytes a 4 m).
Definition load16 (a : Z) (m : Z -> Z) : Z := le_val (load_bytes a 2 m).

Section Boot.
Context {D : Type} `{Ports D} (polls : nat).

Record boot := mkBoot { b_dev : D; b_mem : Z -> Z }.
Notation B := (M boot).

Definition bt_inb (port : Z) : B Z := fun s => let (v, d) := dev_inb port (b_dev s) in Ret v (mkBoot d (b_mem s)).
Definition bt_outb (port v : Z) : B unit := modify (fun s => mkBoot (dev_outb port (u8 v) (b_dev s)) (b_mem s)).
(** [insl(port, dst, cnt)] *)
Definition bt_insl (port dst : Z) (cnt : nat) : B unit := fun s =>
  let (l, d) := dev_insl port cnt (b_dev s) in Ret tt (mkBoot d (store_bytes dst l (b_mem s))).

(** [waitdisk] polls at most [n] times. *)
Fixpoint waitdisk (n : nat) : B unit :=
  match n with
  | O => panic "the device is never ready"
  | S n' => r ← bt_inb 0x1f7; if Z.land r 0xc0 =? 0x40 then mret tt else waitdisk n'
  end.

Definition readsect (dst offset : Z) : B unit :=
  waitdisk polls;;
  bt_outb 0x1f2 1;;
  bt_outb 0x1f3 offset;;
  bt_outb 0x1f4 (Z.shiftr offset 8);;
  bt_outb 0x1f5 (Z.shiftr offset 16);;
  bt_outb 0x1f6 (Z.lor (Z.shiftr offset 24) 0xe0);;
  bt_outb 0x1f7 0x20;;
  waitdisk polls;;
  bt_insl 0x1f0 dst (Z.to_nat (SECTSIZE / 4)).

Fixpoint readseg_loop (fuel : nat) (pa epa offset : Z) : B unit :=
  if pa <? epa then
    match fuel with
    | O => panic "out of fuel"
    | S fuel' => readsect pa offset;; readseg_loop fuel' (u32 (pa + SECTSIZE)) epa (u32 (offset + 1))
    end
  else mret tt.

(** One round for each sector of the segment and the two at its ends. *)
Definition readseg (pa count offset : Z) : B unit :=
  let epa := u32 (pa + count) in
  readseg_loop (Z.to_nat (count / SECTSIZE) + 2) (u32 (pa - offset mod SECTSIZE)) epa (u32 (offset / SECTSIZE + 1)).

(** The loop over [n] program headers from [ph] on. *)
Fixpoint load_segments (n : nat) (ph : Z) : B unit :=
  match n with
  | O => mret tt
  | S n' =>
      m ← gets b_mem;
      let pa := load32 (ph + 12) m in
      readseg pa (load32 (ph + 16) m) (load32 (ph + 4) m);;
      m ← gets b_mem;
      (if load32 (ph + 16) m <? load32 (ph + 20) m then
         modify (fun s => mkBoot (b_dev s) (store_bytes (u32 (pa + load32 (ph + 16) m)) (replicate (Z.to_nat (load32 (ph + 20) m - load32 (ph + 16) m)) 0) (b_mem s)))
       else mret tt);;
      load_segments n' (ph + sizeof_proghdr)
  end.

(** The entry point that is called, or nothing. *)
Definition bootmain : B (option Z) :=
  let elf := 0x10000 in
  readseg elf 4096 0;;
  m ← gets b_mem;
  if negb (load32 elf m =? ELF_MAGIC) then mret None
  else
    load_segments (Z.to_nat (load16 (elf + 44) m)) (u32 (elf + load32 (elf + 28) m));;
    m ← gets b_mem;
    mret (Some (load32 (elf + 24) m)).
End Boot.
