(* ===== verification/BootClaims.v ===== *)
(** * What the boot loader leaves in memory

    The loader copies whole sectors, and so more than a segment: the segments
    must not come into the way of what was loaded before. *)
From S2P Require Import Prelude Bytes Bio Ide IdeClaims Exec Boot.
Local Open Scope Z_scope.

(** ** One sector *)

(** The registers for a sector, of the first drive when there are less than
    [2 ^ 28]. *)
Definition sect_regs (n : Z) (a : ata) : ata :=
  mkAta 1 (u8 n) (u8 (Z.shiftr n 8)) (u8 (Z.shiftr n 16)) (u8 (Z.lor (Z.shiftr n 24) 0xe0)) (a_phase a) (a_drives a).

Lemma testbit_u8 x i : 0 <= i -> Z.testbit (u8 x) i = (i <? 8) && Z.testbit x i.
Proof. intros Hi. unfold u8. by rewrite Z.testbit_mod_pow2. Qed.

Lemma testbit_high n i : 0 <= n < 2 ^ 28 -> 28 <= i -> Z.testbit n i = false.
Proof.
  intros Hn Hi. rewrite <- (Z.mod_small n (2 ^ 28)) by done. rewrite Z.testbit_mod_pow2 by lia. by rewrite (proj2 (Z.ltb_ge _ _)).
Qed.

Lemma sect_regs_ok n a : 0 <= n < 2 ^ 28 ->
  lba (sect_regs n a) = n /\ drive (sect_regs n a) = 0%nat /\ Z.testbit (a_head (sect_regs n a)) 6 = true.
Proof.
  intros Hn. unfold lba, drive. cbn [sect_regs a_lba0 a_lba1 a_lba2 a_head]. split; [|split].
  - apply Z.bits_inj'. intros i Hi. rewrite !Z.lor_spec, !Z.shiftl_spec by done. rewrite testbit_u8 by done.
    assert (Hs : forall k x, 0 <= k -> Z.testbit (u8 x) (i - k) = (k <=? i) && (i <? k + 8) && Z.testbit x (i - k)).
    { intros k x Hk. destruct (Z.leb_spec k i) as [Hki|Hki]; [|by rewrite Z.testbit_neg_r by lia].
      rewrite testbit_u8 by lia. f_equal. destruct (Z.ltb_spec (i - k) 8), (Z.ltb_spec i (k + 8)); (done || lia). }
    assert (Hh : Z.testbit (Z.land (u8 (Z.lor (Z.shiftr n 24) 224)) 15) (i - 24) = (24 <=? i) && (i <? 28) && Z.testbit n i).
    { destruct (Z.leb_spec 24 i) as [H24|H24]; [|by rewrite Z.testbit_neg_r by lia].
      rewrite Z.land_spec, testbit_u8, Z.lor_spec, Z.shiftr_spec by lia. replace (i - 24 + 24) with i by lia. change 15 with (Z.ones 4). rewrite Z.testbit_ones_nonneg by lia.
      destruct (Z.ltb_spec i 28) as [H28|H28].
      - assert (E : Z.testbit 224 (i - 24) = false) by (assert (i - 24 = 0 \/ i - 24 = 1 \/ i - 24 = 2 \/ i - 24 = 3) as [->|[->|[->| ->]]] by lia; done).
        rewrite E, orb_false_r. rewrite (proj2 (Z.ltb_lt (i - 24) 8)), (proj2 (Z.ltb_lt (i - 24) 4)) by lia. by rewrite andb_true_r.
      - rewrite (proj2 (Z.ltb_ge (i - 24) 4)) by lia. by rewrite andb_false_r. }
    rewrite Hh, !Hs by lia.
    destruct (Z.ltb_spec i 8) as [H8|H8].
    { rewrite (proj2 (Z.leb_gt 8 i)), (proj2 (Z.leb_gt 16 i)), (proj2 (Z.leb_gt 24 i)) by lia. cbn [andb orb]. by rewrite !orb_false_r. }
    destruct (Z.ltb_spec i 16) as [H16|H16].
    { rewrite (proj2 (Z.leb_gt 16 i)), (proj2 (Z.leb_gt 24 i)), (proj2 (Z.leb_le 8 i)), (proj2 (Z.ltb_lt i (8 + 8))) by lia. cbn [andb orb].
      rewrite Z.shiftr_spec by lia. replace (i - 8 + 8) with i by lia. by rewrite !orb_false_r. }
    destruct (Z.ltb_spec i 24) as [H24|H24].
    { rewrite (proj2 (Z.ltb_ge i (8 + 8))), (proj2 (Z.leb_gt 24 i)), (proj2 (Z.leb_le 16 i)), (proj2 (Z.ltb_lt i (16 + 8))) by lia. rewrite andb_false_r. cbn [andb orb].
      rewrite Z.shiftr_spec by lia. replace (i - 16 + 16) with i by lia. by rewrite !orb_false_r. }
    rewrite (proj2 (Z.ltb_ge i (8 + 8))), (proj2 (Z.ltb_ge i (16 + 8))), (proj2 (Z.leb_le 24 i)) by lia. rewrite !andb_false_r. cbn [andb orb].
    destruct (Z.ltb_spec i 28) as [H28|H28]; [done|]. by rewrite testbit_high.
  - rewrite testbit_u8, Z.lor_spec, Z.shiftr_spec by lia. change (4 + 24) with 28. by rewrite testbit_high by lia.
  - rewrite testbit_u8, Z.lor_spec by lia. by rewrite orb_true_r.
Qed.

Section Loader.
Context {D : Type} `{IdeDevice D} (polls : nat) (Hpolls : forall d : D, (lag d < polls)%nat).
Notation boot := (@boot D).

Lemma waitdisk_ok n (s : boot) : (lag (b_dev s) < n)%nat ->
  exists d, waitdisk n s = Ret tt (mkBoot d (b_mem s)) /\ abs d = abs (b_dev s) /\ ready d.
Proof using Type.
  revert s. induction n as [|n IH]; intros s Hn; [lia|]. cbn [waitdisk]. pose proof (dev_poll (b_dev s)) as Hp. cbv zeta in Hp.
  change (Z.lor IDE_BSY IDE_DRDY) with 0xc0 in Hp. change IDE_DRDY with 0x40 in Hp.
  destruct (dev_inb 0x1f7 (b_dev s)) as [r d] eqn:E. cbn [fst snd] in Hp.
  rewrite (bind_Ret _ _ _ r (mkBoot d (b_mem s))) by (unfold bt_inb; by rewrite E). destruct Hp as [Ha [(H1 & H2 & H3)|[H1 H2]]].
  - rewrite (proj2 (Z.eqb_eq _ _) H1). by exists d.
  - rewrite (proj2 (Z.eqb_neq _ _) H1). destruct (IH (mkBoot d (b_mem s))) as (d' & E' & Ha' & Hr); [cbn; lia|]. exists d'. split; [done|]. split; [|done].
    etrans; [exact Ha'|exact Ha].
Qed.

Lemma bt_outb_ok {A} port v (k : unit -> M boot A) (s : boot) Q :
  ready (b_dev s) -> port ∈ [0x3f6; 0x1f2; 0x1f3; 0x1f4; 0x1f5; 0x1f6] ->
  (forall d, ready d -> abs d = ata_out port (u8 v) (abs (b_dev s)) -> Q (k tt (mkBoot d (b_mem s)))) -> Q ((bt_outb port v ≫= k) s).
Proof using Type.
  intros Hr Hp HQ. destruct (dev_register port (u8 v) (b_dev s) Hr Hp) as [H1 H2].
  rewrite (bind_Ret _ _ _ tt (mkBoot (dev_outb port (u8 v) (b_dev s)) (b_mem s))) by done. by apply HQ.
Qed.

Ltac bt_reg d R E := eapply bt_outb_ok; [done|apply (bool_decide_eq_true_1 _); reflexivity|]; intros d R E; cbn [b_dev b_mem] in E |- *.

Lemma readsect_ok dst off (s : boot) : 0 <= off < 2 ^ 28 ->
  exists d, readsect polls dst off s = Ret tt (mkBoot d (store_bytes dst (sector_at 0 off (abs (b_dev s))) (b_mem s))) /\
    a_drives (abs d) = a_drives (abs (b_dev s)).
Proof using Hpolls.
  intros Ho. unfold readsect. destruct (waitdisk_ok polls s (Hpolls _)) as (d0 & E0 & Ha0 & Hr0). rewrite (bind_Ret _ _ _ _ _ E0).
  pose proof (sect_regs_ok off (abs (b_dev s)) Ho) as (H1 & H2 & H3).
  bt_reg d1 R1 E1. bt_reg d2 R2 E2. bt_reg d3 R3 E3. bt_reg d4 R4 E4. bt_reg d5 R5 E5.
  assert (Ed : abs d5 = sect_regs off (abs (b_dev s))) by (rewrite E5, E4, E3, E2, E1, Ha0; reflexivity). rewrite <- Ed in H1, H2, H3.
  pose proof (dev_read d5 R5 ltac:(by rewrite Ed) H3) as Er. rewrite H1, H2 in Er.
  set (d6 := dev_outb 503 IDE_CMD_READ d5) in Er. rewrite (bind_Ret _ _ _ tt (mkBoot d6 (b_mem s))) by done.
  destruct (waitdisk_ok polls (mkBoot d6 (b_mem s)) (Hpolls _)) as (d7 & E7 & Ha7 & Hr7). rewrite (bind_Ret _ _ _ _ _ E7). cbn [b_dev b_mem] in Ha7 |- *.
  pose proof (dev_receive d7 0 off Hr7 ltac:(by rewrite Ha7, Er)) as Hrc. cbv zeta in Hrc.
  unfold bt_insl. change (Z.to_nat (SECTSIZE / 4)) with 128%nat. cbn [b_dev b_mem]. destruct (dev_insl 0x1f0 128 d7) as [v d8]. cbn [fst snd] in Hrc. destruct Hrc as [-> Hd8].
  exists d8. rewrite Hd8, Ha7, Er. split; [|cbn; by rewrite Ed]. by rewrite Ed.
Qed.

(** ** A segment *)

(** Byte [i] of the file that starts at sector 1 of a drive. *)
Definition kfile (dk : list block) (i : Z) : Z := default 0 (default [] (dk !! Z.to_nat (1 + i / 512)) !! Z.to_nat (i mod 512)).

Record drive0 (dk : list block) (s : boot) : Prop := {
  d0_drive : a_drives (abs (b_dev s)) !! 0%nat = Some dk;
  d0_size : Z.of_nat (length dk) <= 2 ^ 28;
  d0_blocks : Forall (fun b => length b = BSIZE /\ Forall is_u8 b) dk
}.

Lemma drive0_next dk s d m : drive0 dk s -> a_drives (abs d) = a_drives (abs (b_dev s)) -> drive0 dk (mkBoot d m).
Proof using Type. intros [H1 H2 H3] E. split; cbn; [by rewrite E|done..]. Qed.

Lemma readsect_file dk dst off (s : boot) : drive0 dk s -> 1 <= off < Z.of_nat (length dk) ->
  exists d m, readsect polls dst off s = Ret tt (mkBoot d m) /\ drive0 dk (mkBoot d m) /\
    forall x, m x = if (dst <=? x) && (x <? dst + 512) then kfile dk (x - dst + 512 * (off - 1)) else b_mem s x.
Proof using Hpolls.
  intros Hd Ho. pose proof (d0_size _ _ Hd). destruct (readsect_ok dst off s ltac:(lia)) as (d & E & Edr). eexists d, _. split; [exact E|].
  split; [by eapply drive0_next|]. intros x. unfold sector_at. rewrite (d0_drive _ _ Hd).
  destruct (lookup_lt_is_Some_2 dk (Z.to_nat off)) as [b Hb]; [lia|]. rewrite default_Some, Hb, default_Some.
  assert (Hl : length b = 512%nat) by (pose proof (d0_blocks _ _ Hd) as Hf; rewrite Forall_lookup in Hf; apply (Hf _ _ Hb)).
  unfold store_bytes. rewrite Hl. change (Z.of_nat 512) with 512. destruct (_ && _) eqn:Ex; [|done].
  apply andb_prop in Ex as [Ex1%Z.leb_le Ex2%Z.ltb_lt]. unfold kfile.
  replace ((x - dst + 512 * (off - 1)) / 512) with (off - 1) by lia. replace ((x - dst + 512 * (off - 1)) mod 512) with (x - dst) by lia.
  replace (1 + (off - 1)) with off by lia. by rewrite Hb.
Qed.

(** [k] sectors cover the rest of the segment. *)
Definition covers (k : nat) (pa epa : Z) : Prop := match k with O => epa <= pa | S k' => pa + 512 * Z.of_nat k' < epa <= pa + 512 * Z.of_nat k end.

Lemma readseg_loop_ok dk k fuel pa epa off (s : boot) :
  drive0 dk s -> covers k pa epa -> (k <= fuel)%nat -> 0 <= pa -> pa + 512 * Z.of_nat k < 2 ^ 32 -> 1 <= off -> off + Z.of_nat k <= Z.of_nat (length dk) ->
  exists d m, readseg_loop polls fuel pa epa off s = Ret tt (mkBoot d m) /\ drive0 dk (mkBoot d m) /\
    forall x, m x = if (pa <=? x) && (x <? pa + 512 * Z.of_nat k) then kfile dk (x - pa + 512 * (off - 1)) else b_mem s x.
Proof using Hpolls.
  revert fuel pa off s. induction k as [|k IH]; intros fuel pa off s Hd Hk Hf Hpa Hmax Ho Hlen.
  - cbn [covers] in Hk. exists (b_dev s), (b_mem s). split; [|split].
    + destruct fuel; cbn [readseg_loop]; rewrite (proj2 (Z.ltb_ge _ _)) by done; by destruct s.
    + by destruct s.
    + intros x. replace ((pa <=? x) && (x <? pa + 512 * Z.of_nat 0)) with false; [done|]. symmetry. apply andb_false_iff. rewrite Z.leb_gt, Z.ltb_ge. lia.
  - destruct fuel as [|fuel]; [lia|]. cbn [covers] in Hk. cbn [readseg_loop]. rewrite (proj2 (Z.ltb_lt _ _)) by lia. pose proof (d0_size _ _ Hd).
    destruct (readsect_file dk pa off s Hd ltac:(lia)) as (d1 & m1 & E1 & Hd1 & Hm1). rewrite (bind_Ret _ _ _ _ _ E1).
    change SECTSIZE with 512. rewrite !u32_id by lia.
    destruct (IH fuel (pa + 512) (off + 1) (mkBoot d1 m1)) as (d & m & E & Hd' & Hm); [done|destruct k; cbn [covers] in *; lia|lia..|].
    exists d, m. split; [done|]. split; [done|]. intros x. rewrite Hm. cbn [b_mem]. rewrite Hm1.
    destruct (Z.leb_spec (pa + 512) x), (Z.ltb_spec x (pa + 512 + 512 * Z.of_nat k)), (Z.leb_spec pa x), (Z.ltb_spec x (pa + 512)), (Z.ltb_spec x (pa + 512 * Z.of_nat (S k))); cbn [andb]; try lia; try done.
    f_equal. lia.
Qed.

Definition seg_lo (pa offset : Z) : Z := pa - offset mod 512.
Definition seg_sectors (pa count offset : Z) : Z := (count + offset mod 512 + 511) / 512.

Lemma readseg_ok dk pa count offset (s : boot) :
  drive0 dk s -> 0 <= count -> 0 <= offset -> 0 <= seg_lo pa offset -> seg_lo pa offset + 512 * seg_sectors pa count offset < 2 ^ 32 ->
  offset / 512 + 1 + seg_sectors pa count offset <= Z.of_nat (length dk) ->
  exists d m, readseg polls pa count offset s = Ret tt (mkBoot d m) /\ drive0 dk (mkBoot d m) /\
    forall x, m x = if (seg_lo pa offset <=? x) && (x <? seg_lo pa offset + 512 * seg_sectors pa count offset) then kfile dk (x - pa + offset) else b_mem s x.
Proof using Hpolls.
  intros Hd Hc Ho Hlo Hmax Hlen. pose proof (d0_size _ _ Hd) as Hsz. unfold readseg. change SECTSIZE with 512. set (k := seg_sectors pa count offset) in *.
  assert (Hk : 0 <= k /\ count + offset mod 512 <= 512 * k < count + offset mod 512 + 512) by (unfold k, seg_sectors; lia).
  unfold seg_lo in *. rewrite !u32_id by lia.
  destruct (readseg_loop_ok dk (Z.to_nat k) (Z.to_nat (count / 512) + 2) (pa - offset mod 512) (pa + count) (offset / 512 + 1) s) as (d & m & E & Hd' & Hm).
  - done.
  - destruct (Z.to_nat k) eqn:Ek; cbn [covers]; lia.
  - lia.
  - lia.
  - rewrite Z2Nat.id by lia. lia.
  - lia.
  - rewrite Z2Nat.id by lia. lia.
  - exists d, m. split; [done|]. split; [done|]. intros x. rewrite Hm, Z2Nat.id by lia. destruct (_ && _); [|done]. f_equal. lia.
Qed.

(** ** The segments *)

Lemma load_pos dk s a n : drive0 dk s -> 0 <= le_val (load_bytes a n (kfile dk)).
Proof using Type.
  intros Hd. apply (le_val_range (load_bytes a n (kfile dk))). unfold load_bytes. apply Forall_fmap, Forall_forall. intros i _. cbn. unfold kfile.
  set (j := a + Z.of_nat i). destruct (dk !! _) as [b|] eqn:Eb; [|done]. rewrite default_Some. pose proof (d0_blocks _ _ Hd) as Hb. rewrite Forall_lookup in Hb.
  destruct (Hb _ _ Eb) as [_ Hu]. rewrite Forall_lookup in Hu. destruct (b !! _) as [v|] eqn:Ev; [|done]. by apply (Hu _ _ Ev).
Qed.

Lemma load32_pos dk s a : drive0 dk s -> 0 <= load32 a (kfile dk).
Proof using Type. apply load_pos. Qed.

(** What a program header of the file says. *)
Record seg := mkSeg { sg_off : Z; sg_pa : Z; sg_filesz : Z; sg_memsz : Z }.
Definition seg_at (dk : list block) (i : nat) : seg :=
  let ph := load32 28 (kfile dk) + 32 * Z.of_nat i in
  mkSeg (load32 (ph + 4) (kfile dk)) (load32 (ph + 12) (kfile dk)) (load32 (ph + 16) (kfile dk)) (load32 (ph + 20) (kfile dk)).

(** The addresses that loading a segment writes to, and those of the segment. *)
Definition writes (g : seg) (x : Z) : Prop :=
  seg_lo (sg_pa g) (sg_off g) <= x < Z.max (seg_lo (sg_pa g) (sg_off g) + 512 * seg_sectors (sg_pa g) (sg_filesz g) (sg_off g)) (sg_pa g + sg_memsz g).
Definition within (g : seg) (x : Z) : Prop := sg_pa g <= x < sg_pa g + Z.max (sg_filesz g) (sg_memsz g).

Definition scratch (x : Z) : Prop := 0x10000 <= x < 0x11000.

(** The segment lies in the file and in memory, off the scratch page. *)
Record seg_ok (dk : list block) (g : seg) : Prop := {
  sg_low : 0 <= seg_lo (sg_pa g) (sg_off g);
  sg_high : seg_lo (sg_pa g) (sg_off g) + 512 * seg_sectors (sg_pa g) (sg_filesz g) (sg_off g) < 2 ^ 32 /\ sg_pa g + sg_memsz g < 2 ^ 32;
  sg_file : sg_off g / 512 + 1 + seg_sectors (sg_pa g) (sg_filesz g) (sg_off g) <= Z.of_nat (length dk);
  sg_scratch x : writes g x -> ~ scratch x
}.

Definition loaded (dk : list block) (g : seg) (m : Z -> Z) : Prop := forall x,
  (sg_pa g <= x < sg_pa g + sg_filesz g -> m x = kfile dk (x - sg_pa g + sg_off g)) /\
  (sg_pa g + sg_filesz g <= x < sg_pa g + sg_memsz g -> m x = 0).

(** The first page of the file is in the scratch page. *)
Definition header (dk : list block) (m : Z -> Z) : Prop := forall x, scratch x -> m x = kfile dk (x - 0x10000).

Lemma header_load dk m a n : header dk m -> 0 <= a -> a + Z.of_nat n <= 4096 -> load_bytes (0x10000 + a) n m = load_bytes a n (kfile dk).
Proof using Type.
  intros Hh Ha Hn. unfold load_bytes. apply list_fmap_ext. intros i x Hi. apply lookup_seq in Hi as [-> Hi].
  rewrite Hh by (unfold scratch; lia). f_equal. lia.
Qed.

Lemma header_load32 dk m a : header dk m -> 0 <= a <= 4092 -> load32 (0x10000 + a) m = load32 a (kfile dk).
Proof using Type. intros Hh Ha. unfold load32. by rewrite (header_load dk) by (done || lia). Qed.

(** One round of the loop. *)
Lemma load_one dk g ph (s : boot) n : drive0 dk s -> header dk (b_mem s) -> seg_ok dk g -> 0 <= ph <= 4064 ->
  load32 (ph + 4) (kfile dk) = sg_off g -> load32 (ph + 12) (kfile dk) = sg_pa g -> load32 (ph + 16) (kfile dk) = sg_filesz g -> load32 (ph + 20) (kfile dk) = sg_memsz g ->
  exists d m, load_segments polls (S n) (0x10000 + ph) s = load_segments polls n (0x10000 + (ph + 32)) (mkBoot d m) /\
    drive0 dk (mkBoot d m) /\ loaded dk g m /\ forall x, ~ writes g x -> m x = b_mem s x.
Proof using Hpolls.
  intros Hd Hh Hg Hph F1 F2 F3 F4. cbn [load_segments]. rewrite (bind_Ret _ _ _ (b_mem s) s) by done. rewrite <- !Z.add_assoc.
  rewrite !(header_load32 dk (b_mem s)) by (done || lia). rewrite F1, F2, F3.
  pose proof (load32_pos dk s (ph + 4) Hd) as P1. pose proof (load32_pos dk s (ph + 16) Hd) as P2. rewrite F1 in P1. rewrite F3 in P2.
  destruct (readseg_ok dk (sg_pa g) (sg_filesz g) (sg_off g) s Hd P2 P1 (sg_low _ _ Hg) (proj1 (sg_high _ _ Hg)) (sg_file _ _ Hg)) as (d & m & E & Hd' & Hm).
  rewrite (bind_Ret _ _ _ _ _ E). rewrite (bind_Ret _ _ _ m (mkBoot d m)) by done.
  assert (Hlo : seg_lo (sg_pa g) (sg_off g) <= sg_pa g < seg_lo (sg_pa g) (sg_off g) + 512) by (unfold seg_lo; lia).
  assert (Hhi : sg_pa g + sg_filesz g <= seg_lo (sg_pa g) (sg_off g) + 512 * seg_sectors (sg_pa g) (sg_filesz g) (sg_off g)) by (unfold seg_lo, seg_sectors; lia).
  assert (Hk : forall x, ~ writes g x -> m x = b_mem s x).
  { intros x Hx. rewrite Hm. destruct (_ && _) eqn:Ex; [|done]. destruct Hx. apply andb_prop in Ex as [Ex1%Z.leb_le Ex2%Z.ltb_lt]. unfold writes. lia. }
  assert (Hh' : header dk m) by (intros x Hx; rewrite Hk; [by apply Hh|]; intros Hw; by apply (sg_scratch _ _ Hg x)).
  rewrite !(header_load32 dk m) by (done || lia). rewrite F3, F4. change sizeof_proghdr with 32.
  assert (Hf : forall x, sg_pa g <= x < sg_pa g + sg_filesz g -> m x = kfile dk (x - sg_pa g + sg_off g)).
  { intros x Hx. rewrite Hm. rewrite (proj2 (Z.leb_le _ _)), (proj2 (Z.ltb_lt _ _)) by lia. done. }
  destruct (Z.ltb_spec (sg_filesz g) (sg_memsz g)) as [Hlt|Hge].
  - rewrite u32_id by (pose proof (sg_high _ _ Hg); pose proof (sg_low _ _ Hg); lia). eexists d, _. split; [erewrite bind_Ret by reflexivity; done|]. split; [by eapply drive0_next|].
    cbn [b_mem b_dev]. unfold store_bytes. rewrite length_replicate, Z2Nat.id by lia. split; [intros x; split; intros Hx|intros x Hx].
    + rewrite (proj2 (Z.leb_gt _ _)) by lia. cbn [andb]. by apply Hf.
    + rewrite (proj2 (Z.leb_le _ _)), (proj2 (Z.ltb_lt _ _)) by lia. cbn [andb]. by rewrite lookup_replicate_2 by lia.
    + destruct (_ && _) eqn:Ex; [|by apply Hk]. destruct Hx. apply andb_prop in Ex as [Ex1%Z.leb_le Ex2%Z.ltb_lt]. unfold writes. lia.
  - eexists d, m. split; [by rewrite (bind_Ret _ _ _ tt (mkBoot d m))|]. split; [done|]. split; [|done]. intros x. split; [by apply Hf|]. lia.
Qed.

Lemma loaded_keep dk g m m' : 0 <= sg_filesz g -> loaded dk g m -> (forall x, within g x -> m' x = m x) -> loaded dk g m'.
Proof using Type. intros Hf Hl Hm x. destruct (Hl x) as [H1 H2]. split; intros Hx; (rewrite Hm; [auto|]; unfold within; lia). Qed.

(** A segment is loaded without harm to those before it. *)
Definition in_order (dk : list block) (n : nat) : Prop :=
  forall j k x, (j < k < n)%nat -> writes (seg_at dk k) x -> ~ within (seg_at dk j) x.

Lemma load_all dk n i (s : boot) : let phoff := load32 28 (kfile dk) in
  drive0 dk s -> header dk (b_mem s) -> phoff + 32 * Z.of_nat (i + n) <= 4096 ->
  (forall j, (j < i + n)%nat -> seg_ok dk (seg_at dk j)) -> in_order dk (i + n) -> (forall j, (j < i)%nat -> loaded dk (seg_at dk j) (b_mem s)) ->
  exists s', load_segments polls n (0x10000 + (phoff + 32 * Z.of_nat i)) s = Ret tt s' /\ header dk (b_mem s') /\
    forall j, (j < i + n)%nat -> loaded dk (seg_at dk j) (b_mem s').
Proof using Hpolls.
  intros phoff. revert i s. induction n as [|n IH]; intros i s Hd Hh Hph Hok Hord Hl.
  - exists s. split; [done|]. split; [done|]. intros j Hj. apply Hl. lia.
  - pose proof (load32_pos dk s 28 Hd) as Hpos. fold phoff in Hpos. pose proof (Hok i ltac:(lia)) as Hi.
    destruct (load_one dk (seg_at dk i) (phoff + 32 * Z.of_nat i) s n) as (d & m & E & Hd' & Hg & Hm); try done; [lia|].
    rewrite E. replace (phoff + 32 * Z.of_nat i + 32) with (phoff + 32 * Z.of_nat (S i)) by lia.
    replace (i + S n)%nat with (S i + n)%nat in * by lia. apply IH; [done| |done..|].
    + intros x Hx. cbn [b_mem]. rewrite Hm; [by apply Hh|]. intros Hw. by apply (sg_scratch _ _ Hi x).
    + intros j Hj. cbn [b_mem]. destruct (decide (j = i)) as [->|]; [done|]. eapply loaded_keep; [by apply (load32_pos dk s)|apply Hl; lia|]. intros x Hx. apply Hm. intros Hw.
      apply (Hord j i x); [lia|done|done].
Qed.
End Loader.

(** C13: the boot loader loads the kernel.  Let the first drive hold an ELF file
    from sector 1 on whose program headers are in its first page, and whose
    segments fit into memory, off the page at 0x10000, such that what is
    written for a segment (whole sectors, which may begin before and end
    after it) does not touch a segment before it.  Then [bootmain] calls the
    entry point of the file, and then each segment is in memory at its
    physical address: its bytes from the file, followed by zeros up to its
    size in memory.  A file without the magic number is not started. *)
Theorem bootmain_loads {D : Type} `{IdeDevice D} (polls : nat) (s : @boot D) (dk : list block)
  (Hpolls : forall d : D, (lag d < polls)%nat) (Hd : drive0 dk s) (Hlen : 9 <= Z.of_nat (length dk)) :
  let n := Z.to_nat (load16 44 (kfile dk)) in
  (load32 0 (kfile dk) <> ELF_MAGIC -> exists s', bootmain polls s = Ret None s') /\
  (load32 0 (kfile dk) = ELF_MAGIC -> load32 28 (kfile dk) + 32 * Z.of_nat n <= 4096 ->
   (forall j, (j < n)%nat -> seg_ok dk (seg_at dk j)) -> in_order dk n ->
   exists s', bootmain polls s = Ret (Some (load32 24 (kfile dk))) s' /\ forall j, (j < n)%nat -> loaded dk (seg_at dk j) (b_mem s')).
Proof.
  intros n. unfold bootmain. cbv zeta. destruct (readseg_ok polls Hpolls dk 0x10000 4096 0 s) as (d & m & E & Hd' & Hm); [done|lia|lia|done|done|done|].
  rewrite (bind_Ret _ _ _ _ _ E). rewrite (bind_Ret _ _ _ m (mkBoot d m)) by done.
  assert (Hh : header dk m).
  { intros x Hx. rewrite Hm. change (seg_lo 0x10000 0) with 0x10000. change (0x10000 + 512 * seg_sectors 0x10000 4096 0) with 0x11000. unfold scratch in Hx.
    rewrite (proj2 (Z.leb_le _ _)), (proj2 (Z.ltb_lt _ _)) by lia. cbn [andb]. f_equal. lia. }
  pose proof (header_load32 dk m 0 Hh ltac:(lia)) as E0. rewrite Z.add_0_r in E0. rewrite E0. pose proof (load32_pos dk s 28 Hd) as Hpos.
  rewrite (header_load32 dk m 28) by (done || lia). assert (E44 : load16 (0x10000 + 44) m = load16 44 (kfile dk)) by (unfold load16; by rewrite (header_load dk) by (done || lia)).
  rewrite E44. fold n. split.
  - intros Hne. rewrite (proj2 (Z.eqb_neq _ _) Hne). by eexists.
  - intros -> Hph Hok Hord. cbn [negb]. rewrite Z.eqb_refl. cbn [negb]. rewrite u32_id by lia.
    destruct (load_all polls Hpolls dk n 0 (mkBoot d m)) as (s' & E' & Hh' & Hl); [done..|lia|]. rewrite Z.mul_0_r, Z.add_0_r in E'.
    rewrite (bind_Ret _ _ _ _ _ E'). exists s'. split; [|done]. rewrite (bind_Ret _ _ _ (b_mem s') s') by done. by rewrite (header_load32 dk) by (done || lia).
Qed.

(** A kernel of two segments, on a drive of twelve sectors. *)
Definition ex_file : list Z :=
  le_bytes 4 ELF_MAGIC ++ replicate 20 0 ++ le_bytes 4 0x10000c ++ le_bytes 4 52 ++ replicate 12 0 ++ le_bytes 2 2 ++ replicate 6 0 ++
  concat (le_bytes 4 <$> [1; 4096; 0x80100000; 0x100000; 600; 700; 5; 4096]) ++
  concat (le_bytes 4 <$> [1; 4800; 0x80102000; 0x102000; 100; 100; 6; 4096]) ++ replicate (4096 - 116) 0 ++
  replicate 600 17 ++ replicate 104 0 ++ replicate 100 34 ++ replicate 220 0.
Definition ex_drive : list block :=
  replicate BSIZE 0 :: ((fun i => take BSIZE (drop (BSIZE * i) ex_file)) <$> seq 0 10).
Definition ex_boot : @boot toy := mkBoot (mkToy (mkAta 0 0 0 0 0 PIdle [ex_drive; []]) false false) (fun _ => 0xcc).

Lemma bootmain_loads_witness :
  exists s', bootmain 2 ex_boot = Ret (Some 0x10000c) s' /\
    loaded ex_drive (mkSeg 4096 0x100000 600 700) (b_mem s') /\ loaded ex_drive (mkSeg 4800 0x102000 100 100) (b_mem s').
Proof.
  assert (E0 : seg_at ex_drive 0 = mkSeg 4096 0x100000 600 700) by (vm_compute; reflexivity).
  assert (E1 : seg_at ex_drive 1 = mkSeg 4800 0x102000 100 100) by (vm_compute; reflexivity).
  assert (Hd : drive0 ex_drive ex_boot).
  { split; [done|done|]. apply (bool_decide_eq_true_1 _). vm_compute. reflexivity. }
  destruct (proj2 (bootmain_loads 2 ex_boot ex_drive ltac:(intros [a [|] w]; cbn; lia) Hd ltac:(vm_compute; discriminate))) as (s' & E & Hl).
  - vm_compute. reflexivity.
  - vm_compute. discriminate.
  - change (Z.to_nat (load16 44 (kfile ex_drive))) with 2%nat. intros [|[|j]] Hj; [rewrite E0|rewrite E1|lia].
    + split; [by vm_compute|by vm_compute|by vm_compute|]. unfold writes, scratch. intros x. vm_compute (Z.max _ _). vm_compute (seg_lo _ _). lia.
    + split; [by vm_compute|by vm_compute|by vm_compute|]. unfold writes, scratch. intros x. vm_compute (Z.max _ _). vm_compute (seg_lo _ _). lia.
  - change (Z.to_nat (load16 44 (kfile ex_drive))) with 2%nat. intros j k x Hjk. assert (j = 0%nat /\ k = 1%nat) as [-> ->] by lia. rewrite E0, E1.
    unfold writes, within. vm_compute (Z.max _ (sg_pa _ + _)). vm_compute (seg_lo _ _). cbn. lia.
  - exists s'. split; [exact E|]. change (Z.to_nat (load16 44 (kfile ex_drive))) with 2%nat in Hl.
    split; [rewrite <- E0|rewrite <- E1]; apply Hl; lia.
Defined.
