(* ===== verification/Kbd.v ===== *)
(** * The keyboard

    [kbd.c] and its tables in [kbd.h]: scan codes of the keyboard controller are
    turned into characters by [kbdgetc], which keeps the state of the modifier
    keys in one word, and handed on to the console by [kbdintr]. *)
From S2P Require Import Prelude Cstring Console.
Local Open Scope Z_scope.

Definition KBS_DIB : Z := 1.
Definition NO : Z := 0.
Definition SHIFT : Z := Z.shiftl 1 0.
Definition CTL : Z := Z.shiftl 1 1.
Definition ALT : Z := Z.shiftl 1 2.
Definition CAPSLOCK : Z := Z.shiftl 1 3.
Definition NUMLOCK : Z := Z.shiftl 1 4.
Definition SCROLLLOCK : Z := Z.shiftl 1 5.
Definition E0ESC : Z := Z.shiftl 1 6.

Definition KEY_HOME : Z := 0xe0.
Definition KEY_END : Z := 0xe1.
Definition KEY_UP : Z := 0xe2.
Definition KEY_DN : Z := 0xe3.
Definition KEY_LF : Z := 0xe4.
Definition KEY_RT : Z := 0xe5.
Definition KEY_PGUP : Z := 0xe6.
Definition KEY_PGDN : Z := 0xe7.
Definition KEY_INS : Z := 0xe8.
Definition KEY_DEL : Z := 0xe9.

(** A [uchar] array of 256 entries: the first entries, then single ones. *)
Definition table (first : list Z) (single : list (Z * Z)) : list Z :=
  u8 <$> foldl (fun t e => <[Z.to_nat e.1 := e.2]> t) (first ++ replicate (256 - length first) 0) single.

Definition shiftcode : list Z := table [] [(0x1d, CTL); (0x2a, SHIFT); (0x36, SHIFT); (0x38, ALT); (0x9d, CTL); (0xb8, ALT)].
Definition togglecode : list Z := table [] [(0x3a, CAPSLOCK); (0x45, NUMLOCK); (0x46, SCROLLLOCK)].

Definition normalmap : list Z := table
  [NO; 27; 49; 50; 51; 52; 53; 54;
   55; 56; 57; 48; 45; 61; 8; 9;
   113; 119; 101; 114; 116; 121; 117; 105;
   111; 112; 91; 93; 10; NO; 97; 115;
   100; 102; 103; 104; 106; 107; 108; 59;
   39; 96; NO; 92; 122; 120; 99; 118;
   98; 110; 109; 44; 46; 47; NO; 42;
   NO; 32; NO; NO; NO; NO; NO; NO;
   NO; NO; NO; NO; NO; NO; NO; 55;
   56; 57; 45; 52; 53; 54; 43; 49;
   50; 51; 48; 46; NO; NO; NO; NO]
  [(0x9C, 10); (0xB5, 47); (0xC8, KEY_UP); (0xD0, KEY_DN); (0xC9, KEY_PGUP); (0xD1, KEY_PGDN); (0xCB, KEY_LF); (0xCD, KEY_RT); (0x97, KEY_HOME); (0xCF, KEY_END); (0xD2, KEY_INS); (0xD3, KEY_DEL)].

Definition shiftmap : list Z := table
  [NO; 27; 33; 64; 35; 36; 37; 94;
   38; 42; 40; 41; 95; 43; 8; 9;
   81; 87; 69; 82; 84; 89; 85; 73;
   79; 80; 123; 125; 10; NO; 65; 83;
   68; 70; 71; 72; 74; 75; 76; 58;
   34; 126; NO; 124; 90; 88; 67; 86;
   66; 78; 77; 60; 62; 63; NO; 42;
   NO; 32; NO; NO; NO; NO; NO; NO;
   NO; NO; NO; NO; NO; NO; NO; 55;
   56; 57; 45; 52; 53; 54; 43; 49;
   50; 51; 48; 46; NO; NO; NO; NO]
  [(0x9C, 10); (0xB5, 47); (0xC8, KEY_UP); (0xD0, KEY_DN); (0xC9, KEY_PGUP); (0xD1, KEY_PGDN); (0xCB, KEY_LF); (0xCD, KEY_RT); (0x97, KEY_HOME); (0xCF, KEY_END); (0xD2, KEY_INS); (0xD3, KEY_DEL)].

Definition ctlmap : list Z := table
  [NO; NO; NO; NO; NO; NO; NO; NO;
   NO; NO; NO; NO; NO; NO; NO; NO;
   C 81; C 87; C 69; C 82; C 84; C 89; C 85; C 73;
   C 79; C 80; NO; NO; 13; NO; C 65; C 83;
   C 68; C 70; C 71; C 72; C 74; C 75; C 76; NO;
   NO; NO; NO; C 92; C 90; C 88; C 67; C 86;
   C 66; C 78; C 77; NO; NO; C 47; NO; NO]
  [(0x9C, 13); (0xB5, C 47); (0xC8, KEY_UP); (0xD0, KEY_DN); (0xC9, KEY_PGUP); (0xD1, KEY_PGDN); (0xCB, KEY_LF); (0xCD, KEY_RT); (0x97, KEY_HOME); (0xCF, KEY_END); (0xD2, KEY_INS); (0xD3, KEY_DEL)].

Definition charcode : list (list Z) := [normalmap; shiftmap; ctlmap; ctlmap].

Definition at_ (t : list Z) (i : Z) : Z := byte_at t (Z.to_nat i).

(** [kbdgetc], when the ports give [st] and [data]: the result and the new
    value of [shift]. *)
Definition kbdgetc (st data shift : Z) : Z * Z :=
  if Z.land st KBS_DIB =? 0 then (-1, shift)
  else if data =? 0xe0 then (0, Z.lor shift E0ESC)
  else if negb (Z.land data 0x80 =? 0) then
    let data := if negb (Z.land shift E0ESC =? 0) then data else Z.land data 0x7f in
    (0, Z.land shift (u32 (Z.lnot (Z.lor (at_ shiftcode data) E0ESC))))
  else
    let (data, shift) :=
      if negb (Z.land shift E0ESC =? 0) then (Z.lor data 0x80, Z.land shift (u32 (Z.lnot E0ESC))) else (data, shift) in
    let shift := Z.lor shift (at_ shiftcode data) in
    let shift := Z.lxor shift (at_ togglecode data) in
    let c := at_ (default [] (charcode !! Z.to_nat (Z.land shift (Z.lor CTL SHIFT)))) data in
    let c :=
      if negb (Z.land shift CAPSLOCK =? 0) then
        if (97 <=? c) && (c <=? 122) then c + (65 - 97)
        else if (65 <=? c) && (c <=? 90) then c + (97 - 65)
        else c
      else c in
    (c, shift).

(** [kbdintr] with the scan codes that are in the buffer of the controller. *)
Fixpoint kbd_chars (codes : list Z) (shift : Z) : list Z * Z :=
  match codes with
  | [] => ([], shift)
  | d :: codes' =>
      let (c, shift1) := kbdgetc KBS_DIB d shift in
      let (cs, shift2) := kbd_chars codes' shift1 in (c :: cs, shift2)
  end.

Definition kbdintr (codes : list Z) (shift : Z) (s : input) : (input * list Z * bool * bool) * Z :=
  let (cs, shift') := kbd_chars codes shift in (consoleintr cs s, shift').

(** ** The modifier keys *)

Record mods := mkMods { m_shift : bool; m_ctl : bool; m_alt : bool; m_caps : bool; m_num : bool; m_scroll : bool; m_esc : bool }.

Definition word_of (m : mods) : Z :=
  Z.b2z (m_shift m) + 2 * Z.b2z (m_ctl m) + 4 * Z.b2z (m_alt m) + 8 * Z.b2z (m_caps m) + 16 * Z.b2z (m_num m) + 32 * Z.b2z (m_scroll m) +
  64 * Z.b2z (m_esc m).

(** A key goes down or up; the keys with an [E0] prefix are from 128 on. *)
Definition is_shift (k : Z) : bool := (k =? 0x2a) || (k =? 0x36).
Definition is_ctl (k : Z) : bool := (k =? 0x1d) || (k =? 0x9d).
Definition is_alt (k : Z) : bool := (k =? 0x38) || (k =? 0xb8).

Definition key_up (k : Z) (m : mods) : mods :=
  mkMods (m_shift m && negb (is_shift k)) (m_ctl m && negb (is_ctl k)) (m_alt m && negb (is_alt k)) (m_caps m) (m_num m) (m_scroll m) false.
Definition key_down (k : Z) (m : mods) : mods :=
  mkMods (m_shift m || is_shift k) (m_ctl m || is_ctl k) (m_alt m || is_alt k)
    (xorb (m_caps m) (k =? 0x3a)) (xorb (m_num m) (k =? 0x45)) (xorb (m_scroll m) (k =? 0x46)) false.

Definition is_lower (c : Z) : bool := (97 <=? c) && (c <=? 122).

(** The character of a key: a letter is capital if either shift or caps lock
    is on, and with control it is the control character. *)
Definition key_char (k : Z) (m : mods) : Z :=
  let c := at_ normalmap k in
  if m_ctl m then at_ ctlmap k
  else if is_lower c then if xorb (m_shift m) (m_caps m) then c - 32 else c
  else if m_shift m then at_ shiftmap k else c.

Definition kbd_step (d : Z) (m : mods) : Z * mods :=
  if d =? 0xe0 then (0, mkMods (m_shift m) (m_ctl m) (m_alt m) (m_caps m) (m_num m) (m_scroll m) true)
  else if 128 <=? d then (0, key_up (if m_esc m then d else d - 128) m)
  else
    let k := if m_esc m then d + 128 else d in
    let m' := key_down k m in (key_char k m', m').

Fixpoint kbd_run (codes : list Z) (m : mods) : list Z * mods :=
  match codes with
  | [] => ([], m)
  | d :: codes' => let (c, m1) := kbd_step d m in let (cs, m2) := kbd_run codes' m1 in (c :: cs, m2)
  end.

(** Every scan code in every state of the modifiers. *)
Lemma kbd_all m : forallb (fun i => bool_decide (kbdgetc KBS_DIB (Z.of_nat i) (word_of m) =
  ((kbd_step (Z.of_nat i) m).1, word_of (kbd_step (Z.of_nat i) m).2))) (seq 0 256) = true.
Proof. destruct m as [[] [] [] [] [] [] []]; vm_compute; reflexivity. Qed.

Lemma kbdgetc_step d m : is_u8 d -> kbdgetc KBS_DIB d (word_of m) = ((kbd_step d m).1, word_of (kbd_step d m).2).
Proof.
  intros Hd. unfold is_u8 in Hd. pose proof (kbd_all m) as E. rewrite forallb_forall in E. specialize (E (Z.to_nat d)). rewrite Z2Nat.id in E by lia.
  eapply bool_decide_eq_true_1, E. apply in_seq. lia.
Qed.

(** For every sequence of scan codes the word [shift] records which of the
    modifier keys are down (the last event of a shift key counts, and so on)
    and which locks are on, and the characters are those of the keys under
    these modifiers. *)
Lemma kbd_tracks (codes : list Z) (m : mods) : Forall is_u8 codes ->
  kbd_chars codes (word_of m) = ((kbd_run codes m).1, word_of (kbd_run codes m).2).
Proof.
  intros H. revert m. induction H as [|d codes Hd _ IH]; intros m; [done|]. cbn [kbd_chars kbd_run]. rewrite kbdgetc_step by done.
  destruct (kbd_step d m) as [c m1]. cbn [fst snd]. rewrite IH. by destruct (kbd_run codes m1).
Qed.
