(* ===== verification/Utils.v ===== *)
(** * Small user programs

    The loops of [cat.c], [cp.c], [wc.c], [head.c] and [ls.c], as functions of
    what their system calls return: the results of [read] in a row, which ends
    with the end of the file. *)
From S2P Require Import Prelude Cstring.
Local Open Scope Z_scope.

Inductive rd := RBytes (bs : list Z) | RError.

(** ** [cat.c] and the copy loop of [cp.c]

    [ws]: what the calls of [write] return.  The bytes handed to [write], and how
    the loop ends. *)
Inductive copy_end := CopyDone | WriteError | ReadError.

Fixpoint copy_loop (rs : list rd) (ws : list Z) : list (list Z) * copy_end :=
  match rs with
  | [] | RBytes [] :: _ => ([], CopyDone)
  | RError :: _ => ([], ReadError)
  | RBytes bs :: rs' =>
      if negb (default (-1) (head ws) =? Z.of_nat (length bs)) then ([bs], WriteError)
      else let (l, e) := copy_loop rs' (tail ws) in (bs :: l, e)
  end.

Definition cat (rs : list rd) (ws : list Z) : list (list Z) * copy_end := copy_loop rs ws.

(** The name that [cp] takes from the source when the target ends in a slash:
    the loop over the slashes of [pos]. *)
Fixpoint cp_name (fuel : nat) (pos : list Z) : list Z :=
  match fuel with
  | O => pos
  | S fuel' =>
      match strchr pos 47 with
      | Some i => let tmp := drop (S i) pos in if byte_at tmp 0 =? 0 then pos else cp_name fuel' tmp
      | None => pos
      end
  end.

(** The name of the file that [cp] creates. *)
Definition cp_target (src dst : list Z) : list Z :=
  if byte_at dst (length dst - 1) =? 47 then dst ++ cp_name (length src) src else dst.

(** ** [wc.c] *)

Record counts := mkCounts { c_l : Z; c_w : Z; c_c : Z; c_in : bool }.

Definition wc_byte (st : counts) (b : Z) : counts :=
  let c := s32 (c_c st + 1) in
  let l := if b =? 10 then s32 (c_l st + 1) else c_l st in
  match strchr [32; 13; 9; 10; 11] b with
  | Some _ => mkCounts l (c_w st) c false
  | None => if negb (c_in st) then mkCounts l (s32 (c_w st + 1)) c true else mkCounts l (c_w st) c (c_in st)
  end.

Fixpoint wc_loop (rs : list rd) (st : counts) : option counts :=
  match rs with
  | [] | RBytes [] :: _ => Some st
  | RError :: _ => None
  | RBytes bs :: rs' => wc_loop rs' (foldl wc_byte st bs)
  end.

(** The lines, words and characters that are printed, or a read error. *)
Definition wc (rs : list rd) : option (Z * Z * Z) :=
  st ← wc_loop rs (mkCounts 0 0 0 false); mret (c_l st, c_w st, c_c st).

(** ** [head.c] *)

(** The inner loop of [head] over the bytes of one read: the output and [l]. *)
Fixpoint head_bytes (bs : list Z) (l n moden : Z) : list Z * Z :=
  match bs with
  | [] => ([], l)
  | b :: bs' =>
      if l <? n then
        let l' := if (b =? 10) && negb (moden =? 2) then l + 1 else if moden =? 2 then l + 1 else l in
        let (out, l2) := head_bytes bs' l' n moden in (b :: out, l2)
      else ([], l)
  end.

(** The outer loop; the second result says whether [head] ends without a read
    error. *)
Fixpoint head_loop (rs : list rd) (l n moden : Z) : list Z * bool :=
  match rs with
  | [] | RBytes [] :: _ => ([], true)
  | RError :: _ => ([], false)
  | RBytes bs :: rs' =>
      if l <? n then
        let (out, l') := head_bytes bs l n moden in
        let (out', ok) := head_loop rs' l' n moden in (out ++ out', ok)
      else ([], true)
  end.

Definition head_file (rs : list rd) (n moden : Z) : list Z * bool := head_loop rs 0 n moden.

(** What [main] of [head.c] does with its arguments. *)
Inductive hact := HHead (fn : list Z) (n mode moden : Z) | HNewline | HError (err : Z) (s : list Z) | HVersion | HHelp.

Definition str_version : list Z := [118; 101; 114; 115; 105; 111; 110].
Definition str_help : list Z := [104; 101; 108; 112].

(** The argument loop from the argument [args] on; [null_str] is what a null
    pointer points at. *)
Fixpoint head_args (fuel : nat) (null_str : list Z) (args : list (list Z)) (n mode moden : Z) : list hact :=
  match fuel, args with
  | S fuel', a :: rest =>
      if byte_at a 0 =? 45 then
        let c := byte_at a 1 in
        if (c =? 110) || (c =? 99) then
          let v := default null_str (head rest) in
          if atoi v =? 0 then [HError (if c =? 110 then 3 else 4) v]
          else head_args fuel' null_str (tail rest) (atoi v) mode (if c =? 110 then 1 else 2)
        else if c =? 118 then head_args fuel' null_str rest n 2 moden
        else if c =? 113 then head_args fuel' null_str rest n 1 moden
        else if c =? 45 then
          if strcmp (drop 2 a) str_version =? 0 then [HVersion]
          else if strcmp (drop 2 a) str_help =? 0 then [HHelp]
          else [HError 1 a]
        else [HError 1 a]
      else
        let more := match rest with [] => false | _ => true end in
        let mode' := if more && (mode =? 0) then 2 else mode in
        HHead a n mode' moden :: (if more then [HNewline] else []) ++ head_args fuel' null_str rest n mode' moden
  | _, _ => []
  end.

Definition head_main (null_str : list Z) (args : list (list Z)) : list hact :=
  match args with
  | [] => [HHead [95; 115; 116; 100; 105; 110] 10 0 0]
  | _ => head_args (length args) null_str args 10 0 0
  end.

(** ** [ls.c] *)

Definition DIRSIZ : Z := 14.

(** The loop of [fmtname] that goes back to a slash; [i] is [p - path]. *)
Fixpoint back (path : list Z) (i : nat) : nat :=
  if byte_at path i =? 47 then S i else match i with O => O | S i' => back path i' end.

(** [fmtname], with the static buffer: the string it returns and the buffer. *)
Definition fmtname (path buf : list Z) : list Z * list Z :=
  let p := drop (back path (length path)) path in
  let n := Z.of_nat (length p) in
  if DIRSIZ <=? n then (p, buf)
  else
    let buf' := p ++ replicate (Z.to_nat (DIRSIZ - n)) 32 ++ drop (Z.to_nat DIRSIZ) buf in
    (cstr (length buf') buf', buf').

Definition T_DIR : Z := 1.
Definition T_FILE : Z := 2.

Record status := mkStatus { st_type : Z; st_ino : Z; st_size : Z }.
Inductive lsline := LEntry (name : list Z) (st : status) | LNoStat (path : list Z) | LNoOpen | LTooLong.

(** The directory loop: the entries are the inode numbers and names that are
    read, [stat] is the call, [pre] is the path with its slash. *)
Fixpoint ls_dir (stat : list Z -> option status) (pre : list Z) (des : list (Z * list Z)) (buf : list Z) : list lsline :=
  match des with
  | [] => []
  | (inum, name) :: des' =>
      if inum =? 0 then ls_dir stat pre des' buf
      else
        let path := pre ++ cstr (Z.to_nat DIRSIZ) name in
        match stat path with
        | None => LNoStat path :: ls_dir stat pre des' buf
        | Some st => let (s, buf') := fmtname path buf in LEntry s st :: ls_dir stat pre des' buf'
        end
  end.

Definition ls (stat : list Z -> option status) (path : list Z) (opened : bool) (st : option status) (des : list (Z * list Z)) (buf : list Z) : list lsline :=
  if negb opened then [LNoOpen]
  else match st with
  | None => [LNoStat path]
  | Some st =>
      if st_type st =? T_FILE then [LEntry (fmtname path buf).1 st]
      else if st_type st =? T_DIR then
        if 512 <? Z.of_nat (length path) + 1 + DIRSIZ + 1 then [LTooLong]
        else ls_dir stat (path ++ [47]) des buf
      else []
  end.

(** ** What they do *)

(** Chunks of any sizes. *)
Definition chunks (cs : list (list Z)) : list rd := RBytes <$> cs.
Definition nonempty (cs : list (list Z)) : Prop := Forall (fun c => c <> []) cs.

(** Everything that is read is written, in order. *)
Lemma copy_all cs : nonempty cs -> copy_loop (chunks cs) ((fun c => Z.of_nat (length c)) <$> cs) = (cs, CopyDone).
Proof.
  induction 1 as [|c cs Hc _ IH]; [done|]. cbn. destruct c as [|b c]; [done|]. rewrite Z.eqb_refl. cbn. unfold chunks in IH. by rewrite IH.
Qed.

Lemma strchr_None s c : c ∉ s -> strchr s c = None.
Proof.
  induction s as [|x s IH]; intros H; [done|]. apply not_elem_of_cons in H as [H1 H2]. cbn. destruct (x =? 0); [done|].
  rewrite (proj2 (Z.eqb_neq x c)) by congruence. by rewrite IH.
Qed.

Lemma strchr_app s t c : 0 ∉ s -> c ∉ s -> c <> 0 -> strchr (s ++ c :: t) c = Some (length s).
Proof.
  induction s as [|x s IH]; intros H0 H Hc; cbn; [by rewrite (proj2 (Z.eqb_neq c 0)), Z.eqb_refl|].
  apply not_elem_of_cons in H as [H1 H2]. apply not_elem_of_cons in H0 as [H3 H4].
  rewrite (proj2 (Z.eqb_neq x 0)), (proj2 (Z.eqb_neq x c)) by congruence. by rewrite IH.
Qed.

(** [cp] to a name with a slash at its end takes the last part of the source. *)
Lemma cp_name_last dir name fuel : 0 ∉ dir -> 0 ∉ name -> 47 ∉ name -> name <> [] -> (length dir < fuel)%nat -> cp_name fuel (dir ++ 47 :: name) = name.
Proof.
  intros H0 Hn0 H47 Hne. revert dir H0. assert (Hlast : forall fuel, cp_name fuel name = name) by (intros [|f]; [done|]; cbn; by rewrite strchr_None).
  induction fuel as [|fuel IH]; intros dir H0 Hl; [lia|]. cbn [cp_name]. cbv zeta.
  assert (Hdrop : forall (d t : list Z), drop (S (length d)) (d ++ 47 :: t) = t) by (intros d t; rewrite drop_app_ge by lia; by replace (S (length d) - length d)%nat with 1%nat by lia).
  destruct (decide (47 ∈ dir)) as [Hin|Hout].
  - apply list_elem_of_split_l in Hin as (d1 & d2 & -> & Hd1). rewrite <- app_assoc. cbn [app].
    rewrite not_elem_of_app, not_elem_of_cons in H0. destruct H0 as (Z1 & _ & Z2). rewrite strchr_app by done.
    rewrite Hdrop.
    assert (Hb : byte_at (d2 ++ 47 :: name) 0 <> 0).
    { destruct d2 as [|x d2]; cbn; [done|]. apply not_elem_of_cons in Z2 as [? _]. unfold byte_at. cbn. done. }
    rewrite (proj2 (Z.eqb_neq _ _) Hb). apply IH; [done|]. rewrite length_app in Hl. simpl in Hl. lia.
  - rewrite strchr_app by done. rewrite Hdrop. destruct name as [|x name]; [done|].
    apply not_elem_of_cons in Hn0 as [Hx _]. unfold byte_at. cbn [lookup list_lookup default from_option id]. rewrite (proj2 (Z.eqb_neq x 0)) by done. apply Hlast.
Qed.

(** *** [head] *)

Lemma head_bytes_take bs l n : head_bytes bs l n 2 = (take (Z.to_nat (n - l)) bs, Z.max l (Z.min n (l + Z.of_nat (length bs)))).
Proof.
  revert l. induction bs as [|b bs IH]; intros l; cbn [head_bytes]; [rewrite take_nil; f_equal; simpl; lia|].
  destruct (Z.ltb_spec l n) as [Hlt|Hge]; [|replace (Z.to_nat (n - l)) with 0%nat by lia; f_equal; lia].
  change (2 =? 2) with true. cbn [negb]. rewrite andb_false_r. cbv iota. rewrite IH. replace (Z.to_nat (n - l)) with (S (Z.to_nat (n - (l + 1)))) by lia. cbn [take length]. f_equal. lia.
Qed.

(** [head -c] prints the first [n] bytes, however they are read. *)
Lemma head_first_bytes cs n : nonempty cs -> head_file (chunks cs) n 2 = (take (Z.to_nat n) (concat cs), true).
Proof.
  unfold head_file. intros H. rewrite <- (Z.sub_0_r n) at 2. generalize 0. induction H as [|c cs Hc _ IH]; intros l; [cbn; by rewrite take_nil|].
  cbn [chunks fmap list_fmap head_loop]. destruct c as [|b c]; [done|]. destruct (Z.ltb_spec l n) as [Hlt|Hge].
  - rewrite head_bytes_take. fold (chunks cs). rewrite IH. cbn [concat]. rewrite take_app. f_equal. f_equal. f_equal.
    remember (b :: c) as x. lia.
  - by replace (Z.to_nat (n - l)) with 0%nat by lia.
Qed.

(** The text up to the end of line [n]. *)
Fixpoint first_lines (n : nat) (t : list Z) : list Z :=
  match n, t with
  | O, _ | _, [] => []
  | S n', b :: t' => b :: first_lines (if b =? 10 then n' else n) t'
  end.

Lemma first_lines_0 t : first_lines 0 t = [].
Proof. by destruct t. Qed.

Lemma head_bytes_lines bs l n moden : moden <> 2 -> 
  let r := head_bytes bs l n moden in
  r.1 = first_lines (Z.to_nat (n - l)) bs /\
  forall t, first_lines (Z.to_nat (n - l)) (bs ++ t) = r.1 ++ first_lines (Z.to_nat (n - r.2)) t.
Proof.
  intros Hm. revert l. induction bs as [|b bs IH]; intros l; cbn [head_bytes].
  - split; [by destruct (Z.to_nat (n - l))|done].
  - destruct (Z.ltb_spec l n) as [Hlt|Hge].
    + rewrite (proj2 (Z.eqb_neq moden 2)) by done. rewrite andb_true_r.
      destruct (Z.to_nat (n - l)) as [|k] eqn:Ek; [lia|]. specialize (IH (if b =? 10 then l + 1 else l)).
      replace (Z.to_nat (n - (if b =? 10 then l + 1 else l))) with (if b =? 10 then k else S k) in IH by (destruct (b =? 10); lia).
      destruct (head_bytes bs _ n moden) as [out l2]. cbn [fst snd] in *. destruct IH as [IH1 IH2]. split; [cbn [first_lines]; by rewrite IH1|].
      intros t. cbn [app first_lines]. by rewrite IH2.
    + cbn [fst snd]. replace (Z.to_nat (n - l)) with 0%nat by lia. split; [done|]. intros t. by rewrite !first_lines_0.
Qed.

(** [head] and [head -n] print the first [n] lines, however they are read. *)
Lemma head_first_lines cs n moden : moden <> 2 -> nonempty cs -> head_file (chunks cs) n moden = (first_lines (Z.to_nat n) (concat cs), true).
Proof.
  intros Hm. unfold head_file. intros H. rewrite <- (Z.sub_0_r n) at 2. generalize 0. induction H as [|c cs Hc _ IH]; intros l; cbn [concat].
  { by destruct (Z.to_nat (n - l)). }
  cbn [chunks fmap list_fmap head_loop]. destruct c as [|b c]; [done|]. destruct (Z.ltb_spec l n) as [Hlt|Hge].
  - pose proof (head_bytes_lines (b :: c) l n moden Hm) as [H1 H2]. destruct (head_bytes (b :: c) l n moden) as [out l']. cbn [fst snd] in *.
    fold (chunks cs). rewrite IH. by rewrite H2.
  - replace (Z.to_nat (n - l)) with 0%nat by lia. by rewrite first_lines_0.
Qed.

(** *** [fmtname] *)

Lemma back_last dir name i : 47 ∉ name -> (i <= length name)%nat -> back (dir ++ 47 :: name) (length dir + i) = S (length dir).
Proof.
  intros Hn. induction i as [|i IH]; intros Hi.
  - rewrite Nat.add_0_r. assert (E : byte_at (dir ++ 47 :: name) (length dir) = 47) by (unfold byte_at; rewrite lookup_app_r by lia; by rewrite Nat.sub_diag).
    destruct (length dir); cbn [back]; by rewrite E.
  - rewrite Nat.add_succ_r. cbn [back]. replace (S (length dir + i)) with (length dir + S i)%nat by lia.
    assert (E : byte_at (dir ++ 47 :: name) (length dir + S i) <> 47).
    { unfold byte_at. rewrite lookup_app_r by lia. replace (length dir + S i - length dir)%nat with (S i) by lia. cbn. destruct (name !! i) as [c|] eqn:Ec; [|done].
      rewrite ?default_Some. simpl. intros ->. apply Hn. by eapply list_elem_of_lookup_2. }
    rewrite (proj2 (Z.eqb_neq _ _) E). apply IH. lia.
Qed.

Lemma back_none path i : 47 ∉ path -> back path i = 0%nat.
Proof.
  intros Hn. assert (E : forall j, byte_at path j <> 47).
  { intros j. unfold byte_at. destruct (path !! j) as [c|] eqn:Ec; [|done]. simpl. intros ->. apply Hn. by eapply list_elem_of_lookup_2. }
  induction i as [|i IH]; cbn [back]; by rewrite (proj2 (Z.eqb_neq _ _) (E _)).
Qed.

Definition padded (name : list Z) : list Z := name ++ replicate (14 - length name) 32.

Lemma fmtname_buf name buf path : drop (back path (length path)) path = name -> 0 ∉ name -> length buf = 15%nat -> byte_at buf 14 = 0 ->
  (fmtname path buf).1 = padded name /\ length (fmtname path buf).2 = 15%nat /\ byte_at (fmtname path buf).2 14 = 0.
Proof.
  intros E H0 Hl Hz. unfold fmtname, padded, DIRSIZ. rewrite E. destruct (Z.leb_spec 14 (Z.of_nat (length name))) as [Hge|Hlt]; cbn [fst snd].
  - replace (14 - length name)%nat with 0%nat by lia. by rewrite app_nil_r.
  - replace (Z.to_nat (14 - Z.of_nat (length name))) with (14 - length name)%nat by lia. change (Z.to_nat 14) with 14%nat.
    assert (Eb : drop 14 buf = [0]).
    { destruct (lookup_lt_is_Some_2 buf 14 ltac:(lia)) as [x Hx]. rewrite (drop_S _ x 14) by done. rewrite drop_ge by lia. unfold byte_at in Hz. rewrite Hx in Hz. by rewrite <- Hz. }
    rewrite Eb, app_assoc. set (p := name ++ replicate (14 - length name) 32).
    assert (Hp : length p = 14%nat) by (unfold p; rewrite length_app, length_replicate; lia).
    split; [|split; [rewrite length_app, Hp; done|unfold byte_at; by rewrite lookup_app_r, Hp by lia]].
    apply cstr_app_nul; [|rewrite length_app; simpl; lia]. unfold p. apply Forall_app. split; [|by apply Forall_replicate].
    apply Forall_forall. intros c Hc ->. done.
Qed.

(** [fmtname] gives the last part of a path, padded with blanks to [DIRSIZ]
    characters, and keeps the end of its buffer. *)
Lemma fmtname_last dir name buf : 0 ∉ name -> 47 ∉ name -> length buf = 15%nat -> byte_at buf 14 = 0 ->
  ((fmtname (dir ++ 47 :: name) buf).1 = padded name /\ byte_at (fmtname (dir ++ 47 :: name) buf).2 14 = 0) /\
  (fmtname name buf).1 = padded name /\ byte_at (fmtname name buf).2 14 = 0.
Proof.
  intros H0 Hn Hl Hz. split.
  - destruct (fmtname_buf name buf (dir ++ 47 :: name)) as (H1 & _ & H2); try done. rewrite length_app. cbn [length]. rewrite Nat.add_succ_r.
    assert (E : back (dir ++ 47 :: name) (S (length dir + length name)) = S (length dir)).
    { cbn [back]. assert (Eb : byte_at (dir ++ 47 :: name) (S (length dir + length name)) = 0) by (unfold byte_at; rewrite lookup_ge_None_2; [done|rewrite length_app; simpl; lia]).
      rewrite Eb. cbn. by apply back_last. }
    rewrite E, drop_app_ge by lia. by replace (S (length dir) - length dir)%nat with 1%nat by lia.
  - destruct (fmtname_buf name buf name) as (H1 & _ & H2); try done. by rewrite back_none.
Qed.

(** *** [wc] *)

Definition blank (b : Z) : bool := match strchr [32; 13; 9; 10; 11] b with Some _ => true | None => false end.

(** The text cut at its blanks. *)
Fixpoint pieces (t : list Z) : list (list Z) :=
  match t with
  | [] => [[]]
  | c :: t' => if blank c then [] :: pieces t' else match pieces t' with p :: ps => (c :: p) :: ps | [] => [[c]] end
  end.
Definition words (t : list Z) : list (list Z) := filter (fun w => w <> []) (pieces t).

(** The words that begin in [t], after a word if [inw]. *)
Fixpoint begins (inw : bool) (t : list Z) : Z :=
  match t with
  | [] => 0
  | c :: t' => if blank c then begins false t' else (if inw then 0 else 1) + begins true t'
  end.

Lemma begins_words t : begins false t = Z.of_nat (length (words t)) /\ begins true t = Z.of_nat (length (filter (fun w => w <> []) (tail (pieces t)))).
Proof.
  induction t as [|c t [IH1 IH2]]; [done|]. unfold words in *. cbn [begins pieces]. destruct (blank c).
  - rewrite filter_cons_False by (intros Hx; by apply Hx). done.
  - assert (Hp : pieces t <> []) by (destruct t as [|c' t]; cbn; [done|]; destruct (blank c'); [done|]; by destruct (pieces t)).
    destruct (pieces t) as [|p ps]; [done|]. cbn [tail] in *. rewrite filter_cons_True by done. cbn [length]. rewrite IH2. split; [lia|done].
Qed.

Definition newlines (t : list Z) : Z := Z.of_nat (length (filter (fun b => b = 10) t)).

Lemma begins_bounds inw t : 0 <= begins inw t <= Z.of_nat (length t).
Proof. revert inw. induction t as [|c t IH]; intros inw; cbn [begins length]; [lia|]. pose proof (IH true). pose proof (IH false). destruct (blank c), inw; lia. Qed.

Lemma newlines_bounds t : 0 <= newlines t <= Z.of_nat (length t).
Proof. unfold newlines. pose proof (length_filter (fun b => b = 10) t). lia. Qed.

(** No counter of [st] has passed [k]. *)
Definition below (k : Z) (st : counts) : Prop := 0 <= c_l st <= k /\ 0 <= c_w st <= k /\ 0 <= c_c st <= k.

Lemma wc_bytes_count t st k : below k st -> k + Z.of_nat (length t) < 2 ^ 31 ->
  let st' := foldl wc_byte st t in
  c_l st' = c_l st + newlines t /\ c_w st' = c_w st + begins (c_in st) t /\ c_c st' = c_c st + Z.of_nat (length t) /\ below (k + Z.of_nat (length t)) st' /\
  forall u, begins (c_in st) (t ++ u) = begins (c_in st) t + begins (c_in st') u.
Proof.
  revert st k. induction t as [|b t IH]; intros st k Hb Hk; cbn [foldl].
  { unfold newlines. cbn. rewrite !Z.add_0_r. repeat split; (done || apply Hb). }
  cbn [length] in Hk. assert (Hb' : below (k + 1) (wc_byte st b) /\ c_l (wc_byte st b) = c_l st + (if b =? 10 then 1 else 0) /\ c_c (wc_byte st b) = c_c st + 1 /\
    c_w (wc_byte st b) = c_w st + (if blank b then 0 else if c_in st then 0 else 1) /\ c_in (wc_byte st b) = negb (blank b)).
  { unfold below in *. unfold wc_byte, blank. destruct (strchr _ b); [|destruct (c_in st) eqn:Ei]; cbn [negb c_l c_w c_c c_in];
      rewrite !s32_id by lia; destruct (b =? 10); rewrite ?s32_id by lia; rewrite ?Ei; repeat split; try lia; done. }
  destruct Hb' as (B1 & B2 & B3 & B4 & B5). destruct (IH (wc_byte st b) (k + 1) B1 ltac:(lia)) as (H1 & H2 & H3 & H4 & H5).
  cbv zeta. rewrite H1, H2, H3, B2, B3, B4. cbn [length]. rewrite B5 in *. split_and!.
  - unfold newlines. destruct (Z.eqb_spec b 10) as [->|Hn]; [rewrite filter_cons_True by done|rewrite filter_cons_False by done]; cbn [length]; lia.
  - cbn [begins]. destruct (blank b), (c_in st); cbn [negb]; lia.
  - lia.
  - by replace (k + Z.of_nat (S (length t))) with (k + 1 + Z.of_nat (length t)) by lia.
  - intros u. cbn [app begins]. specialize (H5 u). destruct (blank b); cbn [negb] in *; lia.
Qed.

Lemma newlines_app t u : newlines (t ++ u) = newlines t + newlines u.
Proof. unfold newlines. rewrite filter_app, length_app. lia. Qed.

Lemma wc_loop_count cs st k : nonempty cs -> below k st -> k + Z.of_nat (length (concat cs)) < 2 ^ 31 ->
  exists inw, wc_loop (chunks cs) st =
    Some (mkCounts (c_l st + newlines (concat cs)) (c_w st + begins (c_in st) (concat cs)) (c_c st + Z.of_nat (length (concat cs))) inw).
Proof.
  intros H. revert st k. induction H as [|c cs Hc _ IH]; intros st k Hb Hk; cbn [concat].
  { exists (c_in st). unfold newlines. cbn. rewrite !Z.add_0_r. by destruct st. }
  cbn [concat] in Hk. rewrite length_app in Hk. destruct (wc_bytes_count c st k Hb ltac:(lia)) as (H1 & H2 & H3 & H4 & H5).
  destruct (IH (foldl wc_byte st c) (k + Z.of_nat (length c)) H4 ltac:(lia)) as (inw & E). exists inw.
  cbn [chunks fmap list_fmap wc_loop]. destruct c as [|b c]; [done|]. fold (chunks cs). rewrite E, H1, H2, H3, H5, newlines_app, length_app.
  do 2 f_equal; lia.
Qed.

(** [wc] prints the numbers of lines, words and characters of a file of less
    than 2 GB, however it is read. *)
Lemma wc_counts cs : nonempty cs -> Z.of_nat (length (concat cs)) < 2 ^ 31 ->
  wc (chunks cs) = Some (newlines (concat cs), Z.of_nat (length (words (concat cs))), Z.of_nat (length (concat cs))).
Proof.
  intros H Hl. unfold wc. destruct (wc_loop_count cs (mkCounts 0 0 0 false) 0 H ltac:(unfold below; cbn; lia) ltac:(lia)) as (inw & ->).
  cbn [mbind option_bind c_l c_w c_c c_in]. by rewrite (proj1 (begins_words _)), !Z.add_0_l.
Qed.
